(* ===== verification/_CoqProject ===== *)
-Q . S2P
Prelude.v
CoreTypes.v
Text.v
StreamHub.v
Pipeline.v
PipelineProto.v
PipelineInv.v
PipelineSystem.v
PipelineSpec.v
Tuning.v
StateStore.v
ConfigStore.v
Pins.v
Night.v
NightSpec.v
NetworkTxn.v
Connectivity.v
Routes.v
RouteManager.v
At.v
BandPlan.v
SimManager.v
DataLink.v
EcmLink.v
PppLink.v
LinkHistory.v
Bytes.v
Base64.v
Sha1.v
Aes.v
G711.v
Rtp.v
H264.v
Sps.v
Packetize.v
Srtp.v
SrtpFacts.v
SrtpSpec.v
SrtcpSpec.v
WebSocket.v
Stun.v
Session.v
HttpParse.v
HttpSpec.v
HttpHeadSpec.v
HtmlInject.v
HttpRelay.v
HttpRelaySpec.v
HttpRelayLife.v
Sdp.v
SdpSpec.v
Dtls.v
Peer.v
PeerSpec.v
PeerVideo.v
PeerState.v
RtpJpeg.v
RtspGate.v
RtspSession.v
RtspClient.v
RtspMedia.v
RtspListener.v
