(* ===== verification/Prelude.v ===== *)
(** * Machino core: verification library

    Machino (src/machino) is the camera daemon of this repository: it turns a
    sensor and the vendor's media hardware into streams, runs them only while
    somebody watches, and keeps the camera reachable over wire, WiFi and a
    cellular modem.  This library models the parts of its C++ core that decide
    something and proves what makes them correct.  Paths below are relative to
    src/machino/src.

    ** The program and its parts

    - Media.  [PipelineManager] (core/lifecycle) starts and stops the chain
      frame source - encoder - capture thread for each stream by counting the
      consumers; captured access units come from a pool (core/frame.hpp) and are
      fanned out by a [StreamHub] (core/stream_hub) to one bounded queue per
      consumer.
    - Persistence.  [IStateStore] and its file implementation
      (core/state_store) keep small values across a loss of power;
      [NetworkTxn] (core/net/network_txn) uses it to put a network change to the
      test and take it back when nobody confirms it.
    - Network.  [ConnectivityManager] (core/net/connectivity) selects the uplink
      in use; [plan_routes] (core/net/route_plan) says which default routes and
      resolvers follow from that; [RouteManager] (core/net/route_manager) brings
      the kernel there.
    - Transport (app/rtp, app/rtsp, app/webrtc, core/audio/g711).  An access unit
      is split into NAL units and packed into RTP; a browser gets the packets
      encrypted (SRTP) after it proved itself over STUN, and talks back in G.711.
    - Front door (app/http).  [SessionGate] decides who may do anything; events go
      out over WebSocket; what is not the daemon's is relayed to the web interface.
    - Cellular (core/cellular).  AT answers are framed and parsed, bands and
      modes translated, the SIM is unlocked, and one of two data links (ECM over
      USB network, PPP over pppd) brings the connection up.

    ** Files

    - Prelude: record update, the state monad [ST], its Hoare triples [wp] with
      the rules every proof about an operation uses, tactics, list lemmas.
    - CoreTypes: core/result.hpp, and the plain data of config.hpp and frame.hpp.
    - Text: [std::string] as a list of bytes; find, substr, decimal printing.
    - StreamHub: Modules Sink, Hub, AuPool.
    - Pipeline: state and every operation of [PipelineManager], over a class
      [Platform] of answers of the vendor stack.  PipelineProto: the protocol
      of the hardware as an automaton and the triples of the media chain
      against it.  PipelineInv: the invariant of the manager and that every
      operation keeps it.  PipelineSystem: the manager together with its
      consumers as a transition system.  PipelineSpec: the theorems.
    - Tuning: image controls and the latency preset, on the manager and its
      consumers; its hook runs at every start of the base.
    - StateStore: class [StateStore] with the laws of the interface
      ([StateStoreLaws]), [FileStateStore] on the system calls it makes, and the
      instance that discharges the laws.  ConfigStore: machino.conf as text, its
      rewriting, its load and commit on the same system calls.
    - Pins: names of pins.  Night: [NightService] over Tuning, ConfigStore and the
      port for pins (class [Gpio]); NightSpec: its histories.
    - NetworkTxn: the records and their codec, the transaction over any store,
      its histories with crashes.
    - Connectivity: selection, damping, subscribers.  Routes: the plan.
      RouteManager: the reconciliation over a class [RouteBackend].
    - At: framing and parsers.  BandPlan: bands and masks.  SimManager: the
      transport and the PIN.
    - DataLink: what both data links share, the interface [ICellularDataLink] as
      class [DataLink] with laws [DataLinkLaws], and the histories of any link.
      EcmLink, PppLink: the two state machines, each with its instance of the
      laws.  LinkHistory: what holds of both, and runs of both in one world.
    - Bytes: octets, big-endian words, reads past the end as [None].  Base64:
      the two encoders and three decoders of the program.  Sha1 and Aes: the two
      primitives the program carries itself, next to the standards they
      implement (Modules Fips and Fips197).  G711: the companding laws.
    - Rtp: headers, RTCP, interleaved frames.  H264: splitting.  Sps: the
      rewritten VUI of a parameter set.  Packetize: RTP
      packets of an access unit, next to a receiver.  Srtp: [SrtpSession];
      SrtpFacts: counter mode, slots and windows; SrtpSpec, SrtcpSpec: what
      holds of RTP and of RTCP.  Stun: requests and answers.  WebSocket: frames.
      Session: [SessionGate].
    - HttpParse: requests, what is written for the web interface behind, heads of
      relayed answers.  HttpSpec: what is accepted and passed on; HttpHeadSpec:
      files by path, and where an answer ends.  HtmlInject: insertions into pages.
    - HttpRelay: the relay of a client, its two sockets being the class [Kernel];
      HttpRelaySpec: what the browser gets; HttpRelayLife: loops, deadlines, and
      all clients of the poll loop.
    - Sdp: offer and answer; SdpSpec: the answer read back.  Dtls: the transport
      around a TLS library, which is the class [Tls].  Peer: [PeerSession] over
      all of these, its socket being the class [Socket].  PeerSpec: whom a session talks to; PeerVideo: what
      the browser gets; PeerState: the state as a sequence of small changes.
    - RtpJpeg: stills as RTP, next to a receiver.  RtspGate: who may use the RTSP
      server, over a class [Accounts].  RtspSession: what a request does to a
      session, over the class [World] of everything it asks; RtspClient: the
      thread of a client, from the bytes of its connection to the media it is
      sent and says; RtspMedia: what a client gets; RtspListener: the listener and its
      control, its kernel being the class [Net].

    ** How the models are made

    A class of the program is a record of its members; a method is a
    computation of [ST] on that record (explicit state passing), composed of the
    definitions of the methods it calls.  Where a method runs under a mutex, one
    computation is one critical section, and a history is any list of them, so
    that theorems about histories hold for every schedule.  What a component
    asks of the outside - the vendor stack, the kernel, the file system, the
    modem, pppd - is answered by functions given as a type class, which see
    everything asked so far and may answer anything; every call is also
    recorded in a log, newest first, and the theorems speak about that log.
    Machine integers are [Z]; [u32], [i32], [u64] write out where they wrap.
    A pointer to an object of the program is a number.

    Fuel: [lines]-like loops recurse on their list; [FileStateStore.save] takes
    the number of [write] calls as fuel and its theorem holds for any amount (a
    run that ends there counts as a failed write); [backoff_loop] needs at most
    five steps because it doubles up to 30; number printing uses the
    number of digits.  The block loop of SHA-1 gets two rounds more than the
    message has full blocks; loops over a buffer ([split_loop], [fragments],
    [rtcp_loop], [attributes], [cm_blocks], the form and cookie loops) its length,
    since each round consumes something; [drop_oldest] the number of sessions.
    Their theorems show that this is enough.  An Exp-Golomb code ends after 33
    zeros, and [align] after seven bits.  [Peer.flush_loop] gets one round per
    datagram that waits, [send_chunks], [write_loop] and [HttpRelay.flush_loop] one
    per octet; [read_fuel] is what the limits of the relay add up to.
    [drain] gets one round more than there are octets in the buffer; a history of
    [client_loop] is any number of passes.

    ** What is shown

    - Media (PipelineSpec, StreamHub): every call sequence the manager makes is
      one the hardware allows; its counters are exactly the handles held; a
      start succeeds completely or leaves nothing; no consumer means no
      hardware after the grace period; FAILED is final; a restart keeps the
      demand.  An image control that a service holds stays held and is the
      user's again afterwards (Tuning).  A consumer only gets frames it can
      decode, whatever other consumers do, in bounded memory.
    - Day and night (NightSpec, Pins): the night borrows the running mode and
      gives it back; the photocell switches on steady light only; the coil of
      the filter gets one pulse per turn; a broken actuator is left alone; a pin
      has one name.
    - Persistence (StateStore, ConfigStore, NetworkTxn): a save is all or nothing
      at every point where power may fail; a commit of settings changes the
      lines asked for, in memory and on flash or in neither; a change that was not confirmed is gone after
      a crash at any point, one that was confirmed is kept; the window is exact
      across the wrap of the clock; records are read back or rejected.
    - Network (Connectivity, Routes, RouteManager): the selection rule; a
      switch was steady for the whole window; subscribers see an unbroken path
      of changes; the active uplink has the lowest metric; a reconciliation
      never takes away the last exit of an interface, converges, and gives the
      resolvers back.
    - Cellular (At, BandPlan, SimManager, EcmLink, PppLink, LinkHistory): an
      answer is complete with its result line; fields, masks and names are read
      back; a PIN is sent once; a mode is switched once; one pppd at a time; a
      link waits for the network.
    - Transport (Packetize, Sps, SrtpSpec, SrtcpSpec, Rtp, Stun, Aes, Sha1, G711):
      a receiver gets back what was packed; a parameter set keeps its bits when
      its restriction is stated; what one side encrypts the other decrypts, once
      and across rollovers, and nothing else; a hostile packet is read within its
      bounds; a request counts as authenticated only with its HMAC; the ciphers
      are the standard ones; companding keeps its precision.
    - WebRTC session (SdpSpec, PeerSpec, PeerVideo, PeerState): an answer says
      what was decided, section by section; nothing is sent to an
      address that did not prove itself, and media never leaves unencrypted; a
      browser with the keys sees and hears what was sent; video resumes with a
      key unit after a loss; the members keep their types.
    - HTTP (HttpSpec, HttpHeadSpec, HtmlInject): the verdict on a request does not
      depend on how it arrived; what is passed on is what was checked, and no line
      more; a connection is kept only where the browser finds the end of the answer;
      pages are only added to.
    - Relay (HttpRelaySpec, HttpRelayLife): what the browser is given follows from
      what came, however it came; a connection that stays open is in step; a relay
      ends in time, its loops by themselves; sockets and buffers stay within the
      limits, for any number of clients.
    - RTSP (RtpJpeg, RtspGate, RtspSession, RtspClient, RtspMedia, RtspListener): who is let in;
      nobody else starts anything; a session holds what its state says and gives
      all of it back, whatever ends it; the buffer of a client is bounded and never
      stalls; the picture, as video or as stills, arrives; switching the server on and
      off and moving it to another port loses no descriptor and never the listener that works.
    - Front door (WebSocket, Session, Base64): frames and fields come back; a
      cookie passes exactly when it was given out, not revoked, not expired and
      not evicted.
    - Where the code departs from what its comments promise, a history or a
      computed Example shows it next to the theorems.

    ** What is not modelled

    Texts for display and logging; threads and condition variables beyond the
    order of critical sections (a wait that times out changes no state); memory
    management; the vendor library, the kernel and other processes behind the
    ports, and the TLS library; the socket
    loops of ONVIF and of HTTP what is not the relay (the daemon's own routes and its
    streams), the API and the services for audio, detection, USB and IPsec.  The
    random source, the credential check and the order of a hash map are
    parameters.  The C sources under src/src and src/weirdike-openipc are
    other programs. *)

From stdpp Require Export base tactics list gmap strings.
From Stdlib Require Export ZArith Lia.

#[global] Set Default Goal Selector "!".

Declare Scope machino_scope.
Delimit Scope machino_scope with machino.
#[global] Open Scope Z_scope.
#[global] Open Scope machino_scope.

(** ** Record update

    [r <| f := v |>] and [r <| f ::= g |>] copy a record with one field
    changed.  A record gives its eta expansion as an instance of [Settable];
    the setter of a field is then found by abstracting the field out of it. *)

Class Settable (R : Type) := eta_expansion : R -> R.

Class Setter {R E : Type} (proj : R -> E) := upd : (E -> E) -> R -> R.
#[global] Arguments upd {R E} proj {_} _ _ /.

Ltac derive_setter :=
  lazymatch goal with
  | |- @Setter ?R ?E ?proj =>
      let eta := constr:(_ : Settable R) in
      let eta := eval red in eta in
      let g := fresh "g" in let r := fresh "r" in
      intros g r;
      let body := eval cbv beta in (eta r) in
      lazymatch (eval pattern (proj r) in body) with
      | ?ctx _ => let t := eval cbv beta in (ctx (g (proj r))) in exact t
      end
  end.

#[global] Hint Extern 1 (@Setter _ _ _) => derive_setter : typeclass_instances.

#[warnings="-postfix-notation-not-level-1"]
Notation "r <| f ::= g |>" := (upd f g r)
  (at level 12, f at next level, left associativity) : machino_scope.
#[warnings="-postfix-notation-not-level-1"]
Notation "r <| f := v |>" := (upd f (fun _ => v) r)
  (at level 12, f at next level, left associativity) : machino_scope.

(** ** State passing

    Every method of a C++ object that changes the object is a computation of
    [ST S A]: it takes the object's state and returns a result and the new
    state.  A lock held for the whole call makes the call one atomic step. *)

Definition ST (S A : Type) : Type := S -> A * S.

#[global] Instance st_ret {S} : MRet (ST S) := fun A a s => (a, s).
#[global] Instance st_bind {S} : MBind (ST S) := fun A B k m s => let '(a, s') := m s in k a s'.

Definition gets {S A} (f : S -> A) : ST S A := fun s => (f s, s).
Definition modify {S} (f : S -> S) : ST S unit := fun s => (tt, f s).
Definition skip {S} : ST S unit := fun s => (tt, s).
Definition when {S} (b : bool) (m : ST S unit) : ST S unit := if b then m else skip.

Fixpoint for_each {S X} (l : list X) (body : X -> ST S unit) : ST S unit :=
  match l with
  | [] => skip
  | x :: l' => body x ;; for_each l' body
  end.

Definition exec {S A} (m : ST S A) (s : S) : S := (m s).2.
Definition result {S A} (m : ST S A) (s : S) : A := (m s).1.

(** [wp m Q s]: run from [s], [m] gives a result and a state that satisfy [Q].
    The calculus below is the way every component's triples are proved. *)

Definition wp {S A} (m : ST S A) (Q : A -> S -> Prop) (s : S) : Prop :=
  Q (result m s) (exec m s).

Section Wp.
Context {S A B : Type}.
Implicit Types s : S.

Lemma wp_ret (a : A) (Q : A -> S -> Prop) s : Q a s -> wp (mret a) Q s.
Proof. done. Qed.

Lemma wp_skip (Q : unit -> S -> Prop) s : Q tt s -> wp skip Q s.
Proof. done. Qed.

Lemma wp_bind (m : ST S A) (k : A -> ST S B) Q s :
  wp m (fun a => wp (k a) Q) s -> wp (m ≫= k) Q s.
Proof.
  unfold wp, result, exec, mbind, st_bind. by destruct (m s).
Qed.

Lemma wp_bind_inv (m : ST S A) (k : A -> ST S B) Q s :
  wp (m ≫= k) Q s -> wp m (fun a => wp (k a) Q) s.
Proof.
  unfold wp, result, exec, mbind, st_bind. by destruct (m s).
Qed.

Lemma wp_gets (f : S -> A) Q s : Q (f s) s -> wp (gets f) Q s.
Proof. done. Qed.

Lemma wp_modify (f : S -> S) Q s : Q tt (f s) -> wp (modify f) Q s.
Proof. done. Qed.

Lemma wp_when b (m : ST S unit) Q s :
  (b = true -> wp m Q s) -> (b = false -> Q tt s) -> wp (when b m) Q s.
Proof. destruct b; intros H1 H2; [by apply H1|by apply H2]. Qed.

Lemma wp_mono (m : ST S A) (Q Q' : A -> S -> Prop) s :
  wp m Q s -> (forall a s', Q a s' -> Q' a s') -> wp m Q' s.
Proof. unfold wp; auto. Qed.

Lemma wp_conj (m : ST S A) (Q Q' : A -> S -> Prop) s :
  wp m Q s -> wp m Q' s -> wp m (fun a s' => Q a s' /\ Q' a s') s.
Proof. by unfold wp. Qed.

Lemma wp_exec (m : ST S A) (Q : A -> S -> Prop) s :
  wp m Q s -> Q (result m s) (exec m s).
Proof. done. Qed.

(** An invariant a computation keeps whatever it returns. *)
Definition preserves (I : S -> Prop) (m : ST S A) : Prop :=
  forall s, I s -> wp m (fun _ => I) s.
End Wp.

Lemma wp_for_each {S X} (l : list X) (body : X -> ST S unit) (I : list X -> S -> Prop) (s : S) :
  I l s ->
  (forall x l' s', I (x :: l') s' -> wp (body x) (fun _ => I l') s') ->
  wp (for_each l body) (fun _ => I []) s.
Proof.
  intros HI Hb. revert s HI. induction l as [|x l IH]; intros s HI; simpl.
  - by apply wp_skip.
  - apply wp_bind. apply (wp_mono _ (fun _ => I l)); [by apply Hb|]. intros _ s' HI'. by apply IH.
Qed.

Lemma preserves_exec {S A} (I : S -> Prop) (m : ST S A) s :
  preserves I m -> I s -> I (exec m s).
Proof. intros H Hs. by apply H. Qed.

Ltac wp_step :=
  lazymatch goal with
  | |- wp (mret _) _ _ => apply wp_ret
  | |- wp skip _ _ => apply wp_skip
  | |- wp (_ ≫= _) _ _ => apply wp_bind
  | |- wp (gets _) _ _ => apply wp_gets
  | |- wp (modify _) _ _ => apply wp_modify
  | |- wp (when _ _) _ _ => apply wp_when; intros ?
  | |- wp (if ?b then _ else _) _ _ => let E := fresh "E" in destruct b eqn:E
  end; cbv beta.

Ltac wp_go := repeat wp_step.

(** Use a triple already proved for the call at the head of the goal. *)
Tactic Notation "wp_call" uconstr(spec) := eapply wp_mono; [eapply spec|]; cbv beta.

(** ** Machine integers

    The targets are 32-bit (MIPS): [int] and [unsigned] are 32 bits wide and
    [size_t] too.  A value of width [w] is a [Z]; the wrap-around of an
    operation is written out with these truncations. *)

Definition wrap (w : Z) (z : Z) : Z := z mod 2 ^ w.
Definition swrap (w : Z) (z : Z) : Z := (z + 2 ^ (w - 1)) mod 2 ^ w - 2 ^ (w - 1).

Abbreviation u8 := (wrap 8).
Abbreviation u16 := (wrap 16).
Abbreviation u32 := (wrap 32).
Abbreviation u64 := (wrap 64).
Abbreviation i16 := (swrap 16).
Abbreviation i32 := (swrap 32).
Abbreviation i64 := (swrap 64).

Lemma wrap_range w z : 0 <= w -> 0 <= wrap w z < 2 ^ w.
Proof. intros. apply Z.mod_pos_bound. lia. Qed.

Lemma wrap_small w z : 0 <= z < 2 ^ w -> wrap w z = z.
Proof. apply Z.mod_small. Qed.

Lemma wrap_idemp w z : 0 <= w -> wrap w (wrap w z) = wrap w z.
Proof. intros. apply wrap_small, wrap_range. lia. Qed.

Lemma wrap_add_l w a b : wrap w (wrap w a + b) = wrap w (a + b).
Proof. apply Zplus_mod_idemp_l. Qed.

Lemma wrap_add_r w a b : wrap w (a + wrap w b) = wrap w (a + b).
Proof. apply Zplus_mod_idemp_r. Qed.

Lemma wrap_sub_l w a b : wrap w (wrap w a - b) = wrap w (a - b).
Proof. apply Zminus_mod_idemp_l. Qed.

Lemma wrap_sub_r w a b : wrap w (a - wrap w b) = wrap w (a - b).
Proof. apply Zminus_mod_idemp_r. Qed.

Lemma swrap_range w z : 0 < w -> - 2 ^ (w - 1) <= swrap w z < 2 ^ (w - 1).
Proof.
  intros. unfold swrap.
  pose proof (Z.mod_pos_bound (z + 2 ^ (w - 1)) (2 ^ w) ltac:(lia)).
  assert (2 ^ w = 2 * 2 ^ (w - 1)) by (rewrite <- Z.pow_succ_r by lia; f_equal; lia).
  lia.
Qed.

Lemma swrap_small w z : 0 < w -> - 2 ^ (w - 1) <= z < 2 ^ (w - 1) -> swrap w z = z.
Proof.
  intros. unfold swrap.
  assert (2 ^ w = 2 * 2 ^ (w - 1)) by (rewrite <- Z.pow_succ_r by lia; f_equal; lia).
  rewrite Z.mod_small by lia. lia.
Qed.

(** The signed reading of a wrapped unsigned value. *)
Lemma swrap_wrap w z : 0 < w -> swrap w (wrap w z) = swrap w z.
Proof. intros. unfold swrap, wrap. by rewrite Zplus_mod_idemp_l. Qed.

(** ** Lists *)

(** Adjacent elements of a list are related. *)
Fixpoint chain {A} (R : A -> A -> Prop) (l : list A) : Prop :=
  match l with
  | x :: ((y :: _) as l') => R x y /\ chain R l'
  | _ => True
  end.

Section Chain.
Context {A : Type} (R : A -> A -> Prop).

Lemma chain_tail x l : chain R (x :: l) -> chain R l.
Proof. destruct l; simpl; tauto. Qed.

Lemma chain_app_inv_r l1 l2 : chain R (l1 ++ l2) -> chain R l2.
Proof. induction l1 as [|x l1 IH]; [done|]. intros H. apply IH. by eapply chain_tail. Qed.

Lemma chain_app_inv_l l1 l2 : chain R (l1 ++ l2) -> chain R l1.
Proof.
  induction l1 as [|x l1 IH]; [done|]. intros H.
  destruct l1 as [|y l1]; [done|]. destruct H as [Hxy H]. split; [done|]. by apply IH.
Qed.

Lemma chain_snoc l x y : chain R (l ++ [x]) -> R x y -> chain R (l ++ [x; y]).
Proof.
  intros H Hxy. induction l as [|z l IH]; [done|].
  destruct l as [|w l]; simpl in *; [tauto|]. destruct H. split; [done|]. by apply IH.
Qed.

Lemma chain_snoc_last l y :
  chain R l -> (forall x, last l = Some x -> R x y) -> chain R (l ++ [y]).
Proof.
  destruct l as [|x l _] using rev_ind; [done|].
  intros H Hl. rewrite <- app_assoc. apply chain_snoc; [done|]. apply Hl.
  by rewrite last_snoc.
Qed.

Lemma chain_lookup l i x y :
  chain R l -> l !! i = Some x -> l !! S i = Some y -> R x y.
Proof.
  revert i. induction l as [|z l IH]; intros i H; [done|].
  destruct l as [|w l]; [by destruct i|].
  destruct H as [Hzw H]. destruct i as [|i]; simpl.
  - by intros [= ->] [= ->].
  - by apply (IH i).
Qed.
End Chain.

(** ** Automation *)

Create HintDb machino.
#[export] Hint Resolve wrap_range swrap_range wrap_small : machino.


(** Split the conjunctions and existentials of the context. *)
Ltac destruct_ands :=
  repeat match goal with
  | H : _ /\ _ |- _ => destruct H
  | H : exists _, _ |- _ => destruct H
  end.

(** Turn boolean tests of the C++ conditions into propositions. *)
Ltac bool_simpl :=
  repeat match goal with
  | H : negb _ = true |- _ => apply negb_true_iff in H
  | H : negb _ = false |- _ => apply negb_false_iff in H
  | H : (_ && _)%bool = true |- _ => apply andb_true_iff in H; destruct H
  | H : (_ || _)%bool = false |- _ => apply orb_false_iff in H; destruct H
  | H : (_ <? _) = true |- _ => apply Z.ltb_lt in H
  | H : (_ <? _) = false |- _ => apply Z.ltb_ge in H
  | H : (_ <=? _) = true |- _ => apply Z.leb_le in H
  | H : (_ <=? _) = false |- _ => apply Z.leb_gt in H
  | H : (_ =? _) = true |- _ => apply Z.eqb_eq in H
  | H : (_ =? _) = false |- _ => apply Z.eqb_neq in H
  | H : bool_decide _ = true |- _ => apply bool_decide_eq_true in H
  | H : bool_decide _ = false |- _ => apply bool_decide_eq_false in H
  end.
