(* ===== verification/CoreTypes.v ===== *)
(** * Status codes, stream parameters and access units

    [core/result.hpp], the plain data of [core/config.hpp] and
    [core/frame.hpp] that every component exchanges. *)

From S2P Require Import Prelude.

(** ** [core/result.hpp] *)

Inductive Status := Ok | Error | Timeout | Busy | Unsupported.

#[export] Instance Status_eq_dec : EqDecision Status.
Proof. solve_decision. Defined.

(** The value the enum class gives each enumerator. *)
Definition Status_code (s : Status) : Z :=
  match s with Ok => 0 | Error => 1 | Timeout => 2 | Busy => 3 | Unsupported => 4 end.

Record Result := mkResult { status : Status; code : Z }.

#[export] Instance Result_eq_dec : EqDecision Result.
Proof. solve_decision. Defined.

Module Res.
Definition ok : Result := mkResult Ok 0.
Definition error (c : Z) : Result := mkResult Error c.
Definition timeout : Result := mkResult Timeout 0.
Definition busy : Result := mkResult Busy 0.
Definition unsupported : Result := mkResult Unsupported 0.
End Res.

(** [error()] without an argument. *)
Definition error_default : Result := Res.error (-1).

Definition is_ok (r : Result) : bool := bool_decide (status r = Ok).

Lemma is_ok_true r : is_ok r = true <-> status r = Ok.
Proof. apply bool_decide_eq_true. Qed.

Definition status_name (s : Status) : string :=
  match s with
  | Ok => "ok"
  | Error => "error"
  | Timeout => "timeout"
  | Busy => "busy"
  | Unsupported => "unsupported"
  end.

(** ** [core/config.hpp]: the parameters handed to the pipeline *)

Inductive RcMode := Cbr | Vbr | FixQp.

#[export] Instance RcMode_eq_dec : EqDecision RcMode.
Proof. solve_decision. Defined.

Record EffectiveStream := mkStream {
  width : Z; height : Z; fps : Z;
  native_width : Z; native_height : Z;
  gop : Z; bitrate_kbps : Z; profile : Z; qp : Z; buffers : Z; encoder_buffers : Z;
  rc : RcMode
}.

#[export] Instance EffectiveStream_eta : Settable EffectiveStream := fun r =>
  mkStream (width r) (height r) (fps r) (native_width r) (native_height r)
           (gop r) (bitrate_kbps r) (profile r) (qp r) (buffers r) (encoder_buffers r) (rc r).

#[export] Instance EffectiveStream_eq_dec : EqDecision EffectiveStream.
Proof. solve_decision. Defined.

(** The default member initialisers. *)
Definition EffectiveStream_default : EffectiveStream :=
  mkStream 0 0 0 0 0 40 3000 2 35 2 0 Cbr.

(** ** [core/frame.hpp]: an access unit and the pool of them *)

Record AccessUnit := mkAu {
  au_data : list Z;
  au_pts_us : Z;
  au_fetched_us : Z;
  au_key : bool;
  au_seq : Z
}.

#[export] Instance AccessUnit_eta : Settable AccessUnit := fun r =>
  mkAu (au_data r) (au_pts_us r) (au_fetched_us r) (au_key r) (au_seq r).

#[export] Instance AccessUnit_eq_dec : EqDecision AccessUnit.
Proof. solve_decision. Defined.
