(* ===== verification/Text.v ===== *)
(** * Byte strings

    [std::string] as a list of 8-bit characters, with the operations the
    sources use on it: [find], [substr], decimal printing ([%zu], [%llu]) and
    [strtoul]/[strtoull] on digits.  Positions and sizes are [Z]; the callers
    write out where a [size_t] wraps. *)

From Stdlib Require Export Ascii.
From S2P Require Import Prelude.

Abbreviation text := (list ascii).

(** A literal. *)
Definition txt (s : string) : text := String.list_ascii_of_string s.

Definition NL : ascii := "010"%char.

Definition size (s : text) : Z := Z.of_nat (length s).

(** [s.substr(pos, n)] with [pos <= s.size()]; [n] may reach past the end. *)
Definition substr (s : text) (pos n : Z) : text :=
  take (Z.to_nat (Z.min n (size s))) (drop (Z.to_nat pos) s).

(** The index of the first [c]. *)
Fixpoint index_of (c : ascii) (s : text) : option nat :=
  match s with
  | [] => None
  | x :: s' => if Ascii.eqb x c then Some O else S <$> index_of c s'
  end.

(** [s.find(c, pos)], [None] for [npos]. *)
Definition find_char (c : ascii) (s : text) (pos : Z) : option Z :=
  (fun i => pos + Z.of_nat i) <$> index_of c (drop (Z.to_nat pos) s).

Definition text_eqb (a b : text) : bool := bool_decide (a = b).

Lemma size_app a b : size (a ++ b) = size a + size b.
Proof. unfold size. rewrite length_app. lia. Qed.

Lemma size_cons c s : size (c :: s) = 1 + size s.
Proof. unfold size. simpl. lia. Qed.

Lemma size_nonneg s : 0 <= size s.
Proof. unfold size. lia. Qed.

#[export] Hint Resolve size_nonneg : machino.

Lemma index_of_app c a b : c ∉ a -> index_of c (a ++ c :: b) = Some (length a).
Proof.
  induction a as [|x a IH]; intros Hc; simpl.
  - by rewrite Ascii.eqb_refl.
  - apply not_elem_of_cons in Hc as [Hx Ha]. destruct (Ascii.eqb x c) eqn:E.
    + apply Ascii.eqb_eq in E. congruence.
    + by rewrite IH.
Qed.

Lemma index_of_none c a : c ∉ a -> index_of c a = None.
Proof.
  induction a as [|x a IH]; intros Hc; [done|]. simpl. apply not_elem_of_cons in Hc as [Hx Ha].
  destruct (Ascii.eqb x c) eqn:E; [apply Ascii.eqb_eq in E; congruence|by rewrite IH].
Qed.

Lemma index_of_none_inv c a : index_of c a = None -> c ∉ a.
Proof.
  induction a as [|x a IH]; cbn; [intros _; apply not_elem_of_nil|]. destruct (Ascii.eqb_spec x c) as [|N]; [done|].
  destruct (index_of c a); [done|]. intros _. apply not_elem_of_cons. split; [congruence|by apply IH].
Qed.

Lemma index_of_some c s i : index_of c s = Some i -> (i < length s)%nat.
Proof.
  revert i. induction s as [|x s IH]; intros i; simpl; [done|].
  destruct (Ascii.eqb x c); [intros [= <-]; lia|].
  destruct (index_of c s) as [j|]; simpl; [|done]. intros [= <-]. specialize (IH j eq_refl). lia.
Qed.

Lemma drop_at (a b : text) : drop (Z.to_nat (size a)) (a ++ b) = b.
Proof. unfold size. rewrite Nat2Z.id. apply drop_app_length. Qed.

Lemma find_char_at c a l b :
  c ∉ l -> find_char c (a ++ l ++ c :: b) (size a) = Some (size a + size l).
Proof. intros Hc. unfold find_char. rewrite drop_at, index_of_app by done. done. Qed.

Lemma substr_at a l b : substr (a ++ l ++ b) (size a) (size l) = l.
Proof.
  unfold substr. rewrite drop_at, Z.min_l by (rewrite !size_app; pose proof (size_nonneg a);
    pose proof (size_nonneg b); lia).
  unfold size. rewrite Nat2Z.id. apply take_app_length.
Qed.

(** ** Digits *)

Definition digit_char (d : Z) : ascii := ascii_of_nat (Z.to_nat (48 + d)).
Definition char_code (c : ascii) : Z := Z.of_nat (nat_of_ascii c).
Definition is_digit (c : ascii) : bool := (48 <=? char_code c) && (char_code c <=? 57).
Definition digit_value (c : ascii) : Z := char_code c - 48.

Lemma digit_char_code d : 0 <= d < 10 -> char_code (digit_char d) = 48 + d.
Proof.
  intros H. unfold char_code, digit_char. rewrite nat_ascii_embedding by lia. lia.
Qed.

Lemma is_digit_char d : 0 <= d < 10 -> is_digit (digit_char d) = true.
Proof.
  intros H. unfold is_digit. rewrite digit_char_code by done.
  apply andb_true_iff; split; apply Z.leb_le; lia.
Qed.

Lemma digit_value_char d : 0 <= d < 10 -> digit_value (digit_char d) = d.
Proof. intros H. unfold digit_value. rewrite digit_char_code by done. lia. Qed.

(** The digits of [n], least significant last; [k] bounds their number. *)
Fixpoint print_digits (k : nat) (n : Z) : text :=
  match k with
  | O => []
  | S k' => if n <? 10 then [digit_char n] else print_digits k' (n / 10) ++ [digit_char (n mod 10)]
  end.

(** [%zu], [%u], [%llu]: 20 digits are enough for 64 bits. *)
Definition print_dec (n : Z) : text := print_digits 20 n.

(** [%d], [std::to_string] of an [int]. *)
Definition print_int (n : Z) : text := if n <? 0 then txt "-" ++ print_dec (- n) else print_dec n.

(** The value of a string of digits. *)
Definition dec_value (s : text) : Z := fold_left (fun acc c => 10 * acc + digit_value c) s 0.

(** [strtoul]/[strtoull] with a [w]-bit result on a string of digits: the
    value, saturated at the largest one. *)
Definition strtou (w : Z) (s : text) : Z := Z.min (dec_value s) (2 ^ w - 1).

Lemma dec_value_snoc s c : dec_value (s ++ [c]) = 10 * dec_value s + digit_value c.
Proof. unfold dec_value. by rewrite fold_left_app. Qed.

Lemma print_digits_value k n : 0 <= n < 10 ^ Z.of_nat k -> dec_value (print_digits k n) = n.
Proof.
  revert n. induction k as [|k IH]; intros n Hn.
  - simpl in *. assert (n = 0) as -> by lia. done.
  - cbn [print_digits]. destruct (n <? 10) eqn:E.
    + apply Z.ltb_lt in E. unfold dec_value. cbn [fold_left]. rewrite digit_value_char by lia. lia.
    + apply Z.ltb_ge in E. rewrite Nat2Z.inj_succ, Z.pow_succ_r in Hn by lia.
      pose proof (Z.mod_pos_bound n 10 ltac:(lia)). pose proof (Z.div_mod n 10 ltac:(lia)).
      rewrite dec_value_snoc, IH, digit_value_char by lia. lia.
Qed.

Lemma print_digits_digits k n : 0 <= n -> forallb is_digit (print_digits k n) = true.
Proof.
  revert n. induction k as [|k IH]; intros n Hn; [done|]. cbn [print_digits]. destruct (n <? 10) eqn:E.
  - apply Z.ltb_lt in E. cbn [forallb]. by rewrite is_digit_char by lia.
  - pose proof (Z.mod_pos_bound n 10 ltac:(lia)). rewrite forallb_app, IH by (apply Z.div_pos; lia).
    cbn [forallb]. by rewrite is_digit_char by lia.
Qed.

Lemma print_digits_size k n : size (print_digits k n) <= Z.of_nat k.
Proof.
  revert n. induction k as [|k IH]; intros n; [done|]. cbn [print_digits]. destruct (n <? 10).
  - unfold size. simpl. lia.
  - rewrite size_app. specialize (IH (n / 10)). unfold size in *. simpl. lia.
Qed.

Lemma print_dec_value n : 0 <= n < 2 ^ 64 -> dec_value (print_dec n) = n.
Proof. intros H. apply print_digits_value. change (10 ^ Z.of_nat 20) with 100000000000000000000. lia. Qed.

Lemma print_dec_digits n : 0 <= n -> forallb is_digit (print_dec n) = true.
Proof. apply print_digits_digits. Qed.

Lemma print_dec_nonempty n : print_dec n <> [].
Proof. unfold print_dec. cbn [print_digits]. destruct (n <? 10); [done|]. by intros [_ ?]%app_eq_nil. Qed.

Lemma digits_no_newline s : forallb is_digit s = true -> NL ∉ s.
Proof.
  induction s as [|c s IH]; simpl; [intros _; apply not_elem_of_nil|].
  intros [Hc Hs]%andb_true_iff. apply not_elem_of_cons. split; [|by apply IH].
  intros <-. done.
Qed.

Lemma strtou_print w n : 0 <= n < 2 ^ w -> w <= 64 -> strtou w (print_dec n) = n.
Proof.
  intros Hn Hw. unfold strtou. rewrite print_dec_value; [lia|].
  assert (2 ^ w <= 2 ^ 64) by (apply Z.pow_le_mono_r; lia). lia.
Qed.

(** ** Case, prefixes, C strings *)

(** [tolower] of the C locale. *)
Definition lower (c : ascii) : ascii :=
  let n := char_code c in if (65 <=? n) && (n <=? 90) then ascii_of_nat (Z.to_nat (n + 32)) else c.

Definition lowercase (s : text) : text := map lower s.

(** [isspace] of the C locale. *)
Definition is_space (c : ascii) : bool := let n := char_code c in (n =? 32) || ((9 <=? n) && (n <=? 13)).

Fixpoint skip_space (s : text) : text :=
  match s with
  | c :: s' => if is_space c then skip_space s' else s
  | [] => []
  end.

(** [s.rfind(p, 0) == 0], [s.compare(0, n, p) == 0] for a [p] of [n] characters. *)
Definition has_prefix (p s : text) : bool := text_eqb (take (length p) s) p.

(** [s.find(p) != npos], [strstr(s, p)]. *)
Fixpoint occurs (p s : text) : bool :=
  has_prefix p s || match s with [] => false | _ :: s' => occurs p s' end.

(** What a C function sees of [s.c_str()]. *)
Fixpoint c_str (s : text) : text :=
  match s with
  | [] => []
  | c :: s' => if Ascii.eqb c "000" then [] else c :: c_str s'
  end.

(** The pieces between the separators. *)
Fixpoint split_at (sep : ascii) (s cur : text) : list text :=
  match s with
  | [] => [cur]
  | c :: s' => if Ascii.eqb c sep then cur :: split_at sep s' [] else split_at sep s' (cur ++ [c])
  end.
Definition split_on (sep : ascii) (s : text) : list text := split_at sep s [].

(** The digits at the front, and what follows them. *)
Fixpoint take_digits (s : text) : text * text :=
  match s with
  | c :: s' => if is_digit c then let '(d, r) := take_digits s' in (c :: d, r) else ([], s)
  | [] => ([], [])
  end.

(** [%d] of [sscanf]: blanks, a sign, digits.  (A number outside [int] is
    undefined in C; it is reduced to 32 bits here.) *)
Definition scan_int (s : text) : option (Z * text) :=
  let s := skip_space s in
  let '(neg, s) := match s with
                   | c :: s' => if Ascii.eqb c "-" then (true, s') else if Ascii.eqb c "+" then (false, s') else (false, s)
                   | [] => (false, s)
                   end in
  match take_digits s with
  | ([], _) => None
  | (d, rest) => Some (i32 (if neg then - dec_value d else dec_value d), rest)
  end.

(** [atoi]. *)
Definition atoi (s : text) : Z := match scan_int (c_str s) with Some (n, _) => n | None => 0 end.

Definition CRLF : text := ["013"; "010"]%char.

Lemma has_prefix_app p s : has_prefix p (p ++ s) = true.
Proof. unfold has_prefix. rewrite take_app_length. by apply bool_decide_eq_true. Qed.

Lemma split_at_app sep a b cur : sep ∉ a -> split_at sep (a ++ sep :: b) cur = (cur ++ a) :: split_at sep b [].
Proof.
  revert cur. induction a as [|c a IH]; intros cur Hs; cbn [app split_at].
  - by rewrite Ascii.eqb_refl, app_nil_r.
  - apply not_elem_of_cons in Hs as [Hc Hs]. destruct (Ascii.eqb_spec c sep); [congruence|].
    by rewrite IH, <- app_assoc.
Qed.

Lemma split_at_end sep a cur : sep ∉ a -> split_at sep a cur = [cur ++ a].
Proof.
  revert cur. induction a as [|c a IH]; intros cur Hs; cbn [split_at]; [by rewrite app_nil_r|].
  apply not_elem_of_cons in Hs as [Hc Hs]. destruct (Ascii.eqb_spec c sep); [congruence|]. by rewrite IH, <- app_assoc.
Qed.

(** ** Lines, numbers *)

(** The pieces that end in a line feed, and a last one without ([getline]). *)
Fixpoint conf_lines_from (s cur : text) : list text :=
  match s with
  | [] => match cur with [] => [] | _ => [cur] end
  | c :: s' => if Ascii.eqb c NL then cur :: conf_lines_from s' [] else conf_lines_from s' (cur ++ [c])
  end.

Definition conf_lines (s : text) : list text := conf_lines_from s [].

(** [(unsigned)strtoul(s, nullptr, 10)], [unsigned long] 32 bits wide. *)
Definition strtoul (s : text) : Z :=
  let s := skip_space s in
  let '(neg, s) := match s with
                   | c :: s' => if Ascii.eqb c "-" then (true, s') else if Ascii.eqb c "+" then (false, s') else (false, s)
                   | [] => (false, s)
                   end in
  let v := dec_value (take_digits s).1 in
  if 2 ^ 32 - 1 <? v then 2 ^ 32 - 1 else if neg : bool then u32 (- v) else v.

Definition one_line (l : text) : Prop := NL ∉ l.

Lemma conf_lines_skip a : forall s cur, one_line a -> conf_lines_from (a ++ s) cur = conf_lines_from s (cur ++ a).
Proof.
  induction a as [|c a IH]; intros s cur Ha; [by rewrite app_nil_r|]. apply not_elem_of_cons in Ha as [Hc Ha].
  cbn [app conf_lines_from]. destruct (Ascii.eqb_spec c NL); [congruence|]. by rewrite IH, <- app_assoc.
Qed.

Lemma conf_lines_one s : forall cur, one_line cur -> Forall one_line (conf_lines_from s cur).
Proof.
  induction s as [|c s IH]; intros cur Hc; cbn [conf_lines_from].
  - destruct cur; constructor; auto.
  - destruct (Ascii.eqb_spec c NL) as [|Hne]; [constructor; [done|]; apply IH, not_elem_of_nil|]. apply IH.
    intros [H|H]%elem_of_app; [done|]. apply list_elem_of_singleton in H. congruence.
Qed.

Lemma one_conf_lines s : Forall one_line (conf_lines s).
Proof. apply conf_lines_one, not_elem_of_nil. Qed.

Lemma text_eqb_spec a b : reflect (a = b) (text_eqb a b).
Proof. apply bool_decide_reflect. Qed.

Lemma take_index c s i : index_of c s = Some i -> c ∉ take i s.
Proof.
  revert i. induction s as [|x s IH]; intros i; cbn; [done|]. destruct (Ascii.eqb_spec x c); [by intros [= <-]; apply not_elem_of_nil|].
  destruct (index_of c s) as [j|]; [|done]. intros [= <-]. cbn. apply not_elem_of_cons. split; [congruence|by apply IH].
Qed.

Lemma digit_char_spec c (P : ascii -> bool) : forallb (fun n => negb (is_digit (ascii_of_nat n)) || P (ascii_of_nat n)) (seq 0 256) = true ->
  is_digit c = true -> P c = true.
Proof.
  intros H Hc. rewrite forallb_forall in H. pose proof (nat_ascii_bounded c). specialize (H (nat_of_ascii c)). rewrite ascii_nat_embedding, Hc in H.
  apply H. apply in_seq. lia.
Qed.

Lemma digits_all (P : ascii -> bool) s : forallb (fun n => negb (is_digit (ascii_of_nat n)) || P (ascii_of_nat n)) (seq 0 256) = true ->
  forallb is_digit s = true -> Forall (fun c => P c = true) s.
Proof. intros H. induction s as [|c s IH]; cbn; [constructor|]. intros [Hc Hs]%andb_true_iff. constructor; [by apply digit_char_spec|by apply IH]. Qed.

Lemma take_digits_all s : forallb is_digit s = true -> take_digits s = (s, []).
Proof. induction s as [|c s IH]; cbn; [done|]. intros [-> Hs]%andb_true_iff. by rewrite IH. Qed.

Lemma take_digits_app a rest : forallb is_digit a = true -> match rest with [] => True | c :: _ => is_digit c = false end ->
  take_digits (a ++ rest) = (a, rest).
Proof.
  intros Ha Hr. induction a as [|c a IH]; cbn [app take_digits].
  - destruct rest as [|c rest]; [done|]. cbn. by rewrite Hr.
  - cbn in Ha. apply andb_true_iff in Ha as [Hc Ha]. by rewrite Hc, IH.
Qed.

Lemma dec_value_nonneg s : forallb is_digit s = true -> 0 <= dec_value s.
Proof.
  intros Hs. induction s as [|c s IH] using rev_ind; [done|]. rewrite forallb_app in Hs. apply andb_true_iff in Hs as [Hs Hc].
  rewrite dec_value_snoc. specialize (IH Hs). cbn in Hc. unfold is_digit, digit_value in *. lia.
Qed.

Lemma c_str_same s : "000"%char ∉ s -> c_str s = s.
Proof. induction s as [|c s IH]; [done|]. intros [Hc Hs]%not_elem_of_cons. cbn [c_str]. destruct (Ascii.eqb_spec c "000"); [congruence|]. by rewrite IH. Qed.

Lemma strtoul_print n : 0 <= n < 2 ^ 32 -> strtoul (c_str (print_dec n)) = n.
Proof.
  intros Hn. pose proof (print_dec_digits n ltac:(lia)) as D. pose proof (print_dec_value n ltac:(lia)) as V. pose proof (print_dec_nonempty n) as E.
  assert (C : c_str (print_dec n) = print_dec n).
  { apply c_str_same. pose proof (digits_all (fun c => negb (Ascii.eqb c "000")) _ eq_refl D) as H. rewrite Forall_forall in H. intros Hin%H. discriminate. }
  rewrite C. clear C. destruct (print_dec n) as [|c s] eqn:P; [done|]. assert (Hc : is_digit c = true) by (by cbn in D; apply andb_true_iff in D as [? _]).
  unfold strtoul. cbn [skip_space]. assert (S : is_space c = false).
  { apply negb_true_iff. by apply (digit_char_spec c (fun c => negb (is_space c))). }
  assert (M : Ascii.eqb c "-" = false). { apply negb_true_iff. by apply (digit_char_spec c (fun c => negb (Ascii.eqb c "-"))). }
  assert (Q : Ascii.eqb c "+" = false). { apply negb_true_iff. by apply (digit_char_spec c (fun c => negb (Ascii.eqb c "+"))). }
  rewrite S, M, Q, take_digits_all by done. cbn [fst]. rewrite V. destruct (2 ^ 32 - 1 <? n) eqn:L; [lia|done].
Qed.

(** ** Searching for a string *)

(** [s.find(p)]: the index of the first occurrence. *)
Fixpoint find_text (p s : text) : option nat :=
  if has_prefix p s then Some O else match s with [] => None | _ :: s' => S <$> find_text p s' end.

(** [s.find(p, pos)]. *)
Definition find_from (p s : text) (pos : nat) : option nat := Nat.add pos <$> find_text p (drop pos s).

(** [s.rfind(c)]. *)
Fixpoint last_index (c : ascii) (s : text) : option nat :=
  match s with
  | [] => None
  | x :: s' => match last_index c s' with Some i => Some (S i) | None => if Ascii.eqb x c then Some O else None end
  end.

Lemma has_prefix_spec p s : has_prefix p s = true <-> exists r, s = p ++ r.
Proof.
  unfold has_prefix. destruct (text_eqb_spec (take (length p) s) p) as [E|E]; split; try done.
  - intros _. exists (drop (length p) s). rewrite <- E at 1. by rewrite take_drop.
  - intros [r ->]. by rewrite take_app_length in E.
Qed.

Lemma has_prefix_grow p a b : has_prefix p a = true -> has_prefix p (a ++ b) = true.
Proof. rewrite !has_prefix_spec. intros [r ->]. exists (r ++ b). by rewrite app_assoc. Qed.

Lemma has_prefix_shrink p a b : has_prefix p (a ++ b) = true -> (length p <= length a)%nat -> has_prefix p a = true.
Proof.
  rewrite !has_prefix_spec. intros [r E] L. exists (drop (length p) a).
  rewrite <- (take_drop (length p) a) at 1. f_equal.
  assert (T : take (length p) (a ++ b) = p) by (by rewrite E, take_app_length).
  by rewrite take_app_le in T.
Qed.

(** The first place where [p] stands; nothing before it is one. *)
Lemma find_text_spec p s :
  match find_text p s with
  | Some i => has_prefix p (drop i s) = true /\ (i + length p <= length s)%nat /\
              forall j, (j < i)%nat -> has_prefix p (drop j s) = false
  | None => forall j, (j <= length s)%nat -> has_prefix p (drop j s) = false
  end.
Proof.
  induction s as [|c s IH]; cbn [find_text].
  - destruct (has_prefix p []) eqn:E.
    + split; [done|]. apply has_prefix_spec in E as [r E]. symmetry in E. apply app_eq_nil in E as [-> _]. cbn. split; [lia|]. intros; lia.
    + intros j Hj. cbn in Hj. assert (j = O) as -> by lia. done.
  - destruct (has_prefix p (c :: s)) eqn:E.
    + split; [done|]. apply has_prefix_spec in E as [r E]. split; [|intros; lia]. rewrite E, length_app. lia.
    + destruct (find_text p s) as [i|]; cbn [fmap option_fmap option_map].
      * destruct IH as (H & L & B). cbn [length]. split; [done|]. split; [lia|]. intros [|j] Hj; [done|]. apply B. lia.
      * intros [|j] Hj; [done|]. apply IH. cbn in Hj. lia.
Qed.

Lemma find_text_some p s i : find_text p s = Some i <->
  has_prefix p (drop i s) = true /\ (i <= length s)%nat /\ forall j, (j < i)%nat -> has_prefix p (drop j s) = false.
Proof.
  pose proof (find_text_spec p s) as F. split.
  - intros E. rewrite E in F. destruct F as (H & L & B). split; [done|]. split; [lia|done].
  - intros (H & L & B). destruct (find_text p s) as [k|].
    + destruct F as (Hk & _ & Bk). destruct (lt_eq_lt_dec i k) as [[?|Ek]|?]; [|by subst|].
      * by rewrite Bk in H.
      * by rewrite B in Hk.
    + by rewrite F in H.
Qed.

Lemma find_text_none p s : find_text p s = None <-> forall j, (j <= length s)%nat -> has_prefix p (drop j s) = false.
Proof.
  pose proof (find_text_spec p s) as F. split; [by intros E; rewrite E in F|]. intros N.
  destruct (find_text p s) as [i|]; [|done]. destruct F as (H & L & _). by rewrite N in H by lia.
Qed.

Lemma drop_app_short {A} i (a b : list A) : (i <= length a)%nat -> drop i (a ++ b) = drop i a ++ b.
Proof. apply drop_app_le. Qed.

(** What was found stays found when the string grows. *)
Lemma find_text_grow p a b i : find_text p a = Some i -> find_text p (a ++ b) = Some i.
Proof.
  intros E. pose proof (find_text_spec p a) as F. rewrite E in F. destruct F as (H & L & B).
  apply find_text_some. split; [|split].
  - rewrite drop_app_short by lia. by apply has_prefix_grow.
  - rewrite length_app. lia.
  - intros j Hj. apply not_true_is_false. intros C. rewrite drop_app_short in C by lia.
    apply has_prefix_shrink in C; [by rewrite B in C|]. rewrite length_drop. lia.
Qed.

(** A first occurrence in a grown string reaches into what was added. *)
Lemma find_text_new p a b i : find_text p a = None -> find_text p (a ++ b) = Some i -> (length a < i + length p)%nat.
Proof.
  intros N E. apply find_text_some in E as (H & L & _). rewrite find_text_none in N.
  destruct (decide (i + length p <= length a)%nat) as [Hi|]; [|lia].
  rewrite drop_app_short in H by lia. apply has_prefix_shrink in H; [by rewrite N in H by lia|]. rewrite length_drop. lia.
Qed.

Lemma find_text_split p s i : find_text p s = Some i -> s = take i s ++ p ++ drop (i + length p) s.
Proof.
  intros E. apply find_text_some in E as (H & L & _). apply has_prefix_spec in H as [r E].
  rewrite <- (take_drop i s) at 1. f_equal. rewrite E. f_equal.
  by rewrite <- drop_drop, E, drop_app_length.
Qed.

Lemma drop_nth {A} j (s : list A) p r x : drop j s = p ++ x :: r -> s !! (j + length p)%nat = Some x.
Proof. intros E. rewrite <- lookup_drop, E. apply list_lookup_middle. done. Qed.

(** Where the last character of [p] stands nowhere before its place in [p], the first
    occurrence is there. *)
Lemma find_text_at p c a b : c ∉ a -> c ∉ p -> find_text (p ++ [c]) (a ++ p ++ c :: b) = Some (length a).
Proof.
  intros Ha Hp. apply find_text_some. split; [|split].
  - rewrite drop_app_length. apply has_prefix_spec. exists b. by rewrite <- app_assoc.
  - rewrite length_app. lia.
  - intros j Hj. apply not_true_is_false. intros [r E]%has_prefix_spec. rewrite <- app_assoc in E.
    apply drop_nth in E. rewrite app_assoc in E. rewrite lookup_app_l in E by (rewrite length_app; lia).
    apply list_elem_of_lookup_2 in E. apply elem_of_app in E. tauto.
Qed.

Lemma last_index_none c s : last_index c s = None <-> c ∉ s.
Proof.
  induction s as [|x s IH]; cbn [last_index]; [split; [intros _; apply not_elem_of_nil|done]|].
  rewrite not_elem_of_cons. destruct (last_index c s) as [i|].
  - split; [done|]. intros [_ H]. by apply IH in H.
  - destruct (Ascii.eqb_spec x c); split; try done; try naive_solver.
Qed.

Lemma last_index_at c a b : c ∉ b -> last_index c (a ++ c :: b) = Some (length a).
Proof.
  intros Hb. induction a as [|x a IH]; cbn [app last_index length].
  - apply last_index_none in Hb. by rewrite Hb, Ascii.eqb_refl.
  - by rewrite IH.
Qed.

Lemma has_prefix_cons x p c s : has_prefix (x :: p) (c :: s) = Ascii.eqb c x && has_prefix p s.
Proof.
  unfold has_prefix. cbn [length take]. destruct (Ascii.eqb_spec c x) as [->|N]; cbn [andb].
  - unfold text_eqb. apply bool_decide_ext. split; [by intros [= ?]|by intros ->].
  - apply bool_decide_eq_false. by intros [= ? _].
Qed.

Lemma occurs_cons x p c s : c <> x -> occurs (x :: p) (c :: s) = occurs (x :: p) s.
Proof. intros N. cbn [occurs]. rewrite has_prefix_cons. by destruct (Ascii.eqb_spec c x). Qed.
