(* ===== verification/StreamHub.v ===== *)
(** * Frame fan-out: bounded per-consumer queues and the access-unit pool

    [core/stream_hub.{hpp,cpp}] and the pool of [core/frame.hpp].  A [Sink] is
    one consumer's queue; [push] is the producer's side, [pop_scan] one pass of
    the consumer's loop in [Sink::pop] (from the return of [wait_until] until
    it returns or waits again), so that pushes and pops interleave exactly
    where the mutex is released.  Time-outs only make [pop] return false
    without a change of state. *)

From S2P Require Import Prelude CoreTypes.

Module Sink.

Record t := mk {
  q : list AccessUnit;         (* q_, front first *)
  depth : nat;                 (* depth_ *)
  key_supersedes : bool;       (* key_supersedes_ *)
  closed : bool;               (* closed_ *)
  disc : bool;                 (* disc_ *)
  dropped : Z                  (* dropped_, unsigned *)
}.

#[export] Instance eta : Settable t := fun r =>
  mk (q r) (depth r) (key_supersedes r) (closed r) (disc r) (dropped r).

(** The constructor: a depth of 0 is taken as 1. *)
Definition make (d : nat) (ks : bool) : t :=
  mk [] (if decide (d = 0%nat) then 1%nat else d) ks false false 0.

(** [Sink::push]. *)
Definition push (au : AccessUnit) (s : t) : t :=
  if closed s then s
  else
    let s :=
      if (depth s <=? length (q s))%nat then
        if au_key au && key_supersedes s then
          s <| dropped := u32 (dropped s + u32 (Z.of_nat (length (q s)))) |> <| q := [] |>
        else
          s <| q := tail (q s) |> <| dropped := u32 (dropped s + 1) |>
            <| disc := if negb (key_supersedes s) then disc s else true |>
      else s in
    s <| q := q s ++ [au] |>.

(** [Sink::close]. *)
Definition close (s : t) : t := s <| closed := true |> <| q := [] |>.

Inductive popped :=
| Delivered (au : AccessUnit) (discontinuity : bool)   (* pop returned true *)
| Ended                                                (* closed: pop returned false *)
| Waiting.                                             (* blocked in wait_until *)

(** One pass over the queue, from a wake-up: what [pop] does before it
    returns or calls [wait_until] again with an empty queue. *)
Fixpoint scan (l : list AccessUnit) (s : t) : popped * t :=
  match l with
  | [] => (if closed s then Ended else Waiting, s <| q := [] |>)
  | au :: l' =>
      if negb (disc s) then (Delivered au false, s <| q := l' |>)
      else if au_key au then (Delivered au true, s <| q := l' |> <| disc := false |>)
      else scan l' (s <| dropped := u32 (dropped s + 1) |>)
  end.

Definition pop_scan (s : t) : popped * t := scan (q s) s.

(** Histories of one sink: the calls on it in the order of its mutex. *)
Inductive call := Push (au : AccessUnit) | Pop | Close.

Definition pushed (c : call) : list AccessUnit :=
  match c with Push au => [au] | _ => [] end.

(** Run a history; collect what the consumer was handed, in order. *)
Fixpoint run (h : list call) (s : t) : list (AccessUnit * bool) * t :=
  match h with
  | [] => ([], s)
  | Push au :: h' => run h' (push au s)
  | Close :: h' => run h' (close s)
  | Pop :: h' =>
      let '(r, s1) := pop_scan s in
      let '(out, s2) := run h' s1 in
      (match r with Delivered au d => [(au, d)] | _ => [] end ++ out, s2)
  end.

(** *** Bounds *)

Definition bounded (s : t) : Prop := (1 <= depth s)%nat /\ (length (q s) <= depth s)%nat.

Lemma make_bounded d ks : bounded (make d ks).
Proof. unfold bounded, make; simpl. case_decide; lia. Qed.

Lemma push_bounded au s : bounded s -> bounded (push au s).
Proof.
  unfold bounded, push. intros [Hd Hq]. destruct (closed s); [done|].
  destruct (_ <=? _)%nat eqn:E; [destruct (_ && _)|]; simpl; split; try done.
  - rewrite length_app. destruct (q s); simpl in *; lia.
  - apply Nat.leb_gt in E. rewrite length_app. simpl. lia.
Qed.

Lemma scan_frame l s :
  depth (scan l s).2 = depth s /\ key_supersedes (scan l s).2 = key_supersedes s
  /\ closed (scan l s).2 = closed s /\ (length (q (scan l s).2) <= length l)%nat.
Proof.
  revert s. induction l as [|au l IH]; intros s; [done|]. simpl.
  destruct (negb (disc s)); [simpl; repeat split; lia|].
  destruct (au_key au); [simpl; repeat split; lia|].
  destruct (IH (s <| dropped := u32 (dropped s + 1) |>)) as (A & B & C & D).
  simpl in *. repeat split; [done..|lia].
Qed.

Lemma pop_bounded s : bounded s -> bounded (pop_scan s).2.
Proof.
  unfold bounded, pop_scan. destruct (scan_frame (q s) s) as (-> & _ & _ & ?). lia.
Qed.

Lemma close_bounded s : bounded s -> bounded (close s).
Proof. unfold bounded; simpl; lia. Qed.

(** *** The dependency chain

    [follows a b]: frame [b] can be decoded right after [a]: it is a key
    frame, or the frame the encoder produced directly after [a] (the capture
    loop numbers frames with a wrapping 32-bit counter). *)

Definition follows (a b : AccessUnit) : Prop :=
  au_key b = true \/ au_seq b = u32 (au_seq a + 1).

Definition consecutive (a b : AccessUnit) : Prop := au_seq b = u32 (au_seq a + 1).

Lemma consecutive_follows l : chain consecutive l -> chain follows l.
Proof.
  induction l as [|a l IH]; [done|]. destruct l as [|b l]; [done|].
  intros [H Hl]. split; [by right|by apply IH].
Qed.

(** The invariant between the last frame handed out [o], the last frame
    pushed [p], and the sink. *)
Record linked (o p : option AccessUnit) (s : t) : Prop := {
  lk_video : key_supersedes s = true;
  lk_last : q s <> [] -> last (q s) = p;
  lk_closed : closed s = true -> q s = [];
  lk_chain : chain follows (q s);
  lk_join : disc s = false -> forall a b, o = Some a -> head (q s) = Some b -> follows a b;
  lk_drain : disc s = false -> closed s = false -> q s = [] -> o = None \/ o = p
}.

Lemma make_linked d : linked None None (make d true).
Proof. split; simpl; try done. by left. Qed.

Lemma push_linked o p au s :
  (forall x, p = Some x -> consecutive x au) ->
  linked o p s -> linked o (Some au) (push au s).
Proof.
  intros Hp [V L C Ch J D]. unfold push. destruct (closed s) eqn:Hc.
  { specialize (C eq_refl). split; rewrite ?C; simpl; first [done|congruence|auto]. }
  assert (Happ : forall l, chain follows l -> (l <> [] -> last l = p) -> chain follows (l ++ [au])).
  { intros l Hl Hlast. apply chain_snoc_last; [done|]. intros x Hx. right. apply Hp.
    rewrite <- Hx. symmetry. apply Hlast. by intros ->. }
  rewrite V; destruct (depth s <=? length (q s))%nat eqn:E; [destruct (au_key au) eqn:K|]; simpl.
  - split; simpl; try first [done|congruence]. intros _ a b _ [= <-]. by left.
  - destruct (q s) as [|x l] eqn:Q; simpl.
    + split; simpl; try congruence. done.
    + split; simpl; try congruence.
      * intros _. by rewrite last_snoc.
      * apply Happ; [by eapply chain_tail|]. intros Hl. rewrite <- (L ltac:(done)).
        by destruct l.
  - split; simpl; rewrite ?last_snoc; try done; try congruence.
    + by apply Happ.
    + intros Hd a b Ha Hb. destruct (q s) as [|x l] eqn:Q; simpl in Hb.
      * destruct (D Hd eq_refl eq_refl) as [-> | ->]; [done|]. injection Hb as <-. right. by apply Hp.
      * by apply (J Hd a b).
    + intros _ _ Hnil. by destruct (q s).
Qed.

Lemma close_linked o p s : linked o p s -> linked o p (close s).
Proof. intros [V L C Ch J D]. split; simpl; done. Qed.

(** Discarding while resynchronising keeps the invariant of the rest. *)
Lemma scan_linked o p l s :
  linked o p (s <| q := l |>) ->
  match scan l s with
  | (Delivered au d, s') =>
      linked (Some au) p s' /\ (forall a, o = Some a -> follows a au) /\ (d = true -> au_key au = true)
  | (_, s') => linked o p s'
  end.
Proof.
  revert s. induction l as [|au l IH]; intros s H; [by destruct s as [? ? ? [] ? ?]|].
  destruct H as [V L C Ch J D]. simpl in *.
  assert (Hl : l <> [] -> last l = p).
  { intros Hl. rewrite <- L; [by destruct l|done]. }
  assert (Hc : closed s = false) by (destruct (closed s); [by discriminate C|done]).
  assert (Hnext : forall b, head l = Some b -> follows au b)
    by (intros b; destruct l; [done|]; intros [= ->]; apply Ch).
  assert (Hp : l = [] -> Some au = p) by (intros ->; by rewrite <- L).
  destruct (disc s) eqn:Hd; simpl; [destruct (au_key au) eqn:K|].
  - split; [|split; [intros ? _; by left|done]].
    split; simpl; rewrite ?Hc; try done; [by eapply chain_tail| |].
    + intros _ a b [= <-]. apply Hnext.
    + intros _ _ Hnil. right. by apply Hp.
  - apply IH. split; simpl; rewrite ?Hc, ?Hd; try done. by eapply chain_tail.
  - split; [|split; [intros a Ha; by eapply J|done]].
    split; simpl; rewrite ?Hc; try done; [by eapply chain_tail| |].
    + intros _ a b [= <-]. apply Hnext.
    + intros _ _ Hnil. right. by apply Hp.
Qed.

Definition pushes (h : list call) : list AccessUnit := flat_map pushed h.

(** What [run] hands out continues the chain from [o]. *)
Lemma run_follows h o p s :
  linked o p s ->
  chain consecutive (option_list p ++ pushes h) ->
  chain follows (option_list o ++ map fst (run h s).1)
  /\ Forall (fun x => x.2 = true -> au_key x.1 = true) (run h s).1.
Proof.
  revert o p s. induction h as [|c h IH]; intros o p s Hl Hch; simpl.
  { split; [by destruct o|constructor]. }
  destruct c as [au| |]; simpl in *.
  - apply (IH o (Some au)).
    + eapply push_linked; [|done]. intros x ->. by apply Hch.
    + destruct p; [exact (chain_tail _ _ _ Hch)|exact Hch].
  - assert (Hs : linked o p (s <| q := q s |>)) by (by destruct s).
    apply scan_linked in Hs. unfold pop_scan. destruct (scan (q s) s) as [[au d| |] s1].
    + destruct Hs as (H1 & Hau & Hd). destruct (IH (Some au) p s1 H1 Hch) as [IH1 IH2].
      destruct (run h s1) as [out s2]; simpl in *. split; [|by constructor].
      destruct o as [a|]; [|done]. split; [by apply Hau|done].
    + specialize (IH o p s1 Hs Hch). by destruct (run h s1).
    + specialize (IH o p s1 Hs Hch). by destruct (run h s1).
  - apply (IH o p); [by apply close_linked|done].
Qed.

(** *** Accounting *)

Definition is_close (c : call) : bool := match c with Close => true | _ => false end.

Lemma push_account au s :
  bounded s -> closed s = false ->
  closed (push au s) = false
  /\ u32 (dropped (push au s) + Z.of_nat (length (q (push au s))))
     = u32 (dropped s + Z.of_nat (length (q s)) + 1).
Proof.
  intros Hb Hc. unfold push. rewrite Hc.
  destruct (depth s <=? length (q s))%nat eqn:E; [destruct (_ && _)|]; simpl; (split; [done|]).
  - rewrite wrap_add_l, <- Z.add_assoc, (Z.add_comm (u32 _)), Z.add_assoc, wrap_add_r.
    f_equal. lia.
  - rewrite length_app, wrap_add_l. f_equal. apply Nat.leb_le in E. unfold bounded in Hb.
    destruct (q s); simpl in *; lia.
  - rewrite length_app. f_equal. simpl. lia.
Qed.

Lemma scan_account l s :
  let r := scan l s in
  u32 (dropped r.2 + Z.of_nat (length (q r.2))
       + match r.1 with Delivered _ _ => 1 | _ => 0 end)
  = u32 (dropped s + Z.of_nat (length l)).
Proof.
  revert s. induction l as [|au l IH]; intros s; simpl.
  { destruct (closed s); simpl; f_equal; lia. }
  destruct (negb (disc s)); [simpl; f_equal; lia|].
  destruct (au_key au); [simpl; f_equal; lia|].
  rewrite IH. simpl. rewrite wrap_add_l. f_equal. lia.
Qed.

Lemma run_account h s :
  bounded s -> closed s = false -> existsb is_close h = false ->
  let r := run h s in
  u32 (dropped r.2 + Z.of_nat (length (q r.2)) + Z.of_nat (length r.1))
  = u32 (dropped s + Z.of_nat (length (q s)) + Z.of_nat (length (pushes h))).
Proof.
  revert s. induction h as [|c h IH]; intros s Hb Hc Hh; [done|].
  destruct c as [au| |]; [| |done]; simpl in *.
  - destruct (push_account au s Hb Hc) as [Hc' Ha].
    rewrite IH by (try done; by apply push_bounded).
    rewrite <- wrap_add_l, Ha, wrap_add_l. f_equal. lia.
  - pose proof (scan_account (q s) s) as Ha. pose proof (scan_frame (q s) s) as Hf.
    pose proof (pop_bounded s Hb) as Hb'. unfold pop_scan in *.
    destruct (scan (q s) s) as [p s1]. simpl in *. destruct Hf as (_ & _ & Hc1 & _).
    specialize (IH s1 Hb' ltac:(congruence) Hh). destruct (run h s1) as [out s2]. simpl in *.
    rewrite length_app, Nat2Z.inj_add, (Z.add_comm (Z.of_nat (length _))), Z.add_assoc,
      <- wrap_add_l, IH, wrap_add_l.
    rewrite <- (Z.add_assoc (dropped s1 + _)), (Z.add_comm (Z.of_nat (length (pushes h)))),
      Z.add_assoc, <- (wrap_add_l 32 (dropped s + _)), <- Ha, wrap_add_l.
    f_equal. destruct p; simpl; lia.
Qed.

Lemma run_bounded h s : bounded s -> bounded (run h s).2 /\ depth (run h s).2 = depth s.
Proof.
  revert s. induction h as [|c h IH]; intros s Hb; [done|]. destruct c as [au| |]; simpl.
  - destruct (IH _ (push_bounded au s Hb)) as [? ->]. split; [done|].
    unfold push. destruct (closed s); [done|]. by destruct (_ <=? _)%nat; [destruct (_ && _)|].
  - pose proof (pop_bounded s Hb) as Hb'. pose proof (scan_frame (q s) s) as (Hd & _).
    unfold pop_scan in *. destruct (scan (q s) s) as [r s1]. simpl in *.
    destruct (IH s1 Hb') as [? ?]. destruct (run h s1). simpl in *. split; [done|congruence].
  - apply (IH _ (close_bounded s Hb)).
Qed.

(** Bounded queues that lose nothing silently.  In every history a sink
    never queues more than its depth, and while it is open every frame pushed
    is delivered, still queued, or counted in [dropped_] (an [unsigned]: the
    equation is modulo 2^32). *)
Theorem sink_bounded_and_accounted (d : nat) (ks : bool) (h : list call) :
  let r := run h (make d ks) in
  (length (q r.2) <= Nat.max d 1)%nat
  /\ (existsb is_close h = false ->
      u32 (dropped r.2 + Z.of_nat (length (q r.2)) + Z.of_nat (length r.1))
      = u32 (Z.of_nat (length (pushes h)))).
Proof.
  intros r. pose proof (make_bounded d ks) as Hb. split.
  - destruct (run_bounded h _ Hb) as [[_ Hq] Hd]. fold r in Hq, Hd. rewrite Hd in Hq.
    unfold make in Hq. simpl in Hq. case_decide; lia.
  - intros Hh. subst r. by rewrite (run_account h _ Hb eq_refl Hh).
Qed.
End Sink.

(** ** The hub

    Consumers share ownership of their sink with the hub ([shared_ptr]): a sink
    the hub has dropped still answers its owner.  [store] is the heap of sinks,
    [sinks] the hub's own vector of pointers. *)
Module Hub.

Record t := mk {
  sinks : list nat;            (* sinks_ *)
  store : gmap nat Sink.t;     (* the shared sinks *)
  fresh : nat;                 (* next sink identity *)
  default_depth : nat;         (* default_depth_ *)
  key_supersedes : bool        (* key_supersedes_ *)
}.

#[export] Instance eta : Settable t := fun r =>
  mk (sinks r) (store r) (fresh r) (default_depth r) (key_supersedes r).

Definition make : t := mk [] ∅ 0 4 true.

(** [StreamHub::subscribe]; 0 is the current default depth. *)
Definition subscribe (d : nat) : ST t nat := fun h =>
  let d := if decide (d = 0%nat) then default_depth h else d in
  let id := fresh h in
  (id, h <| store ::= <[id := Sink.make d (key_supersedes h)]> |>
         <| sinks := sinks h ++ [id] |> <| fresh ::= S |>).

(** [StreamHub::unsubscribe]; an unknown identity is the null pointer. *)
Definition unsubscribe (id : nat) : ST t unit :=
  modify (fun h => h <| store ::= alter Sink.close id |>
                     <| sinks ::= base.filter (fun i => i <> id) |>).

(** [StreamHub::publish]. *)
Definition publish (au : AccessUnit) : ST t unit :=
  l ← gets sinks;
  for_each l (fun id => modify (fun h => h <| store ::= alter (Sink.push au) id |>)).

(** [StreamHub::close_all]. *)
Definition close_all : ST t unit :=
  gone ← gets sinks;
  modify (fun h => h <| sinks := [] |>) ;;
  for_each gone (fun id => modify (fun h => h <| store ::= alter Sink.close id |>)).

Definition consumers : ST t nat := gets (fun h => length (sinks h)).

Definition set_default_depth (d : nat) : ST t unit :=
  modify (fun h => h <| default_depth := if decide (d = 0%nat) then 1%nat else d |>).

Definition set_key_supersedes (on : bool) : ST t unit :=
  modify (fun h => h <| key_supersedes := on |>).

(** A consumer's pass over its own sink. *)
Definition pop_by (id : nat) : ST t (option (AccessUnit * bool)) := fun h =>
  match store h !! id with
  | None => (None, h)
  | Some s =>
      let '(r, s') := Sink.pop_scan s in
      (match r with Sink.Delivered au d => Some (au, d) | _ => None end,
       h <| store ::= <[id := s']> |>)
  end.

(** Histories of the hub: the calls of all threads, in the order of its locks. *)
Inductive call :=
| Subscribe (d : nat)
| Unsubscribe (id : nat)
| Publish (au : AccessUnit)
| CloseAll
| SetDefaultDepth (d : nat)
| SetKeySupersedes (on : bool)
| PopBy (id : nat).

Definition step (c : call) : ST t (list (nat * (AccessUnit * bool))) :=
  match c with
  | Subscribe d => subscribe d ;; mret []
  | Unsubscribe id => unsubscribe id ;; mret []
  | Publish au => publish au ;; mret []
  | CloseAll => close_all ;; mret []
  | SetDefaultDepth d => set_default_depth d ;; mret []
  | SetKeySupersedes on => set_key_supersedes on ;; mret []
  | PopBy id => r ← pop_by id; mret (match r with Some x => [(id, x)] | None => [] end)
  end.

(** Run a history; collect who was handed what, in order. *)
Fixpoint run (l : list call) : ST t (list (nat * (AccessUnit * bool))) :=
  match l with
  | [] => mret []
  | c :: l' => out ← step c; rest ← run l'; mret (out ++ rest)
  end.

(** What a history looks like to the sink [id]. *)
Definition project (id : nat) (c : call) : list Sink.call :=
  match c with
  | Publish au => [Sink.Push au]
  | CloseAll => [Sink.Close]
  | Unsubscribe i => if decide (i = id) then [Sink.Close] else []
  | PopBy i => if decide (i = id) then [Sink.Pop] else []
  | _ => []
  end.

Definition delivered_to (id : nat) (out : list (nat * (AccessUnit * bool))) : list (AccessUnit * bool) :=
  map snd (base.filter (fun x => x.1 = id) out).

(** *** The sink is all a consumer sees *)

Record wf (h : t) : Prop := {
  wf_nodup : NoDup (sinks h);
  wf_known : forall id, id ∈ sinks h -> (id < fresh h)%nat;
  wf_store : forall id, is_Some (store h !! id) -> (id < fresh h)%nat;
  wf_gone : forall id s, store h !! id = Some s -> id ∉ sinks h ->
            Sink.closed s = true /\ Sink.q s = []
}.

Lemma make_wf : wf make.
Proof.
  split; simpl; [constructor|set_solver|..].
  - intros id [x Hx]. by rewrite lookup_empty in Hx.
  - intros id s Hs. by rewrite lookup_empty in Hs.
Qed.

(** The loop of [publish] and [close_all]: each listed sink is changed once. *)
Lemma for_each_alter (f : Sink.t -> Sink.t) l h :
  NoDup l ->
  exists m, exec (for_each l (fun id => modify (fun h => h <| store ::= alter f id |>))) h
            = h <| store := m |>
  /\ forall id, m !! id = if decide (id ∈ l) then f <$> store h !! id else store h !! id.
Proof.
  revert h. induction l as [|i l IH]; intros h Hnd.
  { exists (store h). split; [by destruct h|]. intros id. by rewrite decide_False by apply not_elem_of_nil. }
  apply NoDup_cons in Hnd as [Hi Hnd].
  destruct (IH (h <| store ::= alter f i |>) Hnd) as (m & Hm & Hl).
  exists m. split.
  - change (exec _ h) with
      (exec (for_each l (fun id => modify (fun h => h <| store ::= alter f id |>)))
            (h <| store ::= alter f i |>)).
    rewrite Hm. done.
  - intros id. rewrite Hl. simpl. destruct (decide (id = i)) as [->|Hne].
    + rewrite decide_False by done. rewrite decide_True by apply elem_of_cons, or_introl, eq_refl.
      by rewrite lookup_alter_eq.
    + rewrite lookup_alter_ne by done.
      repeat case_decide; try done; rewrite elem_of_cons in *; tauto.
Qed.

(** One call, seen by the sink [id]. *)
Definition seen_by (id : nat) (c : call) (h : t) : Prop :=
  forall s, store h !! id = Some s ->
  let r := step c h in
  delivered_to id r.1 = (Sink.run (project id c) s).1
  /\ store r.2 !! id = Some (Sink.run (project id c) s).2.

Lemma push_closed au s : Sink.closed s = true -> Sink.push au s = s.
Proof. intros H. unfold Sink.push. by rewrite H. Qed.

Lemma close_closed s : Sink.closed s = true -> Sink.q s = [] -> Sink.close s = s.
Proof. destruct s; simpl. by intros -> ->. Qed.

Lemma step_wf c h : wf h -> wf (step c h).2.
Proof.
  intros [N K St G]. destruct c as [d|i|au| |d|on|i]; simpl.
  - split; simpl.
    + apply NoDup_app; split; [done|split; [|by apply NoDup_singleton]].
      intros x Hx ->%list_elem_of_singleton. specialize (K _ Hx). lia.
    + intros x [Hx|Hx%list_elem_of_singleton]%elem_of_app; [specialize (K _ Hx)|]; lia.
    + intros x. rewrite lookup_insert. case_decide; [subst; lia|]. intros Hx%St. lia.
    + intros x s. rewrite lookup_insert, elem_of_app, list_elem_of_singleton.
      case_decide; [subst; tauto|]. intros Hs ?. apply (G x); tauto.
  - split; simpl.
    + by apply NoDup_filter.
    + intros x [_ Hx]%list_elem_of_filter. by apply K.
    + intros x [s Hs]. rewrite lookup_alter in Hs. case_decide; [subst|]; apply St.
      * by destruct (store h !! x).
      * by eexists.
    + intros x s Hs. rewrite list_elem_of_filter, lookup_alter in *.
      case_decide as Hx; [subst i|intros Hn; apply (G x); [done|]; intros Hin; apply Hn; split; [congruence|done]].
      destruct (store h !! x); simplify_eq/=. done.
  - destruct (for_each_alter (Sink.push au) (sinks h) h N) as (m & Hm & Hl).
    unfold exec in Hm. unfold publish, mbind, st_bind, gets.
    destruct (for_each _ _ h) as [u h']. simpl in *. subst h'.
    split; simpl; try done.
    + intros x. rewrite Hl. case_decide; [by intros _; apply K|apply St].
    + intros x s. rewrite Hl. intros Hs Hx. rewrite decide_False in Hs by done. by apply (G x).
  - set (h0 := h <| sinks := [] |>).
    destruct (for_each_alter Sink.close (sinks h) h0 N) as (m & Hm & Hl).
    unfold exec in Hm. unfold close_all, mbind, st_bind, gets, modify in *. fold h0.
    destruct (for_each _ _ h0) as [u h']. simpl in *. subst h'. subst h0.
    split; simpl; try done; [constructor|set_solver|..].
    + intros x. rewrite Hl. case_decide; [by intros _; apply K|apply St].
    + intros x s. rewrite Hl. case_decide as Hx; intros Hs _.
      * simpl in Hs. destruct (store h !! x); simplify_eq/=. done.
      * by apply (G x).
  - by split.
  - by split.
  - unfold pop_by, mbind, st_bind. destruct (store h !! i) as [s|] eqn:E; simpl; [|by split].
    pose proof (Sink.scan_frame (Sink.q s) s) as (_ & _ & Hc & Hq).
    unfold Sink.pop_scan. destruct (Sink.scan _ _) as [r s']. simpl in *.
    split; simpl; try done.
    + intros x. rewrite lookup_insert. case_decide; [intros _; subst; apply St; by eexists|apply St].
    + intros x s0. rewrite lookup_insert. case_decide; [|by apply G]. intros [= <-] Hx. subst x.
      destruct (G i s E Hx) as [Hcl Hnil]. rewrite Hc, Hnil in *. split; [done|].
      apply nil_length_inv. simpl in Hq. lia.
Qed.

Lemma step_seen id c h : wf h -> seen_by id c h.
Proof.
  intros [N K St G] s Hs. destruct c as [d|i|au| |d|on|i]; simpl.
  - split; [done|]. rewrite lookup_insert_ne; [done|]. specialize (St id ltac:(by eexists)). lia.
  - rewrite lookup_alter. destruct (decide (i = id)) as [->|]; simpl; [|done]. by rewrite Hs.
  - destruct (for_each_alter (Sink.push au) (sinks h) h N) as (m & Hm & Hl).
    unfold exec in Hm. unfold publish, mbind, st_bind, gets.
    destruct (for_each _ _ h) as [u h']. simpl in *. subst h'. split; [done|]. simpl.
    rewrite Hl, Hs. case_decide as Hx; [done|]. destruct (G id s Hs Hx). by rewrite push_closed.
  - set (h0 := h <| sinks := [] |>).
    destruct (for_each_alter Sink.close (sinks h) h0 N) as (m & Hm & Hl).
    unfold exec in Hm. unfold close_all, mbind, st_bind, gets, modify in *. fold h0.
    destruct (for_each _ _ h0) as [u h']. simpl in *. subst h'. subst h0. split; [done|]. simpl.
    rewrite Hl. simpl. rewrite Hs. case_decide as Hx; [done|].
    destruct (G id s Hs Hx). by rewrite close_closed.
  - done.
  - done.
  - unfold pop_by, mbind, st_bind. destruct (store h !! i) as [s'|] eqn:E; simpl.
    + destruct (Sink.pop_scan s') as [r s1] eqn:Ep. simpl. rewrite lookup_insert.
      destruct (decide (i = id)) as [->|Hne].
      * rewrite Hs in E. injection E as <-. simpl. rewrite Ep. simpl.
        destruct r; unfold delivered_to; simpl; [|done..]. by rewrite filter_cons_True.
      * destruct r; unfold delivered_to; simpl; [|done..]. by rewrite filter_cons_False.
    + rewrite decide_False by congruence. done.
Qed.

Lemma sink_run_app h1 h2 s :
  Sink.run (h1 ++ h2) s =
    let '(o1, s1) := Sink.run h1 s in let '(o2, s2) := Sink.run h2 s1 in (o1 ++ o2, s2).
Proof.
  revert s. induction h1 as [|c h1 IH]; intros s; simpl; [by destruct (Sink.run h2 s)|].
  destruct c; simpl; [apply IH| |apply IH].
  destruct (Sink.pop_scan s) as [r s1]. rewrite IH.
  destruct (Sink.run h1 s1) as [o1 s2]. destruct (Sink.run h2 s2). by rewrite app_assoc.
Qed.

Lemma delivered_to_app id o1 o2 :
  delivered_to id (o1 ++ o2) = delivered_to id o1 ++ delivered_to id o2.
Proof. unfold delivered_to. by rewrite filter_app, map_app. Qed.

Lemma run_seen id l h s :
  wf h -> store h !! id = Some s ->
  delivered_to id (run l h).1 = (Sink.run (flat_map (project id) l) s).1
  /\ store (run l h).2 !! id = Some (Sink.run (flat_map (project id) l) s).2.
Proof.
  revert h s. induction l as [|c l IH]; intros h s Hwf Hs; [done|].
  pose proof (step_seen id c h Hwf s Hs) as [Hd Hst].
  pose proof (step_wf c h Hwf) as Hwf'.
  change (flat_map (project id) (c :: l)) with (project id c ++ flat_map (project id) l).
  rewrite sink_run_app. simpl. unfold mbind, st_bind. unfold mbind, st_bind in Hd, Hst, Hwf'.
  destruct (step c h) as [o1 h1]. simpl in *.
  destruct (Sink.run (project id c) s) as [so1 s1]. simpl in *.
  destruct (IH h1 s1 Hwf' Hst) as [IH1 IH2].
  destruct (run l h1) as [o2 h2]. destruct (Sink.run _ s1) as [so2 s2]. simpl in *.
  rewrite delivered_to_app. by subst.
Qed.

Lemma run_wf l h : wf h -> wf (run l h).2.
Proof.
  revert h. induction l as [|c l IH]; intros h Hwf; [done|].
  pose proof (step_wf c h Hwf) as Hwf'. simpl. unfold mbind, st_bind.
  destruct (step c h) as [o1 h1]. specialize (IH h1 Hwf'). by destruct (run l h1).
Qed.

(** The frames a history publishes. *)
Definition published (l : list call) : list AccessUnit :=
  flat_map (fun c => match c with Publish au => [au] | _ => [] end) l.

Lemma project_pushes id l : Sink.pushes (flat_map (project id) l) = published l.
Proof.
  unfold Sink.pushes, published. induction l as [|c l IH]; [done|].
  simpl. rewrite flat_map_app, IH. f_equal. by destruct c; simpl; try case_decide.
Qed.

Lemma subscribe_store d h :
  store (subscribe d h).2 !! (subscribe d h).1 =
    Some (Sink.make (if decide (d = 0%nat) then default_depth h else d) (key_supersedes h)).
Proof. simpl. by rewrite lookup_insert_eq. Qed.


(** C12. Isolation.  What a consumer is handed and the state of its queue
    depend on the published frames and its own calls only: in any history of
    the hub they equal the run of its sink alone on its projection of the
    history, so no consumer can make another one lose, delay or repeat a
    frame. *)
Theorem consumers_isolated (before after : list call) (id : nat) (s : Sink.t) :
  store (run before make).2 !! id = Some s ->
  let r := run after (run before make).2 in
  let alone := Sink.run (flat_map (project id) after) s in
  delivered_to id r.1 = alone.1 /\ store r.2 !! id = Some alone.2.
Proof. intros Hs. apply run_seen; [apply run_wf, make_wf|done]. Qed.
End Hub.

(** ** [AuPool]

    A slot is free when the pool holds its only reference ([use_count() == 1]);
    [busy i] says that somebody else holds slot [i]. *)
Module AuPool.

Record t := mk { slots : nat; next : nat; exhausted : Z }.

#[export] Instance eta : Settable t := fun r => mk (slots r) (next r) (exhausted r).

Definition make (n : nat) : t := mk n 0 0.

(** The search loop: at most [n] more slots. *)
Fixpoint search (n : nat) (busy : nat -> bool) : ST t (option nat) := fun p =>
  match n with
  | O => (None, p <| exhausted := u32 (exhausted p + 1) |>)
  | S n' =>
      let s := next p in
      let p := p <| next := ((next p + 1) mod slots p)%nat |> in
      if negb (busy s) then (Some s, p) else search n' busy p
  end.

(** [AuPool::acquire]. *)
Definition acquire (busy : nat -> bool) : ST t (option nat) := fun p => search (slots p) busy p.

Definition wf (p : t) : Prop := (next p < slots p)%nat \/ (slots p = 0 /\ next p = 0)%nat.

(** The [k] slots from [i] on, round robin. *)
Definition window (p : t) (k : nat) : list nat :=
  map (fun j => ((next p + j) mod slots p)%nat) (seq 0 k).

Lemma search_spec k busy p :
  (next p < slots p)%nat ->
  match search k busy p with
  | (Some s, p') => s ∈ window p k /\ busy s = false /\ (next p' < slots p')%nat
                    /\ slots p' = slots p /\ exhausted p' = exhausted p
  | (None, p') => Forall (fun s => busy s = true) (window p k) /\ (next p' < slots p')%nat
                  /\ slots p' = slots p /\ exhausted p' = u32 (exhausted p + 1)
  end.
Proof.
  revert p. induction k as [|k IH]; intros p Hp; [by repeat split|]. cbn [search].
  set (p1 := p <| next := ((next p + 1) mod slots p)%nat |>).
  assert (Hw : window p (S k) = next p :: window p1 k).
  { unfold window. simpl. rewrite Nat.add_0_r, Nat.mod_small by done. f_equal.
    rewrite <- seq_shift, map_map. apply map_ext. intros j. simpl.
    rewrite Nat.Div0.add_mod_idemp_l. f_equal. lia. }
  assert (Hp1 : (next p1 < slots p1)%nat) by (simpl; apply Nat.mod_upper_bound; lia).
  destruct (busy (next p)) eqn:E; cbn [negb].
  - specialize (IH p1 Hp1). destruct (search k busy p1) as [[s|] p'].
    + destruct IH as (? & ? & ? & ? & ?). rewrite Hw, elem_of_cons. repeat split; try done. by right.
    + destruct IH as (? & ? & ? & ?). rewrite Hw. repeat split; try done. by constructor.
  - rewrite Hw, elem_of_cons. repeat split; try done. by left.
Qed.

Lemma window_all p s : (next p < slots p)%nat -> (s < slots p)%nat -> s ∈ window p (slots p).
Proof.
  intros Hp Hs. unfold window. apply list_elem_of_In, in_map_iff.
  exists (if decide (next p <= s)%nat then s - next p else slots p - next p + s)%nat.
  rewrite in_seq. case_decide; (split; [|lia]).
  - rewrite Nat.mod_small; lia.
  - replace (next p + (slots p - next p + s))%nat with (s + 1 * slots p)%nat by lia.
    rewrite Nat.Div0.mod_add, Nat.mod_small; lia.
Qed.

Lemma search_none busy p s :
  (next p < slots p)%nat -> (s < slots p)%nat ->
  (acquire busy p).1 = None -> busy s = true.
Proof.
  intros Hp Hs Hn. pose proof (search_spec (slots p) busy p Hp) as H. unfold acquire in Hn.
  destruct (search _ _ _) as [[?|] p']; [done|]. destruct H as [H _].
  rewrite Forall_forall in H. by apply H, window_all.
Qed.

(** The pool.  [acquire] hands out a slot of the pool that nobody else
    holds; it fails exactly when every slot is held, and then (and only then)
    counts one exhaustion. *)
Theorem acquire_exclusive (busy : nat -> bool) (p : t) :
  (next p < slots p)%nat ->
  let '(r, p') := acquire busy p in
  (next p' < slots p')%nat /\ slots p' = slots p
  /\ match r with
     | Some s => (s < slots p)%nat /\ busy s = false /\ exhausted p' = exhausted p
     | None => (forall s, (s < slots p)%nat -> busy s = true)
               /\ exhausted p' = u32 (exhausted p + 1)
     end.
Proof.
  intros Hp. pose proof (search_spec (slots p) busy p Hp) as H.
  pose proof (search_none busy p) as Hnone. unfold acquire in *.
  destruct (search (slots p) busy p) as [[s|] p'].
  - destruct H as (Hin & ? & ? & ? & ?). repeat split; try done.
    unfold window in Hin. apply list_elem_of_In, in_map_iff in Hin as (j & <- & _).
    apply Nat.mod_upper_bound. lia.
  - destruct H as (? & ? & ? & ?). repeat split; try done. intros s Hs. by apply Hnone.
Qed.
End AuPool.

(** ** Witnesses *)

Definition au_w (k : bool) (n : Z) : AccessUnit := mkAu [] 0 0 k n.


Lemma consumers_isolated_witness :
  Hub.store (Hub.run [Hub.Subscribe 2; Hub.Subscribe 1] Hub.make).2 !! 0%nat
    = Some (Sink.make 2 true)
  /\ Hub.delivered_to 0
       (Hub.run [Hub.Publish (au_w true 0); Hub.Publish (au_w false 1); Hub.PopBy 1; Hub.PopBy 0]
          (Hub.run [Hub.Subscribe 2; Hub.Subscribe 1] Hub.make).2).1 = [(au_w true 0, false)].
Proof.
  split; [reflexivity|].
  destruct (Hub.consumers_isolated [Hub.Subscribe 2; Hub.Subscribe 1]
    [Hub.Publish (au_w true 0); Hub.Publish (au_w false 1); Hub.PopBy 1; Hub.PopBy 0]
    0 (Sink.make 2 true) eq_refl) as [H _].
  exact H.
Defined.

Lemma acquire_exclusive_witness :
  (AuPool.next (AuPool.make 2) < AuPool.slots (AuPool.make 2))%nat
  /\ (AuPool.acquire (fun s => s =? 0)%nat (AuPool.make 2)).1 = Some 1%nat
  /\ (1 < 2)%nat.
Proof.
  split; [simpl; lia|]. split; [reflexivity|].
  pose proof (AuPool.acquire_exclusive (fun s => s =? 0)%nat (AuPool.make 2) ltac:(simpl; lia)) as H.
  simpl in H. apply H.
Defined.
