(* ===== verification/Pipeline.v ===== *)
(** * The demand-driven media lifecycle

    [core/lifecycle/pipeline_manager.{hpp,cpp}] and [demand.hpp]: the state of
    [PipelineManager] and every operation on it.  Each operation runs under the
    manager's mutex and is one computation of [ST PM].  The vendor stack behind
    [IPlatform] answers as an arbitrary function of the calls made so far
    ([Platform]); the calls themselves are recorded in [trace], newest first.
    [PipelineProto] proves what the operations do to the hardware,
    [PipelineInv] what every reachable manager satisfies. *)

From stdpp Require Import pretty.
From S2P Require Import Prelude CoreTypes.

(** ** [demand.hpp] *)

Inductive ConsumerType := Rtsp | Snapshot | Recording | Ai | HttpStream | Onvif | Manual.

#[export] Instance ConsumerType_eq_dec : EqDecision ConsumerType.
Proof. solve_decision. Defined.

Definition ct_index (t : ConsumerType) : nat :=
  match t with
  | Rtsp => 0 | Snapshot => 1 | Recording => 2 | Ai => 3 | HttpStream => 4 | Onvif => 5 | Manual => 6
  end.

Definition ct_COUNT : nat := 7.

Definition consumer_name (t : ConsumerType) : string :=
  match t with
  | Rtsp => "rtsp" | Snapshot => "snapshot" | Recording => "recording" | Ai => "ai"
  | HttpStream => "http" | Onvif => "onvif" | Manual => "manual"
  end.

Definition UNIT_MAIN : Z := 0.
Definition UNIT_SUB : Z := 1.
Definition UNIT_JPEG : Z := 2.
Definition UNIT_AI : Z := 3.

Definition unit_name (u : Z) : string :=
  if u =? UNIT_MAIN then "main" else if u =? UNIT_SUB then "sub"
  else if u =? UNIT_JPEG then "jpeg" else if u =? UNIT_AI then "ai" else "?".

(** The two stream units, the valid indices of [units_]. *)
Inductive uid := Main | Sub.

#[export] Instance uid_eq_dec : EqDecision uid.
Proof. solve_decision. Defined.

Definition uid_code (u : uid) : Z := match u with Main => UNIT_MAIN | Sub => UNIT_SUB end.

(** [0 <= unit && unit <= UNIT_SUB]. *)
Definition uid_of (u : Z) : option uid :=
  if u =? UNIT_MAIN then Some Main else if u =? UNIT_SUB then Some Sub else None.

(** ** States and configuration *)

Inductive State := ColdIdle | Starting | Active | GraceIdle | Stopping | Failed.

#[export] Instance State_eq_dec : EqDecision State.
Proof. solve_decision. Defined.

Definition State_code (s : State) : Z :=
  match s with ColdIdle => 0 | Starting => 1 | Active => 2 | GraceIdle => 3 | Stopping => 4 | Failed => 5 end.

Definition state_name (s : State) : string :=
  match s with
  | ColdIdle => "COLD_IDLE" | Starting => "STARTING" | Active => "ACTIVE"
  | GraceIdle => "GRACE_IDLE" | Stopping => "STOPPING" | Failed => "FAILED"
  end.

Record LifecycleConfig := mkLifecycleConfig { idle_grace_ms : Z; poll_timeout_ms : Z }.

Record JpegParams := mkJpegParams { jp_width : Z; jp_height : Z; jp_quality : Z; jp_buffers : Z }.

#[export] Instance JpegParams_eta : Settable JpegParams := fun r =>
  mkJpegParams (jp_width r) (jp_height r) (jp_quality r) (jp_buffers r).

(** ** The calls the manager makes

    Objects the platform creates carry an identity, so a call on an object that
    is gone is visible.  A creation that failed carries no identity. *)

Definition obj := Z.

Inductive timer_id := TimerBase | TimerUnit (u : uid) | TimerJpeg.

#[export] Instance timer_id_eq_dec : EqDecision timer_id.
Proof. solve_decision. Defined.

Inductive event :=
| BringUp (r : Result)
| TearDown
| CreateFs (u : uid) (s : EffectiveStream) (o : option obj)
| CreateEnc (u : uid) (s : EffectiveStream) (o : option obj)
| Bind (u : uid) (fs enc : obj) (r : Result)
| FsEnable (u : uid) (fs : obj) (r : Result)
| EncStart (u : uid) (enc : obj) (r : Result)
| SpawnCapture (u : uid)
| JoinCapture (u : uid)
| EncStop (u : uid) (enc : obj)
| FsDisable (u : uid) (fs : obj)
| Unbind (u : uid) (fs enc : obj)
| DestroyEnc (u : uid) (enc : obj)
| DestroyFs (u : uid) (fs : obj)
| CreateJpeg (p : JpegParams) (o : option obj)
| DestroyJpeg (j : obj)
| CaptureStart (j : obj)
| SetSensorFps (v : Z) (r : Result)
| GetSensorFps (r : Result)
| PostStart
| EncSetBitrate (enc : obj) (v : Z) (r : Result)
| EncSetFps (enc : obj) (v : Z) (r : Result)
| EncSetGop (enc : obj) (v : Z) (r : Result)
| EncRequestIdr (enc : obj)
| ImageSet (c v : Z) (r : Result)
| FsSnap (fs : obj) (r : Result)
| Arm (t : timer_id) (ms : Z)
| Disarm (t : timer_id)
| Listener (from to : State).

(** [IPlatform] and the objects it creates: their answers, as functions of the
    calls made before.  The [Z] next to a result is the out-parameter. *)
Class Platform := {
  pl_bring_up : list event -> Result;
  pl_create_fs : list event -> uid -> EffectiveStream -> bool;
  pl_create_enc : list event -> uid -> EffectiveStream -> bool;
  pl_create_jpeg : list event -> JpegParams -> bool;
  pl_bind : list event -> uid -> Result;
  pl_enable : list event -> uid -> Result;
  pl_start : list event -> uid -> Result;
  pl_set_sensor_fps : list event -> Z -> Result * Z;
  pl_get_sensor_fps : list event -> Result * Z;
  pl_set_bitrate : list event -> Z -> Result * Z;
  pl_set_fps : list event -> Z -> Result * Z;
  pl_set_gop : list event -> Z -> Result * Z;
  pl_image : list event -> bool;                      (* image() != nullptr *)
  pl_image_set : list event -> Z -> Z -> Result * Z;
  pl_snap_nv12 : list event -> uid -> Result * list Z
}.

(** ** The manager's state *)

Record StreamUnit := mkUnit {
  stream : EffectiveStream;
  configured : bool;
  demand : list Z;               (* int demand[COUNT] *)
  total : Z;
  fs : option obj;
  enc : option obj;
  bound : bool;
  fs_enabled : bool;
  enc_started : bool;
  running : bool;
  thread : bool;                 (* the capture thread is joinable *)
  timer : bool;                  (* timer != nullptr *)
  grace_armed : bool
}.

#[export] Instance StreamUnit_eta : Settable StreamUnit := fun r =>
  mkUnit (stream r) (configured r) (demand r) (total r) (fs r) (enc r) (bound r) (fs_enabled r)
         (enc_started r) (running r) (thread r) (timer r) (grace_armed r).

Record JpegUnit := mkJpeg {
  j_configured : bool;
  j_enabled : bool;
  j_params : JpegParams;
  j_cache_ms : Z;
  j_grace_ms : Z;
  j_demand : Z;
  j_enc : option obj;
  j_timer : bool;
  j_grace_armed : bool;
  j_captures : Z;
  j_failures : Z;
  j_last_capture_ms : Z;
  j_cache : list Z;
  j_cache_at_us : Z
}.

#[export] Instance JpegUnit_eta : Settable JpegUnit := fun r =>
  mkJpeg (j_configured r) (j_enabled r) (j_params r) (j_cache_ms r) (j_grace_ms r) (j_demand r)
         (j_enc r) (j_timer r) (j_grace_armed r) (j_captures r) (j_failures r)
         (j_last_capture_ms r) (j_cache r) (j_cache_at_us r).

Record PM := mkPM {
  cfg : LifecycleConfig;
  main : StreamUnit;             (* units_[UNIT_MAIN] *)
  sub : StreamUnit;              (* units_[UNIT_SUB] *)
  jpeg : JpegUnit;
  state : State;
  generation : Z;
  start_count : Z;
  stop_count : Z;
  failed_count : Z;
  restart_count : Z;
  sub_restart_count : Z;
  ai_demand : Z;
  last_error : string;
  shutdown_flag : bool;          (* shutdown_ *)
  failed_refused : bool;
  sensor_fps_target : Z;
  listener : bool;
  post_start : bool;
  diag_state : State;            (* diag::phases().pipeline_state *)
  next_obj : obj;
  trace : list event
}.

#[export] Instance PM_eta : Settable PM := fun r =>
  mkPM (cfg r) (main r) (sub r) (jpeg r) (state r) (generation r) (start_count r) (stop_count r)
       (failed_count r) (restart_count r) (sub_restart_count r) (ai_demand r) (last_error r)
       (shutdown_flag r) (failed_refused r) (sensor_fps_target r) (listener r) (post_start r)
       (diag_state r) (next_obj r) (trace r).

Definition get_unit (u : uid) (m : PM) : StreamUnit := match u with Main => main m | Sub => sub m end.

Definition upd_unit (u : uid) (f : StreamUnit -> StreamUnit) (m : PM) : PM :=
  match u with Main => m <| main ::= f |> | Sub => m <| sub ::= f |> end.

(** The default member initialisers of [Unit] and [JpegUnit]. *)
Definition Unit_default : StreamUnit :=
  mkUnit EffectiveStream_default false (replicate ct_COUNT 0) 0 None None false false false false false
         false false.

Definition JpegUnit_default : JpegUnit :=
  mkJpeg false true (mkJpegParams 0 0 80 1) 300 2000 0 None false false 0 0 (-1) [] (-1).

(** The constructor. *)
Definition PipelineManager (s : EffectiveStream) (c : LifecycleConfig) : PM :=
  mkPM c (Unit_default <| configured := true |> <| stream := s |>) Unit_default JpegUnit_default
       ColdIdle 0 0 0 0 0 0 0 "" false false (-1) false false ColdIdle 0 [].

Definition emit (e : event) : ST PM unit := modify (fun m => m <| trace ::= cons e |>).

(** A new object of the platform's. *)
Definition alloc : ST PM obj := fun m => (next_obj m, m <| next_obj ::= Z.succ |>).

Definition total_all_locked (m : PM) : Z :=
  total (main m) + total (sub m) + j_demand (jpeg m) + ai_demand m.

Definition is_state (s : State) (m : PM) : bool := bool_decide (state m = s).

(** [state_ == Active || state_ == GraceIdle]. *)
Definition base_up (m : PM) : bool := is_state Active m || is_state GraceIdle m.

(** [transition]. *)
Definition transition (to : State) : ST PM unit :=
  from ← gets state;
  modify (fun m => m <| state := to |>) ;;
  modify (fun m => m <| diag_state := to |>) ;;
  l ← gets listener;
  when l (emit (Listener from to)).

(** An active [DemandHandle]: the consumer type and the unit it holds. *)
Record DemandHandle := mkHandle { dh_type : ConsumerType; dh_unit : Z }.

#[export] Instance DemandHandle_eq_dec : EqDecision DemandHandle.
Proof. solve_decision. Defined.

(** ** The media chain *)

Section Manager.
Context `{Platform}.

Definition ask {A} (f : list event -> A) : ST PM A := gets (fun m => f (trace m)).

(** [stop_unit_locked]. *)
Definition stop_unit_locked (u : uid) : ST PM unit :=
  x ← gets (get_unit u);
  when (thread x) (emit (JoinCapture u) ;; modify (upd_unit u (fun y => y <| thread := false |>))) ;;
  match enc x with
  | Some e => when (enc_started x) (emit (EncStop u e))
  | None => skip
  end ;;
  match fs x with
  | Some f => when (fs_enabled x) (emit (FsDisable u f))
  | None => skip
  end ;;
  match fs x, enc x with
  | Some f, Some e => when (bound x) (emit (Unbind u f e))
  | _, _ => skip
  end ;;
  modify (upd_unit u (fun y => y <| enc_started := false |> <| fs_enabled := false |> <| bound := false |>)) ;;
  match enc x with Some e => emit (DestroyEnc u e) | None => skip end ;;
  match fs x with Some f => emit (DestroyFs u f) | None => skip end ;;
  modify (upd_unit u (fun y => y <| enc := None |> <| fs := None |> <| running := false |>)).

(** The lambda [fail] of [start_unit_locked]. *)
Definition fail_unit (u : uid) (stage : string) (code : Z) : ST PM bool :=
  modify (fun m => m <| last_error :=
    (unit_name (uid_code u) +:+ " " +:+ stage +:+ " failed (" +:+ pretty code +:+ ")")%string |>) ;;
  stop_unit_locked u ;;
  mret false.

(** [start_unit_locked]; the counters of the capture loop it resets belong to
    the capture thread. *)
Definition start_unit_locked (u : uid) : ST PM bool :=
  x ← gets (get_unit u);
  if running x then mret true else
  okf ← ask (fun t => pl_create_fs t u (stream x));
  if negb okf then
    emit (CreateFs u (stream x) None) ;;
    modify (upd_unit u (fun y => y <| fs := None |>)) ;;
    fail_unit u "framesource create" (-1)
  else
  f ← alloc;
  emit (CreateFs u (stream x) (Some f)) ;;
  modify (upd_unit u (fun y => y <| fs := Some f |>)) ;;
  oke ← ask (fun t => pl_create_enc t u (stream x));
  if negb oke then
    emit (CreateEnc u (stream x) None) ;;
    modify (upd_unit u (fun y => y <| enc := None |>)) ;;
    fail_unit u "encoder create" (-1)
  else
  e ← alloc;
  emit (CreateEnc u (stream x) (Some e)) ;;
  modify (upd_unit u (fun y => y <| enc := Some e |>)) ;;
  r ← ask (fun t => pl_bind t u);
  emit (Bind u f e r) ;;
  if negb (is_ok r) then fail_unit u "bind" (code r) else
  modify (upd_unit u (fun y => y <| bound := true |>)) ;;
  r ← ask (fun t => pl_enable t u);
  emit (FsEnable u f r) ;;
  if negb (is_ok r) then fail_unit u "framesource enable" (code r) else
  modify (upd_unit u (fun y => y <| fs_enabled := true |>)) ;;
  r ← ask (fun t => pl_start t u);
  emit (EncStart u e r) ;;
  if negb (is_ok r) then fail_unit u "encoder start" (code r) else
  modify (upd_unit u (fun y => y <| enc_started := true |>)) ;;
  emit (SpawnCapture u) ;;
  modify (upd_unit u (fun y => y <| thread := true |> <| running := true |>)) ;;
  mret true.

(** [stop_jpeg_locked]. *)
Definition stop_jpeg_locked : ST PM unit :=
  x ← gets jpeg;
  match j_enc x with
  | None => skip
  | Some j =>
      emit (DestroyJpeg j) ;;
      modify (fun m => m <| jpeg ::= fun y => y <| j_enc := None |> <| j_cache := [] |>
                                                <| j_cache_at_us := -1 |> |>)
  end.

(** [start_jpeg_locked]. *)
Definition start_jpeg_locked : ST PM bool :=
  x ← gets jpeg;
  match j_enc x with
  | Some _ => mret true
  | None =>
      s ← gets (fun m => stream (main m));
      let p := j_params x in
      let p := if (jp_width p <=? 0) || (jp_height p <=? 0)
               then p <| jp_width := width s |> <| jp_height := height s |> else p in
      ok ← ask (fun t => pl_create_jpeg t p);
      if negb ok then
        emit (CreateJpeg p None) ;;
        modify (fun m => m <| last_error := "jpeg encoder create failed" |>) ;;
        mret false
      else
        j ← alloc;
        emit (CreateJpeg p (Some j)) ;;
        modify (fun m => m <| jpeg ::= fun y => y <| j_enc := Some j |> |>) ;;
        mret true
  end.

(** [stop_base_locked]. *)
Definition stop_base_locked : ST PM unit :=
  stop_unit_locked Sub ;;
  stop_unit_locked Main ;;
  stop_jpeg_locked ;;
  emit TearDown ;;
  modify (fun m => m <| stop_count := u32 (stop_count m + 1) |>).

(** The loop of [start_base_locked] over the units. *)
Fixpoint start_units (first : Z) (l : list uid) : ST PM bool :=
  match l with
  | [] => mret true
  | u :: l' =>
      x ← gets (get_unit u);
      let wanted := (uid_code u =? first) || (configured x && (0 <? total x)) in
      if negb wanted || running x then start_units first l'
      else
        ok ← start_unit_locked u;
        if negb ok then
          stop_base_locked ;;
          modify (fun m => m <| failed_count := u32 (failed_count m + 1) |>) ;;
          mret false
        else start_units first l'
  end.

(** The end of [start_base_locked], after every wanted unit runs. *)
Definition finish_base : ST PM unit :=
  t ← gets sensor_fps_target;
  when (0 <? t) (r ← ask (fun h => pl_set_sensor_fps h t); emit (SetSensorFps t r.1)) ;;
  p ← gets post_start;
  when p (emit PostStart) ;;
  modify (fun m => m <| generation := u32 (generation m + 1) |>).

(** [start_base_locked]. *)
Definition start_base_locked (first : Z) : ST PM bool :=
  modify (fun m => m <| start_count := u32 (start_count m + 1) |> <| last_error := "" |>) ;;
  r ← ask pl_bring_up;
  emit (BringUp r) ;;
  if negb (is_ok r) then
    modify (fun m => m <| last_error :=
      ("platform bring-up failed (" +:+ pretty (code r) +:+ ")")%string |>) ;;
    stop_base_locked ;;
    modify (fun m => m <| failed_count := u32 (failed_count m + 1) |>) ;;
    mret false
  else
  ok ← start_units first [Main; Sub];
  if negb ok then mret false else
  finish_base ;;
  mret true.

(** ** Demand *)

(** [ensure_base_locked]; the consumer type is only logged. *)
Definition ensure_base_locked (n : Z) : ST PM bool :=
  s ← gets state;
  match s with
  | Failed => modify (fun m => m <| failed_refused := true |>) ;; mret false
  | ColdIdle =>
      transition Starting ;;
      ok ← start_base_locked n;
      if negb ok then transition Failed ;; mret false
      else transition Active ;; mret true
  | GraceIdle =>
      emit (Disarm TimerBase) ;;
      transition Active ;;
      mret true
  | Active | Starting | Stopping => mret true
  end.

(** [if (u.grace_armed && u.timer) { u.timer->disarm(); u.grace_armed = false; }] *)
Definition disarm_unit (u : uid) : ST PM unit :=
  x ← gets (get_unit u);
  when (grace_armed x && timer x)
    (emit (Disarm (TimerUnit u)) ;; modify (upd_unit u (fun y => y <| grace_armed := false |>))).

Definition disarm_jpeg : ST PM unit :=
  x ← gets jpeg;
  when (j_grace_armed x && j_timer x)
    (emit (Disarm TimerJpeg) ;; modify (fun m => m <| jpeg ::= fun y => y <| j_grace_armed := false |> |>)).

(** What a failed unit start does to a base nobody else needs. *)
Definition give_up_base : ST PM unit :=
  m ← gets (fun m => m);
  when ((total_all_locked m =? 0) && is_state Active m)
    (transition Stopping ;; stop_base_locked ;; transition Failed).

(** [acquire_unit]: the handle, if active, and [*result]. *)
Definition acquire_unit (n : Z) (type : ConsumerType) : ST PM (option DemandHandle * Result) :=
  m ← gets (fun m => m);
  match uid_of n with
  | Some u =>
      if shutdown_flag m || negb (configured (get_unit u m)) then
        mret (None, if shutdown_flag m then Res.busy else Res.unsupported)
      else
        ok ← ensure_base_locked n;
        if negb ok then mret (None, error_default) else
        disarm_unit u ;;
        x ← gets (get_unit u);
        ok ← (if running x then mret true else start_unit_locked u);
        if negb ok then give_up_base ;; mret (None, error_default) else
        modify (upd_unit u (fun y =>
          y <| demand ::= alter (fun n => n + 1) (ct_index type) |> <| total ::= Z.succ |>)) ;;
        mret (Some (mkHandle type n), Res.ok)
  | None => mret (None, if shutdown_flag m then Res.busy else Res.unsupported)
  end.

(** [acquire]. *)
Definition acquire (type : ConsumerType) : ST PM (option DemandHandle * Result) :=
  acquire_unit UNIT_MAIN type.

(** [acquire_base]. *)
Definition acquire_base (type : ConsumerType) : ST PM (option DemandHandle * Result) :=
  m ← gets (fun m => m);
  if shutdown_flag m then mret (None, Res.busy) else
  ok ← ensure_base_locked (-1);
  if negb ok then mret (None, error_default) else
  modify (fun m => m <| ai_demand ::= Z.succ |>) ;;
  mret (Some (mkHandle type UNIT_AI), Res.ok).

(** The last demand is gone: every started unit stays warm for the base grace. *)
Definition enter_grace : ST PM unit :=
  disarm_unit Main ;; disarm_unit Sub ;;
  transition GraceIdle ;;
  c ← gets cfg;
  emit (Arm TimerBase (idle_grace_ms c)).

(** [release], on the handle of a unit. *)
Definition release_unit (type : ConsumerType) (u : uid) : ST PM unit :=
  modify (upd_unit u (fun y =>
    y <| demand ::= alter (fun n => if 0 <? n then n - 1 else n) (ct_index type) |>)) ;;
  modify (upd_unit u (fun y => y <| total ::= fun n => if 0 <? n then n - 1 else n |>)) ;;
  m ← gets (fun m => m);
  if shutdown_flag m then skip
  else if (total_all_locked m =? 0) && is_state Active m then enter_grace
  else
    let x := get_unit u m in
    when ((total x =? 0) && running x && is_state Active m)
      (if timer x then
         emit (Arm (TimerUnit u) (idle_grace_ms (cfg m))) ;;
         modify (upd_unit u (fun y => y <| grace_armed := true |>))
       else stop_unit_locked u).

(** [release], on a base-only handle. *)
Definition release_base : ST PM unit :=
  modify (fun m => m <| ai_demand ::= fun n => if 0 <? n then n - 1 else n |>) ;;
  m ← gets (fun m => m);
  when (negb (shutdown_flag m) && (total_all_locked m =? 0) && is_state Active m) enter_grace.

(** [release]; a handle always holds UNIT_MAIN, UNIT_SUB or UNIT_AI. *)
Definition release (h : DemandHandle) : ST PM unit :=
  if dh_unit h =? UNIT_AI then release_base
  else match uid_of (dh_unit h) with
       | Some u => release_unit (dh_type h) u
       | None => skip
       end.

(** ** Timers and shutdown *)

Definition on_grace_timeout : ST PM unit :=
  m ← gets (fun m => m);
  if negb (is_state GraceIdle m) || (0 <? total_all_locked m) then skip
  else transition Stopping ;; stop_base_locked ;; transition ColdIdle.

Definition on_unit_grace (n : Z) : ST PM unit :=
  match uid_of n with
  | None => skip
  | Some u =>
      modify (upd_unit u (fun y => y <| grace_armed := false |>)) ;;
      m ← gets (fun m => m);
      let x := get_unit u m in
      when ((total x =? 0) && running x && is_state Active m) (stop_unit_locked u)
  end.

Definition on_jpeg_grace : ST PM unit :=
  modify (fun m => m <| jpeg ::= fun y => y <| j_grace_armed := false |> |>) ;;
  m ← gets (fun m => m);
  when ((j_demand (jpeg m) =? 0) && bool_decide (is_Some (j_enc (jpeg m))) && is_state Active m)
    stop_jpeg_locked.

Definition shutdown : ST PM unit :=
  modify (fun m => m <| shutdown_flag := true |>) ;;
  emit (Disarm TimerBase) ;;
  disarm_unit Main ;; disarm_unit Sub ;;
  disarm_jpeg ;;
  m ← gets (fun m => m);
  when (base_up m) (transition Stopping ;; stop_base_locked ;; transition ColdIdle).

(** ** Configuration *)

(** [configure_sub]; the pool and the hub belong to the capture path. *)
Definition configure_sub (s : EffectiveStream) (timer_given : bool) : ST PM unit :=
  modify (upd_unit Sub (fun y => y <| configured := true |> <| stream := s |> <| timer := timer_given |>)).

Definition set_unit_grace_timer (n : Z) (timer_given : bool) : ST PM unit :=
  match uid_of n with
  | Some u => modify (upd_unit u (fun y => y <| timer := timer_given |>))
  | None => skip
  end.

Definition configure_jpeg (p : JpegParams) (cache_ms grace_ms : Z) (timer_given : bool) : ST PM unit :=
  modify (fun m => m <| jpeg ::= fun y => y <| j_configured := true |> <| j_params := p |>
    <| j_cache_ms := cache_ms |> <| j_grace_ms := grace_ms |> <| j_timer := timer_given |> |>).

Definition set_jpeg_enabled (on : bool) : ST PM unit :=
  m ← gets (fun m => m);
  if eqb (j_enabled (jpeg m)) on then skip else
  modify (fun m => m <| jpeg ::= fun y => y <| j_enabled := on |> |>) ;;
  when (negb on && bool_decide (is_Some (j_enc (jpeg m))) && (j_demand (jpeg m) =? 0) && is_state Active m)
    (disarm_jpeg ;; stop_jpeg_locked).

Definition set_state_listener : ST PM unit := modify (fun m => m <| listener := true |>).
Definition set_post_start_hook : ST PM unit := modify (fun m => m <| post_start := true |>).
Definition set_sensor_fps_target (v : Z) : ST PM unit := modify (fun m => m <| sensor_fps_target := v |>).

(** ** Controls on the running chain *)

(** [update_stream]; [err] is [last_error] when the result is an error. *)
Definition update_stream (s : EffectiveStream) (restart_if_running : bool) : ST PM Result :=
  modify (upd_unit Main (fun y => y <| stream := s |>)) ;;
  m ← gets (fun m => m);
  if negb (base_up m) || negb restart_if_running then mret Res.ok else
  let back := state m in
  transition Stopping ;;
  stop_base_locked ;;
  modify (fun m => m <| restart_count := u32 (restart_count m + 1) |>) ;;
  transition Starting ;;
  ok ← start_base_locked UNIT_MAIN;
  if negb ok then transition Failed ;; mret error_default else
  transition back ;;
  when (bool_decide (back = GraceIdle)) (emit (Arm TimerBase (idle_grace_ms (cfg m)))) ;;
  mret Res.ok.

Definition update_sub_stream (s : EffectiveStream) (enabled : bool) : ST PM Result :=
  x ← gets (get_unit Sub);
  if negb enabled then
    when (running x) (stop_unit_locked Sub) ;;
    modify (upd_unit Sub (fun y => y <| configured := false |>)) ;;
    mret Res.ok
  else if negb (configured x) then mret Res.unsupported
  else
    modify (upd_unit Sub (fun y => y <| stream := s |>)) ;;
    if negb (running x) then mret Res.ok else
    stop_unit_locked Sub ;;
    modify (fun m => m <| sub_restart_count := u32 (sub_restart_count m + 1) |>) ;;
    ok ← start_unit_locked Sub;
    mret (if ok : bool then Res.ok else error_default).

(** The live setters: the result and [effective] (-1 when not reached). *)
Definition live_bitrate (kbps : Z) : ST PM (Result * Z) :=
  m ← gets (fun m => m);
  match base_up m, enc (main m) with
  | true, Some e =>
      r ← ask (fun h => pl_set_bitrate h kbps);
      emit (EncSetBitrate e kbps r.1) ;;
      when (is_ok r.1) (modify (upd_unit Main (fun y =>
        y <| stream ::= fun s => s <| bitrate_kbps := if 0 <? r.2 then r.2 else kbps |> |>))) ;;
      mret r
  | _, _ => mret (Res.busy, -1)
  end.

Definition live_encoder_fps (v : Z) : ST PM (Result * Z) :=
  m ← gets (fun m => m);
  match base_up m, enc (main m) with
  | true, Some e =>
      r ← ask (fun h => pl_set_fps h v);
      emit (EncSetFps e v r.1) ;;
      mret r
  | _, _ => mret (Res.busy, -1)
  end.

Definition live_sensor_fps (v : Z) : ST PM (Result * Z) :=
  m ← gets (fun m => m);
  if base_up m then
    r ← ask (fun h => pl_set_sensor_fps h v);
    emit (SetSensorFps v r.1) ;;
    mret r
  else mret (Res.busy, -1).

Definition read_sensor_fps : ST PM (Result * Z) :=
  m ← gets (fun m => m);
  if base_up m then
    r ← ask pl_get_sensor_fps;
    emit (GetSensorFps r.1) ;;
    mret r
  else mret (Res.busy, -1).

Definition live_gop (frames : Z) : ST PM (Result * Z) :=
  m ← gets (fun m => m);
  if (frames <? 1) || (1000 <? frames) then mret (error_default, -1) else
  match base_up m, enc (main m) with
  | true, Some e =>
      r ← ask (fun h => pl_set_gop h frames);
      emit (EncSetGop e frames r.1) ;;
      if is_ok r.1 then
        modify (upd_unit Main (fun y => y <| stream ::= fun s => s <| gop := frames |> |>)) ;;
        mret (r.1, frames)
      else mret r
  | _, _ => mret (Res.busy, -1)
  end.

Definition live_image (c v : Z) : ST PM (Result * Z) :=
  m ← gets (fun m => m);
  if base_up m then
    have ← ask pl_image;
    if have : bool then
      r ← ask (fun h => pl_image_set h c v);
      emit (ImageSet c v r.1) ;;
      mret r
    else mret (Res.unsupported, -1)
  else mret (Res.busy, -1).

Definition request_idr (n : Z) : ST PM unit :=
  match uid_of n with
  | None => skip
  | Some u =>
      m ← gets (fun m => m);
      match base_up m, enc (get_unit u m) with
      | true, Some e => emit (EncRequestIdr e)
      | _, _ => skip
      end
  end.

(** ** Raw frames: one pass of the loop of [snap_nv12] under the lock.  The
    retry loop around it acquires and releases a demand handle. *)
Definition snap_nv12_once (u : uid) : ST PM (Result * list Z) :=
  x ← gets (get_unit u);
  match fs x, running x with
  | Some f, true =>
      r ← ask (fun h => pl_snap_nv12 h u);
      emit (FsSnap f r.1) ;;
      mret r
  | _, _ => mret (Res.busy, [])
  end.

(** ** Snapshots

    [snapshot] takes the lock three times; between the sections other
    operations run.  [snap_begin] is the first section: [None] goes on, with
    the demand taken. *)
Definition snap_begin : ST PM (option Result) :=
  m ← gets (fun m => m);
  if shutdown_flag m then mret (Some Res.busy)
  else if negb (j_configured (jpeg m)) then mret (Some Res.unsupported)
  else if negb (j_enabled (jpeg m)) then mret (Some Res.unsupported)
  else
    ok ← ensure_base_locked UNIT_JPEG;
    if negb ok then mret (Some error_default) else
    disarm_jpeg ;;
    x ← gets jpeg;
    ok ← (match j_enc x with Some _ => mret true | None => start_jpeg_locked end);
    if negb ok then give_up_base ;; mret (Some error_default) else
    modify (fun m => m <| jpeg ::= fun y => y <| j_demand ::= Z.succ |> |>) ;;
    mret None.

Inductive snap_source := SnapFresh (img : list Z) | SnapEncoder (j : obj) | SnapNoEncoder.

(** Under [snap_m_] only: the cached image if it is fresh at [now], else the
    encoder the capture runs on. *)
Definition snap_choose (max_age_ms now : Z) : ST PM snap_source :=
  x ← gets jpeg;
  let max_age_us := (if 0 <=? max_age_ms then max_age_ms else j_cache_ms x) * 1000 in
  let fresh := (0 <? j_cache_at_us x) && (now - j_cache_at_us x <? max_age_us)
               && negb (bool_decide (j_cache x = [])) in
  if fresh then mret (SnapFresh (j_cache x))
  else match j_enc x with
       | Some j => emit (CaptureStart j) ;; mret (SnapEncoder j)
       | None => mret SnapNoEncoder
       end.

(** The second section: the capture of [img], begun at [t0], ended with [r]. *)
Definition snap_captured (r : Result) (img : list Z) (t0 t1 t2 : Z) : ST PM unit :=
  modify (fun m => m <| jpeg ::= fun y => y <| j_last_capture_ms := (t1 - t0) ÷ 1000 |> |>) ;;
  if is_ok r then
    modify (fun m => m <| jpeg ::= fun y =>
      y <| j_captures := u32 (j_captures y + 1) |> <| j_cache := img |> <| j_cache_at_us := t2 |> |>)
  else
    modify (fun m => m <| jpeg ::= fun y => y <| j_failures := u32 (j_failures y + 1) |> |>).

(** The third section: the demand is given back. *)
Definition snap_end : ST PM unit :=
  modify (fun m => m <| jpeg ::= fun y => y <| j_demand ::= fun n => if 0 <? n then n - 1 else n |> |>) ;;
  m ← gets (fun m => m);
  if shutdown_flag m then skip
  else if (total_all_locked m =? 0) && is_state Active m then enter_grace
  else
    let x := jpeg m in
    when ((j_demand x =? 0) && bool_decide (is_Some (j_enc x)) && is_state Active m)
      (if j_timer x then
         emit (Arm TimerJpeg (j_grace_ms x)) ;;
         modify (fun m => m <| jpeg ::= fun y => y <| j_grace_armed := true |> |>)
       else stop_jpeg_locked).
End Manager.

(** ** Read access *)

Record Stats := mkStats {
  st_state : State;
  st_total_demand : Z;
  st_demand : list Z;
  st_unit_demand : list Z;
  st_unit_active : list bool;
  st_generation : Z;
  st_start_count : Z;
  st_stop_count : Z;
  st_failed_count : Z;
  st_restart_count : Z;
  st_sub_restart_count : Z;
  st_last_error : string
}.

(** [stats]: the fields that come from the manager (the frame counters are the
    capture threads'). *)
Definition stats (m : PM) : Stats :=
  mkStats (state m) (total_all_locked m) (demand (main m))
    [total (main m); total (sub m); j_demand (jpeg m); ai_demand m]
    [running (main m); running (sub m); bool_decide (is_Some (j_enc (jpeg m))); 0 <? ai_demand m]
    (generation m) (start_count m) (stop_count m) (failed_count m) (restart_count m)
    (sub_restart_count m) (last_error m).

Definition stream_unit (n : Z) (m : PM) : EffectiveStream :=
  match uid_of n with Some u => stream (get_unit u m) | None => EffectiveStream_default end.

Definition unit_configured (n : Z) (m : PM) : bool :=
  if n =? UNIT_JPEG then j_configured (jpeg m) && j_enabled (jpeg m)
  else match uid_of n with Some u => configured (get_unit u m) | None => false end.

Definition unit_active (n : Z) (m : PM) : bool :=
  if n =? UNIT_JPEG then bool_decide (is_Some (j_enc (jpeg m)))
  else if n =? UNIT_AI then 0 <? ai_demand m
  else match uid_of n with Some u => running (get_unit u m) | None => false end.
