(* ===== verification/PipelineProto.v ===== *)
(** * The hardware protocol of the media lifecycle

    A specification of what the vendor stack may be asked to do, as a partial
    automaton over the calls of [Pipeline], and the triples that relate the
    media-chain operations of the manager to it: the fields of the manager are
    at every moment between its calls the exact state of the hardware. *)

From S2P Require Import Prelude CoreTypes Pipeline.

(** ** The automaton *)

(** What exists of one stream unit. *)
Record HwUnit := mkHwUnit {
  h_fs : option obj;
  h_enc : option obj;
  h_bound : bool;
  h_enabled : bool;
  h_started : bool;
  h_thread : bool
}.

#[export] Instance HwUnit_eta : Settable HwUnit := fun r =>
  mkHwUnit (h_fs r) (h_enc r) (h_bound r) (h_enabled r) (h_started r) (h_thread r).

(** [h_timer]: the base grace timer has been armed and not disarmed since. *)
Record Hw := mkHw {
  h_up : bool; h_main : HwUnit; h_sub : HwUnit; h_jpeg : option obj; h_timer : bool
}.

#[export] Instance Hw_eta : Settable Hw := fun r => mkHw (h_up r) (h_main r) (h_sub r) (h_jpeg r) (h_timer r).

Definition hw_clean : HwUnit := mkHwUnit None None false false false false.
Definition hw_off (tm : bool) : Hw := mkHw false hw_clean hw_clean None tm.

Definition hw_unit (u : uid) (h : Hw) : HwUnit := match u with Main => h_main h | Sub => h_sub h end.
Definition hw_set (u : uid) (x : HwUnit) (h : Hw) : Hw :=
  match u with Main => h <| h_main := x |> | Sub => h <| h_sub := x |> end.

Definition present (o : option obj) : bool := match o with Some _ => true | None => false end.
Definition holds (o : option obj) (f : obj) : bool := match o with Some g => g =? f | None => false end.

Definition is_clean (x : HwUnit) : bool :=
  negb (present (h_fs x)) && negb (present (h_enc x)) && negb (h_bound x) && negb (h_enabled x)
  && negb (h_started x) && negb (h_thread x).

Definition guard_hw (b : bool) (h : Hw) : option Hw := if b then Some h else None.

(** [hw_step h e]: the state after [e], [None] when [e] is not allowed in [h]:
    bring-up and tear-down alternate and tear-down finds nothing alive; a unit is
    acquired source, encoder, binding, enable, start, capture thread, each step
    once and only on the objects of this unit; it is released in the reverse
    order, nothing that was not acquired is released, and no call goes to an
    object that does not exist. *)
Definition hw_step (h : Hw) (e : event) : option Hw :=
  match e with
  | BringUp _ => guard_hw (negb (h_up h)) (h <| h_up := true |>)
  | TearDown =>
      guard_hw (h_up h && is_clean (h_main h) && is_clean (h_sub h) && negb (present (h_jpeg h)))
               (h <| h_up := false |>)
  | CreateFs u _ o =>
      let x := hw_unit u h in
      guard_hw (h_up h && is_clean x) (hw_set u (x <| h_fs := o |>) h)
  | CreateEnc u _ o =>
      let x := hw_unit u h in
      guard_hw (present (h_fs x) && negb (present (h_enc x))) (hw_set u (x <| h_enc := o |>) h)
  | Bind u f e r =>
      let x := hw_unit u h in
      guard_hw (holds (h_fs x) f && holds (h_enc x) e && negb (h_bound x))
               (hw_set u (x <| h_bound := is_ok r |>) h)
  | FsEnable u f r =>
      let x := hw_unit u h in
      guard_hw (holds (h_fs x) f && h_bound x && negb (h_enabled x))
               (hw_set u (x <| h_enabled := is_ok r |>) h)
  | EncStart u e r =>
      let x := hw_unit u h in
      guard_hw (holds (h_enc x) e && h_enabled x && negb (h_started x))
               (hw_set u (x <| h_started := is_ok r |>) h)
  | SpawnCapture u =>
      let x := hw_unit u h in
      guard_hw (h_started x && negb (h_thread x)) (hw_set u (x <| h_thread := true |>) h)
  | JoinCapture u =>
      let x := hw_unit u h in
      guard_hw (h_thread x) (hw_set u (x <| h_thread := false |>) h)
  | EncStop u e =>
      let x := hw_unit u h in
      guard_hw (holds (h_enc x) e && h_started x && negb (h_thread x))
               (hw_set u (x <| h_started := false |>) h)
  | FsDisable u f =>
      let x := hw_unit u h in
      guard_hw (holds (h_fs x) f && h_enabled x && negb (h_started x))
               (hw_set u (x <| h_enabled := false |>) h)
  | Unbind u f e =>
      let x := hw_unit u h in
      guard_hw (holds (h_fs x) f && holds (h_enc x) e && h_bound x && negb (h_enabled x))
               (hw_set u (x <| h_bound := false |>) h)
  | DestroyEnc u e =>
      let x := hw_unit u h in
      guard_hw (holds (h_enc x) e && negb (h_bound x) && negb (h_started x))
               (hw_set u (x <| h_enc := None |>) h)
  | DestroyFs u f =>
      let x := hw_unit u h in
      guard_hw (holds (h_fs x) f && negb (present (h_enc x)) && negb (h_enabled x))
               (hw_set u (x <| h_fs := None |>) h)
  | CreateJpeg _ o => guard_hw (h_up h && negb (present (h_jpeg h))) (h <| h_jpeg := o |>)
  | DestroyJpeg j => guard_hw (holds (h_jpeg h) j) (h <| h_jpeg := None |>)
  | CaptureStart j => guard_hw (holds (h_jpeg h) j) h
  | SetSensorFps _ _ | GetSensorFps _ | PostStart | ImageSet _ _ _ => guard_hw (h_up h) h
  | EncSetBitrate e _ _ | EncSetFps e _ _ | EncSetGop e _ _ =>
      guard_hw (holds (h_enc (h_main h)) e && h_started (h_main h)) h
  | EncRequestIdr e =>
      guard_hw ((holds (h_enc (h_main h)) e && h_started (h_main h))
                || (holds (h_enc (h_sub h)) e && h_started (h_sub h))) h
  | FsSnap f _ =>
      guard_hw ((holds (h_fs (h_main h)) f && h_enabled (h_main h))
                || (holds (h_fs (h_sub h)) f && h_enabled (h_sub h))) h
  | Arm TimerBase _ => Some (h <| h_timer := true |>)
  | Disarm TimerBase => Some (h <| h_timer := false |>)
  | Arm _ _ | Disarm _ | Listener _ _ => Some h
  end.

(** The automaton run over a trace (newest call first). *)
Fixpoint hw_run (t : list event) : option Hw :=
  match t with
  | [] => Some (hw_off false)
  | e :: t' => h ← hw_run t'; hw_step h e
  end.

Lemma hw_run_cons t e h h' : hw_run t = Some h -> hw_step h e = Some h' -> hw_run (e :: t) = Some h'.
Proof. intros H1 H2. cbn [hw_run]. rewrite H1. exact H2. Qed.

(** ** The manager's view of the hardware *)

Definition view_unit (x : StreamUnit) : HwUnit :=
  mkHwUnit (fs x) (enc x) (bound x) (fs_enabled x) (enc_started x) (thread x).

Definition view (up tm : bool) (m : PM) : Hw :=
  mkHw up (view_unit (main m)) (view_unit (sub m)) (j_enc (jpeg m)) tm.

(** A unit in the middle of its acquisition: nothing is held whose
    predecessor in the chain is not. *)
Definition partial (x : StreamUnit) : Prop :=
  (thread x = true -> enc_started x = true)
  /\ (enc_started x = true -> fs_enabled x = true)
  /\ (fs_enabled x = true -> bound x = true)
  /\ (bound x = true -> present (enc x) = true)
  /\ (present (enc x) = true -> present (fs x) = true).

(** A unit between operations: running with everything acquired, or nothing. *)
Definition settled (x : StreamUnit) : Prop :=
  if running x then exists f e, view_unit x = mkHwUnit (Some f) (Some e) true true true true
  else view_unit x = hw_clean.

Definition released (x : StreamUnit) : StreamUnit :=
  x <| fs := None |> <| enc := None |> <| bound := false |> <| fs_enabled := false |>
    <| enc_started := false |> <| running := false |> <| thread := false |>.

Definition acquired (f e : obj) (x : StreamUnit) : StreamUnit :=
  x <| fs := Some f |> <| enc := Some e |> <| bound := true |> <| fs_enabled := true |>
    <| enc_started := true |> <| running := true |> <| thread := true |>.

Lemma settled_partial x : settled x -> partial x.
Proof.
  destruct x as [? ? ? ? fs0 enc0 b en st ru th ? ?]. unfold settled, partial, view_unit. simpl.
  destruct ru; [intros (f & e & [= -> -> -> -> -> ->])|intros [= -> -> -> -> -> ->]]; simpl; tauto.
Qed.

Lemma settled_idle x : settled x -> running x = false -> released x = x.
Proof.
  destruct x as [? ? ? ? fs0 enc0 b en st ru th ? ?]. unfold settled, view_unit. simpl.
  intros H ->. by injection H as -> -> -> -> -> ->.
Qed.

Lemma released_settled x : settled (released x).
Proof. done. Qed.

Lemma acquired_settled f e x : settled (acquired f e x).
Proof. by exists f, e. Qed.

Lemma hw_set_same u h : hw_set u (hw_unit u h) h = h.
Proof. by destruct u, h. Qed.

(** ** Triples of the media chain *)

Ltac hw_solve :=
  simpl;
  repeat match goal with
  | H : hw_run ?t = Some _ |- context [hw_run ?t] => rewrite H; simpl
  end;
  repeat (first [rewrite Z.eqb_refl
                | match goal with H : is_ok ?r = _ |- context [is_ok ?r] => rewrite H end]; simpl);
  try reflexivity.

(** What the media chain never changes: the demand and the configuration, i.e.
    the manager with everything the chain, the timers and the state machine own
    blanked. *)
Definition jpeg_off (y : JpegUnit) : JpegUnit :=
  y <| j_enc := None |> <| j_cache := [] |> <| j_cache_at_us := -1 |>.

Definition disarmed (x : StreamUnit) : StreamUnit := x <| grace_armed := false |>.

Definition core (m : PM) : PM :=
  m <| main ::= (fun x => disarmed (released x)) |> <| sub ::= (fun x => disarmed (released x)) |>
    <| jpeg ::= (fun y => jpeg_off y <| j_grace_armed := false |>) |>
    <| generation := 0 |> <| start_count := 0 |> <| stop_count := 0 |> <| failed_count := 0 |>
    <| restart_count := 0 |> <| sub_restart_count := 0 |> <| failed_refused := false |>
    <| last_error := ""%string |> <| next_obj := 0 |> <| trace := [] |>
    <| state := ColdIdle |> <| diag_state := ColdIdle |>.

(** The base is up: the hardware is exactly what the fields say. *)
Record live (tm : bool) (m : PM) : Prop := {
  lv_hw : hw_run (trace m) = Some (view true tm m);
  lv_main : settled (main m);
  lv_sub : settled (sub m)
}.

(** The base is down: nothing exists on the hardware. *)
Record off (tm : bool) (m : PM) : Prop := {
  off_hw : hw_run (trace m) = Some (hw_off tm);
  off_main : running (main m) = false /\ settled (main m);
  off_sub : running (sub m) = false /\ settled (sub m);
  off_jpeg : j_enc (jpeg m) = None
}.

Lemma live_settled tm u m : live tm m -> settled (get_unit u m).
Proof. intros []. by destruct u. Qed.

Lemma live_hw_unit tm u m : hw_unit u (view true tm m) = view_unit (get_unit u m).
Proof. by destruct u. Qed.

(** A unit is wanted by a base start: it is the one asked for or has demand. *)
Definition wanted (first : Z) (u : uid) (m : PM) : bool :=
  (uid_code u =? first) || (configured (get_unit u m) && (0 <? total (get_unit u m))).

Section Core.
Context (m m' : PM) (Hc : core m' = core m).

Lemma core_unit {A} (p : StreamUnit -> A) u :
  (forall x, p (disarmed (released x)) = p x) -> p (get_unit u m') = p (get_unit u m).
Proof using Hc.
  intros Hp. rewrite <- (Hp (get_unit u m')), <- (Hp (get_unit u m)). f_equal.
  destruct u; [exact (f_equal main Hc)|exact (f_equal sub Hc)].
Qed.

Lemma core_total_all : total_all_locked m' = total_all_locked m.
Proof using Hc.
  unfold total_all_locked.
  pose proof (core_unit total Main (fun _ => eq_refl)) as H1.
  pose proof (core_unit total Sub (fun _ => eq_refl)) as H2. simpl in H1, H2.
  pose proof (f_equal (fun m => j_demand (jpeg m)) Hc) as H3.
  pose proof (f_equal ai_demand Hc) as H4. simpl in H3, H4. congruence.
Qed.

Lemma core_shutdown : shutdown_flag m' = shutdown_flag m.
Proof using Hc. exact (f_equal shutdown_flag Hc). Qed.

Lemma wanted_core first u : wanted first u m' = wanted first u m.
Proof using Hc.
  unfold wanted. by rewrite (core_unit configured u (fun _ => eq_refl)), (core_unit total u (fun _ => eq_refl)).
Qed.
End Core.

Section Triples.
Context `{Platform}.

Lemma stop_unit_spec u m h :
  hw_run (trace m) = Some h ->
  hw_unit u h = view_unit (get_unit u m) ->
  partial (get_unit u m) ->
  wp (stop_unit_locked u) (fun _ m' => exists t,
    m' = upd_unit u released m <| trace := t |>
    /\ hw_run t = Some (hw_set u hw_clean h)) m.
Proof.
  intros Ht Hu Hp. destruct h as [up hm hs hj tm].
  destruct m as [? x y ? ? ? ? ? ? ? ? ? ? ? ? ? ? ? ? ? tr].
  destruct u; simpl in *; subst;
    [destruct x as [? ? ? ? fs0 enc0 b en st ru th ? ?]|destruct y as [? ? ? ? fs0 enc0 b en st ru th ? ?]];
    unfold partial, view_unit in *; simpl in *;
    destruct Hp as (P1 & P2 & P3 & P4 & P5);
    destruct th, st, en, b, enc0 as [e0|], fs0 as [f0|]; try discriminate (P1 eq_refl);
    try discriminate (P2 eq_refl); try discriminate (P3 eq_refl); try discriminate (P4 eq_refl);
    try discriminate (P5 eq_refl);
    (eexists; split; [reflexivity|]); hw_solve.
Qed.

Lemma wp_alloc (Q : obj -> PM -> Prop) m :
  Q (next_obj m) (m <| next_obj ::= Z.succ |>) -> wp alloc Q m.
Proof. done. Qed.

Lemma wp_emit e (Q : unit -> PM -> Prop) m : Q tt (m <| trace ::= cons e |>) -> wp (emit e) Q m.
Proof. done. Qed.

Lemma wp_ask {A} (f : list event -> A) (Q : A -> PM -> Prop) m : Q (f (trace m)) m -> wp (ask f) Q m.
Proof. done. Qed.

Lemma fail_unit_spec u stage c m h :
  hw_run (trace m) = Some h ->
  hw_unit u h = view_unit (get_unit u m) ->
  partial (get_unit u m) ->
  wp (fail_unit u stage c) (fun ok m' => ok = false /\ exists t le,
    m' = upd_unit u released m <| trace := t |> <| last_error := le |>
    /\ hw_run t = Some (hw_set u hw_clean h) /\ le <> ""%string) m.
Proof.
  intros Ht Hu Hp. unfold fail_unit. apply wp_bind, wp_modify, wp_bind.
  eapply wp_mono; [apply (stop_unit_spec u _ h); by destruct u|].
  intros _ m' (t & -> & Hr). apply wp_ret. split; [done|].
  exists t. eexists. split; [by destruct u|]. split; [done|by destruct u].
Qed.

Ltac fail_branch :=
  eapply wp_mono; [eapply fail_unit_spec; [hw_solve|reflexivity|by repeat split]|];
  simpl; intros ok m' (-> & t & le & -> & Hr & Hle);
  exists t; eexists; exists le; split; [reflexivity|split; [exact Hr|exact Hle]].

Ltac pm_step :=
  lazymatch goal with
  | |- wp (_ ≫= _) _ _ => apply wp_bind
  | |- wp (gets _) _ _ => apply wp_gets
  | |- wp (ask _) _ _ => apply wp_ask
  | |- wp alloc _ _ => apply wp_alloc
  | |- wp (emit _) _ _ => apply wp_emit
  | |- wp (modify _) _ _ => apply wp_modify
  | |- wp (mret _) _ _ => apply wp_ret
  | |- wp skip _ _ => apply wp_skip
  | |- wp (if negb ?b then _ else _) _ _ => destruct b eqn:?
  end; simpl;
  repeat match goal with
  | |- context [pl_bind ?t ?u] => generalize (pl_bind t u); intros ?
  | |- context [pl_enable ?t ?u] => generalize (pl_enable t u); intros ?
  | |- context [pl_start ?t ?u] => generalize (pl_start t u); intros ?
  end.

(** Starting an idle unit: everything acquired, or everything back. *)
Lemma start_unit_spec u m h :
  hw_run (trace m) = Some h ->
  hw_unit u h = hw_clean -> h_up h = true ->
  running (get_unit u m) = false -> settled (get_unit u m) ->
  wp (start_unit_locked u) (fun ok m' => exists t n,
    if ok : bool then exists f e,
      m' = upd_unit u (acquired f e) m <| trace := t |> <| next_obj := n |>
      /\ hw_run t = Some (hw_set u (mkHwUnit (Some f) (Some e) true true true true) h)
    else exists le,
      m' = m <| trace := t |> <| next_obj := n |> <| last_error := le |> /\ hw_run t = Some h
      /\ le <> ""%string) m.
Proof.
  intros Ht Hu Hup Hrun Hs. unfold settled in Hs. rewrite Hrun in Hs.
  destruct h as [up hm hs hj tm].
  destruct m as [? x y ? ? ? ? ? ? ? ? ? ? ? ? ? ? ? ? ? tr].
  destruct u; simpl in *; subst;
    [destruct x as [? ? ? ? fs0 enc0 b en st ru th ? ?]|destruct y as [? ? ? ? fs0 enc0 b en st ru th ? ?]];
    unfold view_unit in Hs; simpl in *; injection Hs as -> -> -> -> -> ->; subst;
    unfold start_unit_locked.
  all: repeat pm_step.
  all: try fail_branch.
  all: do 2 eexists; do 2 eexists; (split; [reflexivity|]); hw_solve.
Qed.

Lemma stop_jpeg_spec m up tm :
  hw_run (trace m) = Some (view up tm m) ->
  wp stop_jpeg_locked (fun _ m' => exists t,
    m' = m <| jpeg ::= (fun y => if present (j_enc y) then jpeg_off y else y) |> <| trace := t |>
    /\ hw_run t = Some (view up tm m') /\ j_enc (jpeg m') = None) m.
Proof.
  intros Ht. unfold stop_jpeg_locked. apply wp_bind, wp_gets.
  destruct m as [? ? ? [? ? ? ? ? ? je ? ? ? ? ? ? ?] ? ? ? ? ? ? ? ? ? ? ? ? ? ? ? ? tr].
  simpl. destruct je as [j|].
  - repeat pm_step. eexists; split; [reflexivity|]. simpl in Ht. by hw_solve.
  - apply wp_skip. by exists tr.
Qed.

Lemma stop_base_spec tm m :
  live tm m ->
  wp stop_base_locked (fun _ m' =>
    off tm m' /\ core m' = core m /\ last_error m' = last_error m) m.
Proof.
  intros L. unfold stop_base_locked. apply wp_bind.
  eapply wp_mono; [apply (stop_unit_spec Sub m (view true tm m)); [apply L|done|apply settled_partial, L]|].
  intros _ m1 (t1 & -> & H1). apply wp_bind.
  eapply wp_mono; [eapply (stop_unit_spec Main); [exact H1|done|apply settled_partial, L]|].
  intros _ m2 (t2 & -> & H2). apply wp_bind.
  eapply wp_mono; [eapply (stop_jpeg_spec _ true tm); exact H2|].
  intros _ m3 (t3 & Hm3 & H3 & Hj). repeat pm_step.
  assert (Hview : view true tm m3 = mkHw true hw_clean hw_clean None tm)
    by (unfold view; rewrite Hj, Hm3; reflexivity).
  rewrite Hview in H3. split; [|split].
  - subst m3. split; simpl; [by rewrite H3|done..|exact Hj].
  - subst m3. unfold core. simpl. f_equal. by destruct (present (j_enc (jpeg m))).
  - by subst m3.
Qed.

(** A unit start, on a base that is up. *)
Lemma start_unit_live tm u m :
  live tm m -> running (get_unit u m) = false ->
  wp (start_unit_locked u) (fun ok m' =>
    live tm m' /\ core m' = core m /\ jpeg m' = jpeg m
    /\ state m' = state m /\ diag_state m' = diag_state m
    /\ (forall v, v <> u -> get_unit v m' = get_unit v m)
    /\ running (get_unit u m') = ok
    /\ (ok = false -> last_error m' <> ""%string)) m.
Proof.
  intros L Hr. pose proof (live_settled tm u m L) as Hs.
  pose proof Hs as Hc. unfold settled in Hc. rewrite Hr in Hc.
  eapply wp_mono; [eapply (start_unit_spec u m (view true tm m)); try done; [apply L|by rewrite live_hw_unit]|].
  cbv beta. intros [] m' (t & n & Hm).
  - destruct Hm as (f & e & -> & Ht). destruct L as [Lh Lm Ls]. split.
    { split; [|by destruct u; [apply acquired_settled|]|by destruct u; [|apply acquired_settled]].
      by destruct u. }
    do 4 (split; [by destruct u|]). split; [|by destruct u]. intros v Hv. by destruct u, v.
  - destruct Hm as (le & -> & Ht & Hle). destruct L as [Lh Lm Ls]. split; [by split|].
    do 4 (split; [done|]). split; [by intros []|]. by split; [destruct u|].
Qed.

Lemma start_units_spec tm first l m :
  live tm m ->
  wp (start_units first l) (fun ok m' =>
    core m' = core m /\ (ok = false -> last_error m' <> ""%string)
    /\ if ok then live tm m' /\ jpeg m' = jpeg m
           /\ (forall u, running (get_unit u m') = running (get_unit u m) || (bool_decide (u ∈ l) && wanted first u m))
       else off tm m') m.
Proof.
  revert m. induction l as [|u l IH]; intros m L.
  { apply wp_ret. split; [done|]. split; [done|]. split; [done|]. split; [done|].
    intros u. by rewrite bool_decide_false, orb_false_r by apply not_elem_of_nil. }
  cbn [start_units]. apply wp_bind, wp_gets. cbv zeta. fold (wanted first u m).
  destruct (negb (wanted first u m) || running (get_unit u m)) eqn:Ew.
  - eapply wp_mono; [by apply IH|]. cbv beta. intros ok m' (Hc & He & Hok).
    split; [done|]. split; [done|]. destruct ok; [|done]. destruct Hok as (HL & Hj & Hr).
    split; [done|]. split; [done|]. intros v. rewrite Hr.
    destruct (decide (v = u)) as [->|Hne].
    + apply orb_true_iff in Ew as [Ew|Ew]; [apply negb_true_iff in Ew|]; rewrite Ew;
        by rewrite ?andb_false_r.
    + do 2 f_equal. apply bool_decide_ext. rewrite elem_of_cons. tauto.
  - apply orb_false_iff in Ew as [Ew Er]. apply negb_false_iff in Ew. apply wp_bind.
    eapply wp_mono; [by apply (start_unit_live tm u m)|].
    cbv beta. intros ok m1 (L1 & C1 & J1 & _ & _ & O1 & R1 & E1). destruct ok; simpl.
    + eapply wp_mono; [by apply IH|]. cbv beta. intros ok m' (Hc & He & Hok).
      split; [congruence|]. split; [done|]. destruct ok; [|done]. destruct Hok as (HL & Hj & Hr).
      split; [done|]. split; [congruence|]. intros v. rewrite Hr, (wanted_core m m1 C1).
      destruct (decide (v = u)) as [->|Hne].
      * rewrite R1, Ew, (bool_decide_true (u ∈ u :: l)) by (apply elem_of_cons; by left). by destruct (running _).
      * rewrite O1 by done. do 2 f_equal. apply bool_decide_ext. rewrite elem_of_cons. tauto.
    + apply wp_bind. eapply wp_mono; [by apply stop_base_spec|].
      cbv beta. intros _ m2 (F2 & C2 & Le2). repeat pm_step.
      split; [|split].
      * etransitivity; [exact C2|exact C1].
      * intros _. simpl. rewrite Le2. by apply E1.
      * by destruct F2; split.
Qed.

(** A call that leaves the hardware and the manager's fields as they are. *)
Lemma live_emit tm m e :
  live tm m -> hw_step (view true tm m) e = Some (view true tm m) ->
  live tm (m <| trace ::= cons e |>).
Proof.
  intros [Hh Hm Hs] He. split; [|done|done]. simpl. by rewrite Hh.
Qed.

Definition same_units (m m' : PM) : Prop := forall u, get_unit u m' = get_unit u m.

Lemma finish_base_spec tm m :
  live tm m ->
  wp finish_base (fun _ m' =>
    live tm m' /\ core m' = core m /\ jpeg m' = jpeg m /\ same_units m m') m.
Proof.
  intros L. unfold finish_base. apply wp_bind, wp_gets, wp_bind.
  apply (wp_mono _ (fun _ m' =>
    live tm m' /\ core m' = core m /\ jpeg m' = jpeg m /\ same_units m m')).
  { apply wp_when; intros _; [|by repeat split; try done; apply L].
    repeat pm_step. split; [|done]. by apply live_emit. }
  intros _ m1 (L1 & C1 & J1 & U1). apply wp_bind, wp_gets, wp_bind.
  apply (wp_mono _ (fun _ m' =>
    live tm m' /\ core m' = core m /\ jpeg m' = jpeg m /\ same_units m m')).
  { apply wp_when; intros _; [|done].
    repeat pm_step. split; [by apply live_emit|]. by split. }
  intros _ m2 (L2 & C2 & J2 & U2). apply wp_modify. split; [by destruct L2; split|by split].
Qed.

Lemma start_base_spec tm first m :
  off tm m ->
  wp (start_base_locked first) (fun ok m' =>
    core m' = core m /\ (ok = false -> last_error m' <> ""%string)
    /\ if ok then live tm m' /\ j_enc (jpeg m') = None
           /\ (forall u, running (get_unit u m') = wanted first u m)
       else off tm m') m.
Proof.
  intros [Hh [Rm Sm] [Rs Ss] Hj]. unfold start_base_locked.
  apply wp_bind, wp_modify, wp_bind, wp_ask.
  match goal with |- context [pl_bring_up ?t] => generalize (pl_bring_up t); intros r end.
  apply wp_bind, wp_emit. set (m1 := upd trace _ _).
  assert (L1 : live tm m1).
  { split; [|done|done]. unfold m1. simpl. rewrite Hh. simpl. unfold view. simpl.
    unfold settled in Sm, Ss. rewrite Rm in Sm. rewrite Rs in Ss. by rewrite Sm, Ss, Hj. }
  assert (C1 : core m1 = core m) by done.
  assert (R1 : forall u, running (get_unit u m1) = false) by (by intros []).
  assert (J1 : j_enc (jpeg m1) = None) by done.
  clearbody m1. destruct (is_ok r); cbn [negb].
  - apply wp_bind. eapply wp_mono; [by eapply start_units_spec|].
    cbv beta. intros ok m2 (C2 & E2 & Hok). destruct ok; cbn [negb].
    + destruct Hok as (L2 & J2 & R2). apply wp_bind.
      eapply wp_mono; [by eapply finish_base_spec|]. cbv beta. intros _ m3 (L3 & C3 & J3 & U3).
      apply wp_ret. split; [congruence|]. split; [done|]. split; [done|]. split; [congruence|].
      intros u. rewrite U3, R2, R1. simpl. rewrite (wanted_core m m1 C1), bool_decide_true; [done|].
      rewrite !elem_of_cons. destruct u; tauto.
    + apply wp_ret. split; [congruence|done].
  - apply wp_bind, wp_modify, wp_bind. eapply wp_mono.
    { apply (stop_base_spec tm). by destruct L1; split. }
    cbv beta. intros _ m2 (F2 & C2 & E2). repeat pm_step. split; [|split].
    + etransitivity; [exact C2|exact C1].
    + intros _. simpl. by rewrite E2.
    + by destruct F2; split.
Qed.

Lemma transition_spec to m :
  wp (transition to) (fun _ m' => exists t,
    m' = m <| state := to |> <| diag_state := to |> <| trace := t |>
    /\ hw_run t = hw_run (trace m)) m.
Proof.
  unfold transition. repeat pm_step. apply wp_when; intros _; repeat pm_step.
  - eexists. split; [by destruct m|]. simpl. by destruct (hw_run (trace m)).
  - exists (trace m). split; [by destruct m|done].
Qed.

(** A transition, seen through the hardware and the core. *)
Lemma transition_frame to m :
  wp (transition to) (fun _ m' =>
    state m' = to /\ diag_state m' = to /\ core m' = core m /\ last_error m' = last_error m
    /\ jpeg m' = jpeg m /\ same_units m m'
    /\ (forall tm, live tm m -> live tm m') /\ (forall tm, off tm m -> off tm m')) m.
Proof.
  eapply wp_mono; [apply transition_spec|]. cbv beta. intros _ m' (t & -> & Ht).
  do 5 (split; [done|]). split; [by intros []|].
  split; intros tm [Hh ? ?]; split; simpl; rewrite ?Ht; done.
Qed.

Lemma start_jpeg_spec tm m :
  live tm m -> j_enc (jpeg m) = None ->
  wp start_jpeg_locked (fun ok m' =>
    live tm m' /\ core m' = core m /\ same_units m m' /\ present (j_enc (jpeg m')) = ok
    /\ state m' = state m /\ diag_state m' = diag_state m /\ (ok = false -> last_error m' <> ""%string)) m.
Proof.
  intros [Hh Hm Hs] Hj. unfold start_jpeg_locked. apply wp_bind, wp_gets. rewrite Hj.
  apply wp_bind, wp_gets. cbv zeta. apply wp_bind, wp_ask.
  destruct (pl_create_jpeg _ _); cbn [negb]; repeat pm_step.
  - split; [split; [simpl; rewrite Hh; simpl; by rewrite Hj|done|done]|].
    split; [done|]. split; [by intros []|done].
  - split; [split; [|done|done]|].
    { simpl. rewrite Hh. simpl. rewrite Hj. simpl. unfold view. simpl. by rewrite Hj. }
    split; [done|]. split; [by intros []|]. simpl. by rewrite Hj.
Qed.
End Triples.
