(* ===== verification/PipelineInv.v ===== *)
(** * What every reachable media lifecycle satisfies

    The invariant of [PipelineManager] between two calls, that every operation
    keeps it, the system of a manager with its consumers (demand handles,
    snapshots in flight) as a transition system, and the properties of every
    state it can reach. *)

From S2P Require Import Prelude CoreTypes Pipeline PipelineProto.

(** ** The invariant *)

Record counts_ok (m : PM) : Prop := {
  ct_main : 0 <= total (main m);
  ct_sub : 0 <= total (sub m);
  ct_jpeg : 0 <= j_demand (jpeg m);
  ct_ai : 0 <= ai_demand m;
  ct_conf : configured (main m) = true
}.

Record inv (m : PM) : Prop := {
  iv_rest : state m = ColdIdle \/ state m = Active \/ state m = GraceIdle \/ state m = Failed;
  iv_diag : diag_state m = state m;
  iv_hw : exists tm, (state m = GraceIdle -> tm = true) /\ if base_up m then live tm m else off tm m;
  iv_active : state m = Active -> 0 < total_all_locked m;
  iv_idle : state m = GraceIdle -> total_all_locked m = 0;
  iv_cold : state m = ColdIdle -> shutdown_flag m = false -> total_all_locked m = 0;
  iv_down : shutdown_flag m = true -> base_up m = false;
  iv_failed : state m = Failed -> last_error m <> ""%string;
  iv_main : state m = Active -> 0 < total (main m) -> running (main m) = true;
  iv_counts : counts_ok m
}.

Lemma is_state_true s m : is_state s m = true <-> state m = s.
Proof. apply bool_decide_eq_true. Qed.

Lemma base_up_true m : base_up m = true <-> state m = Active \/ state m = GraceIdle.
Proof. unfold base_up. by rewrite orb_true_iff, !is_state_true. Qed.

Lemma base_up_state m : base_up m = match state m with Active | GraceIdle => true | _ => false end.
Proof. unfold base_up, is_state. by destruct (state m). Qed.

Lemma counts_core m m' : core m' = core m -> counts_ok m -> counts_ok m'.
Proof.
  intros Hc [A B C D E].
  pose proof (core_unit m m' Hc total Main (fun _ => eq_refl)) as H1.
  pose proof (core_unit m m' Hc total Sub (fun _ => eq_refl)) as H2.
  pose proof (core_unit m m' Hc configured Main (fun _ => eq_refl)) as H3.
  pose proof (f_equal (fun m => j_demand (jpeg m)) Hc) as H4.
  pose proof (f_equal ai_demand Hc) as H5. simpl in *.
  by split; rewrite ?H1, ?H2, ?H3, ?H4, ?H5.
Qed.

Lemma inv_init s c : inv (PipelineManager s c).
Proof.
  split; try done; try (right; done); [by left|].
  exists false. split; [done|]. by split.
Qed.

Section States.
Context (tm : bool) (m : PM) (Hd : diag_state m = state m) (Hc : counts_ok m).

Lemma inv_mk_failed : off tm m -> state m = Failed -> last_error m <> ""%string -> inv m.
Proof using Hd Hc.
  intros Ho Hs He. split; try done; try congruence; [tauto|..].
  - exists tm. split; [congruence|]. by rewrite base_up_state, Hs.
  - by rewrite base_up_state, Hs.
Qed.

Lemma inv_mk_cold :
  off tm m -> state m = ColdIdle -> (shutdown_flag m = false -> total_all_locked m = 0) -> inv m.
Proof using Hd Hc.
  intros Ho Hs Ht. split; try done; try congruence; [tauto|..].
  - exists tm. split; [congruence|]. by rewrite base_up_state, Hs.
  - by rewrite base_up_state, Hs.
Qed.

Lemma inv_mk_active :
  live tm m -> state m = Active -> shutdown_flag m = false -> 0 < total_all_locked m ->
  (0 < total (main m) -> running (main m) = true) -> inv m.
Proof using Hd Hc.
  intros Hl Hs Hsh Ht Hm. split; try done; try congruence; [tauto|].
  exists tm. split; [congruence|]. by rewrite base_up_state, Hs.
Qed.

Lemma inv_mk_grace :
  live true m -> state m = GraceIdle -> shutdown_flag m = false -> total_all_locked m = 0 -> inv m.
Proof using Hd Hc.
  intros Hl Hs Hsh Ht. split; try done; try congruence; [tauto|].
  exists true. split; [done|]. by rewrite base_up_state, Hs.
Qed.
End States.

(** ** Steps that leave the lifecycle alone *)

Record quiet (m m' : PM) : Prop := {
  qt_core : core m' = core m;
  qt_state : state m' = state m;
  qt_diag : diag_state m' = diag_state m;
  qt_err : last_error m' = last_error m;
  qt_run : forall u, running (get_unit u m') = running (get_unit u m);
  qt_jenc : j_enc (jpeg m') = j_enc (jpeg m);
  qt_live : forall tm, live tm m -> live tm m';
  qt_off : forall tm, off tm m -> off tm m'
}.

Lemma quiet_refl m : quiet m m.
Proof. by split. Qed.

Lemma quiet_trans m1 m2 m3 : quiet m1 m2 -> quiet m2 m3 -> quiet m1 m3.
Proof. intros [] []. split; try congruence; auto. Qed.

Lemma quiet_inv m m' : quiet m m' -> inv m -> inv m'.
Proof.
  intros [C S D E R J L O] [A1 A2 (tm & Htm & A3) A4 A5 A6 A7 A8 A9 A10].
  pose proof (core_total_all m m' C) as Ht. pose proof (core_shutdown m m' C) as Hsh.
  pose proof (core_unit m m' C total Main (fun _ => eq_refl)) as Hm. simpl in Hm.
  assert (base_up m' = base_up m) as Hb by (by rewrite !base_up_state, S).
  split; rewrite ?Hb, ?Ht, ?Hsh, ?Hm, ?S, ?D, ?E; try done.
  - exists tm. split; [done|]. destruct (base_up m); auto.
  - specialize (R Main). simpl in R. by rewrite R.
  - by eapply counts_core.
Qed.

(** A call the automaton allows in this state. *)
Lemma quiet_emit m e :
  (forall tm, live tm m -> hw_step (view true tm m) e = Some (view true tm m)) ->
  (forall tm, off tm m -> hw_step (hw_off tm) e = Some (hw_off tm)) ->
  quiet m (m <| trace ::= cons e |>).
Proof.
  intros Hl Ho. split; try done; intros tm H.
  - apply live_emit; auto.
  - destruct H as [Hh Hm Hs Hj]. split; try done. simpl. rewrite Hh. apply Ho. by split.
Qed.

Definition same_run (m m' : PM) : Prop := forall u, running (get_unit u m') = running (get_unit u m).

(** ** Steps that only change the books *)

Record same_life (m m1 : PM) : Prop := {
  sl_trace : trace m1 = trace m;
  sl_state : state m1 = state m;
  sl_diag : diag_state m1 = diag_state m;
  sl_err : last_error m1 = last_error m;
  sl_unit : forall u, view_unit (get_unit u m1) = view_unit (get_unit u m)
                      /\ running (get_unit u m1) = running (get_unit u m);
  sl_jenc : j_enc (jpeg m1) = j_enc (jpeg m)
}.

Lemma same_life_settled m m1 u : same_life m m1 -> settled (get_unit u m) -> settled (get_unit u m1).
Proof. intros [_ _ _ _ H _]. destruct (H u) as [Hv Hr]. unfold settled. by rewrite Hv, Hr. Qed.

Lemma same_life_live tm m m1 : same_life m m1 -> live tm m -> live tm m1.
Proof.
  intros S [Hh Hm Hs]. split.
  - destruct S as [T _ _ _ U J]. rewrite T, Hh. unfold view. f_equal.
    pose proof (proj1 (U Main)) as Vm. pose proof (proj1 (U Sub)) as Vs. simpl in Vm, Vs.
    by rewrite Vm, Vs, J.
  - by apply (same_life_settled m m1 Main).
  - by apply (same_life_settled m m1 Sub).
Qed.

Lemma same_life_off tm m m1 : same_life m m1 -> off tm m -> off tm m1.
Proof.
  intros S [Hh [Rm Sm] [Rs Ss] Hj]. pose proof S as [T _ _ _ U J].
  split; [by rewrite T| | |by rewrite J].
  - split; [exact (eq_trans (proj2 (U Main)) Rm)|by apply (same_life_settled m m1 Main)].
  - split; [exact (eq_trans (proj2 (U Sub)) Rs)|by apply (same_life_settled m m1 Sub)].
Qed.

(** The books may change in any way that keeps the demand totals right. *)
Lemma same_life_inv m m1 :
  same_life m m1 -> counts_ok m1 ->
  (shutdown_flag m = true -> shutdown_flag m1 = true) ->
  (shutdown_flag m1 = true -> base_up m = false) ->
  (state m = Active -> 0 < total_all_locked m1) ->
  (state m = GraceIdle -> total_all_locked m1 = 0) ->
  (state m = ColdIdle -> shutdown_flag m1 = false -> total_all_locked m1 = 0) ->
  (state m = Active -> 0 < total (main m1) -> 0 < total (main m)) ->
  inv m -> inv m1.
Proof.
  intros S C Hsh1 Hsh2 Ha Hg Hc Hm I. pose proof S as [T Es Ed Ee U J].
  assert (base_up m1 = base_up m) as Hb by (by rewrite !base_up_state, Es).
  split; rewrite ?Hb, ?Es, ?Ed, ?Ee; try done; try apply I.
  - destruct (iv_hw m I) as (tm & Htm & H). exists tm. split; [done|].
    destruct (base_up m); [by apply (same_life_live tm m)|by apply (same_life_off tm m)].
  - intros Hs Ht. pose proof (proj2 (U Main)) as R. simpl in R. rewrite R. by apply (iv_main m I); auto.
Qed.

(** The books: who demands what, and whether the manager was shut down. *)
Definition books (m : PM) : list Z * Z * list Z * Z * Z * Z * bool :=
  (demand (main m), total (main m), demand (sub m), total (sub m), j_demand (jpeg m), ai_demand m,
   shutdown_flag m).

Lemma core_books m m' : core m' = core m -> books m' = books m.
Proof.
  intros C. unfold books.
  pose proof (core_unit m m' C total Main (fun _ => eq_refl)) as H1.
  pose proof (core_unit m m' C total Sub (fun _ => eq_refl)) as H2.
  pose proof (core_unit m m' C demand Main (fun _ => eq_refl)) as H3.
  pose proof (core_unit m m' C demand Sub (fun _ => eq_refl)) as H4.
  pose proof (f_equal (fun m => j_demand (jpeg m)) C) as H5.
  pose proof (f_equal ai_demand C) as H6. pose proof (core_shutdown m m' C) as H7.
  simpl in *. by rewrite H1, H2, H3, H4, H5, H6, H7.
Qed.

Lemma books_inv m m1 :
  same_life m m1 -> books m1 = books m -> configured (main m1) = configured (main m) -> inv m -> inv m1.
Proof.
  unfold books. intros S [= B1 B2 B3 B4 B5 B6 B7] Hc I.
  assert (total_all_locked m1 = total_all_locked m) as Ht by (unfold total_all_locked; congruence).
  destruct (iv_counts m I). apply (same_life_inv m m1); rewrite ?Ht, ?B2, ?B7; try done; try apply I.
  split; congruence.
Qed.

Section Operations.
Context `{Platform}.

Lemma disarm_unit_spec u m : wp (disarm_unit u) (fun _ => quiet m) m.
Proof.
  unfold disarm_unit. apply wp_bind, wp_gets, wp_when; intros _; [|apply quiet_refl].
  apply wp_bind, wp_emit, wp_modify.
  split; try (by destruct u); try (by intros []; destruct u); intros tm [Hh ? ?];
    (split; [simpl in *; destruct u; simpl; by rewrite Hh|by destruct u..]).
Qed.

Lemma disarm_jpeg_spec m : wp disarm_jpeg (fun _ => quiet m) m.
Proof.
  unfold disarm_jpeg. apply wp_bind, wp_gets, wp_when; intros _; [|apply quiet_refl].
  apply wp_bind, wp_emit, wp_modify.
  split; try done; try (by intros []); intros tm [Hh ? ?];
    (split; [simpl in *; by rewrite Hh|done..]).
Qed.

Lemma enter_grace_spec tm m :
  live tm m ->
  wp enter_grace (fun _ m' =>
    core m' = core m /\ state m' = GraceIdle /\ diag_state m' = GraceIdle /\ live true m'
    /\ same_run m m') m.
Proof.
  intros L. unfold enter_grace. apply wp_bind.
  wp_call (disarm_unit_spec Main). intros _ m1 Q1. apply wp_bind.
  wp_call (disarm_unit_spec Sub). intros _ m2 Q2. apply wp_bind.
  pose proof (quiet_trans _ _ _ Q1 Q2) as [C2 _ _ _ R2 _ L2 _].
  wp_call (transition_frame GraceIdle). intros _ m3 (S3 & D3 & C3 & _ & _ & U3 & L3 & _).
  apply wp_bind, wp_gets, wp_emit. split; [etransitivity; [exact C3|exact C2]|].
  split; [done|]. split; [done|]. split.
  - destruct (L3 tm (L2 tm L)) as [Hh ? ?]. split; [|done..]. simpl. by rewrite Hh.
  - intros u. simpl. rewrite <- R2, <- (U3 u). by destruct u.
Qed.

Lemma stop_unit_live tm u m :
  live tm m ->
  wp (stop_unit_locked u) (fun _ m' =>
    live tm m' /\ core m' = core m /\ state m' = state m /\ diag_state m' = diag_state m
    /\ last_error m' = last_error m
    /\ running (get_unit u m') = false
    /\ (forall v, v <> u -> get_unit v m' = get_unit v m)) m.
Proof.
  intros L. pose proof (live_settled tm u m L) as Hs. destruct L as [Hh Hm Hss].
  eapply wp_mono; [apply (stop_unit_spec u m (view true tm m)); [done|by rewrite live_hw_unit|by apply settled_partial]|].
  cbv beta. intros _ m' (t & -> & Ht). split.
  - destruct u; (split; [simpl; rewrite Ht; reflexivity|..]);
      first [exact (released_settled _)|exact Hm|exact Hss].
  - split; [destruct u; unfold core, released, disarmed; cbn; reflexivity|].
    do 4 (split; [destruct u; reflexivity|]). intros v Hv. by destruct u, v.
Qed.

(** Bringing the base up, or finding it up: on success the base is ACTIVE. *)
Lemma ensure_base_spec n m :
  inv m -> shutdown_flag m = false ->
  wp (ensure_base_locked n) (fun ok m' =>
    core m' = core m
    /\ if ok then exists tm, live tm m' /\ state m' = Active /\ diag_state m' = Active
            /\ (0 < total (main m') -> running (main m') = true)
       else inv m' /\ state m' = Failed) m.
Proof.
  intros I Hsh. unfold ensure_base_locked. apply wp_bind, wp_gets.
  pose proof (iv_diag m I) as Hd. pose proof (iv_hw m I) as (tm & Htm & Hhw).
  rewrite base_up_state in Hhw. destruct (state m) eqn:Es.
  - apply wp_bind. wp_call (transition_frame Starting).
    intros _ m1 (S1 & D1 & C1 & E1 & J1 & U1 & L1 & O1). apply wp_bind.
    wp_call (start_base_spec tm n m1 (O1 tm Hhw)).
    intros ok m2 (C2 & E2 & Hok). destruct ok; cbn [negb].
    + destruct Hok as (L2 & J2 & R2). apply wp_bind. wp_call (transition_frame Active).
      intros _ m3 (S3 & D3 & C3 & E3 & J3 & U3 & L3 & O3). apply wp_ret.
      split; [congruence|]. exists tm. split; [auto|]. split; [done|]. split; [done|].
      intros Ht. exfalso. assert (core m3 = core m) as C by congruence.
      pose proof (core_total_all m m3 C). pose proof (counts_core m m3 C (iv_counts m I)) as [].
      pose proof (iv_cold m I Es Hsh). unfold total_all_locked in *. lia.
    + apply wp_bind. wp_call (transition_frame Failed).
      intros _ m3 (S3 & D3 & C3 & E3 & J3 & U3 & L3 & O3). apply wp_ret.
      assert (core m3 = core m) as C by congruence. split; [done|]. split; [|done].
      apply (inv_mk_failed tm); [congruence|by apply (counts_core m), iv_counts|auto|done|].
      rewrite E3. auto.
  - by destruct (iv_rest m I) as [|[|[|]]]; congruence.
  - apply wp_ret. split; [done|]. exists tm. do 3 (split; [done|]). by apply (iv_main m I).
  - apply wp_bind, wp_emit, wp_bind. rewrite Htm in Hhw by done.
    wp_call (transition_frame Active).
    intros _ m3 (S3 & D3 & C3 & E3 & J3 & U3 & L3 & O3). apply wp_ret.
    split; [exact C3|]. exists false. split; [|split; [done|split; [done|]]].
    + apply L3. destruct Hhw as [Hh ? ?]. split; [|done..]. simpl. by rewrite Hh.
    + intros Ht. exfalso. pose proof (core_total_all m m3 C3).
      pose proof (counts_core m m3 C3 (iv_counts m I)) as [].
      pose proof (iv_idle m I Es). unfold total_all_locked in *. lia.
  - by destruct (iv_rest m I) as [|[|[|]]]; congruence.
  - apply wp_bind, wp_modify, wp_ret. split; [done|]. split; [|exact Es].
    apply (inv_mk_failed tm); [exact (eq_trans Hd (eq_sym Es))|by apply (counts_core m), iv_counts| |done|].
    + by destruct Hhw; split.
    + by apply (iv_failed m I).
Qed.

Lemma give_up_base_spec tm m :
  live tm m -> state m = Active -> diag_state m = Active -> shutdown_flag m = false ->
  last_error m <> ""%string -> counts_ok m ->
  (0 < total (main m) -> running (main m) = true) ->
  wp give_up_base (fun _ m' =>
    inv m' /\ core m' = core m /\ (state m' = Failed \/ state m' = Active)) m.
Proof.
  intros L Hs Hd Hsh He Hc Hm. unfold give_up_base. apply wp_bind, wp_gets, wp_when; intros Hb.
  - apply wp_bind. wp_call (transition_frame Stopping).
    intros _ m1 (S1 & D1 & C1 & E1 & J1 & U1 & L1 & O1). apply wp_bind.
    wp_call (stop_base_spec tm m1 (L1 tm L)). intros _ m2 (F2 & C2 & E2).
    wp_call (transition_frame Failed).
    intros _ m3 (S3 & D3 & C3 & E3 & J3 & U3 & L3 & O3).
    assert (core m3 = core m) as C by congruence. split; [|by split; [|left]].
    apply (inv_mk_failed tm); [congruence|by apply (counts_core m)|auto|done|congruence].
  - split; [|by split; [|right]]. apply (inv_mk_active tm); try done; [congruence|].
    apply andb_false_iff in Hb as [Hb|Hb].
    + apply Z.eqb_neq in Hb. destruct Hc. unfold total_all_locked in *. lia.
    + unfold is_state in Hb. rewrite bool_decide_true in Hb by done. done.
Qed.

(** *** Demand *)

Definition add_demand (type : ConsumerType) (y : StreamUnit) : StreamUnit :=
  y <| demand ::= alter (fun n => n + 1) (ct_index type) |> <| total ::= Z.succ |>.

Definition sub_demand (type : ConsumerType) (y : StreamUnit) : StreamUnit :=
  y <| demand ::= alter (fun n => if 0 <? n then n - 1 else n) (ct_index type) |>
    <| total ::= fun n => if 0 <? n then n - 1 else n |>.

Lemma core_upd_unit u f m m' :
  (forall x, disarmed (released (f x)) = f (disarmed (released x))) ->
  core m' = core m -> core (upd_unit u f m') = core (upd_unit u f m).
Proof.
  intros Hf Hc.
  assert (forall m, core (upd_unit u f m) = upd_unit u f (core m)) as E.
  { intros m0. unfold core. destruct u; simpl; f_equal; apply Hf. }
  by rewrite !E, Hc.
Qed.

Lemma add_demand_chain type x :
  disarmed (released (add_demand type x)) = add_demand type (disarmed (released x)).
Proof. reflexivity. Qed.

Lemma sub_demand_chain type x :
  disarmed (released (sub_demand type x)) = sub_demand type (disarmed (released x)).
Proof. reflexivity. Qed.

Lemma live_upd_unit tm u f m :
  (forall x, view_unit (f x) = view_unit x) -> (forall x, running (f x) = running x) ->
  live tm m -> live tm (upd_unit u f m).
Proof.
  intros Hv Hr [Hh Hm Hs]. unfold settled in *.
  destruct u; (split; [unfold view in *; simpl; rewrite ?Hv; exact Hh|..]);
    unfold settled; simpl; rewrite ?Hr, ?Hv; done.
Qed.

Lemma acquire_unit_spec n type m :
  inv m ->
  wp (acquire_unit n type) (fun r m' =>
    inv m' /\
    match r.1 with
    | Some h => exists u, uid_of n = Some u /\ h = mkHandle type n /\ r.2 = Res.ok
        /\ shutdown_flag m = false /\ state m' = Active /\ running (get_unit u m') = true
        /\ core m' = core (upd_unit u (add_demand type) m)
    | None => core m' = core m /\ is_ok r.2 = false
        /\ (m' = m \/ (shutdown_flag m = false /\ (state m' = Failed \/ state m' = Active)))
    end) m.
Proof.
  intros I. unfold acquire_unit. apply wp_bind, wp_gets.
  destruct (uid_of n) as [u|] eqn:Eu; [|by apply wp_ret; split; [|split; [|split; [destruct (shutdown_flag m)|left]]]].
  destruct (shutdown_flag m) eqn:Hsh; [by apply wp_ret; split; [|split; [|split; [|left]]]|]. cbn [orb].
  destruct (negb _); [by apply wp_ret; split; [|split; [|split; [|left]]]|]. apply wp_bind.
  wp_call (ensure_base_spec n m I Hsh). intros ok m1 (C1 & Hok). destruct ok; cbn [negb].
  2: { apply wp_ret. destruct Hok. split; [done|]. split; [done|]. split; [done|]. right. tauto. }
  destruct Hok as (tm & L1 & S1 & D1 & R1). apply wp_bind.
  wp_call (disarm_unit_spec u m1). intros _ m2 Q2.
  pose proof Q2 as [C2 S2 D2 E2 R2 J2 L2 O2]. specialize (L2 tm L1). apply wp_bind, wp_gets.
  assert (Hc2 : core m2 = core m) by congruence.
  assert (Hm2 : 0 < total (main m2) -> running (main m2) = true).
  { pose proof (R2 Main) as Rm. simpl in Rm. rewrite Rm. pose proof (core_unit m1 m2 C2 total Main (fun _ => eq_refl)) as Ht.
    simpl in Ht. by rewrite Ht. }
  apply wp_bind.
  apply (wp_mono _ (fun ok m3 => live tm m3 /\ core m3 = core m /\ state m3 = Active
    /\ diag_state m3 = Active /\ running (get_unit u m3) = ok
    /\ (ok = false -> last_error m3 <> ""%string)
    /\ (0 < total (main m3) -> running (main m3) = true))).
  { destruct (running (get_unit u m2)) eqn:Er; [apply wp_ret|].
    - do 3 (split; [congruence|]). by split; [congruence|].
    - wp_call (start_unit_live tm u m2 L2 Er).
      intros ok m3 (L3 & C3 & J3 & S3 & D3 & O3 & R3 & E3).
      do 4 (split; [congruence|]). do 2 (split; [done|]).
      pose proof (core_unit m2 m3 C3 total Main (fun _ => eq_refl)) as Ht. simpl in Ht. rewrite Ht.
      destruct u; [simpl in Er; intros Hpos%Hm2; congruence|].
      specialize (O3 Main ltac:(done)). simpl in O3. by rewrite O3. }
  clear m1 m2 C1 C2 L1 L2 S1 S2 D1 D2 R1 R2 E2 J2 O2 Q2 Hc2 Hm2.
  intros ok m3 (L3 & C3 & S3 & D3 & R3 & E3 & Hm3). destruct ok; cbn [negb].
  - apply wp_bind, wp_modify, wp_ret. cbn [fst snd]. fold (add_demand type).
    assert (C4 : core (upd_unit u (add_demand type) m3) = core (upd_unit u (add_demand type) m))
      by (apply core_upd_unit; [apply add_demand_chain|done]).
    split; [|exists u; do 4 (split; [done|]); split; [by destruct u|split; [by destruct u|exact C4]]].
    pose proof (counts_core m m3 C3 (iv_counts m I)) as [].
    pose proof (core_shutdown m m3 C3).
    assert (Hpos : 0 < total_all_locked (upd_unit u (add_demand type) m3))
      by (unfold total_all_locked, add_demand; destruct u; simpl; lia).
    apply (inv_mk_active tm); try done.
    + destruct u; simpl; congruence.
    + split; destruct u; simpl; try done; lia.
    + apply live_upd_unit; done.
    + by destruct u.
    + destruct u; simpl; congruence.
    + destruct u; simpl; [done|exact Hm3].
  - apply wp_bind. wp_call (give_up_base_spec tm m3); try done; [|by auto| |].
    + by rewrite (core_shutdown m m3 C3).
    + by apply (counts_core m), iv_counts.
    + intros _ m4 (I4 & C4 & S4). apply wp_ret. split; [done|]. split; [congruence|]. by split; [|right].
Qed.

Lemma acquire_base_spec type m :
  inv m ->
  wp (acquire_base type) (fun r m' =>
    inv m' /\
    match r.1 with
    | Some h => h = mkHandle type UNIT_AI /\ r.2 = Res.ok /\ shutdown_flag m = false /\ state m' = Active
        /\ core m' = core (m <| ai_demand ::= Z.succ |>)
    | None => core m' = core m /\ is_ok r.2 = false
    end) m.
Proof.
  intros I. unfold acquire_base. apply wp_bind, wp_gets.
  destruct (shutdown_flag m) eqn:Hsh; [by apply wp_ret|]. apply wp_bind.
  wp_call (ensure_base_spec (-1) m I Hsh). intros ok m1 (C1 & Hok). destruct ok; cbn [negb].
  2: { apply wp_ret. by destruct Hok. }
  destruct Hok as (tm & L1 & S1 & D1 & R1). apply wp_bind, wp_modify, wp_ret. cbn [fst snd].
  set (m2 := m1 <| ai_demand ::= Z.succ |>).
  assert (SL : same_life m1 m2) by (by split).
  pose proof (counts_core m m1 C1 (iv_counts m I)) as [].
  split; [|do 4 (split; [done|])].
  - apply (inv_mk_active tm); try done.
    + simpl. congruence.
    + by split; simpl; try lia.
    + by apply (same_life_live tm m1).
    + simpl. by rewrite (core_shutdown m m1 C1).
    + unfold total_all_locked. simpl. lia.
  - pose proof (f_equal (fun m => m <| ai_demand ::= Z.succ |>) C1) as C2. exact C2.
Qed.

Lemma sub_demand_total type x : 0 < total x -> total (sub_demand type x) = total x - 1.
Proof. intros Hp. simpl. by rewrite (proj2 (Z.ltb_lt 0 _) Hp). Qed.

(** After one demand less: the base grace begins when it was the last. *)
Lemma released_spec m m1 (rest : ST PM unit) :
  inv m -> same_life m m1 -> shutdown_flag m1 = shutdown_flag m -> counts_ok m1 ->
  total_all_locked m1 = total_all_locked m - 1 ->
  total (main m1) <= total (main m) ->
  (inv m1 -> shutdown_flag m1 = false -> wp rest (fun _ m' => inv m' /\ core m' = core m1) m1) ->
  wp (m ← gets (fun m => m);
      if shutdown_flag m then skip
      else if (total_all_locked m =? 0) && is_state Active m then enter_grace else rest)
     (fun _ m' => inv m' /\ core m' = core m1) m1.
Proof.
  intros I S Hsh C1 Ht Hm Hrest. apply wp_bind, wp_gets.
  assert (Hlow : total_all_locked m1 >= 0) by (destruct C1; unfold total_all_locked; lia).
  assert (Hsi : (state m = Active -> 0 < total_all_locked m1) -> inv m1).
  { intros Ha. apply (same_life_inv m m1); try done; try congruence; [|..|lia].
    - rewrite Hsh. apply (iv_down m I).
    - intros Hg%(iv_idle m I). lia.
    - rewrite Hsh. intros Hc Hs. pose proof (iv_cold m I Hc Hs). lia. }
  destruct (shutdown_flag m1) eqn:Hs.
  - apply wp_skip. split; [|done]. apply Hsi. intros Ha. exfalso.
    pose proof (iv_down m I ltac:(congruence)) as Hd. by rewrite base_up_state, Ha in Hd.
  - destruct (_ && _) eqn:E.
    + apply andb_true_iff in E as [E0 Ea]. apply Z.eqb_eq in E0. apply is_state_true in Ea.
      rewrite (sl_state m m1 S) in Ea. destruct (iv_hw m I) as (tm & _ & L).
      rewrite base_up_state, Ea in L.
      wp_call (enter_grace_spec tm m1 (same_life_live tm m m1 S L)).
      intros _ m2 (C2 & S2 & D2 & L2 & R2). split; [|done].
      apply inv_mk_grace; try done; [congruence|by apply (counts_core m1)|..].
      * by rewrite (core_shutdown m1 m2 C2).
      * by rewrite (core_total_all m1 m2 C2).
    + apply Hrest; [|done]. apply Hsi. intros Ha.
      assert (is_state Active m1 = true) as Eq
        by (apply is_state_true; exact (eq_trans (sl_state m m1 S) Ha)).
      rewrite Eq, andb_true_r in E. apply Z.eqb_neq in E. lia.
Qed.

Lemma release_unit_spec type u m :
  inv m -> 0 < total (get_unit u m) ->
  wp (release_unit type u) (fun _ m' => inv m' /\ core m' = core (upd_unit u (sub_demand type) m)) m.
Proof.
  intros I Hpos. unfold release_unit. apply wp_bind, wp_modify, wp_bind, wp_modify.
  set (m1 := upd_unit u (fun y => y <| total ::= _ |>) _).
  assert (E1 : m1 = upd_unit u (sub_demand type) m) by (by destruct u).
  rewrite <- E1. pose proof (iv_counts m I) as [].
  assert (Ht : total (get_unit u m1) = total (get_unit u m) - 1).
  { rewrite E1, <- (sub_demand_total type) by done. by destruct u. }
  assert (Hoth : forall v, v <> u -> get_unit v m1 = get_unit v m) by (intros v Hv; by destruct u, v).
  assert (Hmain : total (main m1) <= total (main m)).
  { destruct u; simpl in *; lia. }
  assert (Hsub : total (sub m1) <= total (sub m)).
  { destruct u; simpl in *; lia. }
  assert (S1 : same_life m m1) by (rewrite E1; destruct u; split; try done; by intros []).
  assert (Hs1 : shutdown_flag m1 = shutdown_flag m) by (by rewrite E1; destruct u).
  assert (Hc1 : counts_ok m1) by (split; try (destruct u; simpl in *; lia); destruct u; done).
  assert (Hall : total_all_locked m1 = total_all_locked m - 1)
    by (unfold total_all_locked; destruct u; simpl in *; lia).
  clearbody m1. apply (released_spec m m1); try done.
  intros I1 Hs. cbv zeta. apply wp_when; intros E; [|done].
    apply andb_true_iff in E as [[E0 Er]%andb_true_iff Ea].
    apply Z.eqb_eq in E0. apply is_state_true in Ea.
    destruct (iv_hw m1 I1) as (tm & _ & L). rewrite base_up_state, Ea in L.
    destruct (timer _).
    + apply wp_bind, wp_emit, wp_modify. split.
      * apply (quiet_inv m1); [|done]. split; try (by destruct u); try (by intros []; destruct u);
          intros tm' [Hh ? ?]; (split; [simpl in *; destruct u; simpl; by rewrite Hh|by destruct u..]).
      * by destruct u.
    + wp_call (stop_unit_live tm u m1 L). intros _ m2 (L2 & C2 & S2 & D2 & E2 & R2 & O2).
      split; [|done]. apply (inv_mk_active tm); try done; try congruence.
      * rewrite S2, D2. apply (iv_diag m1 I1).
      * by apply (counts_core m1), iv_counts.
      * by rewrite (core_shutdown m1 m2 C2).
      * rewrite (core_total_all m1 m2 C2). by apply (iv_active m1 I1).
      * pose proof (core_unit m1 m2 C2 total Main (fun _ => eq_refl)) as Hm2. simpl in Hm2. rewrite Hm2.
        intros Hp. destruct u; [simpl in E0; lia|].
        specialize (O2 Main ltac:(done)). simpl in O2. rewrite O2. by apply (iv_main m1 I1).
Qed.

Lemma release_base_spec m :
  inv m -> 0 < ai_demand m ->
  wp release_base (fun _ m' => inv m' /\ core m' = core (m <| ai_demand ::= Z.pred |>)) m.
Proof.
  intros I Hpos. unfold release_base. apply wp_bind, wp_modify.
  set (m1 := m <| ai_demand ::= (fun n => if 0 <? n then n - 1 else n) |>).
  assert (E1 : m1 = m <| ai_demand ::= Z.pred |>).
  { assert ((if 0 <? ai_demand m then ai_demand m - 1 else ai_demand m) = Z.pred (ai_demand m)) as E
      by (rewrite (proj2 (Z.ltb_lt 0 _) Hpos); lia).
    exact (f_equal (fun v => m <| ai_demand := v |>) E). }
  clearbody m1. rewrite <- E1. pose proof (iv_counts m I) as [].
  assert (R : wp (m ← gets (fun m => m);
                  if shutdown_flag m then skip
                  else if (total_all_locked m =? 0) && is_state Active m then enter_grace else skip)
                 (fun _ m' => inv m' /\ core m' = core m1) m1).
  { apply (released_spec m m1); try done; rewrite E1.
    - split; try done; by intros [].
    - done.
    - split; simpl; try done; lia.
    - unfold total_all_locked. simpl. lia.
    - simpl. lia. }
  apply wp_bind_inv in R. apply wp_bind, wp_gets. cbv beta. apply wp_when; intros E; simpl in E.
  - apply andb_true_iff in E as [[Es%negb_true_iff E0]%andb_true_iff Ea].
    unfold wp, gets, result, exec in R. cbn [fst snd] in R.
    replace (shutdown_flag m1) with false in R by (symmetry; exact Es).
    replace ((total_all_locked m1 =? 0) && is_state Active m1) with true in R
      by (symmetry; apply andb_true_iff; split; [exact E0|exact Ea]).
    exact R.
  - unfold wp, gets, result, exec in R. cbn [fst snd] in R.
    destruct (shutdown_flag m1) eqn:Es; [exact R|].
    replace ((total_all_locked m1 =? 0) && is_state Active m1) with false in R by (symmetry; exact E).
    exact R.
Qed.

(** *** Timers, shutdown *)

Lemma base_up_live m : inv m -> base_up m = true -> exists tm, live tm m.
Proof. intros I Hb. destruct (iv_hw m I) as (tm & _ & H'). rewrite Hb in H'. by exists tm. Qed.

Lemma on_grace_timeout_spec m :
  inv m ->
  wp on_grace_timeout (fun _ m' => inv m' /\ core m' = core m
    /\ (state m = GraceIdle -> state m' = ColdIdle)
    /\ (state m <> GraceIdle -> m' = m)) m.
Proof.
  intros I. unfold on_grace_timeout. apply wp_bind, wp_gets.
  destruct (is_state GraceIdle m) eqn:Es; cbn [negb orb].
  - apply is_state_true in Es. rewrite (iv_idle m I Es). cbn [Z.ltb].
    destruct (iv_hw m I) as (tm & Htm & L). rewrite base_up_state, Es in L.
    apply wp_bind. wp_call (transition_frame Stopping).
    intros _ m1 (S1 & D1 & C1 & E1 & J1 & U1 & L1 & O1). apply wp_bind.
    wp_call (stop_base_spec tm m1 (L1 tm L)). intros _ m2 (F2 & C2 & E2).
    wp_call (transition_frame ColdIdle).
    intros _ m3 (S3 & D3 & C3 & E3 & J3 & U3 & L3 & O3).
    assert (core m3 = core m) as C by congruence. split; [|done].
    apply (inv_mk_cold tm); [congruence|by apply (counts_core m), iv_counts|auto|done|].
    intros _. rewrite (core_total_all m m3 C). by apply (iv_idle m I).
  - apply wp_skip. split; [done|]. split; [done|]. split; [|done].
    intros Hs%is_state_true. congruence.
Qed.

(** Stopping a unit nobody demands. *)
Lemma stop_idle_unit_spec u m :
  inv m -> base_up m = true -> total (get_unit u m) = 0 ->
  wp (stop_unit_locked u) (fun _ m' => inv m' /\ core m' = core m
    /\ state m' = state m /\ running (get_unit u m') = false) m.
Proof.
  intros I Hb Ht. destruct (iv_hw m I) as (tm & Htm & L). rewrite Hb in L.
  wp_call (stop_unit_live tm u m L). intros _ m2 (L2 & C2 & S2 & D2 & E2 & R2 & O2).
  split; [|done]. pose proof I as [A1 A2 A3 A4 A5 A6 A7 A8 A9 A10].
  assert (base_up m2 = base_up m) as Hb2 by (by rewrite !base_up_state, S2).
  pose proof (core_total_all m m2 C2) as Ht2. pose proof (core_shutdown m m2 C2) as Hs2.
  split; rewrite ?S2, ?D2, ?E2, ?Ht2, ?Hs2, ?Hb2; try done.
  - exists tm. split; [done|]. by rewrite Hb.
  - pose proof (core_unit m m2 C2 total Main (fun _ => eq_refl)) as Hm2. simpl in Hm2. rewrite Hm2.
    intros Ha Hp. destruct u; [simpl in Ht; lia|].
    specialize (O2 Main ltac:(done)). simpl in O2. rewrite O2. auto.
  - by apply (counts_core m).
Qed.

Lemma on_unit_grace_spec n m :
  inv m ->
  wp (on_unit_grace n) (fun _ m' => inv m' /\ core m' = core m /\ state m' = state m
    /\ (forall u, uid_of n = Some u -> state m = Active -> total (get_unit u m) = 0 ->
        running (get_unit u m') = false)) m.
Proof.
  intros I. unfold on_unit_grace. destruct (uid_of n) as [u|] eqn:Eu; [|by apply wp_skip].
  apply wp_bind, wp_modify. set (m1 := upd_unit u _ m).
  assert (S1 : same_life m m1) by (destruct u; split; try done; by intros []).
  assert (C1 : core m1 = core m) by (unfold m1, core; destruct u; reflexivity).
  assert (T1 : total (get_unit u m1) = total (get_unit u m)) by (by destruct u).
  assert (I1 : inv m1).
  { apply (books_inv m m1); [done|by apply core_books| |done].
    exact (core_unit m m1 C1 configured Main (fun _ => eq_refl)). }
  assert (St1 : state m1 = state m) by apply S1.
  clearbody m1. apply wp_bind, wp_gets. cbv zeta. apply wp_when; intros E.
  - apply andb_true_iff in E as [[E0 Er]%andb_true_iff Ea]. apply Z.eqb_eq in E0.
    apply is_state_true in Ea.
    wp_call (stop_idle_unit_spec u m1 I1); [by rewrite base_up_state, Ea|done|].
    intros _ m2 (I2 & C2 & S2 & R2). split; [done|]. split; [congruence|]. split; [congruence|].
    by intros v [= <-].
  - split; [done|]. split; [done|]. split; [done|]. intros v [= <-] Ha Ht.
    rewrite T1, Ht in E. unfold is_state in E. rewrite St1, Ha in E. cbn in E.
    by rewrite andb_true_r in E.
Qed.

Lemma stop_jpeg_inv m :
  inv m -> base_up m = true ->
  wp stop_jpeg_locked (fun _ m' => inv m' /\ core m' = core m /\ state m' = state m
    /\ j_enc (jpeg m') = None) m.
Proof.
  intros I Hb. destruct (iv_hw m I) as (tm & Htm & L). rewrite Hb in L. destruct L as [Hh Hm Hs].
  wp_call (stop_jpeg_spec m true tm Hh). intros _ m1 (t & E & Ht & Hj).
  assert (C1 : core m1 = core m) by (rewrite E; unfold core; simpl; by destruct (present _)).
  split; [|split; [done|split; [by rewrite E|done]]].
  pose proof I as [A1 A2 A3 A4 A5 A6 A7 A8 A9 A10].
  assert (state m1 = state m) as S1 by (by rewrite E).
  assert (base_up m1 = base_up m) as Hb1 by (by rewrite !base_up_state, S1).
  pose proof (core_total_all m m1 C1) as Ht1. pose proof (core_shutdown m m1 C1) as Hs1.
  split; rewrite ?S1, ?Ht1, ?Hs1, ?Hb1; try done; try (by rewrite E).
  - exists tm. split; [done|]. rewrite Hb. split; [|by rewrite E..]. rewrite <- Ht. by rewrite E.
  - by apply (counts_core m).
Qed.

Lemma on_jpeg_grace_spec m :
  inv m ->
  wp on_jpeg_grace (fun _ m' => inv m' /\ core m' = core m /\ state m' = state m
    /\ (state m = Active -> j_demand (jpeg m) = 0 -> j_enc (jpeg m') = None)) m.
Proof.
  intros I. unfold on_jpeg_grace. apply wp_bind, wp_modify. set (m1 := m <| jpeg ::= _ |>).
  assert (S1 : same_life m m1) by (split; try done; by intros []).
  assert (I1 : inv m1) by (by apply (books_inv m m1)).
  assert (C1 : core m1 = core m) by (unfold m1, core; reflexivity).
  assert (J1 : j_demand (jpeg m1) = j_demand (jpeg m)) by done.
  assert (St1 : state m1 = state m) by done.
  clearbody m1. apply wp_bind, wp_gets. apply wp_when; intros E.
  - apply andb_true_iff in E as [[E0 Er]%andb_true_iff Ea]. apply is_state_true in Ea.
    wp_call (stop_jpeg_inv m1 I1); [by rewrite base_up_state, Ea|].
    intros _ m2 (I2 & C2 & S2 & J2). split; [done|]. split; [congruence|]. by split; [congruence|].
  - split; [done|]. split; [done|]. split; [done|]. intros Ha Hj.
    rewrite J1, Hj in E. unfold is_state in E. rewrite St1, Ha, (bool_decide_true (Active = Active)) in E by done.
    destruct (j_enc (jpeg m1)); [|done]. by rewrite bool_decide_true in E by eauto.
Qed.

Lemma disarm_all_spec m :
  wp (disarm_unit Main ;; disarm_unit Sub ;; disarm_jpeg) (fun _ => quiet m) m.
Proof.
  apply wp_bind. wp_call (disarm_unit_spec Main). intros _ m1 Q1. apply wp_bind.
  wp_call (disarm_unit_spec Sub). intros _ m2 Q2. wp_call (disarm_jpeg_spec).
  intros _ m3 Q3. eapply quiet_trans; [exact Q1|]. by eapply quiet_trans.
Qed.

(** After shutdown nothing is left on the hardware. *)
Lemma shutdown_spec m :
  inv m ->
  wp shutdown (fun _ m' => inv m' /\ core m' = core (m <| shutdown_flag := true |>)
    /\ (state m' = ColdIdle \/ state m' = Failed)) m.
Proof.
  intros I. destruct (iv_hw m I) as (tm & Htm & Hw).
  unfold shutdown. apply wp_bind, wp_modify, wp_bind, wp_emit.
  set (m1 := m <| shutdown_flag := true |> <| trace ::= _ |>).
  assert (C1 : core m1 = core (m <| shutdown_flag := true |>)) by reflexivity.
  assert (Hb1 : base_up m1 = base_up m) by done.
  assert (Hst1 : state m1 = state m /\ diag_state m1 = diag_state m /\ last_error m1 = last_error m) by done.
  assert (Hw1 : if base_up m1 then live false m1 else off false m1).
  { rewrite Hb1. destruct (base_up m).
    - destruct Hw as [Hh ? ?]. split; [|done..]. simpl. by rewrite Hh.
    - destruct Hw as [Hh ? ? ?]. split; [|done..]. simpl. by rewrite Hh. }
  assert (Hc1 : counts_ok m1) by (destruct I as [_ _ _ _ _ _ _ _ _ []]; by split).
  clearbody m1. destruct Hst1 as (St1 & Sd1 & Se1). apply wp_bind.
  wp_call (disarm_unit_spec Main). intros _ m2 Q2. apply wp_bind.
  wp_call (disarm_unit_spec Sub). intros _ m3 Q3. apply wp_bind.
  wp_call (disarm_jpeg_spec). intros _ m4 Q4.
  pose proof (quiet_trans _ _ _ Q2 (quiet_trans _ _ _ Q3 Q4)) as [C S D E R J L O].
  clear Q2 Q3 Q4 m2 m3. apply wp_bind, wp_gets.
  assert (Hb4 : base_up m4 = base_up m) by (by rewrite !base_up_state, S, St1).
  assert (Hc4 : counts_ok m4) by (by apply (counts_core m1)).
  apply wp_when; intros Hb.
  - rewrite Hb4 in Hb. rewrite Hb1, Hb in Hw1.
    apply wp_bind. wp_call (transition_frame Stopping).
    intros _ m5 (S5 & D5 & C5 & E5 & J5 & U5 & L5 & O5). apply wp_bind.
    wp_call (stop_base_spec false m5 (L5 false (L false Hw1))). intros _ m6 (F6 & C6 & E6).
    wp_call (transition_frame ColdIdle).
    intros _ m7 (S7 & D7 & C7 & E7 & J7 & U7 & L7 & O7).
    assert (core m7 = core m4) as C' by congruence.
    split; [|split; [congruence|by left]].
    apply (inv_mk_cold false); [congruence|by apply (counts_core m4)|auto|done|].
    rewrite (core_shutdown m4 m7 C'), (core_shutdown m1 m4 C).
    rewrite (core_shutdown _ _ C1). done.
  - rewrite Hb4 in Hb. rewrite Hb1, Hb in Hw1. rewrite base_up_state in Hb.
    assert (Hd4 : diag_state m4 = state m4) by (rewrite S, D, St1, Sd1; apply I).
    split; [|split; [congruence|]].
    + destruct (iv_rest m I) as [Hs|[Hs|[Hs|Hs]]]; rewrite Hs in Hb; try done.
      * apply (inv_mk_cold false); [done|done|auto|congruence|].
        rewrite (core_shutdown m1 m4 C), (core_shutdown _ _ C1). done.
      * apply (inv_mk_failed false); [done|done|auto|congruence|]. rewrite E, Se1. by apply (iv_failed m I).
    + destruct (iv_rest m I) as [Hs|[Hs|[Hs|Hs]]]; rewrite Hs in Hb; try done; rewrite S, St1; tauto.
Qed.

(** *** Snapshots *)

Lemma snap_begin_spec m :
  inv m ->
  wp snap_begin (fun r m' =>
    inv m' /\
    match r with
    | None => shutdown_flag m = false /\ state m' = Active /\ j_enc (jpeg m') <> None
        /\ core m' = core (m <| jpeg ::= (fun y => y <| j_demand ::= Z.succ |>) |>)
    | Some r => core m' = core m /\ is_ok r = false
    end) m.
Proof.
  intros I. unfold snap_begin. apply wp_bind, wp_gets.
  destruct (shutdown_flag m) eqn:Hsh; [by apply wp_ret|].
  destruct (negb (j_configured _)); [by apply wp_ret|].
  destruct (negb (j_enabled _)); [by apply wp_ret|]. apply wp_bind.
  wp_call (ensure_base_spec UNIT_JPEG m I Hsh). intros ok m1 (C1 & Hok). destruct ok; cbn [negb].
  2: { apply wp_ret. by destruct Hok. }
  destruct Hok as (tm & L1 & S1 & D1 & R1). apply wp_bind.
  wp_call (disarm_jpeg_spec m1). intros _ m2 Q2.
  pose proof Q2 as [C2 S2 D2 E2 R2 J2 L2 O2]. specialize (L2 tm L1). apply wp_bind, wp_gets.
  assert (Hm2 : 0 < total (main m2) -> running (main m2) = true).
  { pose proof (R2 Main) as Rm. simpl in Rm. rewrite Rm.
    pose proof (core_unit m1 m2 C2 total Main (fun _ => eq_refl)) as Ht. simpl in Ht. by rewrite Ht. }
  assert (Hc2 : core m2 = core m) by congruence.
  apply wp_bind.
  apply (wp_mono _ (fun ok m3 => live tm m3 /\ core m3 = core m /\ state m3 = Active
    /\ diag_state m3 = Active /\ (ok = true -> j_enc (jpeg m3) <> None)
    /\ (ok = false -> last_error m3 <> ""%string)
    /\ (0 < total (main m3) -> running (main m3) = true))).
  { destruct (j_enc (jpeg m2)) as [j|] eqn:Ej; [apply wp_ret|].
    - do 4 (split; [congruence|]). split; [congruence|done].
    - wp_call (start_jpeg_spec tm m2 L2 Ej). intros ok m3 (L3 & C3 & U3 & P3 & S3 & D3 & E3).
      do 4 (split; [congruence|]). split; [|split; [done|]].
      + intros ->. by destruct (j_enc (jpeg m3)).
      + pose proof (U3 Main) as U. simpl in U. by rewrite U. }
  clear m1 m2 C1 C2 L1 L2 S1 S2 D1 D2 R1 R2 E2 J2 O2 Q2 Hc2 Hm2.
  intros ok m3 (L3 & C3 & S3 & D3 & P3 & E3 & Hm3). destruct ok; cbn [negb].
  - apply wp_bind, wp_modify, wp_ret. set (m4 := m3 <| jpeg ::= _ |>).
    assert (SL : same_life m3 m4) by (split; try done; by intros []).
    pose proof (counts_core m m3 C3 (iv_counts m I)) as [].
    split; [|split; [done|split; [done|split; [by apply P3|]]]].
    + apply (inv_mk_active tm); try done.
      * simpl. congruence.
      * by split; simpl; try lia.
      * by apply (same_life_live tm m3).
      * simpl. by rewrite (core_shutdown m m3 C3).
      * unfold total_all_locked. simpl. lia.
    + pose proof (f_equal (fun m => m <| jpeg ::= (fun y => y <| j_demand ::= Z.succ |>) |>) C3) as C4.
      exact C4.
  - apply wp_bind. wp_call (give_up_base_spec tm m3); try done; [|by auto| |].
    + by rewrite (core_shutdown m m3 C3).
    + by apply (counts_core m), iv_counts.
    + intros _ m4 (I4 & C4 & _). apply wp_ret. split; [done|]. by split; [congruence|].
Qed.

Lemma inv_emit m e :
  inv m ->
  (forall tm, live tm m -> base_up m = true -> hw_step (view true tm m) e = Some (view true tm m)) ->
  base_up m = true ->
  inv (m <| trace ::= cons e |>).
Proof.
  intros I Hl Hb. pose proof I as [A1 A2 (tm & Htm & A3) A4 A5 A6 A7 A8 A9 A10].
  split; try done; [|by destruct A10; split]. exists tm. split; [done|].
  assert (base_up (m <| trace ::= cons e |>) = base_up m) as -> by done. rewrite Hb in *.
  apply live_emit; auto.
Qed.

Lemma snap_choose_spec age now m :
  inv m ->
  wp (snap_choose age now) (fun r m' => inv m' /\ books m' = books m /\ state m' = state m
    /\ match r with SnapEncoder j => j_enc (jpeg m) = Some j | _ => m' = m end
    /\ j_enc (jpeg m') = j_enc (jpeg m)) m.
Proof.
  intros I. unfold snap_choose. apply wp_bind, wp_gets. cbv zeta.
  destruct (_ && _); [by apply wp_ret|]. destruct (j_enc (jpeg m)) as [j|] eqn:Ej; [|by apply wp_ret].
  apply wp_bind, wp_emit, wp_ret. split; [|done].
  destruct (base_up m) eqn:Hb.
  - apply inv_emit; try done. intros tm L _. simpl. rewrite Ej. simpl. by rewrite Z.eqb_refl.
  - destruct (iv_hw m I) as (tm & _ & O). rewrite Hb in O. pose proof (off_jpeg tm m O). congruence.
Qed.

Lemma snap_captured_spec r img t0 t1 t2 m :
  inv m ->
  wp (snap_captured r img t0 t1 t2) (fun _ m' => inv m' /\ books m' = books m
    /\ state m' = state m /\ j_enc (jpeg m') = j_enc (jpeg m)) m.
Proof.
  intros I. unfold snap_captured. apply wp_bind, wp_modify.
  destruct (is_ok r); apply wp_modify;
    (split; [|done]); (apply (books_inv m); [split; try done; by intros []|done..]).
Qed.

Lemma snap_end_spec m :
  inv m -> 0 < j_demand (jpeg m) ->
  wp snap_end (fun _ m' => inv m' /\
    core m' = core (m <| jpeg ::= (fun y => y <| j_demand ::= Z.pred |>) |>)) m.
Proof.
  intros I Hpos. unfold snap_end. apply wp_bind, wp_modify.
  set (m1 := m <| jpeg ::= (fun y => y <| j_demand ::= (fun n => if 0 <? n then n - 1 else n) |>) |>).
  assert (E1 : m1 = m <| jpeg ::= (fun y => y <| j_demand ::= Z.pred |>) |>).
  { assert ((if 0 <? j_demand (jpeg m) then j_demand (jpeg m) - 1 else j_demand (jpeg m))
            = Z.pred (j_demand (jpeg m))) as E
      by (rewrite (proj2 (Z.ltb_lt 0 _) Hpos); lia).
    pose proof (f_equal (fun v => m <| jpeg := jpeg m <| j_demand := v |> |>) E) as E2.
    unfold m1, upd in *. exact E2. }
  clearbody m1. rewrite <- E1. pose proof (iv_counts m I) as [].
  apply (released_spec m m1); try done.
  - rewrite E1. split; try done; by intros [].
  - by rewrite E1.
  - rewrite E1. split; simpl; try done; lia.
  - rewrite E1. unfold total_all_locked. simpl. lia.
  - rewrite E1. simpl. lia.
  - intros I1 Hs. cbv zeta. apply wp_when; intros E; [|done].
    apply andb_true_iff in E as [[E0 Er]%andb_true_iff Ea]. apply is_state_true in Ea.
    destruct (j_timer _).
    + apply wp_bind, wp_emit, wp_modify. split; [|unfold core, jpeg_off; cbn; reflexivity].
      apply (quiet_inv m1); [|done]. split; try done; try (by intros []);
        intros tm' [Hh ? ?]; (split; [simpl in *; by rewrite Hh|done..]).
    + wp_call (stop_jpeg_inv m1 I1); [by rewrite base_up_state, Ea|].
      intros _ m2 (I2 & C2 & _). done.
Qed.

(** *** Configuration and controls

    [keeps m]: the call that made [m] into [m'] keeps the invariant, the
    books, and does not move the state machine. *)

Definition keeps (m m' : PM) : Prop := inv m' /\ books m' = books m /\ state m' = state m.

Lemma keeps_same m m1 :
  inv m -> same_life m m1 -> books m1 = books m -> configured (main m1) = configured (main m) ->
  keeps m m1.
Proof. intros I S B C. split; [by apply (books_inv m)|]. split; [done|apply S]. Qed.

Ltac keeps_config :=
  intros ? I; apply wp_modify; apply (keeps_same _ _ I);
    [split; try done; by intros []|done|done].

Lemma configure_sub_keeps s t : forall m, inv m -> wp (configure_sub s t) (fun _ => keeps m) m.
Proof. keeps_config. Qed.

Lemma configure_jpeg_keeps p c g t : forall m, inv m -> wp (configure_jpeg p c g t) (fun _ => keeps m) m.
Proof. keeps_config. Qed.

Lemma set_state_listener_keeps : forall m, inv m -> wp set_state_listener (fun _ => keeps m) m.
Proof. keeps_config. Qed.

Lemma set_post_start_hook_keeps : forall m, inv m -> wp set_post_start_hook (fun _ => keeps m) m.
Proof. keeps_config. Qed.

Lemma set_sensor_fps_target_keeps v : forall m, inv m -> wp (set_sensor_fps_target v) (fun _ => keeps m) m.
Proof. keeps_config. Qed.

Lemma set_unit_grace_timer_keeps n t m :
  inv m -> wp (set_unit_grace_timer n t) (fun _ => keeps m) m.
Proof.
  intros I. unfold set_unit_grace_timer. destruct (uid_of n) as [u|]; [|by apply wp_skip].
  apply wp_modify. apply (keeps_same _ _ I); destruct u; try done; split; try done; by intros [].
Qed.

Lemma keeps_quiet m m' : inv m -> quiet m m' -> keeps m m'.
Proof.
  intros I Q. split; [by apply (quiet_inv m)|]. split; [apply core_books, Q|apply Q].
Qed.

Lemma set_jpeg_enabled_keeps on m :
  inv m -> wp (set_jpeg_enabled on) (fun _ => keeps m) m.
Proof.
  intros I. unfold set_jpeg_enabled. apply wp_bind, wp_gets.
  destruct (eqb _ _); [by apply wp_skip|]. apply wp_bind, wp_modify.
  set (m1 := m <| jpeg ::= _ |>).
  assert (K1 : keeps m m1) by (apply (keeps_same m m1 I); [split; try done; by intros []|done|done]).
  assert (Hst : state m1 = state m) by done. clearbody m1. apply wp_when; intros E; [|done].
  apply andb_true_iff in E as [_ Ea]. apply is_state_true in Ea. apply wp_bind.
  wp_call (disarm_jpeg_spec m1). intros _ m2 Q2.
  destruct (keeps_quiet m1 m2 ltac:(apply K1) Q2) as (I2 & B2 & S2).
  wp_call (stop_jpeg_inv m2 I2); [rewrite base_up_state; congruence || (by rewrite S2, Hst, Ea)|].
  intros _ m3 (I3 & C3 & S3 & _). destruct K1 as (_ & B1 & _).
  split; [done|]. split; [|congruence]. rewrite (core_books m2 m3 C3). congruence.
Qed.

(** A call on the running hardware that changes at most the main stream's
    parameters. *)
Lemma keeps_emit_stream m e f :
  inv m -> base_up m = true ->
  (forall tm, live tm m -> hw_step (view true tm m) e = Some (view true tm m)) ->
  keeps m (m <| trace ::= cons e |>)
  /\ keeps m (upd_unit Main (fun y => y <| stream ::= f |>) (m <| trace ::= cons e |>)).
Proof.
  intros I Hb He.
  assert (I1 : inv (m <| trace ::= cons e |>)) by (apply inv_emit; auto).
  split; [by split|].
  destruct (keeps_same (m <| trace ::= cons e |>)
    (upd_unit Main (fun y => y <| stream ::= f |>) (m <| trace ::= cons e |>)) I1) as (K1 & K2 & K3);
    [split; try done; by intros []|done|done|]. by split.
Qed.

Lemma live_started tm m e :
  live tm m -> enc (main m) = Some e ->
  holds (h_enc (h_main (view true tm m))) e && h_started (h_main (view true tm m)) = true.
Proof.
  intros L He. pose proof (lv_main tm m L) as Hs. unfold settled in Hs. simpl. rewrite He. simpl.
  rewrite Z.eqb_refl. simpl. unfold view_unit in Hs. destruct (running (main m)).
  - by destruct Hs as (? & ? & [= _ _ _ _ -> _]).
  - injection Hs as _ Hn _ _ _ _. congruence.
Qed.

Lemma live_bitrate_keeps kbps m : inv m -> wp (live_bitrate kbps) (fun _ => keeps m) m.
Proof.
  intros I. unfold live_bitrate. apply wp_bind, wp_gets.
  destruct (base_up m) eqn:Hb; [|by apply wp_ret].
  destruct (enc (main m)) as [e|] eqn:Ee; [|by apply wp_ret].
  apply wp_bind, wp_ask. generalize (pl_set_bitrate (trace m) kbps). intros [r v].
  apply wp_bind, wp_emit, wp_bind. cbn [fst snd].
  destruct (keeps_emit_stream m (EncSetBitrate e kbps r)
    (fun s => s <| bitrate_kbps := if 0 <? v then v else kbps |>) I Hb) as [K1 K2].
  { intros tm L. simpl. pose proof (live_started tm m e L Ee) as Hg. simpl in Hg. by rewrite Hg. }
  apply (wp_mono _ (fun _ => keeps m)); [|by intros; apply wp_ret].
  apply wp_when; intros _; [apply wp_modify; exact K2|exact K1].
Qed.

Lemma live_encoder_fps_keeps v m : inv m -> wp (live_encoder_fps v) (fun _ => keeps m) m.
Proof.
  intros I. unfold live_encoder_fps. apply wp_bind, wp_gets.
  destruct (base_up m) eqn:Hb; [|by apply wp_ret].
  destruct (enc (main m)) as [e|] eqn:Ee; [|by apply wp_ret].
  apply wp_bind, wp_ask, wp_bind, wp_emit, wp_ret.
  apply (keeps_emit_stream m _ (fun s => s) I Hb).
  intros tm L. simpl. pose proof (live_started tm m e L Ee) as Hg. simpl in Hg. by rewrite Hg.
Qed.

Lemma live_gop_keeps v m : inv m -> wp (live_gop v) (fun _ => keeps m) m.
Proof.
  intros I. unfold live_gop. apply wp_bind, wp_gets. destruct (_ || _); [by apply wp_ret|].
  destruct (base_up m) eqn:Hb; [|by apply wp_ret].
  destruct (enc (main m)) as [e|] eqn:Ee; [|by apply wp_ret].
  apply wp_bind, wp_ask. generalize (pl_set_gop (trace m) v). intros [r w].
  apply wp_bind, wp_emit. cbn [fst snd].
  destruct (keeps_emit_stream m (EncSetGop e v r) (fun s => s <| gop := v |>) I Hb) as [K1 K2].
  { intros tm L. simpl. pose proof (live_started tm m e L Ee) as Hg. simpl in Hg. by rewrite Hg. }
  destruct (is_ok r); [apply wp_bind, wp_modify, wp_ret; exact K2|apply wp_ret; exact K1].
Qed.

Lemma live_sensor_fps_keeps v m : inv m -> wp (live_sensor_fps v) (fun _ => keeps m) m.
Proof.
  intros I. unfold live_sensor_fps. apply wp_bind, wp_gets.
  destruct (base_up m) eqn:Hb; [|by apply wp_ret].
  apply wp_bind, wp_ask, wp_bind, wp_emit, wp_ret. by apply (keeps_emit_stream m _ (fun s => s) I Hb).
Qed.

Lemma read_sensor_fps_keeps m : inv m -> wp read_sensor_fps (fun _ => keeps m) m.
Proof.
  intros I. unfold read_sensor_fps. apply wp_bind, wp_gets.
  destruct (base_up m) eqn:Hb; [|by apply wp_ret].
  apply wp_bind, wp_ask, wp_bind, wp_emit, wp_ret. by apply (keeps_emit_stream m _ (fun s => s) I Hb).
Qed.

Lemma live_image_keeps c v m : inv m -> wp (live_image c v) (fun _ => keeps m) m.
Proof.
  intros I. unfold live_image. apply wp_bind, wp_gets.
  destruct (base_up m) eqn:Hb; [|by apply wp_ret].
  apply wp_bind, wp_ask. destruct (pl_image _); [|by apply wp_ret].
  apply wp_bind, wp_ask, wp_bind, wp_emit, wp_ret. by apply (keeps_emit_stream m _ (fun s => s) I Hb).
Qed.

Lemma settled_running x e : settled x -> enc x = Some e -> enc_started x = true.
Proof.
  unfold settled, view_unit. destruct (running x).
  - by intros (? & ? & [= _ _ _ _ -> _]).
  - intros [= _ Hn _ _ _ _]. congruence.
Qed.

Lemma request_idr_keeps n m : inv m -> wp (request_idr n) (fun _ => keeps m) m.
Proof.
  intros I. unfold request_idr. destruct (uid_of n) as [u|]; [|by apply wp_skip].
  apply wp_bind, wp_gets. destruct (base_up m) eqn:Hb; [|by apply wp_skip].
  destruct (enc (get_unit u m)) as [e|] eqn:Ee; [|by apply wp_skip].
  apply wp_emit. apply (keeps_emit_stream m _ (fun s => s) I Hb).
  intros tm L. pose proof (settled_running _ e (live_settled tm u m L) Ee) as Hst.
  destruct u; simpl in *; rewrite Ee, Hst; simpl; rewrite Z.eqb_refl; simpl; by rewrite ?orb_true_r.
Qed.

Lemma snap_nv12_once_keeps u m : inv m -> wp (snap_nv12_once u) (fun _ => keeps m) m.
Proof.
  intros I. unfold snap_nv12_once. apply wp_bind, wp_gets.
  destruct (fs (get_unit u m)) as [f|] eqn:Ef; [|by apply wp_ret].
  destruct (running (get_unit u m)) eqn:Er; [|by apply wp_ret].
  apply wp_bind, wp_ask, wp_bind, wp_emit, wp_ret.
  destruct (base_up m) eqn:Hb.
  - apply (keeps_emit_stream m _ (fun s => s) I Hb).
    intros tm L. pose proof (live_settled tm u m L) as Hs. unfold settled in Hs. rewrite Er in Hs.
    destruct Hs as (f' & e' & [= Hf _ _ Hen _ _]).
    destruct u; simpl in *; rewrite Ef, Hen; simpl; rewrite Z.eqb_refl; simpl; by rewrite ?orb_true_r.
  - exfalso. destruct (iv_hw m I) as (tm & _ & O). rewrite Hb in O.
    destruct u; [destruct (off_main tm m O)|destruct (off_sub tm m O)]; simpl in *; congruence.
Qed.

(** The controlled restart: the base comes back in the state it was in, with
    exactly the main unit and the units that have demand. *)
Lemma update_stream_spec s restart m :
  inv m ->
  wp (update_stream s restart) (fun r m' =>
    inv m' /\ books m' = books m
    /\ (is_ok r = true -> state m' = state m)
    /\ (is_ok r = false -> state m' = Failed)
    /\ (is_ok r = true -> base_up m = true -> restart = true ->
        forall u, running (get_unit u m') = wanted UNIT_MAIN u m)) m.
Proof.
  intros I. unfold update_stream. apply wp_bind, wp_modify. set (m1 := upd_unit Main _ m).
  destruct (keeps_same m m1 I) as (I1 & B1 & S1); [split; try done; by intros []|done|done|].
  assert (W1 : forall u, wanted UNIT_MAIN u m1 = wanted UNIT_MAIN u m) by (by intros []).
  assert (Hb1 : base_up m1 = base_up m) by done.
  clearbody m1. apply wp_bind, wp_gets.
  destruct (negb (base_up m1) || negb restart) eqn:E.
  { apply wp_ret. split; [done|]. split; [done|]. split; [done|]. split; [done|].
    intros _ Hb ->. rewrite Hb1, Hb in E. done. }
  apply orb_false_iff in E as [Eb%negb_false_iff Er]. cbv zeta.
  destruct (iv_hw m1 I1) as (tm & Htm & L). rewrite Eb in L.
  apply wp_bind. wp_call (transition_frame Stopping).
  intros _ m2 (S2 & D2 & C2 & E2 & J2 & U2 & L2 & O2). apply wp_bind.
  wp_call (stop_base_spec tm m2 (L2 tm L)). intros _ m3 (F3 & C3 & E3).
  apply wp_bind, wp_modify. set (m3' := m3 <| restart_count := _ |>).
  assert (C3' : core m3' = core m3) by reflexivity.
  assert (F3' : off tm m3') by (by destruct F3; split). clearbody m3'.
  apply wp_bind. wp_call (transition_frame Starting).
  intros _ m4 (S4 & D4 & C4 & E4 & J4 & U4 & L4 & O4). apply wp_bind.
  wp_call (start_base_spec tm UNIT_MAIN m4 (O4 tm F3')). intros ok m5 (C5 & E5 & Hok).
  destruct ok; cbn [negb].
  - destruct Hok as (L5 & J5 & R5). apply wp_bind. wp_call (transition_frame (state m1)).
    intros _ m6 (S6 & D6 & C6 & E6 & J6 & U6 & L6 & O6).
    assert (C : core m6 = core m1) by congruence.
    assert (Hr : forall u, running (get_unit u m6) = wanted UNIT_MAIN u m).
    { intros u. rewrite U6, R5, <- W1. apply wanted_core. congruence. }
    assert (Hc6 : counts_ok m6) by (by apply (counts_core m1), iv_counts).
    assert (Hsh6 : shutdown_flag m6 = false).
    { rewrite (core_shutdown m1 m6 C). destruct (shutdown_flag m1) eqn:Esh; [|done].
      rewrite (iv_down m1 I1 Esh) in Eb. done. }
    assert (Ht6 : total_all_locked m6 = total_all_locked m1) by (by apply core_total_all).
    apply wp_bind. apply base_up_true in Eb as [Ea|Eg].
    + rewrite Ea. cbn. apply wp_skip, wp_ret.
      split; [|split; [rewrite (core_books m1 m6 C); done|split; [congruence|done]]].
      apply (inv_mk_active tm); try done; [congruence|auto|congruence|..].
      * rewrite Ht6. by apply (iv_active m1).
      * intros _. exact (Hr Main).
    + rewrite Eg. cbn. apply wp_emit, wp_ret. set (m7 := m6 <| trace ::= _ |>).
      assert (L7 : live true m7).
      { destruct (L6 tm L5) as [Hh ? ?]. split; [|done..]. unfold m7. simpl. by rewrite Hh. }
      split; [|split; [exact (eq_trans (core_books m1 m6 C) B1)|split; [|split; [done|]]]].
      * apply inv_mk_grace; try done; [simpl; congruence|by destruct Hc6; split|simpl; congruence|].
        unfold m7. change (total_all_locked m6 = 0). rewrite Ht6. by apply (iv_idle m1).
      * intros _. unfold m7. simpl. congruence.
      * intros _ _ _ u. unfold m7. rewrite <- Hr. by destruct u.
  - apply wp_bind. wp_call (transition_frame Failed).
    intros _ m6 (S6 & D6 & C6 & E6 & J6 & U6 & L6 & O6). apply wp_ret.
    assert (C : core m6 = core m1) by congruence.
    split; [|split; [rewrite (core_books m1 m6 C); done|split; [done|split; [done|done]]]].
    apply (inv_mk_failed tm); [congruence|by apply (counts_core m1), iv_counts|auto|done|].
    rewrite E6. auto.
Qed.

(** The base stays up and the main unit as it is. *)
Lemma live_inv tm m m' :
  inv m -> base_up m = true -> (state m = GraceIdle -> tm = true) -> live tm m' ->
  core m' = core m -> state m' = state m -> diag_state m' = diag_state m ->
  get_unit Main m' = get_unit Main m -> keeps m m'.
Proof.
  intros I Hb Htm L C S D O. split; [|split; [by apply core_books|done]].
  pose proof I as [A1 A2 A3 A4 A5 A6 A7 A8 A9 A10]. simpl in O.
  assert (base_up m' = base_up m) as Hb2 by (by rewrite !base_up_state, S).
  pose proof (core_total_all m m' C) as Ht2. pose proof (core_shutdown m m' C) as Hs2.
  split; rewrite ?S, ?D, ?Ht2, ?Hs2, ?Hb2, ?O; try done.
  - exists tm. split; [done|]. by rewrite Hb.
  - intros Hf. rewrite base_up_state, Hf in Hb. done.
  - by apply (counts_core m).
Qed.

Lemma update_sub_stream_spec s enabled m :
  inv m ->
  wp (update_sub_stream s enabled) (fun r m' => keeps m m') m.
Proof.
  intros I. unfold update_sub_stream. apply wp_bind, wp_gets.
  assert (Hup : running (get_unit Sub m) = true -> base_up m = true).
  { intros Hr. destruct (base_up m) eqn:Hb; [done|]. destruct (iv_hw m I) as (tm & _ & O).
    rewrite Hb in O. destruct (off_sub tm m O). simpl in Hr. congruence. }
  assert (Hstop : forall m1, inv m1 -> base_up m1 = true ->
    wp (stop_unit_locked Sub) (fun _ m' => keeps m1 m' /\ running (sub m') = false) m1).
  { intros m1 I1 Hb. destruct (iv_hw m1 I1) as (tm & Htm & L). rewrite Hb in L.
    wp_call (stop_unit_live tm Sub m1 L). intros _ m2 (L2 & C2 & S2 & D2 & E2 & R2 & O2).
    split; [|done]. by apply (live_inv tm m1); auto. }
  destruct (negb enabled).
  - apply wp_bind.
    apply (wp_mono _ (fun _ m' => keeps m m')).
    + apply wp_when; intros Hr; [|by split]. wp_call (Hstop m I (Hup Hr)). by intros _ m1 [K _].
    + intros _ m1 (I1 & B1 & S1). apply wp_bind, wp_modify, wp_ret.
      destruct (keeps_same m1 (upd_unit Sub (fun y => y <| configured := false |>) m1) I1) as (I2 & B2 & S2);
        [split; try done; by intros []|done|done|].
      split; [done|]. split; congruence.
  - destruct (negb (configured _)); [by apply wp_ret|].
    apply wp_bind, wp_modify. set (m1 := upd_unit Sub _ m).
    destruct (keeps_same m m1 I) as (I1 & B1 & S1); [split; try done; by intros []|done|done|].
    assert (Hb1 : base_up m1 = base_up m) by done. clearbody m1.
    destruct (running _) eqn:Er; cbn [negb]; [|by apply wp_ret]. specialize (Hup eq_refl).
    apply wp_bind. wp_call (Hstop m1 I1); [by rewrite Hb1|].
    intros _ m2 [(I2 & B2 & S2) R2]. apply wp_bind, wp_modify.
    set (m3 := m2 <| sub_restart_count := _ |>).
    destruct (keeps_same m2 m3 I2) as (I3 & B3 & S3); [split; try done; by intros []|done|done|].
    assert (R3 : running (get_unit Sub m3) = false) by done.
    clearbody m3. destruct (iv_hw m3 I3) as (tm & Htm & L3).
    assert (Hb3 : base_up m3 = true) by (rewrite base_up_state, S3, S2, S1, <- base_up_state; exact Hup).
    rewrite Hb3 in L3.
    apply wp_bind. wp_call (start_unit_live tm Sub m3 L3 R3).
    intros ok m4 (L4 & C4 & J4 & S4 & D4 & O4 & R4 & E4). apply wp_ret.
    destruct (live_inv tm m3 m4 I3 Hb3 Htm L4 C4 S4 D4 (O4 Main ltac:(done))) as (I4 & B4 & _).
    split; [done|]. split; congruence.
Qed.
End Operations.
