(* ===== verification/PipelineSystem.v ===== *)
(** * The manager and its consumers

    [PipelineManager] together with the demand handles its consumers hold and
    the snapshot calls in flight.  [op] is one critical section: operations of
    different threads interleave exactly at this grain, and [snapshot], which
    takes the lock three times, is four operations.  [run] executes a history;
    every list of operations is one, so the theorems quantify over all
    schedules, all consumers and (through [Platform]) all vendor stacks. *)

From S2P Require Import Prelude CoreTypes Pipeline PipelineProto PipelineInv.

Record sys := mkSys {
  mgr : PM;
  handles : list DemandHandle;            (* the active DemandHandles *)
  waiting : nat;                    (* snapshots between begin and capture *)
  capturing : option (option obj);  (* the holder of snap_m_ in capture, its encoder *)
  finishing : nat                   (* snapshots past their capture *)
}.

#[export] Instance sys_eta : Settable sys := fun r =>
  mkSys (mgr r) (handles r) (waiting r) (capturing r) (finishing r).

Inductive op :=
| Acquire (n : Z) (t : ConsumerType)
| AcquireBase (t : ConsumerType)
| Release (i : nat)
| GraceTimeout
| UnitGrace (n : Z)
| JpegGrace
| Shutdown
| ConfigureSub (s : EffectiveStream) (t : bool)
| ConfigureJpeg (p : JpegParams) (cache grace : Z) (t : bool)
| SetJpegEnabled (on : bool)
| SetUnitGraceTimer (n : Z) (t : bool)
| SetStateListener
| SetPostStartHook
| SetSensorFpsTarget (v : Z)
| UpdateStream (s : EffectiveStream) (restart : bool)
| UpdateSubStream (s : EffectiveStream) (enabled : bool)
| LiveBitrate (v : Z)
| LiveEncoderFps (v : Z)
| LiveSensorFps (v : Z)
| ReadSensorFps
| LiveGop (v : Z)
| LiveImage (c v : Z)
| RequestIdr (n : Z)
| SnapNv12 (u : uid)
| SnapBegin
| SnapChoose (age now : Z)
| SnapCaptured (r : Result) (img : list Z) (t0 t1 t2 : Z)
| SnapEnd.

Section System.
Context `{Platform}.

Definition on_mgr {A} (f : ST PM A) (x : sys) : sys := x <| mgr := exec f (mgr x) |>.

(** One operation; one that is not possible (no such handle, no snapshot in
    that phase) does nothing. *)
Definition do (o : op) (x : sys) : sys :=
  match o with
  | Acquire n t =>
      let r := acquire_unit n t (mgr x) in
      x <| mgr := r.2 |> <| handles ::= app (option_list r.1.1) |>
  | AcquireBase t =>
      let r := acquire_base t (mgr x) in
      x <| mgr := r.2 |> <| handles ::= app (option_list r.1.1) |>
  | Release i =>
      match handles x !! i with
      | Some h => x <| mgr := exec (release h) (mgr x) |> <| handles ::= delete i |>
      | None => x
      end
  | GraceTimeout => on_mgr on_grace_timeout x
  | UnitGrace n => on_mgr (on_unit_grace n) x
  | JpegGrace => on_mgr on_jpeg_grace x
  | Shutdown => on_mgr shutdown x
  | ConfigureSub s t => on_mgr (configure_sub s t) x
  | ConfigureJpeg p c g t => on_mgr (configure_jpeg p c g t) x
  | SetJpegEnabled on => on_mgr (set_jpeg_enabled on) x
  | SetUnitGraceTimer n t => on_mgr (set_unit_grace_timer n t) x
  | SetStateListener => on_mgr set_state_listener x
  | SetPostStartHook => on_mgr set_post_start_hook x
  | SetSensorFpsTarget v => on_mgr (set_sensor_fps_target v) x
  | UpdateStream s restart => on_mgr (update_stream s restart) x
  | UpdateSubStream s enabled => on_mgr (update_sub_stream s enabled) x
  | LiveBitrate v => on_mgr (live_bitrate v) x
  | LiveEncoderFps v => on_mgr (live_encoder_fps v) x
  | LiveSensorFps v => on_mgr (live_sensor_fps v) x
  | ReadSensorFps => on_mgr read_sensor_fps x
  | LiveGop v => on_mgr (live_gop v) x
  | LiveImage c v => on_mgr (live_image c v) x
  | RequestIdr n => on_mgr (request_idr n) x
  | SnapNv12 u => on_mgr (snap_nv12_once u) x
  | SnapBegin =>
      let r := snap_begin (mgr x) in
      x <| mgr := r.2 |> <| waiting ::= fun n => if r.1 is Some _ then n else S n |>
  | SnapChoose age now =>
      match waiting x, capturing x with
      | S n, None =>
          let r := snap_choose age now (mgr x) in
          let x := x <| mgr := r.2 |> <| waiting := n |> in
          match r.1 with
          | SnapFresh _ => x <| finishing ::= S |>
          | SnapEncoder j => x <| capturing := Some (Some j) |>
          | SnapNoEncoder => x <| capturing := Some None |>
          end
      | _, _ => x
      end
  | SnapCaptured r img t0 t1 t2 =>
      match capturing x with
      | Some o =>
          let r := if o is Some _ then r else Res.busy in
          x <| mgr := exec (snap_captured r img t0 t1 t2) (mgr x) |>
            <| capturing := None |> <| finishing ::= S |>
      | None => x
      end
  | SnapEnd =>
      match finishing x with
      | S n => x <| mgr := exec snap_end (mgr x) |> <| finishing := n |>
      | O => x
      end
  end.

Definition run (l : list op) (x : sys) : sys := foldl (fun x o => do o x) x l.

Definition init (s : EffectiveStream) (c : LifecycleConfig) : sys :=
  mkSys (PipelineManager s c) [] 0 None 0.

(** ** Handles and snapshots are exactly the demand *)

Definition holding (n : Z) (l : list DemandHandle) : list DemandHandle := base.filter (fun h => dh_unit h = n) l.

Definition snapshots (x : sys) : nat :=
  (waiting x + (if capturing x is Some _ then 1 else 0) + finishing x)%nat.

Definition count_of (t : ConsumerType) (n : Z) (l : list DemandHandle) : Z :=
  Z.of_nat (length (base.filter (fun h => h = mkHandle t n) l)).

Record sys_ok (x : sys) : Prop := {
  so_inv : inv (mgr x);
  so_total : forall u, total (get_unit u (mgr x)) = Z.of_nat (length (holding (uid_code u) (handles x)));
  so_demand : forall u t, demand (get_unit u (mgr x)) !! ct_index t
                          = Some (count_of t (uid_code u) (handles x));
  so_ai : ai_demand (mgr x) = Z.of_nat (length (holding UNIT_AI (handles x)));
  so_jpeg : j_demand (jpeg (mgr x)) = Z.of_nat (snapshots x);
  so_units : Forall (fun h => dh_unit h = UNIT_MAIN \/ dh_unit h = UNIT_SUB \/ dh_unit h = UNIT_AI) (handles x)
}.

Definition same_demand (m m' : PM) : Prop :=
  (forall u, total (get_unit u m') = total (get_unit u m) /\ demand (get_unit u m') = demand (get_unit u m))
  /\ j_demand (jpeg m') = j_demand (jpeg m) /\ ai_demand m' = ai_demand m.

Lemma books_units m m' : books m' = books m -> same_demand m m'.
Proof. unfold books. intros [= E1 E2 E3 E4 E5 E6 E7]. by split; [intros []|]. Qed.

Lemma core_demand m m' : core m' = core m -> same_demand m m'.
Proof. intros C. by apply books_units, core_books. Qed.

Lemma init_ok s c : sys_ok (init s c).
Proof.
  split; simpl; try done; [apply inv_init|by intros []|]. intros [] []; reflexivity.
Qed.

Lemma keep_ok x m' l w ca f :
  sys_ok x -> inv m' -> same_demand (mgr x) m' -> l = handles x ->
  snapshots (mkSys m' l w ca f) = snapshots x ->
  sys_ok (mkSys m' l w ca f).
Proof.
  intros [I T D A J U] I' (Bu & Bj & Ba) -> Hs.
  split; simpl; try done.
  - intros u. rewrite <- T. apply Bu.
  - intros u t. rewrite <- D. by destruct (Bu u) as [_ ->].
  - by rewrite Ba.
  - by rewrite Hs, Bj.
Qed.

Lemma keeps_ok {A} (f : ST PM A) x :
  (forall m, inv m -> wp f (fun _ m' => inv m' /\ same_demand m m') m) ->
  sys_ok x -> sys_ok (on_mgr f x).
Proof.
  intros Hf Hx. destruct (Hf (mgr x) (so_inv x Hx)) as [I B].
  unfold on_mgr. destruct x as [m l w ca fi]. by apply (keep_ok (mkSys m l w ca fi)).
Qed.

(** *** Counting *)

Lemma holding_cons n h l :
  Z.of_nat (length (holding n (h :: l))) = Z.of_nat (length (holding n l)) + (if decide (dh_unit h = n) then 1 else 0).
Proof. unfold holding. rewrite filter_cons. repeat case_decide; simpl in *; first [lia|congruence]. Qed.

Lemma count_of_cons t n h l :
  count_of t n (h :: l) = count_of t n l + (if decide (h = mkHandle t n) then 1 else 0).
Proof. unfold count_of. rewrite filter_cons. repeat case_decide; simpl in *; first [lia|congruence]. Qed.

Lemma holding_delete n i h l :
  l !! i = Some h ->
  Z.of_nat (length (holding n (delete i l)))
  = Z.of_nat (length (holding n l)) - (if decide (dh_unit h = n) then 1 else 0).
Proof.
  intros Hi. pose proof (holding_cons n h (delete i l)) as E. unfold holding in *.
  rewrite <- (delete_Permutation l i h Hi) in E. lia.
Qed.

Lemma count_of_delete t n i h l :
  l !! i = Some h -> count_of t n (delete i l) = count_of t n l - (if decide (h = mkHandle t n) then 1 else 0).
Proof.
  intros Hi. pose proof (count_of_cons t n h (delete i l)) as E. unfold count_of in *.
  rewrite <- (delete_Permutation l i h Hi) in E. lia.
Qed.

Lemma holding_pos n i h l : l !! i = Some h -> dh_unit h = n -> 0 < Z.of_nat (length (holding n l)).
Proof.
  intros Hi Hn. pose proof (holding_delete n i h l Hi) as E. rewrite decide_True in E by done. lia.
Qed.

Lemma count_pos t n i h l : l !! i = Some h -> h = mkHandle t n -> 0 < count_of t n l.
Proof.
  intros Hi Hn. pose proof (count_of_delete t n i h l Hi) as E. rewrite decide_True in E by done.
  unfold count_of in *. lia.
Qed.

Lemma ct_index_inj t t' : ct_index t = ct_index t' -> t = t'.
Proof. by destruct t, t'. Qed.

Lemma uid_code_inj u v : uid_code u = uid_code v -> u = v.
Proof. by destruct u, v. Qed.

Lemma uid_of_code n u : uid_of n = Some u -> n = uid_code u.
Proof.
  unfold uid_of, UNIT_MAIN, UNIT_SUB. destruct (n =? 0) eqn:E0; [|destruct (n =? 1) eqn:E1; [|done]];
    intros [= <-]; by apply Z.eqb_eq.
Qed.

(** Taking and giving back a unit handle, in the books. *)
Lemma acquired_ok x u t m' :
  sys_ok x -> inv m' -> core m' = core (upd_unit u (add_demand t) (mgr x)) ->
  sys_ok (x <| mgr := m' |> <| handles ::= cons (mkHandle t (uid_code u)) |>).
Proof.
  intros [I T D A J U] I' C. destruct x as [m l w ca fi]. simpl in *.
  apply core_demand in C as (Cu & Cj & Ca).
  split; simpl; try done.
  - intros v. destruct (Cu v) as [-> _]. rewrite holding_cons. simpl. rewrite <- T.
    destruct (decide (uid_code u = uid_code v)) as [E|E].
    + apply uid_code_inj in E as ->. destruct v; simpl; lia.
    + destruct u, v; simpl; try done; lia.
  - intros v t'. destruct (Cu v) as [_ ->]. rewrite count_of_cons. specialize (D v t').
    destruct (decide (mkHandle t (uid_code u) = mkHandle t' (uid_code v))) as [[= -> E]|E].
    + apply uid_code_inj in E as ->.
      assert (demand (get_unit v (upd_unit v (add_demand t') m))
              = alter (fun n => n + 1) (ct_index t') (demand (get_unit v m))) as -> by (by destruct v).
      by rewrite list_lookup_alter_eq, D.
    + rewrite Z.add_0_r, <- D. destruct (decide (u = v)) as [->|Hne].
      * assert (demand (get_unit v (upd_unit v (add_demand t) m))
                = alter (fun n => n + 1) (ct_index t) (demand (get_unit v m))) as -> by (by destruct v).
        apply list_lookup_alter_ne. intros Ht%ct_index_inj. congruence.
      * by destruct u, v.
  - rewrite holding_cons. simpl. rewrite decide_False by (by destruct u).
    rewrite Ca, <- A. destruct u; simpl; lia.
  - rewrite Cj. transitivity (j_demand (jpeg m)); [by destruct u|exact J].
  - constructor; [|done]. destruct u; simpl; tauto.
Qed.

Lemma released_ok x i u t m' :
  sys_ok x -> handles x !! i = Some (mkHandle t (uid_code u)) ->
  inv m' -> core m' = core (upd_unit u (sub_demand t) (mgr x)) ->
  sys_ok (x <| mgr := m' |> <| handles ::= delete i |>).
Proof.
  intros [I T D A J U] Hi I' C. destruct x as [m l w ca fi]. simpl in *.
  apply core_demand in C as (Cu & Cj & Ca).
  pose proof (holding_pos (uid_code u) i _ l Hi eq_refl) as Hpos.
  pose proof (count_pos t (uid_code u) i _ l Hi eq_refl) as Hposc.
  split; simpl; try done.
  - intros v. destruct (Cu v) as [-> _]. rewrite (holding_delete _ i _ l Hi). simpl. rewrite <- T.
    rewrite <- T in Hpos.
    destruct (decide (uid_code u = uid_code v)) as [E|E].
    + apply uid_code_inj in E as ->. rewrite <- (sub_demand_total t) by done. by destruct v.
    + destruct u, v; simpl; try done; lia.
  - intros v t'. destruct (Cu v) as [_ ->]. rewrite (count_of_delete _ _ i _ l Hi). specialize (D v t').
    destruct (decide (mkHandle t (uid_code u) = mkHandle t' (uid_code v))) as [[= -> E]|E].
    + apply uid_code_inj in E as ->.
      assert (demand (get_unit v (upd_unit v (sub_demand t') m))
              = alter (fun n => if 0 <? n then n - 1 else n) (ct_index t') (demand (get_unit v m)))
        as -> by (by destruct v).
      rewrite list_lookup_alter_eq, D. simpl. f_equal.
      by rewrite (proj2 (Z.ltb_lt 0 _) Hposc).
    + rewrite Z.sub_0_r, <- D. destruct (decide (u = v)) as [->|Hne].
      * assert (demand (get_unit v (upd_unit v (sub_demand t) m))
                = alter (fun n => if 0 <? n then n - 1 else n) (ct_index t) (demand (get_unit v m)))
          as -> by (by destruct v).
        apply list_lookup_alter_ne. intros Ht%ct_index_inj. congruence.
      * by destruct u, v.
  - rewrite (holding_delete _ i _ l Hi). simpl. rewrite decide_False by (by destruct u).
    rewrite Ca, <- A. destruct u; simpl; lia.
  - rewrite Cj. transitivity (j_demand (jpeg m)); [by destruct u|exact J].
  - by apply Forall_delete.
Qed.

Lemma acquired_base_ok x t m' :
  sys_ok x -> inv m' -> core m' = core (mgr x <| ai_demand ::= Z.succ |>) ->
  sys_ok (x <| mgr := m' |> <| handles ::= cons (mkHandle t UNIT_AI) |>).
Proof.
  intros [I T D A J U] I' C. destruct x as [m l w ca fi]. simpl in *.
  apply core_demand in C as (Cu & Cj & Ca). split; simpl; try done.
  - intros v. destruct (Cu v) as [-> _]. rewrite holding_cons. simpl.
    rewrite decide_False by (by destruct v). rewrite Z.add_0_r, <- T. by destruct v.
  - intros v t'. destruct (Cu v) as [_ ->]. rewrite count_of_cons.
    rewrite decide_False by (destruct v; intros [=]). rewrite Z.add_0_r, <- D. by destruct v.
  - rewrite Ca. simpl. rewrite A. unfold holding. lia.
  - rewrite Cj. exact J.
  - constructor; [|done]. simpl. tauto.
Qed.

Lemma released_base_ok x i t m' :
  sys_ok x -> handles x !! i = Some (mkHandle t UNIT_AI) -> inv m' ->
  core m' = core (mgr x <| ai_demand ::= Z.pred |>) ->
  sys_ok (x <| mgr := m' |> <| handles ::= delete i |>).
Proof.
  intros [I T D A J U] Hi I' C. destruct x as [m l w ca fi]. simpl in *.
  apply core_demand in C as (Cu & Cj & Ca). split; simpl; try done.
  - intros v. destruct (Cu v) as [-> _]. rewrite (holding_delete _ i _ l Hi). simpl.
    rewrite decide_False by (by destruct v). rewrite Z.sub_0_r, <- T. by destruct v.
  - intros v t'. destruct (Cu v) as [_ ->]. rewrite (count_of_delete _ _ i _ l Hi).
    rewrite decide_False by (destruct v; intros [=]). rewrite Z.sub_0_r, <- D. by destruct v.
  - rewrite (holding_delete _ i _ l Hi), Ca. simpl. rewrite A. lia.
  - rewrite Cj. exact J.
  - by apply Forall_delete.
Qed.

Lemma snap_demand_ok x m' w ca f (d : Z -> Z) :
  sys_ok x -> inv m' ->
  core m' = core (mgr x <| jpeg ::= (fun y => y <| j_demand ::= d |>) |>) ->
  d (Z.of_nat (snapshots x)) = Z.of_nat (w + (if ca is Some _ then 1 else 0) + f)%nat ->
  sys_ok (mkSys m' (handles x) w ca f).
Proof.
  intros [I T D A J U] I' C Hd. apply core_demand in C as (Cu & Cj & Ca).
  split; simpl; try done.
  - intros v. destruct (Cu v) as [-> _]. rewrite <- T. by destruct v.
  - intros v t'. destruct (Cu v) as [_ ->]. rewrite <- D. by destruct v.
  - by rewrite Ca.
  - rewrite Cj. simpl. rewrite J, Hd. by unfold snapshots.
Qed.

Lemma do_release_ok i x : sys_ok x -> sys_ok (do (Release i) x).
Proof.
  intros Hx. cbn [do]. destruct (handles x !! i) as [[t n]|] eqn:Hi; [|done].
  pose proof (so_units x Hx) as Hu. rewrite Forall_lookup in Hu. specialize (Hu i _ Hi). simpl in Hu.
  unfold release. cbn [dh_unit dh_type]. destruct (n =? UNIT_AI) eqn:En.
  - apply Z.eqb_eq in En as ->.
    assert (Hpos : 0 < ai_demand (mgr x)).
    { rewrite (so_ai x Hx). by apply (holding_pos _ i _ _ Hi). }
    destruct (release_base_spec (mgr x) (so_inv x Hx) Hpos) as [I C].
    by apply (released_base_ok x i t).
  - assert (exists u, uid_of n = Some u) as [u Eu].
    { destruct Hu as [->|[->| ->]]; [by exists Main|by exists Sub|done]. }
    rewrite Eu. apply uid_of_code in Eu as ->.
    assert (Hpos : 0 < total (get_unit u (mgr x))).
    { rewrite (so_total x Hx). by apply (holding_pos _ i _ _ Hi). }
    destruct (release_unit_spec t u (mgr x) (so_inv x Hx) Hpos) as [I C].
    by apply (released_ok x i u t).
Qed.

Lemma do_snap_ok o x :
  match o with SnapBegin | SnapChoose _ _ | SnapCaptured _ _ _ _ _ | SnapEnd => True | _ => False end ->
  sys_ok x -> sys_ok (do o x).
Proof.
  intros Ho Hx. pose proof (so_inv x Hx) as I. pose proof (so_jpeg x Hx) as J.
  destruct x as [m l w ca fi]. destruct o; try done; cbn [do mgr waiting capturing finishing handles] in *.
  - destruct (snap_begin_spec m I) as [I' Hr]. unfold result, exec in *.
    destruct (snap_begin m) as [[r|] m'] eqn:E; cbn [fst snd] in *.
    + apply (keep_ok (mkSys m l w ca fi)); [done|done|by apply core_demand, Hr|done|done].
    + apply (snap_demand_ok (mkSys m l w ca fi) m' (S w) ca fi Z.succ); try done; [apply Hr|].
      unfold snapshots; simpl. destruct ca; lia.
  - destruct w as [|w]; [done|]. destruct ca; [done|].
    destruct (snap_choose_spec age now m I) as (I' & B & _ & _ & _). unfold result, exec in *.
    destruct (snap_choose age now m) as [[img|j|] m'] eqn:E; cbn [fst snd] in *;
      (apply (keep_ok (mkSys m l (S w) None fi)); try done; [by apply books_units|]); unfold snapshots; simpl; lia.
  - destruct ca as [ca|]; [|done]. set (r' := if ca is Some _ then r else Res.busy).
    destruct (snap_captured_spec r' img t0 t1 t2 m I) as (I' & B & _).
    apply (keep_ok (mkSys m l w (Some ca) fi)); try done; [by apply books_units|]. unfold snapshots; simpl. lia.
  - destruct fi as [|fi]; [done|].
    assert (Hpos : 0 < j_demand (jpeg m)) by (rewrite J; unfold snapshots; simpl; lia).
    destruct (snap_end_spec m I Hpos) as [I' C].
    apply (snap_demand_ok (mkSys m l w ca (S fi)) _ w ca fi Z.pred); try done.
    unfold snapshots; simpl. lia.
Qed.

Lemma keeps_weaken m m' : keeps m m' -> inv m' /\ same_demand m m'.
Proof. intros (? & B & _). split; [done|by apply books_units]. Qed.

Lemma do_ok o x : sys_ok x -> sys_ok (do o x).
Proof.
  intros Hx. pose proof (so_inv x Hx) as I.
  destruct o; try (by apply do_snap_ok); try (by apply do_release_ok); cbn [do];
    try (apply keeps_ok; [|exact Hx]; clear I; intros m I).
  - destruct (acquire_unit_spec n t (mgr x) I) as [I' Hr]. unfold result, exec in *.
    destruct (acquire_unit n t (mgr x)) as [[[h|] r] m']; cbn [fst snd option_list] in *.
    + destruct Hr as (u & Eu & -> & _ & _ & _ & _ & C). apply uid_of_code in Eu as ->.
      by apply (acquired_ok x u t).
    + destruct x as [m l w ca fi]. apply (keep_ok (mkSys m l w ca fi)); [done|done|by apply core_demand, Hr|done|done].
  - destruct (acquire_base_spec t (mgr x) I) as [I' Hr]. unfold result, exec in *.
    destruct (acquire_base t (mgr x)) as [[[h|] r] m']; cbn [fst snd option_list] in *.
    + destruct Hr as (-> & _ & _ & _ & C). by apply (acquired_base_ok x t).
    + destruct x as [m l w ca fi]. apply (keep_ok (mkSys m l w ca fi)); [done|done|by apply core_demand, Hr|done|done].
  - wp_call (on_grace_timeout_spec m I). intros _ m' (? & C & _). split; [done|by apply core_demand].
  - wp_call (on_unit_grace_spec n m I). intros _ m' (? & C & _). split; [done|by apply core_demand].
  - wp_call (on_jpeg_grace_spec m I). intros _ m' (? & C & _). split; [done|by apply core_demand].
  - wp_call (shutdown_spec m I). intros _ m' (? & C & _). split; [done|exact (core_demand _ _ C)].
  - wp_call (configure_sub_keeps s t m I). intros _ m'. apply keeps_weaken.
  - wp_call (configure_jpeg_keeps p cache grace t m I). intros _ m'. apply keeps_weaken.
  - wp_call (set_jpeg_enabled_keeps on m I). intros _ m'. apply keeps_weaken.
  - wp_call (set_unit_grace_timer_keeps n t m I). intros _ m'. apply keeps_weaken.
  - wp_call (set_state_listener_keeps m I). intros _ m'. apply keeps_weaken.
  - wp_call (set_post_start_hook_keeps m I). intros _ m'. apply keeps_weaken.
  - wp_call (set_sensor_fps_target_keeps v m I). intros _ m'. apply keeps_weaken.
  - wp_call (update_stream_spec s restart m I). intros r m' (? & B & _). split; [done|by apply books_units].
  - wp_call (update_sub_stream_spec s enabled m I). intros _ m'. apply keeps_weaken.
  - wp_call (live_bitrate_keeps v m I). intros _ m'. apply keeps_weaken.
  - wp_call (live_encoder_fps_keeps v m I). intros _ m'. apply keeps_weaken.
  - wp_call (live_sensor_fps_keeps v m I). intros _ m'. apply keeps_weaken.
  - wp_call (read_sensor_fps_keeps m I). intros _ m'. apply keeps_weaken.
  - wp_call (live_gop_keeps v m I). intros _ m'. apply keeps_weaken.
  - wp_call (live_image_keeps c v m I). intros _ m'. apply keeps_weaken.
  - wp_call (request_idr_keeps n m I). intros _ m'. apply keeps_weaken.
  - wp_call (snap_nv12_once_keeps u m I). intros _ m'. apply keeps_weaken.
Qed.
End System.
