(* ===== verification/PipelineSpec.v ===== *)
(** * Properties of the media lifecycle

    The theorems about every history of the manager and its consumers
    ([PipelineSystem]): what the hardware sees, the state machine and its
    demand, the terminal FAILED state, consumer outcomes, the idle wind-down
    and the controlled restart; and three histories in which the code departs
    from what its comments promise. *)

From S2P Require Import Prelude CoreTypes Pipeline PipelineProto PipelineInv PipelineSystem.

Section Spec.
Context `{Platform}.

Lemma run_ok l x : sys_ok x -> sys_ok (run l x).
Proof. revert x. induction l as [|o l IH]; intros x Hx; [done|]. by apply IH, do_ok. Qed.

Lemma reachable_ok l s c : sys_ok (run l (init s c)).
Proof. apply run_ok, init_ok. Qed.


(** The demand of a system is its handles and its snapshots. *)
Lemma total_all_system x :
  sys_ok x -> total_all_locked (mgr x) = Z.of_nat (length (handles x) + snapshots x).
Proof.
  intros [I T D A J U]. unfold total_all_locked.
  pose proof (T Main : total (main (mgr x)) = Z.of_nat (length (holding UNIT_MAIN (handles x)))) as Tm.
  pose proof (T Sub : total (sub (mgr x)) = Z.of_nat (length (holding UNIT_SUB (handles x)))) as Ts.
  rewrite Tm, Ts, A, J.
  enough (length (handles x) = length (holding UNIT_MAIN (handles x)) + length (holding UNIT_SUB (handles x))
          + length (holding UNIT_AI (handles x)))%nat by lia.
  clear -U. induction U as [|h l Hh Hl IH]; [done|].
  pose proof (holding_cons UNIT_MAIN h l). pose proof (holding_cons UNIT_SUB h l).
  pose proof (holding_cons UNIT_AI h l). cbn [length].
  destruct Hh as [E|[E|E]]; rewrite E in *; repeat case_decide; unfold UNIT_MAIN, UNIT_SUB, UNIT_AI in *; lia.
Qed.

(** C3. Demand is exactly what consumers hold.  In every reachable state each
    counter of the manager is the number of live handles of that type and
    unit plus the snapshots in flight, so that nobody's release is lost and
    no counter goes below zero; and the state machine rests only in
    COLD_IDLE, ACTIVE, GRACE_IDLE or FAILED, in ACTIVE only with demand, in
    GRACE_IDLE only without, in COLD_IDLE without unless shut down, with
    the lock-free mirror equal to the state. *)
Theorem demand_is_what_consumers_hold (s : EffectiveStream) (c : LifecycleConfig) (history : list op) :
  let x := run history (init s c) in
  let m := mgr x in
  (forall u t, demand (get_unit u m) !! ct_index t = Some (count_of t (uid_code u) (handles x)))
  /\ (forall u, total (get_unit u m) = Z.of_nat (length (holding (uid_code u) (handles x))))
  /\ total_all_locked m = Z.of_nat (length (handles x) + snapshots x)
  /\ diag_state m = state m
  /\ match state m with
     | Active => (0 < length (handles x) + snapshots x)%nat
     | GraceIdle => (length (handles x) + snapshots x)%nat = 0%nat
     | ColdIdle => shutdown_flag m = false -> (length (handles x) + snapshots x)%nat = 0%nat
     | Failed => last_error m <> ""%string
     | Starting | Stopping => False
     end.
Proof.
  intros x m. pose proof (reachable_ok history s c) as Hx. fold x in Hx.
  pose proof (total_all_system x Hx) as Ht. fold m in Ht. destruct Hx as [I T D A J U].
  split; [exact D|]. split; [exact T|]. split; [exact Ht|]. split; [apply I|].
  fold m in I. destruct (state m) eqn:Es.
  - intros Hs. pose proof (iv_cold m I Es Hs). lia.
  - by destruct (iv_rest m I) as [|[|[|]]]; congruence.
  - pose proof (iv_active m I Es). lia.
  - pose proof (iv_idle m I Es). lia.
  - by destruct (iv_rest m I) as [|[|[|]]]; congruence.
  - by apply (iv_failed m I).
Qed.

(** *** FAILED *)

Definition is_disarm (e : event) : Prop := match e with Disarm _ => True | _ => False end.

Definition frozen (m m' : PM) : Prop :=
  state m' = Failed /\ exists new, trace m' = new ++ trace m /\ Forall is_disarm new.

Lemma frozen_refl m : state m = Failed -> frozen m m.
Proof. intros Hs. split; [done|]. by exists []. Qed.

Lemma frozen_trans m1 m2 m3 : frozen m1 m2 -> frozen m2 m3 -> frozen m1 m3.
Proof.
  intros [_ (n1 & E1 & F1)] [S3 (n2 & E2 & F2)]. split; [done|]. exists (n2 ++ n1).
  rewrite E2, E1, app_assoc. split; [done|]. by apply Forall_app.
Qed.

(** What a step sees of a FAILED manager. *)
Record failed (m : PM) : Prop := {
  fl_state : state m = Failed;
  fl_run : forall u, running (get_unit u m) = false;
  fl_jenc : j_enc (jpeg m) = None
}.

Lemma failed_of m : inv m -> state m = Failed -> failed m.
Proof.
  intros I Hs. destruct (iv_hw m I) as (tm & _ & O). rewrite base_up_state, Hs in O.
  destruct O as [_ [Rm _] [Rs _] Hj]. split; [done|by intros []|done].
Qed.

Lemma ensure_base_failed n m :
  failed m -> wp (ensure_base_locked n) (fun ok m' => ok = false /\ frozen m m') m.
Proof.
  intros [Hs _ _]. unfold ensure_base_locked. apply wp_bind, wp_gets. rewrite Hs.
  apply wp_bind, wp_modify, wp_ret. split; [done|]. split; [done|]. by exists [].
Qed.

Lemma disarm_unit_frozen u m : state m = Failed -> wp (disarm_unit u) (fun _ => frozen m) m.
Proof.
  intros Hs. unfold disarm_unit. apply wp_bind, wp_gets, wp_when; intros _; [|by apply frozen_refl].
  apply wp_bind, wp_emit, wp_modify. split; [by destruct u|].
  exists [Disarm (TimerUnit u)]. split; [by destruct u|by constructor].
Qed.

Lemma disarm_jpeg_frozen m : state m = Failed -> wp disarm_jpeg (fun _ => frozen m) m.
Proof.
  intros Hs. unfold disarm_jpeg. apply wp_bind, wp_gets, wp_when; intros _; [|by apply frozen_refl].
  apply wp_bind, wp_emit, wp_modify. split; [done|].
  exists [Disarm TimerJpeg]. split; [done|by constructor].
Qed.

Lemma frozen_same m m' : state m = Failed -> state m' = state m -> trace m' = trace m -> frozen m m'.
Proof. intros Hs S T. split; [congruence|]. by exists []. Qed.

Lemma acquire_unit_frozen n t m : failed m -> wp (acquire_unit n t) (fun _ => frozen m) m.
Proof.
  intros F. pose proof (fl_state m F) as Hs. unfold acquire_unit. apply wp_bind, wp_gets.
  destruct (uid_of n); [|by apply wp_ret, frozen_refl].
  destruct (_ || _); [by apply wp_ret, frozen_refl|]. apply wp_bind.
  wp_call (ensure_base_failed n m F). intros ok m1 [-> F1]. by apply wp_ret.
Qed.

Lemma acquire_base_frozen t m : failed m -> wp (acquire_base t) (fun _ => frozen m) m.
Proof.
  intros F. pose proof (fl_state m F) as Hs. unfold acquire_base. apply wp_bind, wp_gets.
  destruct (shutdown_flag m); [by apply wp_ret, frozen_refl|]. apply wp_bind.
  wp_call (ensure_base_failed (-1) m F). intros ok m1 [-> F1]. by apply wp_ret.
Qed.

Lemma snap_begin_frozen m : failed m -> wp snap_begin (fun _ => frozen m) m.
Proof.
  intros F. pose proof (fl_state m F) as Hs. unfold snap_begin. apply wp_bind, wp_gets.
  repeat (lazymatch goal with |- wp (if ?b then _ else _) _ _ => destruct b end;
    [by apply wp_ret, frozen_refl|]). apply wp_bind.
  wp_call (ensure_base_failed UNIT_JPEG m F). intros ok m1 [-> F1]. by apply wp_ret.
Qed.

Lemma not_active m : state m = Failed -> is_state Active m = false.
Proof. unfold is_state. by intros ->. Qed.

Lemma release_frozen h m : failed m -> wp (release h) (fun _ => frozen m) m.
Proof.
  intros [Hs Hr _]. unfold release. destruct (_ =? _).
  - apply wp_bind, wp_modify, wp_bind, wp_gets, wp_when; intros E; [|by apply frozen_same].
    rewrite (not_active (m <| ai_demand ::= _ |>)), andb_false_r in E; [done|exact Hs].
  - destruct (uid_of _) as [u|]; [|by apply wp_skip, frozen_refl].
    unfold release_unit. apply wp_bind, wp_modify, wp_bind, wp_modify, wp_bind, wp_gets.
    set (m1 := upd_unit u (fun y => y <| total ::= _ |>) _).
    assert (frozen m m1) by (apply frozen_same; destruct u; done).
    assert (Hs1 : state m1 = Failed) by (by destruct u). clearbody m1.
    destruct (shutdown_flag m1); [by apply wp_skip|].
    rewrite (not_active m1 Hs1), !andb_false_r. by apply wp_when.
Qed.

Lemma snap_end_frozen m : failed m -> wp snap_end (fun _ => frozen m) m.
Proof.
  intros [Hs Hr _]. unfold snap_end. apply wp_bind, wp_modify, wp_bind, wp_gets.
  set (m1 := m <| jpeg ::= _ |>). assert (frozen m m1) by (by apply frozen_same).
  assert (Hs1 : state m1 = Failed) by done. clearbody m1.
  destruct (shutdown_flag m1); [by apply wp_skip|].
  rewrite (not_active m1 Hs1), !andb_false_r. by apply wp_when.
Qed.

Lemma shutdown_frozen m : failed m -> wp shutdown (fun _ => frozen m) m.
Proof.
  intros [Hs _ _]. unfold shutdown. apply wp_bind, wp_modify, wp_bind, wp_emit.
  set (m1 := _ <| trace ::= _ |>).
  assert (F1 : frozen m m1) by (split; [done|]; exists [Disarm TimerBase]; split; [done|by constructor]).
  clearbody m1. apply wp_bind.
  wp_call (disarm_unit_frozen Main m1 (proj1 F1)). intros _ m2 F2. apply wp_bind.
  wp_call (disarm_unit_frozen Sub m2 (proj1 F2)). intros _ m3 F3. apply wp_bind.
  wp_call (disarm_jpeg_frozen m3 (proj1 F3)). intros _ m4 F4.
  assert (frozen m m4) by (eapply frozen_trans; [exact F1|]; eapply frozen_trans; [exact F2|];
                           by eapply frozen_trans).
  apply wp_bind, wp_gets, wp_when; [|done]. rewrite base_up_state, (proj1 F4). done.
Qed.

Lemma do_frozen o x :
  sys_ok x -> state (mgr x) = Failed -> frozen (mgr x) (mgr (do o x)).
Proof.
  intros Hx Hs. pose proof (failed_of _ (so_inv x Hx) Hs) as F. pose proof F as [_ Hr Hj].
  assert (Hb : base_up (mgr x) = false) by (by rewrite base_up_state, Hs).
  pose proof (Hr Main) as Hrm. pose proof (Hr Sub) as Hrs. simpl in Hrm, Hrs.
  destruct x as [m l w ca fi]. simpl in *.
  assert (R : forall m', m' = m -> frozen m m') by (intros m' ->; by apply frozen_refl).
  destruct o; cbn [do on_mgr mgr handles waiting capturing finishing upd].
  - by apply (acquire_unit_frozen n t m).
  - by apply (acquire_base_frozen t m).
  - destruct (l !! i); [|by apply R]. by apply (release_frozen d m).
  - apply R. unfold on_grace_timeout, exec, mbind, st_bind, gets, is_state. by rewrite Hs.
  - unfold on_unit_grace. destruct (uid_of n) as [u|]; [|by apply R].
    apply frozen_same; [done|..]; unfold exec, mbind, st_bind, gets, modify, is_state, when; simpl;
      destruct u; simpl; by rewrite ?Hrm, ?Hrs, ?andb_false_r.
  - unfold on_jpeg_grace. apply frozen_same; [done|..];
      unfold exec, mbind, st_bind, gets, modify, is_state, when; simpl; by rewrite Hs, andb_false_r.
  - by apply (shutdown_frozen m).
  - by apply frozen_same.
  - by apply frozen_same.
  - unfold set_jpeg_enabled, exec, mbind, st_bind, gets. destruct (eqb _ _); [by apply R|].
    unfold is_state. rewrite Hs, !andb_false_r. by apply frozen_same.
  - unfold set_unit_grace_timer. destruct (uid_of n) as [u|]; [|by apply R].
    apply frozen_same; [done|by destruct u|by destruct u].
  - by apply frozen_same.
  - by apply frozen_same.
  - by apply frozen_same.
  - unfold update_stream, exec, mbind, st_bind, gets, modify. unfold base_up, is_state. simpl. rewrite Hs.
    by apply frozen_same.
  - unfold update_sub_stream, exec, mbind, st_bind, gets, modify. simpl. rewrite Hrs.
    destruct enabled; simpl; [|by apply frozen_same]. destruct (configured (sub m)); [|by apply R].
    simpl. rewrite Hrs. by apply frozen_same.
  - apply R. unfold live_bitrate, exec, mbind, st_bind, gets. by rewrite Hb.
  - apply R. unfold live_encoder_fps, exec, mbind, st_bind, gets. by rewrite Hb.
  - apply R. unfold live_sensor_fps, exec, mbind, st_bind, gets. by rewrite Hb.
  - apply R. unfold read_sensor_fps, exec, mbind, st_bind, gets. by rewrite Hb.
  - apply R. unfold live_gop, exec, mbind, st_bind, gets. rewrite Hb. by destruct (_ || _).
  - apply R. unfold live_image, exec, mbind, st_bind, gets. by rewrite Hb.
  - apply R. unfold request_idr, exec, mbind, st_bind, gets. destruct (uid_of n); [|done]. by rewrite Hb.
  - apply R. unfold snap_nv12_once, exec, mbind, st_bind, gets. rewrite Hr.
    by destruct (fs (get_unit u m)).
  - by apply (snap_begin_frozen m).
  - destruct w as [|w]; [by apply R|]. destruct ca; [by apply R|].
    unfold snap_choose, mbind, st_bind, gets. rewrite Hj.
    destruct (_ && _); by apply R.
  - destruct ca as [ca|]; [|by apply R]. apply frozen_same; [done|..];
      unfold snap_captured, exec, mbind, st_bind, modify; by destruct (is_ok _).
  - destruct fi as [|fi]; [by apply R|]. by apply (snap_end_frozen m).
Qed.

Lemma run_frozen l x :
  sys_ok x -> state (mgr x) = Failed -> frozen (mgr x) (mgr (run l x)).
Proof.
  revert x. induction l as [|o l IH]; intros x Hx Hs; [by apply frozen_refl|].
  pose proof (do_frozen o x Hx Hs) as F. eapply frozen_trans; [exact F|].
  apply IH; [by apply do_ok|apply F].
Qed.

(** FAILED is terminal.  Once the lifecycle is FAILED, no consumer, no
    returning consumer, no timer and no control ever leaves that state or
    reaches the platform again: every later call of the manager is the
    cancelling of a timer. *)
Theorem failed_is_terminal (s : EffectiveStream) (c : LifecycleConfig) (before after : list op) :
  let x := run before (init s c) in
  state (mgr x) = Failed ->
  let m' := mgr (run after x) in
  state m' = Failed /\ exists new, trace m' = new ++ trace (mgr x) /\ Forall is_disarm new.
Proof. intros x Hs. apply run_frozen; [apply reachable_ok|done]. Qed.

(** *** Consumers *)

Lemma off_view m tm : off tm m -> hw_run (trace m) = Some (hw_off tm).
Proof. by intros []. Qed.

Lemma inv_down_off m : inv m -> base_up m = false -> exists tm, hw_run (trace m) = Some (hw_off tm).
Proof. intros I Hb. destruct (iv_hw m I) as (tm & _ & O). rewrite Hb in O. exists tm. apply O. Qed.

(** C8. The consumer's outcome.  Asking for a stream either gives a handle,
    and then the base is ACTIVE and the unit runs with every resource of its
    chain acquired; or it gives an error and no handle, nobody's demand or
    configuration has changed, and a base that was down is down again with
    nothing left on the hardware (the failed start is rolled back). *)
Theorem acquire_all_or_nothing (s : EffectiveStream) (c : LifecycleConfig) (history : list op)
    (n : Z) (t : ConsumerType) :
  let m := mgr (run history (init s c)) in
  let '((h, r), m') := acquire_unit n t m in
  match h with
  | Some h =>
      h = mkHandle t n /\ r = Res.ok /\ state m' = Active
      /\ exists u fs enc, uid_of n = Some u
         /\ view_unit (get_unit u m') = mkHwUnit (Some fs) (Some enc) true true true true
  | None =>
      is_ok r = false /\ core m' = core m
      /\ (base_up m = false ->
          base_up m' = false /\ exists tm, hw_run (trace m') = Some (hw_off tm))
  end.
Proof.
  intros m. pose proof (so_inv _ (reachable_ok history s c)) as I. fold m in I. clearbody m.
  destruct (acquire_unit_spec n t m I) as [I' Hr].
  pose proof (acquire_unit_frozen n t m) as Hf. unfold wp, result, exec in *.
  destruct (acquire_unit n t m) as [[[h|] r] m']; cbn [fst snd] in *.
  - destruct Hr as (u & Eu & -> & -> & _ & Hs & Hrun & _). split; [done|]. split; [done|]. split; [done|].
    destruct (iv_hw m' I') as (tm & _ & L). rewrite base_up_state, Hs in L.
    pose proof (live_settled tm u m' L) as Hset. unfold settled in Hset. rewrite Hrun in Hset.
    destruct Hset as (f & e & Hv). by exists u, f, e.
  - destruct Hr as (Hc & Hr & Hcase). split; [done|]. split; [done|]. intros Hb.
    assert (Hb' : base_up m' = false).
    { destruct Hcase as [->|[Hsh [Hs|Hs]]]; [done|by rewrite base_up_state, Hs|].
      pose proof (iv_active m' I' Hs) as Ht. rewrite (core_total_all m m' Hc) in Ht.
      exfalso. destruct (iv_rest m I) as [E|[E|[E|E]]].
      - pose proof (iv_cold m I E Hsh). lia.
      - by rewrite base_up_state, E in Hb.
      - by rewrite base_up_state, E in Hb.
      - destruct (Hf (failed_of m I E)) as [Hs' _]. congruence. }
    split; [done|]. by apply inv_down_off.
Qed.

Lemma base_up_demand m : inv m -> total_all_locked m = 0 -> base_up m = true -> state m = GraceIdle.
Proof.
  intros I Ht Hb. apply base_up_true in Hb as [Ha|]; [|done]. pose proof (iv_active m I Ha). lia.
Qed.

Lemma drain_handles x n :
  n = length (handles x) ->
  let x' := run (replicate n (Release 0)) x in
  handles x' = [] /\ snapshots x' = snapshots x.
Proof.
  revert x. induction n as [|n IH]; intros x Hn.
  - split; [by apply nil_length_inv|done].
  - destruct (handles x) as [|h l] eqn:E; [done|]. injection Hn as Hn.
    assert (Hd : do (Release 0) x = x <| mgr := exec (release h) (mgr x) |> <| handles ::= delete 0%nat |>)
      by (cbn [do]; by rewrite E).
    change (run (replicate (S n) (Release 0)) x) with (run (replicate n (Release 0)) (do (Release 0) x)).
    rewrite Hd. set (y := x <| mgr := _ |> <| handles ::= _ |>).
    assert (snapshots y = snapshots x) as <- by done.
    apply IH. simpl. by rewrite E.
Qed.

Lemma run_app l1 l2 x : run (l1 ++ l2) x = run l2 (run l1 x).
Proof. unfold run. apply foldl_app. Qed.

(** C10. No consumer, no pipeline.  From every reachable state in which no
    snapshot is in flight: when the consumers give all their handles back,
    either the base is down already or it waits in GRACE_IDLE with the grace
    timer armed, and the expiry of that timer takes the hardware down
    completely. *)
Theorem no_consumer_no_pipeline (s : EffectiveStream) (c : LifecycleConfig) (history : list op) :
  let x := run history (init s c) in
  snapshots x = 0%nat ->
  let released := run (replicate (length (handles x)) (Release 0)) x in
  let expired := do GraceTimeout released in
  handles released = []
  /\ (base_up (mgr released) = true ->
      state (mgr released) = GraceIdle
      /\ exists h, hw_run (trace (mgr released)) = Some h /\ h_timer h = true)
  /\ base_up (mgr expired) = false
  /\ exists tm, hw_run (trace (mgr expired)) = Some (hw_off tm).
Proof.
  intros x Hs released0 expired.
  destruct (drain_handles x _ eq_refl) as [Hh Hsn]. fold released0 in Hh, Hsn.
  assert (Hx : sys_ok released0) by apply run_ok, reachable_ok.
  assert (Ht : total_all_locked (mgr released0) = 0).
  { rewrite (total_all_system _ Hx), Hh, Hsn, Hs. done. }
  pose proof (so_inv _ Hx) as I. split; [done|]. split.
  - intros Hb. pose proof (base_up_demand _ I Ht Hb) as Hg. split; [done|].
    destruct (iv_hw _ I) as (tm & Htm & L). rewrite Hb in L. eexists. split; [apply L|]. simpl. auto.
  - destruct (on_grace_timeout_spec _ I) as (I' & _ & Hg & Hng).
    change (exec on_grace_timeout (mgr released0)) with (mgr expired) in *.
    assert (Hb : base_up (mgr expired) = false).
    { destruct (decide (state (mgr released0) = GraceIdle)) as [E|E].
      - by rewrite base_up_state, (Hg E).
      - rewrite (Hng E). destruct (base_up (mgr released0)) eqn:Hb; [|done].
        by pose proof (base_up_demand _ I Ht Hb). }
    split; [done|]. by apply inv_down_off.
Qed.

Lemma unit_grace_demanded u m :
  0 < total (get_unit u m) ->
  exec (on_unit_grace (uid_code u)) m = upd_unit u (fun y => y <| grace_armed := false |>) m.
Proof.
  intros Hp. assert (E : (total (get_unit u m) =? 0) = false) by (apply Z.eqb_neq; lia).
  unfold on_unit_grace, exec, mbind, st_bind, modify, gets, when.
  destruct u; cbn [uid_code] in *; simpl in *; by rewrite E.
Qed.

(** Stale timers are harmless.  A grace expiry that races with new
    demand changes nothing: with any handle or snapshot alive the base
    expiry leaves the whole manager as it is, and a unit expiry leaves a unit
    that has a handle running exactly as before. *)
Theorem stale_grace_harmless (s : EffectiveStream) (c : LifecycleConfig) (history : list op) :
  let x := run history (init s c) in
  (0 < length (handles x) + snapshots x)%nat ->
  do GraceTimeout x = x
  /\ forall u i h, handles x !! i = Some h -> dh_unit h = uid_code u ->
     view_unit (get_unit u (mgr (do (UnitGrace (uid_code u)) x))) = view_unit (get_unit u (mgr x))
     /\ trace (mgr (do (UnitGrace (uid_code u)) x)) = trace (mgr x).
Proof.
  intros x Hd. pose proof (reachable_ok history s c) as Hx. fold x in Hx.
  pose proof (total_all_system x Hx) as Ht. split.
  - cbn [do]. unfold on_mgr.
    assert (E : exec on_grace_timeout (mgr x) = mgr x).
    { unfold on_grace_timeout, exec, mbind, st_bind, gets.
      rewrite (proj2 (Z.ltb_lt 0 (total_all_locked (mgr x)))) by lia. by rewrite orb_true_r. }
    rewrite E. by destruct x.
  - intros u i h Hi Hu. pose proof (so_total x Hx u) as Htu.
    pose proof (holding_pos (uid_code u) i h _ Hi Hu) as Hpos. rewrite <- Htu in Hpos.
    cbn [do]. unfold on_mgr. cbn [mgr upd]. rewrite unit_grace_demanded by done. by destruct u.
Qed.

(** The controlled restart.  Replacing the stream parameters of a running
    pipeline either restores the very state it interrupted - ACTIVE, or
    GRACE_IDLE with its timer armed again - with the new parameters, exactly
    the main unit and the units that have demand running, and every consumer
    still holding its demand; or it ends FAILED with the hardware down. *)
Theorem restart_restores_demand (s s' : EffectiveStream) (c : LifecycleConfig) (history : list op) :
  let x := run history (init s c) in
  let x' := do (UpdateStream s' true) x in
  base_up (mgr x) = true ->
  handles x' = handles x
  /\ books (mgr x') = books (mgr x)
  /\ ((state (mgr x') = state (mgr x)
       /\ (forall u, running (get_unit u (mgr x')) = wanted UNIT_MAIN u (mgr x))
       /\ exists h, hw_run (trace (mgr x')) = Some h
           /\ (state (mgr x) = GraceIdle -> h_timer h = true))
      \/ (state (mgr x') = Failed /\ exists tm, hw_run (trace (mgr x')) = Some (hw_off tm))).
Proof.
  intros x x' Hb. pose proof (so_inv _ (reachable_ok history s c)) as I. fold x in I.
  destruct (update_stream_spec s' true (mgr x) I) as (I' & B & Hok & Hfail & Hr).
  split; [done|]. change (exec (update_stream s' true) (mgr x)) with (mgr x') in *. split; [done|].
  destruct (is_ok (result (update_stream s' true) (mgr x))).
  - left. split; [auto|]. split; [auto|].
    destruct (iv_hw _ I') as (tm & Htm & L).
    rewrite base_up_state, Hok, <- base_up_state, Hb in L by done.
    eexists. split; [apply L|]. simpl. intros Hg. apply Htm. rewrite Hok; done.
  - right. split; [auto|]. apply inv_down_off; [done|]. by rewrite base_up_state, Hfail.
Qed.
End Spec.

(** ** Concrete vendor stacks and histories *)

(** A platform whose answers do not depend on the history. *)
Definition constant_platform (up : Result) (fs : uid -> bool) : Platform := {|
  pl_bring_up := fun _ => up;
  pl_create_fs := fun _ u _ => fs u;
  pl_create_enc := fun _ _ _ => true;
  pl_create_jpeg := fun _ _ => true;
  pl_bind := fun _ _ => Res.ok;
  pl_enable := fun _ _ => Res.ok;
  pl_start := fun _ _ => Res.ok;
  pl_set_sensor_fps := fun _ v => (Res.ok, v);
  pl_get_sensor_fps := fun _ => (Res.ok, 25);
  pl_set_bitrate := fun _ v => (Res.ok, v);
  pl_set_fps := fun _ v => (Res.ok, v);
  pl_set_gop := fun _ v => (Res.ok, v);
  pl_image := fun _ => true;
  pl_image_set := fun _ _ v => (Res.ok, v);
  pl_snap_nv12 := fun _ _ => (Res.ok, [])
|}.

Definition perfect : Platform := constant_platform Res.ok (fun _ => true).
Definition no_sub : Platform := constant_platform Res.ok (fun u => bool_decide (u = Main)).
Definition dead : Platform := constant_platform (Res.error 5) (fun _ => true).

Definition cfg_w : LifecycleConfig := mkLifecycleConfig 5000 500.
Definition stream_w : EffectiveStream := EffectiveStream_default <| width := 1920 |> <| height := 1080 |>.
Definition sub_w : EffectiveStream := EffectiveStream_default <| width := 640 |> <| height := 360 |>.

Definition init_w : sys := init stream_w cfg_w.

(** A set-up with a substream, a JPEG path and a grace timer for every unit. *)
Definition setup : list op :=
  [ConfigureSub sub_w true; SetUnitGraceTimer UNIT_MAIN true;
   ConfigureJpeg (mkJpegParams 0 0 80 1) 300 2000 true].

(** A unit may outlive its demand.  The header promises that a unit runs
    only while it has demand plus its grace period.  When the main stream's
    last consumer leaves and a substream consumer arrives within the base
    grace, the base grace is cancelled and no unit grace was ever armed for the
    main unit: it keeps encoding, without demand and without a timer that could
    stop it, for as long as the substream is watched. *)
Theorem idle_unit_left_running :
  let x := @run perfect (setup ++ [Acquire UNIT_MAIN Rtsp; Release 0; Acquire UNIT_SUB Rtsp]) init_w in
  let m := mgr x in
  state m = Active /\ running (main m) = true /\ total (main m) = 0
  /\ timer (main m) = true /\ grace_armed (main m) = false
  /\ ~ In (Arm (TimerUnit Main) 5000) (trace m)
  /\ option_map h_timer (hw_run (trace m)) = Some false.
Proof.
  vm_compute. repeat (split; [reflexivity|]). split; [|reflexivity].
  intros Hin. repeat (destruct Hin as [Hin|Hin]; [discriminate|]). done.
Qed.

(** A capture may lose its encoder.  [snapshot] uses the encoder outside
    the lock and relies on "demand > 0" to keep it alive.  A controlled restart
    (a settings change) during the capture destroys it all the same: the
    capture still runs, its demand is still counted, and the encoder it was
    started on is gone. *)
Theorem capture_encoder_destroyed :
  let x := @run perfect
    (setup ++ [SnapBegin; SnapChoose (-1) 1000; UpdateStream stream_w true]) init_w in
  exists j later earlier,
    capturing x = Some (Some j) /\ j_demand (jpeg (mgr x)) = 1
    /\ trace (mgr x) = later ++ DestroyJpeg j :: earlier
    /\ In (CaptureStart j) earlier /\ ~ In (DestroyJpeg j) earlier
    /\ j_enc (jpeg (mgr x)) = None.
Proof.
  intros x. exists 0, (take 8 (trace (mgr x))), (drop 9 (trace (mgr x))).
  vm_compute. do 3 (split; [reflexivity|]). split; [by left|]. split; [|reflexivity].
  intros Hin. repeat (destruct Hin as [Hin|Hin]; [discriminate|]). done.
Qed.

(** A substream failure may end the camera.  A failed unit start is meant
    to cost the whole base only when no unit runs.  In the base grace the main
    unit is still warm and running, but its demand is 0: a substream consumer
    whose unit cannot start then takes the main unit down and makes the
    lifecycle FAILED for good, and the next main-stream consumer is refused. *)
Theorem sub_failure_ends_camera :
  let before := @run no_sub (setup ++ [Acquire UNIT_MAIN Rtsp; Release 0]) init_w in
  let after := @do no_sub (Acquire UNIT_SUB Rtsp) before in
  state (mgr before) = GraceIdle /\ running (main (mgr before)) = true
  /\ state (mgr after) = Failed /\ running (main (mgr after)) = false
  /\ (@acquire no_sub Rtsp (mgr after)).1 = (None, error_default).
Proof. vm_compute. repeat (split; [reflexivity|]). reflexivity. Qed.

(** ** Witnesses *)

Lemma failed_is_terminal_witness :
  state (mgr (@run dead [Acquire UNIT_MAIN Rtsp] init_w)) = Failed
  /\ state (mgr (@run dead [Acquire UNIT_MAIN Rtsp; SnapBegin; Shutdown]
        (@run dead [Acquire UNIT_MAIN Rtsp] init_w))) = Failed.
Proof.
  split; [vm_compute; reflexivity|].
  exact (proj1 (@failed_is_terminal dead stream_w cfg_w [Acquire UNIT_MAIN Rtsp]
    [Acquire UNIT_MAIN Rtsp; SnapBegin; Shutdown] ltac:(vm_compute; reflexivity))).
Defined.

Lemma no_consumer_no_pipeline_witness :
  let x := @run perfect (setup ++ [Acquire UNIT_MAIN Rtsp; Acquire UNIT_SUB Onvif]) init_w in
  snapshots x = 0%nat /\ base_up (mgr x) = true
  /\ base_up (mgr (@do perfect GraceTimeout (@run perfect (replicate (length (handles x)) (Release 0)) x))) = false.
Proof.
  intros x. split; [vm_compute; reflexivity|]. split; [vm_compute; reflexivity|].
  exact (proj1 (proj2 (proj2 (@no_consumer_no_pipeline perfect stream_w cfg_w
    (setup ++ [Acquire UNIT_MAIN Rtsp; Acquire UNIT_SUB Onvif]) ltac:(vm_compute; reflexivity))))).
Defined.

Lemma stale_grace_harmless_witness :
  let x := @run perfect [Acquire UNIT_MAIN Rtsp] init_w in
  (0 < length (handles x) + snapshots x)%nat /\ @do perfect GraceTimeout x = x.
Proof.
  intros x. assert (Hx : (0 < length (handles x) + snapshots x)%nat) by (vm_compute; lia).
  split; [exact Hx|].
  exact (proj1 (@stale_grace_harmless perfect stream_w cfg_w [Acquire UNIT_MAIN Rtsp] Hx)).
Defined.

Lemma restart_restores_demand_witness :
  let x := @run perfect (setup ++ [Acquire UNIT_SUB Rtsp]) init_w in
  base_up (mgr x) = true
  /\ handles (@do perfect (UpdateStream sub_w true) x) = [mkHandle Rtsp UNIT_SUB].
Proof.
  intros x. assert (Hb : base_up (mgr x) = true) by (vm_compute; reflexivity).
  split; [exact Hb|].
  exact (eq_trans (proj1 (@restart_restores_demand perfect stream_w sub_w cfg_w
    (setup ++ [Acquire UNIT_SUB Rtsp]) Hb)) ltac:(vm_compute; reflexivity)).
Defined.
