(* ===== verification/Tuning.v ===== *)
(** * Image controls and the latency preset

    [core/media/{settings.hpp,tuning_service.hpp,tuning_service.cpp}] with the
    plain data of [core/capabilities.hpp], [core/power/apply.hpp] and
    [ports/iimage_control.hpp].  [TuningService] sits on the pipeline manager of
    [Pipeline] and its consumers ([PipelineSystem]): every start of the base runs
    its hook, and what it asks of the ISP is in the manager's trace. *)

From S2P Require Import Prelude CoreTypes StreamHub Pipeline PipelineInv PipelineSystem PipelineSpec.

(** ** [capabilities.hpp], [apply.hpp], [iimage_control.hpp] *)

Inductive Cap := CapUnknown | CapSupported | CapUnsupported.
Inductive ApplyMode := Live | PipelineRestart | DaemonRestart | BootOnly | ModeUnsupported.
#[export] Instance Cap_eq_dec : EqDecision Cap.
Proof. solve_decision. Defined.

Record RangeCap := { support : Cap; cap_min : Z; cap_max : Z; cap_apply : ApplyMode }.
Definition RangeCap_default : RangeCap := {| support := CapUnknown; cap_min := -1; cap_max := -1; cap_apply := ModeUnsupported |}.
Definition in_range (c : RangeCap) (v : Z) : bool := ((cap_min c <? 0) || (cap_min c <=? v)) && ((cap_max c <? 0) || (v <=? cap_max c)).

Record ApplyResult := { ar_ok : bool; mode : ApplyMode; requested : Z; effective : Z; deferred : bool; message : string }.
Definition was_applied (m : ApplyMode) (req eff : Z) (msg : string) : ApplyResult :=
  {| ar_ok := true; mode := m; requested := req; effective := eff; deferred := false; message := msg |}.
Definition stored (m : ApplyMode) (req : Z) (msg : string) : ApplyResult :=
  {| ar_ok := true; mode := m; requested := req; effective := req; deferred := true; message := msg |}.
Definition stored_for_start (m : ApplyMode) (req : Z) : ApplyResult := stored m req "stored; takes effect at next pipeline start".
Definition rejected (m : ApplyMode) (req : Z) (msg : string) : ApplyResult :=
  {| ar_ok := false; mode := m; requested := req; effective := -1; deferred := false; message := msg |}.

Inductive ImageControl :=
| Brightness | Contrast | Saturation | Sharpness | Hue | HFlip | VFlip | AntiFlicker | AeCompensation | HighlightDepress
| BacklightComp | WhiteBalanceMode | RunningMode | TemporalNr | SpatialNr | Dpc | Defog | Wdr | Drc.
#[export] Instance ImageControl_eq_dec : EqDecision ImageControl.
Proof. solve_decision. Defined.

(** [0 .. COUNT-1], in order. *)
Definition controls : list ImageControl :=
  [Brightness; Contrast; Saturation; Sharpness; Hue; HFlip; VFlip; AntiFlicker; AeCompensation; HighlightDepress;
   BacklightComp; WhiteBalanceMode; RunningMode; TemporalNr; SpatialNr; Dpc; Defog; Wdr; Drc].

Definition ImageControl_code (c : ImageControl) : Z :=
  match c with
  | Brightness => 0 | Contrast => 1 | Saturation => 2 | Sharpness => 3 | Hue => 4 | HFlip => 5 | VFlip => 6 | AntiFlicker => 7
  | AeCompensation => 8 | HighlightDepress => 9 | BacklightComp => 10 | WhiteBalanceMode => 11 | RunningMode => 12 | TemporalNr => 13
  | SpatialNr => 14 | Dpc => 15 | Defog => 16 | Wdr => 17 | Drc => 18
  end.

Definition image_control_name (c : ImageControl) : string :=
  match c with
  | Brightness => "brightness" | Contrast => "contrast" | Saturation => "saturation" | Sharpness => "sharpness" | Hue => "hue"
  | HFlip => "hflip" | VFlip => "vflip" | AntiFlicker => "anti_flicker" | AeCompensation => "ae_compensation"
  | HighlightDepress => "highlight_depress" | BacklightComp => "backlight_comp" | WhiteBalanceMode => "white_balance_mode"
  | RunningMode => "running_mode" | TemporalNr => "temporal_nr" | SpatialNr => "spatial_nr" | Dpc => "dpc" | Defog => "defog"
  | Wdr => "wdr" | Drc => "drc"
  end.

(** ** [settings.hpp] *)

Inductive LatencyProfile := Normal | Low | Custom.
#[export] Instance LatencyProfile_eq_dec : EqDecision LatencyProfile.
Proof. solve_decision. Defined.
Definition LatencyProfile_code (p : LatencyProfile) : Z := match p with Normal => 0 | Low => 1 | Custom => 2 end.
Definition latency_profile_name (p : LatencyProfile) : string := match p with Normal => "normal" | Low => "low" | Custom => "custom" end.
Definition parse_latency_profile (s : string) : option LatencyProfile :=
  if String.eqb s "normal" then Some Normal else if String.eqb s "low" then Some Low else if String.eqb s "custom" then Some Custom else None.

Record ImageSettings := {
  brightness : option Z; contrast : option Z; saturation : option Z; sharpness : option Z; hue : option Z;
  hflip : option Z; vflip : option Z; anti_flicker : option Z;
  ae_compensation : option Z; highlight_depress : option Z; backlight_comp : option Z;
  white_balance_mode : option Z; running_mode : option Z;
  temporal_nr : option Z; spatial_nr : option Z; dpc : option Z; defog : option Z
}.

(** A preset and the values that win over it. *)
Record LatencySettings := { ls_profile : LatencyProfile; ls_gop : option Z; ls_fs_buffers : option Z; ls_enc_buffers : option Z; ls_depth : option Z }.
#[export] Instance LatencySettings_eta : Settable LatencySettings := fun s =>
  Build_LatencySettings (ls_profile s) (ls_gop s) (ls_fs_buffers s) (ls_enc_buffers s) (ls_depth s).

Record ResolvedLatency := { rl_profile : LatencyProfile; rl_gop : Z; rl_fs_buffers : Z; rl_enc_buffers : Z; rl_depth : Z }.
#[export] Instance ResolvedLatency_eta : Settable ResolvedLatency := fun r =>
  Build_ResolvedLatency (rl_profile r) (rl_gop r) (rl_fs_buffers r) (rl_enc_buffers r) (rl_depth r).

(** ** The service *)

(** The members; [pipeline_] with its consumers, arrays as functions. *)
Record Tuning := {
  pipeline_ : sys;
  hub_ : Hub.t;
  image_ : bool;                              (* image_ != nullptr *)
  image_caps_ : ImageControl -> RangeCap;
  base_ : EffectiveStream;
  latency_ : LatencySettings;
  resolved_ : ResolvedLatency;
  requested_ : ImageControl -> Z;
  effective_ : ImageControl -> Z;
  override_ : ImageControl -> Z
}.
#[export] Instance Tuning_eta : Settable Tuning := fun s =>
  Build_Tuning (pipeline_ s) (hub_ s) (image_ s) (image_caps_ s) (base_ s) (latency_ s) (resolved_ s) (requested_ s) (effective_ s) (override_ s).

Definition put_at (c : ImageControl) (v : Z) (f : ImageControl -> Z) : ImageControl -> Z := fun c' => if decide (c' = c) then v else f c'.

(** [load_image_settings]. *)
Definition load_image_settings (i : ImageSettings) (f : ImageControl -> Z) : ImageControl -> Z :=
  foldl (fun f '(c, v) => match v with Some v => put_at c v f | None => f end) f
    [(Brightness, brightness i); (Contrast, contrast i); (Saturation, saturation i); (Sharpness, sharpness i); (Hue, hue i);
     (HFlip, hflip i); (VFlip, vflip i); (AntiFlicker, anti_flicker i); (AeCompensation, ae_compensation i);
     (HighlightDepress, highlight_depress i); (BacklightComp, backlight_comp i); (WhiteBalanceMode, white_balance_mode i);
     (RunningMode, running_mode i); (TemporalNr, temporal_nr i); (SpatialNr, spatial_nr i); (Dpc, dpc i); (Defog, defog i)].

Definition resolve_locked (base : EffectiveStream) (l : LatencySettings) (stream : EffectiveStream) : ResolvedLatency :=
  let r := {| rl_profile := ls_profile l; rl_gop := gop base; rl_fs_buffers := buffers base; rl_enc_buffers := encoder_buffers base; rl_depth := 4 |} in
  let r := if decide (ls_profile l = Low)
           then r <| rl_gop := Z.max 1 (fps stream) |> <| rl_fs_buffers := 1 |> <| rl_enc_buffers := 1 |> <| rl_depth := 1 |> else r in
  let r := match ls_gop l with Some v => r <| rl_gop := v |> | None => r end in
  let r := match ls_fs_buffers l with Some v => r <| rl_fs_buffers := v |> | None => r end in
  let r := match ls_enc_buffers l with Some v => r <| rl_enc_buffers := v |> | None => r end in
  match ls_depth l with Some v => r <| rl_depth := v |> | None => r end.

Section Service.
Context `{Platform}.

(** [platform_.image()->set(c, value, eff)]. *)
Definition image_set (c : ImageControl) (v : Z) : ST PM (Result * Z) :=
  r ← ask (fun h => pl_image_set h (ImageControl_code c) v);
  emit (ImageSet (ImageControl_code c) v r.1) ;;
  mret r.

Definition on_pm {A} (f : ST PM A) : ST Tuning A := fun s =>
  let '(r, m) := f (mgr (pipeline_ s)) in (r, s <| pipeline_ ::= fun x => x <| mgr := m |> |>).

(** [apply_images_after_start], the hook; a held control wins. *)
Definition start_value (s : Tuning) (c : ImageControl) : Z := if 0 <=? override_ s c then override_ s c else requested_ s c.
Definition apply_images_after_start : ST Tuning unit :=
  s ← gets id;
  when (image_ s) (for_each controls (fun c =>
    if start_value s c <? 0 then skip else
    r ← on_pm (image_set c (start_value s c));
    when (is_ok r.1) (modify (fun s => s <| effective_ ::= put_at c r.2 |>)))).

(** How often the base called its hook. *)
Definition hook_calls (t : list event) : nat := length (List.filter (fun e => match e with PostStart => true | _ => false end) t).

Fixpoint repeatedly (n : nat) (m : ST Tuning unit) : ST Tuning unit :=
  match n with
  | O => skip
  | S n => m ;; repeatedly n m
  end.

(** Something that happens to the pipeline, with the hook for every start.  (The
    manager calls it under its lock, at the end of the start.) *)
Definition with_hook {A} (f : ST Tuning A) : ST Tuning A :=
  before ← gets (fun s => hook_calls (trace (mgr (pipeline_ s))));
  r ← f;
  after ← gets (fun s => hook_calls (trace (mgr (pipeline_ s))));
  repeatedly (after - before) apply_images_after_start ;;
  mret r.

Definition on_pipeline {A} (f : ST PM A) : ST Tuning A := with_hook (on_pm f).

(** What the consumers and timers do with the pipeline. *)
Definition elsewhere (o : op) : ST Tuning unit := with_hook (modify (fun s => s <| pipeline_ ::= do o |>)).

Definition pipeline_stream : ST Tuning EffectiveStream := gets (fun s => stream_unit UNIT_MAIN (mgr (pipeline_ s))).
Definition pipeline_running : ST Tuning bool := gets (fun s => base_up (mgr (pipeline_ s))).
Definition on_hub (f : ST Hub.t unit) : ST Tuning unit := modify (fun s => s <| hub_ ::= exec f |>).

(** The constructor, on a pipeline and a hub. *)
Definition make_tuning (x : sys) (h : Hub.t) (image : bool) (caps : ImageControl -> RangeCap) (base : EffectiveStream)
    (i : ImageSettings) (l : LatencySettings) : Tuning :=
  let cur := stream_unit UNIT_MAIN (mgr x) in
  let r := resolve_locked base l cur in
  let s := cur <| gop := rl_gop r |> <| buffers := rl_fs_buffers r |> <| encoder_buffers := rl_enc_buffers r |> in
  {| pipeline_ := x <| mgr := exec set_post_start_hook (exec (update_stream s false) (mgr x)) |>;
     hub_ := exec (Hub.set_default_depth (Z.to_nat (u32 (rl_depth r)))) h; image_ := image;
     image_caps_ := if image then caps else fun _ => RangeCap_default; base_ := base; latency_ := l; resolved_ := r;
     requested_ := load_image_settings i (fun _ => -1); effective_ := fun _ => -1; override_ := fun _ => -1 |}.

(** *** Image controls *)

Definition is_flicker (c : ImageControl) (v : Z) : bool :=
  bool_decide (c = AntiFlicker) && negb (v =? 0) && negb (v =? 50) && negb (v =? 60).

(** The end of [apply_image]: to the ISP, unless a service holds the control. *)
Definition write_through (cap : RangeCap) (c : ImageControl) (value : Z) (from_override : bool) : ST Tuning ApplyResult :=
  held ← gets (fun s => if from_override then -1 else override_ s c);
  if 0 <=? held then mret (stored (cap_apply cap) value "stored; the night mode holds this control") else
  r ← on_pipeline (live_image (ImageControl_code c) value);
  if bool_decide (status r.1 = Busy) then mret (stored (cap_apply cap) value "stored; pipeline transition in progress") else
  if negb (is_ok r.1) then mret (rejected (cap_apply cap) value "ISP rejected the image control") else
  modify (fun s => s <| effective_ ::= put_at c r.2 |>) ;;
  mret (was_applied (cap_apply cap) value (if 0 <=? r.2 then r.2 else value) "read back from ISP").

Definition apply_image (c : ImageControl) (value : Z) (record_requested from_override : bool) : ST Tuning ApplyResult :=
  cap ← gets (fun s => image_caps_ s c);
  image ← gets image_;
  if negb image || negb (bool_decide (support cap = CapSupported))
  then mret (rejected ModeUnsupported value (image_control_name c ++ " is not supported")%string) else
  if negb (in_range cap value) || is_flicker c value
  then mret (rejected (cap_apply cap) value (image_control_name c ++ " outside supported values")%string) else
  when record_requested (modify (fun s => s <| requested_ ::= put_at c value |>)) ;;
  write_through cap c value from_override.

Definition set_image (c : ImageControl) (value : Z) : ST Tuning ApplyResult := apply_image c value true false.
Definition set_image_live (c : ImageControl) (value : Z) : ST Tuning ApplyResult := apply_image c value false false.

Definition set_image_override (c : ImageControl) (value : Z) : ST Tuning ApplyResult :=
  before ← gets (fun s => override_ s c);
  modify (fun s => s <| override_ ::= put_at c value |>) ;;
  r ← apply_image c value false true;
  when (negb (ar_ok r)) (modify (fun s => s <| override_ ::= put_at c before |>)) ;;
  mret r.

Definition clear_image_override (c : ImageControl) (fallback : Z) : ST Tuning unit :=
  modify (fun s => s <| override_ ::= put_at c (-1) |>) ;;
  back ← gets (fun s => requested_ s c);
  let back := if back <? 0 then fallback else back in
  when (0 <=? back) (apply_image c back false false ;; skip).

Definition clear_image (c : ImageControl) : ST Tuning ApplyResult :=
  cap ← gets (fun s => image_caps_ s c);
  if negb (bool_decide (support cap = CapSupported))
  then mret (rejected ModeUnsupported (-1) (image_control_name c ++ " is not supported")%string) else
  modify (fun s => s <| requested_ ::= put_at c (-1) |> <| effective_ ::= put_at c (-1) |>) ;;
  up ← pipeline_running;
  if up : bool then
    s ← pipeline_stream;
    r ← on_pipeline (update_stream s true);
    err ← gets (fun s => last_error (mgr (pipeline_ s)));
    if negb (is_ok r) then mret (rejected PipelineRestart (-1) (image_control_name c ++ ": restart to defaults failed: " ++ err)%string)
    else mret (was_applied PipelineRestart (-1) (-1) "cleared; pipeline restarted to tuning defaults")
  else mret (was_applied Live (-1) (-1) "cleared").

(** *** Latency *)

Definition apply_latency (target : ResolvedLatency) (req : Z) (what : string) : ST Tuning ApplyResult :=
  s ← pipeline_stream;
  let restart_change := negb (buffers s =? rl_fs_buffers target) || negb (encoder_buffers s =? rl_enc_buffers target) in
  let gop_change := negb (gop s =? rl_gop target) in
  let s' := s <| gop := rl_gop target |> <| buffers := rl_fs_buffers target |> <| encoder_buffers := rl_enc_buffers target |> in
  on_hub (Hub.set_default_depth (Z.to_nat (u32 (rl_depth target)))) ;;
  running ← pipeline_running;
  out ← (if restart_change then
           r ← on_pipeline (update_stream s' running);
           err ← gets (fun s => last_error (mgr (pipeline_ s)));
           mret (if is_ok r then inl (rl_gop target) else inr (rejected PipelineRestart req (what ++ ": restart failed: " ++ err)%string))
         else if gop_change && running then
           r ← on_pipeline (live_gop (rl_gop target));
           mret (if is_ok r.1 then inl (if 0 <? r.2 then r.2 else rl_gop target) else inr (rejected Live req (what ++ ": encoder rejected GOP")%string))
         else if gop_change then
           r ← on_pipeline (update_stream s' false);
           mret (if is_ok r then inl (rl_gop target) else inr (rejected PipelineRestart req (what ++ ": could not store stream settings")%string))
         else mret (inl (rl_gop target)));
  match out with
  | inr e => mret e
  | inl g =>
      modify (fun x => x <| resolved_ := if running && gop_change && negb restart_change then target <| rl_gop := g |> else target |>) ;;
      let m := if restart_change then PipelineRestart else Live in
      mret (if negb running && (restart_change || gop_change) then stored_for_start m req
            else was_applied m req req (if restart_change then "pipeline restarted once" else "applied without restart"))
  end.

(** The setters: change the settings, resolve, apply. *)
Definition change_latency (f : LatencySettings -> LatencySettings) (req : Z) (what : string) : ST Tuning ApplyResult :=
  cur ← pipeline_stream;
  modify (fun s => s <| latency_ ::= f |>) ;;
  target ← gets (fun s => resolve_locked (base_ s) (latency_ s) cur);
  apply_latency target req what.

Definition set_latency_profile (p : LatencyProfile) : ST Tuning ApplyResult :=
  change_latency (fun l => l <| ls_profile := p |>) (LatencyProfile_code p) "latency profile".
Definition set_gop (v : Z) : ST Tuning ApplyResult :=
  if (v <? 1) || (1000 <? v) then mret (rejected Live v "GOP must be in 1..1000")
  else change_latency (fun l => l <| ls_gop := Some v |>) v "GOP".
Definition set_framesource_buffers (v : Z) : ST Tuning ApplyResult :=
  if (v <? 1) || (8 <? v) then mret (rejected PipelineRestart v "FrameSource buffers must be in 1..8")
  else change_latency (fun l => l <| ls_fs_buffers := Some v |>) v "FrameSource buffers".
Definition set_encoder_buffers (v : Z) : ST Tuning ApplyResult :=
  if (v <? 1) || (8 <? v) then mret (rejected PipelineRestart v "encoder buffers must be in 1..8")
  else change_latency (fun l => l <| ls_enc_buffers := Some v |>) v "encoder buffers".
Definition set_queue_depth (v : Z) : ST Tuning ApplyResult :=
  if (v <? 1) || (32 <? v) then mret (rejected Live v "consumer queue depth must be in 1..32")
  else change_latency (fun l => l <| ls_depth := Some v |>) v "consumer queue depth".
Definition clear_framesource_buffers : ST Tuning ApplyResult := change_latency (fun l => l <| ls_fs_buffers := None |>) 0 "FrameSource buffers (reset)".
Definition clear_encoder_buffers : ST Tuning ApplyResult := change_latency (fun l => l <| ls_enc_buffers := None |>) 0 "encoder buffers (reset)".
Definition clear_queue_depth : ST Tuning ApplyResult := change_latency (fun l => l <| ls_depth := None |>) 0 "consumer queue depth (reset)".
Definition refresh_after_stream_change : ST Tuning ApplyResult :=
  cur ← pipeline_stream;
  target ← gets (fun s => resolve_locked (base_ s) (latency_ s) cur);
  apply_latency target (LatencyProfile_code (rl_profile target)) "latency profile refresh".
End Service.

(** ** What a computation leaves alone *)

Section Keeping.
Context {S X : Type} (P : S -> X).

Definition keeping {A} (f : ST S A) : Prop := forall m, P (exec f m) = P m.

Lemma keeping_ret {A} (a : A) : keeping (mret a).
Proof. done. Qed.
Lemma keeping_skip : keeping skip.
Proof. done. Qed.
Lemma keeping_gets {A} (f : S -> A) : keeping (gets f).
Proof. done. Qed.
Lemma keeping_modify f : (forall m, P (f m) = P m) -> keeping (modify f).
Proof. done. Qed.
Lemma keeping_bind {A B} (f : ST S A) (k : A -> ST S B) : keeping f -> (forall a, keeping (k a)) -> keeping (f ≫= k).
Proof.
  intros Hf Hk m. specialize (Hf m). unfold exec, mbind, st_bind in *. destruct (f m) as [a m']. cbn [snd] in *. rewrite <- Hf. apply (Hk a m').
Qed.
Lemma keeping_when b (f : ST S unit) : keeping f -> keeping (when b f).
Proof. by destruct b. Qed.
Lemma keeping_wp {A} (f : ST S A) m : keeping f -> wp f (fun _ m' => P m' = P m) m.
Proof. intros Hf. apply Hf. Qed.
Lemma keeping_for_each {Y} (l : list Y) (body : Y -> ST S unit) : (forall y, keeping (body y)) -> keeping (for_each l body).
Proof. intros Hb. induction l as [|y l IH]; [apply keeping_skip|]. by apply keeping_bind. Qed.
End Keeping.

Create HintDb keeping.
#[export] Hint Resolve keeping_ret keeping_skip keeping_gets : keeping.

(** A computation is taken apart as it is written; its pieces are in the database. *)
Ltac keep_step :=
  lazymatch goal with
  | |- keeping _ (_ ≫= _) => apply keeping_bind; [|intros ?]
  | |- keeping _ (when _ _) => apply keeping_when
  | |- keeping _ (let _ := _ in _) => cbv zeta
  | |- keeping _ (match ?x with _ => _ end) => destruct x
  | |- keeping _ (modify _) => first [solve [auto with keeping nocore]|apply keeping_modify; intros ?; reflexivity]
  | |- keeping _ (ask _) => apply keeping_gets
  | |- keeping _ _ => solve [auto with keeping nocore]
  end.
Ltac keep_go := repeat keep_step.

(** *** What the pipeline asks of the ISP, and its main stream *)

Definition isp (t : list event) : list (Z * Z) := omap (fun e => match e with ImageSet c v _ => Some (c, v) | _ => None end) t.

Section Quiet.
Context `{Platform}.
Abbreviation quiet := (keeping (fun m : PM => isp (trace m))).
Abbreviation still := (keeping (fun m : PM => (isp (trace m), stream (main m)))).

Lemma still_quiet {A} (f : ST PM A) : still f -> quiet f.
Proof. intros Hf m. by injection (Hf m). Qed.

Lemma still_emit e : match e with ImageSet _ _ _ => False | _ => True end -> still (emit e).
Proof. intros He. apply keeping_modify. intros m. by destruct e. Qed.
#[local] Hint Extern 1 (keeping _ (emit _)) => (apply still_emit; exact I) : keeping.
#[local] Hint Extern 1 (keeping _ (emit _)) => (apply still_quiet, still_emit; exact I) : keeping.

Lemma still_upd u f : (forall y, stream (f y) = stream y) -> still (modify (upd_unit u f)).
Proof. intros Hf. apply keeping_modify. intros m. destruct u; [|done]. cbn. by rewrite Hf. Qed.
#[local] Hint Extern 1 (keeping _ (modify (upd_unit _ _))) => (apply still_upd; intros ?; reflexivity) : keeping.
Lemma quiet_upd u f : quiet (modify (upd_unit u f)).
Proof. apply keeping_modify. by destruct u. Qed.
#[local] Hint Resolve quiet_upd : keeping.

Lemma still_alloc : still alloc.
Proof. done. Qed.
#[local] Hint Resolve still_alloc : keeping.

Lemma still_transition s : still (transition s).
Proof. unfold transition. keep_go. Qed.
#[local] Hint Resolve still_transition : keeping.
Lemma still_stop_unit u : still (stop_unit_locked u).
Proof. unfold stop_unit_locked. keep_go. Qed.
#[local] Hint Resolve still_stop_unit : keeping.
Lemma still_fail_unit u s c : still (fail_unit u s c).
Proof. unfold fail_unit. keep_go. Qed.
#[local] Hint Resolve still_fail_unit : keeping.
Lemma still_start_unit u : still (start_unit_locked u).
Proof. unfold start_unit_locked. keep_go. Qed.
#[local] Hint Resolve still_start_unit : keeping.
Lemma still_stop_jpeg : still stop_jpeg_locked.
Proof. unfold stop_jpeg_locked. keep_go. Qed.
Lemma still_start_jpeg : still start_jpeg_locked.
Proof. unfold start_jpeg_locked. keep_go. Qed.
#[local] Hint Resolve still_stop_jpeg still_start_jpeg : keeping.
Lemma still_stop_base : still stop_base_locked.
Proof. unfold stop_base_locked. keep_go. Qed.
#[local] Hint Resolve still_stop_base : keeping.
Lemma still_start_units n l : still (start_units n l).
Proof. induction l as [|u l IH]; cbn [start_units]; keep_go. Qed.
#[local] Hint Resolve still_start_units : keeping.
Lemma still_finish_base : still finish_base.
Proof. unfold finish_base. keep_go. Qed.
#[local] Hint Resolve still_finish_base : keeping.
Lemma still_start_base n : still (start_base_locked n).
Proof. unfold start_base_locked. keep_go. Qed.
#[local] Hint Resolve still_start_base : keeping.
Lemma still_ensure_base n : still (ensure_base_locked n).
Proof. unfold ensure_base_locked. keep_go. Qed.
#[local] Hint Resolve still_ensure_base : keeping.
Lemma still_disarm_unit u : still (disarm_unit u).
Proof. unfold disarm_unit. keep_go. Qed.
Lemma still_disarm_jpeg : still disarm_jpeg.
Proof. unfold disarm_jpeg. keep_go. Qed.
#[local] Hint Resolve still_disarm_unit still_disarm_jpeg : keeping.
Lemma still_give_up_base : still give_up_base.
Proof. unfold give_up_base. keep_go. Qed.
#[local] Hint Resolve still_give_up_base : keeping.
Lemma still_acquire_unit n t : still (acquire_unit n t).
Proof. unfold acquire_unit. keep_go. Qed.
Lemma still_acquire_base t : still (acquire_base t).
Proof. unfold acquire_base. keep_go. Qed.
Lemma still_enter_grace : still enter_grace.
Proof. unfold enter_grace. keep_go. Qed.
#[local] Hint Resolve still_acquire_unit still_acquire_base still_enter_grace : keeping.
Lemma still_release_unit t u : still (release_unit t u).
Proof. unfold release_unit. keep_go. Qed.
Lemma still_release_base : still release_base.
Proof. unfold release_base. keep_go. Qed.
#[local] Hint Resolve still_release_unit still_release_base : keeping.
Lemma still_release h : still (release h).
Proof. unfold release. keep_go. Qed.
Lemma still_on_grace : still on_grace_timeout.
Proof. unfold on_grace_timeout. keep_go. Qed.
Lemma still_on_unit_grace n : still (on_unit_grace n).
Proof. unfold on_unit_grace. keep_go. Qed.
Lemma still_on_jpeg_grace : still on_jpeg_grace.
Proof. unfold on_jpeg_grace. keep_go. Qed.
Lemma still_shutdown : still shutdown.
Proof. unfold shutdown. keep_go. Qed.
#[local] Hint Resolve still_release still_on_grace still_on_unit_grace still_on_jpeg_grace still_shutdown : keeping.
#[local] Hint Extern 3 (keeping _ _) => (apply still_quiet; solve [auto with keeping nocore]) : keeping.

Lemma quiet_update_stream s b : quiet (update_stream s b).
Proof. unfold update_stream. keep_go. Qed.
Lemma quiet_update_sub_stream s b : quiet (update_sub_stream s b).
Proof. unfold update_sub_stream. keep_go. Qed.
Lemma quiet_live_gop v : quiet (live_gop v).
Proof. unfold live_gop. keep_go. Qed.
#[local] Hint Resolve quiet_update_stream quiet_update_sub_stream quiet_live_gop : keeping.

(** Whatever the consumers and timers do with the pipeline, short of asking for an
    image control, the ISP hears nothing of it. *)
Lemma do_quiet o x : (forall c v, o <> LiveImage c v) -> isp (trace (mgr (do o x))) = isp (trace (mgr x)).
Proof.
  intros Ho. assert (Q : forall A (f : ST PM A), quiet f -> isp (trace (exec f (mgr x))) = isp (trace (mgr x))) by (intros A f Hf; apply Hf).
  destruct o; cbn [do]; try (apply Q; first [solve [auto with keeping nocore]|progress (unfold live_bitrate, live_encoder_fps, live_sensor_fps, read_sensor_fps, request_idr,
      snap_nv12_once, snap_captured, snap_end, configure_sub, configure_jpeg, set_jpeg_enabled, set_unit_grace_timer, set_state_listener, set_post_start_hook, set_sensor_fps_target); keep_go]).
  - destruct (handles x !! i); [|done]. apply Q. auto with keeping nocore.
  - by destruct (Ho c v).
  - apply (Q _ snap_begin). unfold snap_begin. keep_go.
  - assert (E : isp (trace (exec (snap_choose age now) (mgr x))) = isp (trace (mgr x))) by (apply Q; unfold snap_choose; keep_go).
    unfold exec in E. destruct (waiting x), (capturing x); try done. by destruct (snap_choose age now (mgr x)).1.
  - destruct (capturing x) as [o|]; [|done]. apply Q. unfold snap_captured. keep_go.
  - destruct (finishing x); [done|]. apply Q. unfold snap_end. keep_go.
Qed.
End Quiet.

#[export] Hint Resolve quiet_update_stream quiet_live_gop : keeping.

(** ** The programme of a camera *)

Inductive call :=
| SetImage (c : ImageControl) (v : Z)
| SetImageLive (c : ImageControl) (v : Z)
| SetOverride (c : ImageControl) (v : Z)
| ClearOverride (c : ImageControl) (fallback : Z)
| ClearImage (c : ImageControl)
| SetProfile (p : LatencyProfile)
| SetGop (v : Z) | SetFsBuffers (v : Z) | SetEncBuffers (v : Z) | SetDepth (v : Z)
| ClearFsBuffers | ClearEncBuffers | ClearDepth
| Refresh
| Elsewhere (o : op).

Section Programme.
Context `{Platform}.

Definition perform (k : call) : ST Tuning unit :=
  match k with
  | SetImage c v => set_image c v ;; skip
  | SetImageLive c v => set_image_live c v ;; skip
  | SetOverride c v => set_image_override c v ;; skip
  | ClearOverride c f => clear_image_override c f
  | ClearImage c => clear_image c ;; skip
  | SetProfile p => set_latency_profile p ;; skip
  | SetGop v => set_gop v ;; skip
  | SetFsBuffers v => set_framesource_buffers v ;; skip
  | SetEncBuffers v => set_encoder_buffers v ;; skip
  | SetDepth v => set_queue_depth v ;; skip
  | ClearFsBuffers => clear_framesource_buffers ;; skip
  | ClearEncBuffers => clear_encoder_buffers ;; skip
  | ClearDepth => clear_queue_depth ;; skip
  | Refresh => refresh_after_stream_change ;; skip
  | Elsewhere o => elsewhere o
  end.

Definition perform_all (l : list call) : ST Tuning unit := for_each l perform.

(** The image controls are set by this service alone. *)
Definition own (k : call) : Prop := match k with Elsewhere (LiveImage _ _) => False | _ => True end.

(** *** A control that is held *)

Lemma ImageControl_code_inj c c' : ImageControl_code c = ImageControl_code c' -> c = c'.
Proof. destruct c, c'; done. Qed.

Definition asked (s : Tuning) : list (Z * Z) := isp (trace (mgr (pipeline_ s))).
Definition base_starts (s : Tuning) : nat := hook_calls (trace (mgr (pipeline_ s))).

Section Held.
Variables (c : ImageControl) (h : Z).

(** From [s] on, the ISP was only given [h] for [c], and at every start it was. *)
Definition holds (s s' : Tuning) : Prop :=
  override_ s' c = h /\ image_ s' = image_ s
  /\ exists new, asked s' = new ++ asked s
     /\ (forall v, (ImageControl_code c, v) ∈ new -> v = h)
     /\ (image_ s = true -> (base_starts s < base_starts s')%nat -> (ImageControl_code c, h) ∈ new).

Lemma holds_refl s : override_ s c = h -> holds s s.
Proof. intros E. split; [done|]. split; [done|]. exists []. split; [done|]. split; [intros v Hv; by apply elem_of_nil in Hv|lia]. Qed.

Lemma holds_trans s1 s2 s3 : holds s1 s2 -> holds s2 s3 -> holds s1 s3.
Proof.
  intros (_ & I1 & n1 & E1 & V1 & S1) (O & I2 & n2 & E2 & V2 & S2). split; [done|]. split; [congruence|]. exists (n2 ++ n1).
  split; [by rewrite E2, E1, app_assoc|]. split.
  - intros v [Hv|Hv]%elem_of_app; auto.
  - intros Hi Hs. apply elem_of_app. rewrite I1 in S2. destruct (decide (base_starts s1 < base_starts s2)%nat); [right; auto|left; apply S2; [done|lia]].
Qed.

(** What changes neither the hold nor the trace. *)
Lemma holds_same s s' : override_ s c = h -> override_ s' c = h -> image_ s' = image_ s -> pipeline_ s' = pipeline_ s -> holds s s'.
Proof.
  intros E E' I P. unfold holds, asked, base_starts. rewrite P. split; [done|]. split; [done|]. exists []. split; [done|].
  split; [intros v Hv; by apply elem_of_nil in Hv|lia].
Qed.

Lemma wp_on_pm {A} (f : ST PM A) (Q : A -> Tuning -> Prop) s :
  wp f (fun a m => Q a (s <| pipeline_ ::= fun x => x <| mgr := m |> |>)) (mgr (pipeline_ s)) -> wp (on_pm f) Q s.
Proof. unfold wp, on_pm, result, exec. by destruct (f (mgr (pipeline_ s))). Qed.

(** The members no hook and no pipeline touches. *)
Definition fixed (s : Tuning) := (override_ s, image_ s, image_caps_ s, requested_ s).

(** From [s] to [s'] the ISP was given [new], of [c] only [h]. *)
Definition gave (s s' : Tuning) (new : list (Z * Z)) : Prop := asked s' = new ++ asked s /\ forall v, (ImageControl_code c, v) ∈ new -> v = h.

Lemma gave_nil s s' : asked s' = asked s -> gave s s' [].
Proof. intros E. split; [done|]. intros v Hv. by apply elem_of_nil in Hv. Qed.

Lemma gave_app s1 s2 s3 a b : gave s1 s2 a -> gave s2 s3 b -> gave s1 s3 (b ++ a).
Proof. intros [E1 V1] [E2 V2]. split; [by rewrite E2, E1, app_assoc|]. intros v [Hv|Hv]%elem_of_app; auto. Qed.

(** The hook hands the ISP every value, the one held among them. *)
Lemma hook_gave s : 0 <= h -> override_ s c = h ->
  wp apply_images_after_start (fun _ s' => fixed s' = fixed s /\ base_starts s' = base_starts s
    /\ exists new, gave s s' new /\ (image_ s = true -> (ImageControl_code c, h) ∈ new)) s.
Proof.
  intros Hh Ho. unfold apply_images_after_start. apply wp_bind, wp_gets. unfold id. apply wp_when; intros Hi.
  2: { split; [done|]. split; [done|]. exists []. split; [by apply gave_nil|congruence]. }
  set (values := start_value s). assert (Hv : values c = h) by (unfold values, start_value; rewrite Ho; by apply Z.leb_le in Hh; rewrite Hh).
  eapply wp_mono; [apply (wp_for_each controls _ (fun l s' => fixed s' = fixed s /\ base_starts s' = base_starts s
    /\ exists new, gave s s' new /\ (c ∈ l \/ (ImageControl_code c, h) ∈ new)) s)|].
  - split; [done|]. split; [done|]. exists []. split; [by apply gave_nil|]. left. destruct c; set_solver.
  - intros x l s1 (E1 & E2 & new & G & M). assert (M' : x <> c -> c ∈ l \/ (ImageControl_code c, h) ∈ new) by (intros Hn; destruct M as [[M|M]%elem_of_cons|M]; [congruence|by left|by right]).
    destruct (values x <? 0) eqn:Ex.
    { apply wp_skip. split; [done|]. split; [done|]. exists new. split; [done|]. apply M'. intros ->. apply Z.ltb_lt in Ex. lia. }
    apply wp_bind, wp_on_pm. unfold image_set. apply wp_bind, wp_gets, wp_bind, wp_modify, wp_ret.
    set (r := pl_image_set _ _ _). set (s2 := s1 <| pipeline_ ::= _ |>).
    assert (K : gave s1 s2 [(ImageControl_code x, values x)]).
    { split; [done|]. intros v Hn%list_elem_of_singleton. injection Hn as Hc ->. apply ImageControl_code_inj in Hc as <-. done. }
    assert (B : fixed s2 = fixed s1 /\ base_starts s2 = base_starts s1) by done. clearbody s2 r. destruct B as [B1 B2].
    assert (R : forall s3, fixed s3 = fixed s2 -> pipeline_ s3 = pipeline_ s2 -> fixed s3 = fixed s /\ base_starts s3 = base_starts s
      /\ exists new, gave s s3 new /\ (c ∈ l \/ (ImageControl_code c, h) ∈ new)).
    { intros s3 F1 F2. split; [congruence|]. unfold base_starts in *. rewrite F2. split; [congruence|].
      exists ([(ImageControl_code x, values x)] ++ new). split.
      - pose proof (gave_app _ _ _ _ _ G K) as [A V]. split; [|exact V]. unfold asked in *. by rewrite F2.
      - destruct (decide (x = c)) as [->|Hne]; [right; rewrite Hv; by left|]. destruct (M' Hne); [by left|right; by right]. }
    apply wp_when; intros _; [apply wp_modify|]; by apply R.
  - intros _ s' (E1 & E2 & new & G & M). split; [done|]. split; [done|]. exists new. split; [done|].
    intros _. destruct M as [M|M]; [by apply elem_of_nil in M|done].
Qed.

Lemma hooks_gave n s : 0 <= h -> override_ s c = h ->
  wp (repeatedly n apply_images_after_start) (fun _ s' => fixed s' = fixed s /\ base_starts s' = base_starts s
    /\ exists new, gave s s' new /\ (n <> O -> image_ s = true -> (ImageControl_code c, h) ∈ new)) s.
Proof.
  intros Hh. revert s. induction n as [|n IH]; intros s Ho; cbn [repeatedly].
  - apply wp_skip. split; [done|]. split; [done|]. exists []. split; [by apply gave_nil|done].
  - apply wp_bind. wp_call (hook_gave s Hh Ho). intros _ s1 (E1 & B1 & n1 & G1 & M1).
    assert (O1 : override_ s1 c = h) by (unfold fixed in E1; injection E1 as -> _ _ _; done). wp_call (IH s1 O1). intros _ s2 (E2 & B2 & n2 & G2 & _).
    split; [congruence|]. split; [congruence|]. exists (n2 ++ n1). split; [by eapply gave_app|]. intros _ Hi. apply elem_of_app. right. auto.
Qed.

(** Members and trace, for the control [c]. *)
Definition leaves (s s' : Tuning) : Prop := holds s s' /\ image_caps_ s' = image_caps_ s /\ requested_ s' c = requested_ s c.

Lemma leaves_trans s1 s2 s3 : leaves s1 s2 -> leaves s2 s3 -> leaves s1 s3.
Proof. intros (H1 & C1 & R1) (H2 & C2 & R2). split; [by eapply holds_trans|]. split; congruence. Qed.

Lemma leaves_same s s' : override_ s c = h -> override_ s' c = h -> image_ s' = image_ s -> image_caps_ s' = image_caps_ s -> requested_ s' c = requested_ s c ->
  pipeline_ s' = pipeline_ s -> leaves s s'.
Proof. intros. split; [by apply holds_same|done]. Qed.

Lemma with_hook_leaves {A} (f : ST Tuning A) s : 0 <= h -> override_ s c = h ->
  wp f (fun _ s1 => fixed s1 = fixed s /\ exists new, gave s s1 new) s -> wp (with_hook f) (fun _ s' => leaves s s') s.
Proof.
  intros Hh Ho Hf. unfold with_hook. apply wp_bind, wp_gets, wp_bind. eapply wp_mono; [exact Hf|]. intros a s1 (F1 & n1 & G1). apply wp_bind, wp_gets, wp_bind.
  assert (O1 : override_ s1 c = h) by (unfold fixed in F1; injection F1 as -> _ _ _; done). fold (base_starts s1). fold (base_starts s).
  wp_call (hooks_gave (base_starts s1 - base_starts s) s1 Hh O1). intros _ s2 (F2 & B2 & n2 & G2 & M2). apply wp_ret.
  assert (F : fixed s2 = fixed s) by congruence. unfold fixed in F. injection F as O I C R. split; [|by rewrite C, R].
  split; [congruence|]. split; [done|]. destruct (gave_app _ _ _ _ _ G1 G2) as [E V]. exists (n2 ++ n1). split; [done|]. split; [done|].
  intros Hi Hs. apply elem_of_app. left. apply M2; [lia|]. unfold fixed in F1. injection F1 as _ -> _ _. done.
Qed.

Lemma on_pipeline_leaves {A} (f : ST PM A) s : 0 <= h -> override_ s c = h -> keeping (fun m : PM => isp (trace m)) f ->
  wp (on_pipeline f) (fun _ s' => leaves s s') s.
Proof.
  intros Hh Ho Hf. apply with_hook_leaves; [done|done|]. apply wp_on_pm. split; [done|]. exists []. apply gave_nil. exact (Hf (mgr (pipeline_ s))).
Qed.
Definition leaving {A} (m : ST Tuning A) : Prop := forall s, override_ s c = h -> wp m (fun _ s' => leaves s s') s.

Lemma leaves_refl s : override_ s c = h -> leaves s s.
Proof. intros E. by apply leaves_same. Qed.

Lemma leaving_ret {A} (a : A) : leaving (mret a).
Proof. intros s Ho. by apply wp_ret, leaves_refl. Qed.
Lemma leaving_skip : leaving skip.
Proof. intros s Ho. by apply wp_skip, leaves_refl. Qed.
Lemma leaving_gets {A} (f : Tuning -> A) : leaving (gets f).
Proof. intros s Ho. by apply wp_gets, leaves_refl. Qed.
Lemma leaving_modify f : (forall s, override_ (f s) c = override_ s c /\ image_ (f s) = image_ s /\ image_caps_ (f s) = image_caps_ s
  /\ requested_ (f s) c = requested_ s c /\ pipeline_ (f s) = pipeline_ s) -> leaving (modify f).
Proof. intros Hf s Ho. apply wp_modify. destruct (Hf s) as (E1 & E2 & E3 & E4 & E5). apply leaves_same; congruence. Qed.
Lemma leaving_bind {A B} (m : ST Tuning A) (k : A -> ST Tuning B) : leaving m -> (forall a, leaving (k a)) -> leaving (m ≫= k).
Proof.
  intros Hm Hk s Ho. apply wp_bind. eapply wp_mono; [by apply Hm|]. intros a s1 L1. assert (O1 : override_ s1 c = h) by apply L1.
  eapply wp_mono; [by apply Hk|]. intros b s2 L2. exact (leaves_trans _ _ _ L1 L2).
Qed.
Lemma leaving_when b m : leaving m -> leaving (when b m).
Proof. destruct b; [done|]. intros _. apply leaving_skip. Qed.

Hypothesis Hh : 0 <= h.

Lemma leaving_pipeline {A} (f : ST PM A) : keeping (fun m : PM => isp (trace m)) f -> leaving (on_pipeline f).
Proof using Hh. intros Hf s Ho. by apply on_pipeline_leaves. Qed.

Lemma leaving_live x v : x <> c \/ v = h -> leaving (on_pipeline (live_image (ImageControl_code x) v)).
Proof using Hh.
  intros Hx s Ho. apply with_hook_leaves; [done|done|]. apply wp_on_pm. unfold live_image. apply wp_bind, wp_gets.
  destruct (base_up _); [|by apply wp_ret; split; [done|]; exists []; apply gave_nil]. apply wp_bind, wp_gets.
  destruct (pl_image _); [|by apply wp_ret; split; [done|]; exists []; apply gave_nil].
  apply wp_bind, wp_gets, wp_bind, wp_modify, wp_ret. split; [done|]. exists [(ImageControl_code x, v)]. split; [done|].
  intros w E%list_elem_of_singleton. injection E as Hc ->. apply ImageControl_code_inj in Hc as <-. by destruct Hx.
Qed.

Ltac leave_step :=
  lazymatch goal with
  | |- leaving (_ ≫= _) => apply leaving_bind; [|intros ?]
  | |- leaving (when _ _) => apply leaving_when
  | |- leaving (let _ := _ in _) => cbv zeta
  | |- leaving (match ?x with _ => _ end) => destruct x
  | |- leaving (mret _) => apply leaving_ret
  | |- leaving skip => apply leaving_skip
  | |- leaving (gets _) => apply leaving_gets
  | |- leaving (modify _) => apply leaving_modify; intros ?; by repeat split
  | |- leaving (on_pipeline _) => apply leaving_pipeline; auto with keeping nocore
  | |- leaving _ => solve [auto with keeping nocore]
  end.
Ltac leave_go := repeat leave_step.

(** A value the checks of [apply_image] let pass. *)
Definition accepted (s : Tuning) (x : ImageControl) (v : Z) : bool :=
  image_ s && bool_decide (support (image_caps_ s x) = CapSupported) && in_range (image_caps_ s x) v && negb (is_flicker x v).

Lemma leaving_write cap x v from : (from = true -> x <> c) -> leaving (write_through cap x v from).
Proof using Hh.
  intros Hx s Ho. unfold write_through. apply wp_bind, wp_gets. destruct (0 <=? _) eqn:E; [by apply wp_ret, leaves_refl|].
  assert (Hx' : x <> c).
  { destruct from; [auto|]. intros ->. rewrite Ho in E. apply Z.leb_gt in E. lia. }
  revert s Ho E. match goal with |- forall s, _ -> _ -> wp ?m _ _ => assert (L : leaving m) end.
  { apply leaving_bind; [apply leaving_live; by left|]. intros r. leave_go. }
  intros s Ho _. by apply L.
Qed.

Lemma leaving_apply x v from : (from = true -> x <> c) -> leaving (apply_image x v false from).
Proof using Hh. intros Hx. unfold apply_image. cbn [when]. leave_go. by apply leaving_write. Qed.

Lemma apply_image_leaves x v s : override_ s c = h ->
  wp (apply_image x v true false) (fun _ s' => holds s s' /\ image_caps_ s' = image_caps_ s
    /\ requested_ s' c = if bool_decide (x = c) && accepted s x v then v else requested_ s c) s.
Proof using Hh.
  intros Ho. assert (Hsame : forall s' : Tuning, leaves s s' -> accepted s x v = false -> holds s s' /\ image_caps_ s' = image_caps_ s
    /\ requested_ s' c = if bool_decide (x = c) && accepted s x v then v else requested_ s c).
  { intros s' (L1 & L2 & L3) E. rewrite E, andb_false_r. done. }
  unfold apply_image. apply wp_bind, wp_gets, wp_bind, wp_gets. match goal with |- wp (if ?b then _ else _) _ _ => destruct b eqn:E1 end.
  { apply wp_ret, Hsame; [by apply leaves_refl|]. unfold accepted. apply orb_true_iff in E1 as [E%negb_true_iff|E%negb_true_iff]; rewrite E; [done|by rewrite andb_false_r]. }
  match goal with |- wp (if ?b then _ else _) _ _ => destruct b eqn:E2 end.
  { apply wp_ret, Hsame; [by apply leaves_refl|]. unfold accepted. apply orb_true_iff in E2 as [E%negb_true_iff|E]; rewrite E; by rewrite ?andb_false_r. }
  apply orb_false_iff in E1 as [E1%negb_false_iff E1'%negb_false_iff], E2 as [E2%negb_false_iff E2'].
  apply wp_bind. cbn [when]. apply wp_modify. set (s1 := s <| requested_ ::= _ |>).
  assert (O1 : override_ s1 c = h) by done. assert (R1 : requested_ s1 c = if bool_decide (x = c) && accepted s x v then v else requested_ s c).
  { unfold accepted. rewrite E1, E1', E2, E2'. cbn. unfold put_at. destruct (decide (c = x)) as [->|]; [by rewrite bool_decide_eq_true_2|by rewrite bool_decide_eq_false_2]. }
  assert (H1 : holds s s1) by (by apply holds_same). assert (C1 : image_caps_ s1 = image_caps_ s) by done. clearbody s1.
  assert (W : wp (write_through (image_caps_ s x) x v false) (fun _ s' => leaves s1 s') s1) by (by apply leaving_write).
  eapply wp_mono; [exact W|]. intros _ s2 (L1 & L2 & L3). split; [by eapply holds_trans|]. split; congruence.
Qed.

(** The other calls. *)
Lemma leaving_override x v : x <> c -> leaving (set_image_override x v).
Proof using Hh.
  intros Hx. assert (K : forall v s, put_at x v (override_ s) c = override_ s c) by (intros; unfold put_at; by rewrite decide_False).
  unfold set_image_override. apply leaving_bind; [apply leaving_gets|]. intros before. apply leaving_bind; [apply leaving_modify; intros s; repeat split; apply K|]. intros [].
  apply leaving_bind; [by apply leaving_apply|]. intros r. apply leaving_bind; [apply leaving_when, leaving_modify; intros s; repeat split; apply K|]. intros []. apply leaving_ret.
Qed.

Lemma leaving_clear_override x f : x <> c -> leaving (clear_image_override x f).
Proof using Hh.
  intros Hx. assert (K : forall v s, put_at x v (override_ s) c = override_ s c) by (intros; unfold put_at; by rewrite decide_False).
  unfold clear_image_override. apply leaving_bind; [apply leaving_modify; intros s; repeat split; apply K|]. intros []. leave_go. by apply leaving_apply.
Qed.

Lemma leaving_latency target req what : leaving (apply_latency target req what).
Proof using Hh. unfold apply_latency, pipeline_stream, pipeline_running, on_hub. leave_go. Qed.

Lemma leaving_change f req what : leaving (change_latency f req what).
Proof using Hh. unfold change_latency, pipeline_stream. leave_go. apply leaving_latency. Qed.

(** The other calls: none of them is about the hold of [c]. *)
Definition not_hold (k : call) : Prop := match k with SetOverride x _ | ClearOverride x _ => x <> c | _ => True end.

(** What the user set last. *)
Definition user_set (s : Tuning) (k : call) (r : Z) : Z :=
  match k with
  | SetImage x v => if bool_decide (x = c) && accepted s x v then v else r
  | ClearImage x => if bool_decide (x = c) && bool_decide (support (image_caps_ s x) = CapSupported) then -1 else r
  | _ => r
  end.

Definition step_ok (s : Tuning) (k : call) (s' : Tuning) : Prop :=
  holds s s' /\ image_caps_ s' = image_caps_ s /\ requested_ s' c = user_set s k (requested_ s c).

Lemma clear_image_leaves x s : override_ s c = h ->
  wp (clear_image x) (fun _ s' => step_ok s (ClearImage x) s') s.
Proof using Hh.
  intros Ho. unfold clear_image, step_ok, user_set. apply wp_bind, wp_gets. destruct (bool_decide (support _ = CapSupported)) eqn:E; cbn [negb].
  2: { rewrite andb_false_r. by apply wp_ret, leaves_refl. }
  rewrite andb_true_r. apply wp_bind, wp_modify. set (s1 := s <| requested_ ::= _ |> <| effective_ ::= _ |>).
  assert (H1 : holds s s1) by (by apply holds_same). assert (C1 : image_caps_ s1 = image_caps_ s) by done. assert (O1 : override_ s1 c = h) by done.
  assert (R1 : requested_ s1 c = if bool_decide (x = c) then -1 else requested_ s c).
  { unfold s1. cbn. unfold put_at. destruct (decide (c = x)) as [->|]; [by rewrite bool_decide_eq_true_2|by rewrite bool_decide_eq_false_2]. }
  clearbody s1. match goal with |- wp ?m _ _ => assert (L : leaving m) end.
  { unfold pipeline_running, pipeline_stream. leave_go. }
  eapply wp_mono; [by apply L|]. intros _ s2 (L1 & L2 & L3). split; [by eapply holds_trans|]. split; congruence.
Qed.

Lemma perform_step k s : override_ s c = h -> own k -> not_hold k -> wp (perform k) (fun _ s' => step_ok s k s') s.
Proof using Hh.
  intros Ho Hk Hn. assert (L : forall (A : Type) (m : ST Tuning A), leaving m -> (forall r, user_set s k r = r) -> wp (m ;; skip) (fun _ s' => step_ok s k s') s).
  { intros A m Hm Hu. apply wp_bind. eapply wp_mono; [by apply Hm|]. intros _ s' (L1 & L2 & L3). apply wp_skip. split; [done|]. split; [done|]. by rewrite Hu. }
  destruct k as [x v|x v|x v|x f|x|p|v|v|v|v| | | | |o]; cbn [perform].
  - apply wp_bind. wp_call (apply_image_leaves x v s Ho). intros _ s' L1. apply wp_skip. exact L1.
  - apply L; [by apply leaving_apply|done].
  - apply L; [by apply leaving_override|done].
  - eapply wp_mono; [apply (leaving_clear_override x f Hn s Ho)|]. done.
  - apply wp_bind. wp_call (clear_image_leaves x s Ho). intros _ s' L1. apply wp_skip. exact L1.
  - apply L; [unfold set_latency_profile; leave_go; apply leaving_change|done].
  - apply L; [unfold set_gop; leave_go; apply leaving_change|done].
  - apply L; [unfold set_framesource_buffers; leave_go; apply leaving_change|done].
  - apply L; [unfold set_encoder_buffers; leave_go; apply leaving_change|done].
  - apply L; [unfold set_queue_depth; leave_go; apply leaving_change|done].
  - apply L; [unfold clear_framesource_buffers; leave_go; apply leaving_change|done].
  - apply L; [unfold clear_encoder_buffers; leave_go; apply leaving_change|done].
  - apply L; [unfold clear_queue_depth; leave_go; apply leaving_change|done].
  - apply L; [unfold refresh_after_stream_change, pipeline_stream; leave_go; apply leaving_latency|done].
  - unfold elsewhere. eapply wp_mono; [apply with_hook_leaves|]; [done|done| |].
    + apply wp_modify. split; [done|]. exists []. apply gave_nil. unfold asked. cbn. apply do_quiet. intros c' v' ->. done.
    + done.
Qed.

Lemma perform_all_steps l s : override_ s c = h -> Forall own l -> Forall not_hold l ->
  wp (perform_all l) (fun _ s' => holds s s' /\ image_caps_ s' = image_caps_ s
    /\ requested_ s' c = foldl (fun r k => user_set s k r) (requested_ s c) l) s.
Proof using Hh.
  unfold perform_all. revert s. induction l as [|k l IH]; intros s Ho Hown Hn; cbn [for_each]; [by apply wp_skip, leaves_refl|].
  apply Forall_cons in Hown as [Hk Hown], Hn as [Hn1 Hn]. apply wp_bind. wp_call (perform_step k s Ho Hk Hn1). intros _ s1 (L1 & C1 & R1).
  assert (O1 : override_ s1 c = h) by apply L1. wp_call (IH s1 O1 Hown Hn). intros _ s2 (L2 & C2 & R2). split; [by eapply holds_trans|]. split; [congruence|].
  rewrite R2, R1. cbn [foldl]. assert (E : forall k r, user_set s1 k r = user_set s k r).
  { intros k' r. destruct L1 as (_ & I1 & _). unfold user_set, accepted. by rewrite I1, C1. }
  clear - E. generalize (user_set s k (requested_ s c)). induction l as [|k' l IH]; [done|]. intros r. cbn [foldl]. rewrite E. apply IH.
Qed.
End Held.

Lemma repeatedly_none s0 (m : ST Tuning unit) (n : nat) : n = O -> exec (repeatedly n m) s0 = s0.
Proof. by intros ->. Qed.

(** On a running pipeline the ISP is asked at once. *)
Lemma live_asks c v s : base_up (mgr (pipeline_ s)) = true -> pl_image (trace (mgr (pipeline_ s))) = true ->
  wp (on_pipeline (live_image (ImageControl_code c) v)) (fun _ s' => fixed s' = fixed s /\ asked s' = (ImageControl_code c, v) :: asked s) s.
Proof.
  intros Hb Hi. unfold on_pipeline, with_hook. apply wp_bind, wp_gets, wp_bind, wp_on_pm. unfold live_image. apply wp_bind, wp_gets. rewrite Hb.
  apply wp_bind, wp_gets. rewrite Hi. apply wp_bind, wp_gets, wp_bind, wp_modify, wp_ret. set (s1 := s <| pipeline_ ::= _ |>).
  assert (E : fixed s1 = fixed s /\ asked s1 = (ImageControl_code c, v) :: asked s /\ hook_calls (trace (mgr (pipeline_ s1))) = hook_calls (trace (mgr (pipeline_ s)))) by done.
  clearbody s1. destruct E as (E1 & E2 & E3). apply wp_bind, wp_gets, wp_bind. rewrite E3, Nat.sub_diag. by apply wp_skip, wp_ret.
Qed.

(** *** The members nothing but the calls themselves sets *)

Lemma keeping_on_pm {A} (f : ST PM A) : keeping fixed (on_pm f).
Proof. intros s. unfold exec, on_pm. by destruct (f (mgr (pipeline_ s))). Qed.
#[local] Hint Resolve keeping_on_pm : keeping.

Lemma keeping_hook : keeping fixed apply_images_after_start.
Proof. unfold apply_images_after_start. keep_go. apply keeping_for_each. intros c. keep_go. Qed.

Lemma keeping_with_hook {A} (f : ST Tuning A) : keeping fixed f -> keeping fixed (with_hook f).
Proof.
  intros Hf. unfold with_hook. apply keeping_bind; [apply keeping_gets|]. intros n. apply keeping_bind; [done|]. intros a. apply keeping_bind; [apply keeping_gets|]. intros n'.
  apply keeping_bind; [|intros; apply keeping_ret]. induction (n' - n)%nat as [|k IH]; cbn [repeatedly]; [apply keeping_skip|]. apply keeping_bind; [apply keeping_hook|done].
Qed.

Lemma keeping_on_pipeline {A} (f : ST PM A) : keeping fixed (on_pipeline f).
Proof. apply keeping_with_hook, keeping_on_pm. Qed.
#[local] Hint Resolve keeping_on_pipeline : keeping.

Lemma keeping_write cap c v from : keeping fixed (write_through cap c v from).
Proof. unfold write_through. keep_go. Qed.
#[local] Hint Resolve keeping_write : keeping.

Lemma keeping_apply c v from : keeping fixed (apply_image c v false from).
Proof. unfold apply_image. cbn [when]. keep_go. Qed.

(** A control that is not held and passes the checks is handed to a running ISP. *)
Lemma apply_asks c v s : accepted s c v = true -> override_ s c < 0 -> base_up (mgr (pipeline_ s)) = true -> pl_image (trace (mgr (pipeline_ s))) = true ->
  wp (apply_image c v false false) (fun _ s' => asked s' = (ImageControl_code c, v) :: asked s) s.
Proof.
  intros Ha Ho Hb Hi. unfold accepted in Ha. apply andb_true_iff in Ha as [Ha F%negb_true_iff]. apply andb_true_iff in Ha as [Ha R].
  apply andb_true_iff in Ha as [I S]. unfold apply_image. apply wp_bind, wp_gets, wp_bind, wp_gets. rewrite I, S, R, F. cbn [negb orb when].
  apply wp_bind, wp_skip. unfold write_through. apply wp_bind, wp_gets. apply Z.leb_gt in Ho. rewrite Ho. apply wp_bind.
  wp_call (live_asks c v s Hb Hi). intros r s1 (_ & E). repeat case_match; try apply wp_ret; try done.
Qed.

(** The hold ends: the user's value, or the fallback, is back. *)
Lemma clear_override_gives_back c fallback s :
  let back := if requested_ s c <? 0 then fallback else requested_ s c in
  wp (clear_image_override c fallback) (fun _ s' => override_ s' c = -1 /\ requested_ s' = requested_ s
    /\ (accepted s c back = true -> 0 <= back -> base_up (mgr (pipeline_ s)) = true -> pl_image (trace (mgr (pipeline_ s))) = true ->
        asked s' = (ImageControl_code c, back) :: asked s)) s.
Proof.
  intros back. unfold clear_image_override. apply wp_bind, wp_modify. set (s1 := s <| override_ ::= _ |>).
  assert (O1 : override_ s1 c = -1) by (unfold s1; cbn; unfold put_at; by rewrite decide_True).
  assert (F1 : requested_ s1 = requested_ s /\ pipeline_ s1 = pipeline_ s /\ accepted s1 c back = accepted s c back) by done. clearbody s1.
  destruct F1 as (R1 & P1 & A1). apply wp_bind, wp_gets. rewrite R1. fold back. apply wp_when; intros Hb.
  2: { split; [done|]. split; [done|]. intros _ Hb'. apply Z.leb_gt in Hb. lia. }
  apply wp_bind. assert (W : wp (apply_image c back false false) (fun _ s' => fixed s' = fixed s1 /\ (accepted s c back = true -> base_up (mgr (pipeline_ s)) = true ->
    pl_image (trace (mgr (pipeline_ s))) = true -> asked s' = (ImageControl_code c, back) :: asked s)) s1).
  { apply wp_conj; [apply keeping_apply|]. destruct (decide (accepted s c back = true /\ base_up (mgr (pipeline_ s)) = true /\ pl_image (trace (mgr (pipeline_ s))) = true)) as [(H1 & H2 & H3)|Hn].
    - rewrite <- P1 in H2, H3. wp_call (apply_asks c back s1); [congruence|lia|done|done|]. intros _ s2 E _ _ _. rewrite E. unfold asked. by rewrite P1.
    - apply (wp_mono _ (fun _ _ => True)); [done|]. intros. tauto. }
  eapply wp_mono; [exact W|]. intros _ s2 (F & E). apply wp_skip. unfold fixed in F. injection F as -> _ _ ->. split; [done|]. split; [done|]. intros; by apply E.
Qed.


(** ** The latency preset *)

Definition main_stream (s : Tuning) : EffectiveStream := stream (main (mgr (pipeline_ s))).

(** The stream a target asks for. *)
Definition retuned (x : EffectiveStream) (t : ResolvedLatency) : EffectiveStream :=
  x <| gop := rl_gop t |> <| buffers := rl_fs_buffers t |> <| encoder_buffers := rl_enc_buffers t |>.

Lemma keeping_on_pm_stream {A} (f : ST PM A) : keeping (fun m : PM => stream (main m)) f -> keeping main_stream (on_pm f).
Proof. intros Hf s. unfold keeping, main_stream, exec, on_pm in *. specialize (Hf (mgr (pipeline_ s))). by destruct (f (mgr (pipeline_ s))). Qed.

Lemma keeping_hook_stream : keeping main_stream apply_images_after_start.
Proof.
  unfold apply_images_after_start. keep_go. apply keeping_for_each. intros c. keep_go.
  apply keeping_on_pm_stream. unfold image_set. keep_go. by apply keeping_modify.
Qed.

(** Hooks see the new stream and leave it. *)
Lemma with_hook_stream {A} (f : ST Tuning A) (Q : A -> EffectiveStream -> Prop) s :
  wp f (fun a s1 => Q a (main_stream s1)) s -> wp (with_hook f) (fun a s' => Q a (main_stream s')) s.
Proof.
  intros Hf. unfold with_hook. apply wp_bind, wp_gets, wp_bind. eapply wp_mono; [exact Hf|]. intros a s1 H1. apply wp_bind, wp_gets, wp_bind.
  assert (K : keeping main_stream (repeatedly (hook_calls (trace (mgr (pipeline_ s1))) - hook_calls (trace (mgr (pipeline_ s)))) apply_images_after_start)).
  { induction (_ - _)%nat as [|k IH]; cbn [repeatedly]; [apply keeping_skip|]. apply keeping_bind; [apply keeping_hook_stream|done]. }
  eapply wp_mono; [apply (keeping_wp _ _ s1 K)|]. cbv beta. intros _ s2 E. apply wp_ret. by rewrite E.
Qed.

Lemma update_stream_stream x b m : wp (update_stream x b) (fun _ m' => stream (main m') = x) m.
Proof.
  unfold update_stream. apply wp_bind, wp_modify. set (m1 := upd_unit Main _ m). assert (E : stream (main m1) = x) by done. clearbody m1.
  match goal with |- wp ?f _ _ => assert (K : keeping (fun m : PM => stream (main m)) f) end.
  { apply keeping_bind; [apply keeping_gets|]. intros m2. destruct (_ || _); [apply keeping_ret|]. cbv zeta.
    assert (T : forall A (f : ST PM A), keeping (fun m : PM => (isp (trace m), stream (main m))) f -> keeping (fun m : PM => stream (main m)) f) by (intros A f Hf m3; by injection (Hf m3)).
    assert (T1 : forall y, keeping (fun m : PM => stream (main m)) (transition y)) by (intros; apply T, still_transition).
    assert (T2 : keeping (fun m : PM => stream (main m)) stop_base_locked) by apply T, still_stop_base.
    assert (T3 : keeping (fun m : PM => stream (main m)) (start_base_locked UNIT_MAIN)) by apply T, still_start_base. clear T.
    assert (T4 : forall e, keeping (fun m : PM => stream (main m)) (emit e)) by done. keep_go. }
  eapply wp_mono; [apply (keeping_wp _ _ m1 K)|]. cbv beta. intros _ m' E'. congruence.
Qed.

Lemma live_gop_stream v m : wp (live_gop v) (fun r m' => if is_ok r.1 then stream (main m') = stream (main m) <| gop := v |> /\ r.2 = v /\ 1 <= v else stream (main m') = stream (main m)) m.
Proof.
  unfold live_gop. apply wp_bind, wp_gets. destruct (_ || _) eqn:E; [by apply wp_ret|]. apply orb_false_iff in E as [E%Z.ltb_ge _].
  destruct (base_up m), (enc (main m)); try by apply wp_ret. apply wp_bind, wp_gets, wp_bind, wp_modify. destruct (is_ok _) eqn:Ek.
  - apply wp_bind, wp_modify, wp_ret. cbn [fst snd]. by rewrite Ek.
  - apply wp_ret. cbn [fst]. by rewrite Ek.
Qed.

Lemma stream_eta (x : EffectiveStream) g b e : gop x = g -> buffers x = b -> encoder_buffers x = e -> x <| gop := g |> <| buffers := b |> <| encoder_buffers := e |> = x.
Proof. intros <- <- <-. by destruct x. Qed.

(** The members [apply_latency] works on: hooks do not. *)
Definition latencies (s : Tuning) := (latency_ s, resolved_ s, base_ s, hub_ s).

Lemma keeping_latencies_hook : keeping latencies apply_images_after_start.
Proof.
  unfold apply_images_after_start. keep_go. apply keeping_for_each. intros c. keep_go.
  intros m. unfold exec, on_pm. by destruct (image_set _ _ _).
Qed.

Lemma keeping_latencies {A} (f : ST PM A) : keeping latencies (on_pipeline f).
Proof.
  unfold on_pipeline, with_hook. apply keeping_bind; [apply keeping_gets|]. intros n. apply keeping_bind.
  { intros s. unfold exec, on_pm. by destruct (f (mgr (pipeline_ s))). }
  intros a. apply keeping_bind; [apply keeping_gets|]. intros n'. apply keeping_bind; [|intros; apply keeping_ret].
  induction (n' - n)%nat as [|k IH]; cbn [repeatedly]; [apply keeping_skip|]. apply keeping_bind; [apply keeping_latencies_hook|done].
Qed.

Lemma on_pipeline_stream {A} (f : ST PM A) (Q : A -> EffectiveStream -> Prop) s :
  wp f (fun a m => Q a (stream (main m))) (mgr (pipeline_ s)) ->
  wp (on_pipeline f) (fun a s' => Q a (main_stream s') /\ latencies s' = latencies s /\ fixed s' = fixed s) s.
Proof.
  intros Hf. apply wp_conj; [|apply wp_conj; [apply keeping_latencies|apply keeping_on_pipeline]].
  apply with_hook_stream, wp_on_pm. eapply wp_mono; [exact Hf|]. done.
Qed.

Lemma apply_latency_spec target req what s :
  wp (apply_latency target req what) (fun r s' =>
    latency_ s' = latency_ s /\ base_ s' = base_ s /\ fixed s' = fixed s
    /\ hub_ s' = exec (Hub.set_default_depth (Z.to_nat (u32 (rl_depth target)))) (hub_ s)
    /\ if ar_ok r then resolved_ s' = target /\ main_stream s' = retuned (main_stream s) target else resolved_ s' = resolved_ s) s.
Proof.
  unfold apply_latency. apply wp_bind, wp_gets. cbv zeta. change (stream_unit UNIT_MAIN (mgr (pipeline_ s))) with (main_stream s). set (x := main_stream s).
  apply wp_bind, wp_modify. set (s1 := s <| hub_ ::= _ |>). set (hub' := exec (Hub.set_default_depth (Z.to_nat (u32 (rl_depth target)))) (hub_ s)).
  assert (E1 : latencies s1 = (latency_ s, resolved_ s, base_ s, hub') /\ fixed s1 = fixed s /\ main_stream s1 = x) by done. clearbody s1. destruct E1 as (L1 & F1 & X1).
  apply wp_bind, wp_gets. set (running := base_up _). clearbody running. apply wp_bind.
  change (x <| gop := rl_gop target |> <| buffers := rl_fs_buffers target |> <| encoder_buffers := rl_enc_buffers target |>) with (retuned x target).
  set (restart_change := negb (buffers x =? rl_fs_buffers target) || negb (encoder_buffers x =? rl_enc_buffers target)). set (gop_change := negb (gop x =? rl_gop target)).
  apply (wp_mono _ (fun out s2 => latencies s2 = latencies s1 /\ fixed s2 = fixed s1
    /\ match out with inl g => g = rl_gop target /\ main_stream s2 = retuned x target | inr e => ar_ok e = false end)).
  - destruct restart_change eqn:Er.
    { apply wp_bind. wp_call (on_pipeline_stream (update_stream (retuned x target) running) (fun _ y => y = retuned x target) s1 (update_stream_stream _ _ _)).
      intros r s2 (X2 & L2 & F2). apply wp_bind, wp_gets, wp_ret. split; [done|]. split; [done|]. by destruct (is_ok r). }
    unfold restart_change in Er. apply orb_false_iff in Er as [B1%negb_false_iff%Z.eqb_eq B2%negb_false_iff%Z.eqb_eq].
    assert (Kg : forall y, y = x <| gop := rl_gop target |> -> y = retuned x target) by (intros y ->; unfold retuned; rewrite <- B1, <- B2; by destruct x).
    destruct (gop_change && running) eqn:Eg.
    { apply wp_bind. rewrite <- X1 in Kg. wp_call (on_pipeline_stream (live_gop (rl_gop target)) (fun r y => if is_ok r.1 then y = main_stream s1 <| gop := rl_gop target |> /\ r.2 = rl_gop target /\ 1 <= rl_gop target else y = main_stream s1) s1 (live_gop_stream _ _)).
      intros r s2 (X2 & L2 & F2). apply wp_ret. split; [done|]. split; [done|]. destruct (is_ok r.1); [|done]. destruct X2 as (X2 & -> & Hg).
      rewrite <- X1. split; [|by apply Kg]. destruct (0 <? rl_gop target) eqn:E0; [done|]. apply Z.ltb_ge in E0. lia. }
    destruct gop_change eqn:Eg'.
    { apply wp_bind. wp_call (on_pipeline_stream (update_stream (retuned x target) false) (fun _ y => y = retuned x target) s1 (update_stream_stream _ _ _)).
      intros r s2 (X2 & L2 & F2). apply wp_ret. split; [done|]. split; [done|]. by destruct (is_ok r). }
    apply wp_ret. split; [done|]. split; [done|]. split; [done|]. rewrite X1. apply Kg. unfold gop_change in Eg'. apply negb_false_iff, Z.eqb_eq in Eg'.
    rewrite <- Eg'. by destruct x.
  - intros [g|e] s2 (L2 & F2 & O); rewrite L1 in L2; unfold latencies in L2; injection L2 as La Re Ba Hu; rewrite F1 in F2.
    + destruct O as [-> X2]. apply wp_bind, wp_modify, wp_ret. split; [done|]. split; [done|]. split; [done|]. split; [done|].
      match goal with |- if ar_ok ?r then _ else _ => assert (Ok : ar_ok r = true) by (by destruct (_ && _)) end. rewrite Ok. split; [|exact X2].
      cbn. destruct (running && gop_change && negb restart_change); [by destruct target|done].
    + apply wp_ret. rewrite O. done.
Qed.

(** Latency settings.  A setter refuses what is out of range and then changes
    nothing.  Otherwise the setting is recorded; what is asked of the pipeline is the
    preset with every explicit value winning over it; and a success means that the
    resolved values, the main stream handed to the pipeline and the depth of new
    consumers' queues are exactly that, all other parameters of the stream as they
    were.  Image controls and holds are never touched. *)
Theorem latency_takes_effect (f : LatencySettings -> LatencySettings) (req : Z) (what : string) (s : Tuning) :
  let target := resolve_locked (base_ s) (f (latency_ s)) (main_stream s) in
  let r := result (change_latency f req what) s in
  let s' := exec (change_latency f req what) s in
  latency_ s' = f (latency_ s) /\ fixed s' = fixed s
  /\ Hub.default_depth (hub_ s') = Nat.max 1 (Z.to_nat (u32 (rl_depth target)))
  /\ (ar_ok r = true -> resolved_ s' = target /\ main_stream s' = retuned (main_stream s) target)
  /\ (ar_ok r = false -> resolved_ s' = resolved_ s)
  /\ (forall v, ls_gop (f (latency_ s)) = Some v -> rl_gop target = v)
  /\ (forall v, ls_fs_buffers (f (latency_ s)) = Some v -> rl_fs_buffers target = v)
  /\ (forall v, ls_enc_buffers (f (latency_ s)) = Some v -> rl_enc_buffers target = v)
  /\ (forall v, ls_depth (f (latency_ s)) = Some v -> rl_depth target = v)
  /\ (ls_profile (f (latency_ s)) = Low -> ls_gop (f (latency_ s)) = None -> rl_gop target = Z.max 1 (fps (main_stream s)))
  /\ (forall v, v < 1 \/ 1000 < v -> exec (set_gop v) s = s /\ ar_ok (result (set_gop v) s) = false)
  /\ (forall v, v < 1 \/ 8 < v -> exec (set_framesource_buffers v) s = s /\ exec (set_encoder_buffers v) s = s)
  /\ (forall v, v < 1 \/ 32 < v -> exec (set_queue_depth v) s = s /\ ar_ok (result (set_queue_depth v) s) = false).
Proof.
  intros target r s'.
  assert (W : wp (change_latency f req what) (fun r s' => latency_ s' = f (latency_ s) /\ base_ s' = base_ s /\ fixed s' = fixed s
    /\ hub_ s' = exec (Hub.set_default_depth (Z.to_nat (u32 (rl_depth target)))) (hub_ s)
    /\ if ar_ok r then resolved_ s' = target /\ main_stream s' = retuned (main_stream s) target else resolved_ s' = resolved_ s) s).
  { unfold change_latency. apply wp_bind, wp_gets, wp_bind, wp_modify, wp_bind, wp_gets. exact (apply_latency_spec target req what (s <| latency_ ::= f |>)). }
  destruct W as (W1 & W2 & W3 & W4 & W5). fold r s' in W1, W2, W3, W4, W5. split; [exact W1|]. split; [exact W3|]. split; [rewrite W4; cbn; case_decide; lia|].
  split; [intros E; by rewrite E in W5|]. split; [intros E; by rewrite E in W5|].
  assert (Out : forall v lo hi, v < lo \/ hi < v -> (v <? lo) || (hi <? v) = true) by (intros v lo hi [H1|H1]; apply orb_true_iff; rewrite !Z.ltb_lt; auto).
  split_and!; try (intros v Hv; unfold target, resolve_locked; destruct (f (latency_ s)) as [[] [] [] [] []]; cbn in *; congruence);
    try (intros v Hv; unfold exec, result, set_gop, set_framesource_buffers, set_encoder_buffers, set_queue_depth; rewrite (Out v _ _ Hv); by repeat split).
  unfold target, resolve_locked. intros Hp Hg. rewrite decide_True by done. rewrite Hg.
  by destruct (ls_fs_buffers (f (latency_ s))), (ls_enc_buffers (f (latency_ s))), (ls_depth (f (latency_ s))).
Qed.
End Programme.

(** ** Any call, for the user's value *)

Section Frames.
Context `{Platform}.
#[local] Hint Resolve keeping_on_pipeline keeping_write : keeping.

(** Any call, held or not: the user's value and the holds of other controls. *)
Lemma keeping_set_image c v s : wp (apply_image c v true false) (fun _ s' => override_ s' = override_ s /\ image_ s' = image_ s /\ image_caps_ s' = image_caps_ s
  /\ requested_ s' = if accepted s c v then put_at c v (requested_ s) else requested_ s) s.
Proof.
  unfold apply_image, accepted. apply wp_bind, wp_gets, wp_bind, wp_gets.
  destruct (image_ s) eqn:I; [|by apply wp_ret]. destruct (bool_decide (support (image_caps_ s c) = CapSupported)) eqn:S; [|by apply wp_ret].
  destruct (in_range (image_caps_ s c) v) eqn:R; [|by apply wp_ret]. destruct (is_flicker c v) eqn:F; [by apply wp_ret|]. cbn [negb orb andb when].
  apply wp_bind, wp_modify. set (s1 := s <| requested_ ::= _ |>). assert (F1 : fixed s1 = (override_ s, true, image_caps_ s, put_at c v (requested_ s))) by (unfold fixed; by rewrite <- I).
  clearbody s1. eapply wp_mono; [apply (keeping_wp _ _ s1 (keeping_write (image_caps_ s c) c v false))|]. cbv beta. intros _ s2 F2. rewrite F1 in F2.
  unfold fixed in F2. by injection F2 as -> -> -> ->.
Qed.

Lemma keeping_latency target req what : keeping fixed (apply_latency target req what).
Proof. intros s. exact (proj1 (proj2 (proj2 (apply_latency_spec target req what s)))). Qed.
#[local] Hint Resolve keeping_latency : keeping.

Lemma keeping_change f req what : keeping fixed (change_latency f req what).
Proof. unfold change_latency, pipeline_stream. keep_go. Qed.
#[local] Hint Resolve keeping_change : keeping.

Lemma keeping_elsewhere o : keeping fixed (elsewhere o).
Proof. apply keeping_with_hook. by apply keeping_modify. Qed.
#[local] Hint Resolve keeping_elsewhere : keeping.

Lemma set_override_frame c x v s : wp (set_image_override x v) (fun r s' => image_ s' = image_ s /\ image_caps_ s' = image_caps_ s /\ requested_ s' = requested_ s
  /\ (x <> c -> override_ s' c = override_ s c) /\ (x = c -> override_ s' c = if ar_ok r then v else override_ s c)) s.
Proof.
  unfold set_image_override. apply wp_bind, wp_gets, wp_bind, wp_modify. set (s1 := s <| override_ ::= _ |>).
  assert (F1 : fixed s1 = (put_at x v (override_ s), image_ s, image_caps_ s, requested_ s)) by done. clearbody s1.
  apply wp_bind. eapply wp_mono; [apply (keeping_wp _ _ s1 (keeping_apply x v true))|]. cbv beta. intros r s2 F2. rewrite F1 in F2. injection F2 as O2 I2 C2 R2.
  apply wp_bind. destruct (ar_ok r) eqn:Ek; cbn [negb when].
  - apply wp_skip, wp_ret. rewrite Ek, O2. split_and!; try done; unfold put_at; intros ?; first [by rewrite decide_True by done|by rewrite decide_False by done].
  - apply wp_modify, wp_ret. rewrite Ek. split_and!; try done; cbn; rewrite O2; unfold put_at; intros ?; [rewrite !decide_False by done|subst x; rewrite decide_True by done]; done.
Qed.

Lemma clear_override_frame c x f s : wp (clear_image_override x f) (fun _ s' => image_ s' = image_ s /\ image_caps_ s' = image_caps_ s /\ requested_ s' = requested_ s
  /\ (x <> c -> override_ s' c = override_ s c) /\ (x = c -> override_ s' c = -1)) s.
Proof.
  unfold clear_image_override. apply wp_bind, wp_modify. set (s1 := s <| override_ ::= _ |>).
  assert (F1 : fixed s1 = (put_at x (-1) (override_ s), image_ s, image_caps_ s, requested_ s)) by done. clearbody s1.
  match goal with |- wp ?m _ _ => assert (K : keeping fixed m) end.
  { keep_go. apply keeping_apply. }
  eapply wp_mono; [apply (keeping_wp _ _ s1 K)|]. cbv beta. intros _ s2 F2. rewrite F1 in F2. unfold fixed in F2. injection F2 as -> -> -> ->.
  split_and!; try done; unfold put_at; intros ?; first [by rewrite decide_True by done|by rewrite decide_False by done].
Qed.

Lemma clear_image_frame x s : wp (clear_image x) (fun _ s' => override_ s' = override_ s /\ image_ s' = image_ s /\ image_caps_ s' = image_caps_ s
  /\ requested_ s' = if bool_decide (support (image_caps_ s x) = CapSupported) then put_at x (-1) (requested_ s) else requested_ s) s.
Proof.
  unfold clear_image. apply wp_bind, wp_gets. destruct (bool_decide _); [|by apply wp_ret]. cbn [negb]. apply wp_bind, wp_modify.
  set (s1 := s <| requested_ ::= _ |> <| effective_ ::= _ |>). assert (F1 : fixed s1 = (override_ s, image_ s, image_caps_ s, put_at x (-1) (requested_ s))) by done. clearbody s1.
  match goal with |- wp ?m _ _ => assert (K : keeping fixed m) end.
  { unfold pipeline_running, pipeline_stream. keep_go. }
  eapply wp_mono; [apply (keeping_wp _ _ s1 K)|]. cbv beta. intros _ s2 F2. rewrite F1 in F2. unfold fixed in F2. by injection F2 as -> -> -> ->.
Qed.

Definition framed (c : ImageControl) (s : Tuning) (k : call) (s' : Tuning) : Prop :=
  image_ s' = image_ s /\ image_caps_ s' = image_caps_ s /\ requested_ s' c = user_set c s k (requested_ s c) /\ (not_hold c k -> override_ s' c = override_ s c).

Lemma perform_framed c k s : wp (perform k) (fun _ s' => framed c s k s') s.
Proof.
  assert (L : forall (A : Type) (m : ST Tuning A), keeping fixed m -> (forall r, user_set c s k r = r) -> wp (m ;; skip) (fun _ s' => framed c s k s') s).
  { intros A m Hm Hu. apply wp_bind. eapply wp_mono; [apply (keeping_wp _ _ s Hm)|]. cbv beta. intros _ s' F. apply wp_skip. unfold fixed in F.
    injection F as E1 E2 E3 E4. unfold framed. rewrite Hu, E1, E2, E3, E4. done. }
  destruct k as [x v|x v|x v|x f|x|p|v|v|v|v| | | | |o]; cbn [perform].
  - apply wp_bind. wp_call (keeping_set_image x v s). intros _ s' (E1 & E2 & E3 & E4). apply wp_skip. unfold framed, user_set. rewrite E1, E2, E3, E4.
    split; [done|]. split; [done|]. split; [|done]. unfold put_at. destruct (accepted s x v); [|by rewrite andb_false_r].
    rewrite andb_true_r. destruct (decide (c = x)) as [->|]; [by rewrite bool_decide_eq_true_2|by rewrite bool_decide_eq_false_2].
  - apply L; [apply keeping_apply|done].
  - apply wp_bind. wp_call (set_override_frame c x v s). intros r s' (E1 & E2 & E3 & E4 & _). apply wp_skip. unfold framed. rewrite E1, E2, E3. done.
  - wp_call (clear_override_frame c x f s). intros _ s' (E1 & E2 & E3 & E4 & _). unfold framed. rewrite E1, E2, E3. done.
  - apply wp_bind. wp_call (clear_image_frame x s). intros _ s' (E1 & E2 & E3 & E4). apply wp_skip. unfold framed, user_set. rewrite E1, E2, E3, E4.
    split; [done|]. split; [done|]. split; [|done]. unfold put_at. destruct (bool_decide (support _ = CapSupported)); [|by rewrite andb_false_r].
    rewrite andb_true_r. destruct (decide (c = x)) as [->|]; [by rewrite bool_decide_eq_true_2|by rewrite bool_decide_eq_false_2].
  - apply L; [unfold set_latency_profile; keep_go|done].
  - apply L; [unfold set_gop; keep_go|done].
  - apply L; [unfold set_framesource_buffers; keep_go|done].
  - apply L; [unfold set_encoder_buffers; keep_go|done].
  - apply L; [unfold set_queue_depth; keep_go|done].
  - apply L; [unfold clear_framesource_buffers; keep_go|done].
  - apply L; [unfold clear_encoder_buffers; keep_go|done].
  - apply L; [unfold clear_queue_depth; keep_go|done].
  - apply L; [unfold refresh_after_stream_change, pipeline_stream; keep_go|done].
  - eapply wp_mono; [apply (keeping_wp _ _ s (keeping_elsewhere o))|]. cbv beta. intros _ s' F. unfold fixed in F. injection F as E1 E2 E3 E4.
    unfold framed. rewrite E1, E2, E3, E4. done.
Qed.

End Frames.

(** A camera that is watched while the night holds its running mode at 1. *)
Definition any_control (c : ImageControl) : RangeCap := {| support := CapSupported; cap_min := 0; cap_max := 255; cap_apply := Live |}.
Definition no_settings : ImageSettings :=
  {| brightness := Some 128; contrast := None; saturation := None; sharpness := None; hue := None; hflip := None; vflip := None; anti_flicker := None;
     ae_compensation := None; highlight_depress := None; backlight_comp := None; white_balance_mode := None; running_mode := None;
     temporal_nr := None; spatial_nr := None; dpc := None; defog := None |}.
Definition tuned : Tuning :=
  @make_tuning perfect (init EffectiveStream_default (mkLifecycleConfig 5000 500)) Hub.make true any_control EffectiveStream_default no_settings
    {| ls_profile := Low; ls_gop := None; ls_fs_buffers := None; ls_enc_buffers := None; ls_depth := Some 2 |}.
Definition at_night : Tuning := exec (@set_image_override perfect RunningMode 1) tuned.
Definition evening : list call := [Elsewhere (Acquire 0 Rtsp); SetImage RunningMode 0; SetImageLive Brightness 140; SetGop 50].

(** The start hands over the brightness saved and the mode held; the user's own mode waits. *)
Example evening_seen : let s := exec (@perform_all perfect evening) at_night in
  asked s = [(0, 140); (12, 1); (0, 128)] /\ requested_ s RunningMode = 0 /\ main_stream s = EffectiveStream_default <| gop := 50 |> <| buffers := 1 |> <| encoder_buffers := 1 |>
  /\ asked (exec (@clear_image_override perfect RunningMode 0) s) = [(12, 0); (0, 140); (12, 1); (0, 128)].
Proof. by vm_compute. Qed.

