(* ===== verification/StateStore.v ===== *)
(** * The durable key/value store

    [core/state_store.{hpp,cpp}]: the interface [IStateStore] as a class of
    operations with the laws its comments promise, and [FileStateStore] on the
    system calls it makes.  Users of the store are proved against the laws. *)

From S2P Require Import Prelude Text.

(** ** [IStateStore] *)

Class StateStore (S : Type) := {
  ss_load : string -> S -> option text;
  ss_save : string -> text -> ST S bool;
  ss_clear : string -> ST S unit
}.

(** [valid] are the keys the store keeps apart. *)
Class StateStoreLaws (S : Type) `{StateStore S} (valid : string -> Prop) := {
  ss_save_true : forall k v s, valid k ->
    wp (ss_save k v) (fun ok s' => ok = true -> ss_load k s' = Some v) s;
  ss_save_atomic : forall k v s, valid k ->
    wp (ss_save k v) (fun _ s' => ss_load k s' = Some v \/ ss_load k s' = ss_load k s) s;
  ss_save_other : forall k k' v s, valid k -> valid k' -> k' <> k ->
    wp (ss_save k v) (fun _ s' => ss_load k' s' = ss_load k' s) s;
  ss_clear_self : forall k s, valid k ->
    wp (ss_clear k) (fun _ s' => ss_load k s' = None \/ ss_load k s' = ss_load k s) s;
  ss_clear_other : forall k k' s, valid k -> valid k' -> k' <> k ->
    wp (ss_clear k) (fun _ s' => ss_load k' s' = ss_load k' s) s
}.

(** ** [FileStateStore] *)

Module FileStateStore.

(** The system calls on the files of the store, with their outcomes. *)
Inductive syscall :=
| OpenTrunc (p : text) (ok : bool)              (* open(O_CREAT|O_TRUNC) *)
| Write (p : text) (chunk : text)               (* write(): the bytes taken *)
| WriteFailed (p : text) (eintr : bool)
| Fsync (p : text) (ok : bool)
| Close (p : text) (ok : bool)
| Rename (a b : text) (ok : bool)
| Unlink (p : text) (ok : bool)
| FsyncDir (ok : bool).

(** What a write can answer: how many bytes it took, or an error. *)
Inductive write_answer := Wrote (n : nat) | WriteError (eintr : bool).

(** The kernel: its answers as functions of the calls made before. *)
Class Posix := {
  px_open : list syscall -> text -> bool;
  px_write : list syscall -> text -> write_answer;
  px_fsync : list syscall -> text -> bool;
  px_close : list syscall -> text -> bool;
  px_rename : list syscall -> bool;
  px_unlink : list syscall -> text -> bool;
  px_fsync_dir : list syscall -> bool            (* the result of [fsync_directory] *)
}.

(** The files: what a reader sees. *)
Definition fs_step (f : gmap text text) (c : syscall) : gmap text text :=
  match c with
  | OpenTrunc p true => <[p := []]> f
  | Write p chunk => alter (fun v => v ++ chunk) p f
  | Rename a b true =>
      match f !! a with
      | Some v => <[b := v]> (delete a f)
      | None => f
      end
  | Unlink p true => delete p f
  | _ => f
  end.

Record t := mk { dir : text; files : gmap text text; calls : list syscall }.

#[export] Instance eta : Settable t := fun r => mk (dir r) (files r) (calls r).

Definition flatten (c : ascii) : ascii :=
  if Ascii.eqb c "/" || Ascii.eqb c "\" || Ascii.eqb c "." then "_"%char else c.

(** [path_for]. *)
Definition path_for (d : text) (key : string) : text :=
  d ++ txt "/" ++ map flatten (txt key) ++ txt ".state".

Section File.
Context `{Posix}.

Definition issue (c : syscall) : ST t unit :=
  modify (fun s => s <| files := fs_step (files s) c |> <| calls ::= cons c |>).

Definition answer {A} (f : list syscall -> A) : ST t A := gets (fun s => f (calls s)).

(** The write loop of [write_durably]; [None] when the fuel is used up: the
    kernel answered [EINTR] or 0 that often. *)
Fixpoint write_loop (fuel : nat) (p : text) (rest : text) : ST t (option bool) :=
  match rest with
  | [] => mret (Some true)
  | _ :: _ =>
      match fuel with
      | O => mret None
      | S fuel' =>
          a ← answer (fun h => px_write h p);
          match a with
          | Wrote n =>
              issue (Write p (take n rest)) ;;
              write_loop fuel' p (drop n rest)
          | WriteError eintr =>
              issue (WriteFailed p eintr) ;;
              if eintr then write_loop fuel' p rest else mret (Some false)
          end
      end
  end.

(** [write_durably]. *)
Definition write_durably (fuel : nat) (p : text) (v : text) : ST t bool :=
  ok ← answer (fun h => px_open h p);
  issue (OpenTrunc p ok) ;;
  if negb ok then mret false else
  r ← write_loop fuel p v;
  match r with
  | Some true =>
      ok ← answer (fun h => px_fsync h p);
      issue (Fsync p ok) ;;
      if negb ok then
        c ← answer (fun h => px_close h p);
        issue (Close p c) ;;
        mret false
      else
        ok ← answer (fun h => px_close h p);
        issue (Close p ok) ;;
        mret ok
  | _ =>
      c ← answer (fun h => px_close h p);
      issue (Close p c) ;;
      mret false
  end.

(** [FileStateStore::save]. *)
Definition save (fuel : nat) (key : string) (v : text) : ST t bool :=
  d ← gets dir;
  let final_path := path_for d key in
  let tmp_path := final_path ++ txt ".tmp" in
  ok ← write_durably fuel tmp_path v;
  if negb ok then mret false else
  ok ← answer px_rename;
  issue (Rename tmp_path final_path ok) ;;
  if negb ok then
    u ← answer (fun h => px_unlink h tmp_path);
    issue (Unlink tmp_path u) ;;
    mret false
  else
    ok ← answer px_fsync_dir;
    issue (FsyncDir ok) ;;
    mret ok.

(** [FileStateStore::load]: an unreadable file is an absent key. *)
Definition load (key : string) (s : t) : option text := files s !! path_for (dir s) key.

(** [FileStateStore::clear]. *)
Definition clear (key : string) : ST t unit :=
  d ← gets dir;
  u ← answer (fun h => px_unlink h (path_for d key));
  issue (Unlink (path_for d key) u) ;;
  ok ← answer px_fsync_dir;
  issue (FsyncDir ok).

(** *** What a save does to the files *)

(** The files after the calls [new] (newest first). *)
Definition replay (f : gmap text text) (new : list syscall) : gmap text text :=
  foldr (fun c f => fs_step f c) f new.

(** Calls that concern no other file than [p]. *)
Definition only (p : text) (c : syscall) : Prop :=
  match c with
  | OpenTrunc q _ | Write q _ | WriteFailed q _ | Fsync q _ | Close q _ | Unlink q _ => q = p
  | Rename _ _ ok => ok = false
  | FsyncDir _ => True
  end.

Lemma fs_step_only p c f q : only p c -> q <> p -> fs_step f c !! q = f !! q.
Proof.
  intros Hc Hq. destruct c as [r []|r ch|r e|r ok|r ok|a b []|r []|ok]; simpl in *; subst; try done.
  - by rewrite lookup_insert_ne.
  - by rewrite lookup_alter_ne.
  - by rewrite lookup_delete_ne.
Qed.

Lemma replay_only p new f q : Forall (only p) new -> q <> p -> replay f new !! q = f !! q.
Proof.
  intros Hn Hq. induction Hn as [|c new Hc Hn IH]; [done|]. simpl. by rewrite (fs_step_only p).
Qed.

Lemma replay_app f a b : replay f (a ++ b) = replay (replay f b) a.
Proof. unfold replay. apply foldr_app. Qed.

(** A run from [s] that made the calls [new]. *)
Definition ran (s s' : t) (new : list syscall) : Prop :=
  dir s' = dir s /\ calls s' = new ++ calls s /\ files s' = replay (files s) new.

Lemma ran_nil s : ran s s [].
Proof. done. Qed.

Lemma ran_issue c s : ran s (exec (issue c) s) [c].
Proof. done. Qed.

Lemma ran_trans s1 s2 s3 a b : ran s1 s2 a -> ran s2 s3 b -> ran s1 s3 (b ++ a).
Proof.
  intros (D1 & C1 & F1) (D2 & C2 & F2). split; [congruence|]. split.
  - by rewrite C2, C1, app_assoc.
  - by rewrite F2, F1, replay_app.
Qed.

Lemma wp_issue c (Q : unit -> t -> Prop) s :
  (forall s', ran s s' [c] -> Q tt s') -> wp (issue c) Q s.
Proof. intros HQ. apply HQ, ran_issue. Qed.

Lemma wp_answer {A} (f : list syscall -> A) (Q : A -> t -> Prop) s :
  (forall a, Q a s) -> wp (answer f) Q s.
Proof. intros HQ. apply HQ. Qed.

Lemma write_loop_spec fuel p rest s :
  wp (write_loop fuel p rest) (fun r s' => exists new,
    ran s s' new /\ Forall (only p) new
    /\ (r = Some true -> files s' !! p = (fun v => v ++ rest) <$> files s !! p)) s.
Proof.
  revert rest s. induction fuel as [|fuel IH]; intros rest s; (destruct rest as [|c rest]; cbn [write_loop]).
  1, 3: apply wp_ret; exists []; split; [done|]; split; [constructor|]; intros _;
    destruct (files s !! p); simpl; by rewrite ?app_nil_r.
  - apply wp_ret. exists []. split; [done|]. by split; [constructor|].
  - apply wp_bind, wp_answer. intros [n|eintr]; apply wp_bind, wp_issue; intros s1 R1.
    + wp_call (IH (drop n (c :: rest)) s1). intros r s2 (new & R2 & F2 & Hr).
      exists (new ++ [Write p (take n (c :: rest))]). split; [by eapply ran_trans|].
      split; [apply Forall_app; split; [done|by constructor]|].
      intros Ht. rewrite (Hr Ht). destruct R1 as (_ & _ & ->). simpl. rewrite lookup_alter_eq.
      destruct (files s !! p); [|done]. simpl. by rewrite <- app_assoc, take_drop.
    + destruct eintr.
      * wp_call (IH (c :: rest) s1). intros r s2 (new & R2 & F2 & Hr).
        exists (new ++ [WriteFailed p true]). split; [by eapply ran_trans|].
        split; [apply Forall_app; split; [done|by constructor]|].
        intros Ht. rewrite (Hr Ht). by destruct R1 as (_ & _ & ->).
      * apply wp_ret. exists [WriteFailed p false]. split; [done|]. split; [by constructor|done].
Qed.

Lemma write_durably_spec fuel p v s :
  wp (write_durably fuel p v) (fun ok s' => exists new,
    ran s s' new /\ Forall (only p) new /\ (ok = true -> files s' !! p = Some v)) s.
Proof.
  unfold write_durably. apply wp_bind, wp_answer. intros ok. apply wp_bind, wp_issue. intros s1 R1.
  destruct ok; cbn [negb].
  2: { apply wp_ret. eexists. split; [exact R1|]. split; [by constructor|done]. }
  apply wp_bind. wp_call (write_loop_spec fuel p v s1). intros r s2 (new & R2 & F2 & Hr).
  pose proof (ran_trans _ _ _ _ _ R1 R2) as R12.
  assert (F12 : Forall (only p) (new ++ [OpenTrunc p true])) by (apply Forall_app; split; [done|by constructor]).
  assert (Hclose : wp (c ← answer (fun h => px_close h p); issue (Close p c) ;; mret false)
    (fun ok s' => exists new, ran s s' new /\ Forall (only p) new /\ (ok = true -> files s' !! p = Some v)) s2).
  { apply wp_bind, wp_answer. intros c. apply wp_bind, wp_issue. intros s3 R3. apply wp_ret.
    eexists. split; [eapply ran_trans; [exact R12|exact R3]|]. split; [by constructor|done]. }
  destruct r as [[]|]; try exact Hclose.
  apply wp_bind, wp_answer. intros ok. apply wp_bind, wp_issue. intros s3 R3.
  pose proof (ran_trans _ _ _ _ _ R12 R3) as R13.
  assert (Hv : files s3 !! p = Some v).
  { destruct R3 as (_ & _ & ->). simpl. rewrite (Hr eq_refl). destruct R1 as (_ & _ & ->). simpl.
    by rewrite lookup_insert_eq. }
  destruct ok; cbn [negb]; apply wp_bind, wp_answer; intros c; apply wp_bind, wp_issue; intros s4 R4;
    apply wp_ret; (eexists; split; [eapply ran_trans; [exact R13|exact R4]|]);
    (split; [by repeat constructor|]); [|done].
  intros _. by destruct R4 as (_ & _ & ->).
Qed.

(** The whole save: calls that touch the temporary file only, and at most one
    rename of it, at a moment it holds exactly the value. *)
Lemma save_spec fuel k v s :
  let fin := path_for (dir s) k in
  let tmp := fin ++ txt ".tmp" in
  wp (save fuel k v) (fun ok s' => exists pre post,
    Forall (only tmp) pre /\
    ((ok = false /\ post = []) \/
     (exists d, post = [FsyncDir d; Rename tmp fin true] /\ ok = d /\ replay (files s) pre !! tmp = Some v))
    /\ ran s s' (post ++ pre)) s.
Proof.
  intros fin tmp. unfold save. apply wp_bind, wp_gets. cbv zeta. fold fin. fold tmp. apply wp_bind.
  wp_call (write_durably_spec fuel tmp v s). intros ok s1 (pre & R1 & F1 & Hv).
  destruct ok; cbn [negb].
  2: { apply wp_ret. exists pre, []. split; [done|]. split; [by left|done]. }
  apply wp_bind, wp_answer. intros ok. apply wp_bind, wp_issue. intros s2 R2.
  pose proof (ran_trans _ _ _ _ _ R1 R2) as R12. destruct ok; cbn [negb].
  - apply wp_bind, wp_answer. intros d. apply wp_bind, wp_issue. intros s3 R3. apply wp_ret.
    exists pre, [FsyncDir d; Rename tmp fin true]. split; [done|]. split.
    + right. exists d. split; [done|]. split; [done|]. destruct R1 as (_ & _ & <-). auto.
    + eapply ran_trans in R3; [|exact R12]. exact R3.
  - apply wp_bind, wp_answer. intros u. apply wp_bind, wp_issue. intros s3 R3. apply wp_ret.
    eapply ran_trans in R3; [|exact R12].
    exists ([Unlink tmp u] ++ [Rename tmp fin false] ++ pre), [].
    split; [by repeat constructor|]. split; [by left|exact R3].
Qed.

(** *** Paths *)

(** The keys [path_for] maps to themselves. *)
Definition plain (k : string) : Prop := map flatten (txt k) = txt k.

Lemma txt_inj a b : txt a = txt b -> a = b.
Proof.
  unfold txt. intros E%(f_equal String.string_of_list_ascii).
  by rewrite !String.string_of_list_ascii_of_string in E.
Qed.

Lemma path_for_inj d k k' : plain k -> plain k' -> path_for d k = path_for d k' -> k = k'.
Proof.
  unfold path_for. intros -> -> E. apply app_inv_head in E. apply app_inv_head in E.
  apply app_inv_tail in E. by apply txt_inj.
Qed.

Lemma tmp_not_path d k k' : path_for d k ++ txt ".tmp" <> path_for d k'.
Proof.
  unfold path_for. intros E. apply (f_equal last) in E.
  rewrite !app_assoc in E.
  change (txt ".tmp") with (txt ".tm" ++ ["p"%char]) in E.
  change (txt ".state") with (txt ".stat" ++ ["e"%char]) in E.
  rewrite !app_assoc, !last_snoc in E. discriminate.
Qed.

(** *** A crash at any call *)

Lemma save_prefix fuel k v s :
  wp (save fuel k v) (fun _ s' => exists new, calls s' = new ++ calls s /\
    forall j, let f := replay (files s) (drop j new) in
      (f !! path_for (dir s) k = Some v \/ f !! path_for (dir s) k = files s !! path_for (dir s) k)
      /\ forall k', plain k -> plain k' -> k' <> k ->
         f !! path_for (dir s) k' = files s !! path_for (dir s) k') s.
Proof.
  wp_call (save_spec fuel k v s). intros ok s' (pre & post & Hpre & Hpost & (_ & C & _)).
  exists (post ++ pre). split; [done|]. intros j. cbv zeta.
  set (fin := path_for (dir s) k) in *. set (tmp := fin ++ txt ".tmp") in *.
  assert (Hsub : forall n q, q <> tmp -> replay (files s) (drop n pre) !! q = files s !! q).
  { intros n q Hq. apply (replay_only tmp); [by apply Forall_drop|done]. }
  assert (Htmp : forall k', path_for (dir s) k' <> tmp)
    by (intros k' E; symmetry in E; by apply tmp_not_path in E).
  destruct Hpost as [[_ ->]|(d & -> & _ & Hv)].
  - simpl. split; [right; apply Hsub, Htmp|]. intros k' _ _ _. apply Hsub, Htmp.
  - assert (Hren : forall q, q <> tmp ->
      replay (files s) (Rename tmp fin true :: pre) !! q = if decide (q = fin) then Some v else files s !! q).
    { intros q Hq. simpl. rewrite Hv, lookup_insert. destruct (decide (fin = q)) as [->|Hne].
      - by rewrite decide_True.
      - rewrite decide_False, lookup_delete_ne by congruence. by apply (Hsub 0%nat). }
    destruct j as [|[|j]].
    + simpl drop. change (replay (files s) ([FsyncDir d; Rename tmp fin true] ++ pre))
        with (replay (files s) (Rename tmp fin true :: pre)).
      split; [left; by rewrite Hren, decide_True by (apply Htmp || done)|].
      intros k' Hk Hk' Hne. rewrite Hren, decide_False; [done| |apply Htmp].
      intros E%path_for_inj; done.
    + simpl drop. split; [left; by rewrite Hren, decide_True by (apply Htmp || done)|].
      intros k' Hk Hk' Hne. rewrite Hren, decide_False; [done| |apply Htmp].
      intros E%path_for_inj; done.
    + simpl drop. split; [right; apply Hsub, Htmp|]. intros k' _ _ _. apply Hsub, Htmp.
Qed.

(** A kernel that refuses nothing: every write takes something. *)
Definition granting : Prop :=
  (forall h p, px_open h p = true) /\ (forall h p, exists n, px_write h p = Wrote (S n))
  /\ (forall h p, px_fsync h p = true) /\ (forall h p, px_close h p = true)
  /\ (forall h, px_rename h = true) /\ (forall h, px_fsync_dir h = true).

Lemma write_loop_done fuel p rest s :
  (forall h p, exists n, px_write h p = Wrote (S n)) -> (length rest <= fuel)%nat ->
  wp (write_loop fuel p rest) (fun r _ => r = Some true) s.
Proof.
  intros Hw. revert rest s. induction fuel as [|k IH]; intros rest s Hk; (destruct rest as [|c rest]; cbn [write_loop]).
  - by apply wp_ret.
  - simpl in Hk. lia.
  - by apply wp_ret.
  - apply wp_bind. unfold answer. apply wp_gets. destruct (Hw (calls s) p) as [n ->].
    apply wp_bind, wp_issue. intros s1 _. apply IH. rewrite length_drop. simpl in *. lia.
Qed.

Lemma save_done fuel k v s : granting -> (length v <= fuel)%nat -> result (save fuel k v) s = true.
Proof.
  intros (Ho & Hw & Hs & Hc & Hr & Hd) Hf.
  assert (W : wp (save fuel k v) (fun r _ => r = true) s); [|exact W].
  unfold save. apply wp_bind, wp_gets, wp_bind. apply (wp_mono _ (fun r _ => r = true)).
  { unfold write_durably. apply wp_bind, wp_gets. rewrite Ho. apply wp_bind, wp_issue. intros s1 _. cbn [negb].
    apply wp_bind. apply (wp_mono _ (fun r _ => r = Some true)); [by apply write_loop_done|]. intros r s2 ->.
    apply wp_bind, wp_gets. rewrite Hs. apply wp_bind, wp_issue. intros s3 _. cbn [negb].
    apply wp_bind, wp_gets. rewrite Hc. by apply wp_bind, wp_issue. }
  intros r s1 ->. cbn [negb]. apply wp_bind, wp_gets. rewrite Hr. apply wp_bind, wp_issue. intros s2 _. cbn [negb].
  apply wp_bind, wp_gets. rewrite Hd. by apply wp_bind, wp_issue.
Qed.


(** *** The laws of the interface *)

#[local] Instance file_store (fuel : nat) : StateStore t := {|
  ss_load := load;
  ss_save := save fuel;
  ss_clear := clear
|}.

Lemma clear_files k s :
  wp (clear k) (fun _ s' => dir s' = dir s
    /\ (files s' = files s \/ files s' = delete (path_for (dir s) k) (files s))) s.
Proof.
  unfold clear. apply wp_bind, wp_gets, wp_bind, wp_answer. intros u. apply wp_bind, wp_issue.
  intros s1 (D1 & _ & F1). apply wp_bind, wp_answer. intros d. apply wp_issue. intros s2 (D2 & _ & F2).
  split; [congruence|]. rewrite F2, F1. simpl. destruct u; auto.
Qed.

Lemma save_files fuel k v s :
  wp (save fuel k v) (fun ok s' => dir s' = dir s
    /\ (ok = true -> load k s' = Some v)
    /\ (load k s' = Some v \/ load k s' = load k s)
    /\ forall k', plain k -> plain k' -> k' <> k -> load k' s' = load k' s) s.
Proof.
  destruct (save_prefix fuel k v s) as (new & C & Hj).
  destruct (save_spec fuel k v s) as (pre & post & _ & Hpost & (D & C' & F)).
  unfold wp. assert (new = post ++ pre) as ->.
  { rewrite C in C'. by apply app_inv_tail in C'. }
  specialize (Hj 0%nat). rewrite drop_0, <- F in Hj. unfold load. rewrite D.
  split; [done|]. split; [|exact Hj]. intros Hok.
  destruct Hpost as [[E _]|(d & -> & _ & Hv)]; [congruence|].
  rewrite F. unfold replay in *. cbn [foldr fs_step app]. rewrite Hv. by rewrite lookup_insert_eq.
Qed.

#[local] Instance file_store_laws (fuel : nat) : @StateStoreLaws t (file_store fuel) plain.
Proof.
  split.
  - intros k v s _. wp_call (save_files fuel k v s). by intros ok s' (_ & H1 & _).
  - intros k v s _. wp_call (save_files fuel k v s). by intros ok s' (_ & _ & H2 & _).
  - intros k k' v s Hk Hk' Hne. wp_call (save_files fuel k v s). intros ok s' (_ & _ & _ & H3). by apply H3.
  - intros k s _. wp_call (clear_files k s). intros _ s' (D & [F|F]); simpl; unfold load; rewrite D, F.
    + by right.
    + left. by rewrite lookup_delete_eq.
  - intros k k' s Hk Hk' Hne. wp_call (clear_files k s). intros _ s' (D & [F|F]); simpl; unfold load; rewrite D, F.
    + done.
    + apply lookup_delete_ne. intros E%path_for_inj; done.
Qed.
End File.

(** A kernel that takes a byte at a time. *)
Definition slow_kernel : Posix := {|
  px_open _ _ := true; px_write _ _ := Wrote 1; px_fsync _ _ := true; px_close _ _ := true;
  px_rename _ := true; px_unlink _ _ := true; px_fsync_dir _ := true
|}.

End FileStateStore.
