(* ===== verification/ConfigStore.v ===== *)
(** * The configuration file

    [core/config_store.{hpp,cpp}]: settings as [key = value] lines of a text that
    the user may also edit, rewritten in place and written to the file system in
    one step.  The system calls are those of [StateStore]. *)

From S2P Require Import Prelude Text StateStore.
Import FileStateStore.

(** ** The text *)

(** [trim]. *)
Definition conf_blank (c : ascii) : bool := Ascii.eqb c " " || Ascii.eqb c "009" || Ascii.eqb c "013" || Ascii.eqb c NL.
Fixpoint skip_blank (s : text) : text :=
  match s with
  | c :: s' => if conf_blank c then skip_blank s' else s
  | [] => []
  end.
Definition trim (s : text) : text := rev (skip_blank (rev (skip_blank s))).

(** [h = s.find('#'); if (h != npos) s.erase(h)]. *)
Definition uncomment (s : text) : text :=
  match index_of "#" s with
  | Some h => take h s
  | None => s
  end.

Definition line_key (line : text) : text :=
  let s := uncomment line in
  match index_of "=" s with
  | None => []
  | Some eq => trim (take eq s)
  end.

(** A quoted value without its quotes. *)
Definition DQ : ascii := "034".
Definition unquote (v : text) : text :=
  match v, last v with
  | c :: _ :: _, Some d => if Ascii.eqb c DQ && Ascii.eqb d DQ then take (length v - 2) (drop 1 v) else v
  | _, _ => v
  end.

(** What [config_text_get] makes of the line of a key; [npos + 1] is 0. *)
Definition line_value (line : text) : text :=
  let s := uncomment line in
  unquote (trim (match index_of "=" s with Some eq => drop (S eq) s | None => s end)).

Fixpoint get_line (lines : list text) (key : text) : text :=
  match lines with
  | [] => []
  | line :: lines => if text_eqb (line_key line) key then line_value line else get_line lines key
  end.
Definition config_text_get (s key : text) : text := get_line (conf_lines s) key.

Definition MANAGED_HDR : text := txt "# --- managed by the Machino API ---".

(** The look ahead of [drop_orphan_headers]. *)
Fixpoint heads_something (lines : list text) : bool :=
  match lines with
  | [] => false
  | l :: lines => match l with [] => heads_something lines | _ => negb (text_eqb l MANAGED_HDR) end
  end.

Fixpoint keep_headed (lines : list text) : list text :=
  match lines with
  | [] => []
  | l :: lines => if text_eqb l MANAGED_HDR && negb (heads_something lines) then keep_headed lines else l :: keep_headed lines
  end.

Definition put_lines (l : list text) : text := concat (map (fun x => x ++ [NL]) l).
Definition drop_orphan_headers (s : text) : text := put_lines (keep_headed (conf_lines s)).

Abbreviation KeyValues := (list (text * text)).

(** The index of the first setting of a key. *)
Fixpoint index_of_key (k : text) (all : KeyValues) : option nat :=
  match all with
  | [] => None
  | (x, _) :: all => if text_eqb x k then Some O else S <$> index_of_key k all
  end.

Definition setting_line (k v : text) : text := k ++ txt " = " ++ v.

(** The loop of [rewrite_config_text]: the lines put out, and [done]. *)
Fixpoint rewrite_lines (all : KeyValues) (lines : list text) (done : list nat) : list text * list nat :=
  match lines with
  | [] => ([], done)
  | line :: lines =>
      let k := line_key line in
      let hit := match k with [] => None | _ => index_of_key k all end in
      match hit with
      | Some i =>
          if bool_decide (i ∈ done) then rewrite_lines all lines done
          else
            let '(out, done) := rewrite_lines all lines (i :: done) in
            (setting_line k (match all !! i with Some (_, v) => v | None => [] end) :: out, done)
      | None => let '(out, done) := rewrite_lines all lines done in (line :: out, done)
      end
  end.

(** What is appended: the settings that no line had. *)
Definition missing (all : KeyValues) (done : list nat) : KeyValues :=
  concat (imap (fun i kv => if bool_decide (i ∈ done) then [] else [kv]) all).

Definition appended (l : KeyValues) : text :=
  match l with
  | [] => []
  | _ => NL :: MANAGED_HDR ++ [NL] ++ put_lines (map (fun kv => setting_line kv.1 kv.2) l)
  end.

Definition REVISION : text := txt "config.revision".

Definition rewrite_config_text (s : text) (kv : KeyValues) (revision : Z) : text :=
  let all := kv ++ [(REVISION, print_dec revision)] in
  let '(out, done) := rewrite_lines all (conf_lines s) [] in
  drop_orphan_headers (put_lines out ++ appended (missing all done)).

(** The lines [remove_config_keys_text] drops. *)
Definition gone (keys : list text) (line : text) : bool := match line_key line with [] => false | k => bool_decide (k ∈ keys) end.
Definition pruned (keys lines : list text) : list text := List.filter (fun line => negb (gone keys line)) lines.

Definition remove_config_keys_text (s : text) (keys : list text) (revision : Z) : text :=
  rewrite_config_text (put_lines (pruned keys (conf_lines s))) [] revision.

(** ** The store *)

Record ConfigStore := { path_ : text; text_ : text; revision_ : Z; disk : t }.
#[export] Instance eta_ConfigStore : Settable ConfigStore := fun c =>
  Build_ConfigStore (path_ c) (text_ c) (revision_ c) (disk c).

Section Store.
Context `{Posix}.

Definition on_disk {A} (m : ST t A) : ST ConfigStore A :=
  d ← gets disk;
  let '(a, d) := m d in
  modify (fun c => c <| disk := d |>) ;;
  mret a.

(** [fgets] with 512 bytes, [text += buf]: what a line longer than that, or with
    a NUL in it, is read as. *)
Fixpoint fgets (n : nat) (s : text) : text * text :=
  match n, s with
  | S n, c :: s' => if Ascii.eqb c NL then ([c], s') else let '(l, r) := fgets n s' in (c :: l, r)
  | _, _ => ([], s)
  end.
Fixpoint read_lines (fuel : nat) (s : text) : text :=
  match fuel with
  | O => []
  | S fuel => match s with [] => [] | _ => let '(l, r) := fgets 511 s in c_str l ++ read_lines fuel r end
  end.

(** [load]: the file is there or not. *)
Definition load_config : ST ConfigStore bool :=
  c ← gets id;
  match files (disk c) !! path_ c with
  | None => mret false
  | Some f =>
      let s := read_lines (length f) f in
      let r := config_text_get s REVISION in
      let n := match r with [] => 1 | _ => strtoul (c_str r) end in
      modify (fun c => c <| text_ := s |> <| revision_ := if n =? 0 then 1 else n |>) ;;
      mret true
  end.

(** [write_atomic]. *)
Definition discard_tmp (tmp : text) : ST t bool :=
  u ← answer (fun h => px_unlink h tmp);
  issue (Unlink tmp u) ;;
  mret false.

Fixpoint put_loop (fuel : nat) (p rest : text) : ST t bool :=
  match rest with
  | [] => mret true
  | _ :: _ =>
      match fuel with
      | O => mret false
      | S fuel =>
          a ← answer (fun h => px_write h p);
          match a with
          | Wrote (S n) => issue (Write p (take (S n) rest)) ;; put_loop fuel p (drop (S n) rest)
          | Wrote O => issue (WriteFailed p false) ;; mret false
          | WriteError eintr => issue (WriteFailed p eintr) ;; mret false
          end
      end
  end.

Definition write_atomic (path data : text) : ST t bool :=
  let tmp := path ++ txt ".tmp" in
  ok ← answer (fun h => px_open h tmp);
  issue (OpenTrunc tmp ok) ;;
  if negb ok then mret false else
  wrote ← put_loop (length data) tmp data;
  if negb wrote then
    c ← answer (fun h => px_close h tmp);
    issue (Close tmp c) ;;
    discard_tmp tmp
  else
  ok ← answer (fun h => px_fsync h tmp);
  issue (Fsync tmp ok) ;;
  c ← answer (fun h => px_close h tmp);
  issue (Close tmp c) ;;
  if negb ok then discard_tmp tmp else
  ok ← answer px_rename;
  issue (Rename tmp path ok) ;;
  if negb ok then discard_tmp tmp else
  d ← answer px_fsync_dir;
  issue (FsyncDir d) ;;
  mret true.

(** What [commit] and [commit_remove] do with the new text. *)
Definition persist (data : text) : ST ConfigStore bool :=
  p ← gets path_;
  ok ← on_disk (write_atomic p data);
  if negb ok then mret false else
  modify (fun c => c <| text_ := data |> <| revision_ := u32 (revision_ c + 1) |>) ;;
  mret true.

Definition commit (kv : KeyValues) : ST ConfigStore bool :=
  c ← gets id;
  persist (rewrite_config_text (text_ c) kv (u32 (revision_ c + 1))).

Definition commit_remove (keys : list text) : ST ConfigStore bool :=
  c ← gets id;
  persist (remove_config_keys_text (text_ c) keys (u32 (revision_ c + 1))).

Definition get (key : text) (c : ConfigStore) : text := config_text_get (text_ c) key.
End Store.

(** ** Lines *)

Lemma conf_lines_put l s : Forall one_line l -> conf_lines (put_lines l ++ s) = l ++ conf_lines s.
Proof.
  unfold conf_lines. induction 1 as [|x l Hx _ IH]; [done|]. unfold put_lines in *. cbn [map concat]. rewrite <- !app_assoc.
  rewrite conf_lines_skip by done. cbn [app conf_lines_from]. change (Ascii.eqb NL NL) with true. cbn [app]. by rewrite IH.
Qed.

Lemma conf_lines_put_all l : Forall one_line l -> conf_lines (put_lines l) = l.
Proof. intros Hl. rewrite <- (app_nil_r (put_lines l)), conf_lines_put by done. apply app_nil_r. Qed.

(** The lines of a key; the first is the one that is read. *)
Definition key_lines (key : text) (lines : list text) : list text := List.filter (fun l => text_eqb (line_key l) key) lines.

Lemma get_lines_of lines key : get_line lines key = match key_lines key lines with l :: _ => line_value l | [] => [] end.
Proof. unfold key_lines. induction lines as [|l lines IH]; [done|]. cbn [get_line List.filter]. by destruct (text_eqb _ _). Qed.

Lemma lines_of_app key a b : key_lines key (a ++ b) = key_lines key a ++ key_lines key b.
Proof. apply List.filter_app. Qed.

Lemma lines_of_cons key l lines : key_lines key (l :: lines) = if text_eqb (line_key l) key then l :: key_lines key lines else key_lines key lines.
Proof. done. Qed.

(** The headers are dropped and nothing else. *)
Lemma filter_headed (f : text -> bool) lines : f MANAGED_HDR = false -> List.filter f (keep_headed lines) = List.filter f lines.
Proof.
  intros Hf. induction lines as [|l lines IH]; [done|]. cbn [keep_headed List.filter]. destruct (text_eqb l MANAGED_HDR && _) eqn:E.
  - apply andb_true_iff in E as [E _]. apply bool_decide_eq_true in E as ->. by rewrite Hf.
  - cbn [List.filter]. by rewrite IH.
Qed.

Lemma keep_headed_one lines : Forall one_line lines -> Forall one_line (keep_headed lines).
Proof. induction 1 as [|l lines Hl _ IH]; [constructor|]. cbn [keep_headed]. destruct (_ && _); [done|by constructor]. Qed.

(** ** A setting and its line *)

Lemma skip_blank_length s : (length (skip_blank s) <= length s)%nat.
Proof. induction s as [|c s IH]; [done|]. cbn. destruct (conf_blank c); cbn; lia. Qed.

Lemma skip_blank_same s : length (skip_blank s) = length s -> skip_blank s = s.
Proof. destruct s as [|c s]; [done|]. cbn. destruct (conf_blank c); [|done]. pose proof (skip_blank_length s). cbn. lia. Qed.

(** A key as the callers write them: not empty, nothing of the syntax in it, no
    blanks around it. *)
Record plain_key (k : text) : Prop := {
  pk_some : k <> [];
  pk_hash : "#"%char ∉ k;
  pk_equals : "="%char ∉ k;
  pk_line : one_line k;
  pk_trimmed : trim k = k;
}.

Lemma trimmed_ends k : trim k = k -> skip_blank k = k /\ skip_blank (rev k) = rev k.
Proof.
  unfold trim. intros E. assert (L : length (skip_blank (rev (skip_blank k))) = length k) by (rewrite <- E at 2; by rewrite length_rev).
  pose proof (skip_blank_length k). pose proof (skip_blank_length (rev (skip_blank k))) as L2. rewrite length_rev in L2.
  assert (S : skip_blank k = k) by (apply skip_blank_same; lia). rewrite S in *. split; [done|]. rewrite <- E at 2. by rewrite rev_involutive.
Qed.

Lemma skip_blank_app a b : a <> [] -> skip_blank a = a -> skip_blank (a ++ b) = a ++ b.
Proof.
  destruct a as [|c a]; [done|]. intros _ E. cbn in *. destruct (conf_blank c); [|done]. pose proof (skip_blank_length a). apply (f_equal length) in E.
  cbn in E. lia.
Qed.

Lemma trim_key k : plain_key k -> trim (k ++ txt " ") = k.
Proof.
  intros [H1 _ _ _ H5]. destruct (trimmed_ends k H5) as [E1 E2]. unfold trim. rewrite skip_blank_app by done.
  rewrite rev_app_distr. change (rev (txt " ")) with [" "%char]. cbn [app skip_blank]. change (conf_blank " ") with true. cbn iota.
  by rewrite E2, rev_involutive.
Qed.

Lemma trim_space v : trim (" "%char :: v) = trim v.
Proof. done. Qed.

Lemma uncomment_app a v : "#"%char ∉ a -> uncomment (a ++ v) = a ++ uncomment v.
Proof.
  intros Ha. unfold uncomment. assert (E : index_of "#" (a ++ v) = (fun i => (length a + i)%nat) <$> index_of "#" v).
  { induction a as [|c a IH]; [cbn [app length]; by destruct (index_of _ v)|]. apply not_elem_of_cons in Ha as [Hc Ha]. cbn. destruct (Ascii.eqb_spec c "#"); [congruence|].
    rewrite IH by done. by destruct (index_of _ v). }
  rewrite E. destruct (index_of "#" v) as [i|]; [|done]. cbn. by rewrite take_app_add.
Qed.

(** What is read of a value. *)
Definition value_of (v : text) : text := unquote (trim (uncomment v)).

Lemma setting_index k v : plain_key k -> uncomment (setting_line k v) = k ++ txt " = " ++ uncomment v
  /\ index_of "=" (k ++ txt " = " ++ uncomment v) = Some (S (length k)).
Proof.
  intros [H1 H2 H3 H4 H5]. unfold setting_line. split.
  - rewrite app_assoc, uncomment_app; [by rewrite <- app_assoc|]. intros [H|H]%elem_of_app; [done|].
    by repeat (apply elem_of_cons in H as [H|H]; [done|]); apply elem_of_nil in H.
  - change (k ++ txt " = " ++ uncomment v) with (k ++ [" "%char] ++ "="%char :: " "%char :: uncomment v). rewrite app_assoc, index_of_app.
    + rewrite length_app. cbn. f_equal. lia.
    + intros [H|H%list_elem_of_singleton]%elem_of_app; [done|congruence].
Qed.

Lemma line_key_setting k v : plain_key k -> line_key (setting_line k v) = k.
Proof.
  intros Hk. destruct (setting_index k v Hk) as [E1 E2]. unfold line_key. rewrite E1, E2.
  change (k ++ txt " = " ++ uncomment v) with (k ++ [" "%char] ++ "="%char :: " "%char :: uncomment v). rewrite app_assoc.
  replace (S (length k)) with (length (k ++ [" "%char])) by (rewrite length_app; cbn; lia). rewrite take_app_length. by apply trim_key.
Qed.

Lemma line_value_setting k v : plain_key k -> line_value (setting_line k v) = value_of v.
Proof.
  intros Hk. destruct (setting_index k v Hk) as [E1 E2]. unfold line_value. rewrite E1, E2.
  change (k ++ txt " = " ++ uncomment v) with (k ++ [" "%char; "="%char] ++ " "%char :: uncomment v). rewrite app_assoc.
  replace (S (S (length k))) with (length (k ++ [" "%char; "="%char])) by (rewrite length_app; cbn; lia). rewrite drop_app_length. by rewrite trim_space.
Qed.

(** ** Rewriting *)

Definition plain_setting (kv : text * text) : Prop := plain_key kv.1 /\ one_line kv.2.

Definition line_for (kv : text * text) : text := setting_line kv.1 kv.2.

Lemma index_of_key_some k all i : index_of_key k all = Some i -> exists v, all !! i = Some (k, v).
Proof.
  revert i. induction all as [|[x v] all IH]; intros i; cbn; [done|]. destruct (text_eqb_spec x k) as [->|]; [intros [= <-]; by exists v|].
  destruct (index_of_key k all) as [j|]; [|done]. intros [= <-]. by apply IH.
Qed.

Lemma key_at (all : KeyValues) i k v : all !! i = Some (k, v) -> k ∈ all.*1.
Proof. intros E. apply list_elem_of_lookup. exists i. by rewrite list_lookup_fmap, E. Qed.

Lemma index_of_key_none k all : index_of_key k all = None <-> k ∉ all.*1.
Proof.
  induction all as [|[x v] all IH]; cbn; [split; [intros _; apply not_elem_of_nil|done]|]. rewrite not_elem_of_cons.
  destruct (text_eqb_spec x k) as [->|Hne]; [split; [done|tauto]|].
  destruct (index_of_key k all) as [j|]; cbn; [split; [done|intros [_ H]; by apply IH in H]|]. split; [|done]. intros _. split; [congruence|by apply IH].
Qed.

(** The lines a rewrite does not touch: comments and the settings of other keys. *)
Definition other_line (all : KeyValues) (l : text) : bool :=
  negb (bool_decide (line_key l ∈ all.*1)) && negb (text_eqb l []) && negb (text_eqb l MANAGED_HDR).

Section Rewriting.
Variable all : KeyValues.
Hypothesis Hall : Forall plain_setting all.
Hypothesis Hnd : NoDup all.*1.

Lemma index_of_key_at i k v : all !! i = Some (k, v) -> index_of_key k all = Some i.
Proof using Hnd.
  intros E. destruct (index_of_key k all) as [j|] eqn:F.
  - destruct (index_of_key_some _ _ _ F) as (w & Ew). f_equal. apply (NoDup_lookup all.*1 j i k Hnd); rewrite list_lookup_fmap; [by rewrite Ew|by rewrite E].
  - apply index_of_key_none in F. destruct F. by apply (key_at all i _ v).
Qed.

Lemma setting_at i kv : all !! i = Some kv -> plain_setting kv.
Proof using Hall. intros E. rewrite Forall_lookup in Hall. by apply (Hall i). Qed.

(** One line of the loop: [None] for a line kept as it is. *)
Lemma hit_key k j : (match k with [] => None | _ => index_of_key k all end) = Some j -> exists v, all !! j = Some (k, v) /\ index_of_key k all = Some j.
Proof using. intros E. assert (F : index_of_key k all = Some j) by by destruct k. destruct (index_of_key_some _ _ _ F) as (v & Ev). by exists v. Qed.

Lemma hit_none k : (match k with [] => None | _ => index_of_key k all end) = None -> k ∉ all.*1.
Proof using Hall.
  destruct k as [|c k]; [|apply index_of_key_none]. intros _ (i & (kv & E & Ek)%list_lookup_fmap_Some)%list_elem_of_lookup.
  destruct (setting_at _ _ Ek) as [[H _ _ _ _] _]. congruence.
Qed.

Lemma rewrite_lines_of i key v : all !! i = Some (key, v) -> forall lines ds,
  let '(out, ds') := rewrite_lines all lines ds in
  key_lines key out = (if bool_decide (i ∈ ds) then [] else match key_lines key lines with [] => [] | _ => [setting_line key v] end)
  /\ (i ∈ ds' <-> i ∈ ds \/ key_lines key lines <> []).
Proof using Hall Hnd.
  intros Hi lines. pose proof (index_of_key_at _ _ _ Hi) as Fi. induction lines as [|line lines IH]; intros ds.
  { cbn [rewrite_lines]. split; [by destruct (bool_decide _)|]. cbn. tauto. }
  cbn [rewrite_lines]. change (key_lines key (line :: lines)) with (if text_eqb (line_key line) key then line :: key_lines key lines else key_lines key lines).
  set (k := line_key line). destruct (match k with [] => None | _ => index_of_key k all end) as [j|] eqn:Eh.
  - apply hit_key in Eh as (w & Ew & Fj). destruct (setting_at _ _ Ew) as [Hpk _]. cbn [fst] in Hpk. destruct (bool_decide_reflect (j ∈ ds)) as [Hj|Hj].
    + specialize (IH ds). destruct (rewrite_lines all lines ds) as [out ds']. destruct (text_eqb_spec k key) as [Ek|Hne]; [|done].
      assert (j = i) by congruence. subst j. rewrite bool_decide_eq_true_2 in * by done. split; [apply IH|]. destruct IH as [_ ->]. split; [tauto|]. tauto.
    + specialize (IH (j :: ds)). destruct (rewrite_lines all lines (j :: ds)) as [out ds']. rewrite Ew. cbn iota.
      change (key_lines key (setting_line k w :: out)) with (if text_eqb (line_key (setting_line k w)) key then setting_line k w :: key_lines key out else key_lines key out).
      rewrite line_key_setting by done. destruct IH as [IH1 IH2]. rewrite elem_of_cons in IH2. destruct (text_eqb_spec k key) as [Ek|Hne].
      * assert (j = i) by congruence. subst j. assert (w = v) by congruence. subst w. rewrite bool_decide_eq_false_2 by done.
        rewrite IH1, bool_decide_eq_true_2 by (apply elem_of_cons; by left). rewrite Ek. split; [done|]. rewrite IH2. split; [intros _; by right|tauto].
      * assert (N : i <> j) by (intros ->; congruence). rewrite IH1, IH2. split; [|tauto].
        rewrite (bool_decide_ext (i ∈ j :: ds) (i ∈ ds)); [done|]. rewrite elem_of_cons. tauto.
  - apply hit_none in Eh. specialize (IH ds). destruct (rewrite_lines all lines ds) as [out ds'].
    change (key_lines key (line :: out)) with (if text_eqb (line_key line) key then line :: key_lines key out else key_lines key out). fold k.
    destruct (text_eqb_spec k key) as [Ek|Hne]; [|done]. destruct Eh. rewrite Ek. by apply (key_at all i _ v).
Qed.

Lemma rewrite_one_line lines : Forall one_line lines -> forall ds, Forall one_line (rewrite_lines all lines ds).1.
Proof using Hall.
  induction 1 as [|line lines Hl _ IH]; intros ds; [constructor|]. cbn [rewrite_lines]. destruct (match line_key line with [] => None | _ => _ end) as [j|] eqn:Eh.
  - apply hit_key in Eh as (w & Ew & _). destruct (setting_at _ _ Ew) as [Hpk Hv]. cbn [fst snd] in *. destruct (bool_decide _); [apply IH|].
    specialize (IH (j :: ds)). destruct (rewrite_lines all lines (j :: ds)) as [out ds']. rewrite Ew. constructor; [|done].
    unfold setting_line. intros [H|[H|H]%elem_of_app]%elem_of_app; [by destruct Hpk| |done].
    by repeat (apply elem_of_cons in H as [H|H]; [done|]); apply elem_of_nil in H.
  - specialize (IH ds). destruct (rewrite_lines all lines ds) as [out ds']. by constructor.
Qed.

(** The lines of [all] are no other lines. *)
Lemma other_setting i k v : all !! i = Some (k, v) -> other_line all (setting_line k v) = false.
Proof using Hall.
  intros E. destruct (setting_at _ _ E) as [Hpk _]. unfold other_line. rewrite line_key_setting, bool_decide_eq_true_2; [done| |done].
  by apply (key_at all i _ v).
Qed.

Lemma rewrite_other lines : forall ds, List.filter (other_line all) (rewrite_lines all lines ds).1 = List.filter (other_line all) lines.
Proof using Hall.
  induction lines as [|line lines IH]; intros ds; [done|]. cbn [rewrite_lines List.filter]. destruct (match line_key line with [] => None | _ => _ end) as [j|] eqn:Eh.
  - apply hit_key in Eh as (w & Ew & _). assert (E : other_line all line = false).
    { unfold other_line. rewrite bool_decide_eq_true_2; [done|]. by apply (key_at all j _ w). }
    rewrite E. destruct (bool_decide _); [apply IH|]. specialize (IH (j :: ds)). destruct (rewrite_lines all lines (j :: ds)) as [out ds']. rewrite Ew.
    cbn [fst List.filter] in *. by rewrite (other_setting _ _ _ Ew).
  - specialize (IH ds). destruct (rewrite_lines all lines ds) as [out ds']. cbn [fst List.filter] in *. by rewrite IH.
Qed.
End Rewriting.

(** The settings appended. *)
Definition missing_from (off : nat) (ds : list nat) (l : KeyValues) : KeyValues :=
  concat (imap (fun i kv => if bool_decide ((off + i)%nat ∈ ds) then [] else [kv]) l).

Lemma missing_from_cons off ds kv l :
  missing_from off ds (kv :: l) = (if bool_decide (off ∈ ds) then [] else [kv]) ++ missing_from (S off) ds l.
Proof.
  unfold missing_from. cbn [imap concat]. rewrite Nat.add_0_r. do 2 f_equal. apply imap_ext. intros i y _. cbn [compose]. by rewrite <- Nat.add_succ_comm.
Qed.

Lemma lines_of_setting key x w lines : plain_key x ->
  key_lines key (map line_for ((x, w) :: lines)) = if text_eqb x key then setting_line x w :: key_lines key (map line_for lines) else key_lines key (map line_for lines).
Proof. intros Hx. cbn [map]. rewrite lines_of_cons. unfold line_for at 1 2. cbn [fst snd]. by rewrite line_key_setting. Qed.

Lemma missing_lines key ds l : Forall plain_setting l -> forall off,
  key ∉ l.*1 -> key_lines key (map line_for (missing_from off ds l)) = [].
Proof.
  induction 1 as [|[x w] l [Hx _] _ IH]; intros off; [done|]. cbn [fmap list_fmap fst]. intros [Hne Hn]%not_elem_of_cons.
  rewrite missing_from_cons. destruct (bool_decide _); [by apply IH|]. cbn [app]. rewrite lines_of_setting by done.
  destruct (text_eqb_spec x key); [congruence|by apply IH].
Qed.

Lemma missing_line key v ds l : Forall plain_setting l -> NoDup l.*1 -> forall off i, l !! i = Some (key, v) ->
  key_lines key (map line_for (missing_from off ds l)) = if bool_decide ((off + i)%nat ∈ ds) then [] else [setting_line key v].
Proof.
  induction 1 as [|[x w] l [Hx _] Hl IH]; [done|]. rewrite fmap_cons. cbn [fst]. intros [Hn Hnd]%NoDup_cons off i Hi.
  rewrite missing_from_cons. cbn [fst] in Hx. destruct i as [|i].
  - injection Hi as -> ->. rewrite Nat.add_0_r. destruct (bool_decide _); [by apply missing_lines|]. cbn [app]. rewrite lines_of_setting by done.
    rewrite missing_lines by done. by destruct (text_eqb_spec key key).
  - change (l !! i = Some (key, v)) in Hi. rewrite <- Nat.add_succ_comm, <- (IH Hnd (S off) i Hi). destruct (bool_decide (off ∈ ds)); [done|]. cbn [app].
    rewrite lines_of_setting by done. destruct (text_eqb_spec x key) as [->|]; [|done].
    destruct Hn. by apply (key_at l i _ v).
Qed.

Lemma missing_subset ds l : forall off kv, kv ∈ missing_from off ds l -> kv ∈ l.
Proof.
  induction l as [|x l IH]; intros off kv; [done|]. rewrite missing_from_cons, elem_of_app. intros [H|H%IH]; [|by right].
  destruct (bool_decide _); [by apply elem_of_nil in H|]. apply list_elem_of_singleton in H as ->. by left.
Qed.

(** *** The lines of the text rewritten *)

Lemma line_for_one kv : plain_setting kv -> one_line (line_for kv).
Proof.
  intros [[_ _ _ H _] Hv]. unfold line_for, setting_line. intros [E|[E|E]%elem_of_app]%elem_of_app; [done| |done].
  by repeat (apply elem_of_cons in E as [E|E]; [done|]); apply elem_of_nil in E.
Qed.

Definition new_lines (l : KeyValues) : list text := match l with [] => [] | _ => [] :: MANAGED_HDR :: map line_for l end.

Lemma conf_lines_appended l : Forall plain_setting l -> conf_lines (appended l) = new_lines l.
Proof.
  intros Hl. destruct l as [|kv l]; [done|]. change (appended (kv :: l)) with (put_lines (new_lines (kv :: l))).
  apply conf_lines_put_all. constructor; [apply not_elem_of_nil|]. constructor.
  { unfold one_line. apply (bool_decide_unpack _). by vm_compute. }
  apply Forall_map. eapply Forall_impl; [exact Hl|]. intros x. apply line_for_one.
Qed.

(** All of them. *)
Definition all_settings (kv : KeyValues) (rev : Z) : KeyValues := kv ++ [(REVISION, print_dec rev)].

Lemma conf_lines_rewrite s kv rev (all := all_settings kv rev) : Forall plain_setting all ->
  let '(out, ds) := rewrite_lines all (conf_lines s) [] in
  conf_lines (rewrite_config_text s kv rev)
  = keep_headed (out ++ new_lines (missing_from 0 ds all)).
Proof.
  intros Hall. unfold rewrite_config_text. fold (all_settings kv rev). fold all.
  pose proof (rewrite_one_line all Hall (conf_lines s) (one_conf_lines s) []) as Ho. destruct (rewrite_lines all (conf_lines s) []) as [out ds].
  cbn [fst] in Ho. change (missing all ds) with (missing_from 0 ds all). assert (Hm : Forall plain_setting (missing_from 0 ds all)).
  { apply Forall_forall. intros x Hx%missing_subset. rewrite Forall_forall in Hall. by apply Hall. }
  unfold drop_orphan_headers. rewrite conf_lines_put by done. rewrite conf_lines_appended by done. apply conf_lines_put_all, keep_headed_one, Forall_app. split; [done|].
  rewrite <- (conf_lines_appended _ Hm). apply one_conf_lines.
Qed.

Lemma new_lines_of key l : key <> [] -> key_lines key (new_lines l) = key_lines key (map line_for l).
Proof.
  intros Hk. destruct l as [|kv l]; [done|]. cbn [new_lines]. rewrite !lines_of_cons. change (line_key []) with (@nil ascii).
  change (line_key MANAGED_HDR) with (@nil ascii). by destruct (text_eqb_spec [] key).
Qed.

(** Every setting has exactly one line. *)
Lemma rewritten_setting s kv rev key v (all := all_settings kv rev) : Forall plain_setting all -> NoDup all.*1 -> (key, v) ∈ all ->
  key_lines key (conf_lines (rewrite_config_text s kv rev)) = [setting_line key v].
Proof.
  intros Hall Hnd (i & Hi)%list_elem_of_lookup. pose proof (conf_lines_rewrite s kv rev Hall) as E. fold all in E.
  pose proof (rewrite_lines_of all Hall Hnd i key v Hi (conf_lines s) []) as R. destruct (rewrite_lines all (conf_lines s) []) as [out ds].
  destruct R as [R1 R2]. rewrite bool_decide_eq_false_2 in R1 by apply not_elem_of_nil. rewrite E.
  assert (Hk : key <> []) by apply (setting_at all Hall i _ Hi). unfold key_lines at 1. rewrite filter_headed.
  2: { change (line_key MANAGED_HDR) with (@nil ascii). by destruct (text_eqb_spec [] key). }
  fold (key_lines key (out ++ new_lines (missing_from 0 ds all))). rewrite lines_of_app, new_lines_of, (missing_line key v ds all Hall Hnd 0 i Hi), R1 by done.
  cbn [Nat.add]. destruct (key_lines key (conf_lines s)) as [|l ls] eqn:El.
  - rewrite bool_decide_eq_false_2; [done|]. rewrite R2. intros [H|H]; [by apply not_elem_of_nil in H|done].
  - rewrite bool_decide_eq_true_2; [done|]. apply R2. by right.
Qed.

Lemma filter_cons_other (f : text -> bool) x l : f x = false -> List.filter f (x :: l) = List.filter f l.
Proof. intros E. cbn [List.filter]. by rewrite E. Qed.

(** The other lines stay, in their order. *)
Lemma rewritten_others s kv rev (all := all_settings kv rev) : Forall plain_setting all ->
  List.filter (other_line all) (conf_lines (rewrite_config_text s kv rev)) = List.filter (other_line all) (conf_lines s).
Proof.
  intros Hall. pose proof (conf_lines_rewrite s kv rev Hall) as E. fold all in E. pose proof (rewrite_other all Hall (conf_lines s) []) as R.
  destruct (rewrite_lines all (conf_lines s) []) as [out ds]. cbn [fst] in R. rewrite E, filter_headed.
  2: { unfold other_line. destruct (text_eqb_spec MANAGED_HDR MANAGED_HDR); [|done]. by rewrite andb_false_r. }
  rewrite List.filter_app, R. rewrite <- (app_nil_r (List.filter _ (conf_lines s))) at 2. f_equal.
  assert (N : List.filter (other_line all) (map line_for (missing_from 0 ds all)) = []).
  { pose proof (missing_subset ds all 0) as Hs. clear E R. induction (missing_from 0 ds all) as [|[k v] l IH]; [done|]. cbn [map List.filter].
    destruct (proj1 (list_elem_of_lookup all (k, v)) (Hs (k, v) ltac:(by left))) as (i & Hi).
    unfold line_for at 1. cbn [fst snd]. rewrite (other_setting all Hall i k v Hi). apply IH. intros x Hx. apply Hs. by right. }
  destruct (missing_from 0 ds all) as [|x l]; [done|]. unfold new_lines. rewrite !filter_cons_other; [done|..].
  - unfold other_line. destruct (text_eqb_spec MANAGED_HDR MANAGED_HDR); [by rewrite andb_false_r|done].
  - unfold other_line. by rewrite andb_false_r.
Qed.

(** A key that is not set reads as before. *)
Lemma lines_of_other all key lines : key <> [] -> key ∉ all.*1 -> key_lines key (List.filter (other_line all) lines) = key_lines key lines.
Proof.
  intros Hk Hn. induction lines as [|l lines IH]; [done|]. rewrite lines_of_cons. cbn [List.filter]. destruct (text_eqb_spec (line_key l) key) as [E|Hne].
  - assert (O : other_line all l = true).
    { unfold other_line. rewrite E, bool_decide_eq_false_2 by done. destruct (text_eqb_spec l []) as [->|]; [by destruct Hk|].
      destruct (text_eqb_spec l MANAGED_HDR) as [->|]; [by destruct Hk|done]. }
    rewrite O, lines_of_cons, IH. by destruct (text_eqb_spec (line_key l) key).
  - destruct (other_line all l); [|done]. rewrite lines_of_cons. by destruct (text_eqb_spec (line_key l) key).
Qed.

Lemma other_lines s kv rev key (all := all_settings kv rev) : Forall plain_setting all -> key <> [] -> key ∉ all.*1 ->
  key_lines key (conf_lines (rewrite_config_text s kv rev)) = key_lines key (conf_lines s).
Proof.
  intros Hall Hk Hn. pose proof (rewritten_others s kv rev Hall) as R. fold all in R. apply (f_equal (key_lines key)) in R.
  by rewrite !lines_of_other in R.
Qed.

(** A key removed has no line left, and reads as not set. *)
Lemma pruned_lines keys s : conf_lines (put_lines (pruned keys (conf_lines s))) = pruned keys (conf_lines s).
Proof.
  apply conf_lines_put_all. pose proof (one_conf_lines s) as H. rewrite Forall_forall in *. intros l Hl. apply H.
  rewrite list_elem_of_In in *. by apply List.filter_In in Hl as [? _].
Qed.

Lemma pruned_get keys key lines : key <> [] -> key_lines key (pruned keys lines) = if bool_decide (key ∈ keys) then [] else key_lines key lines.
Proof.
  intros Hk. unfold pruned. induction lines as [|l lines IH]; [by destruct (bool_decide _)|]. cbn [List.filter].
  rewrite lines_of_cons. destruct (text_eqb_spec (line_key l) key) as [E|Hne].
  - assert (G : gone keys l = bool_decide (key ∈ keys)) by (unfold gone; rewrite E; by destruct key). rewrite G.
    destruct (bool_decide (key ∈ keys)) eqn:B; cbn [negb]; [exact IH|].
    rewrite lines_of_cons, IH. by destruct (text_eqb_spec (line_key l) key).
  - destruct (negb (gone keys l)); [|exact IH]. rewrite lines_of_cons, IH. by destruct (text_eqb_spec (line_key l) key).
Qed.

(** ** The file *)

Section Writing.
Context `{Posix}.

Lemma put_loop_spec fuel p rest s :
  wp (put_loop fuel p rest) (fun ok s' => exists new,
    ran s s' new /\ Forall (only p) new /\ (ok = true -> files s' !! p = (fun v => v ++ rest) <$> files s !! p)) s.
Proof.
  revert rest s. induction fuel as [|fuel IH]; intros rest s; (destruct rest as [|c rest]; cbn [put_loop]).
  1, 3: apply wp_ret; exists []; split; [done|]; split; [constructor|]; intros _; destruct (files s !! p); simpl; by rewrite ?app_nil_r.
  - apply wp_ret. exists []. split; [done|]. by split; [constructor|].
  - apply wp_bind, wp_answer. intros [[|n]|eintr]; apply wp_bind, wp_issue; intros s1 R1.
    + apply wp_ret. eexists. split; [exact R1|]. split; [by constructor|done].
    + wp_call (IH (drop (S n) (c :: rest)) s1). intros ok s2 (new & R2 & F2 & Hok). exists (new ++ [Write p (take (S n) (c :: rest))]).
      split; [by eapply ran_trans|]. split; [apply Forall_app; split; [done|by constructor]|]. intros Ht. rewrite (Hok Ht).
      destruct R1 as (_ & _ & ->). cbn [replay foldr fs_step]. rewrite lookup_alter_eq. destruct (files s !! p); [|done]. cbn [fmap option_fmap option_map]. by rewrite <- app_assoc, take_drop.
    + apply wp_ret. eexists. split; [exact R1|]. split; [by constructor|done].
Qed.

Lemma put_loop_done fuel p rest s : (forall h p, exists n, px_write h p = Wrote (S n)) -> (length rest <= fuel)%nat ->
  wp (put_loop fuel p rest) (fun ok _ => ok = true) s.
Proof.
  intros Hw. revert rest s. induction fuel as [|k IH]; intros rest s Hk; (destruct rest as [|c rest]; cbn [put_loop]).
  - by apply wp_ret.
  - cbn [length] in Hk. lia.
  - by apply wp_ret.
  - apply wp_bind. unfold answer. apply wp_gets. destruct (Hw (calls s) p) as [n ->]. apply wp_bind, wp_issue. intros s1 _. apply IH.
    rewrite length_drop. cbn [length] in *. lia.
Qed.

Lemma discard_tmp_spec p tmp s s0 new : ran s0 s new -> Forall (only p) new -> p = tmp ->
  wp (discard_tmp tmp) (fun ok s' => ok = false /\ exists new, Forall (only p) new /\ ran s0 s' new) s.
Proof.
  intros R F ->. unfold discard_tmp. apply wp_bind, wp_answer. intros u. apply wp_bind, wp_issue. intros s1 R1. apply wp_ret. split; [done|].
  exists (Unlink tmp u :: new). split; [by constructor|]. exact (ran_trans _ _ _ _ _ R R1).
Qed.

(** The file is written whole under another name and renamed, or nothing but that
    name is touched. *)
Lemma write_atomic_spec path data s (tmp := path ++ txt ".tmp") :
  wp (write_atomic path data) (fun ok s' => exists pre post, Forall (only tmp) pre /\ ran s s' (post ++ pre)
    /\ if ok : bool then (exists d, post = [FsyncDir d; Rename tmp path true]) /\ replay (files s) pre !! tmp = Some data else post = []) s.
Proof.
  assert (Hfail : forall s1 new, ran s s1 new -> Forall (only tmp) new -> wp (discard_tmp tmp) (fun ok s' => exists pre post, Forall (only tmp) pre /\ ran s s' (post ++ pre)
    /\ if ok : bool then (exists d, post = [FsyncDir d; Rename tmp path true]) /\ replay (files s) pre !! tmp = Some data else post = []) s1).
  { intros s1 new R F. wp_call (discard_tmp_spec tmp tmp s1 s new R F eq_refl). intros ok s2 (-> & pre & F2 & R2). by exists pre, []. }
  unfold write_atomic. fold tmp. apply wp_bind, wp_answer. intros ok. apply wp_bind, wp_issue. intros s1 R1. destruct ok; cbn [negb].
  2: { apply wp_ret. exists [OpenTrunc tmp false], []. split; [by constructor|done]. }
  apply wp_bind. wp_call (put_loop_spec (length data) tmp data s1). intros ok s2 (new & R2 & F2 & Hok). pose proof (ran_trans _ _ _ _ _ R1 R2) as R12.
  assert (F12 : Forall (only tmp) (new ++ [OpenTrunc tmp true])) by (apply Forall_app; split; [done|by constructor]). destruct ok; cbn [negb].
  2: { apply wp_bind, wp_answer. intros c. apply wp_bind, wp_issue. intros s3 R3. apply (Hfail _ _ (ran_trans _ _ _ _ _ R12 R3)). by constructor. }
  apply wp_bind, wp_answer. intros ok. apply wp_bind, wp_issue. intros s3 R3. apply wp_bind, wp_answer. intros c. apply wp_bind, wp_issue. intros s4 R4.
  pose proof (ran_trans _ _ _ _ _ (ran_trans _ _ _ _ _ R12 R3) R4) as R14.
  assert (Hd : files s4 !! tmp = Some data).
  { destruct R4 as (_ & _ & ->), R3 as (_ & _ & ->). cbn [replay foldr fs_step]. rewrite (Hok eq_refl). destruct R1 as (_ & _ & ->). cbn [replay foldr fs_step].
    by rewrite lookup_insert_eq. }
  assert (F14 : Forall (only tmp) ([Close tmp c] ++ [Fsync tmp ok] ++ new ++ [OpenTrunc tmp true])) by by repeat constructor.
  destruct ok; cbn [negb]; [|by apply (Hfail _ _ R14)]. apply wp_bind, wp_answer. intros ok. apply wp_bind, wp_issue. intros s5 R5.
  destruct ok; cbn [negb]; [|apply (Hfail _ _ (ran_trans _ _ _ _ _ R14 R5)); by constructor].
  apply wp_bind, wp_answer. intros d. apply wp_bind, wp_issue. intros s6 R6. apply wp_ret. eexists _, [FsyncDir d; Rename tmp path true].
  split; [exact F14|]. split; [exact (ran_trans _ _ _ _ _ (ran_trans _ _ _ _ _ R14 R5) R6)|]. split; [by exists d|].
  destruct R14 as (_ & _ & <-). exact Hd.
Qed.

Lemma write_atomic_done path data s : granting -> wp (write_atomic path data) (fun ok _ => ok = true) s.
Proof.
  intros (Ho & Hw & Hs & Hc & Hr & Hd). unfold write_atomic. apply wp_bind. unfold answer at 1. apply wp_gets. rewrite Ho. apply wp_bind, wp_issue. intros s1 _.
  cbn [negb]. apply wp_bind. wp_call (put_loop_done (length data) (path ++ txt ".tmp") data s1 Hw (le_n _)). intros ok s2 ->. cbn [negb].
  apply wp_bind. unfold answer at 1. apply wp_gets. rewrite Hs. apply wp_bind, wp_issue. intros s3 _. apply wp_bind, wp_answer. intros c. apply wp_bind, wp_issue. intros s4 _.
  cbn [negb]. apply wp_bind. unfold answer at 1. apply wp_gets. rewrite Hr. apply wp_bind, wp_issue. intros s5 _. cbn [negb].
  apply wp_bind, wp_answer. intros d. by apply wp_bind, wp_issue.
Qed.

End Writing.

(** ** What is read back *)

(** A value that is read as it was written. *)
Record clean_value (v : text) : Prop := { cv_hash : "#"%char ∉ v; cv_trimmed : trim v = v; cv_quotes : unquote v = v }.

Lemma value_of_clean v : clean_value v -> value_of v = v.
Proof. intros [H1 H2 H3]. unfold value_of, uncomment. by rewrite index_of_none, H2, H3. Qed.

Lemma digits_clean s : forallb is_digit s = true -> clean_value s.
Proof.
  intros Hs. assert (Hb : Forall (fun c => negb (conf_blank c) = true) s) by by apply digits_all.
  assert (K : forall l, Forall (fun c => negb (conf_blank c) = true) l -> skip_blank l = l).
  { intros l Hl. destruct Hl as [|c l Hc _]; [done|]. cbn [skip_blank]. by destruct (conf_blank c). }
  split.
  - pose proof (digits_all (fun c => negb (Ascii.eqb c "#")) s eq_refl Hs) as H. rewrite Forall_forall in H. intros Hin%H. discriminate.
  - unfold trim. rewrite (K s Hb), K; [apply rev_involutive|]. by apply Forall_rev.
  - destruct s as [|c [|d s]]; [done|done|]. cbn [forallb] in Hs. apply andb_true_iff in Hs as [Hc _]. unfold unquote. destruct (last _); [|done].
    assert (E : Ascii.eqb c DQ = false); [|by rewrite E]. apply negb_true_iff. by apply (digit_char_spec c (fun c => negb (Ascii.eqb c DQ))).
Qed.

(** [fgets] in pieces is the whole file when it has no NUL. *)
Lemma fgets_spec n s : let '(l, r) := fgets n s in s = l ++ r /\ (n <> O -> s <> [] -> (length r < length s)%nat).
Proof.
  revert s. induction n as [|n IH]; intros [|c s]; try done. cbn [fgets]. destruct (Ascii.eqb_spec c NL) as [->|]; [split; [done|]; cbn; lia|].
  specialize (IH s). destruct (fgets n s) as [l r]. destruct IH as [-> IH]. split; [done|]. intros _ _. cbn. rewrite length_app. lia.
Qed.

Lemma read_lines_all fuel s : (length s <= fuel)%nat -> "000"%char ∉ s -> read_lines fuel s = s.
Proof.
  revert s. induction fuel as [|fuel IH]; intros s Hl Hs; [destruct s; [done|cbn in Hl; lia]|]. cbn [read_lines]. destruct s as [|c s]; [done|].
  pose proof (fgets_spec 511 (c :: s)) as F. destruct (fgets 511 (c :: s)) as [l r]. destruct F as [E Hr]. specialize (Hr ltac:(done) ltac:(done)).
  rewrite E in Hs. rewrite not_elem_of_app in Hs. destruct Hs as [Hs1 Hs2]. rewrite c_str_same, IH by (done || lia). done.
Qed.

(** ** What the operations do *)

Lemma plain_REVISION : plain_key REVISION.
Proof. split; [done|apply (bool_decide_unpack _); by vm_compute|apply (bool_decide_unpack _); by vm_compute|apply (bool_decide_unpack _); by vm_compute|by vm_compute]. Qed.

Lemma all_plain kv rev : Forall plain_setting kv -> 0 <= rev -> Forall plain_setting (all_settings kv rev).
Proof.
  intros Hkv Hr. apply Forall_app. split; [done|]. constructor; [|constructor]. split; [apply plain_REVISION|].
  apply digits_no_newline. by apply print_dec_digits.
Qed.

Lemma all_nodup kv rev : NoDup kv.*1 -> REVISION ∉ kv.*1 -> NoDup (all_settings kv rev).*1.
Proof.
  intros Hn Hr. unfold all_settings. rewrite fmap_app. apply NoDup_app. split; [done|]. split; [|apply NoDup_singleton].
  intros k Hk E%list_elem_of_singleton. change (k = REVISION) in E. congruence.
Qed.

(** Rewriting a configuration changes the settings asked for and nothing
    else.  Of the text rewritten: every setting, and the revision, has exactly one
    line, and a value that is [clean_value] reads back as it was given; the lines of
    other keys and the comments are those of the old text, in their order (the
    machine's own header and blank lines apart), so every other key reads as before.
    Removing keys leaves no line of them, and every key other than those and the
    revision reads as before. *)
Theorem config_rewritten (s : text) (kv : KeyValues) (keys : list text) (rev : Z)
  (Hkv : Forall plain_setting kv) (Hnd : NoDup kv.*1) (Hrev : REVISION ∉ kv.*1) (Hr : 0 <= rev) :
  let all := all_settings kv rev in
  let new := rewrite_config_text s kv rev in
  (forall k v, (k, v) ∈ all -> key_lines k (conf_lines new) = [setting_line k v] /\ (clean_value v -> config_text_get new k = v))
  /\ List.filter (other_line all) (conf_lines new) = List.filter (other_line all) (conf_lines s)
  /\ (forall k, k <> [] -> k ∉ all.*1 -> config_text_get new k = config_text_get s k)
  /\ (let cut := remove_config_keys_text s keys rev in
      config_text_get cut REVISION = print_dec rev
      /\ forall k, k <> [] -> k <> REVISION ->
         key_lines k (conf_lines cut) = (if bool_decide (k ∈ keys) then [] else key_lines k (conf_lines s))
         /\ config_text_get cut k = if bool_decide (k ∈ keys) then [] else config_text_get s k).
Proof.
  intros all new. pose proof (all_plain kv rev Hkv Hr) as Hall. pose proof (all_nodup kv rev Hnd Hrev) as Hn. fold all in Hall, Hn.
  split; [|split; [by apply rewritten_others|split]].
  - intros k v Hin. pose proof (rewritten_setting s kv rev k v Hall Hn Hin) as L. split; [exact L|]. intros Hv. unfold config_text_get.
    rewrite get_lines_of. fold new in L. rewrite L, line_value_setting; [by apply value_of_clean|].
    rewrite Forall_forall in Hall. by destruct (Hall _ Hin).
  - intros k Hk Hin. unfold config_text_get. rewrite !get_lines_of. unfold new. by rewrite other_lines.
  - cbv zeta. unfold remove_config_keys_text. set (p := put_lines _).
    pose proof (all_plain [] rev (Forall_nil_2 _) Hr) as Hall'. pose proof (all_nodup [] rev (NoDup_nil_2) (not_elem_of_nil _)) as Hn'. split.
    + unfold config_text_get. rewrite get_lines_of, (rewritten_setting p [] rev REVISION (print_dec rev) Hall' Hn') by by left.
      rewrite line_value_setting by apply plain_REVISION. by apply value_of_clean, digits_clean, print_dec_digits.
    + intros k Hk Hkr. assert (L : key_lines k (conf_lines (rewrite_config_text p [] rev)) = if bool_decide (k ∈ keys) then [] else key_lines k (conf_lines s)).
      { rewrite other_lines by (done || (intros H%list_elem_of_singleton; change (k = REVISION) in H; congruence)). unfold p. by rewrite pruned_lines, pruned_get. }
      split; [exact L|]. unfold config_text_get. rewrite !get_lines_of, L. by destruct (bool_decide _).
Qed.

(** The settings page's day: a value changed in a file the owner wrote, a new one
    appended, and one taken away. *)
Definition owner_file : text := txt "# my camera" ++ [NL] ++ txt "video.fps = 25   # smooth" ++ [NL] ++ [NL] ++ txt "wifi.ssid = home" ++ [NL].

Lemma plain_setting_dec k v : bool_decide ((k <> []) /\ ("#"%char ∉ k) /\ ("="%char ∉ k) /\ (NL ∉ k) /\ (trim k = k) /\ (NL ∉ v)) = true -> plain_setting (k, v).
Proof. intros (H1 & H2 & H3 & H4 & H5 & H6)%bool_decide_eq_true. by split; [split|]. Qed.

Lemma config_rewritten_witness :
  let new := rewrite_config_text owner_file [(txt "video.fps", txt "15"); (txt "ir.mode", txt "auto")] 7 in
  config_text_get new (txt "video.fps") = txt "15" /\ config_text_get new (txt "wifi.ssid") = txt "home"
  /\ config_text_get (remove_config_keys_text owner_file [txt "wifi.ssid"] 7) (txt "wifi.ssid") = [].
Proof.
  intros new. destruct (config_rewritten owner_file [(txt "video.fps", txt "15"); (txt "ir.mode", txt "auto")] [txt "wifi.ssid"] 7) as (H1 & _ & H3 & _ & H5).
  - constructor; [apply plain_setting_dec; by vm_compute|]. constructor; [apply plain_setting_dec; by vm_compute|constructor].
  - apply (bool_decide_unpack _). by vm_compute.
  - apply (bool_decide_unpack _). by vm_compute.
  - lia.
  - split; [|split].
    + apply H1; [by left|]. apply digits_clean. by vm_compute.
    + unfold new. rewrite H3; [by vm_compute|done|apply (bool_decide_unpack _); by vm_compute].
    + destruct (H5 (txt "wifi.ssid")) as [_ ->]; [done|done|by vm_compute].
Defined.

(** ** Commits *)

Section Commits.
Context `{Posix}.

Lemma wp_on_disk {A} (m : ST t A) (Q : A -> ConfigStore -> Prop) c :
  wp m (fun a d => Q a (c <| disk := d |>)) (disk c) -> wp (on_disk m) Q c.
Proof.
  intros W. unfold on_disk. apply wp_bind, wp_gets. unfold wp, result, exec in W. destruct (m (disk c)) as [a d].
  apply wp_bind, wp_modify, wp_ret. exact W.
Qed.

(** What a commit of [data] promises. *)
Definition committed (c : ConfigStore) (data : text) (ok : bool) (c' : ConfigStore) : Prop :=
  path_ c' = path_ c
  /\ (if ok then text_ c' = data /\ revision_ c' = u32 (revision_ c + 1) /\ files (disk c') !! path_ c = Some data
      else text_ c' = text_ c /\ revision_ c' = revision_ c /\ files (disk c') !! path_ c = files (disk c) !! path_ c)
  /\ exists new, calls (disk c') = new ++ calls (disk c)
     /\ forall j, let f := replay (files (disk c)) (drop j new) in
          (f !! path_ c = Some data \/ f !! path_ c = files (disk c) !! path_ c)
          /\ forall q, q <> path_ c -> q <> path_ c ++ txt ".tmp" -> f !! q = files (disk c) !! q.

Lemma tmp_differs (p : text) : p <> p ++ txt ".tmp".
Proof. intros E. apply (f_equal length) in E. rewrite length_app in E. change (length (txt ".tmp")) with 4%nat in E. lia. Qed.

Lemma persist_spec data c : wp (persist data) (committed c data) c.
Proof.
  unfold persist. apply wp_bind, wp_gets, wp_bind, wp_on_disk. set (p := path_ c). set (tmp := p ++ txt ".tmp"). set (d := disk c).
  wp_call (write_atomic_spec p data d). intros ok d' (pre & post & Fp & (_ & C & F) & R). fold tmp in Fp, R.
  assert (Hsub : forall j q, q <> tmp -> replay (files d) (drop j pre) !! q = files d !! q).
  { intros j q Hq. apply (replay_only tmp); [by apply Forall_drop|done]. }
  assert (Hp : p <> tmp) by apply tmp_differs. destruct ok; cbn [negb].
  - destruct R as [(b & ->) Hv]. assert (Hren : forall q, q <> tmp ->
      replay (files d) (Rename tmp p true :: pre) !! q = if decide (q = p) then Some data else files d !! q).
    { intros q Hq. cbn [replay foldr fs_step]. unfold replay in Hv. rewrite Hv, lookup_insert. destruct (decide (p = q)) as [->|Hne]; [by rewrite decide_True|].
      rewrite decide_False, lookup_delete_ne by congruence. by apply (Hsub 0%nat). }
    apply wp_bind, wp_modify, wp_ret. split; [done|]. split; [split; [done|]; split; [done|]|].
    { change (files d' !! p = Some data). rewrite F. change (replay (files d) (Rename tmp p true :: pre) !! p = Some data). by rewrite Hren, decide_True. }
    eexists. split; [exact C|]. intros j. cbv zeta. assert (K : replay (files d) (drop j ([FsyncDir b; Rename tmp p true] ++ pre)) = replay (files d) (Rename tmp p true :: pre)
      \/ exists n, replay (files d) (drop j ([FsyncDir b; Rename tmp p true] ++ pre)) = replay (files d) (drop n pre)).
    { destruct j as [|[|j]]; [by left|by left|right; by exists j]. }
    fold p d. fold tmp. destruct K as [->|[n ->]].
    + split; [left; by rewrite Hren, decide_True|]. intros q Hq Ht. by rewrite Hren, decide_False.
    + split; [right; by apply Hsub|]. intros q Hq Ht. by apply Hsub.
  - subst post. apply wp_ret. split; [done|]. split; [split; [done|]; split; [done|]|].
    { change (files d' !! p = files d !! p). rewrite F. by apply (Hsub 0%nat). }
    exists pre. split; [exact C|]. intros j. cbv zeta. fold p d. fold tmp. split; [right; by apply Hsub|]. intros q Hq Ht. by apply Hsub.
Qed.

Lemma persist_done data c : granting -> result (persist data) c = true.
Proof.
  intros G. assert (W : wp (persist data) (fun ok _ => ok = true) c); [|exact W]. unfold persist. apply wp_bind, wp_gets, wp_bind, wp_on_disk.
  wp_call (write_atomic_done (path_ c) data (disk c) G). intros ok d ->. cbn [negb]. by apply wp_bind, wp_modify, wp_ret.
Qed.

(** What is loaded of a file. *)
Lemma load_spec c f : files (disk c) !! path_ c = Some f -> "000"%char ∉ f ->
  wp load_config (fun ok c' => ok = true /\ text_ c' = f /\ path_ c' = path_ c /\ disk c' = disk c
    /\ revision_ c' = let r := config_text_get f REVISION in
                      let n := match r with [] => 1 | _ => strtoul (c_str r) end in if n =? 0 then 1 else n) c.
Proof.
  intros Hf Hz. unfold load_config. apply wp_bind, wp_gets. unfold id. rewrite Hf. apply wp_bind, wp_modify, wp_ret. cbn [text_ path_ disk revision_].
  rewrite (read_lines_all (length f) f) by done. done.
Qed.

Lemma revision_read s kv rev : Forall plain_setting kv -> NoDup kv.*1 -> REVISION ∉ kv.*1 -> 0 <= rev ->
  config_text_get (rewrite_config_text s kv rev) REVISION = print_dec rev.
Proof.
  intros Hkv Hnd Hrev Hr. unfold config_text_get.
  rewrite get_lines_of, (rewritten_setting s kv rev REVISION (print_dec rev) (all_plain kv rev Hkv Hr) (all_nodup kv rev Hnd Hrev)).
  - rewrite line_value_setting by apply plain_REVISION. by apply value_of_clean, digits_clean, print_dec_digits.
  - apply elem_of_app. right. by left.
Qed.

(** A commit is all or nothing, on the camera's memory and on its flash,
    whatever the kernel answers and wherever the power is lost.  A commit (of
    settings or of removals) that reports success has put the rewritten text in
    memory and in the file, under the next revision; one that reports failure has
    changed neither; after any prefix of its system calls the file is the old one or
    the new one, and no other file but the temporary one is touched; on a kernel
    that refuses nothing it succeeds.  And the next start reads the same store back:
    the file loaded gives the committed text and revision, so every key reads as in
    the store that was committed. *)
Theorem commit_all_or_nothing (c : ConfigStore) (kv : KeyValues) (keys : list text) :
  let next := u32 (revision_ c + 1) in
  (forall (m : ST ConfigStore bool) data,
     (m, data) ∈ [(commit kv, rewrite_config_text (text_ c) kv next); (commit_remove keys, remove_config_keys_text (text_ c) keys next)] ->
     committed c data (result m c) (exec m c) /\ (granting -> result m c = true))
  /\ (Forall plain_setting kv -> NoDup kv.*1 -> REVISION ∉ kv.*1 -> "000"%char ∉ rewrite_config_text (text_ c) kv next ->
      result (commit kv) c = true ->
      let c' := exec (commit kv) c in
      forall old, path_ old = path_ c -> disk old = disk c' ->
        result load_config old = true
        /\ text_ (exec load_config old) = text_ c'
        /\ revision_ (exec load_config old) = (if next =? 0 then 1 else next)
        /\ forall key, get key (exec load_config old) = get key c').
Proof.
  intros next. assert (S : forall data, committed c data (result (persist data) c) (exec (persist data) c)) by (intros data; exact (persist_spec data c)).
  split.
  - intros m data [E|E%list_elem_of_singleton]%elem_of_cons; injection E as -> ->; (split; [exact (S _)|]); intros G; exact (persist_done _ c G).
  - intros Hkv Hnd Hrev Hz Hok c' old Hp Hd. pose proof (S (rewrite_config_text (text_ c) kv next)) as (Hp' & R & _).
    fold (commit kv c) in *. change (result (persist (rewrite_config_text (text_ c) kv next)) c) with (result (commit kv) c) in R. rewrite Hok in R.
    destruct R as (T & V & F). change (exec (persist (rewrite_config_text (text_ c) kv next)) c) with c' in *.
    assert (F' : files (disk old) !! path_ old = Some (rewrite_config_text (text_ c) kv next)) by (by rewrite Hp, Hd).
    destruct (load_spec old _ F' Hz) as (L1 & L2 & _ & _ & L3). fold (exec load_config old) in *. fold (result load_config old) in *.
    split; [exact L1|]. split; [congruence|]. rewrite L3. split.
    + assert (Hn : 0 <= next < 2 ^ 32) by (unfold next, u32; apply Z.mod_pos_bound; lia). rewrite revision_read by (done || lia).
      cbv zeta. pose proof (print_dec_nonempty next). pose proof (strtoul_print next Hn) as P. destruct (print_dec next); [done|]. by rewrite P.
    + intros key. unfold get. by rewrite L2, T.
Qed.
End Commits.

Lemma disk_of p s r d : disk (Build_ConfigStore p s r d) = d.
Proof. done. Qed.

Lemma commit_all_or_nothing_witness :
  let K := slow_kernel in
  let c := {| path_ := txt "/etc/machino.conf"; text_ := owner_file; revision_ := 1; disk := mk [] {[txt "/etc/machino.conf" := owner_file]} [] |} in
  let c' := exec (commit [(txt "video.fps", txt "15")]) c in
  let old := {| path_ := txt "/etc/machino.conf"; text_ := []; revision_ := 1; disk := disk c' |} in
  result (commit [(txt "video.fps", txt "15")]) c = true /\ revision_ (exec load_config old) = 2
  /\ get (txt "video.fps") (exec load_config old) = get (txt "video.fps") c'.
Proof.
  intros K c c' old. destruct (commit_all_or_nothing c [(txt "video.fps", txt "15")] []) as (H1 & H2).
  assert (Hok : result (commit [(txt "video.fps", txt "15")]) c = true).
  { eapply (H1 _ _ (list_elem_of_here _ _)). split; [done|]. split; [by intros; exists 0%nat|]. split; [done|]. split; [done|]. by split. }
  split; [exact Hok|]. assert (Hs : Forall plain_setting [(txt "video.fps", txt "15")]) by (constructor; [apply plain_setting_dec; by vm_compute|constructor]).
  assert (Hz : "000"%char ∉ rewrite_config_text (text_ c) [(txt "video.fps", txt "15")] (u32 (revision_ c + 1))) by (apply (bool_decide_unpack _); by vm_compute).
  assert (Hd : disk old = disk c') by exact (disk_of _ _ _ (disk c')).
  destruct (H2 Hs ltac:(apply (bool_decide_unpack _); by vm_compute) ltac:(apply (bool_decide_unpack _); by vm_compute) Hz Hok old eq_refl Hd) as (_ & _ & H3 & H4).
  split; [rewrite H3; reflexivity|apply H4].
Defined.
