(* ===== verification/Pins.v ===== *)
(** * Pin names

    [core/hw/pin_resolver.{hpp,cpp}]: how a name of a pin becomes the number the
    kernel knows it by, and back. *)

From S2P Require Import Prelude Text.

(** [parse_index]: the digits from [from] on. *)
Fixpoint index_loop (limit : Z) (s : text) (v : Z) : option Z :=
  match s with
  | [] => Some v
  | c :: s =>
      if negb (is_digit c) then None
      else let v := v * 10 + digit_value c in if limit <? v then None else index_loop limit s v
  end.

Definition parse_index (s : text) (from : nat) (limit : Z) : option Z :=
  let t := drop from s in
  match t with
  | [] => None
  | c :: _ :: _ => if Ascii.eqb c "0" then None else index_loop limit t 0
  | [_] => index_loop limit t 0
  end.

(** [IPinResolver]. *)
Record Resolver := { scheme : string; resolve : text -> option Z; name_of : Z -> text }.

(** [BankPinResolver]. *)
Section Bank.
Variables bank_size banks : Z.

Definition capital (c : ascii) : ascii := if (97 <=? char_code c) && (char_code c <=? 122) then ascii_of_nat (nat_of_ascii c - 32) else c.

Definition bank_resolve (name : text) : option Z :=
  match name with
  | p :: letter :: _ :: _ =>
      if negb (Ascii.eqb p "P") && negb (Ascii.eqb p "p") then None else
      let bank := char_code (capital letter) - 65 in
      if (bank <? 0) || (banks <=? bank) then None else
      match parse_index name 2 (bank_size - 1) with
      | Some idx => Some (bank * bank_size + idx)
      | None => None
      end
  | _ => None
  end.

Definition bank_name_of (number : Z) : text :=
  if (number <? 0) || (banks * bank_size <=? number) then []
  else "P"%char :: ascii_of_nat (Z.to_nat (65 + number / bank_size)) :: print_dec (number mod bank_size).

Definition BankPinResolver : Resolver := {| scheme := "bank-letter"; resolve := bank_resolve; name_of := bank_name_of |}.
End Bank.

(** [NumericPinResolver]. *)
Definition numeric_resolve (name : text) : option Z :=
  let from := if (4 <? size name) && (text_eqb (take 4 name) (txt "gpio") || text_eqb (take 4 name) (txt "GPIO")) then 4%nat else 0%nat in
  parse_index name from (2 ^ 20).

Definition numeric_name_of (number : Z) : text := if number <? 0 then [] else print_dec number.

Definition NumericPinResolver : Resolver := {| scheme := "numeric"; resolve := numeric_resolve; name_of := numeric_name_of |}.

(** ** Decimal indices *)

Lemma digit_range c : is_digit c = true -> 0 <= digit_value c < 10.
Proof. unfold is_digit, digit_value. intros [H1%Z.leb_le H2%Z.leb_le]%andb_true_iff. lia. Qed.

Lemma digit_char_value c : is_digit c = true -> digit_char (digit_value c) = c.
Proof.
  intros H. pose proof (digit_range c H) as R. unfold digit_char, digit_value, char_code in *.
  replace (Z.to_nat (48 + (Z.of_nat (nat_of_ascii c) - 48))) with (nat_of_ascii c) by lia. apply ascii_nat_embedding.
Qed.

Lemma fold_value s : forall v, fold_left (fun acc c => 10 * acc + digit_value c) s v = v * 10 ^ Z.of_nat (length s) + dec_value s.
Proof.
  unfold dec_value. induction s as [|c s IH]; intros v; cbn [fold_left]; [cbn; lia|]. rewrite IH, (IH (10 * 0 + _)).
  cbn [length]. rewrite Nat2Z.inj_succ, Z.pow_succ_r by lia. ring.
Qed.

Lemma dec_value_range s : forallb is_digit s = true -> 0 <= dec_value s < 10 ^ Z.of_nat (length s).
Proof.
  induction s as [|c s IH]; cbn [forallb]; [done|]. intros [Hc Hs]%andb_true_iff. specialize (IH Hs). pose proof (digit_range c Hc).
  unfold dec_value. cbn [fold_left]. rewrite fold_value. cbn [length]. rewrite Nat2Z.inj_succ, Z.pow_succ_r by lia.
  unfold dec_value in IH. fold (dec_value s) in *. generalize dependent (10 ^ Z.of_nat (length s)). intros p IH. generalize dependent (dec_value s). intros d IH. nia.
Qed.

Lemma dec_value_cons c s : dec_value (c :: s) = digit_value c * 10 ^ Z.of_nat (length s) + dec_value s.
Proof. unfold dec_value at 1. cbn [fold_left]. rewrite fold_value. lia. Qed.

Lemma index_loop_spec limit s : forall v, 0 <= v <= limit ->
  index_loop limit s v = if forallb is_digit s && (v * 10 ^ Z.of_nat (length s) + dec_value s <=? limit) then Some (v * 10 ^ Z.of_nat (length s) + dec_value s) else None.
Proof.
  induction s as [|c s IH]; intros v Hv; cbn [index_loop forallb].
  - change (10 ^ Z.of_nat (length (A:=ascii) [])) with 1. change (dec_value []) with 0. cbn [andb]. rewrite Z.mul_1_r, Z.add_0_r.
    by destruct (Z.leb_spec v limit); [|lia].
  - destruct (is_digit c) eqn:Hc; [|done]. cbn [negb andb]. pose proof (digit_range c Hc) as R. rewrite dec_value_cons. cbn [length].
    rewrite Nat2Z.inj_succ, Z.pow_succ_r by lia. set (p := 10 ^ Z.of_nat (length s)). assert (Hp : 0 < p) by (apply Z.pow_pos_nonneg; lia).
    assert (E : v * (10 * p) + (digit_value c * p + dec_value s) = (v * 10 + digit_value c) * p + dec_value s) by ring. rewrite E.
    destruct (Z.ltb_spec limit (v * 10 + digit_value c)).
    + destruct (forallb is_digit s) eqn:Hs; [|done]. pose proof (dec_value_range s Hs). cbn [andb].
      destruct (Z.leb_spec ((v * 10 + digit_value c) * p + dec_value s) limit); [nia|done].
    + apply IH. lia.
Qed.

(** A decimal without needless zeros is the printed form of its value. *)
Definition canonical (s : text) : Prop := match s with [] => False | c :: _ :: _ => c <> "0"%char | [_] => True end.

Lemma canonical_value_pos c s : forallb is_digit (c :: s) = true -> c <> "0"%char -> 1 <= digit_value c.
Proof.
  cbn. intros [Hc _]%andb_true_iff Hn. pose proof (digit_range c Hc). assert (digit_value c <> 0); [|lia]. intros E. apply Hn.
  rewrite <- (digit_char_value c Hc), E. done.
Qed.

Lemma print_digits_value_of k s : forallb is_digit s = true -> canonical s -> (length s <= k)%nat -> print_digits k (dec_value s) = s.
Proof.
  revert s. induction k as [|k IH]; intros s Hs Hc Hl; [destruct s; [done|cbn in Hl; lia]|]. cbn [print_digits].
  destruct s as [|x s _] using rev_ind; [done|]. rewrite forallb_app in Hs. apply andb_true_iff in Hs as [Hs Hx]. cbn in Hx. rewrite andb_true_r in Hx.
  pose proof (digit_range x Hx) as Rx. rewrite dec_value_snoc. destruct s as [|c s].
  - change (dec_value []) with 0. cbn [app]. replace (10 * 0 + digit_value x) with (digit_value x) by lia. destruct (Z.ltb_spec (digit_value x) 10); [|lia]. by rewrite digit_char_value.
  - assert (Hn : c <> "0"%char) by (by destruct s). pose proof (canonical_value_pos c s Hs Hn) as P. pose proof (dec_value_cons c s) as E.
    assert (Hs' : forallb is_digit s = true) by (cbn in Hs; by apply andb_true_iff in Hs as [_ ?]). pose proof (dec_value_range s Hs') as R.
    assert (0 < 10 ^ Z.of_nat (length s)) by (apply Z.pow_pos_nonneg; lia). destruct (Z.ltb_spec (10 * dec_value (c :: s) + digit_value x) 10); [nia|].
    replace ((10 * dec_value (c :: s) + digit_value x) / 10) with (dec_value (c :: s)) by (apply (Z.div_unique _ _ _ (digit_value x)); lia).
    replace ((10 * dec_value (c :: s) + digit_value x) mod 10) with (digit_value x) by (apply (Z.mod_unique _ _ (dec_value (c :: s))); lia).
    rewrite IH; [by rewrite digit_char_value|done|destruct s; done|]. rewrite length_app in Hl. cbn in *. lia.
Qed.

Lemma print_digits_head k n : 1 <= n < 10 ^ Z.of_nat (S k) -> exists c s, print_digits (S k) n = c :: s /\ c <> "0"%char.
Proof.
  revert n. induction k as [|k IH]; intros n Hn; cbn [print_digits]; destruct (Z.ltb_spec n 10) as [L|L].
  1, 3: (eexists _, []; split; [done|]; intros E; apply (f_equal char_code) in E; rewrite digit_char_code in E by lia; change (char_code "0") with 48 in E; lia).
  - change (10 ^ Z.of_nat 1) with 10 in Hn. lia.
  - destruct (IH (n / 10)) as (c & s & E & Hc).
    { rewrite (Nat2Z.inj_succ (S k)), Z.pow_succ_r in Hn by lia. split; [apply Z.div_le_lower_bound; lia|apply Z.div_lt_upper_bound; lia]. }
    cbn [print_digits] in E. rewrite E. by exists c, (s ++ [digit_char (n mod 10)]).
Qed.

Lemma print_dec_canonical n : 0 <= n < 2 ^ 64 -> canonical (print_dec n).
Proof.
  intros Hn. destruct (Z.eq_dec n 0) as [->|Hz]; [done|]. destruct (print_digits_head 19 n) as (c & s & E & Hc).
  { change (10 ^ Z.of_nat 20) with 100000000000000000000. lia. }
  unfold print_dec. rewrite E. by destruct s.
Qed.

(** [parse_index] reads exactly the printed numbers up to its limit. *)
Lemma parse_index_print pre n limit from : length pre = from -> 0 <= n <= limit -> limit < 2 ^ 64 -> parse_index (pre ++ print_dec n) from limit = Some n.
Proof.
  intros <- Hn Hl. unfold parse_index. rewrite drop_app_length. pose proof (print_dec_canonical n ltac:(lia)) as C. pose proof (print_dec_digits n ltac:(lia)) as D.
  pose proof (print_dec_value n ltac:(lia)) as V. destruct (print_dec n) as [|c [|d s]]; [done| |]; cbn [canonical] in C.
  - rewrite index_loop_spec, D, V by lia. cbn [andb]. rewrite Z.mul_0_l, Z.add_0_l. by destruct (Z.leb_spec n limit); [|lia].
  - destruct (Ascii.eqb_spec c "0"); [done|]. rewrite index_loop_spec, D, V by lia. cbn [andb]. rewrite Z.mul_0_l, Z.add_0_l. by destruct (Z.leb_spec n limit); [|lia].
Qed.

Lemma parse_index_some s from limit n : 0 <= limit < 10 ^ 20 -> parse_index s from limit = Some n -> 0 <= n <= limit /\ drop from s = print_dec n.
Proof.
  intros Hl. unfold parse_index. assert (K : forall t, t <> [] -> canonical t -> index_loop limit t 0 = Some n -> 0 <= n <= limit /\ t = print_dec n).
  { intros t Ht C. rewrite index_loop_spec, Z.mul_0_l, Z.add_0_l by lia. destruct (forallb is_digit t) eqn:D; [|done]. cbn [andb]. destruct (Z.leb_spec (dec_value t) limit) as [L|]; [|done].
    intros [= <-]. pose proof (dec_value_range t D). split; [lia|]. destruct (decide (length t <= 20)%nat) as [H20|H20]; [unfold print_dec; by rewrite print_digits_value_of|].
    exfalso. destruct t as [|c t]; [done|]. assert (Hn : c <> "0"%char) by (destruct t; [cbn in H20; lia|done]). pose proof (canonical_value_pos c t D Hn).
    rewrite dec_value_cons in L. cbn [length] in H20. assert (10 ^ 20 <= 10 ^ Z.of_nat (length t)) by (apply Z.pow_le_mono_r; lia).
    assert (Hs' : forallb is_digit t = true) by (cbn in D; by apply andb_true_iff in D as [_ ?]). pose proof (dec_value_range t Hs'). nia. }
  destruct (drop from s) as [|c [|d t]]; [done| |].
  - by apply K.
  - destruct (Ascii.eqb_spec c "0"); [done|]. by apply K.
Qed.

(** ** The theorem *)

(** The letters of a name as capitals. *)
Definition capitals (name : text) : text := match name with p :: l :: t => capital p :: capital l :: t | _ => name end.

Lemma letter_bank k : 0 <= k < 26 -> char_code (capital (ascii_of_nat (Z.to_nat (65 + k)))) - 65 = k.
Proof.
  intros Hk. assert (E : char_code (ascii_of_nat (Z.to_nat (65 + k))) = 65 + k) by (unfold char_code; rewrite nat_ascii_embedding by lia; lia).
  unfold capital. rewrite E. destruct (Z.leb_spec 97 (65 + k)); [lia|]. cbn [andb]. rewrite E. lia.
Qed.

(** Pin names mean one pin.  On a board of up to 26 banks: every number of the
    board has a name and the name resolves to that number; a name that resolves has
    a number of the board, and is that number's name up to the case of its two
    letters - so leading zeros, signs, blanks or digits past the bank never pass.
    With plain numbers as names the same holds of the digits. *)
Theorem pin_names_exact (size banks : Z) : 0 < size <= 2 ^ 20 -> 0 < banks <= 26 ->
  let R := BankPinResolver size banks in
  (forall n, 0 <= n < banks * size -> resolve R (name_of R n) = Some n)
  /\ (forall s n, resolve R s = Some n -> 0 <= n < banks * size /\ capitals s = name_of R n)
  /\ (forall n, n < 0 \/ banks * size <= n -> name_of R n = [])
  /\ (forall n, 0 <= n <= 2 ^ 20 -> resolve NumericPinResolver (name_of NumericPinResolver n) = Some n)
  /\ (forall s n, resolve NumericPinResolver s = Some n ->
      0 <= n <= 2 ^ 20 /\ (s = print_dec n \/ s = txt "gpio" ++ print_dec n \/ s = txt "GPIO" ++ print_dec n)).
Proof.
  intros Hs Hb R. split; [|split; [|split; [|split]]].
  - intros n Hn. cbn [R resolve name_of BankPinResolver]. unfold bank_name_of. destruct (Z.ltb_spec n 0); [lia|]. destruct (Z.leb_spec (banks * size) n); [lia|].
    cbn [orb]. pose proof (Z.mod_pos_bound n size ltac:(lia)). pose proof (Z.div_mod n size ltac:(lia)).
    assert (Hq : 0 <= n / size < banks) by (split; [apply Z.div_pos; lia|apply Z.div_lt_upper_bound; lia]).
    pose proof (print_dec_nonempty (n mod size)) as Hne. pose proof (parse_index_print ["P"%char; ascii_of_nat (Z.to_nat (65 + n / size))] (n mod size) (size - 1) 2 eq_refl ltac:(lia) ltac:(lia)) as P.
    cbn [app] in P. unfold bank_resolve. rewrite P. destruct (print_dec (n mod size)) as [|c t] eqn:E; [done|]. cbn [Ascii.eqb negb andb].
    rewrite letter_bank by lia. destruct (Z.ltb_spec (n / size) 0); [lia|]. destruct (Z.leb_spec banks (n / size)); [lia|]. cbn. f_equal. lia.
  - intros s n. cbn [R resolve name_of BankPinResolver]. unfold bank_resolve. destruct s as [|p [|l [|c t]]]; try done. destruct (_ && _) eqn:Ep; [done|].
    set (k := char_code (capital l) - 65). destruct ((k <? 0) || (banks <=? k)) eqn:Ek; [done|]. apply orb_false_iff in Ek as [K1%Z.ltb_ge K2%Z.leb_gt].
    destruct (parse_index _ _ _) as [idx|] eqn:Ei; [|done]. intros [= <-]. apply parse_index_some in Ei as [Hi Ed]; [|lia]. cbn [drop] in Ed.
    split; [nia|]. unfold bank_name_of. destruct (Z.ltb_spec (k * size + idx) 0); [nia|]. destruct (Z.leb_spec (banks * size) (k * size + idx)); [nia|]. cbn [orb].
    rewrite (Z.div_add_l k size idx) by lia. rewrite (Z.div_small idx size), Z.add_0_r by lia. replace ((k * size + idx) mod size) with idx by (apply (Z.mod_unique _ _ k); lia).
    cbn [capitals]. rewrite <- Ed. f_equal; [|f_equal].
    + apply andb_false_iff in Ep as [E%negb_false_iff|E%negb_false_iff]; apply Ascii.eqb_eq in E as ->; done.
    + unfold k, char_code. replace (Z.to_nat (65 + (Z.of_nat (nat_of_ascii (capital l)) - 65))) with (nat_of_ascii (capital l)) by (unfold k, char_code in K1; lia). by rewrite ascii_nat_embedding.
  - intros n Hn. cbn [R name_of BankPinResolver]. unfold bank_name_of. destruct (Z.ltb_spec n 0); [done|]. destruct (Z.leb_spec (banks * size) n); [done|lia].
  - intros n Hn. cbn [resolve name_of NumericPinResolver]. unfold numeric_name_of. destruct (Z.ltb_spec n 0); [lia|]. unfold numeric_resolve.
    assert (G : text_eqb (take 4 (print_dec n)) (txt "gpio") = false /\ text_eqb (take 4 (print_dec n)) (txt "GPIO") = false).
    { pose proof (print_dec_digits n ltac:(lia)) as D. destruct (print_dec n) as [|c t]; [done|]. cbn in D. apply andb_true_iff in D as [D _].
      split; apply bool_decide_eq_false; intros E; injection E as -> _; done. }
    destruct G as [-> ->]. rewrite andb_false_r. exact (parse_index_print [] n (2 ^ 20) 0 eq_refl Hn ltac:(lia)).
  - intros s n. cbn [resolve NumericPinResolver]. unfold numeric_resolve. destruct (_ && _) eqn:E; intros H; apply parse_index_some in H as [Hn Ed]; try lia; (split; [lia|]).
    + apply andb_true_iff in E as [_ E]. right. apply orb_true_iff in E as [E|E]; apply bool_decide_eq_true in E; [left|right]; by rewrite <- E, <- Ed, take_drop.
    + left. exact Ed.
Qed.

Lemma pin_names_exact_witness : resolve (BankPinResolver 32 6) (txt "PB18") = Some 50 /\ capitals (txt "pb18") = name_of (BankPinResolver 32 6) 50.
Proof.
  destruct (pin_names_exact 32 6 ltac:(lia) ltac:(lia)) as (H1 & H2 & _). split; [apply (H1 50); lia|]. apply H2. by vm_compute.
Defined.
