(* ===== verification/Night.v ===== *)
(** * Day and night

    [core/night/night_service.{hpp,cpp}]: [NightService], which holds the running
    mode of the image, the IR-cut filter and the camera light, switched by hand or by
    the photocell.  It sits on [Tuning] for the image, on [ConfigStore] for its
    settings and on the port [ports/igpio.hpp], whose answers are the class [Gpio].
    Every public method runs under the mutex and is one computation. *)

From S2P Require Import Prelude Text CoreTypes StreamHub Pipeline PipelineSystem PipelineSpec Tuning StateStore ConfigStore Pins.

(** ** Settings *)

Record NightPins := {
  p_ircut : bool; p_ircut_pin1 : text; p_ircut_pin2 : text; p_single_invert : bool;
  p_backlight : bool; p_backlight_pin : text;
  p_sensor_pin : text; p_sensor_invert : bool; p_light_monitor : bool; p_color_to_gray : bool;
  p_night_delay : Z; p_day_delay : Z
}.

Definition is_true (v : text) : bool := text_eqb v (txt "true").

(** The lambda [secs]. *)
Definition secs (v : text) (def : Z) : Z :=
  match v with
  | [] => def
  | _ => let n := atoi v in if (0 <=? n) && (n <=? 3600) then n else def
  end.

(** The board's defaults: coil pins and photocell. *)
Record Defaults := { def_ircut_pin1 : text; def_ircut_pin2 : text; def_sensor_pin : text }.

(** [pins], from the text of the store. *)
Definition pins_of (store : text) (d : Defaults) : NightPins :=
  let get k := config_text_get store (txt k) in
  let pin1 := get "night.ircut_pin1" in
  let pin2 := get "night.ircut_pin2" in
  let unset := match pin1, pin2 with [], [] => true | _, _ => false end in
  let sensor := get "night.light_sensor_pin" in
  {| p_ircut := is_true (get "night.ircut");
     p_ircut_pin1 := if unset then def_ircut_pin1 d else pin1;
     p_ircut_pin2 := if unset then def_ircut_pin2 d else pin2;
     p_single_invert := is_true (get "night.ircut_single_invert");
     p_backlight := is_true (get "night.backlight");
     p_backlight_pin := get "night.backlight_pin";
     p_sensor_pin := match sensor with [] => def_sensor_pin d | _ => sensor end;
     p_sensor_invert := is_true (get "night.light_sensor_invert");
     p_light_monitor := is_true (get "night.light_monitor");
     p_color_to_gray := negb (text_eqb (get "night.color_to_gray") (txt "false"));
     p_night_delay := secs (get "night.auto_night_delay") 3;
     p_day_delay := secs (get "night.auto_day_delay") 3 |}.

(** ** The port *)

(** The calls on it, and the pause of the coil's pulse. *)
Inductive gcall :=
| ConfigureOutput (n : text) (level : bool) (r : Result)
| ConfigureInput (n : text) (r : Result)
| WritePin (n : text) (level : bool) (r : Result)
| ReadPin (n : text) (r : Result) (level : bool)
| SleepMs (ms : Z).

(** [IGpioController], as functions of the calls made before; [gp_available] is
    [gpio_ && gpio_->available()]. *)
Class Gpio := {
  gp_available : list gcall -> bool;
  gp_configure_output : list gcall -> text -> bool -> Result;
  gp_configure_input : list gcall -> text -> Result;
  gp_write : list gcall -> text -> bool -> Result;
  gp_read : list gcall -> text -> Result * bool
}.

(** ** The state *)

Record Auto := {
  input_pin : text; retry_at_ms : Z; committed : Z; candidate : Z; candidate_since_ms : Z; raw : Z; pending_s : Z;
  announced : bool; error : text; switch_error : text; actuator_pending : bool; actuator_tries : Z
}.
#[export] Instance Auto_eta : Settable Auto := fun a =>
  Build_Auto (input_pin a) (retry_at_ms a) (committed a) (candidate a) (candidate_since_ms a) (raw a) (pending_s a) (announced a) (error a) (switch_error a)
    (actuator_pending a) (actuator_tries a).

Record Night := {
  tuning_ : Tuning;
  gpio_log : list gcall;           (* newest first *)
  store_ : text;                   (* the text of the store *)
  resolver_ : option Resolver;
  night_ : bool; ircut_ : bool; ircut_driven_ : Z; light_ : bool;
  defaults_ : Defaults;
  auto_ : Auto
}.
#[export] Instance Night_eta : Settable Night := fun s =>
  Build_Night (tuning_ s) (gpio_log s) (store_ s) (resolver_ s) (night_ s) (ircut_ s) (ircut_driven_ s) (light_ s) (defaults_ s) (auto_ s).

Definition Auto_default : Auto :=
  {| input_pin := []; retry_at_ms := 0; committed := -1; candidate := -1; candidate_since_ms := 0; raw := -1; pending_s := -1;
     announced := false; error := []; switch_error := []; actuator_pending := false; actuator_tries := 0 |}.

(** The constructor and [set_default_pins]. *)
Definition make_night (t : Tuning) (store : text) (r : option Resolver) (d : Defaults) : Night :=
  {| tuning_ := t; gpio_log := []; store_ := store; resolver_ := r; night_ := false; ircut_ := true; ircut_driven_ := -1; light_ := false;
     defaults_ := d; auto_ := Auto_default |}.

Definition pins : Night -> NightPins := fun s => pins_of (store_ s) (defaults_ s).

(** [gpio_err]. *)
Definition gpio_err (what : string) (pin : text) (r : Result) : text :=
  let why := match status r with
             | Busy => "pin is held by another driver" | Unsupported => "not supported on this platform" | Timeout => "timed out" | _ => "failed"
             end in
  txt what ++ txt " " ++ pin ++ txt ": " ++ txt why ++ (if code r =? 0 then [] else txt " (code " ++ print_int (code r) ++ txt ")").

(** [pin_name_]: a number goes through the board's resolver, anything else is a name. *)
Definition pin_name_ (r : option Resolver) (pin : text) : text :=
  match pin with
  | [] => []
  | _ => if forallb is_digit pin then match r with Some r => name_of r (atoi pin) | None => [] end else pin
  end.

Definition is_empty (s : text) : bool := match s with [] => true | _ => false end.

Section Service.
Context `{Platform} `{Gpio}.

Definition on_tuning {A} (f : ST Tuning A) : ST Night A := fun s => let '(r, t) := f (tuning_ s) in (r, s <| tuning_ := t |>).

Definition gpio {A} (f : list gcall -> A) : ST Night A := gets (fun s => f (gpio_log s)).
Definition record (c : gcall) : ST Night unit := modify (fun s => s <| gpio_log ::= cons c |>).

Definition configure_output (n : text) (level : bool) : ST Night Result :=
  r ← gpio (fun h => gp_configure_output h n level); record (ConfigureOutput n level r) ;; mret r.
Definition configure_input (n : text) : ST Night Result :=
  r ← gpio (fun h => gp_configure_input h n); record (ConfigureInput n r) ;; mret r.
Definition write_pin (n : text) (level : bool) : ST Night Result :=
  r ← gpio (fun h => gp_write h n level); record (WritePin n level r) ;; mret r.
Definition read_pin (n : text) : ST Night (Result * bool) :=
  r ← gpio (fun h => gp_read h n); record (ReadPin n r.1 r.2) ;; mret r.

(** A pin held at a level: configured, then written. *)
Definition hold_pin (what : string) (n : text) (level : bool) : ST Night text :=
  r ← configure_output n level;
  if negb (is_ok r) then mret (gpio_err what n r) else
  r ← write_pin n level;
  if negb (is_ok r) then mret (gpio_err what n r) else mret [].

(** The pulse of the two coils. *)
Definition pulse (hi lo : text) : ST Night text :=
  r ← configure_output hi false;
  if negb (is_ok r) then mret (gpio_err "IR-cut pin" hi r) else
  r ← configure_output lo false;
  if negb (is_ok r) then mret (gpio_err "IR-cut pin" lo r) else
  write_pin lo false ;;
  write_pin hi true ;;
  record (SleepMs 150) ;;
  write_pin hi false ;;
  mret [].

Definition drive_ircut_ (engaged : bool) : ST Night text :=
  s ← gets id;
  let p := pins s in
  available ← gpio gp_available;
  if negb (p_ircut p) then mret (txt "the IR-cut filter is set to off in Day / Night settings") else
  if negb available then mret (txt "no GPIO on this platform") else
  if is_empty (p_ircut_pin1 p) then mret (txt "no IR-cut pin configured in Day / Night settings") else
  let n1 := pin_name_ (resolver_ s) (p_ircut_pin1 p) in
  if is_empty n1 then mret (txt "IR-cut pin 1 '" ++ p_ircut_pin1 p ++ txt "': not a valid pin") else
  if is_empty (p_ircut_pin2 p) then
    e ← hold_pin "IR-cut pin" n1 (xorb engaged (p_single_invert p));
    when (is_empty e) (modify (fun s => s <| ircut_ := engaged |>)) ;;
    mret e
  else
  let n2 := pin_name_ (resolver_ s) (p_ircut_pin2 p) in
  if is_empty n2 then mret (txt "IR-cut pin 2 '" ++ p_ircut_pin2 p ++ txt "': not a valid pin") else
  if ircut_driven_ s =? Z.b2z engaged then modify (fun s => s <| ircut_ := engaged |>) ;; mret [] else
  e ← pulse (if engaged then n1 else n2) (if engaged then n2 else n1);
  when (is_empty e) (modify (fun s => s <| ircut_ := engaged |> <| ircut_driven_ := Z.b2z engaged |>)) ;;
  mret e.

Definition drive_light_ (on : bool) : ST Night text :=
  s ← gets id;
  let p := pins s in
  available ← gpio gp_available;
  if negb (p_backlight p) then mret (txt "the camera light is set to off in Day / Night settings") else
  if negb available then mret (txt "no GPIO on this platform") else
  if is_empty (p_backlight_pin p) then mret (txt "no light pin configured in Day / Night settings") else
  let bn := pin_name_ (resolver_ s) (p_backlight_pin p) in
  if is_empty bn then mret (txt "light pin '" ++ p_backlight_pin p ++ txt "': not a valid pin") else
  e ← hold_pin "light pin" bn on;
  when (is_empty e) (modify (fun s => s <| light_ := on |>)) ;;
  mret e.

(** The running mode of the night: [set_image_override], with its message. *)
Definition hold_running_mode (gray : bool) : ST Night text :=
  ar ← on_tuning (set_image_override RunningMode (if gray then 1 else 0));
  mret (if ar_ok ar then [] else match message ar with EmptyString => txt "running_mode could not be applied" | m => txt m end).

(** [set_night_locked_]: its result, and what it puts into [actuator_error]. *)
Definition set_night_locked_ (on : bool) : ST Night (text * text) :=
  p ← gets pins;
  e ← (if on : bool then hold_running_mode (p_color_to_gray p)
       else on_tuning (clear_image_override RunningMode 0) ;; mret []);
  if negb (is_empty e) then mret (e, []) else
  modify (fun s => s <| night_ := on |>) ;;
  ae ← (if p_ircut p && negb (is_empty (p_ircut_pin1 p)) then drive_ircut_ (negb on) else mret []);
  ae ← (if p_backlight p && negb (is_empty (p_backlight_pin p)) then
          le ← drive_light_ on; mret (if is_empty ae then le else ae)
        else mret ae);
  mret ([], ae).

Definition set_night (on : bool) : ST Night text := r ← set_night_locked_ on; mret r.1.
Definition toggle_night : ST Night (text * bool) :=
  n ← gets night_;
  r ← set_night_locked_ (negb n);
  out ← gets night_;
  mret (r.1, out).
Definition toggle_ircut : ST Night text := i ← gets ircut_; drive_ircut_ (negb i).
Definition toggle_light : ST Night text := l ← gets light_; drive_light_ (negb l).

Definition reapply_running_mode : ST Night text :=
  p ← gets pins;
  n ← gets night_;
  if n : bool then hold_running_mode (p_color_to_gray p)
  else on_tuning (clear_image_override RunningMode 0) ;; mret [].

(** *** The automation *)

Definition on_auto (f : Auto -> Auto) : ST Night unit := modify (fun s => s <| auto_ ::= f |>).

(** The lambda [fail]. *)
Definition fail (why : text) : ST Night (option Z) :=
  on_auto (fun a => a <| error := why |> <| raw := -1 |> <| pending_s := -1 |>) ;; mret None.

(** The first half of [tick]: what the photocell says, 1 for dark. *)
Definition sense (now : Z) : ST Night (option Z) :=
  s ← gets id;
  let p := pins s in
  if negb (p_light_monitor p) then
    on_auto (fun a => a <| committed := -1 |> <| candidate := -1 |> <| raw := -1 |> <| pending_s := -1 |> <| announced := false |>
                        <| actuator_pending := false |> <| actuator_tries := 0 |> <| error := [] |> <| switch_error := [] |>) ;;
    mret None
  else
  available ← gpio gp_available;
  if negb available then fail (txt "no GPIO on this platform") else
  if is_empty (p_sensor_pin p) then fail (txt "no daylight sensor pin configured in Day / Night settings") else
  let name := pin_name_ (resolver_ s) (p_sensor_pin p) in
  if is_empty name then fail (txt "daylight sensor pin '" ++ p_sensor_pin p ++ txt "': not a valid pin") else
  ready ← (if text_eqb (input_pin (auto_ s)) name then mret (Some Res.ok)
           else if now <? retry_at_ms (auto_ s) then mret None
           else r ← configure_input name; mret (Some r));
  match ready with
  | None => mret None
  | Some r =>
      if negb (is_ok r) then on_auto (fun a => a <| retry_at_ms := now + 60000 |>) ;; fail (gpio_err "daylight sensor" name r) else
      on_auto (fun a => a <| input_pin := name |>) ;;
      r ← read_pin name;
      if negb (is_ok r.1) then
        on_auto (fun a => a <| input_pin := [] |> <| retry_at_ms := now + 60000 |>) ;; fail (gpio_err "daylight sensor" name r.1)
      else
      let dark := if xorb r.2 (p_sensor_invert p) then 1 else 0 in
      on_auto (fun a => a <| error := [] |> <| raw := dark |>) ;;
      mret (Some dark)
  end.

(** The lambda [apply]. *)
Definition switch_to (dark : Z) : ST Night unit :=
  r ← set_night_locked_ (dark =? 1);
  if negb (is_empty r.1) then on_auto (fun a => a <| switch_error := r.1 |> <| pending_s := 0 |>)
  else
    on_auto (fun a => a <| committed := dark |> <| candidate := -1 |> <| pending_s := -1 |>) ;;
    if negb (is_empty r.2) then on_auto (fun a => a <| switch_error := r.2 |> <| actuator_pending := true |> <| actuator_tries := 0 |>)
    else on_auto (fun a => a <| switch_error := [] |> <| actuator_pending := false |>).

(** An actuator that did not follow is tried again. *)
Definition retry_actuator (dark : Z) : ST Night unit :=
  s ← gets id;
  if actuator_pending (auto_ s) && Bool.eqb (night_ s) (dark =? 1) then
    r ← set_night_locked_ (dark =? 1);
    if is_empty r.2 then on_auto (fun a => a <| actuator_pending := false |> <| switch_error := [] |>)
    else
      on_auto (fun a => a <| actuator_tries ::= Z.succ |>) ;;
      tries ← gets (fun s => actuator_tries (auto_ s));
      if 5 <=? tries then on_auto (fun a => a <| actuator_pending := false |> <| switch_error := r.2 |>)
      else on_auto (fun a => a <| switch_error := r.2 |>)
  else when (actuator_pending (auto_ s)) (on_auto (fun a => a <| actuator_pending := false |>)).

(** The second half of [tick]. *)
Definition decide_mode (now dark : Z) : ST Night unit :=
  s ← gets id;
  let p := pins s in
  if committed (auto_ s) <? 0 then
    on_auto (fun a => a <| announced := true |>) ;;
    switch_to dark
  else if dark =? committed (auto_ s) then
    on_auto (fun a => a <| candidate := -1 |> <| pending_s := -1 |>) ;;
    retry_actuator dark
  else
    when (negb (candidate (auto_ s) =? dark)) (on_auto (fun a => a <| candidate := dark |> <| candidate_since_ms := now |> <| switch_error := [] |>)) ;;
    since ← gets (fun s => candidate_since_ms (auto_ s));
    let need := (if dark =? 1 then p_night_delay p else p_day_delay p) * 1000 in
    let left := need - (now - since) in
    if 0 <? left then on_auto (fun a => a <| pending_s := (left + 999) / 1000 |>) else switch_to dark.

Definition tick (now : Z) : ST Night unit :=
  r ← sense now;
  match r with Some dark => decide_mode now dark | None => skip end.
End Service.

(** ** What the service tells *)

Record AutoState := { enabled : bool; sensing : bool; as_dark : Z; as_pending_s : Z; as_error : text }.
Definition auto_state (s : Night) : AutoState :=
  let a := auto_ s in
  let on := p_light_monitor (pins s) in
  {| enabled := on; sensing := on && negb (is_empty (input_pin a)) && is_empty (error a); as_dark := raw a; as_pending_s := pending_s a;
     as_error := if is_empty (error a) then switch_error a else error a |}.

(** [pin_number_]. *)
Definition pin_number_ (r : option Resolver) (pin : text) : Z :=
  match pin with
  | [] => -1
  | _ => if forallb is_digit pin then atoi pin
         else match r with Some r => match resolve r pin with Some n => n | None => -1 end | None => -1 end
  end.

(** The loop over [night.avoid]. *)
Fixpoint tokens (s cur : text) : list text :=
  match s with
  | [] => match cur with [] => [] | _ => [cur] end
  | c :: s => if Ascii.eqb c "," then cur :: tokens s [] else tokens s (cur ++ [c])
  end.
Fixpoint skip_tabs (s : text) : text :=
  match s with
  | c :: s' => if Ascii.eqb c " " || Ascii.eqb c "009" then skip_tabs s' else s
  | [] => []
  end.

Record GpioMap := { bank_bases : list Z; gm_bank_size : Z; held : list (Z * string); assigned : list (Z * string); avoid : list Z; owners_unknown : bool }.
Definition gpio_map (s : Night) : GpioMap :=
  let p := pins s in
  let known l := base.filter (fun x : Z * string => 0 <= x.1) (map (fun x : text * string => (pin_number_ (resolver_ s) x.1, x.2)) l) in
  let usb := config_text_get (store_ s) (txt "usb.power_pin") in
  {| bank_bases := [0; 32; 64; 96; 128; 160]; gm_bank_size := 32;
     held := known (match usb with [] => [] | _ => [(usb, "machino (usb power)")] end);
     assigned := known [(p_ircut_pin1 p, "irCutPin1"); (p_ircut_pin2 p, "irCutPin2"); (p_backlight_pin p, "backlightPin"); (p_sensor_pin p, "lightSensorPin")];
     avoid := base.filter (fun n => 0 <= n)
                (omap (fun t => match skip_tabs t with [] => None | t => Some (atoi t) end) (tokens (config_text_get (store_ s) (txt "night.avoid")) []));
     owners_unknown := true |}.
