(* ===== verification/NightSpec.v ===== *)
(** * What holds of day and night

    Histories of [Night.NightService]: what they do to the image, to the coils and
    to the photocell's decisions. *)

From S2P Require Import Prelude Text CoreTypes StreamHub Pipeline PipelineSystem PipelineSpec Tuning StateStore ConfigStore Pins Night.

(** ** Histories *)

(** The buttons, the automation's beat, a change of the settings, and the other
    users of the image controls. *)
Inductive nop :=
| SetNight (on : bool) | ToggleNight | ToggleIrcut | ToggleLight | Reapply
| Tick (now : Z)
| StoreText (t : text)
| Image (k : call).

Section Service.
Context `{Platform} `{Gpio}.

Definition step (o : nop) : ST Night unit :=
  match o with
  | SetNight on => set_night on ;; skip
  | ToggleNight => toggle_night ;; skip
  | ToggleIrcut => toggle_ircut ;; skip
  | ToggleLight => toggle_light ;; skip
  | Reapply => reapply_running_mode ;; skip
  | Tick now => tick now
  | StoreText t => modify (fun s => s <| store_ := t |>)
  | Image k => on_tuning (perform k)
  end.

Definition nrun (l : list nop) (s : Night) : Night := foldl (fun s o => exec (step o) s) s l.

Lemma nrun_snoc l o s : nrun (l ++ [o]) s = exec (step o) (nrun l s).
Proof. unfold nrun. by rewrite foldl_app. Qed.

(** The image controls have no other owner of the running mode. *)
Definition nop_own (o : nop) : Prop := match o with Image k => own k /\ not_hold RunningMode k | _ => True end.

(** ** What the pieces leave alone *)

(** All but the members an actuator sets. *)
Definition beyond_pins (s : Night) := (tuning_ s, store_ s, resolver_ s, night_ s, defaults_ s, auto_ s).
(** All but the tuning, the mode and the actuators. *)
Definition beyond_mode (s : Night) := (store_ s, resolver_ s, defaults_ s, auto_ s).

Lemma beyond_pins_eq s s' : beyond_pins s = beyond_pins s' -> tuning_ s = tuning_ s' /\ store_ s = store_ s' /\ night_ s = night_ s' /\ auto_ s = auto_ s' /\ defaults_ s = defaults_ s' /\ resolver_ s = resolver_ s'.
Proof. unfold beyond_pins. by intros [= -> -> -> -> -> ->]. Qed.
Lemma beyond_mode_eq s s' : beyond_mode s = beyond_mode s' -> store_ s = store_ s' /\ auto_ s = auto_ s' /\ defaults_ s = defaults_ s' /\ resolver_ s = resolver_ s'.
Proof. unfold beyond_mode. by intros [= -> -> -> ->]. Qed.

Lemma keep_record c : keeping beyond_pins (record c).
Proof. by apply keeping_modify. Qed.
#[local] Hint Resolve keep_record : keeping.
Lemma keep_gpio {A} (f : list gcall -> A) : keeping beyond_pins (gpio f).
Proof. apply keeping_gets. Qed.
#[local] Hint Resolve keep_gpio : keeping.
Lemma keep_configure n l : keeping beyond_pins (configure_output n l).
Proof. unfold configure_output. keep_go. Qed.
Lemma keep_write n l : keeping beyond_pins (write_pin n l).
Proof. unfold write_pin. keep_go. Qed.
#[local] Hint Resolve keep_configure keep_write : keeping.
Lemma keep_hold_pin w n l : keeping beyond_pins (hold_pin w n l).
Proof. unfold hold_pin. keep_go. Qed.
Lemma keep_pulse h l : keeping beyond_pins (pulse h l).
Proof. unfold pulse. keep_go. Qed.
#[local] Hint Resolve keep_hold_pin keep_pulse : keeping.
Lemma keep_drive_ircut e : keeping beyond_pins (drive_ircut_ e).
Proof. unfold drive_ircut_. keep_go. Qed.
Lemma keep_drive_light e : keeping beyond_pins (drive_light_ e).
Proof. unfold drive_light_. keep_go. Qed.

Lemma beyond {A} (f : ST Night A) : keeping beyond_pins f -> keeping beyond_mode f.
Proof. intros Hf s. specialize (Hf s). unfold beyond_pins, beyond_mode in *. congruence. Qed.
#[local] Hint Extern 2 (keeping beyond_mode (drive_ircut_ _)) => apply beyond, keep_drive_ircut : keeping.
#[local] Hint Extern 2 (keeping beyond_mode (drive_light_ _)) => apply beyond, keep_drive_light : keeping.
#[local] Hint Resolve keep_drive_ircut keep_drive_light : keeping.

Lemma keep_on_tuning {A} (f : ST Tuning A) : keeping beyond_mode (on_tuning f).
Proof. intros s. unfold exec, on_tuning. by destruct (f (tuning_ s)). Qed.
#[local] Hint Resolve keep_on_tuning : keeping.
Lemma keep_running_mode g : keeping beyond_mode (hold_running_mode g).
Proof. unfold hold_running_mode. keep_go. Qed.
#[local] Hint Resolve keep_running_mode : keeping.
Lemma keep_set_night on : keeping beyond_mode (set_night_locked_ on).
Proof. unfold set_night_locked_. keep_go. Qed.
#[local] Hint Resolve keep_set_night : keeping.

(** ** The running mode *)

Definition mode_of (s : Night) : Z := override_ (tuning_ s) RunningMode.

(** The night holds the running mode, the day does not. *)
Definition owned (s : Night) : Prop := if night_ s then mode_of s = 0 \/ mode_of s = 1 else mode_of s = -1.

(** What nothing but the user changes. *)
Definition users (t : Tuning) := (image_ t, image_caps_ t, requested_ t RunningMode).

Lemma wp_on_tuning {A} (f : ST Tuning A) (Q : A -> Night -> Prop) s :
  wp f (fun a t => Q a (s <| tuning_ := t |>)) (tuning_ s) -> wp (on_tuning f) Q s.
Proof. unfold wp, on_tuning, result, exec. by destruct (f (tuning_ s)). Qed.

Lemma hold_running_mode_spec g s :
  wp (hold_running_mode g) (fun e s' => users (tuning_ s') = users (tuning_ s) /\ night_ s' = night_ s /\ gpio_log s' = gpio_log s /\ ircut_driven_ s' = ircut_driven_ s
    /\ mode_of s' = if is_empty e then (if g then 1 else 0) else mode_of s) s.
Proof.
  unfold hold_running_mode. apply wp_bind, wp_on_tuning. wp_call (set_override_frame RunningMode RunningMode (if g then 1 else 0) (tuning_ s)).
  intros r t (E1 & E2 & E3 & _ & E5). apply wp_ret. unfold users, mode_of. cbn. rewrite E1, E2, E3, E5 by done. split_and!; try done.
  destruct (ar_ok r); [done|]. destruct (message r); [done|]. done.
Qed.

Lemma release_mode_spec s :
  wp (on_tuning (clear_image_override RunningMode 0)) (fun _ s' => users (tuning_ s') = users (tuning_ s) /\ night_ s' = night_ s
    /\ gpio_log s' = gpio_log s /\ ircut_driven_ s' = ircut_driven_ s /\ mode_of s' = -1) s.
Proof.
  apply wp_on_tuning. wp_call (clear_override_frame RunningMode RunningMode 0 (tuning_ s)). intros _ t (E1 & E2 & E3 & _ & E5).
  unfold users, mode_of. cbn. rewrite E1, E2, E3, E5 by done. done.
Qed.

(** A switch: the mode, then the actuators. *)
Lemma set_night_spec on s :
  wp (set_night_locked_ on) (fun r s' => users (tuning_ s') = users (tuning_ s) /\ beyond_mode s' = beyond_mode s
    /\ if is_empty r.1 then night_ s' = on /\ mode_of s' = (if on then (if p_color_to_gray (pins s) then 1 else 0) else -1)
       else on = true /\ r.2 = [] /\ night_ s' = night_ s /\ mode_of s' = mode_of s) s.
Proof.
  apply (wp_mono _ (fun r s' => (users (tuning_ s') = users (tuning_ s) /\ if is_empty r.1 then night_ s' = on /\ mode_of s' = (if on then (if p_color_to_gray (pins s) then 1 else 0) else -1)
       else on = true /\ r.2 = [] /\ night_ s' = night_ s /\ mode_of s' = mode_of s) /\ beyond_mode s' = beyond_mode s)); [|tauto].
  apply wp_conj; [|apply (keeping_wp _ _ s (keep_set_night on))]. unfold set_night_locked_. apply wp_bind, wp_gets, wp_bind.
  apply (wp_mono _ (fun e s1 => users (tuning_ s1) = users (tuning_ s) /\ night_ s1 = night_ s
    /\ if is_empty e then mode_of s1 = (if on then (if p_color_to_gray (pins s) then 1 else 0) else -1) else on = true /\ mode_of s1 = mode_of s)).
  { destruct on.
    - wp_call (hold_running_mode_spec (p_color_to_gray (pins s)) s). intros e s1 (E1 & E2 & _ & _ & E3). split; [done|]. split; [done|]. by destruct (is_empty e).
    - apply wp_bind. wp_call (release_mode_spec s). intros _ s1 (E1 & E2 & _ & _ & E3). by apply wp_ret. }
  intros e s1 (E1 & E2 & E3). destruct (is_empty e) eqn:Ee; cbn [negb]; [|apply wp_ret; cbn [fst snd]; rewrite Ee; by destruct E3].
  apply wp_bind, wp_modify. set (s2 := s1 <| night_ := on |>). assert (F : tuning_ s2 = tuning_ s1 /\ night_ s2 = on) by done. clearbody s2. destruct F as [F1 F2].
  match goal with |- wp ?m _ _ => assert (K : keeping beyond_pins m /\ forall x, result m x = ([], (result m x).2)) end.
  { split; [keep_go|]. intros x. unfold result, mbind, st_bind. repeat (case_match; subst; try done). }
  destruct K as [K R]. unfold wp. rewrite R. cbn [fst is_empty]. destruct (beyond_pins_eq _ _ (K s2)) as (K1 & _ & K2 & _). unfold mode_of in *. by rewrite K1, K2, F1, F2.
Qed.

Lemma owned_set on s : owned s -> wp (set_night_locked_ on) (fun _ s' => owned s' /\ users (tuning_ s') = users (tuning_ s)) s.
Proof.
  intros O. wp_call (set_night_spec on s). intros r s' (U & _ & E). split; [|done]. unfold owned in *. destruct (is_empty r.1).
  - destruct E as [-> ->]. destruct on; [|done]. destruct (p_color_to_gray _); auto.
  - destruct E as (_ & _ & -> & ->). done.
Qed.

(** ** The photocell *)

(** All but the automation and the log of the pins. *)
Definition beyond_auto (s : Night) := (tuning_ s, store_ s, resolver_ s, night_ s, ircut_ s, ircut_driven_ s, light_ s, defaults_ s).

Lemma beyond_auto_eq s s' : beyond_auto s = beyond_auto s' -> tuning_ s = tuning_ s' /\ store_ s = store_ s' /\ night_ s = night_ s' /\ ircut_driven_ s = ircut_driven_ s'
  /\ defaults_ s = defaults_ s' /\ resolver_ s = resolver_ s'.
Proof. unfold beyond_auto. intros [= E1 E2 E3 E4 E5 E6 E7 E8]. split_and!; done. Qed.

Lemma keep_on_auto f : keeping beyond_auto (on_auto f).
Proof. by apply keeping_modify. Qed.
Lemma keep_auto_record c : keeping beyond_auto (record c).
Proof. by apply keeping_modify. Qed.
Lemma keep_auto_gpio {A} (f : list gcall -> A) : keeping beyond_auto (gpio f).
Proof. apply keeping_gets. Qed.
#[local] Hint Resolve keep_on_auto keep_auto_record keep_auto_gpio : keeping.
Lemma keep_sense now : keeping beyond_auto (sense now).
Proof. unfold sense, fail, configure_input, read_pin. keep_go. Qed.

(** What [sense] leaves of a decision under way. *)
Definition deciding (a : Auto) := (committed a, candidate a, candidate_since_ms a, actuator_pending a, actuator_tries a).

Definition sense_post (s : Night) (r : option Z) (s' : Night) : Prop :=
  match r with
  | Some d => p_light_monitor (pins s) = true /\ (d = 0 \/ d = 1) /\ deciding (auto_ s') = deciding (auto_ s)
  | None => if p_light_monitor (pins s) then deciding (auto_ s') = deciding (auto_ s) else committed (auto_ s') = -1 /\ candidate (auto_ s') = -1
  end.

Lemma sense_spec now s : wp (sense now) (fun r s' => sense_post s r s' /\ beyond_auto s' = beyond_auto s) s.
Proof.
  apply wp_conj; [|apply (keeping_wp _ _ s (keep_sense now))]. unfold sense. apply wp_bind, wp_gets. unfold id. cbv zeta.
  destruct (p_light_monitor (pins s)) eqn:Em; cbn [negb].
  2: { apply wp_bind, wp_modify, wp_ret. unfold sense_post. by rewrite Em. }
  assert (Hfail : forall w s1, deciding (auto_ s1) = deciding (auto_ s) -> wp (fail w) (fun r s' => sense_post s r s') s1).
  { intros w s1 E. unfold fail. apply wp_bind, wp_modify, wp_ret. unfold sense_post. by rewrite Em. }
  apply wp_bind, wp_gets. destruct (gp_available _); cbn [negb]; [|by apply Hfail]. destruct (is_empty (p_sensor_pin _)); [by apply Hfail|].
  destruct (is_empty _); [by apply Hfail|]. apply wp_bind.
  apply (wp_mono _ (fun _ s1 => deciding (auto_ s1) = deciding (auto_ s))).
  { destruct (text_eqb _ _); [by apply wp_ret|]. destruct (_ <? _); [by apply wp_ret|]. apply wp_bind. unfold configure_input. by apply wp_bind, wp_gets, wp_bind, wp_modify, wp_ret, wp_ret. }
  intros [r|] s1 E1; [|apply wp_ret; unfold sense_post; by rewrite Em]. destruct (is_ok r); cbn [negb]; [|by apply wp_bind, wp_modify, Hfail].
  apply wp_bind, wp_modify, wp_bind. unfold read_pin. apply wp_bind, wp_gets, wp_bind, wp_modify, wp_ret. destruct (is_ok _); cbn [negb]; [|by apply wp_bind, wp_modify, Hfail].
  apply wp_bind, wp_modify, wp_ret. unfold sense_post. split; [done|]. split; [case_match; auto|done].
Qed.

Lemma switch_to_spec d s : d = 0 \/ d = 1 ->
  wp (switch_to d) (fun _ s' => users (tuning_ s') = users (tuning_ s) /\ (store_ s', resolver_ s', defaults_ s') = (store_ s, resolver_ s, defaults_ s)
    /\ (owned s -> owned s')
    /\ ((night_ s' = night_ s /\ deciding (auto_ s') = deciding (auto_ s))
        \/ (night_ s' = (d =? 1) /\ committed (auto_ s') = d /\ candidate (auto_ s') = -1))) s.
Proof.
  intros Hd. unfold switch_to. apply wp_bind. wp_call (set_night_spec (d =? 1) s). intros r s1 (U & B & E). destruct (beyond_mode_eq _ _ B) as (B1 & B2 & B3 & B4).
  assert (O : owned s -> owned s1).
  { unfold owned. destruct (is_empty r.1); [|destruct E as (_ & _ & -> & ->); done]. destruct E as [-> ->]. intros _. destruct (d =? 1); [|done].
    destruct (p_color_to_gray _); auto. }
  assert (T : forall f s1', s1' = s1 <| auto_ ::= f |> -> users (tuning_ s1') = users (tuning_ s) /\ (store_ s1', resolver_ s1', defaults_ s1') = (store_ s, resolver_ s, defaults_ s) /\ (owned s -> owned s1') /\ night_ s1' = night_ s1).
  { intros f s1' ->. unfold owned, mode_of in *. cbn. rewrite B1, B3, B4. done. }
  destruct (is_empty r.1); cbn [negb].
  - destruct E as [N _]. apply wp_bind, wp_modify. destruct (is_empty r.2); cbn [negb]; apply wp_modify; unfold owned, mode_of in *; cbn; rewrite B1, B3, B4; (split; [done|]; split; [done|]; split; [done|]; right; done).
  - destruct E as (_ & _ & N & _). apply wp_modify. unfold owned, mode_of in *; cbn; rewrite B1, B2, B3, B4. split; [done|]; split; [done|]; split; [done|]. left. done.
Qed.

Lemma retry_spec d s : d = 0 \/ d = 1 ->
  wp (retry_actuator d) (fun _ s' => users (tuning_ s') = users (tuning_ s) /\ (store_ s', resolver_ s', defaults_ s') = (store_ s, resolver_ s, defaults_ s)
    /\ (owned s -> owned s') /\ night_ s' = night_ s
    /\ committed (auto_ s') = committed (auto_ s) /\ candidate (auto_ s') = candidate (auto_ s) /\ candidate_since_ms (auto_ s') = candidate_since_ms (auto_ s)
    /\ (actuator_pending (auto_ s') = true -> actuator_pending (auto_ s) = true /\ actuator_tries (auto_ s') = actuator_tries (auto_ s) + 1 /\ actuator_tries (auto_ s') < 5)
    /\ (actuator_pending (auto_ s) = false -> s' = s)) s.
Proof.
  intros Hd. unfold retry_actuator. apply wp_bind, wp_gets. unfold id. destruct (actuator_pending (auto_ s)) eqn:Ep; cbn [andb when].
  2: { apply wp_skip. split_and!; try done. congruence. }
  destruct (Bool.eqb (night_ s) (d =? 1)) eqn:En; [|apply wp_modify; unfold owned, mode_of; cbn; split_and!; done].
  apply eqb_prop in En. apply wp_bind. wp_call (set_night_spec (d =? 1) s). intros r s1 (U & B & E). destruct (beyond_mode_eq _ _ B) as (B1 & B2 & B3 & B4).
  assert (O : night_ s1 = night_ s /\ (owned s -> owned s1)).
  { unfold owned. destruct (is_empty r.1); [|destruct E as (_ & _ & -> & ->); done]. destruct E as [-> ->]. split; [done|]. intros _. destruct (d =? 1); [|done].
    destruct (p_color_to_gray _); auto. }
  destruct O as [N O]. destruct (is_empty r.2); [apply wp_modify|apply wp_bind, wp_modify, wp_bind, wp_gets; destruct (5 <=? _) eqn:E5; apply wp_modify];
    unfold owned, mode_of in *; cbn in *; rewrite ?B1, ?B2, ?B3, ?B4 in *; rewrite ?Ep; split_and!; try done.
  intros _. apply Z.leb_gt in E5. split; [done|]. lia.
Qed.

(** How long the photocell has to agree. *)
Definition delay_ms (s : Night) (d : Z) : Z := (if d =? 1 then p_night_delay (pins s) else p_day_delay (pins s)) * 1000.

(** Since when it has. *)
Definition since (now d : Z) (s : Night) : Z := if candidate (auto_ s) =? d then candidate_since_ms (auto_ s) else now.

Definition decided (now d : Z) (s s' : Night) : Prop :=
  (night_ s' = (d =? 1) /\ committed (auto_ s') = d /\ candidate (auto_ s') = -1
   /\ (committed (auto_ s) < 0 \/ committed (auto_ s) <> d /\ delay_ms s d <= now - since now d s))
  \/ (night_ s' = night_ s /\ committed (auto_ s') = committed (auto_ s)
      /\ (candidate (auto_ s') = -1
          \/ (committed (auto_ s) < 0 /\ candidate (auto_ s') = candidate (auto_ s) /\ candidate_since_ms (auto_ s') = candidate_since_ms (auto_ s))
          \/ (0 <= committed (auto_ s) /\ committed (auto_ s) <> d /\ candidate (auto_ s') = d /\ candidate_since_ms (auto_ s') = since now d s))).

Lemma decide_spec now d s : d = 0 \/ d = 1 ->
  wp (decide_mode now d) (fun _ s' => users (tuning_ s') = users (tuning_ s) /\ (store_ s', resolver_ s', defaults_ s') = (store_ s, resolver_ s, defaults_ s)
    /\ (owned s -> owned s') /\ decided now d s s') s.
Proof.
  intros Hd. unfold decide_mode, decided. apply wp_bind, wp_gets. unfold id. cbv zeta. destruct (Z.ltb_spec (committed (auto_ s)) 0) as [Hc|Hc].
  { apply wp_bind, wp_modify. set (s1 := s <| auto_ ::= _ |>). assert (F : (users (tuning_ s1), store_ s1, resolver_ s1, defaults_ s1, night_ s1, deciding (auto_ s1)) = (users (tuning_ s), store_ s, resolver_ s, defaults_ s, night_ s, deciding (auto_ s)) /\ (owned s -> owned s1)) by done.
    clearbody s1. destruct F as [[= F1 F2 F3 F4 F5 F6 F7 F8 F9 F10 F11 F12] F]. wp_call (switch_to_spec d s1 Hd).
    intros _ s' (U & [= R1 R2 R3] & O & D). split; [rewrite U; unfold users; by rewrite F1, F2, F3|]. split; [by rewrite R1, R2, R3, F4, F5, F6|]. split; [auto|].
    destruct D as [(D1 & [= D2 D3 D4 _ _])|(D1 & D2 & D3)]; [right|left; by auto]. split; [congruence|]. split; [congruence|]. right. left. split; [done|]. split; congruence. }
  destruct (Z.eqb_spec d (committed (auto_ s))) as [Ed|Ed].
  { apply wp_bind, wp_modify. set (s1 := s <| auto_ ::= _ |>). assert (F : (users (tuning_ s1), store_ s1, resolver_ s1, defaults_ s1, night_ s1, committed (auto_ s1)) = (users (tuning_ s), store_ s, resolver_ s, defaults_ s, night_ s, committed (auto_ s)) /\ candidate (auto_ s1) = -1 /\ (owned s -> owned s1)) by done.
    clearbody s1. destruct F as ([= F1 F2 F3 F4 F5 F6 F7 F8] & F9 & F). wp_call (retry_spec d s1 Hd).
    intros _ s' (U & [= R1 R2 R3] & O & N & C & K & _). split; [rewrite U; unfold users; by rewrite F1, F2, F3|]. split; [by rewrite R1, R2, R3, F4, F5, F6|]. split; [auto|].
    right. split; [congruence|]. split; [congruence|]. left. congruence. }
  set (s1 := exec (when (negb (candidate (auto_ s) =? d)) (on_auto (fun a => a <| candidate := d |> <| candidate_since_ms := now |> <| switch_error := [] |>))) s).
  apply wp_bind. apply (wp_mono _ (fun _ x => x = s1)); [by destruct (negb _)|]. intros _ ? ->.
  assert (F : (users (tuning_ s1), store_ s1, resolver_ s1, defaults_ s1, night_ s1, committed (auto_ s1)) = (users (tuning_ s), store_ s, resolver_ s, defaults_ s, night_ s, committed (auto_ s)) /\ candidate (auto_ s1) = d
    /\ candidate_since_ms (auto_ s1) = since now d s /\ (owned s -> owned s1)).
  { unfold s1, since. destruct (Z.eqb_spec (candidate (auto_ s)) d); done. }
  clearbody s1. destruct F as ([= F1 F2 F3 F4 F5 F6 F7 F8] & F9 & F10 & F). apply wp_bind, wp_gets. fold (delay_ms s d). rewrite F10. destruct (Z.ltb_spec 0 (delay_ms s d - (now - since now d s))) as [L|L].
  - apply wp_modify. split; [unfold users; cbn; by rewrite F1, F2, F3|]. split; [cbn; by rewrite F4, F5, F6|]. split; [done|]. right. cbn. split; [done|]. split; [done|]. right. right. auto.
  - wp_call (switch_to_spec d s1 Hd). intros _ s' (U & [= R1 R2 R3] & O & D). split; [rewrite U; unfold users; by rewrite F1, F2, F3|]. split; [by rewrite R1, R2, R3, F4, F5, F6|]. split; [auto|].
    destruct D as [(D1 & [= D2 D3 D4 _ _])|(D1 & D2 & D3)].
    + right. split; [congruence|]. split; [congruence|]. right. right. split_and!; congruence.
    + left. split_and!; try done. right. split; [done|lia].
Qed.

(** ** Every step *)

Definition user_mode (t : Tuning) (o : nop) (r : Z) : Z := match o with Image k => user_set RunningMode t k r | _ => r end.

Lemma step_owned o s : nop_own o -> owned s ->
  wp (step o) (fun _ s' => owned s' /\ image_ (tuning_ s') = image_ (tuning_ s) /\ image_caps_ (tuning_ s') = image_caps_ (tuning_ s)
    /\ requested_ (tuning_ s') RunningMode = user_mode (tuning_ s) o (requested_ (tuning_ s) RunningMode)) s.
Proof.
  intros Ho O. assert (U : forall s', owned s' -> users (tuning_ s') = users (tuning_ s) -> match o with Image _ => False | _ => True end ->
    owned s' /\ image_ (tuning_ s') = image_ (tuning_ s) /\ image_caps_ (tuning_ s') = image_caps_ (tuning_ s) /\ requested_ (tuning_ s') RunningMode = user_mode (tuning_ s) o (requested_ (tuning_ s) RunningMode)).
  { intros s' O' E Hn. unfold users in E. injection E as E1 E2 E3. rewrite E1, E2, E3. by destruct o. }
  assert (P : forall A (f : ST Night A), keeping beyond_pins f -> wp f (fun _ s' => owned s' /\ users (tuning_ s') = users (tuning_ s)) s).
  { intros A f Hf. eapply wp_mono; [apply (keeping_wp _ _ s Hf)|]. cbv beta. intros _ s' E. destruct (beyond_pins_eq _ _ E) as (E1 & _ & E2 & _).
    unfold owned, mode_of in *. by rewrite E1, E2. }
  destruct o as [on| | | | |now|t|k]; cbn [step].
  - apply wp_bind. unfold set_night. apply wp_bind. wp_call (owned_set on s O). intros r s' [O' E]. apply wp_ret, wp_skip. by apply U.
  - apply wp_bind. unfold toggle_night. apply wp_bind, wp_gets, wp_bind. wp_call (owned_set (negb (night_ s)) s O). intros r s' [O' E]. apply wp_bind, wp_gets, wp_ret, wp_skip. by apply U.
  - apply wp_bind. unfold toggle_ircut. apply wp_bind, wp_gets. eapply wp_mono; [apply P, keep_drive_ircut|]. intros r s' [O' E]. apply wp_skip. by apply U.
  - apply wp_bind. unfold toggle_light. apply wp_bind, wp_gets. eapply wp_mono; [apply P, keep_drive_light|]. intros r s' [O' E]. apply wp_skip. by apply U.
  - apply wp_bind. unfold reapply_running_mode. apply wp_bind, wp_gets, wp_bind, wp_gets. destruct (night_ s) eqn:En.
    + wp_call (hold_running_mode_spec (p_color_to_gray (pins s)) s). intros e s' (E & N & _ & _ & M). apply wp_skip, U; [|done|done]. unfold owned in *. rewrite N, En, M. rewrite En in O.
      destruct (is_empty e); [|done]. destruct (p_color_to_gray _); auto.
    + apply wp_bind. wp_call (release_mode_spec s). intros _ s' (E & N & _ & _ & M). apply wp_ret, wp_skip, U; [|done|done]. unfold owned. by rewrite N, En, M.
  - unfold tick. apply wp_bind. wp_call (sense_spec now s). intros r s1 (Sp & B). destruct (beyond_auto_eq _ _ B) as (B1 & _ & B2 & _).
    assert (O1 : owned s1) by (unfold owned, mode_of in *; by rewrite B1, B2). destruct r as [d|]; [|apply wp_skip, U; [done|by rewrite B1|done]].
    destruct Sp as (_ & Hd & _). wp_call (decide_spec now d s1 Hd). intros _ s' (E & _ & Ow & _). apply U; [auto|by rewrite E, B1|done].
  - apply wp_modify. by apply U.
  - apply wp_on_tuning. destruct Ho as [Hk Hn]. wp_call (perform_framed RunningMode k (tuning_ s)). intros _ t (E1 & E2 & E3 & E4). cbn. split; [|done].
    unfold owned, mode_of in *. cbn. by rewrite E4.
Qed.

Lemma run_owned l s : Forall nop_own l -> owned s ->
  owned (nrun l s) /\ image_ (tuning_ (nrun l s)) = image_ (tuning_ s) /\ image_caps_ (tuning_ (nrun l s)) = image_caps_ (tuning_ s)
  /\ requested_ (tuning_ (nrun l s)) RunningMode = foldl (fun r o => user_mode (tuning_ s) o r) (requested_ (tuning_ s) RunningMode) l.
Proof.
  intros Hl O. induction l as [|o l IH] using rev_ind; [done|]. apply Forall_app in Hl as [Hl Ho]. apply Forall_cons in Ho as [Ho _].
  destruct (IH Hl) as (O1 & I1 & C1 & R1). rewrite nrun_snoc, foldl_app. cbn [foldl]. destruct (step_owned o (nrun l s) Ho O1) as (O2 & I2 & C2 & R2).
  split; [done|]. split; [congruence|]. split; [congruence|]. rewrite R2, R1. destruct o; try done. cbn [user_mode]. unfold user_set, accepted. by rewrite I1, C1.
Qed.


(** ** Steady light *)

(** Every reading in the history is [d], with the automation on. *)
Fixpoint all_read (d : Z) (l : list nop) (s : Night) : Prop :=
  match l with
  | [] => True
  | o :: l =>
      match o with
      | Tick now => p_light_monitor (pins s) = true /\ match result (sense now) s with Some x => x = d | None => True end
      | _ => True
      end /\ all_read d l (exec (step o) s)
  end.

Lemma all_read_snoc d l o s : all_read d (l ++ [o]) s <-> all_read d l s /\ all_read d [o] (nrun l s).
Proof. revert s. induction l as [|o' l IH]; intros s; cbn [all_read app]; [cbn; tauto|]. rewrite IH. cbn. tauto. Qed.

(** The history [l] from [s] ends with a stretch that begins with a reading of [d] at
    [t] and has no other reading. *)
Definition steady (d t : Z) (l : list nop) (s : Night) : Prop :=
  exists l1 l2, l = l1 ++ Tick t :: l2 /\ result (sense t) (nrun l1 s) = Some d /\ all_read d (Tick t :: l2) (nrun l1 s).

Lemma light_steady_snoc d t l o s : steady d t l s -> all_read d [o] (nrun l s) -> steady d t (l ++ [o]) s.
Proof.
  intros (l1 & l2 & E & R & A) Ho. exists l1, (l2 ++ [o]). split; [by rewrite E, <- app_assoc|]. split; [done|]. rewrite app_comm_cons. apply all_read_snoc. split; [done|].
  rewrite E in Ho. unfold nrun in *. by rewrite foldl_app in Ho.
Qed.

(** The automation is only touched by its beat. *)
Definition beat (o : nop) : bool := match o with Tick _ => true | _ => false end.

Lemma step_auto o s : beat o = false -> auto_ (exec (step o) s) = auto_ s.
Proof.
  assert (P : forall A (f : ST Night A), keeping beyond_mode f -> auto_ (exec (f ;; skip) s) = auto_ s).
  { intros A f Hf. assert (K : keeping beyond_mode (f ;; skip)) by keep_go. apply (beyond_mode_eq _ _ (K s)). }
  destruct o as [on| | | | |now|t|k]; cbn [step]; intros Ho; try done.
  - apply P. unfold set_night. keep_go.
  - apply P. unfold toggle_night. keep_go.
  - apply P. unfold toggle_ircut. keep_go.
  - apply P. unfold toggle_light. keep_go.
  - apply P. unfold reapply_running_mode. keep_go.
  - apply (beyond_mode_eq _ _ (keep_on_tuning (perform k) s)).
Qed.

(** What a candidate of the automation stands for. *)
Definition waits (l : list nop) (s0 : Night) : Prop :=
  let a := auto_ (nrun l s0) in
  -1 <= candidate a /\ (committed a < 0 -> candidate a = -1) /\ (0 <= candidate a -> steady (candidate a) (candidate_since_ms a) l s0).

Lemma tick_split now s : exists s1, sense_post s (result (sense now) s) s1 /\ beyond_auto s1 = beyond_auto s
  /\ match result (sense now) s with
     | Some d => (d = 0 \/ d = 1) /\ p_light_monitor (pins s) = true /\ decided now d s1 (exec (step (Tick now)) s)
     | None => exec (step (Tick now)) s = s1
     end.
Proof.
  destruct (sense_spec now s) as [Sp B]. exists (exec (sense now) s). split; [done|]. split; [done|].
  assert (E : exec (step (Tick now)) s = match result (sense now) s with Some d => exec (decide_mode now d) (exec (sense now) s) | None => exec (sense now) s end).
  { cbn [step]. unfold tick, exec, result, mbind, st_bind. destruct (sense now s) as [[d|] s1]; done. }
  rewrite E. destruct (result (sense now) s) as [d|]; [|done]. destruct Sp as (M & Hd & _). split; [done|]. split; [done|]. apply (decide_spec now d _ Hd).
Qed.

Lemma waits_snoc l o s0 : waits l s0 -> waits (l ++ [o]) s0.
Proof.
  intros (C & N & S). unfold waits. rewrite nrun_snoc. set (s := nrun l s0) in *. destruct (beat o) eqn:Ho.
  2:
  { rewrite step_auto by done. split; [done|]. split; [done|]. intros Hc. apply light_steady_snoc; [auto|]. cbn. by destruct o. }
  destruct o as [| | | | |now| |]; try done. clear Ho. destruct (tick_split now s) as (s1 & Sp & _ & D). destruct (result (sense now) s) as [d|] eqn:Er.
  - destruct Sp as (_ & _ & [= P1 P2 P3 _ _]). destruct D as (Hd & M & D). unfold decided, since in D. rewrite P1, P2, P3 in D.
    assert (K : all_read d [Tick now] s) by (split; [rewrite Er; by split|done]).
    destruct D as [(_ & D2 & D3 & _)|(_ & D2 & [D3|[(D3 & D4 & D5)|(D3 & D4 & D5 & D6)]])]; rewrite D2, ?D3, ?D4, ?D5.
    + split; [lia|]. split; [lia|lia].
    + split; [lia|]. split; [done|lia].
    + specialize (N D3). split; [lia|]. split; [done|lia].
    + split; [lia|]. split; [lia|]. intros _. rewrite D6. destruct (Z.eqb_spec (candidate (auto_ s)) d) as [Ec|Ec].
      * rewrite <- Ec. apply light_steady_snoc; [apply S; lia|]. by rewrite Ec.
      * exists l, []. split; [done|]. split; [done|]. exact K.
  - rewrite D. destruct (p_light_monitor (pins s)) eqn:M; cbn [sense_post] in Sp; rewrite ?M in Sp.
    + injection Sp as P1 P2 P3 _ _. rewrite P1, P2, P3. split; [done|]. split; [done|]. intros Hc. apply light_steady_snoc; [auto|]. fold s. split; [rewrite Er; by split|done].
    + destruct Sp as [P1 P2]. rewrite P1, P2. split; [lia|]. split; [done|lia].
Qed.

Lemma waits_run l s0 : auto_ s0 = Auto_default -> waits l s0.
Proof.
  intros E. induction l as [|o l IH] using rev_ind; [|by apply waits_snoc]. unfold waits. cbn [nrun foldl]. rewrite E. cbn. split; [lia|]. split; [done|lia].
Qed.

Lemma committed_ge l s0 : auto_ s0 = Auto_default -> committed (auto_ (nrun l s0)) = -1 \/ 0 <= committed (auto_ (nrun l s0)).
Proof.
  intros E. induction l as [|o l IH] using rev_ind; [left; cbn [nrun foldl]; by rewrite E|]. rewrite nrun_snoc. set (s := nrun l s0) in *.
  destruct (beat o) eqn:Ho; [|by rewrite step_auto]. destruct o as [| | | | |now| |]; try done.
  destruct (tick_split now s) as (s1 & Sp & _ & D). destruct (result (sense now) s) as [d|].
  - destruct Sp as (_ & _ & [= P1 _ _ _ _]). destruct D as (Hd & _ & [(_ & D2 & _)|(_ & D2 & _)]); rewrite D2; [lia|by rewrite P1].
  - rewrite D. unfold sense_post in Sp. destruct (p_light_monitor _); [by injection Sp as -> _ _ _ _|left; by destruct Sp].
Qed.

(** C25. The photocell switches on steady light only.  In every history since the
    boot, whatever happens in between: when a beat of the automation changes the mode,
    it has either just been turned on and applies the light as it is, or the history
    ends with a stretch of at least the configured delay in which the automation was
    on and every reading of the photocell was the new one.  So no beat takes back what
    a button set while the light stays as it was. *)
Theorem switch_needs_steady_light (t : Tuning) (store : text) (r : option Resolver) (df : Defaults) (l : list nop) (now : Z) :
  let s0 := make_night t store r df in
  let s := nrun l s0 in
  let s' := exec (step (Tick now)) s in
  night_ s' <> night_ s ->
  committed (auto_ s) = -1
  \/ exists d since, steady d since (l ++ [Tick now]) s0 /\ night_ s' = (d =? 1) /\ committed (auto_ s') = d /\ committed (auto_ s) <> d
     /\ delay_ms s d <= now - since.
Proof.
  intros s0 s s' Hn. destruct (waits_run l s0 eq_refl) as (C & N & S). fold s in C, N, S. destruct (tick_split now s) as (s1 & Sp & B & D). fold s' in D.
  destruct (beyond_auto_eq _ _ B) as (_ & Bs & Bn & _ & Bd & _). destruct (result (sense now) s) as [d|] eqn:Er; [|by rewrite D, Bn in Hn].
  destruct Sp as (M & _ & [= P1 P2 P3 _ _]). destruct D as (Hd & _ & D). destruct D as [(D1 & D2 & D3 & D4)|(D1 & _)]; [|by rewrite D1, Bn in Hn].
  rewrite P1 in D4. unfold delay_ms, since, pins in D4. rewrite Bs, Bd, P2, P3 in D4. destruct D4 as [D4|[D4 D5]]; [left|right].
  { destruct (committed_ge l s0 eq_refl) as [E|E]; fold s in E; [done|lia]. }
  assert (K : all_read d [Tick now] s) by (split; [rewrite Er; by split|done]). destruct (Z.eqb_spec (candidate (auto_ s)) d) as [Ec|Ec].
  - exists d, (candidate_since_ms (auto_ s)). split; [apply light_steady_snoc; [rewrite <- Ec; apply S; lia|done]|]. by split_and!.
  - exists d, now. split; [exists l, []; by split_and!|]. by split_and!.
Qed.

(** ** The pins *)

(** A computation that does not turn the coil and makes only calls in [P]. *)
Definition calm (P : gcall -> Prop) {A} (f : ST Night A) : Prop :=
  forall s, wp f (fun _ s' => ircut_driven_ s' = ircut_driven_ s /\ exists new, gpio_log s' = new ++ gpio_log s /\ Forall P new) s.

Section Calm.
Variable P : gcall -> Prop.

Lemma calm_keep {A} (f : ST Night A) : keeping (fun s => (ircut_driven_ s, gpio_log s)) f -> calm P f.
Proof. intros Hf s. specialize (Hf s). cbv beta in Hf. injection Hf as E1 E2. split; [exact E1|]. exists []. by split; [rewrite E2|]. Qed.
Lemma calm_modify f : (forall s, ircut_driven_ (f s) = ircut_driven_ s /\ gpio_log (f s) = gpio_log s) -> calm P (modify f).
Proof. intros Hf. apply calm_keep, keeping_modify. intros s. destruct (Hf s) as [-> ->]. done. Qed.
Lemma calm_ret {A} (a : A) : calm P (mret a).
Proof. by apply calm_keep. Qed.
Lemma calm_skip : calm P skip.
Proof. by apply calm_keep. Qed.
Lemma calm_gets {A} (f : Night -> A) : calm P (gets f).
Proof. by apply calm_keep. Qed.
Lemma calm_bind {A B} (f : ST Night A) (k : A -> ST Night B) : calm P f -> (forall a, calm P (k a)) -> calm P (f ≫= k).
Proof.
  intros Hf Hk s. apply wp_bind. eapply wp_mono; [apply Hf|]. intros a s1 (D1 & n1 & L1 & F1). eapply wp_mono; [apply Hk|]. intros b s2 (D2 & n2 & L2 & F2).
  split; [congruence|]. exists (n2 ++ n1). split; [by rewrite L2, L1, app_assoc|]. by apply Forall_app.
Qed.
Lemma calm_when b f : calm P f -> calm P (when b f).
Proof. destruct b; [done|]. intros _. apply calm_skip. Qed.
Lemma calm_record c : P c -> calm P (record c).
Proof. intros Hc s. apply wp_modify. split; [done|]. exists [c]. by split; [|constructor]. Qed.
Lemma calm_on_tuning {A} (f : ST Tuning A) : calm P (on_tuning f).
Proof. apply calm_keep. intros s. unfold exec, on_tuning. by destruct (f (tuning_ s)). Qed.
End Calm.

Ltac calm_step :=
  lazymatch goal with
  | |- calm _ (_ ≫= _) => apply calm_bind; [|intros ?]
  | |- calm _ (when _ _) => apply calm_when
  | |- calm _ (let _ := _ in _) => cbv zeta
  | |- calm _ (match ?x with _ => _ end) => destruct x
  | |- calm _ (mret _) => apply calm_ret
  | |- calm _ skip => apply calm_skip
  | |- calm _ (gets _) => apply calm_gets
  | |- calm _ (gpio _) => apply calm_gets
  | |- calm _ (record _) => apply calm_record; exact I
  | |- calm _ (on_tuning _) => apply calm_on_tuning
  | |- calm _ (modify _) => apply calm_modify; intros ?; by split
  | |- calm _ (on_auto _) => apply calm_modify; intros ?; by split
  end.
Ltac calm_go := repeat calm_step.

Definition awake (c : gcall) : Prop := match c with SleepMs _ => False | _ => True end.
Definition input_only (c : gcall) : Prop := match c with ConfigureInput _ _ | ReadPin _ _ _ => True | _ => False end.

Lemma calm_weaken (P Q : gcall -> Prop) {A} (f : ST Night A) : (forall c, P c -> Q c) -> calm P f -> calm Q f.
Proof.
  intros H1 Hf s. eapply wp_mono; [apply Hf|]. intros a s' (D & new & L & F). split; [done|]. exists new. split; [done|]. by eapply Forall_impl.
Qed.

Lemma calm_sense now : calm input_only (sense now).
Proof. unfold sense, fail, configure_input, read_pin. calm_go. Qed.
Lemma calm_drive_light on : calm awake (drive_light_ on).
Proof. unfold drive_light_, hold_pin, configure_output, write_pin. calm_go. Qed.
Lemma calm_running_mode g : calm awake (hold_running_mode g).
Proof. unfold hold_running_mode. calm_go. Qed.

(** A log of calls in which every pause is that of a pulse: the other coil off, this
    one on, 150 ms, off again.  [n] counts the pulses. *)
Inductive pulsed : list gcall -> nat -> Prop :=
| pulsed_nil : pulsed [] 0
| pulsed_call c l n : awake c -> pulsed l n -> pulsed (c :: l) n
| pulsed_pulse hi lo r1 r2 r3 l n : pulsed l n ->
    pulsed (WritePin hi false r3 :: SleepMs 150 :: WritePin hi true r2 :: WritePin lo false r1 :: l) (S n).

Lemma pulsed_app new l n : Forall awake new -> pulsed l n -> pulsed (new ++ l) n.
Proof. induction 1; [done|]. cbn. by constructor; [|auto]. Qed.

(** One pulse for a turn of the coil, none otherwise. *)
Definition turn (a b : Z) : nat := if b =? a then 0%nat else 1%nat.
Definition turning {A} (f : ST Night A) : Prop :=
  forall s n, pulsed (gpio_log s) n -> wp f (fun _ s' => pulsed (gpio_log s') (n + turn (ircut_driven_ s) (ircut_driven_ s'))) s.

Lemma calm_turning {A} (f : ST Night A) : calm awake f -> turning f.
Proof.
  intros Hf s n Hn. eapply wp_mono; [apply Hf|]. intros a s' (D & new & L & F). unfold turn. rewrite D, L, Z.eqb_refl, Nat.add_0_r. by apply pulsed_app.
Qed.
Lemma turning_after {A B} (f : ST Night A) (k : A -> ST Night B) : calm awake f -> (forall a, turning (k a)) -> turning (f ≫= k).
Proof.
  intros Hf Hk s n Hn. apply wp_bind. eapply wp_mono; [apply Hf|]. intros a s1 (D & new & L & F).
  eapply wp_mono; [apply (Hk a s1 n); rewrite L; by apply pulsed_app|]. intros b s2 H2. by rewrite D in H2.
Qed.
Lemma turning_before {A B} (f : ST Night A) (k : A -> ST Night B) : turning f -> (forall a, calm awake (k a)) -> turning (f ≫= k).
Proof.
  intros Hf Hk s n Hn. apply wp_bind. eapply wp_mono; [by apply Hf|]. intros a s1 H1. eapply wp_mono; [apply Hk|]. intros b s2 (D & new & L & F).
  rewrite D, L. by apply pulsed_app.
Qed.

Lemma turning_drive e : turning (drive_ircut_ e).
Proof.
  assert (C : forall A (a : A), turning (mret a)) by (intros A a; apply calm_turning, calm_ret).
  intros s n Hn. unfold drive_ircut_. apply wp_bind, wp_gets. unfold id. cbv zeta. apply wp_bind, wp_gets.
  repeat match goal with |- wp (if ?b then mret _ else _) _ _ => destruct b; [by apply C|] end.
  destruct (is_empty (p_ircut_pin2 _)).
  { assert (T : turning (e0 ← hold_pin "IR-cut pin" (pin_name_ (resolver_ s) (p_ircut_pin1 (pins s))) (xorb e (p_single_invert (pins s))); when (is_empty e0) (modify (fun s => s <| ircut_ := e |>)) ;; mret e0)).
    { apply calm_turning. unfold hold_pin, configure_output, write_pin. calm_go. }
    by apply T. }
  destruct (is_empty _); [by apply C|]. destruct (Z.eqb_spec (ircut_driven_ s) (Z.b2z e)) as [Ed|Ed].
  { apply wp_bind, wp_modify, wp_ret. cbn. unfold turn. by rewrite Z.eqb_refl, Nat.add_0_r. }
  set (n1 := pin_name_ _ _). set (n2 := pin_name_ _ (p_ircut_pin2 _)). set (hi := if e then n1 else n2). set (lo := if e then n2 else n1). clearbody hi lo.
  apply wp_bind. unfold pulse. apply wp_bind. unfold configure_output at 1. apply wp_bind, wp_gets, wp_bind, wp_modify, wp_ret.
  set (r1 := gp_configure_output _ _ _). destruct (is_ok r1); cbn [negb].
  2: { apply wp_ret, wp_bind. cbn [is_empty gpio_err]. apply wp_skip, wp_ret. cbn. unfold turn. rewrite Z.eqb_refl, Nat.add_0_r. by constructor. }
  apply wp_bind. unfold configure_output at 1. apply wp_bind, wp_gets, wp_bind, wp_modify, wp_ret. set (r2 := gp_configure_output _ _ _). destruct (is_ok r2); cbn [negb].
  2: { apply wp_ret, wp_bind. cbn [is_empty gpio_err]. apply wp_skip, wp_ret. cbn. unfold turn. rewrite Z.eqb_refl, Nat.add_0_r. by do 2 constructor. }
  unfold write_pin. repeat first [apply wp_bind|apply wp_gets|apply wp_modify|apply wp_ret].
  cbn. unfold turn. destruct (Z.eqb_spec (Z.b2z e) (ircut_driven_ s)); [congruence|]. rewrite Nat.add_1_r. by do 3 constructor.
Qed.

Lemma turning_set_night on : turning (set_night_locked_ on).
Proof.
  unfold set_night_locked_. apply turning_after; [calm_go|]. intros p. apply turning_after; [destruct on; [apply calm_running_mode|calm_go]|]. intros e.
  destruct (negb _); [apply calm_turning; calm_go|]. apply turning_after; [calm_go|]. intros []. apply turning_before.
  - destruct (_ && _); [apply turning_drive|apply calm_turning; calm_go].
  - intros ae. apply calm_bind; [|intros; calm_go]. destruct (_ && _); [|calm_go]. apply calm_bind; [apply calm_drive_light|]. intros; calm_go.
Qed.

Lemma turning_bind_set {B} on (k : text * text -> ST Night B) : (forall a, calm awake (k a)) -> turning (set_night_locked_ on ≫= k).
Proof. apply turning_before, turning_set_night. Qed.

Lemma turning_switch d : turning (switch_to d).
Proof. unfold switch_to. apply turning_bind_set. intros r. calm_go. Qed.

Lemma turning_retry d : turning (retry_actuator d).
Proof.
  unfold retry_actuator. apply turning_after; [calm_go|]. intros s. cbv zeta. destruct (_ && _); [|apply calm_turning; calm_go]. apply turning_bind_set. intros r. calm_go.
Qed.

Lemma turning_step o : turning (step o).
Proof.
  destruct o as [on| | | | |now|t|k]; cbn [step].
  - apply turning_before; [|intros; calm_go]. apply turning_bind_set. intros; calm_go.
  - apply turning_before; [|intros; calm_go]. unfold toggle_night. apply turning_after; [calm_go|]. intros n. apply turning_bind_set. intros; calm_go.
  - apply turning_before; [|intros; calm_go]. unfold toggle_ircut. apply turning_after; [calm_go|]. intros i. apply turning_drive.
  - apply calm_turning. apply calm_bind; [|intros; calm_go]. unfold toggle_light. apply calm_bind; [calm_go|]. intros i. apply calm_drive_light.
  - apply calm_turning. apply calm_bind; [|intros; calm_go]. unfold reapply_running_mode. apply calm_bind; [calm_go|]. intros p. apply calm_bind; [calm_go|]. intros [|]; [apply calm_running_mode|calm_go].
  - unfold tick. apply turning_after; [apply (calm_weaken input_only); [by intros []|apply calm_sense]|]. intros [d|]; [|apply calm_turning; calm_go].
    unfold decide_mode. apply turning_after; [calm_go|]. intros s. cbv zeta. destruct (_ <? _); [apply turning_after; [calm_go|]; intros; apply turning_switch|].
    destruct (_ =? _); [apply turning_after; [calm_go|]; intros; apply turning_retry|]. apply turning_after; [calm_go|]. intros []. apply turning_after; [calm_go|]. intros z.
    destruct (_ <? _); [apply calm_turning; calm_go|apply turning_switch].
  - apply calm_turning. calm_go.
  - apply calm_turning. calm_go.
Qed.

(** How often the coil turned: changes of [ircut_driven_]. *)
Fixpoint turns (l : list nop) (s : Night) : nat :=
  match l with
  | [] => 0
  | o :: l => turn (ircut_driven_ s) (ircut_driven_ (exec (step o) s)) + turns l (exec (step o) s)
  end.

(** The coil of the filter is pulsed, never held, and never twice for one turn.
    In every history since the boot, whatever the port answers: every pause the
    service makes is the 150 ms of a pulse, with the other coil switched off right
    before and this one switched off right after; and there are exactly as many
    pulses as changes of the direction the filter was driven to, so a repeated
    request, a retry for the sake of the light or a beat of the automation does not
    click. *)
Theorem coil_is_pulsed_once_per_turn (t : Tuning) (store : text) (r : option Resolver) (d : Defaults) (l : list nop) :
  let s0 := make_night t store r d in pulsed (gpio_log (nrun l s0)) (turns l s0).
Proof.
  intros s0. assert (G : forall l s n, pulsed (gpio_log s) n -> pulsed (gpio_log (nrun l s)) (n + turns l s)); [|apply (G l s0 0%nat), pulsed_nil].
  clear. induction l as [|o l IH]; intros s n Hn; [by rewrite Nat.add_0_r|]. cbn [nrun foldl turns]. rewrite Nat.add_assoc. apply IH. exact (turning_step o s n Hn).
Qed.

(** ** Retries *)

(** Beats at which the photocell reads [d]. *)
Fixpoint reads (d : Z) (nows : list Z) (s : Night) : Prop :=
  match nows with
  | [] => True
  | now :: nows => result (sense now) s = Some d /\ reads d nows (exec (step (Tick now)) s)
  end.

(** What the actuators show. *)
Definition actuators (s : Night) := (night_ s, ircut_ s, ircut_driven_ s, light_ s, tuning_ s).

Lemma beat_retry now d s : result (sense now) s = Some d -> committed (auto_ s) = d ->
  let s' := exec (step (Tick now)) s in
  committed (auto_ s') = d
  /\ (actuator_pending (auto_ s') = true -> actuator_pending (auto_ s) = true /\ actuator_tries (auto_ s') = actuator_tries (auto_ s) + 1 /\ actuator_tries (auto_ s') < 5)
  /\ (actuator_pending (auto_ s) = false -> actuators s' = actuators s /\ exists new, gpio_log s' = new ++ gpio_log s /\ Forall input_only new).
Proof.
  intros Hr Hc s'. destruct (sense_spec now s) as [Sp B]. rewrite Hr in Sp. destruct Sp as (_ & Hd & [= C1 _ _ C4 C5]).
  assert (E : s' = exec (decide_mode now d) (exec (sense now) s)).
  { unfold s'. cbn [step]. unfold tick, exec, result, mbind, st_bind in *. destruct (sense now s) as [x s1]. cbn in Hr |- *. by subst x. }
  destruct (calm_sense now s) as (_ & new & L & F). set (s1 := exec (sense now) s) in *. clearbody s1. rewrite E. clear E s'.
  assert (W : wp (decide_mode now d) (fun _ s' => committed (auto_ s') = d
    /\ (actuator_pending (auto_ s') = true -> actuator_pending (auto_ s) = true /\ actuator_tries (auto_ s') = actuator_tries (auto_ s) + 1 /\ actuator_tries (auto_ s') < 5)
    /\ (actuator_pending (auto_ s) = false -> actuators s' = actuators s /\ exists new, gpio_log s' = new ++ gpio_log s /\ Forall input_only new)) s1); [|exact W].
  unfold decide_mode. apply wp_bind, wp_gets. unfold id. cbv zeta. rewrite C1, Hc. destruct (Z.ltb_spec d 0); [lia|]. rewrite Z.eqb_refl.
  apply wp_bind, wp_modify. set (s2 := s1 <| auto_ ::= _ |>).
  assert (F2 : (committed (auto_ s2), actuator_pending (auto_ s2), actuator_tries (auto_ s2)) = (committed (auto_ s1), actuator_pending (auto_ s1), actuator_tries (auto_ s1))
    /\ actuators s2 = actuators s1 /\ gpio_log s2 = gpio_log s1) by done.
  clearbody s2. destruct F2 as ([= F1 F2 F3] & F4 & F5). wp_call (retry_spec d s2 Hd). intros _ s3 (_ & _ & _ & _ & R1 & _ & _ & R2 & R3).
  split; [congruence|]. split; [intros Hp; destruct (R2 Hp) as (Q1 & Q2 & Q3); split; [congruence|]; split; congruence|].
  intros Hp. rewrite R3 by congruence. split; [|exists new; split; [congruence|done]].
  rewrite F4. unfold beyond_auto in B. unfold actuators. by injection B as -> _ _ -> -> -> -> _.
Qed.

(** A broken actuator is given up.  While the light stays as it was applied, an
    actuator that did not follow is tried at no more than four more beats that leave
    it pending; at the fifth it is given up or has recovered, and from then on a beat
    touches no output, no mode and no image control: it only reads the photocell. *)
Theorem actuator_is_given_up (s : Night) (d : Z) (nows : list Z) (now : Z) :
  committed (auto_ s) = d -> 0 <= actuator_tries (auto_ s) -> (5 <= length nows)%nat -> reads d (nows ++ [now]) s ->
  let s1 := nrun (map Tick nows) s in
  let s2 := exec (step (Tick now)) s1 in
  actuator_pending (auto_ s1) = false /\ actuators s2 = actuators s1 /\ (exists new, gpio_log s2 = new ++ gpio_log s1 /\ Forall input_only new).
Proof.
  intros Hc Ht Hl Hr.
  assert (G : forall l s, committed (auto_ s) = d -> reads d (l ++ [now]) s -> let s1 := nrun (map Tick l) s in
    committed (auto_ s1) = d /\ result (sense now) s1 = Some d
    /\ (actuator_pending (auto_ s1) = true -> actuator_tries (auto_ s1) = actuator_tries (auto_ s) + Z.of_nat (length l) /\ (l = [] \/ actuator_tries (auto_ s1) < 5))).
  { clear. induction l as [|x l IH]; intros s Hc Hr; cbn [reads app] in Hr; [destruct Hr as [Hr _]|destruct Hr as [Hx Hr]].
    - split; [done|]. split; [done|]. intros _. cbn [nrun map foldl length]. split; [lia|by left].
    - destruct (beat_retry x d s Hx Hc) as (C1 & R & _). destruct (IH _ C1 Hr) as (C2 & R2 & K). cbn [map nrun foldl]. fold (nrun (map Tick l) (exec (step (Tick x)) s)).
      split; [done|]. split; [done|]. intros Hp. destruct (K Hp) as (K1 & K2). assert (P1 : actuator_pending (auto_ (exec (step (Tick x)) s)) = true).
      { clear -Hc Hr Hx C1 Hp. revert Hp. generalize dependent (exec (step (Tick x)) s). induction l as [|y l IHl]; intros s1 Hr C1 Hp; [done|].
        cbn [app reads] in Hr. destruct Hr as [Hy Hr]. cbn [map nrun foldl] in Hp. destruct (beat_retry y d s1 Hy C1) as (C3 & R3 & _). by destruct (R3 (IHl _ Hr C3 Hp)). }
      destruct (R P1) as (_ & R3 & R4). cbn [length]. split; [lia|]. right. destruct K2 as [->|K2]; [|done]. exact R4. }
  destruct (G nows s Hc Hr) as (C1 & R1 & K). intros s1 s2. fold s1 in C1, R1, K. destruct (actuator_pending (auto_ s1)) eqn:Ep.
  - exfalso. destruct (K eq_refl) as (K1 & [->|K2]); [cbn in Hl; lia|]. lia.
  - split; [done|]. destruct (beat_retry now d s1 R1 C1) as (_ & _ & B). exact (B Ep).
Qed.
End Service.

(** ** A camera at dusk *)

(** A port on which every pin of [free] works; the photocell reads light once, then dark. *)
Definition bench (free : bool) : Gpio := {|
  gp_available _ := true;
  gp_configure_output _ _ _ := if free then Res.ok else Res.busy;
  gp_configure_input _ _ := Res.ok;
  gp_write _ _ _ := Res.ok;
  gp_read h _ := (Res.ok, existsb (fun c => match c with ReadPin _ _ _ => true | _ => false end) h)
|}.

Definition dusk_settings : text :=
  put_lines (map txt ["night.light_monitor = true"; "night.light_sensor_pin = 33"; "night.ircut = true"; "night.backlight = true"; "night.backlight_pin = PB02"]%string).
Definition board : Defaults := {| def_ircut_pin1 := txt "PB17"; def_ircut_pin2 := txt "PB18"; def_sensor_pin := [] |}.
Definition at_boot : Night := make_night tuned dusk_settings (Some (BankPinResolver 32 6)) board.
Definition dusk : list nop := [Tick 0; Tick 2000; ToggleLight; ToggleLight; Tick 4000].

(** The day was applied at the first beat, the night at 6 s, with one pulse each way. *)
Example dusk_seen : let S := bench true in let s := @nrun perfect S (dusk ++ [Tick 6000]) at_boot in
  night_ s = true /\ ircut_ s = false /\ light_ s = true /\ mode_of s = 1 /\ @turns perfect S (dusk ++ [Tick 6000]) at_boot = 2%nat
  /\ night_ (@nrun perfect S dusk at_boot) = false.
Proof. by vm_compute. Qed.


Lemma switch_needs_steady_light_witness :
  exists d since, @steady perfect (bench true) d since (dusk ++ [Tick 6000]) at_boot /\ 3000 <= 6000 - since.
Proof.
  destruct (@switch_needs_steady_light perfect (bench true) tuned dusk_settings (Some (BankPinResolver 32 6)) board dusk 6000) as [H|(d & since & H1 & _ & H2 & _ & H3)].
  - by vm_compute.
  - exfalso. revert H. by vm_compute.
  - exists d, since. split; [exact H1|]. assert (E : committed (auto_ (exec (@step perfect (bench true) (Tick 6000)) (@nrun perfect (bench true) dusk at_boot))) = 1) by by vm_compute.
    assert (Ed : d = 1) by (rewrite <- H2; exact E). subst d. assert (D : delay_ms (@nrun perfect (bench true) dusk at_boot) 1 = 3000) by by vm_compute.
    rewrite <- D. exact H3.
Defined.

Lemma actuator_is_given_up_witness :
  let S := bench false in
  let s := @nrun perfect S [Tick 0; Tick 2000; Tick 6000] at_boot in
  let s1 := @nrun perfect S (map Tick [8000; 10000; 12000; 14000; 16000]) s in
  actuator_pending (auto_ s) = true /\ actuator_pending (auto_ s1) = false.
Proof.
  intros S s s1. split; [by vm_compute|].
  apply (@actuator_is_given_up perfect S s 1 [8000; 10000; 12000; 14000; 16000] 18000); [by vm_compute|by vm_compute|cbn; lia|].
  by vm_compute.
Defined.
