(* ===== verification/NetworkTxn.v ===== *)
(** * A network change that survives a crash

    [core/net/network_txn.{hpp,cpp}] over any [StateStore].  The configuration
    is an opaque string; applying it is the environment's ([Apply]).  Every
    effect is logged together with the store it left, so a crash at any effect
    is a point of the log. *)

From S2P Require Import Prelude CoreTypes Text StateStore.

(** ** The records *)

(** [size_t] and [unsigned long] on the 32-bit target. *)
Definition SIZE_BITS : Z := 32.

(** [append_blob]. *)
Definition append_blob (out s : text) : text := out ++ print_dec (size s) ++ [NL] ++ s.

(** [take_line]: the line and the position behind it. *)
Definition take_line (s : text) (pos : Z) : option (text * Z) :=
  match find_char NL s pos with
  | None => None
  | Some nl => Some (substr s pos (nl - pos), nl + 1)
  end.

(** [take_blob]; [pos + n] wraps like a [size_t]. *)
Definition take_blob (s : text) (pos : Z) : option (text * Z) :=
  match take_line s pos with
  | None => None
  | Some (len_line, pos) =>
      if bool_decide (len_line = []) then None
      else if negb (forallb is_digit len_line) then None
      else
        let n := strtou SIZE_BITS len_line in
        if size s <? wrap SIZE_BITS (pos + n) then None
        else Some (substr s pos n, wrap SIZE_BITS (pos + n))
  end.

Definition kConfirmedTag : text := txt "c1" ++ [NL].

Definition encode_confirmed (cfg : text) : text := append_blob kConfirmedTag cfg.

Definition decode_confirmed (s : text) : option text :=
  match take_line s 0 with
  | None => None
  | Some (tag, pos) => if negb (text_eqb tag (txt "c1")) then None else fst <$> take_blob s pos
  end.

Record PendingRecord := mkPending { pr_token : Z; pr_candidate : text }.

Definition encode_pending (r : PendingRecord) : text :=
  append_blob (txt "v1" ++ [NL] ++ print_dec (pr_token r) ++ [NL]) (pr_candidate r).

Definition decode_pending (s : text) : option PendingRecord :=
  match take_line s 0 with
  | None => None
  | Some (v, pos) =>
      if negb (text_eqb v (txt "v1")) then None else
      match take_line s pos with
      | None => None
      | Some (tok, pos) =>
          if bool_decide (tok = []) then None
          else if negb (forallb is_digit tok) then None
          else
            (fun c => mkPending (strtou 64 tok) c.1) <$> take_blob s pos
      end
  end.

(** *** Round trips *)

Lemma take_line_at a l b :
  NL ∉ l -> take_line (a ++ l ++ NL :: b) (size a) = Some (l, size a + size l + 1).
Proof.
  intros Hl. unfold take_line. rewrite find_char_at by done.
  replace (size a + size l - size a) with (size l) by lia. by rewrite substr_at.
Qed.

Lemma take_blob_at a v :
  size a + 21 + size v < 2 ^ SIZE_BITS ->
  take_blob (a ++ print_dec (size v) ++ NL :: v) (size a)
  = Some (v, size a + size (print_dec (size v)) + 1 + size v).
Proof.
  intros Hsz. unfold SIZE_BITS in *. pose proof (size_nonneg a). pose proof (size_nonneg v).
  pose proof (print_digits_size 20 (size v)) as Hd. fold (print_dec (size v)) in Hd.
  pose proof (print_dec_digits (size v) ltac:(lia)) as Hdig.
  unfold take_blob. rewrite take_line_at by (by apply digits_no_newline).
  rewrite bool_decide_false by apply print_dec_nonempty. rewrite Hdig. cbn [negb].
  unfold SIZE_BITS. rewrite strtou_print by lia.
  set (p := size a + size (print_dec (size v)) + 1).
  assert (Hp : p = size (a ++ print_dec (size v) ++ [NL])) by (rewrite !size_app; unfold p, size; simpl; lia).
  assert (Hs : size (a ++ print_dec (size v) ++ NL :: v) = p + size v)
    by (rewrite !size_app, size_cons; unfold p; lia).
  pose proof (size_nonneg (print_dec (size v))).
  rewrite wrap_small by (unfold p; lia). rewrite Hs, Z.ltb_irrefl. f_equal. f_equal.
  replace (a ++ print_dec (size v) ++ NL :: v) with ((a ++ print_dec (size v) ++ [NL]) ++ v ++ [])
    by (by rewrite app_nil_r, <- !app_assoc).
  rewrite Hp. apply substr_at.
Qed.

Definition record_fits (cfg : text) : Prop := size cfg + 64 < 2 ^ SIZE_BITS.

Ltac no_newline :=
  cbn; rewrite ?not_elem_of_cons; repeat split; try discriminate; apply not_elem_of_nil.

Lemma decode_encode_confirmed cfg :
  record_fits cfg -> decode_confirmed (encode_confirmed cfg) = Some cfg.
Proof.
  intros Hf. unfold record_fits in Hf. unfold decode_confirmed.
  assert (E : encode_confirmed cfg = kConfirmedTag ++ print_dec (size cfg) ++ NL :: cfg) by reflexivity.
  pose proof (take_line_at [] (txt "c1") (print_dec (size cfg) ++ NL :: cfg) ltac:(no_newline)) as L.
  change (take_line (encode_confirmed cfg) 0 = Some (txt "c1", 3)) in L. rewrite L.
  change (negb (text_eqb (txt "c1") (txt "c1"))) with false. cbv iota.
  rewrite E. change 3 with (size kConfirmedTag). rewrite take_blob_at; [done|].
  change (size kConfirmedTag) with 3. lia.
Qed.

Lemma decode_encode_pending r :
  0 <= pr_token r < 2 ^ 64 -> record_fits (pr_candidate r) ->
  decode_pending (encode_pending r) = Some r.
Proof.
  intros Ht Hf. destruct r as [tok c]. unfold record_fits in Hf. cbn [pr_token pr_candidate] in *.
  set (rest := print_dec (size c) ++ NL :: c).
  set (hdr := txt "v1" ++ [NL] ++ print_dec tok ++ [NL]).
  pose proof (print_digits_size 20 tok) as Hd. fold (print_dec tok) in Hd.
  pose proof (print_dec_digits tok ltac:(lia)) as Hdig.
  assert (E : encode_pending (mkPending tok c) = hdr ++ rest).
  { unfold encode_pending, append_blob. cbn [pr_token pr_candidate]. fold hdr. done. }
  assert (E1 : hdr ++ rest = txt "v1" ++ NL :: (print_dec tok ++ NL :: rest)).
  { unfold hdr. by rewrite <- !app_assoc. }
  assert (E2 : hdr ++ rest = (txt "v1" ++ [NL]) ++ print_dec tok ++ NL :: rest).
  { unfold hdr. by rewrite <- !app_assoc. }
  pose proof (take_line_at [] (txt "v1") (print_dec tok ++ NL :: rest) ltac:(no_newline)) as L1.
  cbn [app] in L1. rewrite <- E1 in L1. change (take_line (hdr ++ rest) 0 = Some (txt "v1", 3)) in L1.
  pose proof (take_line_at (txt "v1" ++ [NL]) (print_dec tok) rest (digits_no_newline _ Hdig)) as L2.
  rewrite <- E2 in L2. change (size (txt "v1" ++ [NL])) with 3 in L2.
  assert (Hh : 3 + size (print_dec tok) + 1 = size hdr).
  { unfold hdr. rewrite !size_app. change (size (txt "v1")) with 2. unfold size. simpl. lia. }
  unfold decode_pending. rewrite E, L1. change (negb (text_eqb (txt "v1") (txt "v1"))) with false. cbv iota.
  rewrite L2, bool_decide_false by apply print_dec_nonempty. rewrite Hdig. cbn [negb].
  rewrite Hh. unfold rest. rewrite take_blob_at; [|lia]. cbn [fmap option_fmap option_map fst].
  by rewrite strtou_print by lia.
Qed.

(** *** Truncated records *)

Lemma take_line_cut a l b n :
  NL ∉ l -> (n <= length l)%nat -> take_line (a ++ take n (l ++ NL :: b)) (size a) = None.
Proof.
  intros Hl Hn. unfold take_line, find_char. rewrite drop_at, take_app_le by done.
  rewrite index_of_none; [done|]. intros Hin. apply Hl. apply elem_of_take in Hin as (i & Hi & _). by eapply list_elem_of_lookup_2.
Qed.

(** Whatever is left of a line that was cut behind its newline. *)
Lemma take_past {A} (l b : list A) x n :
  (length l < n)%nat -> take n (l ++ x :: b) = l ++ x :: take (n - S (length l)) b.
Proof.
  intros Hn. rewrite take_app_ge by lia. f_equal. destruct (n - length l)%nat as [|k] eqn:E; [lia|].
  simpl. do 2 f_equal. lia.
Qed.

Lemma take_blob_cut a v n :
  size a + 21 + size v < 2 ^ SIZE_BITS ->
  (n < length (print_dec (size v) ++ NL :: v))%nat ->
  take_blob (a ++ take n (print_dec (size v) ++ NL :: v)) (size a) = None.
Proof.
  intros Hsz Hn. pose proof (size_nonneg a). pose proof (size_nonneg v).
  pose proof (print_digits_size 20 (size v)) as Hd. fold (print_dec (size v)) in Hd.
  unfold SIZE_BITS in *. pose proof (print_dec_digits (size v) ltac:(lia)) as Hdig.
  unfold take_blob. destruct (decide (n <= length (print_dec (size v)))%nat) as [Hle|Hgt].
  { by rewrite take_line_cut by (done || by apply digits_no_newline). }
  rewrite take_past by lia. rewrite take_line_at by (by apply digits_no_newline).
  rewrite bool_decide_false by apply print_dec_nonempty. rewrite Hdig. cbn [negb].
  unfold SIZE_BITS. rewrite strtou_print by lia.
  pose proof (size_nonneg (print_dec (size v))). rewrite wrap_small by lia.
  destruct (_ <? _) eqn:E; [done|]. apply Z.ltb_ge in E. exfalso.
  rewrite !size_app, size_cons in E. rewrite length_app in Hn. simpl in Hn. unfold size in *.
  rewrite length_take in E. lia.
Qed.

(** A huge length field wraps the bound check: the record says 4294967295
    bytes follow and three do. *)
Definition torn_record : text := txt "v1" ++ [NL] ++ txt "7" ++ [NL] ++ txt "4294967295" ++ [NL] ++ txt "abc".

Lemma torn_record_value : decode_pending torn_record = Some (mkPending 7 (txt "abc")).
Proof. vm_compute. reflexivity. Qed.

Lemma confirmed_cut cfg n :
  record_fits cfg -> (n < length (encode_confirmed cfg))%nat ->
  decode_confirmed (take n (encode_confirmed cfg)) = None.
Proof.
  intros Hf Hn. unfold record_fits in Hf. unfold decode_confirmed.
  change (encode_confirmed cfg) with (txt "c1" ++ NL :: (print_dec (size cfg) ++ NL :: cfg)) in *.
  set (b := print_dec (size cfg) ++ NL :: cfg) in *.
  destruct (decide (n <= length (txt "c1"))%nat) as [Hle|Hgt].
  { pose proof (take_line_cut [] (txt "c1") b n ltac:(no_newline) Hle) as L.
    change (take_line (take n (txt "c1" ++ NL :: b)) 0 = None) in L. by rewrite L. }
  rewrite take_past by lia. set (k := (n - _)%nat).
  pose proof (take_line_at [] (txt "c1") (take k b) ltac:(no_newline)) as L.
  change (take_line (txt "c1" ++ NL :: take k b) 0 = Some (txt "c1", 3)) in L. rewrite L.
  change (negb (text_eqb (txt "c1") (txt "c1"))) with false. cbv iota.
  change (txt "c1" ++ NL :: take k b) with (kConfirmedTag ++ take k b). change 3 with (size kConfirmedTag).
  unfold b. rewrite take_blob_cut; [done| |].
  - change (size kConfirmedTag) with 3. lia.
  - fold b. rewrite length_app in Hn. change (length (txt "c1")) with 2%nat in *.
    change (length (NL :: b)) with (S (length b)) in Hn. lia.
Qed.

Lemma pending_cut r n :
  0 <= pr_token r < 2 ^ 64 -> record_fits (pr_candidate r) -> (n < length (encode_pending r))%nat ->
  decode_pending (take n (encode_pending r)) = None.
Proof.
  intros Ht Hf Hn. destruct r as [tok c]. unfold record_fits in Hf. cbn [pr_token pr_candidate] in *.
  pose proof (print_digits_size 20 tok) as Hd. fold (print_dec tok) in Hd.
  pose proof (print_dec_digits tok ltac:(lia)) as Hdig.
  set (b := print_dec (size c) ++ NL :: c).
  assert (E : encode_pending (mkPending tok c) = txt "v1" ++ NL :: (print_dec tok ++ NL :: b)).
  { unfold encode_pending, append_blob. cbn [pr_token pr_candidate]. by rewrite <- !app_assoc. }
  rewrite E in *. unfold decode_pending.
  destruct (decide (n <= length (txt "v1"))%nat) as [Hle|Hgt].
  { pose proof (take_line_cut [] (txt "v1") (print_dec tok ++ NL :: b) n ltac:(no_newline) Hle) as L.
    change (take_line (take n (txt "v1" ++ NL :: (print_dec tok ++ NL :: b))) 0 = None) in L. by rewrite L. }
  rewrite take_past by lia. set (k := (n - _)%nat).
  pose proof (take_line_at [] (txt "v1") (take k (print_dec tok ++ NL :: b)) ltac:(no_newline)) as L.
  change (take_line (txt "v1" ++ NL :: take k (print_dec tok ++ NL :: b)) 0 = Some (txt "v1", 3)) in L.
  rewrite L. change (negb (text_eqb (txt "v1") (txt "v1"))) with false. cbv iota.
  assert (E1 : forall x, txt "v1" ++ NL :: x = (txt "v1" ++ [NL]) ++ x) by done. rewrite E1.
  change 3 with (size (txt "v1" ++ [NL])).
  destruct (decide (k <= length (print_dec tok))%nat) as [Hle|Hgt'].
  { by rewrite take_line_cut by (done || by apply digits_no_newline). }
  rewrite take_past by lia. rewrite take_line_at by (by apply digits_no_newline).
  rewrite bool_decide_false by apply print_dec_nonempty. rewrite Hdig. cbn [negb].
  set (j := (k - _)%nat). set (h := (txt "v1" ++ [NL]) ++ print_dec tok ++ [NL]).
  replace ((txt "v1" ++ [NL]) ++ print_dec tok ++ NL :: take j b) with (h ++ take j b)
    by (unfold h; by rewrite <- !app_assoc).
  replace (size (txt "v1" ++ [NL]) + size (print_dec tok) + 1) with (size h)
    by (unfold h; rewrite !size_app; unfold size; simpl; lia).
  assert (Hh : size h <= 24).
  { unfold h. rewrite !size_app. change (size (txt "v1")) with 2. change (size [NL]) with 1. lia. }
  unfold b. rewrite take_blob_cut; [done|lia|].
  fold b. rewrite length_app in Hn. change (length (txt "v1")) with 2%nat in *.
  change (length (NL :: (print_dec tok ++ NL :: b))) with (S (length (print_dec tok ++ NL :: b))) in Hn.
  rewrite length_app in Hn. change (length (NL :: b)) with (S (length b)) in Hn. lia.
Qed.

(** The records on disk.  A confirmed and a pending record are read back as
    they were written, whatever bytes the configuration holds, and every proper
    prefix of a record - what a torn write leaves - is rejected, never read as a
    shorter configuration. *)
Theorem records_read_back_or_rejected (r : PendingRecord) (n : nat) :
  0 <= pr_token r < 2 ^ 64 -> record_fits (pr_candidate r) ->
  decode_confirmed (encode_confirmed (pr_candidate r)) = Some (pr_candidate r)
  /\ decode_pending (encode_pending r) = Some r
  /\ ((n < length (encode_confirmed (pr_candidate r)))%nat ->
        decode_confirmed (take n (encode_confirmed (pr_candidate r))) = None)
  /\ ((n < length (encode_pending r))%nat -> decode_pending (take n (encode_pending r)) = None).
Proof.
  intros Ht Hf. split; [by apply decode_encode_confirmed|]. split; [by apply decode_encode_pending|].
  split; [by apply confirmed_cut|by apply pending_cut].
Qed.

(** ** The transaction *)

(** The application of a configuration, a function of those applied before. *)
Class Apply := { ap_apply : list text -> text -> Result }.

Inductive effect :=
| Applied (cfg : text) (rc : Result)
| Saved (key : string) (v : text) (ok : bool)
| Cleared (key : string).

Section Txn.
Context {S : Type} {SS : StateStore S} {AP : Apply}.
Context (ck pk : string).                  (* the two keys *)

Record t := mk {
  store : S;
  pending_ : bool;
  token_ : Z;
  next_token_ : Z;
  deadline_ms_ : Z;
  deadline_valid_ : bool;
  log : list (effect * S)                  (* newest first, with the store after it *)
}.

#[export] Instance eta : Settable t := fun r =>
  mk (store r) (pending_ r) (token_ r) (next_token_ r) (deadline_ms_ r) (deadline_valid_ r) (log r).

(** The constructor: nothing is in flight, no timer survives a reboot. *)
Definition NetworkTxn (s : S) : t := mk s false 0 1 0 false [].

Definition applied (l : list (effect * S)) : list text :=
  flat_map (fun e => match e.1 with Applied c _ => [c] | _ => [] end) l.

Definition record (e : effect) : ST t unit := modify (fun m => m <| log ::= cons (e, store m) |>).

Definition store_save (k : string) (v : text) : ST t bool := fun m =>
  let '(ok, s) := ss_save k v (store m) in (ok, m <| store := s |> <| log ::= cons (Saved k v ok, s) |>).

Definition store_clear (k : string) : ST t unit := fun m =>
  let '(_, s) := ss_clear k (store m) in (tt, m <| store := s |> <| log ::= cons (Cleared k, s) |>).

(** [apply_ ? apply_(cfg) : Result::ok()], with an apply function given. *)
Definition apply_cfg (cfg : text) : ST t Result :=
  rc ← gets (fun m => ap_apply (applied (log m)) cfg);
  record (Applied cfg rc) ;;
  mret rc.

(** [load_confirmed]. *)
Definition load_confirmed (m : t) : option text := ss_load ck (store m) ≫= decode_confirmed.

Inductive SeedOutcome := Seeded | AlreadyPresent | SeedFailed.
Inductive RecoverOutcome := Nothing | RolledBack | ConfirmedUnusable.

(** [seed_confirmed]. *)
Definition seed_confirmed (config : text) : ST t SeedOutcome :=
  m ← gets (fun m => m);
  match load_confirmed m with
  | Some _ => mret AlreadyPresent
  | None =>
      ok ← store_save ck (encode_confirmed config);
      mret (if ok : bool then Seeded else SeedFailed)
  end.

(** [recover]. *)
Definition recover : ST t RecoverOutcome :=
  m ← gets (fun m => m);
  let pending_blob := ss_load pk (store m) in
  let pr := pending_blob ≫= decode_pending in
  match pr with
  | Some r => when (next_token_ m <=? pr_token r) (modify (fun m => m <| next_token_ := u64 (pr_token r + 1) |>))
  | None => skip
  end ;;
  match pending_blob with
  | None => mret Nothing
  | Some _ =>
      match load_confirmed m with
      | None => mret ConfirmedUnusable
      | Some good =>
          modify (fun m => m <| pending_ := false |> <| deadline_valid_ := false |>) ;;
          store_clear pk ;;
          rc ← apply_cfg good;
          mret RolledBack
      end
  end.

(** [begin]: [*token_out] when it returns true. *)
Definition begin (candidate : text) (now_ms window_ms : Z) : ST t (option Z) :=
  if window_ms =? 0 then mret None else
  m ← gets (fun m => m);
  if pending_ m then mret None else
  match load_confirmed m with
  | None => mret None
  | Some good =>
      let tok := next_token_ m in
      modify (fun m => m <| next_token_ := u64 (tok + 1) |>) ;;
      ok ← store_save pk (encode_pending (mkPending tok candidate));
      if negb ok then mret None else
      rc ← apply_cfg candidate;
      if negb (is_ok rc) then
        store_clear pk ;;
        apply_cfg good ;;
        mret None
      else
        modify (fun m => m <| pending_ := true |> <| token_ := tok |>
                           <| deadline_ms_ := u32 (now_ms + window_ms) |> <| deadline_valid_ := true |>) ;;
        mret (Some tok)
  end.

(** [confirm]. *)
Definition confirm (tok : Z) : ST t bool :=
  m ← gets (fun m => m);
  if negb (pending_ m) then mret false
  else if negb (tok =? token_ m) then mret false
  else
    match ss_load pk (store m) ≫= decode_pending with
    | None => mret false
    | Some pr =>
        if negb (pr_token pr =? tok) then mret false else
        ok ← store_save ck (encode_confirmed (pr_candidate pr));
        if negb ok then mret false else
        store_clear pk ;;
        modify (fun m => m <| pending_ := false |> <| deadline_valid_ := false |>) ;;
        mret true
    end.

(** [rollback_locked]. *)
Definition rollback_locked : ST t bool :=
  m ← gets (fun m => m);
  let have := load_confirmed m in
  modify (fun m => m <| pending_ := false |> <| deadline_valid_ := false |>) ;;
  store_clear pk ;;
  match have with
  | None => mret true
  | Some good => rc ← apply_cfg good; mret true
  end.

(** [tick]: true when this call rolled back. *)
Definition tick (now_ms : Z) : ST t bool :=
  m ← gets (fun m => m);
  if negb (pending_ m) || negb (deadline_valid_ m) then mret false
  else if i32 (now_ms - deadline_ms_ m) <? 0 then mret false
  else rollback_locked.

(** [remaining_ms]. *)
Definition remaining_ms (now_ms : Z) (m : t) : Z :=
  if negb (pending_ m) || negb (deadline_valid_ m) then 0
  else let d := i32 (deadline_ms_ m - now_ms) in if 0 <? d then u32 d else 0.

(** ** Triples *)

Context {valid : string -> Prop} {LAWS : StateStoreLaws S valid}.
Context (Hck : valid ck) (Hpk : valid pk) (Hne : ck <> pk).

Lemma store_save_spec k v m :
  valid k ->
  wp (store_save k v) (fun ok m' => exists s',
    m' = m <| store := s' |> <| log ::= cons (Saved k v ok, s') |>
    /\ (ok = true -> ss_load k s' = Some v)
    /\ (ss_load k s' = Some v \/ ss_load k s' = ss_load k (store m))
    /\ (forall k', valid k' -> k' <> k -> ss_load k' s' = ss_load k' (store m))) m.
Proof using LAWS.
  intros Hk. unfold store_save, wp, result, exec.
  pose proof (ss_save_true k v (store m) Hk) as H1.
  pose proof (ss_save_atomic k v (store m) Hk) as H2.
  pose proof (fun k' Hk' Hn => ss_save_other k k' v (store m) Hk Hk' Hn) as H3.
  unfold wp, result, exec in *. destruct (ss_save k v (store m)) as [ok s']. simpl in *.
  exists s'. split; [done|]. split; [done|]. split; [done|]. exact H3.
Qed.

Lemma store_clear_spec k m :
  valid k ->
  wp (store_clear k) (fun _ m' => exists s',
    m' = m <| store := s' |> <| log ::= cons (Cleared k, s') |>
    /\ (ss_load k s' = None \/ ss_load k s' = ss_load k (store m))
    /\ (forall k', valid k' -> k' <> k -> ss_load k' s' = ss_load k' (store m))) m.
Proof using LAWS.
  intros Hk. unfold store_clear, wp, result, exec.
  pose proof (ss_clear_self k (store m) Hk) as H1.
  pose proof (fun k' Hk' Hn => ss_clear_other k k' (store m) Hk Hk' Hn) as H2.
  unfold wp, result, exec in *. destruct (ss_clear k (store m)) as [[] s']. simpl in *.
  exists s'. split; [done|]. split; [done|]. exact H2.
Qed.

Lemma apply_spec cfg m :
  wp (apply_cfg cfg) (fun rc m' => m' = m <| log ::= cons (Applied cfg rc, store m) |>) m.
Proof. reflexivity. Qed.

Lemma load_confirmed_store m s' :
  ss_load ck s' = ss_load ck (store m) -> ss_load ck s' ≫= decode_confirmed = load_confirmed m.
Proof. unfold load_confirmed. by intros ->. Qed.

(** *** [recover] on a store with something in flight *)

Lemma recover_pending m :
  is_Some (ss_load pk (store m)) ->
  wp recover (fun r m' =>
    match load_confirmed m with
    | Some good => r = RolledBack /\ pending_ m' = false /\ applied (log m') = good :: applied (log m)
        /\ load_confirmed m' = Some good
    | None => r = ConfirmedUnusable /\ store m' = store m /\ log m' = log m
    end) m.
Proof using LAWS Hck Hpk Hne.
  intros [blob Hb]. unfold recover. apply wp_bind, wp_gets. rewrite Hb. cbv zeta. apply wp_bind.
  apply (wp_mono _ (fun _ m1 => store m1 = store m /\ log m1 = log m)).
  { destruct (Some blob ≫= decode_pending); [|by apply wp_skip]. by apply wp_when; intros _; [apply wp_modify|]. }
  intros _ m1 [Hs Hl]. destruct (load_confirmed m) as [good|] eqn:Hg; [|by apply wp_ret].
  apply wp_bind, wp_modify, wp_bind.
  wp_call (store_clear_spec pk _ Hpk). intros _ m2 (s' & -> & _ & Ho). apply wp_bind.
  wp_call (apply_spec good). intros rc m3 ->. apply wp_ret. simpl in *.
  split; [done|]. split; [done|]. split; [by rewrite Hl|].
  unfold load_confirmed. simpl. rewrite Ho by done. rewrite Hs. exact Hg.
Qed.

Lemma recover_nothing m :
  ss_load pk (store m) = None -> wp recover (fun r m' => r = Nothing /\ log m' = log m) m.
Proof.
  intros Hb. unfold recover. apply wp_bind, wp_gets. rewrite Hb. cbn. by apply wp_ret.
Qed.

(** *** [begin] *)

Definition new_log (m m' : t) (new : list (effect * S)) : Prop := log m' = new ++ log m.

Lemma begin_spec candidate now w m :
  wp (begin candidate now w) (fun r m' =>
    match r with
    | Some tok => exists good s1,
        w <> 0 /\ pending_ m = false /\ tok = next_token_ m /\ load_confirmed m = Some good
        /\ load_confirmed m' = Some good
        /\ m' = mk s1 true tok (u64 (next_token_ m + 1)) (u32 (now + w)) true (log m')
        /\ ss_load pk s1 = Some (encode_pending (mkPending tok candidate))
        /\ exists rc, log m' = (Applied candidate rc, s1)
              :: (Saved pk (encode_pending (mkPending tok candidate)) true, s1) :: log m
    | None =>
        pending_ m' = pending_ m /\ token_ m' = token_ m /\ load_confirmed m' = load_confirmed m
        /\ (pending_ m = true -> m' = m)
        /\ (next_token_ m' = next_token_ m \/ next_token_ m' = u64 (next_token_ m + 1))
        /\ (applied (log m') = applied (log m)
            \/ exists good, load_confirmed m = Some good
               /\ applied (log m') = good :: candidate :: applied (log m))
    end) m.
Proof using LAWS Hck Hpk Hne.
  unfold begin. destruct (w =? 0) eqn:Ew; [by apply wp_ret; repeat split; auto|].
  apply Z.eqb_neq in Ew. apply wp_bind, wp_gets.
  destruct (pending_ m) eqn:Hp; [by apply wp_ret; rewrite Hp; repeat split; auto|].
  destruct (load_confirmed m) as [good|] eqn:Hg; [|by apply wp_ret; rewrite Hp, Hg; repeat split; auto].
  cbv zeta. apply wp_bind, wp_modify, wp_bind.
  wp_call (store_save_spec pk _ _ Hpk). intros ok m1 (s1 & -> & H1 & _ & Ho).
  assert (Hg1 : ss_load ck s1 ≫= decode_confirmed = Some good).
  { rewrite Ho by done. exact Hg. }
  destruct ok; cbn [negb].
  2: { apply wp_ret. simpl. split; [done|]. split; [done|]. split; [exact Hg1|]. split; [done|].
       split; [by right|by left]. }
  specialize (H1 eq_refl). apply wp_bind. wp_call (apply_spec candidate). intros rc m2 ->.
  destruct (is_ok rc); cbn [negb].
  - apply wp_bind, wp_modify, wp_ret. exists good, s1. simpl in *.
    do 5 (split; [done|]). split; [done|]. split; [exact H1|]. by exists rc.
  - apply wp_bind. wp_call (store_clear_spec pk _ Hpk). intros _ m3 (s3 & -> & _ & Ho3).
    apply wp_bind. wp_call (apply_spec good). intros rc' m4 ->. apply wp_ret. simpl in *.
    split; [done|]. split; [done|]. split; [|split; [done|split; [by right|right; by exists good]]].
    unfold load_confirmed. simpl. rewrite Ho3 by done. exact Hg1.
Qed.

(** *** [confirm] *)

Lemma confirm_spec tok m :
  wp (confirm tok) (fun r m' =>
    (pending_ m = false \/ tok <> token_ m -> r = false /\ m' = m)
    /\ (r = true -> exists c s1 s2,
          tok = token_ m /\ ss_load pk (store m) ≫= decode_pending = Some (mkPending tok c)
          /\ pending_ m' = false /\ next_token_ m' = next_token_ m /\ store m' = s2
          /\ ss_load ck s1 = Some (encode_confirmed c) /\ ss_load ck s2 = Some (encode_confirmed c)
          /\ ss_load pk s1 = ss_load pk (store m)
          /\ log m' = (Cleared pk, s2) :: (Saved ck (encode_confirmed c) true, s1) :: log m)
    /\ (r = false -> pending_ m' = pending_ m /\ token_ m' = token_ m
          /\ deadline_valid_ m' = deadline_valid_ m /\ next_token_ m' = next_token_ m
          /\ ss_load pk (store m') = ss_load pk (store m)
          /\ applied (log m') = applied (log m)
          /\ (load_confirmed m' = load_confirmed m
              \/ exists c, ss_load pk (store m) ≫= decode_pending = Some (mkPending tok c)
                 /\ ss_load ck (store m') = Some (encode_confirmed c)))) m.
Proof using LAWS Hck Hpk Hne.
  unfold confirm. apply wp_bind, wp_gets.
  destruct (pending_ m) eqn:Hp; cbn [negb].
  2: { apply wp_ret. split; [done|]. split; [done|]. intros _. do 6 (split; [done|]). by left. }
  destruct (tok =? token_ m) eqn:Et; cbn [negb].
  2: { apply wp_ret. split; [done|]. split; [done|]. intros _. do 6 (split; [done|]). by left. }
  apply Z.eqb_eq in Et as ->.
  assert (Hno : true = false \/ token_ m <> token_ m -> False) by (intros [|]; congruence).
  destruct (ss_load pk (store m) ≫= decode_pending) as [[tk c]|] eqn:Hb.
  2: { apply wp_ret. split; [intros []%Hno|]. split; [done|]. intros _. do 6 (split; [done|]). by left. }
  cbn [pr_token pr_candidate]. destruct (tk =? token_ m) eqn:Et; cbn [negb].
  2: { apply wp_ret. split; [intros []%Hno|]. split; [done|]. intros _. do 6 (split; [done|]). by left. }
  apply Z.eqb_eq in Et as ->. apply wp_bind.
  wp_call (store_save_spec ck _ _ Hck). intros ok m1 (s1 & -> & H1 & Hat & Ho). destruct ok; cbn [negb].
  2: { apply wp_ret. simpl. split; [intros []%Hno|]. split; [done|]. intros _. do 4 (split; [done|]).
       split; [by apply Ho|]. split; [done|]. destruct Hat as [Hat|Hat]; [right; by exists c|].
       left. by apply load_confirmed_store. }
  specialize (H1 eq_refl). apply wp_bind. wp_call (store_clear_spec pk _ Hpk).
  intros _ m2 (s2 & -> & _ & Ho2). apply wp_bind, wp_modify, wp_ret. simpl in *.
  split; [intros []%Hno|]. split; [|done]. intros _. exists c, s1, s2.
  do 6 (split; [done|]). split; [by rewrite Ho2|]. split; [by apply Ho|done].
Qed.

(** *** [tick] *)

Lemma tick_spec now m :
  wp (tick now) (fun r m' =>
    if pending_ m && deadline_valid_ m && (0 <=? i32 (now - deadline_ms_ m)) then
      r = true /\ pending_ m' = false /\ next_token_ m' = next_token_ m
      /\ applied (log m') = option_list (load_confirmed m) ++ applied (log m)
      /\ load_confirmed m' = load_confirmed m
    else r = false /\ m' = m) m.
Proof using LAWS Hck Hpk Hne.
  unfold tick. apply wp_bind, wp_gets.
  destruct (pending_ m) eqn:Hp; [|by apply wp_ret]. destruct (deadline_valid_ m); [|by apply wp_ret].
  cbn [negb orb andb]. rewrite Z.leb_antisym. destruct (_ <? 0); cbn [negb]; [by apply wp_ret|].
  unfold rollback_locked. apply wp_bind, wp_gets. cbv zeta. apply wp_bind, wp_modify, wp_bind.
  wp_call (store_clear_spec pk _ Hpk). intros _ m1 (s1 & -> & _ & Ho). simpl in Ho.
  destruct (load_confirmed m) as [good|] eqn:Hg.
  - apply wp_bind. wp_call (apply_spec good). intros rc m2 ->. apply wp_ret. simpl.
    do 4 (split; [done|]).
    unfold load_confirmed. simpl. rewrite Ho by done. exact Hg.
  - apply wp_ret. do 4 (split; [done|]).
    unfold load_confirmed. simpl. rewrite Ho by done. exact Hg.
Qed.

(** ** Histories *)

Inductive call :=
| Begin (candidate : text) (now w : Z)
| Confirm (tok : Z)
| Tick (now : Z)
| Recover
| Seed (config : text).

Definition call_fits (c : call) : Prop :=
  match c with Begin cand _ _ => record_fits cand | _ => True end.

Definition do (c : call) (m : t) : t :=
  match c with
  | Begin cand now w => exec (begin cand now w) m
  | Confirm tok => exec (confirm tok) m
  | Tick now => exec (tick now) m
  | Recover => exec recover m
  | Seed config => exec (seed_confirmed config) m
  end.

Definition run (l : list call) (m : t) : t := foldl (fun m c => do c m) m l.

(** While a change waits for confirmation its record is on the store, a
    confirmed configuration can be read, and the candidate is what was applied
    last. *)
Record inv (m : t) : Prop := {
  iv_next : 0 <= next_token_ m < 2 ^ 64;
  iv_pending : pending_ m = true -> exists c rest,
    record_fits c /\ 0 <= token_ m < 2 ^ 64 /\ deadline_valid_ m = true
    /\ ss_load pk (store m) = Some (encode_pending (mkPending (token_ m) c))
    /\ is_Some (load_confirmed m) /\ applied (log m) = c :: rest
}.

Lemma inv_fresh s : inv (NetworkTxn s).
Proof. split; simpl; [lia|done]. Qed.

Lemma begin_inv cand now w m : record_fits cand -> inv m -> inv (exec (begin cand now w) m).
Proof using LAWS Hck Hpk Hne.
  intros Hf [Hn Hp].
  pose proof (begin_spec cand now w m) as Hs. unfold wp in Hs.
  pose proof (wrap_range 64 (next_token_ m + 1) ltac:(lia)) as Hw.
  destruct (result _ m) as [tok|].
  - destruct Hs as (good & s1 & _ & _ & -> & _ & Hg & Hm & Hpk1 & rc & Hl). rewrite Hm in *.
    split; simpl in *; [exact Hw|]. intros _. exists cand, (applied (log m)).
    split; [done|]. split; [done|]. split; [done|]. split; [done|]. split; [by eexists|]. by rewrite Hl.
  - destruct Hs as (Hp' & _ & _ & Hsame & Hnt & _). split.
    + destruct Hnt as [-> | ->]; done.
    + intros Hpend. rewrite Hp' in Hpend. rewrite (Hsame Hpend). by apply Hp.
Qed.

Lemma confirm_inv tok m : inv m -> inv (exec (confirm tok) m).
Proof using LAWS Hck Hpk Hne.
  intros [Hn Hp]. pose proof (confirm_spec tok m) as (_ & Ht & Hf). unfold wp in *.
  destruct (result (confirm tok) m).
  - destruct (Ht eq_refl) as (c & s1 & s2 & _ & _ & Hpf & Hnt & _). split; [by rewrite Hnt|]. congruence.
  - destruct (Hf eq_refl) as (E1 & E2 & E3 & Hnt & E5 & E6 & E7). split; [by rewrite Hnt|].
    rewrite E1. intros Hpend. destruct (Hp Hpend) as (c & rest & Hfit & Htok & Hdv & Hrec & Hgood & Hap).
    exists c, rest. rewrite E2, E3, E5, E6. do 4 (split; [done|]). split; [|done].
    destruct E7 as [-> | (c' & Hd & Hs)]; [done|].
    rewrite Hrec in Hd. cbn [mbind option_bind] in Hd.
    rewrite decode_encode_pending in Hd by done. injection Hd as _ <-.
    unfold load_confirmed. rewrite Hs. cbn [mbind option_bind]. rewrite decode_encode_confirmed by done. by eexists.
Qed.

Lemma recover_inv m : inv m -> inv (exec recover m).
Proof using LAWS Hck Hpk Hne.
  intros [Hn Hp].
  assert (W : wp recover (fun _ m' => inv m') m); [|exact W].
  unfold recover. apply wp_bind, wp_gets. cbv zeta. apply wp_bind.
  apply (wp_mono _ (fun _ m1 => exists nt, m1 = m <| next_token_ := nt |> /\ 0 <= nt < 2 ^ 64)).
  { assert (Hm : exists nt, m = m <| next_token_ := nt |> /\ 0 <= nt < 2 ^ 64).
    { exists (next_token_ m). split; [by destruct m|exact Hn]. }
    destruct (_ ≫= decode_pending) as [r|]; [|apply wp_skip; exact Hm].
    apply wp_when; intros _; [|exact Hm]. apply wp_modify. eexists. split; [reflexivity|]. apply wrap_range. lia. }
  intros _ m1 (nt & -> & Hnt).
  assert (I1 : inv (m <| next_token_ := nt |>)) by (split; [exact Hnt|exact Hp]).
  destruct (ss_load pk (store m)); [|by apply wp_ret].
  destruct (load_confirmed m) as [good|]; [|by apply wp_ret].
  apply wp_bind, wp_modify, wp_bind.
  wp_call (store_clear_spec pk _ Hpk). intros _ m2 (s' & -> & _ & Ho). apply wp_bind.
  wp_call (apply_spec good). intros rc m3 ->. apply wp_ret. by split.
Qed.

Lemma seed_inv config m : inv m -> inv (exec (seed_confirmed config) m).
Proof using LAWS Hck Hpk Hne.
  intros I. assert (W : wp (seed_confirmed config) (fun _ m' => inv m') m); [|exact W].
  unfold seed_confirmed. apply wp_bind, wp_gets. destruct (load_confirmed m) eqn:Hg; [by apply wp_ret|].
  destruct I as [Hn Hp].
  apply wp_bind. wp_call (store_save_spec ck _ _ Hck). intros ok m1 (s1 & -> & _). apply wp_ret.
  split; [done|]. simpl. intros Hpend. destruct (Hp Hpend) as (c & rest & _ & _ & _ & _ & [? ?] & _). congruence.
Qed.

Lemma do_inv c m : call_fits c -> inv m -> inv (do c m).
Proof using LAWS Hck Hpk Hne.
  intros Hf I. destruct c as [cand now w|tok|now| |config]; cbn [do].
  - by apply begin_inv.
  - by apply confirm_inv.
  - pose proof (tick_spec now m) as Ht. unfold wp in Ht.
    destruct (_ && _).
    + destruct Ht as (_ & Hp & Hn & _). split; [rewrite Hn; apply I|congruence].
    + destruct Ht as (_ & ->). done.
  - by apply recover_inv.
  - by apply seed_inv.
Qed.

Lemma run_inv l m : Forall call_fits l -> inv m -> inv (run l m).
Proof using LAWS Hck Hpk Hne.
  intros Hl. revert m. induction Hl as [|c l Hc Hl IH]; intros m I; [done|]. by apply IH, do_inv.
Qed.
(** ** Crashes

    A crash at some point of a call leaves the store of the newest log entry up
    to that point; the process that boots on it starts from [NetworkTxn] and
    calls [recover]. *)

Definition reboot (s : S) : t := exec recover (NetworkTxn s).
Definition reboot_outcome (s : S) : RecoverOutcome := result recover (NetworkTxn s).

(** [recover] on the store [s] puts [good] back, and nothing else. *)
Definition falls_back_to (good : text) (s : S) : Prop :=
  reboot_outcome s = RolledBack /\ applied (log (reboot s)) = [good]
  /\ ss_load ck (store (reboot s)) ≫= decode_confirmed = Some good.

Lemma falls_back s good :
  is_Some (ss_load pk s) -> ss_load ck s ≫= decode_confirmed = Some good -> falls_back_to good s.
Proof using LAWS Hck Hpk Hne.
  intros Hp Hg. pose proof (recover_pending (NetworkTxn s) Hp) as W.
  unfold wp in W. change (load_confirmed (NetworkTxn s)) with (ss_load ck s ≫= decode_confirmed) in W.
  rewrite Hg in W. destruct W as (? & _ & Ha & Hc). done.
Qed.

Lemma stays_put s : ss_load pk s = None -> reboot_outcome s = Nothing /\ log (reboot s) = [].
Proof. intros Hb. exact (recover_nothing (NetworkTxn s) Hb). Qed.

(** The history of effects behind a log position: what a crash right after
    the newest of these effects leaves. *)
Definition crash_points (m m' : t) : list (list (effect * S)) :=
  map (fun j => drop j (log m')) (seq 0 (length (log m') - length (log m))).

Lemma elem_of_crash_points m m' new l :
  log m' = new ++ log m ->
  l ∈ crash_points m m' <-> exists j, (j < length new)%nat /\ l = drop j new ++ log m.
Proof.
  intros E. unfold crash_points. rewrite E, length_app, Nat.add_sub, list_elem_of_fmap. split.
  - intros (j & -> & Hj%elem_of_seq). exists j. split; [lia|]. rewrite drop_app_le by lia. done.
  - intros (j & Hj & ->). exists j. rewrite drop_app_le by lia. split; [done|]. apply elem_of_seq. lia.
Qed.

(** C1. A change nobody confirmed never survives a restart.  After any history
    of calls since a boot, if a change is still waiting for its confirmation
    and the process dies, the next boot's recover() reports a rollback, applies
    the confirmed configuration and nothing else, and keeps it confirmed. *)
Theorem unconfirmed_change_rolled_back (l : list call) (s0 : S) :
  Forall call_fits l ->
  let m := run l (NetworkTxn s0) in
  pending_ m = true ->
  exists good, load_confirmed m = Some good /\ falls_back_to good (store m).
Proof using LAWS Hck Hpk Hne.
  intros Hl m Hp. pose proof (run_inv l _ Hl (inv_fresh s0)) as [_ I].
  destruct (I Hp) as (c & rest & _ & _ & _ & Hrec & [good Hg] & _). exists good. split; [done|].
  apply falls_back; [by eexists|exact Hg].
Qed.

Lemma begin_trace candidate now w m :
  wp (begin candidate now w) (fun r m' =>
    log m' = log m
    \/ exists good tok ok s1, load_confirmed m = Some good
        /\ ss_load ck s1 ≫= decode_confirmed = Some good
        /\ (ok = true -> ss_load pk s1 = Some (encode_pending (mkPending tok candidate)))
        /\ let saved := (Saved pk (encode_pending (mkPending tok candidate)) ok, s1) :: log m in
           (ok = false /\ log m' = saved
            \/ exists rc, ok = true
               /\ (r = Some tok /\ is_ok rc = true /\ log m' = (Applied candidate rc, s1) :: saved
                  \/ exists rc' s3, r = None /\ is_ok rc = false
                     /\ ss_load ck s3 ≫= decode_confirmed = Some good
                     /\ log m' = (Applied good rc', s3) :: (Cleared pk, s3)
                                 :: (Applied candidate rc, s1) :: saved))) m.
Proof using LAWS Hck Hpk Hne.
  unfold begin. destruct (w =? 0); [by apply wp_ret; left|]. apply wp_bind, wp_gets.
  destruct (pending_ m); [by apply wp_ret; left|].
  destruct (load_confirmed m) as [good|] eqn:Hg; [|by apply wp_ret; left].
  cbv zeta. apply wp_bind, wp_modify, wp_bind.
  wp_call (store_save_spec pk _ _ Hpk). intros ok m1 (s1 & -> & H1 & _ & Ho).
  assert (Hg1 : ss_load ck s1 ≫= decode_confirmed = Some good).
  { rewrite Ho by done. exact Hg. }
  destruct ok; cbn [negb].
  2: { apply wp_ret. right. eexists good, _, false, s1. do 3 (split; [done|]). by left. }
  apply wp_bind. wp_call (apply_spec candidate). intros rc m2 ->.
  destruct (is_ok rc) eqn:Hrc; cbn [negb].
  - apply wp_bind, wp_modify, wp_ret. right. eexists good, _, true, s1. do 3 (split; [done|]).
    right. exists rc. split; [done|]. by left.
  - apply wp_bind. wp_call (store_clear_spec pk _ Hpk). intros _ m3 (s3 & -> & _ & Ho3).
    apply wp_bind. wp_call (apply_spec good). intros rc' m4 ->. apply wp_ret.
    right. eexists good, _, true, s1. do 3 (split; [done|]). right. exists rc. split; [done|]. right.
    exists rc', s3. do 2 (split; [done|]). split; [|done]. rewrite Ho3 by done. exact Hg1.
Qed.

(** begin() writes before it applies.  At every point of begin() at which
    the candidate has been applied - whatever the store and the application
    answered - a crash is rolled back to the confirmed configuration, except
    after an application that itself reported failure; and a begin() that
    returns false after applying has put the confirmed configuration back. *)
Theorem begin_crash_safe (candidate : text) (now w : Z) (m : t) :
  let m' := exec (begin candidate now w) m in
  (forall l, l ∈ crash_points m m' -> candidate ∈ applied l -> candidate ∉ applied (log m) ->
     exists good e s older, l = (e, s) :: older /\ load_confirmed m = Some good
       /\ (falls_back_to good s \/ exists rc s', (Applied candidate rc, s') ∈ l /\ is_ok rc = false))
  /\ (result (begin candidate now w) m = None ->
        applied (log m') = applied (log m)
        \/ exists good, load_confirmed m = Some good
            /\ applied (log m') = good :: candidate :: applied (log m)).
Proof using LAWS Hck Hpk Hne.
  intros m'. split.
  2: { intros Hr. pose proof (begin_spec candidate now w m) as Hs. unfold wp in Hs. rewrite Hr in Hs. apply Hs. }
  intros l Hl Hin Hout. pose proof (begin_trace candidate now w m) as Ht. unfold wp in Ht. fold m' in Ht. clearbody m'.
  destruct Ht as [E | (good & tok & ok & s1 & Hg & Hg1 & Hs & Ht)].
  { destruct (proj1 (elem_of_crash_points m m' [] l E) Hl) as (j & Hj & _). simpl in Hj. lia. }
  cbv zeta in Ht. exists good.
  destruct Ht as [(-> & E) | (rc & -> & [(_ & Hrc & E) | (rc' & s3 & _ & Hrc & Hg3 & E)])].
  - destruct (proj1 (elem_of_crash_points m m' [_] l E) Hl) as (j & Hj & ->).
    destruct j as [|]; simpl in Hj; [|lia]. done.
  - destruct (proj1 (elem_of_crash_points m m' [_; _] l E) Hl) as (j & Hj & ->).
    destruct j as [|[|]]; simpl in Hj; [|done|lia]. eexists _, _, _. split; [done|]. split; [done|]. left.
    apply falls_back; [rewrite Hs by done; by eexists|done].
  - destruct (proj1 (elem_of_crash_points m m' [_; _; _; _] l E) Hl) as (j & Hj & ->).
    destruct j as [|[|[|[|]]]]; simpl in Hj; [| | |done|lia];
      (eexists _, _, _; split; [done|]; split; [done|]; right; exists rc, s1; split; [|done];
       cbn [drop app]; rewrite !elem_of_cons; tauto).
Qed.
(** The stores [confirm] leaves, for the change [c] it confirms. *)
Lemma confirm_trace tok c m :
  record_fits c -> 0 <= token_ m < 2 ^ 64 ->
  ss_load pk (store m) = Some (encode_pending (mkPending (token_ m) c)) ->
  wp (confirm tok) (fun r m' =>
    (r = false /\ log m' = log m)
    \/ exists s1, tok = token_ m /\ ss_load pk s1 = ss_load pk (store m)
        /\ (r = false /\ (ss_load ck s1 = Some (encode_confirmed c) \/ ss_load ck s1 = ss_load ck (store m))
              /\ log m' = (Saved ck (encode_confirmed c) false, s1) :: log m
            \/ exists s2, r = true /\ ss_load ck s1 = Some (encode_confirmed c)
                /\ ss_load ck s2 = Some (encode_confirmed c)
                /\ (ss_load pk s2 = None \/ ss_load pk s2 = ss_load pk s1)
                /\ store m' = s2
                /\ log m' = (Cleared pk, s2) :: (Saved ck (encode_confirmed c) true, s1) :: log m)) m.
Proof using LAWS Hck Hpk Hne.
  intros Hf Ht Hrec. unfold confirm. apply wp_bind, wp_gets.
  destruct (pending_ m); cbn [negb]; [|by apply wp_ret; left].
  destruct (tok =? token_ m) eqn:Et; cbn [negb]; [|by apply wp_ret; left]. apply Z.eqb_eq in Et as ->.
  rewrite Hrec. cbn [mbind option_bind]. rewrite decode_encode_pending by done.
  cbn [pr_token pr_candidate]. rewrite Z.eqb_refl. cbn [negb]. apply wp_bind.
  wp_call (store_save_spec ck _ _ Hck). intros ok m1 (s1 & -> & H1 & Hat & Ho). destruct ok; cbn [negb].
  - apply wp_bind. wp_call (store_clear_spec pk _ Hpk). intros _ m2 (s2 & -> & Hcl & Ho2).
    apply wp_bind, wp_modify, wp_ret. right. exists s1. simpl in *. split; [done|]. split; [by rewrite Ho, Hrec|].
    right. exists s2. split; [done|]. split; [by apply H1|]. split; [by rewrite Ho2, H1|]. done.
  - apply wp_ret. right. exists s1. split; [done|]. split; [by rewrite Ho, Hrec|]. left. done.
Qed.

(** A boot on [s] ends with [good] as the configuration in force: it is
    confirmed, and either recover() applies it or nothing was in flight. *)
Definition lands_on (good : text) (s : S) : Prop :=
  falls_back_to good s
  \/ reboot_outcome s = Nothing /\ ss_load ck s ≫= decode_confirmed = Some good.

Lemma lands good s : ss_load ck s ≫= decode_confirmed = Some good -> lands_on good s.
Proof using LAWS Hck Hpk Hne.
  intros Hg. destruct (ss_load pk s) as [b|] eqn:Hb.
  - left. apply falls_back; [by eexists|done].
  - right. split; [|done]. by apply stays_put.
Qed.

(** confirm() makes permanent exactly the change that is applied.  In any
    reachable state with a change waiting, the candidate applied last is what a
    successful confirm() records; only that change's token is accepted; and a
    crash after any of its effects lands on the old confirmed configuration or
    on the new one - on the new one for sure unless that effect is a failed save of its record. *)
Theorem confirm_exact_and_crash_safe (l : list call) (s0 : S) (tok : Z) :
  Forall call_fits l ->
  let m := run l (NetworkTxn s0) in
  pending_ m = true ->
  exists c rest good, applied (log m) = c :: rest /\ load_confirmed m = Some good
  /\ let m' := exec (confirm tok) m in
     (tok <> token_ m -> result (confirm tok) m = false /\ m' = m)
     /\ (result (confirm tok) m = true -> load_confirmed m' = Some c /\ pending_ m' = false)
     /\ (forall h e s, (e, s) :: h ∈ crash_points m m' ->
           (lands_on good s \/ lands_on c s)
           /\ (e <> Saved ck (encode_confirmed c) false -> lands_on c s)).
Proof using LAWS Hck Hpk Hne.
  intros Hl m Hp. pose proof (run_inv l _ Hl (inv_fresh s0)) as [_ I]. fold m in I. clearbody m.
  destruct (I Hp) as (c & rest & Hf & Ht & _ & Hrec & [good Hg] & Ha). exists c, rest, good.
  split; [done|]. split; [done|]. intros m'.
  pose proof (confirm_spec tok m) as (C1 & C2 & _).
  pose proof (confirm_trace tok c m Hf Ht Hrec) as Htr. unfold wp in *. fold m' in C1, C2, Htr. clearbody m'.
  assert (Hc : forall s, ss_load ck s = Some (encode_confirmed c) -> lands_on c s).
  { intros s Hs. apply lands. rewrite Hs. by apply decode_encode_confirmed. }
  split; [by auto|]. split.
  { intros Hr. destruct (C2 Hr) as (c' & s1 & s2 & _ & Hd & Hpf & _ & Hst & _ & Hs2 & _).
    rewrite Hrec in Hd. cbn [mbind option_bind] in Hd. rewrite decode_encode_pending in Hd by done.
    simplify_eq Hd. intros; subst. split; [|done]. unfold load_confirmed. rewrite Hs2. by apply decode_encode_confirmed. }
  intros h e s Hin.
  destruct Htr as [(_ & E) | (s1 & _ & _ & [(_ & Hat & E) | (s2 & _ & H1 & H2 & _ & _ & E)])].
  - destruct (proj1 (elem_of_crash_points m m' [] _ E) Hin) as (j & Hj & _). simpl in Hj. lia.
  - destruct (proj1 (elem_of_crash_points m m' [_] _ E) Hin) as (j & Hj & Eh).
    destruct j as [|]; simpl in Hj; [|lia]. injection Eh as -> -> ->. split; [|done].
    destruct Hat as [Hat | Hat]; [by right; apply Hc|]. left. apply lands. by rewrite Hat.
  - destruct (proj1 (elem_of_crash_points m m' [_; _] _ E) Hin) as (j & Hj & Eh).
    assert (Hls : lands_on c s); [|by auto].
    destruct j as [|[|]]; simpl in Hj; [| |lia]; injection Eh as -> -> ->; by apply Hc.
Qed.

Lemma window_arith t0 w e :
  0 < w < 2 ^ 31 -> 0 <= e < 2 ^ 31 ->
  i32 (u32 (t0 + e) - u32 (t0 + w)) = e - w /\ i32 (u32 (t0 + w) - u32 (t0 + e)) = w - e.
Proof.
  intros Hw He. rewrite <- (swrap_wrap 32 (u32 (t0 + e) - _)), <- (swrap_wrap 32 (u32 (t0 + w) - _)) by lia.
  rewrite !wrap_sub_l, !wrap_sub_r, !swrap_wrap by lia.
  split; (rewrite swrap_small; lia).
Qed.

(** The confirmation window is exact and survives the wrap of the
    millisecond clock.  After a begin() at [t0] with a window of [w], the tick
    [e] milliseconds later rolls back - applies the confirmed configuration and
    forgets the change - exactly when [w <= e], changes nothing before, and
    remaining_ms() counts the rest down to zero, wherever [t0] stands on the
    32-bit clock. *)
Theorem window_exact (candidate : text) (t0 w e : Z) (m : t) (tok : Z) :
  0 < w < 2 ^ 31 -> 0 <= e < 2 ^ 31 ->
  result (begin candidate t0 w) m = Some tok ->
  let m1 := exec (begin candidate t0 w) m in
  let now := u32 (t0 + e) in
  remaining_ms now m1 = Z.max 0 (w - e)
  /\ (e < w -> result (tick now) m1 = false /\ exec (tick now) m1 = m1)
  /\ (w <= e -> result (tick now) m1 = true /\ pending_ (exec (tick now) m1) = false
        /\ exists good, load_confirmed m = Some good
           /\ applied (log (exec (tick now) m1)) = good :: candidate :: applied (log m)
           /\ load_confirmed (exec (tick now) m1) = Some good).
Proof using LAWS Hck Hpk Hne.
  intros Hw He Hr m1 now. destruct (window_arith t0 w e Hw He) as [A1 A2]. fold now in A1, A2.
  pose proof (begin_spec candidate t0 w m) as B. unfold wp in B. rewrite Hr in B. fold m1 in B.
  destruct B as (good & s1 & _ & _ & _ & Hg & Hg1 & Hm & _ & rc & Hlog).
  pose proof (tick_spec now m1) as T. unfold wp in T.
  assert (Hp : pending_ m1 = true) by (by rewrite Hm).
  assert (Hd : deadline_valid_ m1 = true) by (by rewrite Hm).
  assert (Hdl : deadline_ms_ m1 = u32 (t0 + w)) by (by rewrite Hm).
  unfold remaining_ms. rewrite Hp, Hd, Hdl in *. rewrite A1 in T. rewrite A2. cbn [negb orb andb] in *.
  split; [|split].
  - destruct (0 <? w - e) eqn:E; bool_simpl; [rewrite wrap_small; lia|lia].
  - intros Hlt. destruct (0 <=? e - w) eqn:E; bool_simpl; [lia|done].
  - intros Hle. destruct (0 <=? e - w) eqn:E; bool_simpl; [|lia].
    destruct T as (T1 & T2 & _ & T4 & T5). split; [done|]. split; [done|]. exists good.
    rewrite Hg1 in T4, T5. split; [done|]. split; [|exact T5]. rewrite T4, Hlog. done.
Qed.
End Txn.

(** ** A store in memory, and the window in which a rollback is lost *)

#[local] Instance mem_store : StateStore (gmap string text) := {|
  ss_load k s := s !! k;
  ss_save k v s := (true, <[k := v]> s);
  ss_clear k s := (tt, delete k s)
|}.

#[local] Instance mem_store_laws : StateStoreLaws (gmap string text) (fun _ => True).
Proof.
  split; intros; unfold wp, result, exec; simpl; rewrite ?lookup_insert_eq; auto.
  - by rewrite lookup_insert_ne.
  - left. apply lookup_delete_eq.
  - by rewrite lookup_delete_ne.
Qed.

(** Every configuration can be applied but those that begin with [!]. *)
#[local] Instance plain_apply : Apply :=
  {| ap_apply _ cfg := match cfg with "!"%char :: _ => Res.error (-1) | _ => Res.ok end |}.

Definition CK : string := "network-confirmed".
Definition PK : string := "network-pending".
Definition boot_cfg : text := txt "boot".
Definition wifi_cfg : text := txt "wifi".
Definition seeded : gmap string text := {[ CK := encode_confirmed boot_cfg ]}.

(** The window rollback leaves open.  The rollback of tick() removes the
    pending record before it applies the confirmed configuration; a daemon that
    dies between the two restarts with nothing on record: recover() reports
    that nothing was in flight and applies nothing, though the candidate was
    the last configuration applied and was never confirmed. *)
Theorem rollback_crash_strands :
  let m := exec (begin CK PK wifi_cfg 0 60000) (NetworkTxn seeded) in
  let m' := exec (tick CK PK 60000) m in
  result (tick CK PK 60000) m = true
  /\ exists e s older, (e, s) :: older ∈ crash_points m m'
     /\ e = Cleared PK /\ applied ((e, s) :: older) = [wifi_cfg]
     /\ load_confirmed CK m = Some boot_cfg
     /\ reboot_outcome CK PK s = Nothing /\ log (reboot CK PK s) = [].
Proof.
  split; [vm_compute; reflexivity|].
  exists (Cleared PK), seeded,
    (drop 2 (log (exec (tick CK PK 60000) (exec (begin CK PK wifi_cfg 0 60000) (NetworkTxn seeded))))).
  split.
  - unfold crash_points. apply list_elem_of_fmap. exists 1%nat. split; [vm_compute; reflexivity|].
    apply elem_of_seq. split; [lia|]. apply Nat.ltb_lt. vm_compute. reflexivity.
  - vm_compute. repeat split; reflexivity.
Qed.

(** A kernel that does everything asked but one thing: it cannot flush the
    directory a second time. *)
#[local] Instance flush_once : FileStateStore.Posix := {|
  FileStateStore.px_open _ _ := true;
  FileStateStore.px_write _ _ := FileStateStore.Wrote 4096;
  FileStateStore.px_fsync _ _ := true;
  FileStateStore.px_close _ _ := true;
  FileStateStore.px_rename _ := true;
  FileStateStore.px_unlink _ _ := true;
  FileStateStore.px_fsync_dir h :=
    forallb (fun c => match c with FileStateStore.FsyncDir _ => false | _ => true end) h
|}.

#[local] Instance flash : StateStore FileStateStore.t := FileStateStore.file_store 8.

Definition flash_seeded : FileStateStore.t :=
  FileStateStore.mk (txt "/s") {[ FileStateStore.path_for (txt "/s") CK := encode_confirmed boot_cfg ]} [].

(** A confirmation that is refused and takes effect.  When only the flush
    of the directory fails, confirm() answers that the confirmation could not
    be recorded although the confirmed record now holds the candidate; the
    rollback that follows when the window passes then applies the unconfirmed
    candidate again instead of the configuration from before. *)
Theorem refused_confirmation_takes_effect :
  let m := exec (begin CK PK wifi_cfg 0 60000) (NetworkTxn flash_seeded) in
  let m1 := exec (confirm CK PK 1) m in
  let m2 := exec (tick CK PK 60000) m1 in
  load_confirmed CK m = Some boot_cfg
  /\ result (confirm CK PK 1) m = false
  /\ load_confirmed CK m1 = Some wifi_cfg
  /\ result (tick CK PK 60000) m1 = true
  /\ applied (log m2) = [wifi_cfg; wifi_cfg].
Proof. vm_compute. repeat split; reflexivity. Qed.

(** *** Instances of the theorems *)

Lemma records_witness :
  (0 <= 7 < 2 ^ 64 /\ record_fits wifi_cfg)
  /\ decode_confirmed (encode_confirmed wifi_cfg) = Some wifi_cfg
  /\ decode_pending (encode_pending (mkPending 7 wifi_cfg)) = Some (mkPending 7 wifi_cfg)
  /\ ((8 < length (encode_confirmed wifi_cfg))%nat ->
        decode_confirmed (take 8 (encode_confirmed wifi_cfg)) = None)
  /\ ((8 < length (encode_pending (mkPending 7 wifi_cfg)))%nat ->
        decode_pending (take 8 (encode_pending (mkPending 7 wifi_cfg))) = None).
Proof.
  split; [split; [simpl; lia|reflexivity]|].
  apply (records_read_back_or_rejected (mkPending 7 wifi_cfg) 8); [simpl; lia|reflexivity].
Defined.

Definition history : list call := [Recover; Seed boot_cfg; Begin wifi_cfg 5 60000; Tick 100].

Lemma history_fits : Forall call_fits history.
Proof. repeat constructor. Qed.

Lemma unconfirmed_witness :
  let m := run CK PK history (NetworkTxn (∅ : gmap string text)) in
  pending_ m = true
  /\ exists good, load_confirmed CK m = Some good /\ falls_back_to CK PK good (store m).
Proof.
  split; [vm_compute; reflexivity|].
  apply (unconfirmed_change_rolled_back CK PK (valid := fun _ => True) I I ltac:(discriminate) history ∅);
    [apply history_fits|vm_compute; reflexivity].
Defined.

Lemma confirm_witness :
  let m := run CK PK history (NetworkTxn (∅ : gmap string text)) in
  pending_ m = true
  /\ exists c rest good, applied (log m) = c :: rest /\ load_confirmed CK m = Some good
  /\ let m' := exec (confirm CK PK 1) m in
     (1 <> token_ m -> result (confirm CK PK 1) m = false /\ m' = m)
     /\ (result (confirm CK PK 1) m = true -> load_confirmed CK m' = Some c /\ pending_ m' = false)
     /\ (forall h e s, (e, s) :: h ∈ crash_points m m' ->
           (lands_on CK PK good s \/ lands_on CK PK c s)
           /\ (e <> Saved CK (encode_confirmed c) false -> lands_on CK PK c s)).
Proof.
  split; [vm_compute; reflexivity|].
  apply (confirm_exact_and_crash_safe CK PK (valid := fun _ => True) I I ltac:(discriminate) history ∅ 1);
    [apply history_fits|vm_compute; reflexivity].
Defined.

Lemma begin_witness :
  let m := NetworkTxn seeded in
  let m' := exec (begin CK PK wifi_cfg 5 60000) m in
  (forall l, l ∈ crash_points m m' -> wifi_cfg ∈ applied l -> wifi_cfg ∉ applied (log m) ->
     exists good e s older, l = (e, s) :: older /\ load_confirmed CK m = Some good
       /\ (falls_back_to CK PK good s \/ exists rc s', (Applied wifi_cfg rc, s') ∈ l /\ is_ok rc = false))
  /\ (result (begin CK PK wifi_cfg 5 60000) m = None ->
        applied (log m') = applied (log m)
        \/ exists good, load_confirmed CK m = Some good
            /\ applied (log m') = good :: wifi_cfg :: applied (log m)).
Proof.
  apply (begin_crash_safe CK PK (valid := fun _ => True) I I ltac:(discriminate) wifi_cfg 5 60000 (NetworkTxn seeded)).
Defined.

(** The clock wraps inside the window. *)
Lemma window_witness :
  let m := NetworkTxn seeded in
  let t0 := 2 ^ 32 - 1000 in
  result (begin CK PK wifi_cfg t0 60000) m = Some 1
  /\ let m1 := exec (begin CK PK wifi_cfg t0 60000) m in
     let now := u32 (t0 + 70000) in
     remaining_ms now m1 = Z.max 0 (60000 - 70000)
     /\ (70000 < 60000 -> result (tick CK PK now) m1 = false /\ exec (tick CK PK now) m1 = m1)
     /\ (60000 <= 70000 -> result (tick CK PK now) m1 = true /\ pending_ (exec (tick CK PK now) m1) = false
           /\ exists good, load_confirmed CK m = Some good
              /\ applied (log (exec (tick CK PK now) m1)) = good :: wifi_cfg :: applied (log m)
              /\ load_confirmed CK (exec (tick CK PK now) m1) = Some good).
Proof.
  split; [vm_compute; reflexivity|].
  apply (window_exact CK PK (valid := fun _ => True) I I ltac:(discriminate) wifi_cfg (2 ^ 32 - 1000) 60000 70000
           (NetworkTxn seeded) 1); [lia|lia|vm_compute; reflexivity].
Defined.
