(* ===== verification/Connectivity.v ===== *)
(** * Uplink selection

    [ports/inetwork.hpp] and [core/net/connectivity.{hpp,cpp}]: the names of the
    network enumerations, [ConnectivityManager] with its selection rule, the
    damping of changes and the notification of subscribers.  An uplink is a
    pointer; what it answers when it is asked ([id], [type], [state],
    [has_internet]) is the view handed to the operation, one view per call. *)

From S2P Require Import Prelude.

(** ** Enumerations and their names *)

Inductive UplinkType := Ethernet | Wifi | Cellular.
Inductive LinkState := Absent | Down | Connecting | Connected | LinkFailed.
Inductive WifiMode := Station | AccessPoint.
Inductive WifiSecurity := Open | Wpa | Wpa2 | Wpa3 | Wpa2Wpa3 | Wep.

#[export] Instance UplinkType_eq : EqDecision UplinkType.
Proof. solve_decision. Defined.
#[export] Instance LinkState_eq : EqDecision LinkState.
Proof. solve_decision. Defined.
#[export] Instance WifiMode_eq : EqDecision WifiMode.
Proof. solve_decision. Defined.
#[export] Instance WifiSecurity_eq : EqDecision WifiSecurity.
Proof. solve_decision. Defined.

Definition uplink_type_name (t : UplinkType) : string :=
  match t with Ethernet => "ethernet" | Wifi => "wifi" | Cellular => "cellular" end.

Definition link_state_name (s : LinkState) : string :=
  match s with
  | Absent => "absent" | Down => "down" | Connecting => "connecting"
  | Connected => "connected" | LinkFailed => "failed"
  end.

Definition wifi_mode_name (m : WifiMode) : string :=
  if bool_decide (m = AccessPoint) then "access-point" else "station".

Definition wifi_mode_parse (s : string) : option WifiMode :=
  if bool_decide (s = "station"%string) then Some Station
  else if bool_decide (s = "access-point"%string) then Some AccessPoint
  else None.

Definition wifi_security_name (s : WifiSecurity) : string :=
  match s with
  | Open => "open" | Wpa => "wpa" | Wpa2 => "wpa2" | Wpa3 => "wpa3" | Wpa2Wpa3 => "wpa2-wpa3" | Wep => "wep"
  end.

Definition wifi_security_parse (s : string) : option WifiSecurity :=
  if bool_decide (s = "open"%string) then Some Open
  else if bool_decide (s = "wpa"%string) then Some Wpa
  else if bool_decide (s = "wpa2"%string) then Some Wpa2
  else if bool_decide (s = "wpa3"%string) then Some Wpa3
  else if bool_decide (s = "wpa2-wpa3"%string) then Some Wpa2Wpa3
  else if bool_decide (s = "wep"%string) then Some Wep
  else None.

Lemma wifi_security_roundtrip s : wifi_security_parse (wifi_security_name s) = Some s.
Proof. by destruct s. Qed.

Lemma wifi_mode_roundtrip m : wifi_mode_parse (wifi_mode_name m) = Some m.
Proof. by destruct m. Qed.

(** ** The policy *)

Record UplinkPolicy := mkPolicy {
  order : list string;
  auto_failover : bool;
  return_to_preferred : bool;
  failover_debounce_ms : Z;
  return_debounce_ms : Z;
  pinned : bool;
  pinned_uplink : string
}.

Definition UplinkPolicy_default : UplinkPolicy :=
  mkPolicy ["ethernet"; "wifi"; "cellular"]%string true true 3000 15000 false "".

(** What an [INetworkUplink] answers. *)
Record Uplink := mkUplink {
  up_id : string;
  up_type : UplinkType;
  up_state : LinkState;
  up_internet : bool
}.

Abbreviation ptr := nat.
Abbreviation view := (ptr -> Uplink).

(** ** [select] *)

(** [ConnectivityManager::usable]. *)
Definition usable (v : view) (u : ptr) : bool :=
  bool_decide (up_state (v u) = Connected) && up_internet (v u).

Fixpoint first_of {A} (p : A -> bool) (l : list A) : option A :=
  match l with
  | [] => None
  | u :: l' => if p u then Some u else first_of p l'
  end.

(** The lambda [match]: ids win over type names. *)
Definition match_uplink (v : view) (uplinks : list ptr) (sel : string) (want_usable : bool) : option ptr :=
  match first_of (fun u => bool_decide (up_id (v u) = sel) && (negb want_usable || usable v u)) uplinks with
  | Some u => Some u
  | None =>
      first_of (fun u => bool_decide (uplink_type_name (up_type (v u)) = sel)
                         && (negb want_usable || usable v u)) uplinks
  end.

(** The loop over [policy.order]. *)
Fixpoint best_of (v : view) (uplinks : list ptr) (sels : list string) : option ptr :=
  match sels with
  | [] => None
  | sel :: sels' =>
      match match_uplink v uplinks sel true with
      | Some u => Some u
      | None => best_of v uplinks sels'
      end
  end.

(** [ConnectivityManager::select]. *)
Definition select (v : view) (uplinks : list ptr) (policy : UplinkPolicy) (current : option ptr) : option ptr :=
  if pinned policy then match_uplink v uplinks (pinned_uplink policy) false else
  let best := best_of v uplinks (order policy) in
  match current with
  | None => best
  | Some c =>
      if usable v c then
        if negb (return_to_preferred policy) then Some c
        else match best with Some b => Some b | None => Some c end
      else if negb (auto_failover policy) then Some c
      else best
  end.

(** ** [ConnectivityManager] *)

Module Connectivity.

Record t := mk {
  uplinks_ : list ptr;
  policy_ : UplinkPolicy;
  subscribers_ : list Z;                     (* tokens, in order of subscription *)
  next_sub_ : Z;
  active_ : option ptr;
  clock_ : bool;                             (* [now_] is set *)
  pending_ : option ptr;
  pending_since_ms_ : Z;
  notified : list (Z * string * string)      (* callbacks made, newest first *)
}.

#[export] Instance eta : Settable t := fun r =>
  mk (uplinks_ r) (policy_ r) (subscribers_ r) (next_sub_ r) (active_ r) (clock_ r) (pending_ r)
     (pending_since_ms_ r) (notified r).

Definition make : t := mk [] UplinkPolicy_default [] 1 None false None 0 [].

Definition set_clock : ST t unit := modify (fun m => m <| clock_ := true |>).
Definition add (u : option ptr) : ST t unit :=
  match u with None => skip | Some u => modify (fun m => m <| uplinks_ ::= (fun l => l ++ [u]) |>) end.
Definition set_policy (p : UplinkPolicy) : ST t unit := modify (fun m => m <| policy_ := p |>).

Definition id_of (v : view) (u : option ptr) : string :=
  match u with Some u => up_id (v u) | None => "" end.

(** The damping: whether [chosen] has been the answer long enough. *)
Definition damped (v : view) (now : Z) (chosen current : option ptr) : ST t bool :=
  m ← gets (fun m => m);
  let window := match current with
                | Some c => if usable v c then return_debounce_ms (policy_ m) else failover_debounce_ms (policy_ m)
                | None => 0
                end in
  when (negb (bool_decide (pending_ m = chosen)))
    (modify (fun m => m <| pending_ := chosen |> <| pending_since_ms_ := now |>)) ;;
  m ← gets (fun m => m);
  mret ((window =? 0) || (i32 window <=? i32 (now - pending_since_ms_ m))).

(** The last section of [evaluate] and the callbacks. *)
Definition settle (v : view) (chosen : option ptr) : ST t bool :=
  m ← gets (fun m => m);
  if bool_decide (chosen = active_ m) then
    modify (fun m => m <| pending_ := None |>) ;; mret false
  else
    let from := id_of v (active_ m) in
    let to := id_of v chosen in
    modify (fun m => m <| active_ := chosen |> <| pending_ := None |>) ;;
    for_each (subscribers_ m) (fun tok => modify (fun m => m <| notified ::= cons (tok, from, to) |>)) ;;
    mret true.

(** [evaluate]; [now] is what the clock answers when there is one. *)
Definition evaluate (v : view) (now : Z) : ST t bool :=
  m ← gets (fun m => m);
  let chosen := select v (uplinks_ m) (policy_ m) (active_ m) in
  if clock_ m && bool_decide (active_ m <> None) && negb (pinned (policy_ m))
     && negb (bool_decide (chosen = active_ m)) then
    ready ← damped v now chosen (active_ m);
    if negb ready then mret false else settle v chosen
  else settle v chosen.

Definition subscribe_path_change : ST t Z :=
  m ← gets (fun m => m);
  modify (fun m => m <| next_sub_ := u64 (next_sub_ m + 1) |> <| subscribers_ ::= (fun l => l ++ [next_sub_ m]) |>) ;;
  mret (next_sub_ m).

Fixpoint erase_first (tok : Z) (l : list Z) : list Z :=
  match l with
  | [] => []
  | x :: l' => if x =? tok then l' else x :: erase_first tok l'
  end.

Definition unsubscribe_path_change (tok : Z) : ST t unit :=
  modify (fun m => m <| subscribers_ ::= erase_first tok |>).

Definition active_id (v : view) (m : t) : string := id_of v (active_ m).
Definition active_type (v : view) (m : t) : option UplinkType := (fun u => up_type (v u)) <$> active_ m.

(** ** The selection rule *)

Lemma first_of_some {A} (p : A -> bool) l u : first_of p l = Some u -> p u = true /\ u ∈ l.
Proof.
  induction l as [|x l IH]; simpl; [done|]. destruct (p x) eqn:E.
  - intros [= ->]. split; [done|]. by apply elem_of_cons; left.
  - intros H. apply IH in H as [? ?]. split; [done|]. by apply elem_of_cons; right.
Qed.

Lemma first_of_none {A} (p : A -> bool) l u : first_of p l = None -> u ∈ l -> p u = false.
Proof.
  induction l as [|x l IH]; simpl; [by intros _ ?%not_elem_of_nil|]. destruct (p x) eqn:E; [done|].
  intros H [-> | Hin]%elem_of_cons; [done|]. by apply IH.
Qed.

(** The uplink answers to a selector, by id or by type. *)
Definition named (v : view) (sel : string) (u : ptr) : Prop :=
  up_id (v u) = sel \/ uplink_type_name (up_type (v u)) = sel.

Lemma match_some v l sel w u :
  match_uplink v l sel w = Some u -> u ∈ l /\ named v sel u /\ (w = true -> usable v u = true).
Proof.
  unfold match_uplink, named. destruct (first_of _ l) as [u'|] eqn:E1.
  - intros [= ->]. apply first_of_some in E1 as [H Hin]. bool_simpl. split; [done|]. split; [by left|].
    intros ->. simpl in *. done.
  - intros E2. apply first_of_some in E2 as [H Hin]. bool_simpl. split; [done|]. split; [by right|].
    intros ->. simpl in *. done.
Qed.

Lemma match_none v l sel u :
  match_uplink v l sel true = None -> u ∈ l -> named v sel u -> usable v u = false.
Proof.
  unfold match_uplink. destruct (first_of _ l) as [u'|] eqn:E1; [done|]. intros E2 Hin Hn.
  pose proof (first_of_none _ _ _ E1 Hin) as H1. pose proof (first_of_none _ _ _ E2 Hin) as H2.
  cbv beta in *. destruct Hn as [Hn|Hn]; [rewrite bool_decide_true in H1 by done|rewrite bool_decide_true in H2 by done];
    simpl in *; done.
Qed.

Lemma best_some v l sels u :
  best_of v l sels = Some u ->
  exists pre sel post, sels = pre ++ sel :: post /\ u ∈ l /\ named v sel u /\ usable v u = true
    /\ forall s u', s ∈ pre -> u' ∈ l -> named v s u' -> usable v u' = false.
Proof.
  induction sels as [|s sels IH]; simpl; [done|]. destruct (match_uplink v l s true) as [b|] eqn:E.
  - intros [= ->]. apply match_some in E as (Hin & Hn & Hu). exists [], s, sels.
    split; [done|]. split; [done|]. split; [done|]. split; [by apply Hu|]. by intros s' u' ?%not_elem_of_nil.
  - intros H. apply IH in H as (pre & sel & post & -> & Hin & Hn & Hu & Hp). exists (s :: pre), sel, post.
    split; [done|]. do 3 (split; [done|]). intros s' u' [-> | Hs]%elem_of_cons Hu' Hn'.
    + by eapply match_none.
    + by eapply Hp.
Qed.

Lemma best_none v l sels s u : best_of v l sels = None -> s ∈ sels -> u ∈ l -> named v s u -> usable v u = false.
Proof.
  induction sels as [|x sels IH]; simpl; [by intros _ ?%not_elem_of_nil|].
  destruct (match_uplink v l x true) as [b|] eqn:E; [done|]. intros H [-> | Hs]%elem_of_cons Hin Hn.
  - by eapply match_none.
  - by apply IH.
Qed.

(** The selection rule.  A pin is honoured whatever the state of the link.
    Otherwise the answer is the uplink in force or a registered, usable one
    that some entry of the order names while no usable uplink answers to an
    earlier entry; a working uplink is left only when returning to the
    preferred one is allowed and for such an uplink, a dead one only when
    failover is allowed, and no uplink is chosen only when every entry of the
    order names unusable uplinks only. *)
Theorem select_rule (v : view) (uplinks : list ptr) (policy : UplinkPolicy) (current : option ptr) :
  let chosen := select v uplinks policy current in
  (pinned policy = true -> match chosen with
     | Some u => u ∈ uplinks /\ named v (pinned_uplink policy) u
     | None => forall u, u ∈ uplinks -> ~ named v (pinned_uplink policy) u
     end)
  /\ (pinned policy = false ->
      (chosen = None -> (forall c, current = Some c -> usable v c = false /\ auto_failover policy = true)
         /\ forall s u, s ∈ order policy -> u ∈ uplinks -> named v s u -> usable v u = false)
      /\ (forall u, chosen = Some u -> current <> Some u ->
            u ∈ uplinks /\ usable v u = true
            /\ exists pre sel post, order policy = pre ++ sel :: post /\ named v sel u
               /\ forall s u', s ∈ pre -> u' ∈ uplinks -> named v s u' -> usable v u' = false)
      /\ (forall c, current = Some c -> chosen <> Some c ->
            if usable v c then return_to_preferred policy = true else auto_failover policy = true)).
Proof.
  intros chosen. unfold chosen, select. split; intros Hpin; rewrite Hpin.
  - destruct (match_uplink v uplinks (pinned_uplink policy) false) as [u|] eqn:E.
    + apply match_some in E as (? & ? & _). done.
    + unfold match_uplink in E. destruct (first_of _ uplinks) as [u'|] eqn:E1; [done|]. intros u Hin Hn.
      pose proof (first_of_none _ _ _ E1 Hin) as H1. pose proof (first_of_none _ _ _ E Hin) as H2. cbv beta in *.
      rewrite andb_true_r in *. bool_simpl. destruct Hn; done.
  - cbv zeta. destruct (best_of v uplinks (order policy)) as [b|] eqn:Eb;
      [pose proof (best_some _ _ _ _ Eb) as (pre & sel & post & Ho & Hin & Hn & Hu & Hp)|];
      (destruct current as [c|]; [destruct (usable v c) eqn:Hc;
        [destruct (return_to_preferred policy) eqn:Hr|destruct (auto_failover policy) eqn:Hf]|]); simpl;
      (split; [|split]); try (intros; simplify_eq; done);
      try (intros u [= <-] _; split; [done|]; split; [done|]; by exists pre, sel, post).
    + intros c' [= <-] _. by rewrite Hc.
    + intros c' [= <-] _. by rewrite Hc.
    + intros _. split; [by intros c' [= <-]|]. intros s u. by apply best_none.
    + intros c' [= <-] _. by rewrite Hc.
    + intros _. split; [done|]. intros s u. by apply best_none.
Qed.

(** ** Histories *)

Inductive event :=
| Evaluate (v : view) (time : Z)               (* milliseconds since boot, unbounded *)
| SetPolicy (p : UplinkPolicy)
| Add (u : option ptr)
| SetClock
| Subscribe
| Unsubscribe (tok : Z).

(** The clock shows the time in 32 bits. *)
Definition step (e : event) (m : t) : t :=
  match e with
  | Evaluate v time => exec (evaluate v (u32 time)) m
  | SetPolicy p => exec (set_policy p) m
  | Add u => exec (add u) m
  | SetClock => exec set_clock m
  | Subscribe => exec subscribe_path_change m
  | Unsubscribe tok => exec (unsubscribe_path_change tok) m
  end.

Definition run (l : list event) : t := foldl (fun m e => step e m) make l.

Lemma run_snoc l e : run (l ++ [e]) = step e (run l).
Proof. unfold run. by rewrite foldl_app. Qed.

(** What [select] answers in a state. *)
Definition choice (v : view) (m : t) : option ptr := select v (uplinks_ m) (policy_ m) (active_ m).

(** The damping window in force when [c] is the uplink in use. *)
Definition window (v : view) (m : t) (c : ptr) : Z :=
  if usable v c then return_debounce_ms (policy_ m) else failover_debounce_ms (policy_ m).

(** Every evaluation of [evs] from position [i] on found [c] in use and answered [d]. *)
Definition steady (evs : list event) (i : nat) (c d : ptr) : Prop :=
  forall j v time, (i <= j)%nat -> evs !! j = Some (Evaluate v time) ->
    active_ (run (take j evs)) = Some c /\ choice v (run (take j evs)) = Some d.

(** The candidate has been the answer since the time the manager remembers. *)
Definition pending_since (evs : list event) : Prop :=
  forall d, pending_ (run evs) = Some d ->
    exists i v time c, evs !! i = Some (Evaluate v time) /\ pending_since_ms_ (run evs) = u32 time
      /\ active_ (run evs) = Some c /\ c <> d /\ steady evs i c d.

Lemma settle_spec v chosen m :
  wp (settle v chosen) (fun r m' => pending_ m' = None /\ active_ m' = chosen
    /\ r = negb (bool_decide (chosen = active_ m))
    /\ (chosen = active_ m -> notified m' = notified m)
    /\ (chosen <> active_ m -> notified m' =
         rev (map (fun tok => (tok, id_of v (active_ m), id_of v chosen)) (subscribers_ m)) ++ notified m)) m.
Proof.
  unfold settle. apply wp_bind, wp_gets. case_bool_decide as E.
  { apply wp_bind, wp_modify, wp_ret. simpl. split; [done|]. split; [by rewrite E|]. by split. }
  cbv zeta. apply wp_bind, wp_modify, wp_bind.
  set (note := fun tok : Z => (tok, id_of v (active_ m), id_of v chosen)).
  apply (wp_mono _ (fun _ m' => pending_ m' = None /\ active_ m' = chosen
           /\ notified m' = rev (map note (subscribers_ m)) ++ notified m)).
  - set (I := fun l m' => pending_ m' = None /\ active_ m' = chosen
        /\ exists done, subscribers_ m = done ++ l /\ notified m' = rev (map note done) ++ notified m).
    apply (wp_mono _ (fun _ => I [])).
    + apply wp_for_each; [split; [done|split; [done|by exists []]]|].
      intros x l m' (Hp & Ha & d & Hd & Hn). apply wp_modify. split; [done|]. split; [done|].
      exists (d ++ [x]). split; [by rewrite <- app_assoc|]. simpl. by rewrite Hn, map_app, rev_app_distr.
    + intros _ m' (Hp & Ha & d & Hd & Hn). rewrite app_nil_r in Hd. subst d. done.
  - intros _ m' (Hp & Ha & Hn). apply wp_ret. split; [done|]. split; [done|]. split; [done|]. by split.
Qed.

Lemma evaluate_spec v now m :
  wp (evaluate v now) (fun r m' =>
    (r = false /\ exists c, active_ m = Some c /\ active_ m' = Some c /\ notified m' = notified m
       /\ choice v m <> Some c
       /\ pending_ m' = choice v m
       /\ pending_since_ms_ m' = (if bool_decide (pending_ m = choice v m) then pending_since_ms_ m else now))
    \/ pending_ m' = None /\ active_ m' = choice v m /\ r = negb (bool_decide (choice v m = active_ m))
       /\ (choice v m = active_ m -> notified m' = notified m)
       /\ (choice v m <> active_ m -> notified m' =
            rev (map (fun tok => (tok, id_of v (active_ m), id_of v (choice v m))) (subscribers_ m)) ++ notified m)
       /\ (forall c d, clock_ m = true -> pinned (policy_ m) = false -> active_ m = Some c ->
            choice v m = Some d -> c <> d -> 0 < window v m c < 2 ^ 31 ->
            window v m c <= i32 (now - (if bool_decide (pending_ m = Some d) then pending_since_ms_ m else now)))) m.
Proof.
  unfold evaluate. apply wp_bind, wp_gets. cbv zeta. fold (choice v m). set (ch := choice v m).
  destruct (clock_ m && _ && _ && _) eqn:Hd.
  2: { wp_call (settle_spec v ch m). intros r m' (? & ? & ? & ? & ?). right. do 5 (split; [done|]).
       intros c d Hc Hp Ha Hch Hcd _. exfalso. rewrite Hc, Hp, Ha, Hch in Hd. simpl in Hd. bool_simpl. congruence. }
  bool_simpl. destruct (active_ m) as [c|] eqn:Ha; [|done]. apply wp_bind. unfold damped. apply wp_bind, wp_gets.
  cbv zeta. fold (window v m c). apply wp_bind.
  apply (wp_mono _ (fun _ m1 => m1 = m <| pending_ := ch |> <| pending_since_ms_ :=
           if bool_decide (pending_ m = ch) then pending_since_ms_ m else now |>)).
  { apply wp_when; intros Hb; bool_simpl.
    - apply wp_modify. by rewrite bool_decide_false.
    - rewrite bool_decide_true by done. rewrite <- Hb. by destruct m. }
  intros _ m1 ->. apply wp_bind, wp_gets, wp_ret. simpl.
  destruct ((window v m c =? 0) || _) eqn:Hr; cbn [negb].
  - wp_call (settle_spec v ch _). simpl. intros r m' (? & ? & Hrr & Hn1 & Hn2). right.
    rewrite Ha in *. split; [done|]. split; [done|]. split; [done|]. split; [done|]. split; [done|].
    intros c' d _ _ [= <-] Hch Hcd Hw. rewrite <- Hch. fold ch.
    destruct (window v m c =? 0) eqn:E0; bool_simpl; [lia|]. simpl in Hr. bool_simpl.
    rewrite swrap_small in Hr by lia. exact Hr.
  - apply wp_ret. left. split; [done|]. exists c. split; [done|]. simpl. by repeat split.
Qed.

Lemma step_quiet e m :
  (forall v time, e <> Evaluate v time) ->
  active_ (step e m) = active_ m /\ pending_ (step e m) = pending_ m
  /\ pending_since_ms_ (step e m) = pending_since_ms_ m /\ notified (step e m) = notified m.
Proof. intros He. destruct e as [v time|p|[u|]| | |tok]; [by destruct (He v time)|done..]. Qed.

Lemma steady_snoc evs i c d e :
  steady evs i c d ->
  (forall v time, e = Evaluate v time -> (i <= length evs)%nat ->
     active_ (run evs) = Some c /\ choice v (run evs) = Some d) ->
  steady (evs ++ [e]) i c d.
Proof.
  intros Hs He j v time Hij Hj. destruct (decide (j < length evs)%nat) as [Hlt|Hge].
  - rewrite lookup_app_l in Hj by done. rewrite take_app_le by lia. by apply (Hs j v time).
  - rewrite lookup_app_r in Hj by lia. assert (j = length evs) as ->.
    { apply lookup_lt_Some in Hj. simpl in Hj. lia. }
    rewrite Nat.sub_diag in Hj. simpl in Hj. injection Hj as ->. rewrite take_app_length. by eapply He.
Qed.

Lemma steady_start evs v time c d :
  active_ (run evs) = Some c -> choice v (run evs) = Some d ->
  steady (evs ++ [Evaluate v time]) (length evs) c d.
Proof.
  intros Ha Hc. apply steady_snoc.
  - intros j v' t' Hj Hl. apply lookup_lt_Some in Hl. lia.
  - by intros v' t' [= <- <-] _.
Qed.

Lemma pending_since_quiet evs e :
  (forall v time, e <> Evaluate v time) -> pending_since evs -> pending_since (evs ++ [e]).
Proof.
  intros He IH d. rewrite run_snoc. destruct (step_quiet e (run evs) He) as (Ha & Hp & Hs & _).
  rewrite Ha, Hp, Hs. intros Hd. destruct (IH d Hd) as (i & v & time & c & Hi & Ht & Hac & Hcd & Hst).
  exists i, v, time, c. split; [by apply lookup_app_l_Some|]. do 3 (split; [done|]).
  apply steady_snoc; [done|]. intros v' t' E. by destruct (He v' t').
Qed.

Lemma pending_since_run evs : pending_since evs.
Proof.
  induction evs as [|e evs IH] using rev_ind; [done|].
  destruct e as [v time|p|u| | |tok]; try (by apply pending_since_quiet).
  intros d. rewrite run_snoc.
  pose proof (evaluate_spec v (u32 time) (run evs)) as W. unfold wp in W. cbn [step].
  destruct W as [(_ & c & Ha & Ha' & _ & Hne & Hp & Hs)|(Hp & _)]; [|by rewrite Hp].
  rewrite Hp. intros Hd. rewrite Hd in *. rewrite Hs, Ha'.
  case_bool_decide as Hpd.
  - destruct (IH d Hpd) as (i & v' & t' & c' & Hi & Ht & Hac & Hcd & Hst). assert (c' = c) as -> by congruence.
    exists i, v', t', c. split; [by apply lookup_app_l_Some|]. do 3 (split; [done|]).
    apply steady_snoc; [done|]. by intros v'' t'' [= <- <-] _.
  - exists (length evs), v, time, c. split; [by rewrite lookup_app_r, Nat.sub_diag by lia|].
    split; [done|]. split; [done|]. split; [congruence|]. by apply steady_start.
Qed.

Lemma elapsed_i32 a b w : b <= a -> 0 < w -> w <= i32 (u32 a - u32 b) -> w <= a - b.
Proof.
  intros Hba Hw H. rewrite <- (swrap_wrap 32 (u32 a - _)), wrap_sub_l, wrap_sub_r, swrap_wrap in H by lia.
  unfold swrap in H. pose proof (Z.mod_le (a - b + 2 ^ (32 - 1)) (2 ^ 32) ltac:(lia) ltac:(lia)). lia.
Qed.

(** C9. An uplink change has proved itself.  With a clock, when an evaluation
    takes the camera from one uplink to another and neither is pinned, then at
    every evaluation during at least the whole damping window before it - the
    return window if the old uplink still works, the failover window if it does
    not - the old uplink was in use and the new one was the answer; this holds
    in every history of evaluations, policy changes and registrations, and
    across the wrap of the 32-bit clock. *)
Theorem switch_was_steady (evs : list event) (v : view) (time : Z) (c d : ptr) :
  let m := run evs in
  clock_ m = true -> pinned (policy_ m) = false ->
  active_ m = Some c -> c <> d -> 0 < window v m c < 2 ^ 31 ->
  (forall i v' t', evs !! i = Some (Evaluate v' t') -> t' <= time) ->
  active_ (run (evs ++ [Evaluate v time])) = Some d ->
  exists i v' t', (evs ++ [Evaluate v time]) !! i = Some (Evaluate v' t')
    /\ window v m c <= time - t' /\ steady (evs ++ [Evaluate v time]) i c d.
Proof.
  intros m Hc Hpin Ha Hcd Hw Hmono. rewrite run_snoc. fold m. cbn [step]. intros Hsw.
  pose proof (evaluate_spec v (u32 time) m) as W. unfold wp in W.
  destruct W as [(_ & c' & Ha0 & Ha' & _)|(_ & Ha' & _ & _ & _ & Hd)]; [congruence|].
  rewrite Ha' in Hsw. specialize (Hd c d Hc Hpin Ha Hsw Hcd Hw). case_bool_decide as Hp.
  - destruct (pending_since_run evs d Hp) as (i & v' & t' & c' & Hi & Ht & Hac & _ & Hst).
    fold m in Ht, Hac. assert (c' = c) as -> by congruence. rewrite Ht in Hd.
    exists i, v', t'. split; [by apply lookup_app_l_Some|]. split.
    + apply elapsed_i32; [by eapply Hmono|lia|done].
    + apply steady_snoc; [done|]. by intros v'' t'' [= <- <-] _.
  - rewrite Z.sub_diag in Hd. change (i32 0) with 0 in Hd. lia.
Qed.

(** ** What a subscriber learns *)

(** The calls a subscriber got, oldest first. *)
Definition heard (tok : Z) (m : t) : list (string * string) :=
  rev (flat_map (fun n => if n.1.1 =? tok then [(n.1.2, n.2)] else []) (notified m)).

(** Follow the reported changes from a starting uplink. *)
Fixpoint follow (cur : string) (l : list (string * string)) : option string :=
  match l with
  | [] => Some cur
  | (from, to) :: l' => if bool_decide (from = cur) then follow to l' else None
  end.

(** The ids are stable, as [INetworkUplink::id] promises. *)
Definition stable_ids (ident : ptr -> string) (e : event) : Prop :=
  match e with Evaluate v _ => forall u, up_id (v u) = ident u | _ => True end.

Definition ident_of (ident : ptr -> string) (u : option ptr) : string :=
  match u with Some u => ident u | None => "" end.

Record tokens_ok (n : nat) (m : t) : Prop := {
  tk_next : 1 <= next_sub_ m <= 1 + Z.of_nat n;
  tk_nodup : NoDup (subscribers_ m);
  tk_subs : forall tok, tok ∈ subscribers_ m -> tok < next_sub_ m;
  tk_notified : forall e, e ∈ notified m -> e.1.1 < next_sub_ m
}.

Lemma elem_of_erase_first x tok l : x ∈ erase_first tok l -> x ∈ l.
Proof.
  induction l as [|y l IH]; simpl; [done|]. destruct (y =? tok); intros H.
  - by apply elem_of_cons; right.
  - apply elem_of_cons in H as [-> | H]; apply elem_of_cons; [by left|right; by apply IH].
Qed.

Lemma erase_first_nodup tok l : NoDup l -> NoDup (erase_first tok l).
Proof.
  induction 1 as [|y l Hy Hl IH]; simpl; [constructor|]. destruct (y =? tok); [done|].
  constructor; [|done]. intros H. by apply elem_of_erase_first in H.
Qed.

Lemma erase_first_other x tok l : x <> tok -> x ∈ l -> x ∈ erase_first tok l.
Proof.
  intros Hx. induction l as [|y l IH]; simpl; [done|]. destruct (y =? tok) eqn:E; bool_simpl; intros H.
  - apply elem_of_cons in H as [-> | H]; [done|done].
  - apply elem_of_cons. apply elem_of_cons in H as [-> | H]; [by left|right; by apply IH].
Qed.

(** [evaluate] calls the subscribers and changes nothing else they see. *)
Lemma evaluate_frame v now m :
  wp (evaluate v now) (fun r m' => subscribers_ m' = subscribers_ m /\ next_sub_ m' = next_sub_ m
    /\ (notified m' = notified m /\ active_ m' = active_ m
        \/ notified m' = rev (map (fun tok => (tok, id_of v (active_ m), id_of v (active_ m'))) (subscribers_ m))
                         ++ notified m)) m.
Proof.
  assert (K : preserves (fun m' => subscribers_ m' = subscribers_ m /\ next_sub_ m' = next_sub_ m) (evaluate v now)).
  { intros m1 [H1 H2].
    assert (Hs : preserves (fun m' => subscribers_ m' = subscribers_ m /\ next_sub_ m' = next_sub_ m)
                   (settle v (choice v m1))).
    { intros m2 [E1 E2]. unfold settle. apply wp_bind, wp_gets. case_bool_decide.
      - apply wp_bind, wp_modify, wp_ret. done.
      - cbv zeta. apply wp_bind, wp_modify, wp_bind.
        apply (wp_mono _ (fun _ m' => subscribers_ m' = subscribers_ m /\ next_sub_ m' = next_sub_ m)).
        + by apply (wp_for_each _ _ (fun _ m' => subscribers_ m' = subscribers_ m /\ next_sub_ m' = next_sub_ m)).
        + intros _ m3 ?. by apply wp_ret. }
    unfold evaluate. apply wp_bind, wp_gets. cbv zeta. fold (choice v m1).
    destruct (_ && _); [|by apply Hs]. apply wp_bind. unfold damped. apply wp_bind, wp_gets. cbv zeta. apply wp_bind.
    apply (wp_mono _ (fun _ m' => subscribers_ m' = subscribers_ m /\ next_sub_ m' = next_sub_ m)).
    { by apply wp_when; intros _; [apply wp_modify|]. }
    intros _ m2 ?. apply wp_bind, wp_gets, wp_ret. destruct (negb _); [by apply wp_ret|by apply Hs]. }
  pose proof (K m (conj eq_refl eq_refl)) as Hk.
  pose proof (evaluate_spec v now m) as Hs. unfold wp in *. destruct Hk as [H1 H2].
  split; [done|]. split; [done|].
  destruct Hs as [(_ & c & Ha & Ha' & Hn & _)|(_ & Ha & _ & Hn1 & Hn2 & _)].
  - left. split; [done|congruence].
  - rewrite Ha. destruct (decide (choice v m = active_ m)) as [E|E]; [left; split; [by apply Hn1|done]|right].
    by apply Hn2.
Qed.

Lemma tokens_run evs : Z.of_nat (length evs) + 1 < 2 ^ 64 -> tokens_ok (length evs) (run evs).
Proof.
  induction evs as [|e evs IH] using rev_ind; intros Hl.
  { split; simpl; [lia|constructor|by intros ? ?%not_elem_of_nil..]. }
  rewrite length_app in *. simpl length in *. destruct IH as [K1 K2 K3 K4]; [lia|]. rewrite run_snoc. set (m := run evs) in *.
  destruct e as [v time|p|u| | |tok]; simpl.
  - pose proof (evaluate_frame v (u32 time) m) as W. unfold wp in W. destruct W as (E1 & E2 & E3).
    split; rewrite ?E1, ?E2; [simpl; lia|done|done|].
    intros e He. destruct E3 as [[E3 _]|E3]; rewrite E3 in He; [by apply K4|].
    apply elem_of_app in He as [He|He]; [|by apply K4]. apply list_elem_of_In, in_rev, in_map_iff in He as (tok & <- & Hin).
    simpl. apply K3. by apply list_elem_of_In.
  - split; simpl; [lia|done..].
  - destruct u; (split; [cbn; lia|done..]).
  - split; simpl; [lia|done..].
  - pose proof (wrap_small 64 (next_sub_ m + 1) ltac:(lia)) as Hw. split; simpl; rewrite ?Hw; [lia| | |].
    + apply NoDup_app. split; [done|]. split; [|by apply NoDup_singleton].
      intros x Hx Hx'. apply list_elem_of_singleton in Hx' as ->. specialize (K3 _ Hx). lia.
    + intros tok Ht. apply elem_of_app in Ht as [Ht|Ht]; [specialize (K3 _ Ht); lia|].
      apply list_elem_of_singleton in Ht as ->. lia.
    + intros e He. specialize (K4 _ He). lia.
  - split; simpl; [lia|by apply erase_first_nodup| |done].
    intros x Hx. apply K3. by eapply elem_of_erase_first.
Qed.

Lemma heard_once tok f t l :
  NoDup l -> tok ∈ l ->
  flat_map (fun n : Z * string * string => if n.1.1 =? tok then [(n.1.2, n.2)] else []) (rev (map (fun k => (k, f, t)) l))
  = [(f, t)].
Proof.
  intros Hd. rewrite <- map_rev, flat_map_concat_map, map_map. cbn [fst snd].
  assert (Hr : NoDup (rev l)) by (by rewrite rev_alt, <- rev_alt; apply NoDup_ListNoDup, NoDup_rev, NoDup_ListNoDup).
  intros Hin. assert (Hin' : tok ∈ rev l) by (by apply list_elem_of_In, in_rev; rewrite rev_involutive; apply list_elem_of_In).
  clear Hd Hin. induction Hr as [|x r Hx Hr IH]; [by apply not_elem_of_nil in Hin'|]. simpl.
  destruct (x =? tok) eqn:E; bool_simpl.
  - subst x. simpl. f_equal. clear IH Hin' Hr. induction r as [|y r IHr]; [done|]. simpl.
    apply not_elem_of_cons in Hx as [H1 H2]. destruct (y =? tok) eqn:E; bool_simpl; [congruence|]. by apply IHr.
  - apply elem_of_cons in Hin' as [-> | Hin']; [done|]. simpl. by apply IH.
Qed.

Lemma follow_snoc cur l f t : follow cur l = Some f -> follow cur (l ++ [(f, t)]) = Some t.
Proof.
  revert cur. induction l as [|[f' t'] l IH]; intros cur; simpl.
  - intros [= ->]. by rewrite bool_decide_true.
  - case_bool_decide; [|done]. by apply IH.
Qed.

Lemma heard_nil tok m : (forall e, e ∈ notified m -> e.1.1 < tok) -> heard tok m = [].
Proof.
  intros H. unfold heard. induction (notified m) as [|e l IH]; [done|]. simpl.
  rewrite rev_app_distr, IH; [|intros e' He'; apply H; by apply elem_of_cons; right].
  specialize (H e ltac:(by apply elem_of_cons; left)). destruct (_ =? _) eqn:E; bool_simpl; [lia|done].
Qed.

Lemma heard_step tok ident e m :
  stable_ids ident e -> tok ∈ subscribers_ m -> NoDup (subscribers_ m) ->
  heard tok (step e m) = heard tok m /\ active_ (step e m) = active_ m
  \/ heard tok (step e m) = heard tok m ++ [(ident_of ident (active_ m), ident_of ident (active_ (step e m)))].
Proof.
  intros Hid Hin Hd.
  assert (Q : forall e', (forall v time, e' <> Evaluate v time) ->
            heard tok (step e' m) = heard tok m /\ active_ (step e' m) = active_ m).
  { intros e' He. unfold heard. by destruct (step_quiet e' m He) as (-> & _ & _ & ->). }
  destruct e as [v time|p|u| | |k]; try (left; by apply Q).
  pose proof (evaluate_frame v (u32 time) m) as W. unfold wp in W. cbn [step]. destruct W as (_ & _ & [[E1 E2]|E]).
  - left. unfold heard. by rewrite E1.
  - right. unfold heard. rewrite E, flat_map_app, rev_app_distr, heard_once by done. simpl.
    assert (Hi : forall u, id_of v u = ident_of ident u) by (intros [u|]; [apply Hid|done]). by rewrite !Hi.
Qed.

(** A subscriber always knows the uplink.  Starting from the uplink in use
    when it subscribed, the (from, to) pairs a subscriber was called with form
    one unbroken path that ends at the uplink in use now: no change is missed,
    reported twice or out of order, in any history in which it stays
    subscribed. *)
Theorem subscriber_follows (ident : ptr -> string) (evs0 evs1 : list event) :
  let m0 := run evs0 in
  let tok := next_sub_ m0 in
  let m := run (evs0 ++ Subscribe :: evs1) in
  Z.of_nat (length (evs0 ++ Subscribe :: evs1)) + 1 < 2 ^ 64 ->
  Forall (stable_ids ident) evs1 -> Unsubscribe tok ∉ evs1 ->
  follow (ident_of ident (active_ m0)) (heard tok m) = Some (ident_of ident (active_ m)).
Proof.
  intros m0 tok m Hlen Hst Hno. unfold m. clear m.
  assert (H : tok ∈ subscribers_ (run (evs0 ++ Subscribe :: evs1))
    /\ follow (ident_of ident (active_ m0)) (heard tok (run (evs0 ++ Subscribe :: evs1)))
       = Some (ident_of ident (active_ (run (evs0 ++ Subscribe :: evs1))))); [|apply H].
  induction evs1 as [|e evs1 IH] using rev_ind.
  - rewrite run_snoc. fold m0. rewrite length_app in Hlen. simpl in Hlen.
    destruct (tokens_run evs0 ltac:(lia)) as [_ _ _ K4]. fold m0 in K4. split.
    + simpl. apply elem_of_app. right. by apply list_elem_of_singleton.
    + by rewrite heard_nil.
  - apply Forall_app in Hst as [Hst He%Forall_inv].
    apply not_elem_of_app in Hno as [Hno Hne]. rewrite app_comm_cons, app_assoc in *.
    rewrite length_app in Hlen. simpl length in Hlen.
    destruct (IH ltac:(lia) Hst Hno) as [Hin Hf].
    destruct (tokens_run (evs0 ++ Subscribe :: evs1) ltac:(lia)) as [_ K2 _ _].
    rewrite run_snoc. split.
    + destruct e as [v time|p|[u|]| | |k]; try done.
      * pose proof (evaluate_frame v (u32 time) (run (evs0 ++ Subscribe :: evs1))) as W. unfold wp in W.
        cbn [step]. destruct W as (-> & _). done.
      * simpl. apply elem_of_app. by left.
      * simpl. apply erase_first_other; [|done]. intros ->. apply Hne. by apply list_elem_of_singleton.
    + destruct (heard_step tok ident e _ He Hin K2) as [[-> ->]| ->]; [done|]. by eapply follow_snoc.
Qed.
End Connectivity.

(** ** Instances *)

Section Examples.
Import Connectivity.

(** Uplink 0 is an Ethernet port, uplink 1 a modem. *)
Definition both_up : view := fun u =>
  if bool_decide (u = 0%nat) then mkUplink "eth0" Ethernet Connected true else mkUplink "lte1" Cellular Connected true.
Definition wire_cut : view := fun u =>
  if bool_decide (u = 0%nat) then mkUplink "eth0" Ethernet Down false else mkUplink "lte1" Cellular Connected true.
Definition all_dead : view := fun u =>
  if bool_decide (u = 0%nat) then mkUplink "eth0" Ethernet Down false else mkUplink "lte1" Cellular Down false.

Definition boot : list event := [Add (Some 0%nat); Add (Some 1%nat); SetClock; Evaluate both_up 100].

(** A link that is dead for one evaluation is not left: the failover waits. *)
Example blip_ignored : active_ (run (boot ++ [Evaluate wire_cut 1000; Evaluate both_up 2000])) = Some 0%nat.
Proof. vm_compute. reflexivity. Qed.

(** With no other uplink to go to, the same blip takes the camera to no uplink
    at once: the wait is entered only when the candidate differs from the
    remembered one, and no uplink at all is the value remembered when there is
    no candidate. *)
Example blip_drops_everything : active_ (run (boot ++ [Evaluate all_dead 5000])) = None.
Proof. vm_compute. reflexivity. Qed.

Definition failover : list event := boot ++ [Evaluate wire_cut (2 ^ 32 - 1000); Evaluate wire_cut (2 ^ 32)].

Lemma switch_was_steady_witness :
  let m := run failover in
  (clock_ m = true /\ pinned (policy_ m) = false /\ active_ m = Some 0%nat /\ 0%nat <> 1%nat
   /\ 0 < window wire_cut m 0 < 2 ^ 31)
  /\ exists i v' t', (failover ++ [Evaluate wire_cut (2 ^ 32 + 2500)]) !! i = Some (Evaluate v' t')
     /\ window wire_cut m 0 <= 2 ^ 32 + 2500 - t'
     /\ steady (failover ++ [Evaluate wire_cut (2 ^ 32 + 2500)]) i 0 1.
Proof.
  split; [vm_compute; repeat split; done|].
  apply (switch_was_steady failover wire_cut (2 ^ 32 + 2500) 0 1).
  - vm_compute; reflexivity.
  - vm_compute; reflexivity.
  - vm_compute; reflexivity.
  - discriminate.
  - vm_compute; split; reflexivity.
  - intros i v' t' H. unfold failover, boot in H. cbn [app] in H.
    do 6 (destruct i as [|i]; [cbn in H; simplify_eq; lia|]). by destruct i.
  - vm_compute; reflexivity.
Defined.

Lemma subscriber_follows_witness :
  let m := run (boot ++ Subscribe :: [Evaluate wire_cut 1000; Evaluate wire_cut 5000]) in
  heard 1 m = [("eth0", "lte1")]%string
  /\ follow (up_id (both_up 0%nat)) (heard 1 m) = Some (ident_of (fun u => up_id (both_up u)) (active_ m)).
Proof.
  split; [vm_compute; reflexivity|].
  apply (subscriber_follows (fun u => up_id (both_up u)) boot [Evaluate wire_cut 1000; Evaluate wire_cut 5000]).
  - vm_compute; reflexivity.
  - repeat constructor; intros [|u]; reflexivity.
  - apply not_elem_of_cons. split; [discriminate|]. apply not_elem_of_cons. split; [discriminate|]. apply not_elem_of_nil.
Defined.
End Examples.
