(* ===== verification/Routes.v ===== *)
(** * Default routes and resolvers

    [core/net/route_plan.{hpp,cpp}]: which default routes and resolvers the
    system should have, as a function of the uplinks, the policy and the active
    uplink; [core/net/route_manager.{hpp,cpp}]: the reconciliation that brings
    the kernel there, over the port [ports/iroute_backend.hpp]. *)

From S2P Require Import Prelude CoreTypes Text Connectivity.

(** ** The plan *)

Record NetworkInfo := mkInfo {
  ifname : string;
  ipv4 : string;
  netmask : string;
  gateway : string;
  dns : string;
  dhcp : bool;
  dns_is_own : bool
}.

(** [UplinkStatus] without its traffic counters. *)
Record UplinkStatus := mkStatus {
  us_id : string;
  us_type : UplinkType;
  us_state : LinkState;
  us_info : NetworkInfo
}.

Definition kActiveRouteMetric : Z := 10.
Definition kRouteMetricStep : Z := 100.
Definition kUnrankedRouteMetric : Z := 1000.

Record RouteIntent := mkIntent {
  ri_uplink_id : string;
  ri_ifname : string;
  ri_gateway : string;
  ri_metric : Z;
  ri_active : bool;
  ri_onlink : bool
}.

Record RoutePlan := mkPlan {
  routes : list RouteIntent;
  managed_ifnames : list string;
  plan_dns : list string;
  dns_owner : string
}.

(** [RoutePlan::find]. *)
Definition find (p : RoutePlan) (name : string) : option RouteIntent :=
  first_of (fun r => bool_decide (ri_ifname r = name)) (routes p).

(** [is_dotted_quad]: the loop with its three counters; a dot is read at the end. *)
Fixpoint quad_loop (s : text) (octets digits value : Z) : bool :=
  match s with
  | [] => if digits =? 0 then false else (octets + 1 =? 4)
  | c :: s' =>
      if is_digit c then
        if 3 <? digits + 1 then false
        else
          let value := value * 10 + digit_value c in
          if 255 <? value then false else quad_loop s' octets (digits + 1) value
      else if Ascii.eqb c "." then
        if digits =? 0 then false else quad_loop s' (octets + 1) 0 0
      else false
  end.

Definition is_dotted_quad (s : text) : bool := quad_loop s 0 0 0.

Definition is_separator (c : ascii) : bool :=
  Ascii.eqb c " " || Ascii.eqb c "009" || Ascii.eqb c ",".

(** A finished word of [split_dns] joins the servers if it is a new address. *)
Definition take_server (cur : text) (out : list string) : list string :=
  let w := String.string_of_list_ascii cur in
  if bool_decide (cur <> []) && is_dotted_quad cur && negb (bool_decide (w ∈ out)) then out ++ [w] else out.

Fixpoint split_loop (s cur : text) (out : list string) : list string :=
  match s with
  | [] => take_server cur out
  | c :: s' => if is_separator c then split_loop s' [] (take_server cur out) else split_loop s' (cur ++ [c]) out
  end.

Definition split_dns (field : string) : list string := split_loop (txt field) [] [].

Fixpoint index_where {A} (p : A -> bool) (l : list A) : option Z :=
  match l with
  | [] => None
  | x :: l' => if p x then Some 0 else (fun i => i + 1) <$> index_where p l'
  end.

(** [policy_rank]; -1 when the policy does not mention the uplink. *)
Definition policy_rank (u : UplinkStatus) (policy : UplinkPolicy) : Z :=
  match index_where (fun sel => bool_decide (sel = us_id u)) (order policy) with
  | Some i => i
  | None =>
      match index_where (fun sel => bool_decide (sel = uplink_type_name (us_type u))) (order policy) with
      | Some i => i
      | None => -1
      end
  end.

Definition is_active (u : UplinkStatus) (active_id : string) : bool :=
  negb (bool_decide (active_id = ""%string)) && bool_decide (us_id u = active_id).

(** The body of the first loop: the route of an uplink, if it gets one. *)
Definition intent_of (policy : UplinkPolicy) (active_id : string) (u : UplinkStatus) : option RouteIntent :=
  let i := us_info u in
  if bool_decide (ifname i = ""%string) then None
  else if negb (bool_decide (us_state u = Connected)) || bool_decide (ipv4 i = ""%string) then None
  else if bool_decide (gateway i = ""%string) && negb (bool_decide (us_type u = Cellular)) then None
  else
    let active := is_active u active_id in
    let rank := policy_rank u policy in
    Some (mkIntent (us_id u) (ifname i) (gateway i)
            (if active then kActiveRouteMetric
             else if rank <? 0 then kUnrankedRouteMetric else (rank + 1) * kRouteMetricStep)
            active
            (bool_decide (us_type u = Cellular) && negb (bool_decide (gateway i = ""%string)))).

Definition add_managed (l : list string) (u : UplinkStatus) : list string :=
  let n := ifname (us_info u) in
  if bool_decide (n = ""%string) then l else if bool_decide (n ∈ l) then l else l ++ [n].

(** The order of the plan: metric, then id. *)
Definition before (a b : RouteIntent) : bool :=
  if ri_metric a =? ri_metric b then String.ltb (ri_uplink_id a) (ri_uplink_id b)
  else ri_metric a <? ri_metric b.

Fixpoint insert_route (r : RouteIntent) (l : list RouteIntent) : list RouteIntent :=
  match l with
  | [] => [r]
  | x :: l' => if before r x then r :: x :: l' else x :: insert_route r l'
  end.

(** [std::sort]; entries with equal metric and id are kept in order. *)
Definition sort_routes (l : list RouteIntent) : list RouteIntent := foldl (fun acc r => insert_route r acc) [] l.

(** The second loop: the resolvers of the active uplink. *)
Fixpoint plan_servers (uplinks : list UplinkStatus) (active_id : string) : list string * string :=
  match uplinks with
  | [] => ([], ""%string)
  | u :: rest =>
      if negb (is_active u active_id) then plan_servers rest active_id
      else if negb (dns_is_own (us_info u)) then ([], ""%string)
      else match split_dns (dns (us_info u)) with
           | [] => ([], ""%string)
           | servers => (servers, us_id u)
           end
  end.

(** [plan_routes]. *)
Definition plan_routes (uplinks : list UplinkStatus) (policy : UplinkPolicy) (active_id : string) : RoutePlan :=
  let '(servers, owner) := plan_servers uplinks active_id in
  mkPlan (sort_routes (omap (intent_of policy active_id) uplinks))
         (foldl add_managed [] uplinks) servers owner.

(** ** What the plan promises *)

Lemma insert_perm r l : insert_route r l ≡ₚ r :: l.
Proof.
  induction l as [|x l IH]; simpl; [done|]. destruct (before r x); [done|]. rewrite IH. apply Permutation_swap.
Qed.

Lemma sort_perm_acc l acc : foldl (fun acc r => insert_route r acc) acc l ≡ₚ acc ++ l.
Proof.
  revert acc. induction l as [|r l IH]; intros acc; simpl; [by rewrite app_nil_r|].
  rewrite IH, insert_perm. rewrite <- Permutation_middle. done.
Qed.

Lemma sort_perm l : sort_routes l ≡ₚ l.
Proof. apply sort_perm_acc. Qed.

Lemma ltb_total a b : String.ltb a b = false -> a <> b -> String.ltb b a = true.
Proof.
  unfold String.ltb. intros H Hne. rewrite String.compare_antisym in H.
  destruct (String.compare b a) eqn:E; simpl in *; try done.
  apply String.compare_eq_iff in E. congruence.
Qed.

(** No entry belongs before the one in front of it. *)
Definition in_order (a b : RouteIntent) : Prop := before b a = false.

Lemma before_asym a b : before a b = true -> before b a = false.
Proof.
  unfold before. rewrite (Z.eqb_sym (ri_metric b)). destruct (_ =? _) eqn:E; bool_simpl; [|intros H; bool_simpl; apply Z.ltb_ge; lia].
  unfold String.ltb. rewrite (String.compare_antisym (ri_uplink_id a)).
  destruct (String.compare _ _); simpl; done.
Qed.

Lemma insert_chain r l : chain in_order l -> chain in_order (insert_route r l).
Proof.
  induction l as [|x l IH]; intros Hc; simpl; [done|].
  destruct (before r x) eqn:E.
  - split; [|done]. unfold in_order. by apply before_asym.
  - pose proof (chain_tail _ _ _ Hc) as Ht. specialize (IH Ht).
    destruct l as [|y l]; simpl in *; [done|]. destruct Hc as [Hxy _].
    destruct (before r y); simpl in *; [done|]. by split.
Qed.

Lemma sort_chain l : chain in_order (sort_routes l).
Proof.
  unfold sort_routes. assert (G : forall acc, chain in_order acc ->
    chain in_order (foldl (fun acc r => insert_route r acc) acc l)); [|by apply G].
  induction l as [|r l IH]; intros acc Ha; simpl; [done|]. by apply IH, insert_chain.
Qed.

Lemma routes_plan ups policy aid :
  routes (plan_routes ups policy aid) = sort_routes (omap (intent_of policy aid) ups).
Proof. unfold plan_routes. by destruct (plan_servers ups aid). Qed.

Lemma elem_of_plan r ups policy aid :
  r ∈ routes (plan_routes ups policy aid) <-> exists u, u ∈ ups /\ intent_of policy aid u = Some r.
Proof. rewrite routes_plan, sort_perm. apply list_elem_of_omap. Qed.

Lemma index_where_nonneg {A} (p : A -> bool) l i : index_where p l = Some i -> 0 <= i.
Proof.
  revert i. induction l as [|x l IH]; intros i; simpl; [done|]. destruct (p x); [intros [= <-]; lia|].
  destruct (index_where p l) as [j|]; simpl; [|done]. intros [= <-]. specialize (IH j eq_refl). lia.
Qed.

(** What the entry of an uplink says. *)
Lemma intent_of_some policy aid u r :
  intent_of policy aid u = Some r ->
  ri_uplink_id r = us_id u /\ ri_ifname r = ifname (us_info u) /\ ri_gateway r = gateway (us_info u)
  /\ ri_ifname r <> ""%string /\ us_state u = Connected /\ ipv4 (us_info u) <> ""%string
  /\ (ri_gateway r = ""%string -> us_type u = Cellular)
  /\ ri_active r = is_active u aid
  /\ (if ri_active r then ri_metric r = 10 else 100 <= ri_metric r).
Proof.
  unfold intent_of. case_bool_decide as H1; [done|].
  destruct (negb _ || _) eqn:H2; [done|]. destruct (_ && _) eqn:H3; [done|]. bool_simpl.
  intros [= <-]. simpl. do 3 (split; [done|]). split; [done|]. split; [done|]. split; [done|].
  split; [|split; [done|]].
  - intros Hg. rewrite bool_decide_true in H3 by done. simpl in H3. by bool_simpl.
  - destruct (is_active u aid); [done|]. destruct (_ <? 0) eqn:E; [done|]. bool_simpl.
    unfold kRouteMetricStep. lia.
Qed.

Lemma is_active_true u aid : is_active u aid = true <-> aid <> ""%string /\ us_id u = aid.
Proof.
  unfold is_active. rewrite andb_true_iff, negb_true_iff, bool_decide_eq_false, bool_decide_eq_true. done.
Qed.

Lemma add_managed_elem l u x :
  x ∈ add_managed l u <-> x ∈ l \/ (x = ifname (us_info u) /\ x <> ""%string).
Proof.
  unfold add_managed. case_bool_decide as E1; [split; [by left|intros [?|[-> ?]]; done]|].
  case_bool_decide as E2; [split; [by left|intros [?|[-> ?]]; done]|].
  rewrite elem_of_app, list_elem_of_singleton. split; [intros [?| ->]; auto|intros [?|[-> ?]]; auto].
Qed.

Lemma managed_elem ups l x :
  x ∈ foldl add_managed l ups <-> x ∈ l \/ exists u, u ∈ ups /\ x = ifname (us_info u) /\ x <> ""%string.
Proof.
  revert l. induction ups as [|u ups IH]; intros l; simpl.
  - split; [by left|intros [?|(u & Hu & _)]; [done|by apply not_elem_of_nil in Hu]].
  - rewrite IH, add_managed_elem. setoid_rewrite elem_of_cons. naive_solver.
Qed.

Lemma managed_plan ups policy aid :
  managed_ifnames (plan_routes ups policy aid) = foldl add_managed [] ups.
Proof. unfold plan_routes. by destruct (plan_servers ups aid). Qed.

(** The routing table the plan asks for.  Every route of the plan belongs to
    a connected, addressed uplink with an interface, and only a cellular one may
    go without a gateway; every such uplink has its route; the routes are in the
    order of metric and id; every interface of an uplink, up or down, is
    managed; and the route of the active uplink has a strictly lower metric than
    every other uplink's, so the kernel sends where the manager decided. *)
Theorem plan_follows_selection (ups : list UplinkStatus) (policy : UplinkPolicy) (aid : string) :
  let p := plan_routes ups policy aid in
  (forall r, r ∈ routes p <-> exists u, u ∈ ups /\ intent_of policy aid u = Some r)
  /\ (forall r, r ∈ routes p -> exists u, u ∈ ups /\ ri_uplink_id r = us_id u
        /\ us_state u = Connected /\ ipv4 (us_info u) <> ""%string
        /\ (ri_gateway r = ""%string -> us_type u = Cellular) /\ ri_ifname r ∈ managed_ifnames p)
  /\ chain in_order (routes p)
  /\ (forall x, x ∈ managed_ifnames p <-> x <> ""%string /\ exists u, u ∈ ups /\ x = ifname (us_info u))
  /\ (forall r r', r ∈ routes p -> r' ∈ routes p -> ri_uplink_id r = aid -> ri_uplink_id r' <> aid ->
        aid <> ""%string -> ri_metric r < ri_metric r').
Proof.
  intros p. split; [intros r; apply elem_of_plan|]. split; [|split; [|split]].
  - intros r Hr. apply elem_of_plan in Hr as (u & Hu & E). apply intent_of_some in E as (? & Hi & ? & ? & ? & ? & ? & _).
    exists u. do 5 (split; [done|]). unfold p. rewrite managed_plan. apply managed_elem. right. exists u. done.
  - unfold p. rewrite routes_plan. apply sort_chain.
  - intros x. unfold p. rewrite managed_plan, managed_elem. split.
    + intros [Hx|(u & ? & ? & ?)]; [by apply not_elem_of_nil in Hx|]. split; [done|]. by exists u.
    + intros (? & u & ? & ?). right. by exists u.
  - intros r r' Hr Hr' Ha Ha' Hne. apply elem_of_plan in Hr as (u & _ & E), Hr' as (u' & _ & E').
    apply intent_of_some in E as (Hid & _ & _ & _ & _ & _ & _ & Hact & Hm).
    apply intent_of_some in E' as (Hid' & _ & _ & _ & _ & _ & _ & Hact' & Hm').
    assert (is_active u aid = true) as E1 by (apply is_active_true; by rewrite <- Hid).
    assert (is_active u' aid = false) as E2.
    { apply not_true_iff_false. rewrite is_active_true. intros [_ ?]. congruence. }
    rewrite Hact, E1 in Hm. rewrite Hact', E2 in Hm'. lia.
Qed.

(** ** Resolvers *)

(** One number of a dotted quad: one to three digits, at most 255. *)
Definition octet (t : text) : Prop :=
  t <> [] /\ (length t <= 3)%nat /\ forallb is_digit t = true /\ dec_value t <= 255.

Definition dot : ascii := ".".

Definition dotted_quad (s : text) : Prop :=
  exists a b c d, octet a /\ octet b /\ octet c /\ octet d /\ s = a ++ dot :: b ++ dot :: c ++ dot :: d.

(** Numbers separated by dots. *)
Fixpoint join_dots (l : list text) : text :=
  match l with
  | [] => []
  | [t] => t
  | t :: l' => t ++ dot :: join_dots l'
  end.

Lemma join_dots_cons c t l : join_dots ((c :: t) :: l) = c :: join_dots (t :: l).
Proof. by destruct l. Qed.

(** The loop has read the number [t] already. *)
Lemma quad_loop_sound s t o :
  forallb is_digit t = true -> (length t <= 3)%nat -> dec_value t <= 255 ->
  quad_loop s o (Z.of_nat (length t)) (dec_value t) = true ->
  exists l, t ++ s = join_dots l /\ Forall octet l /\ o + Z.of_nat (length l) = 4 /\ l <> [].
Proof.
  revert t o. induction s as [|c s IH]; intros t o Hd Hl Hv; cbn [quad_loop].
  - destruct (_ =? 0) eqn:E; [done|]. intros Ho. bool_simpl. exists [t]. rewrite app_nil_r. split; [done|].
    split; [|split; [simpl; lia|done]]. apply Forall_singleton. split; [by destruct t|done].
  - destruct (is_digit c) eqn:Ec.
    + destruct (3 <? _) eqn:E3; [done|]. destruct (255 <? _) eqn:E255; [done|]. bool_simpl.
      assert (Hs : dec_value (t ++ [c]) = dec_value t * 10 + digit_value c) by (rewrite dec_value_snoc; lia).
      rewrite <- Hs. replace (Z.of_nat (length t) + 1) with (Z.of_nat (length (t ++ [c])))
        by (rewrite length_app; simpl; lia). intros Hq.
      replace (t ++ c :: s) with ((t ++ [c]) ++ s) by (by rewrite <- app_assoc). apply IH; [|rewrite length_app; simpl; lia|lia|done].
      rewrite forallb_app, Hd. simpl. by rewrite Ec.
    + destruct (Ascii.eqb c ".") eqn:Edot; [|done]. apply Ascii.eqb_eq in Edot as ->.
      destruct (_ =? 0) eqn:E0; [done|]. bool_simpl. intros Hq.
      destruct (IH [] (o + 1)) as (l & Hj & Hf & Hn & Hl'); [done|simpl; lia|done|exact Hq|].
      exists (t :: l). split; [|split; [|split; [|done]]].
      * cbn [app] in Hj. by destruct l; [done|rewrite Hj].
      * constructor; [split; [by destruct t|done]|done].
      * simpl. lia.
Qed.

Lemma is_dotted_quad_sound s : is_dotted_quad s = true -> dotted_quad s.
Proof.
  intros H. destruct (quad_loop_sound s [] 0 eq_refl) as (l & Hj & Hf & Hn & _); [simpl; lia|done|exact H|].
  destruct l as [|a [|b [|c [|d [|]]]]]; simpl in Hn; try lia. rewrite !Forall_cons in Hf.
  destruct Hf as (Ha & Hb & Hc & Hd & _). exists a, b, c, d. do 4 (split; [done|]). exact Hj.
Qed.

(** A list of servers as resolv.conf may hold it. *)
Definition good_servers (l : list string) : Prop := NoDup l /\ Forall (fun s => dotted_quad (txt s)) l.

Lemma txt_of_text t : txt (String.string_of_list_ascii t) = t.
Proof. apply String.list_ascii_of_string_of_list_ascii. Qed.

Lemma take_server_good cur out : good_servers out -> good_servers (take_server cur out).
Proof.
  intros [Hn Hf]. unfold take_server. destruct (_ && _) eqn:E; [|done]. bool_simpl. split.
  - apply NoDup_app. split; [done|]. split; [|apply NoDup_singleton].
    intros x Hx Hx'. apply list_elem_of_singleton in Hx' as ->. done.
  - apply Forall_app. split; [done|]. apply Forall_singleton. rewrite txt_of_text. by apply is_dotted_quad_sound.
Qed.

Lemma split_dns_good field : good_servers (split_dns field).
Proof.
  unfold split_dns. assert (G : forall s cur out, good_servers out -> good_servers (split_loop s cur out)).
  { induction s as [|c s IH]; intros cur out Ho; simpl; [by apply take_server_good|].
    destruct (is_separator c); apply IH; [by apply take_server_good|done]. }
  apply G. split; constructor.
Qed.

(** Resolvers come from the active uplink alone.  The plan names resolvers
    only when the active uplink knows its own, they are the distinct dotted
    quads of its field, and otherwise it names none at all: an inactive uplink
    never takes over name resolution, and no malformed address is published. *)
Theorem resolvers_from_active (ups : list UplinkStatus) (policy : UplinkPolicy) (aid : string) :
  let p := plan_routes ups policy aid in
  good_servers (plan_dns p)
  /\ (plan_dns p = [] <-> dns_owner p = ""%string)
  /\ (plan_dns p <> [] -> dns_owner p = aid /\ aid <> ""%string
        /\ exists u, u ∈ ups /\ us_id u = aid /\ dns_is_own (us_info u) = true
           /\ plan_dns p = split_dns (dns (us_info u)))
  /\ (forall ups', filter (fun u => us_id u = aid) ups' = filter (fun u => us_id u = aid) ups ->
        plan_dns (plan_routes ups' policy aid) = plan_dns p /\ dns_owner (plan_routes ups' policy aid) = dns_owner p).
Proof.
  assert (Hp : forall ups, plan_dns (plan_routes ups policy aid) = (plan_servers ups aid).1
                        /\ dns_owner (plan_routes ups policy aid) = (plan_servers ups aid).2).
  { intros l. unfold plan_routes. by destruct (plan_servers l aid). }
  assert (Hs : match plan_servers ups aid with
    | ([], o) => o = ""%string
    | (l, o) => o = aid /\ aid <> ""%string /\ good_servers l
        /\ exists u, u ∈ ups /\ us_id u = aid /\ dns_is_own (us_info u) = true /\ l = split_dns (dns (us_info u))
    end).
  { clear Hp. induction ups as [|u rest IH]; [done|]. cbn [plan_servers].
    destruct (is_active u aid) eqn:Ea; cbn [negb].
    - apply is_active_true in Ea as [Hne <-]. destruct (dns_is_own (us_info u)) eqn:Eo; cbn [negb]; [|done].
      pose proof (split_dns_good (dns (us_info u))) as Hg. destruct (split_dns _) as [|x l] eqn:El; [done|].
      split; [done|]. split; [done|]. split; [done|]. exists u. split; [by apply elem_of_cons; left|]. done.
    - destruct (plan_servers rest aid) as [[|x l] o]; [done|].
      destruct IH as (? & ? & ? & u' & ? & ?). do 3 (split; [done|]). exists u'.
      split; [by apply elem_of_cons; right|done]. }
  intros p. unfold p. destruct (Hp ups) as [E1 E2]. rewrite E1, E2. clear E1 E2.
  split; [|split; [|split]].
  - destruct (plan_servers ups aid) as [[|x l] o]; [split; constructor|]. apply Hs.
  - destruct (plan_servers ups aid) as [[|x l] o]; simpl; [by rewrite Hs|]. destruct Hs as (-> & Hne & _).
    split; done.
  - destruct (plan_servers ups aid) as [[|x l] o]; simpl; [done|]. intros _.
    destruct Hs as (-> & Hne & _ & Hu). done.
  - intros ups' Hf. destruct (Hp ups') as [-> ->].
    assert (Hsk : forall l, plan_servers l aid = plan_servers (filter (fun u => us_id u = aid) l) aid).
    { induction l as [|u l IH]; [done|]. rewrite filter_cons. cbn [plan_servers].
      destruct (decide (us_id u = aid)) as [E|E].
      - cbn [plan_servers]. by rewrite IH.
      - assert (is_active u aid = false) as ->; [|done].
        apply not_true_iff_false. rewrite is_active_true. tauto. }
    by rewrite (Hsk ups'), (Hsk ups), Hf.
Qed.
