(* ===== verification/RouteManager.v ===== *)
(** * Reconciling the routing table

    [core/net/route_manager.{hpp,cpp}] over the port
    [ports/iroute_backend.hpp].  The kernel - its default routes, the resolver
    file, the recorded baseline - is the state; whether a request succeeds is
    the backend's answer ([RouteBackend]), a request that fails changes
    nothing.  Every request is logged with the table it leaves. *)

From S2P Require Import Prelude CoreTypes Text Connectivity Routes.

Record DefaultRoute := mkRoute { dr_ifname : string; dr_gateway : string; dr_metric : Z }.

#[export] Instance DefaultRoute_eq : EqDecision DefaultRoute.
Proof. solve_decision. Defined.

Inductive request :=
| AddDefault (r : DefaultRoute) (onlink : bool)
| DelDefault (r : DefaultRoute)
| SetDns (servers : list string)
| SetBaseline (servers : list string)
| ClearBaseline.

Definition call : Type := request * Result * list DefaultRoute.

(** [IRouteBackend]: its answers, as functions of the requests before. *)
Class RouteBackend := {
  rb_readable : list call -> bool;              (* [default_routes] *)
  rb_answer : list call -> request -> Result;
  rb_dns_known : list call -> bool              (* [dns] *)
}.

Record ReconcileReport := mkReport {
  added : Z;
  removed : Z;
  dns_written : bool;
  dns_restored : bool;
  read_failed : bool;
  error : string
}.

#[export] Instance report_eta : Settable ReconcileReport := fun r =>
  mkReport (added r) (removed r) (dns_written r) (dns_restored r) (read_failed r) (error r).

Definition ReconcileReport_default : ReconcileReport := mkReport 0 0 false false false "".

Definition changed (r : ReconcileReport) : bool :=
  (0 <? added r) || (0 <? removed r) || dns_written r || dns_restored r.

(** The kernel, and the locals of [reconcile]. *)
Record t := mk {
  table : list DefaultRoute;
  resolvers : list string;
  baseline : option (list string);
  calls : list call;                            (* newest first *)
  rep : ReconcileReport;
  installed : list string
}.

#[export] Instance rm_eta : Settable t := fun r =>
  mk (table r) (resolvers r) (baseline r) (calls r) (rep r) (installed r).

(** What a request that succeeds does. *)
Definition effect (q : request) (m : t) : t :=
  match q with
  | AddDefault r _ => m <| table ::= (fun l => l ++ [r]) |>
  | DelDefault r => m <| table ::= filter (fun d => d <> r) |>
  | SetDns s => m <| resolvers := s |>
  | SetBaseline s => m <| baseline := Some s |>
  | ClearBaseline => m <| baseline := None |>
  end.

Section Manager.
Context {RB : RouteBackend}.

Definition issue (q : request) : ST t Result :=
  rc ← gets (fun m => rb_answer (calls m) q);
  when (is_ok rc) (modify (effect q)) ;;
  modify (fun m => m <| calls ::= cons (q, rc, table m) |>) ;;
  mret rc.

(** [same_route]. *)
Definition route_of (w : RouteIntent) : DefaultRoute := mkRoute (ri_ifname w) (ri_gateway w) (ri_metric w).
Definition same_route (a : DefaultRoute) (b : RouteIntent) : bool := bool_decide (a = route_of b).

Definition managed (plan : RoutePlan) (name : string) : bool := bool_decide (name ∈ managed_ifnames plan).

(** [if (rep.error.empty()) rep.error = ...]. *)
Definition first_error (e : string) : ST t unit :=
  modify (fun m => m <| rep ::= fun r => if bool_decide (error r = ""%string) then r <| error := e |> else r |>).

(** The body of the first loop. *)
Definition install (actual : list DefaultRoute) (want : RouteIntent) : ST t unit :=
  if existsb (fun have => same_route have want) actual then
    modify (fun m => m <| installed ::= (fun l => l ++ [ri_ifname want]) |>)
  else
    rc ← issue (AddDefault (route_of want) (ri_onlink want));
    if is_ok rc then
      modify (fun m => m <| rep ::= (fun r => r <| added ::= Z.add 1 |>) |>
                         <| installed ::= (fun l => l ++ [ri_ifname want]) |>)
    else first_error ("the default route through " +:+ ri_ifname want +:+ " could not be installed").

(** The body of the second loop. *)
Definition sweep (plan : RoutePlan) (have : DefaultRoute) : ST t unit :=
  inst ← gets installed;
  if negb (managed plan (dr_ifname have)) then skip
  else if existsb (fun want => same_route have want) (routes plan) then skip
  else if bool_decide (find plan (dr_ifname have) <> None) && negb (bool_decide (dr_ifname have ∈ inst)) then skip
  else
    rc ← issue (DelDefault have);
    if is_ok rc then modify (fun m => m <| rep ::= (fun r => r <| removed ::= Z.add 1 |>) |>)
    else first_error ("a stale default route through " +:+ dr_ifname have +:+ " could not be removed").

(** The last part: the resolvers. *)
Definition reconcile_dns (plan : RoutePlan) : ST t unit :=
  m ← gets (fun m => m);
  let owned := baseline m in
  if negb (bool_decide (dns_owner plan = ""%string)) && negb (bool_decide (plan_dns plan = [])) then
    let known := rb_dns_known (calls m) in
    let current := resolvers m in
    when (bool_decide (owned = None))
      (rc ← issue (SetBaseline (if known then current else []));
       when (negb (is_ok rc))
         (first_error "the previous resolvers could not be recorded - they will not be restored automatically")) ;;
    when (negb known || negb (bool_decide (current = plan_dns plan)))
      (rc ← issue (SetDns (plan_dns plan));
       if is_ok rc then modify (fun m => m <| rep ::= (fun r => r <| dns_written := true |>) |>)
       else first_error "the resolver configuration could not be written")
  else
    match owned with
    | None => skip
    | Some [] =>
        issue ClearBaseline ;;
        modify (fun m => m <| rep ::= (fun r => r <| error :=
          "the previous resolvers are unknown - the file keeps the ones the last uplink supplied until a lease renews"%string |>) |>)
    | Some saved =>
        rc ← issue (SetDns saved);
        if is_ok rc then
          modify (fun m => m <| rep ::= (fun r => r <| dns_restored := true |>) |>) ;;
          issue ClearBaseline ;;
          skip
        else first_error "the previous resolver configuration could not be restored"
    end.

(** [RouteManager::reconcile]. *)
Definition reconcile (plan : RoutePlan) : ST t ReconcileReport :=
  modify (fun m => m <| rep := ReconcileReport_default |> <| installed := [] |>) ;;
  m ← gets (fun m => m);
  if negb (rb_readable (calls m)) then
    modify (fun m => m <| rep := ReconcileReport_default <| read_failed := true |>
                         <| error := "the routing table could not be read - nothing was changed"%string |> |>) ;;
    gets rep
  else
    let actual := table m in
    for_each (routes plan) (install actual) ;;
    for_each actual (sweep plan) ;;
    reconcile_dns plan ;;
    gets rep.

(** ** Safety of every step *)

Lemma issue_spec q (Q : Result -> t -> Prop) m :
  (forall rc, rc = rb_answer (calls m) q ->
     let m1 := if is_ok rc then effect q m else m in
     Q rc (m1 <| calls ::= cons (q, rc, table m1) |>)) ->
  wp (issue q) Q m.
Proof.
  intros H. specialize (H _ eq_refl). unfold issue. apply wp_bind, wp_gets, wp_bind.
  apply wp_when; intros E; rewrite E in H.
  - apply wp_modify, wp_bind, wp_modify, wp_ret. exact H.
  - apply wp_bind, wp_modify, wp_ret. exact H.
Qed.

Lemma first_error_spec e (Q : unit -> t -> Prop) m :
  (forall r, Q tt (m <| rep := r |>)) -> wp (first_error e) Q m.
Proof. intros H. unfold first_error. apply wp_modify. simpl. apply H. Qed.

Section Steps.
Context (plan : RoutePlan) (m0 : t).

(** The routes of interfaces that no uplink owns. *)
Definition foreign (l : list DefaultRoute) : list DefaultRoute := filter (fun d => dr_ifname d ∉ managed_ifnames plan) l.

(** Every interface the plan routes through still has a default route if it had one. *)
Definition exits_kept (l : list DefaultRoute) : Prop :=
  forall w d, w ∈ routes plan -> d ∈ table m0 -> dr_ifname d = ri_ifname w ->
    exists d', d' ∈ l /\ dr_ifname d' = ri_ifname w.

Definition wanted (d : DefaultRoute) : Prop := exists w, w ∈ routes plan /\ d = route_of w.

Definition safe_table (l : list DefaultRoute) : Prop := foreign l = foreign (table m0) /\ exits_kept l.

Definition adds (c : call) : Prop := exists w, w ∈ routes plan /\ c.1.1 = AddDefault (route_of w) (ri_onlink w).
Definition deletes (c : call) : Prop :=
  exists d, c.1.1 = DelDefault d /\ d ∈ table m0 /\ dr_ifname d ∈ managed_ifnames plan /\ ~ wanted d.
Definition names (c : call) : Prop :=
  match c.1.1 with AddDefault _ _ | DelDefault _ => False | _ => True end.

Hypothesis Hwf : Forall (fun w => ri_ifname w ∈ managed_ifnames plan) (routes plan).

Lemma existsb_wanted d : existsb (fun want => same_route d want) (routes plan) = true <-> wanted d.
Proof.
  rewrite existsb_exists. unfold wanted, same_route. setoid_rewrite bool_decide_eq_true.
  setoid_rewrite list_elem_of_In. done.
Qed.

Record phase1 (m : t) : Prop := {
  p1_old : forall d, d ∈ table m0 -> d ∈ table m;
  p1_foreign : foreign (table m) = foreign (table m0);
  p1_installed : forall i, i ∈ installed m -> exists w, w ∈ routes plan /\ ri_ifname w = i /\ route_of w ∈ table m;
  p1_calls : exists new, calls m = new ++ calls m0 /\ Forall adds new /\ Forall (fun c => safe_table c.2) new
}.

Lemma phase1_safe m : phase1 m -> safe_table (table m).
Proof. intros [H1 H2 _ _]. split; [done|]. intros w d Hw Hd Hi. exists d. split; [by apply H1|done]. Qed.

Lemma foreign_app_managed l d : dr_ifname d ∈ managed_ifnames plan -> foreign (l ++ [d]) = foreign l.
Proof. intros H. unfold foreign. rewrite filter_app, filter_cons, decide_False by tauto. by rewrite filter_nil, app_nil_r. Qed.

Lemma install_phase1 w m :
  w ∈ routes plan -> phase1 m -> wp (install (table m0) w) (fun _ => phase1) m.
Proof using Hwf.
  intros Hw P. unfold install. destruct (existsb _ (table m0)) eqn:E.
  - apply wp_modify. apply existsb_exists in E as (d & Hd & E). unfold same_route in E. bool_simpl. subst d.
    apply list_elem_of_In in Hd. destruct P as [H1 H2 H3 H4]. split; simpl; [done|done| |done].
    intros i Hi. apply elem_of_app in Hi as [Hi|Hi]; [by apply H3|]. apply list_elem_of_singleton in Hi as ->.
    exists w. split; [done|]. split; [done|]. by apply H1.
  - apply wp_bind. apply issue_spec. intros rc _. destruct (is_ok rc) eqn:Eo; cbv zeta.
    + apply wp_modify.
      assert (Hm : ri_ifname w ∈ managed_ifnames plan) by (rewrite Forall_forall in Hwf; by apply Hwf).
      assert (Hf : foreign (table m ++ [route_of w]) = foreign (table m0)).
      { rewrite foreign_app_managed by done. apply P. }
      assert (Hold : forall d, d ∈ table m0 -> d ∈ table m ++ [route_of w]).
      { intros d Hd. apply elem_of_app. left. by apply P. }
      destruct P as [H1 H2 H3 (new & Hc & Ha & Hs)]. split; simpl.
      * exact Hold.
      * exact Hf.
      * intros i Hi. apply elem_of_app in Hi as [Hi|Hi].
        { destruct (H3 i Hi) as (w' & ? & ? & ?). exists w'. split; [done|]. split; [done|]. apply elem_of_app. by left. }
        apply list_elem_of_singleton in Hi as ->. exists w. split; [done|]. split; [done|].
        apply elem_of_app. right. by apply list_elem_of_singleton.
      * eexists (_ :: new). split; [by rewrite Hc|]. split; (constructor; [|done]); [by exists w|].
        split; [exact Hf|]. intros w' d Hw' Hd Hi. exists d. split; [by apply Hold|done].
    + apply first_error_spec. intros r. pose proof (phase1_safe _ P) as Hsafe.
      destruct P as [H1 H2 H3 (new & Hc & Ha & Hs)]. split; simpl; [done..|].
      eexists (_ :: new). split; [by rewrite Hc|]. split; (constructor; [|done]); [by exists w|]. exact Hsafe.
Qed.

(** While old routes are removed, a planned interface whose route is not known
    to be in the table keeps all its old ones. *)
Record phase2 (inst : list string) (m : t) : Prop := {
  p2_inst : installed m = inst;
  p2_foreign : foreign (table m) = foreign (table m0);
  p2_wanted : forall i, i ∈ inst -> exists w, w ∈ routes plan /\ ri_ifname w = i /\ route_of w ∈ table m;
  p2_old : forall w d, w ∈ routes plan -> ri_ifname w ∉ inst -> d ∈ table m0 -> dr_ifname d = ri_ifname w -> d ∈ table m;
  p2_calls : exists dels new, calls m = dels ++ new ++ calls m0 /\ Forall adds new /\ Forall deletes dels
    /\ Forall (fun c => safe_table c.2) (dels ++ new)
}.

Lemma phase2_safe inst m : phase2 inst m -> safe_table (table m).
Proof.
  intros [_ H2 H3 H4 _]. split; [done|]. intros w d Hw Hd Hi. destruct (decide (ri_ifname w ∈ inst)) as [E|E].
  - destruct (H3 _ E) as (w' & Hw' & Hi' & Ht). by exists (route_of w').
  - exists d. split; [by eapply H4|done].
Qed.

Lemma find_none w : w ∈ routes plan -> find plan (ri_ifname w) <> None.
Proof.
  intros Hw Hf. unfold find in Hf. pose proof (Connectivity.first_of_none _ _ _ Hf Hw) as H. cbv beta in H.
  by apply bool_decide_eq_false in H.
Qed.

Lemma phase2_call inst m q rc r :
  phase2 inst m -> deletes (q, rc, table m) ->
  phase2 inst (m <| calls ::= cons (q, rc, table m) |> <| rep := r |>).
Proof.
  intros P Hd. pose proof (phase2_safe _ _ P) as Hs. destruct P as [H1 H2 H3 H4 (dels & new & Hc & Ha & Hde & Hsa)].
  split; simpl; [done..|]. eexists (_ :: dels), new. split; [by rewrite Hc|]. split; [done|].
  split; [by constructor|]. simpl. by constructor.
Qed.

Lemma sweep_phase2 inst d m :
  d ∈ table m0 -> phase2 inst m -> wp (sweep plan d) (fun _ => phase2 inst) m.
Proof.
  intros Hd P. unfold sweep. apply wp_bind, wp_gets. rewrite (p2_inst _ _ P).
  destruct (negb (managed plan (dr_ifname d))) eqn:E1; [by apply wp_skip|].
  destruct (existsb _ (routes plan)) eqn:E2; [by apply wp_skip|].
  destruct (bool_decide _ && _) eqn:E3; [by apply wp_skip|]. unfold managed in E1. bool_simpl.
  assert (Hnw : ~ wanted d) by (rewrite <- existsb_wanted, E2; done).
  assert (Hinst : forall w, w ∈ routes plan -> ri_ifname w = dr_ifname d -> dr_ifname d ∈ inst).
  { intros w Hw Hi. rewrite bool_decide_true in E3 by (rewrite <- Hi; by apply find_none). simpl in E3. by bool_simpl. }
  apply wp_bind. apply issue_spec. intros rc _. destruct (is_ok rc) eqn:Eo; cbv zeta.
  - apply wp_modify. set (m1 := effect (DelDefault d) m).
    assert (P1 : phase2 inst m1).
    { destruct P as [H1 H2 H3 H4 H5]. split; simpl; [done| | | |done].
      - rewrite <- H2. unfold foreign. rewrite list_filter_filter. apply list_filter_iff. intros x.
        split; [by intros [? _]|]. intros Hx. split; [done|]. intros ->. done.
      - intros i Hi. destruct (H3 i Hi) as (w & ? & ? & ?). exists w. split; [done|]. split; [done|].
        apply list_elem_of_filter. split; [|done]. intros <-. apply Hnw. by exists w.
      - intros w d' Hw Hni Hd' Hi. apply list_elem_of_filter. split; [|by eapply H4].
        intros ->. apply Hni. rewrite <- Hi. by eapply Hinst. }
    apply (phase2_call inst m1 (DelDefault d) rc _ P1). exists d. done.
  - apply first_error_spec. intros r. apply (phase2_call inst m (DelDefault d) rc r P). by exists d.
Qed.
End Steps.

(** The resolver part makes no route request. *)
Definition quiet_tail (m m' : t) : Prop :=
  table m' = table m /\ exists new, calls m' = new ++ calls m /\ Forall names new
    /\ Forall (fun c : call => c.2 = table m) new.

Lemma quiet_tail_refl m m' : table m' = table m -> calls m' = calls m -> quiet_tail m m'.
Proof. intros Ht Hc. split; [done|]. exists []. by rewrite Hc. Qed.

Lemma quiet_tail_trans m1 m2 m3 : quiet_tail m1 m2 -> quiet_tail m2 m3 -> quiet_tail m1 m3.
Proof.
  intros (H1 & n1 & C1 & N1 & T1) (H2 & n2 & C2 & N2 & T2). split; [congruence|]. exists (n2 ++ n1).
  split; [by rewrite C2, C1, app_assoc|]. rewrite H1 in T2. by rewrite !Forall_app.
Qed.

(** A request about names only, and what may follow it. *)
Lemma quiet_issue q (k : Result -> ST t unit) m :
  match q with AddDefault _ _ | DelDefault _ => False | _ => True end ->
  (forall rc m1, quiet_tail m m1 -> wp (k rc) (fun _ => quiet_tail m) m1) ->
  wp (rc ← issue q; k rc) (fun _ => quiet_tail m) m.
Proof.
  intros Hq Hk. apply wp_bind, issue_spec. intros rc _. cbv zeta. apply Hk.
  assert (Ht : table (if is_ok rc then effect q m else m) = table m) by (destruct (is_ok rc), q; done).
  assert (Hc : calls (if is_ok rc then effect q m else m) = calls m) by (destruct (is_ok rc), q; done).
  split; [exact Ht|]. exists [(q, rc, table m)]. split; [simpl; by rewrite Hc, Ht|].
  split; (constructor; [by destruct q|constructor]).
Qed.

Lemma quiet_error m m1 e : quiet_tail m m1 -> wp (first_error e) (fun _ => quiet_tail m) m1.
Proof.
  intros Hq. apply first_error_spec. intros r. eapply quiet_tail_trans; [exact Hq|]. by apply quiet_tail_refl.
Qed.

Lemma quiet_modify m m1 (f : t -> t) :
  quiet_tail m m1 -> table (f m1) = table m1 -> calls (f m1) = calls m1 ->
  wp (modify f) (fun _ => quiet_tail m) m1.
Proof. intros Hq Ht Hc. apply wp_modify. eapply quiet_tail_trans; [exact Hq|]. by apply quiet_tail_refl. Qed.

Lemma quiet_issue_from q (k : Result -> ST t unit) m m0 :
  match q with AddDefault _ _ | DelDefault _ => False | _ => True end -> quiet_tail m0 m ->
  (forall rc m1, quiet_tail m0 m1 -> wp (k rc) (fun _ => quiet_tail m0) m1) ->
  wp (rc ← issue q; k rc) (fun _ => quiet_tail m0) m.
Proof.
  intros Hq H0 Hk. apply wp_bind. pose proof (quiet_issue q (fun _ => skip) m Hq ltac:(intros; by apply wp_skip)) as W.
  apply wp_bind_inv in W. eapply wp_mono; [exact W|]. intros rc m1 W1. apply Hk. by eapply quiet_tail_trans.
Qed.

Lemma reconcile_dns_quiet plan m : wp (reconcile_dns plan) (fun _ => quiet_tail m) m.
Proof.
  unfold reconcile_dns. apply wp_bind, wp_gets. cbv zeta. destruct (_ && _).
  - apply wp_bind. apply (wp_mono _ (fun _ => quiet_tail m)).
    + apply wp_when; intros _; [|by apply quiet_tail_refl]. apply quiet_issue; [done|]. intros rc m1 Hq.
      apply wp_when; intros _; [by apply quiet_error|done].
    + intros _ m1 Hq. apply wp_when; intros _; [|done]. apply quiet_issue_from; [done|done|].
      intros rc m2 Hq2. destruct (is_ok rc); [by apply quiet_modify|by apply quiet_error].
  - destruct (baseline m) as [[|s l]|]; [| |by apply quiet_tail_refl].
    + apply quiet_issue; [done|]. intros rc m1 Hq. by apply quiet_modify.
    + apply quiet_issue; [done|]. intros rc m1 Hq. destruct (is_ok rc); [|by apply quiet_error].
      apply wp_bind. apply (wp_mono _ (fun _ => quiet_tail m)); [by apply quiet_modify|]. intros _ m2 Hq2.
      by apply quiet_issue_from.
Qed.

Lemma reconcile_trace (plan : RoutePlan) (m : t) :
  Forall (fun w => ri_ifname w ∈ managed_ifnames plan) (routes plan) ->
  wp (reconcile plan) (fun _ m' => exists tail dels new,
      calls m' = tail ++ dels ++ new ++ calls m
      /\ Forall (adds plan) new /\ Forall (deletes plan m) dels /\ Forall names tail
      /\ Forall (fun c : call => safe_table plan m c.2) (tail ++ dels ++ new)
      /\ safe_table plan m (table m')) m.
Proof.
  intros Hwf.
  unfold reconcile. apply wp_bind, wp_modify, wp_bind, wp_gets. simpl.
  destruct (negb (rb_readable (calls m))).
  { apply wp_bind, wp_modify, wp_gets. exists [], [], []. simpl. do 5 (split; [done|]). split; [done|].
    intros w d _ Hd Hi. by exists d. }
  apply wp_bind.
  apply (wp_mono _ (fun _ => phase1 plan m)).
  { eapply wp_mono.
    - apply (wp_for_each _ _ (fun l m' => (forall w, w ∈ l -> w ∈ routes plan) /\ phase1 plan m m')).
      + split; [done|]. split; [done|done|by intros i ?%not_elem_of_nil|]. exists []. by repeat split.
      + intros w l m2 [Hl P]. apply (wp_mono _ (fun _ => phase1 plan m)); [apply install_phase1; [exact Hwf|apply Hl; by apply elem_of_cons; left|exact P]|].
        intros _ m3 P3. split; [|done]. intros w' Hw'. apply Hl. by apply elem_of_cons; right.
    - by intros _ m2 [_ P]. }
  intros _ m2 P1. apply wp_bind.
  apply (wp_mono _ (fun _ => phase2 plan m (installed m2))).
  { eapply wp_mono.
    - apply (wp_for_each _ _ (fun l m' => (forall d, d ∈ l -> d ∈ table m) /\ phase2 plan m (installed m2) m')).
      + split; [done|]. destruct P1 as [H1 H2 H3 (new & Hc & Ha & Hs)]. split; [done|done|done| |].
        * intros w d _ _ Hd _. by apply H1.
        * exists [], new. by rewrite app_nil_l.
      + intros d l m3 [Hl P]. apply (wp_mono _ (fun _ => phase2 plan m (installed m2))); [apply sweep_phase2; [apply Hl; by apply elem_of_cons; left|exact P]|].
        intros _ m4 P4. split; [|done]. intros w' Hw'. apply Hl. by apply elem_of_cons; right.
    - by intros _ m3 [_ P]. }
  intros _ m3 P2. apply wp_bind. pose proof (phase2_safe _ _ _ _ P2) as Hsafe.
  wp_call (reconcile_dns_quiet plan m3). intros _ m4 (Ht & tail & Hc & Hn & Hst). apply wp_gets.
  destruct P2 as [_ _ _ _ (dels & new & Hc3 & Ha & Hd & Hs)]. exists tail, dels, new.
  split; [by rewrite Hc, Hc3|]. do 3 (split; [done|]). rewrite Ht. split; [|done].
  apply Forall_app. split; [|done]. eapply Forall_impl; [exact Hst|]. intros c ->. exact Hsafe.
Qed.

(** C6. Reconciling never cuts the camera off.  Whatever the backend answers,
    every request of a reconciliation leaves a table in which each interface
    the plan routes through still has a default route if it had one before, and
    the routes of interfaces no uplink owns are untouched; all routes are added
    before the first is deleted, and only managed routes that the plan does not
    want are deleted. *)
Theorem reconcile_never_cuts_off (plan : RoutePlan) (m : t) :
  Forall (fun w => ri_ifname w ∈ managed_ifnames plan) (routes plan) ->
  let m' := exec (reconcile plan) m in
  exists tail dels new, calls m' = tail ++ dels ++ new ++ calls m
    /\ Forall (adds plan) new /\ Forall (deletes plan m) dels /\ Forall names tail
    /\ Forall (fun c : call => safe_table plan m c.2) (tail ++ dels ++ new)
    /\ safe_table plan m (table m').
Proof. intros Hwf m'. exact (reconcile_trace plan m Hwf). Qed.

(** ** Convergence *)

(** The kernel is as the plan wants it. *)
Record settled (plan : RoutePlan) (m : t) : Prop := {
  st_routes : forall d, dr_ifname d ∈ managed_ifnames plan -> d ∈ table m <-> wanted plan d;
  st_dns : if negb (bool_decide (dns_owner plan = ""%string)) && negb (bool_decide (plan_dns plan = []))
           then resolvers m = plan_dns plan /\ baseline m <> None else baseline m = None
}.

Definition same_kernel (m m' : t) : Prop :=
  table m' = table m /\ resolvers m' = resolvers m /\ baseline m' = baseline m /\ calls m' = calls m.

Section Converge.
Context (Hread : forall h, rb_readable h = true) (Hknown : forall h, rb_dns_known h = true).
Context (Hok : forall h q, is_ok (rb_answer h q) = true).
Context (plan : RoutePlan) (Hwf : Forall (fun w => ri_ifname w ∈ managed_ifnames plan) (routes plan)).

Lemma settled_noop m :
  settled plan m ->
  wp (reconcile plan) (fun r m' => same_kernel m m' /\ changed r = false /\ error r = ""%string) m.
Proof using Hread Hknown Hwf.
  intros [Sr Sd]. unfold reconcile. apply wp_bind, wp_modify, wp_bind, wp_gets. rewrite Hread. cbn [negb].
  set (quiet := fun m' => same_kernel m m' /\ rep m' = ReconcileReport_default).
  apply wp_bind. apply (wp_mono _ (fun _ => quiet)).
  { eapply wp_mono; [apply (wp_for_each _ _ (fun l m' => (forall w, w ∈ l -> w ∈ routes plan) /\ quiet m'))|by intros ? ? [_ ?]].
    - by repeat split.
    - intros w l m1 [Hl [Q1 Q2]]. assert (Hw : w ∈ routes plan) by (apply Hl; by apply elem_of_cons; left).
      unfold install. assert (existsb (fun have => same_route have w) (table m) = true) as E.
      { apply existsb_exists. exists (route_of w). split; [|unfold same_route; by apply bool_decide_eq_true].
        apply list_elem_of_In. apply Sr; [|by exists w]. rewrite Forall_forall in Hwf. by apply Hwf. }
      simpl in *. rewrite E. apply wp_modify. split; [|done]. intros w' Hw'. apply Hl. by apply elem_of_cons; right. }
  intros _ m1 Q1. apply wp_bind. apply (wp_mono _ (fun _ => quiet)).
  { eapply wp_mono; [apply (wp_for_each _ _ (fun l m' => (forall d, d ∈ l -> d ∈ table m) /\ quiet m'))|by intros ? ? [_ ?]].
    - by split.
    - intros d l m2 [Hl Q2]. assert (Hd : d ∈ table m) by (apply Hl; by apply elem_of_cons; left).
      assert (Hl' : forall d, d ∈ l -> d ∈ table m) by (intros d' Hd'; apply Hl; by apply elem_of_cons; right).
      unfold sweep. apply wp_bind, wp_gets. unfold managed.
      destruct (bool_decide (dr_ifname d ∈ _)) eqn:Hm; cbn [negb]; [|by apply wp_skip]. bool_simpl.
      assert (existsb (fun want => same_route d want) (routes plan) = true) as ->; [|by apply wp_skip].
      apply existsb_wanted. by apply Sr. }
  intros _ m2 [(Ht & Hr & Hb & Hc) Hrep]. apply wp_bind. apply (wp_mono _ (fun _ => quiet)).
  { unfold reconcile_dns. apply wp_bind, wp_gets. cbv zeta. rewrite Hb, Hr, Hknown.
    destruct (negb (bool_decide (dns_owner plan = ""%string)) && _).
    - destruct Sd as [-> Sb]. rewrite (bool_decide_false (baseline m = None)) by done.
      rewrite (bool_decide_true (plan_dns plan = plan_dns plan)) by done. cbn [negb orb when].
      by apply wp_bind, wp_skip, wp_skip.
    - rewrite Sd. by apply wp_skip. }
  intros _ m3 [Q3 Hrep3]. apply wp_gets. rewrite Hrep3. done.
Qed.

(** A request that is granted. *)
Lemma issue_granted q (Q : Result -> t -> Prop) m :
  (forall rc, is_ok rc = true -> Q rc (effect q m <| calls ::= cons (q, rc, table (effect q m)) |>)) -> wp (issue q) Q m.
Proof using Hok. intros H. apply issue_spec. intros rc ->. cbv zeta. specialize (H _ (Hok (calls m) q)). by rewrite Hok. Qed.

(** The routes, and what the resolver part sees of them. *)
Definition same_names (m m' : t) : Prop := resolvers m' = resolvers m /\ baseline m' = baseline m /\ error (rep m') = ""%string.

Lemma install_all m (Hrep : error (rep m) = ""%string) :
  wp (for_each (routes plan) (install (table m))) (fun _ m' => same_names m m'
    /\ (forall d, d ∈ table m' <-> d ∈ table m \/ wanted plan d)
    /\ (forall w, w ∈ routes plan -> ri_ifname w ∈ installed m')) m.
Proof using Hok.
  eapply wp_mono; [apply (wp_for_each _ _ (fun l m' => same_names m m'
      /\ exists pre, routes plan = pre ++ l
         /\ (forall d, d ∈ table m' <-> d ∈ table m \/ exists w, w ∈ pre /\ d = route_of w)
         /\ (forall w, w ∈ pre -> ri_ifname w ∈ installed m')))|].
  - split; [done|]. exists []. split; [done|]. split; [|by intros w ?%not_elem_of_nil].
    intros d. split; [by left|]. intros [?|(w & ?%not_elem_of_nil & _)]; done.
  - intros w l m1 [Hn (pre & Hp & Ht & Hi)]. unfold install.
    assert (Hin : forall w' l' m', w' ∈ pre ++ [w] -> installed m' = l' -> l' = installed m1 ++ [ri_ifname w] ->
              ri_ifname w' ∈ installed m').
    { intros w' l' m' Hw' -> ->. apply elem_of_app. apply elem_of_app in Hw' as [Hw'|Hw'].
      - left. by apply Hi.
      - right. apply list_elem_of_singleton in Hw' as ->. by apply list_elem_of_singleton. }
    assert (Hpre : forall d, (exists w', w' ∈ pre ++ [w] /\ d = route_of w') <-> (exists w', w' ∈ pre /\ d = route_of w') \/ d = route_of w).
    { intros d. setoid_rewrite elem_of_app. setoid_rewrite list_elem_of_singleton. naive_solver. }
    destruct (existsb _ (table m)) eqn:E.
    + apply wp_modify. split; [exact Hn|]. exists (pre ++ [w]). split; [by rewrite <- app_assoc|].
      split; [|intros w' Hw'; by eapply Hin].
      apply existsb_exists in E as (d0 & Hd0 & E). unfold same_route in E. bool_simpl. subst d0.
      apply list_elem_of_In in Hd0. intros d. simpl. rewrite Ht, Hpre. naive_solver.
    + apply wp_bind, issue_granted. intros rc ->. apply wp_modify. split; [exact Hn|]. exists (pre ++ [w]).
      split; [by rewrite <- app_assoc|]. split; [|intros w' Hw'; by eapply Hin].
      intros d. simpl. rewrite elem_of_app, Ht, Hpre, list_elem_of_singleton. tauto.
  - intros _ m1 [Hn (pre & Hp & Ht & Hi)]. rewrite app_nil_r in Hp. subst pre. split; [exact Hn|]. split; [|exact Hi]. exact Ht.
Qed.

Lemma sweep_all (actual : list DefaultRoute) m :
  error (rep m) = ""%string -> (forall w, w ∈ routes plan -> ri_ifname w ∈ installed m) ->
  wp (for_each actual (sweep plan)) (fun _ m' => same_names m m'
    /\ forall d, d ∈ table m' <-> d ∈ table m /\ ~ (d ∈ actual /\ dr_ifname d ∈ managed_ifnames plan /\ ~ wanted plan d)) m.
Proof using Hok.
  intros Hrep Hinst.
  eapply wp_mono; [apply (wp_for_each _ _ (fun l m' => same_names m m' /\ installed m' = installed m
      /\ exists pre, actual = pre ++ l /\ forall d, d ∈ table m' <-> d ∈ table m
            /\ ~ (d ∈ pre /\ dr_ifname d ∈ managed_ifnames plan /\ ~ wanted plan d)))|].
  - split; [done|]. split; [done|]. exists []. split; [done|]. intros d. pose proof (not_elem_of_nil d). tauto.
  - intros x l m1 (Hn & Hi & pre & Hp & Ht).
    assert (Hpre : actual = (pre ++ [x]) ++ l) by (by rewrite <- app_assoc).
    assert (Hx : forall d, d ∈ pre ++ [x] <-> d ∈ pre \/ d = x).
    { intros d. by rewrite elem_of_app, list_elem_of_singleton. }
    unfold sweep. apply wp_bind, wp_gets. rewrite Hi.
    destruct (negb (managed plan (dr_ifname x))) eqn:E1; [|destruct (existsb _ (routes plan)) eqn:E2].
    + apply wp_skip. split; [done|]. split; [done|]. exists (pre ++ [x]). split; [done|]. unfold managed in E1. bool_simpl.
      intros d. rewrite Ht, Hx. naive_solver.
    + apply wp_skip. split; [done|]. split; [done|]. exists (pre ++ [x]). split; [done|].
      apply existsb_wanted in E2. intros d. rewrite Ht, Hx. naive_solver.
    + unfold managed in E1. bool_simpl.
      assert (Hnw : ~ wanted plan x) by (rewrite <- existsb_wanted, E2; done).
      destruct (bool_decide _ && _) eqn:E3.
      { apply andb_true_iff in E3 as [Ef0 E3]. bool_simpl. exfalso. unfold find in Ef0.
        destruct (first_of _ (routes plan)) as [w|] eqn:Ef; [|done].
        apply Connectivity.first_of_some in Ef as [Ew Hw]. bool_simpl. specialize (Hinst w Hw). rewrite Ew in Hinst. done. }
      apply wp_bind, issue_granted. intros rc ->. apply wp_modify. split; [exact Hn|]. split; [exact Hi|].
      exists (pre ++ [x]). split; [done|]. intros d. simpl. rewrite list_elem_of_filter, Ht, Hx. naive_solver.
  - intros _ m1 (Hn & _ & pre & Hp & Ht). rewrite app_nil_r in Hp. subst pre. split; [exact Hn|exact Ht].
Qed.

Definition owns_dns : bool := negb (bool_decide (dns_owner plan = ""%string)) && negb (bool_decide (plan_dns plan = [])).

(** The resolver file and the baseline, as a function of what they were. *)
Definition dns_after (file : list string) (saved : option (list string)) : list string * option (list string) :=
  if owns_dns then (plan_dns plan, Some (default file saved))
  else (match saved with Some (s :: l) => s :: l | _ => file end, None).

Lemma dns_all m :
  error (rep m) = ""%string ->
  wp (reconcile_dns plan) (fun _ m' => table m' = table m
    /\ (resolvers m', baseline m') = dns_after (resolvers m) (baseline m)
    /\ (baseline m <> Some [] -> error (rep m') = ""%string)) m.
Proof using Hok Hknown.
  intros Hrep. unfold reconcile_dns, dns_after, owns_dns. apply wp_bind, wp_gets. cbv zeta. rewrite Hknown. cbn [negb orb].
  destruct (negb _ && _).
  - apply wp_bind. apply (wp_mono _ (fun _ m' => table m' = table m /\ resolvers m' = resolvers m
       /\ baseline m' = Some (default (resolvers m) (baseline m)) /\ error (rep m') = ""%string)).
    { destruct (baseline m) as [b|] eqn:Eb; [by apply wp_skip|]. cbn [when]. rewrite bool_decide_true by done.
      apply wp_bind, issue_granted. intros rc ->. by apply wp_skip. }
    intros _ m1 (Ht & Hr & Hb & He). apply wp_when; intros Hc; bool_simpl.
    + apply wp_bind, issue_granted. intros rc ->. apply wp_modify. simpl. by rewrite Hb.
    + by rewrite Hr, Hb, Hc.
  - destruct (baseline m) as [[|x l]|] eqn:Eb.
    + apply wp_bind, issue_granted. intros rc _. by apply wp_modify.
    + apply wp_bind, issue_granted. intros rc ->. apply wp_bind, wp_modify, wp_bind, issue_granted.
      intros rc' _. by apply wp_skip.
    + apply wp_skip. by rewrite Eb.
Qed.

Lemma reconcile_all m :
  wp (reconcile plan) (fun r m' =>
    (forall d, d ∈ table m' <-> (d ∈ table m \/ wanted plan d)
        /\ ~ (d ∈ table m /\ dr_ifname d ∈ managed_ifnames plan /\ ~ wanted plan d))
    /\ (resolvers m', baseline m') = dns_after (resolvers m) (baseline m)
    /\ (baseline m <> Some [] -> error r = ""%string)) m.
Proof using Hok Hknown Hread.
  unfold reconcile. apply wp_bind, wp_modify, wp_bind, wp_gets. rewrite Hread. cbn [negb]. apply wp_bind.
  wp_call (install_all (m <| rep := ReconcileReport_default |> <| installed := [] |>) ltac:(done)). intros _ m1 ((Hr1 & Hb1 & He1) & Ht1 & Hi). apply wp_bind.
  simpl in *. wp_call (sweep_all (table m) m1 He1 Hi). intros _ m2 ((Hr2 & Hb2 & He2) & Ht2). apply wp_bind.
  wp_call (dns_all m2 He2). intros _ m3 (Ht3 & Hd & He). apply wp_gets.
  rewrite Hr2, Hb2, Hr1, Hb1 in *. split; [|split; [exact Hd|exact He]].
  intros d. by rewrite Ht3, Ht2, Ht1.
Qed.

Lemma reconcile_settles m : settled plan (exec (reconcile plan) m).
Proof using Hok Hknown Hread Hwf.
  pose proof (reconcile_all m) as (Ht & Hd & _). fold (exec (reconcile plan) m) in *.
  assert (Hw : forall d, wanted plan d -> dr_ifname d ∈ managed_ifnames plan).
  { intros d (w & Hw & ->). rewrite Forall_forall in Hwf. by apply Hwf. }
  assert (Hdec : forall d, wanted plan d \/ ~ wanted plan d).
  { intros d. rewrite <- existsb_wanted. destruct (existsb _ _); [by left|by right]. }
  split.
  - intros d Hm. rewrite Ht. specialize (Hdec d). tauto.
  - unfold dns_after, owns_dns in Hd. destruct (negb _ && _); [|congruence]. by injection Hd as -> ->.
Qed.
End Converge.

(** C11. Reconciling converges and is then silent.  With a backend that grants
    what it is asked, one reconciliation leaves exactly the planned default
    routes on the managed interfaces, the planned resolvers in the file (or the
    file given back), and the next reconciliation of the same plan makes no
    request at all, so a tick per second does not rewrite the routing table per
    second. *)
Theorem reconcile_converges (plan : RoutePlan) (m : t) :
  (forall h, rb_readable h = true) -> (forall h, rb_dns_known h = true) ->
  (forall h q, is_ok (rb_answer h q) = true) ->
  Forall (fun w => ri_ifname w ∈ managed_ifnames plan) (routes plan) ->
  let m' := exec (reconcile plan) m in
  settled plan m'
  /\ foreign plan (table m') = foreign plan (table m)
  /\ (baseline m <> Some [] -> error (result (reconcile plan) m) = ""%string)
  /\ same_kernel m' (exec (reconcile plan) m') /\ changed (result (reconcile plan) m') = false.
Proof.
  intros Hread Hknown Hok Hwf m'.
  pose proof (reconcile_settles Hread Hknown Hok plan Hwf m) as Hs. fold m' in Hs. split; [exact Hs|].
  split; [|split].
  - destruct (reconcile_trace plan m Hwf) as (tl & dl & nw & _ & _ & _ & _ & _ & [Hf _]). exact Hf.
  - pose proof (reconcile_all Hread Hknown Hok plan m) as (_ & _ & He). exact He.
  - pose proof (settled_noop Hread Hknown plan Hwf m' Hs) as (Hk & Hc & _). done.
Qed.

(** The resolvers come back.  Through any sequence of plans, the recorded
    baseline is what the resolver file said before the first takeover, and as
    soon as no uplink owns the resolvers the file says it again. *)
Theorem resolvers_come_back (plans : list RoutePlan) (last : RoutePlan) (m : t) :
  (forall h, rb_readable h = true) -> (forall h, rb_dns_known h = true) ->
  (forall h q, is_ok (rb_answer h q) = true) ->
  baseline m = None -> resolvers m <> [] ->
  let m' := foldl (fun m p => exec (reconcile p) m) m plans in
  (baseline m' = None /\ resolvers m' = resolvers m \/ baseline m' = Some (resolvers m))
  /\ (owns_dns last = false -> let m'' := exec (reconcile last) m' in
        resolvers m'' = resolvers m /\ baseline m'' = None).
Proof.
  intros Hread Hknown Hok Hb Hne m'.
  assert (Hm' : baseline m' = None /\ resolvers m' = resolvers m \/ baseline m' = Some (resolvers m)).
  { unfold m'. clear m'. assert (G : forall m1, baseline m1 = None /\ resolvers m1 = resolvers m \/ baseline m1 = Some (resolvers m) ->
      let m' := foldl (fun m p => exec (reconcile p) m) m1 plans in
      baseline m' = None /\ resolvers m' = resolvers m \/ baseline m' = Some (resolvers m)); [|apply G; by left].
    induction plans as [|p ps IH]; intros m1 H1; [done|]. apply IH.
    pose proof (reconcile_all Hread Hknown Hok p m1) as (_ & Hd & _). unfold dns_after in Hd.
    cbv beta. destruct (owns_dns p); injection Hd as Hr Hbb; rewrite Hbb, Hr.
    - right. destruct H1 as [[-> ->]| ->]; done.
    - left. destruct H1 as [[-> ->]| ->]; [done|]. by destruct (resolvers m). }
  split; [exact Hm'|]. intros Ho. cbv zeta.
  pose proof (reconcile_all Hread Hknown Hok last m') as (_ & Hd & _). unfold dns_after in Hd. rewrite Ho in Hd.
  injection Hd as Hr Hbb. split; [|exact Hbb]. rewrite Hr.
  destruct Hm' as [[-> ->]| ->]; [done|]. by destruct (resolvers m).
Qed.
End Manager.

(** ** Instances *)

#[local] Instance willing : RouteBackend :=
  {| rb_readable _ := true; rb_answer _ _ := Res.ok; rb_dns_known _ := true |}.

Definition eth : UplinkStatus :=
  mkStatus "eth0" Ethernet Connected (mkInfo "eth0" "192.168.1.9" "255.255.255.0" "192.168.1.1" "" true false).
Definition lte : UplinkStatus :=
  mkStatus "lte1" Cellular Connected (mkInfo "usb0" "10.0.0.2" "255.255.255.255" "10.0.0.1" "9.9.9.9, 1.1.1.1" true true).

Definition lte_plan : RoutePlan := plan_routes [eth; lte] UplinkPolicy_default "lte1".
Definition eth_plan : RoutePlan := plan_routes [eth; lte] UplinkPolicy_default "eth0".

(** The boot scripts have given Ethernet metric 0; a VPN has a route of its own. *)
Definition booted : t :=
  mk [mkRoute "eth0" "192.168.1.1" 0; mkRoute "tun0" "" 50] ["192.168.1.1"]%string None [] ReconcileReport_default [].

Example lte_wins : table (exec (reconcile lte_plan) booted)
  = [mkRoute "tun0" "" 50; mkRoute "usb0" "10.0.0.1" 10; mkRoute "eth0" "192.168.1.1" 100].
Proof. vm_compute. reflexivity. Qed.

Lemma lte_plan_managed : Forall (fun w => ri_ifname w ∈ managed_ifnames lte_plan) (routes lte_plan).
Proof. apply (bool_decide_unpack _). vm_compute. exact I. Qed.

Lemma never_cuts_off_witness :
  let m' := exec (reconcile lte_plan) booted in
  exists tail dels new, calls m' = tail ++ dels ++ new ++ calls booted
    /\ Forall (adds lte_plan) new /\ Forall (deletes lte_plan booted) dels /\ Forall names tail
    /\ Forall (fun c : call => safe_table lte_plan booted c.2) (tail ++ dels ++ new)
    /\ safe_table lte_plan booted (table m').
Proof. apply (reconcile_never_cuts_off lte_plan booted). apply lte_plan_managed. Defined.

Lemma converges_witness :
  let m' := exec (reconcile lte_plan) booted in
  settled lte_plan m'
  /\ foreign lte_plan (table m') = foreign lte_plan (table booted)
  /\ (baseline booted <> Some [] -> error (result (reconcile lte_plan) booted) = ""%string)
  /\ same_kernel m' (exec (reconcile lte_plan) m') /\ changed (result (reconcile lte_plan) m') = false.
Proof. apply (reconcile_converges lte_plan booted); try reflexivity. apply lte_plan_managed. Defined.

Lemma come_back_witness :
  let m' := foldl (fun m p => exec (reconcile p) m) booted [lte_plan; eth_plan; lte_plan] in
  resolvers m' = ["9.9.9.9"; "1.1.1.1"]%string
  /\ (baseline m' = None /\ resolvers m' = resolvers booted \/ baseline m' = Some (resolvers booted))
  /\ (owns_dns eth_plan = false -> let m'' := exec (reconcile eth_plan) m' in
        resolvers m'' = resolvers booted /\ baseline m'' = None).
Proof.
  split; [vm_compute; reflexivity|].
  apply (resolvers_come_back [lte_plan; eth_plan; lte_plan] eth_plan booted); try reflexivity. discriminate.
Defined.

(** When the first recording of the baseline fails and the takeover succeeds
    all the same, the next reconciliation records the resolvers of the takeover
    itself: giving the file back then restores nothing. *)
Definition flaky : RouteBackend :=
  {| rb_readable _ := true;
     rb_answer h q := match h, q with [_; _; _], SetBaseline _ => Res.error (-1) | _, _ => Res.ok end;
     rb_dns_known _ := true |}.

Example own_servers_recorded :
  let m1 := exec (@reconcile flaky lte_plan) booted in
  let m2 := exec (@reconcile flaky lte_plan) m1 in
  let m3 := exec (@reconcile flaky eth_plan) m2 in
  resolvers m1 = ["9.9.9.9"; "1.1.1.1"]%string /\ baseline m1 = None
  /\ baseline m2 = Some ["9.9.9.9"; "1.1.1.1"]%string
  /\ resolvers m3 = ["9.9.9.9"; "1.1.1.1"]%string.
Proof. vm_compute. repeat split; reflexivity. Qed.
