(* ===== verification/At.v ===== *)
(** * Answers of the modem

    [core/cellular/at_framing.{hpp,cpp}]: when an answer to an AT command is
    complete; [core/cellular/at_parse.{hpp,cpp}]: what it says.  Text in,
    structure out: a value that cannot be read is absent. *)

From S2P Require Import Prelude Text.

(** ** Lines *)

Definition CR : ascii := "013".
Definition TAB : ascii := "009".
Definition QUOTE : ascii := "034".

(** The characters [trim] takes off. *)
Definition is_blank (c : ascii) : bool :=
  Ascii.eqb c " " || Ascii.eqb c TAB || Ascii.eqb c CR || Ascii.eqb c NL.

Fixpoint drop_blank (s : text) : text :=
  match s with
  | [] => []
  | c :: s' => if is_blank c then drop_blank s' else s
  end.

Definition trim (s : text) : text := rev (drop_blank (rev (drop_blank s))).

(** The lines between newlines, the last one included even when empty. *)
Fixpoint raw_lines (buf cur : text) : list text :=
  match buf with
  | [] => [cur]
  | c :: buf' => if Ascii.eqb c NL then cur :: raw_lines buf' [] else raw_lines buf' (cur ++ [c])
  end.

Definition lines_of (buf : text) : list text := map trim (raw_lines buf []).

Fixpoint starts_with (s p : text) : bool :=
  match p, s with
  | [], _ => true
  | c :: p', x :: s' => Ascii.eqb x c && starts_with s' p'
  | _ :: _, [] => false
  end.

Definition contains (s : text) (p : string) : bool := bool_decide (find_text (txt p) s <> None).
Definition is_line (s : text) (p : string) : bool := text_eqb s (txt p).

(** ** Framing *)

Inductive AtResult := Pending | AtOk | AtError.

#[export] Instance AtResult_eq : EqDecision AtResult.
Proof. solve_decision. Defined.

(** What one line says about the end of the answer. *)
Definition line_result (l : text) : AtResult :=
  if is_line l "OK" then AtOk
  else if is_line l "ERROR" || is_line l "NO CARRIER" || is_line l "NO ANSWER" || is_line l "NO DIALTONE" || is_line l "BUSY" then AtError
  else if starts_with l (txt "+CME ERROR:") || starts_with l (txt "+CMS ERROR:") then AtError
  else Pending.

Fixpoint scan_lines (ls : list text) : AtResult :=
  match ls with
  | [] => Pending
  | l :: ls' =>
      if bool_decide (l = []) then scan_lines ls'
      else match line_result l with Pending => scan_lines ls' | r => r end
  end.

(** [at_scan]. *)
Definition at_scan (buf : text) : AtResult := scan_lines (lines_of buf).

(** Whether [at_payload] keeps a line. *)
Definition payload_line (cmd l : text) : bool :=
  negb (bool_decide (l = []))
  && negb (negb (bool_decide (cmd = [])) && text_eqb l cmd)
  && negb (is_line l "OK" || is_line l "ERROR")
  && negb (starts_with l (txt "+CME ERROR:") || starts_with l (txt "+CMS ERROR:")).

Definition append_line (out l : text) : text := if bool_decide (out = []) then l else out ++ NL :: l.

(** [at_payload]. *)
Definition at_payload (buf command : text) : text :=
  foldl (fun out l => if payload_line (trim command) l then append_line out l else out) [] (lines_of buf).

(** ** Fields *)

(** [strtol] in base 10 on an optional sign and digits, saturated to 32 bits. *)
Definition strtol (neg : bool) (digits : text) : Z :=
  let v := dec_value digits in if neg then Z.max (- v) (- 2 ^ 31) else Z.min v (2 ^ 31 - 1).

(** [as_int]. *)
Definition as_int (field : text) : option Z :=
  match trim field with
  | [] => None
  | c :: s' =>
      let signed := Ascii.eqb c "-" || Ascii.eqb c "+" in
      let digits := if signed then s' else c :: s' in
      if bool_decide (digits = []) || negb (forallb is_digit digits) then None
      else Some (strtol (Ascii.eqb c "-") digits)
  end.

(** [leading_number]: the first run of digits, in [int] arithmetic. *)
Fixpoint leading_loop (s : text) (n : Z) (any : bool) : option Z :=
  match s with
  | [] => if any then Some n else None
  | c :: s' =>
      if is_digit c then leading_loop s' (i32 (n * 10 + digit_value c)) true
      else if any then Some n else leading_loop s' n any
  end.
Definition leading_number (s : text) : option Z := leading_loop s 0 false.

(** [at_extract]. *)
Definition at_extract (raw : text) (prefix : string) : text :=
  match find_text (txt prefix) raw with
  | None => []
  | Some p =>
      let start := Z.of_nat p + size (txt prefix) in
      let fin := default (size raw) (find_char NL raw start) in
      trim (substr raw start (fin - start))
  end.

(** The loop of [csv_field]. *)
Fixpoint csv_loop (line : text) (idx field : Z) (quoted : bool) (cur : text) : text :=
  match line with
  | [] => if field =? idx then trim cur else []
  | c :: line' =>
      if Ascii.eqb c QUOTE then csv_loop line' idx field (negb quoted) cur
      else if Ascii.eqb c "," && negb quoted then
        if field =? idx then trim cur else csv_loop line' idx (field + 1) quoted []
      else csv_loop line' idx field quoted (cur ++ [c])
  end.

(** [csv_field]. *)
Definition csv_field (line : text) (idx : Z) : text := csv_loop line idx 0 false [].

(** [first_numeric_line]. *)
Definition first_numeric_line (raw : text) : text :=
  default [] (List.find (fun l => (6 <=? size l) && forallb is_digit l) (lines_of raw)).

(** ** The LTE bands ([band_plan]) *)

Record LteBand := mkBand { num : Z; mhz : Z; bit : Z; tdd : bool }.

Definition lte_bands : list LteBand :=
  [mkBand 1 2100 0 false; mkBand 3 1800 2 false; mkBand 5 850 4 false; mkBand 7 2600 6 false;
   mkBand 8 900 7 false; mkBand 20 800 19 false; mkBand 28 700 27 false; mkBand 38 2600 37 true;
   mkBand 40 2300 39 true; mkBand 41 2500 40 true].

Definition lte_band_by_number (n : Z) : option LteBand := List.find (fun b => num b =? n) lte_bands.

Definition lte_band_mhz (band : Z) : Z := match lte_band_by_number band with Some b => mhz b | None => 0 end.

(** ** What the answers say *)

Record ModemIdentity := mkIdentity { manufacturer : text; model : text; firmware : text }.

Fixpoint model_after (ls : list text) : text :=
  match ls with
  | [] => []
  | l :: ls' =>
      if bool_decide (l = []) then model_after ls'
      else if starts_with l (txt "Revision:") then [] else l
  end.

Fixpoint quectel_lines (ls : list text) : text * text :=
  match ls with
  | [] => ([], [])
  | l :: ls' => if negb (bool_decide (l = [])) && contains l "Quectel" then (l, model_after ls') else quectel_lines ls'
  end.

Definition parse_ati (raw : text) : ModemIdentity :=
  let '(man, mdl) := quectel_lines (lines_of raw) in mkIdentity man mdl (at_extract raw "Revision:").

Inductive SimState := SimUnknown | SimReady | PinRequired | PukRequired | NotInserted | SimError.

#[export] Instance SimState_eq : EqDecision SimState.
Proof. solve_decision. Defined.

Definition sim_state_name (s : SimState) : string :=
  match s with
  | SimReady => "ready" | PinRequired => "pin_required" | PukRequired => "puk_required"
  | NotInserted => "not_inserted" | SimError => "error" | SimUnknown => "unknown"
  end.

Definition parse_cpin (raw : text) : SimState :=
  if contains raw "READY" then SimReady
  else if contains raw "SIM PUK2" then SimUnknown
  else if contains raw "SIM PIN2" then SimUnknown
  else if contains raw "SIM PUK" then PukRequired
  else if contains raw "SIM PIN" then PinRequired
  else if contains raw "CME ERROR" then NotInserted
  else if bool_decide (raw = []) then SimUnknown
  else SimError.

Inductive RegState := RegUnknown | NotRegistered | RegisteredHome | Searching | Denied | RegisteredRoaming.

#[export] Instance RegState_eq : EqDecision RegState.
Proof. solve_decision. Defined.

Definition reg_state_name (s : RegState) : string :=
  match s with
  | NotRegistered => "not_registered" | RegisteredHome => "registered_home" | Searching => "searching"
  | Denied => "registration_denied" | RegisteredRoaming => "registered_roaming" | RegUnknown => "unknown"
  end.

Definition reg_is_registered (s : RegState) : bool :=
  bool_decide (s = RegisteredHome) || bool_decide (s = RegisteredRoaming).

Definition parse_cereg (raw : text) : RegState :=
  let body := at_extract raw "+CEREG:" in
  if bool_decide (body = []) then RegUnknown else
  match as_int (csv_field body 1) with
  | Some 0 => NotRegistered
  | Some 1 => RegisteredHome
  | Some 2 => Searching
  | Some 3 => Denied
  | Some 5 => RegisteredRoaming
  | _ => RegUnknown
  end.

Record SignalInfo := mkSignal { csq : option Z; rssi_dbm : option Z }.

Definition parse_csq (raw : text) : SignalInfo :=
  let body := at_extract raw "+CSQ:" in
  match as_int (csv_field body 0) with
  | Some v =>
      if bool_decide (body = []) || (v =? 99) || (v <? 0) || (31 <? v) then mkSignal None None
      else mkSignal (Some v) (Some (-113 + 2 * v))
  | None => mkSignal None None
  end.

Record OperatorInfo := mkOperator { oper_name : text; oper_act : option Z }.

Definition parse_cops (raw : text) : OperatorInfo :=
  let body := at_extract raw "+COPS:" in
  if bool_decide (body = []) then mkOperator [] None
  else mkOperator (csv_field body 2) (as_int (csv_field body 3)).

Record NwInfo := mkNw { nw_rat : text; oper_code : text; nw_band : text; nw_channel : option Z }.

Definition parse_qnwinfo (raw : text) : NwInfo :=
  let body := at_extract raw "+QNWINFO:" in
  if bool_decide (body = []) then mkNw [] [] [] None
  else mkNw (csv_field body 0) (csv_field body 1) (csv_field body 2) (as_int (csv_field body 3)).

Record ServingCell := mkCell {
  c_state : text; c_rat : text; c_mcc : text; c_mnc : text; c_cell_id : text; c_tac : text;
  c_pci : option Z; c_earfcn : option Z; c_band : option Z; c_band_mhz : option Z;
  c_rsrp : option Z; c_rsrq : option Z; c_rssi : option Z; c_sinr : option Z
}.

Definition ServingCell_default : ServingCell :=
  mkCell [] [] [] [] [] [] None None None None None None None None.

Definition parse_qeng_servingcell (raw : text) : ServingCell :=
  let body := at_extract raw "+QENG:" in
  if bool_decide (body = []) then ServingCell_default
  else if negb (is_line (csv_field body 0) "servingcell") then ServingCell_default
  else
    let f i := csv_field body i in
    let n i := as_int (csv_field body i) in
    let band := leading_number (f 9) in
    mkCell (f 1) (f 2) (f 4) (f 5) (f 6) (f 12) (n 7) (n 8) band
      (match band with Some b => let m := lte_band_mhz b in if m =? 0 then None else Some m | None => None end)
      (n 13) (n 14) (n 15) (n 16).

Record PdpAddress := mkPdp { pdp_ipv4 : text; pdp_ipv6 : text }.

Definition parse_cgpaddr (raw : text) : PdpAddress :=
  let body := at_extract raw "+CGPADDR:" in
  let address i := let f := csv_field body i in if is_line f "0.0.0.0" then [] else f in
  if bool_decide (body = []) then mkPdp [] [] else mkPdp (address 1) (address 2).

(** The parts between dots; an empty part at the end is dropped. *)
Fixpoint dot_parts (field cur : text) : list text :=
  match field with
  | [] => if bool_decide (cur = []) then [] else [cur]
  | c :: field' => if Ascii.eqb c "." then cur :: dot_parts field' [] else dot_parts field' (cur ++ [c])
  end.

(** The lambda [join]: a dot goes in front of a part unless nothing is written yet. *)
Definition join_parts (parts : list text) : text :=
  foldl (fun s p => (if bool_decide (s = []) then s else s ++ txt ".") ++ p) [] parts.

Definition split_addr_mask (field : text) : text * text :=
  let parts := dot_parts field [] in
  if (length parts =? 8)%nat then (join_parts (take 4 parts), join_parts (drop 4 parts))
  else if (length parts =? 4)%nat then (join_parts parts, [])
  else ([], []).

Record PdpContextParams := mkCtx {
  ctx_apn : text; ctx_ipv4 : text; ctx_netmask : text; ctx_gateway : text; ctx_dns1 : text; ctx_dns2 : text
}.

Definition parse_cgcontrdp (raw : text) : PdpContextParams :=
  let body := at_extract raw "+CGCONTRDP:" in
  if bool_decide (body = []) then mkCtx [] [] [] [] [] [] else
  let '(addr, mask) := split_addr_mask (csv_field body 3) in
  let gw := csv_field body 4 in
  mkCtx (csv_field body 2) (if is_line addr "0.0.0.0" then [] else addr) mask
        (if is_line gw "0.0.0.0" then [] else gw) (csv_field body 5) (csv_field body 6).

Record NeighbourCell := mkNeighbour {
  n_kind : text; n_rat : text; n_earfcn : option Z; n_pci : option Z;
  n_rsrq : option Z; n_rsrp : option Z; n_rssi : option Z; n_sinr : option Z
}.

Definition parse_neighbour (l : text) : option NeighbourCell :=
  if negb (starts_with l (txt "+QENG:")) then None else
  let body := trim (drop 6 l) in
  let what := csv_field body 0 in
  if negb (starts_with what (txt "neighbourcell")) then None else
  let n i := as_int (csv_field body i) in
  let kind := if contains what "intra" then txt "intra" else if contains what "inter" then txt "inter" else [] in
  let rat := csv_field body 1 in
  if is_line rat "LTE" then Some (mkNeighbour kind rat (n 2) (n 3) (n 4) (n 5) (n 6) (n 7))
  else Some (mkNeighbour kind rat (n 2) None None None (n 4) None).

Definition parse_qeng_neighbours (raw : text) : list NeighbourCell := omap parse_neighbour (lines_of raw).

Definition parse_clck (raw : text) : option Z :=
  let body := at_extract raw "+CLCK:" in
  if bool_decide (body = []) then None else
  match as_int (csv_field body 0) with
  | Some 0 => Some 0
  | Some 1 => Some 1
  | _ => None
  end.

Record PinCounters := mkPins { pin_left : option Z; puk_left : option Z }.

Definition parse_qpinc (raw : text) : PinCounters :=
  let body := at_extract raw "+QPINC:" in
  if bool_decide (body = []) || negb (is_line (csv_field body 0) "SC") then mkPins None None
  else mkPins (as_int (csv_field body 1)) (as_int (csv_field body 2)).

Definition parse_qcfg_int (raw : text) (name : string) : option Z :=
  let body := at_extract raw "+QCFG:" in
  if bool_decide (body = []) || negb (is_line (csv_field body 0) name) then None
  else as_int (csv_field body 1).

Definition q (s : string) : text := map (fun c => if Ascii.eqb c "'" then QUOTE else c) (txt s).

Example servingcell_read :
  let c := parse_qeng_servingcell (q "+QENG: 'servingcell','NOCONN','LTE','FDD',262,01,1A2D001,123,1300,3,5,5,8F01,-95,-11,-63,13") in
  c_band c = Some 3 /\ c_band_mhz c = Some 1800 /\ c_rsrp c = Some (-95) /\ c_sinr c = Some 13 /\ c_mcc c = txt "262".
Proof. vm_compute. repeat split; reflexivity. Qed.

Example cgcontrdp_read :
  let p := parse_cgcontrdp (q "+CGCONTRDP: 1,5,'web.vodafone.de','10.1.2.3.255.255.255.0','10.1.2.1','1.1.1.1',''") in
  ctx_ipv4 p = txt "10.1.2.3" /\ ctx_netmask p = txt "255.255.255.0" /\ ctx_gateway p = txt "10.1.2.1".
Proof. vm_compute. repeat split; reflexivity. Qed.

(** ** Framing of an answer *)

Lemma drop_blank_length s : (length (drop_blank s) <= length s)%nat.
Proof. induction s as [|c s IH]; simpl; [lia|]. destruct (is_blank c); simpl; lia. Qed.

Lemma drop_blank_same s : (length s <= length (drop_blank s))%nat -> drop_blank s = s.
Proof.
  destruct s as [|c s]; [done|]. simpl. destruct (is_blank c); [|done].
  pose proof (drop_blank_length s). simpl. lia.
Qed.

Lemma trim_same s : trim s = s -> drop_blank s = s /\ drop_blank (rev s) = rev s.
Proof.
  intros H. unfold trim in H. pose proof (drop_blank_length s) as H1.
  pose proof (drop_blank_length (rev (drop_blank s))) as H2. rewrite length_rev in H2.
  assert (Hl : length (rev (drop_blank (rev (drop_blank s)))) = length s) by (by rewrite H).
  rewrite length_rev in Hl. assert (E : drop_blank s = s) by (apply drop_blank_same; lia).
  split; [done|]. rewrite E in H. rewrite <- H at 2. by rewrite rev_involutive.
Qed.

Lemma drop_blank_head s b : drop_blank s = s -> s <> [] -> drop_blank (s ++ b) = s ++ b.
Proof.
  destruct s as [|c s]; [done|]. simpl. intros H _. destruct (is_blank c) eqn:E; [|done].
  pose proof (drop_blank_length s) as Hl. rewrite H in Hl. simpl in Hl. lia.
Qed.

(** A line as the modem sends it. *)
Definition tidy (l : text) : Prop := l <> [] /\ trim l = l /\ NL ∉ l.

Lemma trim_line l : tidy l -> trim (l ++ [CR]) = l.
Proof.
  intros (Hne & Ht & _). destruct (trim_same l Ht) as [H1 H2]. unfold trim.
  rewrite drop_blank_head by done. rewrite rev_app_distr. simpl. rewrite H2. apply rev_involutive.
Qed.

Lemma raw_lines_cons l rest cur : NL ∉ l -> raw_lines (l ++ NL :: rest) cur = (cur ++ l) :: raw_lines rest [].
Proof.
  revert cur. induction l as [|c l IH]; intros cur Hl; simpl; [by rewrite app_nil_r|].
  apply not_elem_of_cons in Hl as [Hc Hl]. destruct (Ascii.eqb c NL) eqn:E; [apply Ascii.eqb_eq in E; congruence|].
  rewrite IH by done. by rewrite <- app_assoc.
Qed.

Definition render (ls : list text) : text := concat (map (fun l => l ++ [CR; NL]) ls).

Lemma lines_render ls rest : Forall tidy ls -> lines_of (render ls ++ rest) = ls ++ lines_of rest.
Proof.
  induction 1 as [|l ls Hl Hls IH]; [done|]. unfold lines_of, render in *. cbn [map concat].
  replace ((l ++ [CR; NL]) ++ concat (map (fun l => l ++ [CR; NL]) ls) ++ rest)
    with ((l ++ [CR]) ++ NL :: (concat (map (fun l => l ++ [CR; NL]) ls) ++ rest)) by (by rewrite <- !app_assoc).
  rewrite <- (app_assoc (l ++ [CR; NL])). cbn [app].
  replace ((l ++ [CR; NL]) ++ concat (map (fun l => l ++ [CR; NL]) ls) ++ rest)
    with ((l ++ [CR]) ++ NL :: (concat (map (fun l => l ++ [CR; NL]) ls) ++ rest)) by (by rewrite <- !app_assoc).
  rewrite raw_lines_cons.
  2: { apply not_elem_of_app. split; [apply Hl|]. apply not_elem_of_cons. split; [done|]. apply not_elem_of_nil. }
  cbn [map app]. rewrite trim_line by done. by rewrite IH.
Qed.

Lemma scan_pending ls more :
  Forall (fun l => line_result l = Pending) ls -> scan_lines (ls ++ more) = scan_lines more.
Proof.
  induction 1 as [|l ls Hl Hls IH]; [done|]. simpl. rewrite Hl. by case_bool_decide.
Qed.

(** The lines of an answer proper: neither a result nor the echo. *)
Definition answer_line (cmd l : text) : Prop := tidy l /\ line_result l = Pending /\ l <> trim cmd.

Definition join_lines (ls : list text) : text := foldl append_line [] ls.

Lemma payload_kept cmd l : answer_line cmd l -> payload_line (trim cmd) l = true.
Proof.
  intros ((Hne & _ & _) & Hr & Hc). unfold payload_line. rewrite bool_decide_false by done.
  unfold text_eqb. rewrite (bool_decide_false (l = trim cmd)) by done. rewrite andb_false_r. cbn [negb andb].
  unfold line_result in Hr. destruct (is_line l "OK"); [done|].
  destruct (is_line l "ERROR"); [done|]. cbn [orb negb andb] in *.
  destruct (is_line l "NO CARRIER" || _ || _ || _); [done|].
  by destruct (starts_with l _ || _).
Qed.

(** The framing of an answer.  While only the echo and output lines have
    arrived the answer is pending, whatever the lines contain; with the result
    line it is complete and stays so whatever arrives behind it; and the payload
    handed to the parsers is exactly the output lines, without echo and result. *)
Theorem answer_framing (cmd : text) (ls : list text) (fin more : text) (r : AtResult) :
  tidy (trim cmd) -> line_result (trim cmd) = Pending -> Forall (answer_line cmd) ls ->
  tidy fin -> line_result fin = r -> r <> Pending ->
  (forall k, (k <= length ls)%nat -> at_scan (render (trim cmd :: take k ls)) = Pending)
  /\ at_scan (render (trim cmd :: ls ++ [fin]) ++ more) = r
  /\ (fin = txt "OK" \/ fin = txt "ERROR" -> at_payload (render (trim cmd :: ls ++ [fin])) cmd = join_lines ls).
Proof.
  intros Hcmd Hcr Hls Hfin Hfr Hr.
  assert (Ht : Forall tidy ls) by (eapply Forall_impl; [exact Hls|by intros l (? & _)]).
  assert (Hp : Forall (fun l => line_result l = Pending) ls) by (eapply Forall_impl; [exact Hls|by intros l (_ & ? & _)]).
  split; [|split].
  - intros k _. unfold at_scan. rewrite <- (app_nil_r (render _)), lines_render by (constructor; [done|by apply Forall_take]).
    rewrite scan_pending by (constructor; [done|by apply Forall_take]). done.
  - unfold at_scan. rewrite lines_render by (constructor; [done|]; apply Forall_app; split; [done|by constructor]).
    rewrite app_comm_cons, <- app_assoc, scan_pending by (by constructor). simpl. rewrite Hfr.
    rewrite bool_decide_false by apply Hfin. by destruct r.
  - intros Hok. unfold at_payload. rewrite <- (app_nil_r (render _)), lines_render
      by (constructor; [done|]; apply Forall_app; split; [done|by constructor]).
    change (lines_of []) with [([] : text)]. cbn [app foldl]. rewrite <- app_assoc. cbn [app].
    assert (E : payload_line (trim cmd) (trim cmd) = false).
    { unfold payload_line, text_eqb. rewrite (bool_decide_true (trim cmd = trim cmd)) by done.
      rewrite bool_decide_false by apply Hcmd. done. }
    rewrite E. unfold join_lines. generalize (@nil ascii) at 1 3 as out. clear -Hls Hok.
    induction Hls as [|l ls Hl Hls IH]; intros out; simpl.
    + assert (payload_line (trim cmd) fin = false) as ->.
      { unfold payload_line. destruct Hok as [-> | ->]; simpl; by rewrite ?andb_false_r. }
      done.
    + rewrite payload_kept by done. apply IH.
Qed.

(** ** Fields of a line *)

(** A field as it is sent: quoted, or bare. *)
Record field := mkField { f_quoted : bool; f_text : text }.

Definition send_field (f : field) : text := if f_quoted f then QUOTE :: f_text f ++ [QUOTE] else f_text f.

Fixpoint send_fields (fs : list field) : text :=
  match fs with
  | [] => []
  | [f] => send_field f
  | f :: fs' => send_field f ++ (","%char :: send_fields fs')
  end.

Definition COMMA : ascii := ",".

Definition clean_field (f : field) : Prop :=
  trim (f_text f) = f_text f /\ (QUOTE ∉ f_text f) /\ (f_quoted f = false -> COMMA ∉ f_text f).

Lemma csv_text s rest idx k quoted cur :
  QUOTE ∉ s -> (quoted = false -> COMMA ∉ s) ->
  csv_loop (s ++ rest) idx k quoted cur = csv_loop rest idx k quoted (cur ++ s).
Proof.
  revert cur. induction s as [|c s IH]; intros cur Hq Hc; [by rewrite app_nil_r|]. simpl.
  apply not_elem_of_cons in Hq as [Hq1 Hq2].
  destruct (Ascii.eqb c QUOTE) eqn:E; [apply Ascii.eqb_eq in E; congruence|].
  assert (Ascii.eqb c "," && negb quoted = false) as ->.
  { destruct quoted; [by rewrite andb_false_r|]. rewrite andb_true_r. apply Ascii.eqb_neq. intros ->.
    specialize (Hc eq_refl). apply not_elem_of_cons in Hc as [? _]. done. }
  rewrite IH; [by rewrite <- app_assoc|done|]. intros Hf. by specialize (Hc Hf) as [_ ?]%not_elem_of_cons.
Qed.

Lemma csv_sent f rest idx k :
  clean_field f -> csv_loop (send_field f ++ rest) idx k false [] = csv_loop rest idx k false (f_text f).
Proof.
  intros (_ & Hq & Hc). unfold send_field. destruct f as [[|] s]; cbn [f_quoted f_text] in *.
  - cbn [app csv_loop]. rewrite Ascii.eqb_refl. cbn [negb]. rewrite <- app_assoc, csv_text by done.
    cbn [app csv_loop]. by rewrite Ascii.eqb_refl.
  - by rewrite csv_text by auto.
Qed.

(** Fields are read as they were sent.  Whatever mixture of quoted and bare
    fields a line holds - quoted ones may contain commas -, field [i] is the
    i-th field sent, and a field past the end reads as empty. *)
Theorem csv_field_reads (fs : list field) (i : nat) :
  fs <> [] -> Forall clean_field fs ->
  csv_field (send_fields fs) (Z.of_nat i) = default [] (f_text <$> fs !! i).
Proof.
  intros Hne Hf. unfold csv_field.
  assert (G : forall k, csv_loop (send_fields fs) (Z.of_nat (k + i)) (Z.of_nat k) false [] = default [] (f_text <$> fs !! i)).
  { revert i. induction Hf as [|f fs Hc Hf IH]; [done|]. intros i k.
    assert (Htrim : trim (f_text f) = f_text f) by apply Hc.
    destruct fs as [|g fs].
    - rewrite <- (app_nil_r (send_fields _)). cbn [send_fields]. rewrite csv_sent by done. cbn [csv_loop].
      destruct i as [|i]; [by rewrite Nat.add_0_r, Z.eqb_refl|]. rewrite (proj2 (Z.eqb_neq _ _)) by lia. done.
    - change (send_fields (f :: g :: fs)) with (send_field f ++ ","%char :: send_fields (g :: fs)).
      rewrite csv_sent by done. remember (send_fields (g :: fs)) as rest eqn:Er. cbn [csv_loop].
      change (Ascii.eqb "," QUOTE) with false. rewrite Ascii.eqb_refl. cbn [negb andb]. cbv iota.
      destruct i as [|i]; [by rewrite Nat.add_0_r, Z.eqb_refl|]. rewrite (proj2 (Z.eqb_neq _ _)) by lia.
      replace (Z.of_nat k + 1) with (Z.of_nat (S k)) by lia. replace (k + S i)%nat with (S k + i)%nat by lia.
      rewrite IH by done. done. }
  exact (G 0%nat).
Qed.

(** *** Instances *)

Lemma tidy_text s : bool_decide (s <> [] /\ trim s = s /\ NL ∉ s) = true -> tidy s.
Proof. apply bool_decide_eq_true. Qed.

Lemma answer_framing_witness :
  let cmd := txt "AT+CGMM" in
  let ls := [txt "EC200A OK"; txt "ERRORS: 0"] in
  (forall k, (k <= length ls)%nat -> at_scan (render (trim cmd :: take k ls)) = Pending)
  /\ at_scan (render (trim cmd :: ls ++ [txt "OK"]) ++ txt "RING") = AtOk
  /\ (txt "OK" = txt "OK" \/ txt "OK" = txt "ERROR" ->
        at_payload (render (trim cmd :: ls ++ [txt "OK"])) cmd = join_lines ls).
Proof.
  apply (answer_framing (txt "AT+CGMM") [txt "EC200A OK"; txt "ERRORS: 0"] (txt "OK") (txt "RING") AtOk).
  - apply tidy_text. vm_compute. reflexivity.
  - vm_compute. reflexivity.
  - repeat constructor; try (vm_compute; reflexivity); try (vm_compute; discriminate);
      apply (bool_decide_unpack _); vm_compute; exact I.
  - apply tidy_text. vm_compute. reflexivity.
  - vm_compute. reflexivity.
  - discriminate.
Defined.

Lemma csv_field_reads_witness :
  let fs := [mkField true (txt "servingcell"); mkField true (txt "Telekom, DE"); mkField false (txt "-95")] in
  (fs <> [] /\ Forall clean_field fs)
  /\ csv_field (send_fields fs) (Z.of_nat 1) = default [] (f_text <$> fs !! 1%nat).
Proof.
  assert (H : Forall clean_field [mkField true (txt "servingcell"); mkField true (txt "Telekom, DE"); mkField false (txt "-95")]).
  { unfold clean_field. apply (bool_decide_unpack _). vm_compute. exact I. }
  split; [split; [discriminate|exact H]|]. apply csv_field_reads; [discriminate|exact H].
Defined.
