(* ===== verification/BandPlan.v ===== *)
(** * Bands and network modes of the modem

    [core/cellular/band_plan.{hpp,cpp}]: profiles, band masks and their hex
    form, on 64-bit masks, and the modem's report of them. *)

From S2P Require Import Prelude Text At.

Inductive NetMode := NetAuto | LteOnly | GsmOnly.
Inductive BandProfile := ProfileAuto | ProfileMid | ProfileLow | ProfileCustom.

#[export] Instance NetMode_eq : EqDecision NetMode.
Proof. solve_decision. Defined.
#[export] Instance BandProfile_eq : EqDecision BandProfile.
Proof. solve_decision. Defined.

Definition net_mode_name (m : NetMode) : string :=
  match m with LteOnly => "lte" | GsmOnly => "gsm" | NetAuto => "auto" end.

Definition net_mode_parse (s : string) : option NetMode :=
  if bool_decide (s = "auto"%string) then Some NetAuto
  else if bool_decide (s = "lte"%string) then Some LteOnly
  else if bool_decide (s = "gsm"%string) then Some GsmOnly
  else None.

Definition net_mode_nwscanmode (m : NetMode) : Z := match m with LteOnly => 3 | GsmOnly => 1 | NetAuto => 0 end.

Definition net_mode_from_nwscanmode (v : Z) : option NetMode :=
  if v =? 0 then Some NetAuto else if v =? 3 then Some LteOnly else if v =? 1 then Some GsmOnly else None.

Definition band_profile_name (p : BandProfile) : string :=
  match p with ProfileMid => "mid" | ProfileLow => "low" | ProfileCustom => "custom" | ProfileAuto => "auto" end.

Definition band_profile_parse (s : string) : option BandProfile :=
  if bool_decide (s = "auto"%string) then Some ProfileAuto
  else if bool_decide (s = "mid"%string) then Some ProfileMid
  else if bool_decide (s = "low"%string) then Some ProfileLow
  else if bool_decide (s = "custom"%string) then Some ProfileCustom
  else None.

(** [1ULL << b.bit]. *)
Definition bit_mask (b : LteBand) : Z := Z.shiftl 1 (bit b).

Definition all_supported_mask : Z := fold_left (fun all b => Z.lor all (bit_mask b)) lte_bands 0.

Definition profile_mask (p : BandProfile) (custom_mask : Z) : Z :=
  match p with
  | ProfileMid => Z.shiftl 1 2
  | ProfileLow => Z.lor (Z.lor (Z.shiftl 1 19) (Z.shiftl 1 7)) (Z.lor (Z.shiftl 1 27) (Z.shiftl 1 4))
  | ProfileCustom => Z.land custom_mask all_supported_mask
  | ProfileAuto => all_supported_mask
  end.

(** The loop of [mask_from_bands]; the error is the unknown number. *)
Fixpoint mask_from_bands_loop (bands : list Z) (m : Z) : Z + Z :=
  match bands with
  | [] => inr m
  | n :: bands' =>
      match lte_band_by_number n with
      | None => inl n
      | Some b => mask_from_bands_loop bands' (Z.lor m (bit_mask b))
      end
  end.
Definition mask_from_bands (bands : list Z) : Z + Z := mask_from_bands_loop bands 0.

Definition bands_from_mask (mask : Z) : list Z :=
  map num (List.filter (fun b => negb (Z.land mask (bit_mask b) =? 0)) lte_bands).

(** *** Hex *)

Definition hex_char (d : Z) : ascii := ascii_of_nat (Z.to_nat (if d <? 10 then 48 + d else 87 + d)).

(** The digits of [n], without leading zeros. *)
Fixpoint hex_digits (k : nat) (n : Z) : text :=
  match k with
  | O => []
  | S k' => if n <? 16 then [hex_char n] else hex_digits k' (Z.shiftr n 4) ++ [hex_char (Z.land n 15)]
  end.

(** [mask_hex]: [%llx], at most 16 digits. *)
Definition mask_hex (mask : Z) : text := hex_digits 16 mask.

Definition is_hex (c : ascii) : bool :=
  let n := char_code c in
  (48 <=? n) && (n <=? 57) || (97 <=? n) && (n <=? 102) || (65 <=? n) && (n <=? 70).

Definition hex_value (c : ascii) : Z :=
  let n := char_code c in if n <=? 57 then n - 48 else if n <=? 70 then n - 55 else n - 87.

(** [strtoull(s, nullptr, 16)] on at most 16 hex digits. *)
Definition strtoull16 (s : text) : Z := fold_left (fun acc c => Z.lor (Z.shiftl acc 4) (hex_value c)) s 0.

Definition parse_mask_hex (inp : text) : option Z :=
  let s := List.filter (fun c => negb (Ascii.eqb c " ") && negb (Ascii.eqb c QUOTE) && negb (Ascii.eqb c TAB)) inp in
  let s := match s with
           | z :: x :: s' => if (2 <? size s) && Ascii.eqb z "0" && (Ascii.eqb x "x" || Ascii.eqb x "X") then s' else s
           | _ => s
           end in
  if bool_decide (s = []) || (16 <? size s) then None
  else if negb (forallb is_hex s) then None
  else Some (strtoull16 s).

Record QcfgBand := mkQcfg { q_gsm : option Z; q_lte : option Z }.

Definition parse_qcfg_band (raw : text) : QcfgBand :=
  let body := at_extract raw "+QCFG:" in
  if bool_decide (body = []) then mkQcfg None None
  else if negb (is_line (csv_field body 0) "band") then mkQcfg None None
  else mkQcfg (parse_mask_hex (csv_field body 1)) (parse_mask_hex (csv_field body 2)).

(** ** Round trips *)

Lemma hex_char_code d : 0 <= d < 16 -> char_code (hex_char d) = if d <? 10 then 48 + d else 87 + d.
Proof.
  intros H. unfold char_code, hex_char. rewrite nat_ascii_embedding; destruct (d <? 10) eqn:E; bool_simpl; lia.
Qed.

Lemma hex_char_value d : 0 <= d < 16 -> hex_value (hex_char d) = d.
Proof.
  intros H. unfold hex_value. rewrite hex_char_code by done.
  destruct (d <? 10) eqn:E; destruct (_ <=? 57) eqn:E1; try destruct (_ <=? 70) eqn:E2; lia.
Qed.

Lemma hex_char_hex d : 0 <= d < 16 -> is_hex (hex_char d) = true.
Proof.
  intros H. unfold is_hex. rewrite hex_char_code by done.
  destruct (d <? 10) eqn:E; lia.
Qed.

Lemma hex_digits_value k n : 0 <= n < 16 ^ Z.of_nat k -> strtoull16 (hex_digits k n) = n.
Proof.
  revert n. induction k as [|k IH]; intros n Hn.
  { change (strtoull16 (hex_digits 0 n)) with 0. change (16 ^ Z.of_nat 0) with 1 in Hn. lia. }
  cbn [hex_digits].
  destruct (n <? 16) eqn:E; bool_simpl.
  - unfold strtoull16. simpl. rewrite hex_char_value by lia. done.
  - unfold strtoull16 in *. rewrite fold_left_app, IH; cbn [fold_left].
    + rewrite hex_char_value by (change 15 with (Z.ones 4); rewrite Z.land_ones by lia; apply Z.mod_pos_bound; lia).
      change 15 with (Z.ones 4). rewrite Z.land_ones, Z.shiftl_mul_pow2, Z.shiftr_div_pow2 by lia.
      rewrite Z.lor_comm, <- Z.add_nocarry_lor.
      * pose proof (Z.div_mod n (2 ^ 4)). lia.
      * apply Z.bits_inj'. intros i Hi. rewrite Z.land_spec, Z.bits_0, <- Z.land_ones, Z.land_spec by lia.
        rewrite <- Z.shiftl_mul_pow2 by lia. rewrite Z.shiftl_spec by lia. rewrite Z.testbit_ones_nonneg by lia.
        destruct (i <? 4) eqn:Ei; bool_simpl; [rewrite (Z.testbit_neg_r _ (i - 4)) by lia|]; by rewrite ?andb_false_r.
    + rewrite Z.shiftr_div_pow2 by lia. replace (Z.of_nat (S k)) with (Z.of_nat k + 1) in Hn by lia.
      rewrite Z.pow_add_r in Hn by lia. split; [apply Z.div_pos; lia|]. apply Z.div_lt_upper_bound; lia.
Qed.

Lemma hex_digits_hex k n : 0 <= n -> forallb is_hex (hex_digits k n) = true.
Proof.
  revert n. induction k as [|k IH]; intros n Hn; [done|]. cbn [hex_digits].
  destruct (n <? 16) eqn:E; bool_simpl.
  - simpl. by rewrite hex_char_hex by lia.
  - rewrite forallb_app. rewrite IH by (by apply Z.shiftr_nonneg). simpl.
    rewrite hex_char_hex; [done|]. change 15 with (Z.ones 4). rewrite Z.land_ones by lia. apply Z.mod_pos_bound. lia.
Qed.

Lemma hex_digits_size k n : size (hex_digits k n) <= Z.of_nat k.
Proof.
  revert n. induction k as [|k IH]; intros n; [done|]. cbn [hex_digits]. destruct (n <? 16).
  - unfold size. simpl. lia.
  - rewrite size_app. specialize (IH (Z.shiftr n 4)). change (size [_]) with 1. lia.
Qed.

Lemma mask_hex_nonempty n : mask_hex n <> [].
Proof. unfold mask_hex. cbn [hex_digits]. destruct (n <? 16); [done|]. by intros []%app_eq_nil. Qed.

Lemma is_hex_plain c :
  is_hex c = true ->
  negb (Ascii.eqb c " ") && negb (Ascii.eqb c QUOTE) && negb (Ascii.eqb c TAB) = true
  /\ Ascii.eqb c "x" = false /\ Ascii.eqb c "X" = false.
Proof. destruct c as [[] [] [] [] [] [] [] []]; vm_compute; try done; by intros; split. Qed.

Lemma filter_hex s :
  forallb is_hex s = true ->
  List.filter (fun c => negb (Ascii.eqb c " ") && negb (Ascii.eqb c QUOTE) && negb (Ascii.eqb c TAB)) s = s.
Proof.
  induction s as [|c s IH]; [done|]. cbn [forallb List.filter]. intros [Hc Hs]%andb_true_iff.
  destruct (is_hex_plain c Hc) as (-> & _). by rewrite IH.
Qed.

Lemma hex_mask_roundtrip m : 0 <= m < 2 ^ 64 -> parse_mask_hex (mask_hex m) = Some m.
Proof.
  intros Hm. unfold parse_mask_hex. pose proof (hex_digits_hex 16 m ltac:(lia)) as Hh. fold (mask_hex m) in Hh.
  pose proof (hex_digits_size 16 m) as Hs. fold (mask_hex m) in Hs. rewrite filter_hex by done. cbv zeta.
  assert (E : match mask_hex m with
              | z :: x :: s' => if (2 <? size (mask_hex m)) && Ascii.eqb z "0" && (Ascii.eqb x "x" || Ascii.eqb x "X") then s' else mask_hex m
              | _ => mask_hex m end = mask_hex m).
  { destruct (mask_hex m) as [|z [|x s']]; [done..|]. cbn [forallb] in Hh. bool_simpl.
    destruct (is_hex_plain x) as (_ & -> & ->); [done|]. by rewrite andb_false_r. }
  rewrite E. rewrite bool_decide_false by apply mask_hex_nonempty. rewrite (proj2 (Z.ltb_ge _ _)) by lia.
  cbn [orb]. rewrite Hh. cbn [negb]. f_equal. apply hex_digits_value. change (16 ^ Z.of_nat 16) with (2 ^ 64). lia.
Qed.

(** A set of bands of the table, as a mask. *)
Definition table_mask (p : LteBand -> bool) (l : list LteBand) : Z :=
  fold_left (fun a b => if p b then Z.lor a (bit_mask b) else a) l 0.

Lemma bands_loop (p : LteBand -> bool) l acc :
  Forall (fun b => lte_band_by_number (num b) = Some b) l ->
  mask_from_bands_loop (map num (List.filter p l)) acc
  = inr (fold_left (fun a b => if p b then Z.lor a (bit_mask b) else a) l acc).
Proof.
  intros Hl. revert acc. induction Hl as [|b l Hb Hl IH]; intros acc; [done|]. cbn [List.filter fold_left].
  destruct (p b); [|apply IH]. cbn [map mask_from_bands_loop]. rewrite Hb. apply IH.
Qed.

Lemma land_bit m b : 0 <= bit b -> Z.land m (bit_mask b) = if Z.testbit m (bit b) then bit_mask b else 0.
Proof.
  intros Hb. unfold bit_mask. rewrite Z.shiftl_1_l. apply Z.bits_inj'. intros i Hi. rewrite Z.land_spec, Z.pow2_bits_eqb by done.
  destruct (Z.testbit m (bit b)) eqn:E; rewrite ?Z.pow2_bits_eqb, ?Z.bits_0 by done;
    destruct (bit b =? i) eqn:Ei; bool_simpl; subst; rewrite ?E, ?andb_false_r, ?andb_true_r; done.
Qed.

Lemma table_land m l acc acc' :
  Forall (fun b => 0 <= bit b) l -> acc = Z.land m acc' ->
  fold_left (fun a b => if negb (Z.land m (bit_mask b) =? 0) then Z.lor a (bit_mask b) else a) l acc
  = Z.land m (fold_left (fun a b => Z.lor a (bit_mask b)) l acc').
Proof.
  intros Hl. revert acc acc'. induction Hl as [|b l Hb Hl IH]; intros acc acc' Ha; [done|]. cbn [fold_left].
  apply IH. rewrite Z.land_lor_distr_r, <- Ha, land_bit by done.
  assert (Hne : bit_mask b <> 0) by (unfold bit_mask; rewrite Z.shiftl_1_l; lia).
  destruct (Z.testbit m (bit b)); [|by rewrite Z.lor_0_r].
  apply Z.eqb_neq in Hne as ->. done.
Qed.

(** Bands, masks and their text.  A mask is read back from the hex text it
    is written as, for all 64-bit masks; the numbers of the bands in a mask give
    back exactly its supported bits; every profile selects at least one
    supported band and no other, except a custom selection without any, which
    stays empty; and modes and profiles are parsed from their names. *)
Theorem band_masks_roundtrip (m : Z) :
  0 <= m < 2 ^ 64 ->
  parse_mask_hex (mask_hex m) = Some m
  /\ mask_from_bands (bands_from_mask m) = inr (Z.land m all_supported_mask)
  /\ (forall p, Z.land (profile_mask p m) all_supported_mask = profile_mask p m
        /\ (profile_mask p m = 0 -> p = ProfileCustom /\ Z.land m all_supported_mask = 0))
  /\ (forall p, band_profile_parse (band_profile_name p) = Some p)
  /\ (forall n, net_mode_parse (net_mode_name n) = Some n
        /\ net_mode_from_nwscanmode (net_mode_nwscanmode n) = Some n).
Proof.
  intros Hm. split; [by apply hex_mask_roundtrip|]. split; [|split; [|split]].
  - unfold mask_from_bands, bands_from_mask. rewrite bands_loop.
    + f_equal. unfold all_supported_mask. apply table_land; [|by rewrite Z.land_0_r].
      unfold lte_bands. repeat (constructor; [simpl; lia|]). constructor.
    + unfold lte_bands. repeat (constructor; [reflexivity|]). constructor.
  - intros p. split.
    + destruct p; [vm_compute; reflexivity..|]. unfold profile_mask. by rewrite <- Z.land_assoc, Z.land_diag.
    + destruct p; [intros H; vm_compute in H; discriminate..|]. by intros H.
  - by intros [].
  - by intros [].
Qed.

Lemma band_masks_roundtrip_witness :
  0 <= 0x1a0080800d5 < 2 ^ 64
  /\ parse_mask_hex (mask_hex 0x1a0080800d5) = Some 0x1a0080800d5
  /\ mask_from_bands (bands_from_mask 0x1a0080800d5) = inr (Z.land 0x1a0080800d5 all_supported_mask)
  /\ (forall p, Z.land (profile_mask p 0x1a0080800d5) all_supported_mask = profile_mask p 0x1a0080800d5
        /\ (profile_mask p 0x1a0080800d5 = 0 -> p = ProfileCustom /\ Z.land 0x1a0080800d5 all_supported_mask = 0))
  /\ (forall p, band_profile_parse (band_profile_name p) = Some p)
  /\ (forall n, net_mode_parse (net_mode_name n) = Some n
        /\ net_mode_from_nwscanmode (net_mode_nwscanmode n) = Some n).
Proof. split; [lia|]. apply (band_masks_roundtrip 0x1a0080800d5). lia. Defined.
