(* ===== verification/SimManager.v ===== *)
(** * The SIM card and its PIN

    [ports/iat_transport.hpp]: a command to the modem and its answer, as a class
    of answer functions with a log of the exchanges;
    [core/cellular/sim_manager.{hpp,cpp}]: when the PIN is sent. *)

From S2P Require Import Prelude Text At.

(** ** The transport *)

Record AtExchange := mkExchange {
  x_result : AtResult;
  x_payload : text;
  x_raw : text;
  x_timed_out : bool;
  x_device_gone : bool
}.

Definition x_ok (x : AtExchange) : bool := bool_decide (x_result x = AtOk).

(** The exchanges so far, newest first. *)
Abbreviation wire := (list (text * AtExchange)).

(** [IAtTransport::command]: the answer, given the exchanges before. *)
Class AtTransport := at_answer : wire -> text -> AtExchange.

(** ** [SimManager] *)

Module SimManager.

Record SimSnapshot := mkSnapshot { sim_state : SimState; pin_attempted : bool; pin_rejected : bool }.

#[export] Instance snap_eta : Settable SimSnapshot := fun r =>
  mkSnapshot (sim_state r) (pin_attempted r) (pin_rejected r).

Definition SimSnapshot_default : SimSnapshot := mkSnapshot SimUnknown false false.

(** The object, the note file its load and store functions keep, and the wire. *)
Record t := mk {
  last_ : SimSnapshot;
  attempt_log_ : text;
  loaded_ : bool;
  note : option text;
  sent : wire
}.

#[export] Instance eta : Settable t := fun r =>
  mk (last_ r) (attempt_log_ r) (loaded_ r) (note r) (sent r).

(** A new process on the note file it finds. *)
Definition start (n : option text) (w : wire) : t := mk SimSnapshot_default [] false n w.

(** [fnv1a] in 32-bit arithmetic. *)
Definition fnv1a (s : text) : Z :=
  fold_left (fun h c => u32 (Z.lxor h (char_code c) * 16777619)) s 2166136261.

(** One hex digit of [%08x]. *)
Definition nibble (h : Z) (i : Z) : ascii :=
  let d := Z.land (Z.shiftr h (4 * i)) 15 in ascii_of_nat (Z.to_nat (if d <? 10 then 48 + d else 87 + d)).

(** [sim_attempt_token]: length and checksum. *)
Definition sim_attempt_token (pin : text) : text :=
  if bool_decide (pin = []) then []
  else print_dec (size pin) ++ txt ":" ++ map (nibble (fnv1a pin)) [7; 6; 5; 4; 3; 2; 1; 0].

Section Sim.
Context {AT : AtTransport} (persistent : bool).    (* whether load and store are set *)

Definition command (cmd : text) : ST t AtExchange :=
  x ← gets (fun m => at_answer (sent m) cmd);
  modify (fun m => m <| sent ::= cons (cmd, x) |>) ;;
  mret x.

Definition store (tok : text) : ST t unit := when persistent (modify (fun m => m <| note := Some tok |>)).

Definition already_failed_for (pin : text) (m : t) : bool :=
  let tok := sim_attempt_token pin in
  negb (bool_decide (tok = [])) && text_eqb tok (attempt_log_ m).

Definition remember_attempt (pin : text) : ST t unit :=
  modify (fun m => m <| attempt_log_ := sim_attempt_token pin |>) ;;
  store (sim_attempt_token pin).

Definition forget_attempt : ST t unit :=
  modify (fun m => m <| attempt_log_ := [] |>) ;;
  store [].

Definition CPIN_QUERY : text := txt "AT+CPIN?".
Definition cpin_unlock (pin : text) : text := txt "AT+CPIN=" ++ [QUOTE] ++ pin ++ [QUOTE].

(** Every return of [ensure_ready]: [last_ = s; return s;]. *)
Definition done_with (s : SimSnapshot) : ST t SimSnapshot := modify (fun m => m <| last_ := s |>) ;; mret s.

(** The first section of [ensure_ready]. *)
Definition load_note : ST t unit :=
  m ← gets (fun m => m);
  when (negb (loaded_ m) && persistent)
    (modify (fun m => m <| attempt_log_ := default (attempt_log_ m) (note m) |> <| loaded_ := true |>)).

(** [ensure_ready]. *)
Definition ensure_ready (pin : text) : ST t SimSnapshot :=
  load_note ;;
  r ← command CPIN_QUERY;
  let st := parse_cpin (x_raw r) in
  let s := SimSnapshot_default <| sim_state := st |> in
  if x_device_gone r then done_with (s <| sim_state := SimUnknown |>)
  else if x_timed_out r then done_with (s <| sim_state := SimUnknown |>)
  else match st with
  | SimReady => forget_attempt ;; done_with s
  | PukRequired | NotInserted | SimUnknown | SimError => done_with s
  | PinRequired =>
      if bool_decide (pin = []) then done_with s else
      m ← gets (fun m => m);
      if already_failed_for pin m then
        done_with (s <| pin_attempted := true |> <| pin_rejected := true |>)
      else
        let s := s <| pin_attempted := true |> in
        remember_attempt pin ;;
        unlock ← command (cpin_unlock pin);
        if negb (x_ok unlock) then done_with (s <| pin_rejected := true |>) else
        after ← command CPIN_QUERY;
        let s := s <| sim_state := parse_cpin (x_raw after) |> in
        if bool_decide (sim_state s = SimReady) then
          forget_attempt ;; done_with (s <| pin_rejected := false |>)
        else done_with s
  end.

(** ** Histories *)

Inductive op := Ensure (pin : text) | Restart.

Definition step (o : op) (m : t) : t :=
  match o with
  | Ensure pin => exec (ensure_ready pin) m
  | Restart => start (note m) (sent m)
  end.

Definition run (ops : list op) (m : t) : t := foldl (fun m o => step o m) m ops.

(** The modem said READY. *)
Definition says_ready (c : text * AtExchange) : Prop := c.1 = CPIN_QUERY /\ parse_cpin (x_raw c.2) = SimReady.

Definition is_unlock (c : text * AtExchange) : Prop := exists pin, c.1 = cpin_unlock pin.

(** No PIN was sent since the modem said READY, or [pin] was, last. *)
Inductive last_pin : wire -> text -> Prop :=
| lp_here pin x w : last_pin ((cpin_unlock pin, x) :: w) pin
| lp_later c w pin : ~ says_ready c -> ~ is_unlock c -> last_pin w pin -> last_pin (c :: w) pin.

(** What the manager remembers of the last PIN. *)
Definition remembers (m : t) : Prop :=
  forall pin, last_pin (sent m) pin ->
    (persistent = true -> note m = Some (sim_attempt_token pin))
    /\ (loaded_ m = true \/ persistent = false -> attempt_log_ m = sim_attempt_token pin).

(** On the wire, a PIN is never repeated before the card was ready. *)
Definition never_repeated (w : wire) : Prop :=
  forall newer older pin x, w = newer ++ (cpin_unlock pin, x) :: older -> ~ last_pin older pin.

Lemma cpin_unlock_inj p1 p2 : cpin_unlock p1 = cpin_unlock p2 -> p1 = p2.
Proof.
  unfold cpin_unlock. intros H. apply app_inv_head in H. injection H as H. by apply app_inv_tail in H.
Qed.

Lemma unlock_not_query pin : cpin_unlock pin <> CPIN_QUERY.
Proof. unfold cpin_unlock, CPIN_QUERY. intros H. apply (f_equal (fun l => l !! 7%nat)) in H. vm_compute in H. discriminate. Qed.

Lemma token_nonempty pin : pin <> [] -> sim_attempt_token pin <> [].
Proof.
  intros H. unfold sim_attempt_token. rewrite bool_decide_false by done.
  intros [E _]%app_eq_nil. by apply print_dec_nonempty in E.
Qed.

Lemma wire_cons_inj (c1 c2 : text) (x1 x2 : AtExchange) (w1 w2 : wire) :
  (c1, x1) :: w1 = (c2, x2) :: w2 -> c1 = c2 /\ x1 = x2 /\ w1 = w2.
Proof. by intros [= -> -> ->]. Qed.

Lemma last_pin_query x w pin : last_pin ((CPIN_QUERY, x) :: w) pin -> parse_cpin (x_raw x) <> SimReady /\ last_pin w pin.
Proof.
  intros H. remember ((CPIN_QUERY, x) :: w) as w0 eqn:E. destruct H as [p x' w'|c w' p Hr Hu Hl].
  - apply wire_cons_inj in E as (E & _). by apply unlock_not_query in E.
  - destruct c as [c1 c2]. apply wire_cons_inj in E as (-> & -> & ->). split; [|done]. intros E. apply Hr. by split.
Qed.

Lemma last_pin_unlock p x w pin : last_pin ((cpin_unlock p, x) :: w) pin -> pin = p.
Proof.
  intros H. remember ((cpin_unlock p, x) :: w) as w0 eqn:E. destruct H as [p' x' w'|c w' p' Hr Hu Hl].
  - apply wire_cons_inj in E as (E & _). by apply cpin_unlock_inj in E.
  - destruct c as [c1 c2]. apply wire_cons_inj in E as (-> & -> & ->). exfalso. apply Hu. by exists p.
Qed.

Lemma never_repeated_query x w : never_repeated w -> never_repeated ((CPIN_QUERY, x) :: w).
Proof.
  intros Hw newer older pin y E. destruct newer as [|c newer]; cbn [app] in E.
  - apply wire_cons_inj in E as (E & _). by apply eq_sym, unlock_not_query in E.
  - destruct c as [c1 c2]. apply wire_cons_inj in E as (_ & _ & E). by eapply Hw.
Qed.

Lemma never_repeated_unlock p x w : ~ last_pin w p -> never_repeated w -> never_repeated ((cpin_unlock p, x) :: w).
Proof.
  intros Hp Hw newer older pin y E. destruct newer as [|c newer]; cbn [app] in E.
  - apply wire_cons_inj in E as (E & _ & <-). by apply cpin_unlock_inj in E as <-.
  - destruct c as [c1 c2]. apply wire_cons_inj in E as (_ & _ & E). by eapply Hw.
Qed.

(** The note is in memory, for whoever asks next. *)
Definition held (m : t) : Prop :=
  (loaded_ m = true \/ persistent = false)
  /\ forall pin, last_pin (sent m) pin ->
     (persistent = true -> note m = Some (sim_attempt_token pin)) /\ attempt_log_ m = sim_attempt_token pin.

Definition good (m : t) : Prop := remembers m /\ never_repeated (sent m).

Lemma held_good m : held m -> never_repeated (sent m) -> good m.
Proof. intros [Hl Hh] Hn. split; [|done]. intros pin Hp. destruct (Hh pin Hp). by split. Qed.

Lemma done_with_good s m : held m -> never_repeated (sent m) -> wp (done_with s) (fun _ => good) m.
Proof. intros Hh Hn. unfold done_with. apply wp_bind, wp_modify, wp_ret. by apply held_good. Qed.

Lemma load_note_spec m : good m -> wp load_note (fun _ m' => held m' /\ never_repeated (sent m')) m.
Proof.
  intros [Hr Hn]. unfold load_note. apply wp_bind, wp_gets. apply wp_when; intros E.
  - apply wp_modify. apply andb_true_iff in E as [El Ep]. split; [|done]. split; [by left|]. intros pin Hp.
    destruct (Hr pin Hp) as [H1 _]. simpl. rewrite (H1 Ep). done.
  - split; [|done]. apply andb_false_iff in E as [E|E].
    + bool_simpl. split; [by left|]. intros pin Hp. destruct (Hr pin Hp) as [H1 H2]. split; [done|]. apply H2. by left.
    + split; [by right|]. intros pin Hp. destruct (Hr pin Hp) as [H1 H2]. split; [done|]. apply H2. by right.
Qed.

Lemma query_spec m :
  held m -> never_repeated (sent m) ->
  wp (command CPIN_QUERY) (fun x m' => held m' /\ never_repeated (sent m')
     /\ (parse_cpin (x_raw x) = SimReady -> forall pin, ~ last_pin (sent m') pin)) m.
Proof.
  intros [Hl Hh] Hn. unfold command. apply wp_bind, wp_gets, wp_bind, wp_modify, wp_ret. simpl.
  split; [split; [exact Hl|]|split; [by apply never_repeated_query|]].
  - intros pin Hp. apply last_pin_query in Hp as [_ Hp]. by apply Hh.
  - intros Hr pin Hp. by apply last_pin_query in Hp as [? _].
Qed.

Lemma forget_spec m :
  held m -> never_repeated (sent m) -> (forall pin, ~ last_pin (sent m) pin) ->
  wp forget_attempt (fun _ m' => held m' /\ never_repeated (sent m')) m.
Proof.
  intros [Hl Hh] Hn Hno. unfold forget_attempt, store. apply wp_bind, wp_modify.
  apply wp_when; intros _; [apply wp_modify|]; (split; [split; [exact Hl|]|exact Hn]); intros pin Hp; by apply Hno in Hp.
Qed.

(** The note is written, then the PIN goes out. *)
Lemma unlock_spec pin m :
  held m -> never_repeated (sent m) -> pin <> [] -> already_failed_for pin m = false ->
  wp (remember_attempt pin ;; command (cpin_unlock pin)) (fun _ m' => held m' /\ never_repeated (sent m')) m.
Proof.
  intros [Hl Hh] Hn Hp Ha.
  assert (Hno : ~ last_pin (sent m) pin).
  { intros H. destruct (Hh pin H) as [_ E]. unfold already_failed_for in Ha. rewrite E in Ha.
    rewrite bool_decide_false in Ha by (by apply token_nonempty). unfold text_eqb in Ha.
    rewrite bool_decide_true in Ha by done. done. }
  apply wp_bind. unfold remember_attempt, store. apply wp_bind, wp_modify. unfold command.
  apply wp_when; intros Ep; [apply wp_modify|]; apply wp_bind, wp_gets, wp_bind, wp_modify, wp_ret; simpl;
    (split; [split; [exact Hl|]|by apply never_repeated_unlock]); intros q Hq; apply last_pin_unlock in Hq as ->;
    (split; [|done]); [done|congruence].
Qed.

Lemma ensure_ready_good pin m : good m -> wp (ensure_ready pin) (fun _ => good) m.
Proof.
  intros G. unfold ensure_ready. apply wp_bind. wp_call (load_note_spec m G). intros _ m1 [H1 N1].
  apply wp_bind. wp_call (query_spec m1 H1 N1). intros r m2 (H2 & N2 & R2). cbv zeta.
  destruct (x_device_gone r); [by apply done_with_good|]. destruct (x_timed_out r); [by apply done_with_good|].
  destruct (parse_cpin (x_raw r)) eqn:Est; try (by apply done_with_good).
  { apply wp_bind. wp_call (forget_spec m2 H2 N2 (R2 eq_refl)). intros _ m3 [H3 N3]. by apply done_with_good. }
  destruct (bool_decide (pin = [])) eqn:Ep; [by apply done_with_good|]. bool_simpl. apply wp_bind, wp_gets.
  destruct (already_failed_for pin m2) eqn:Ea; [by apply done_with_good|].
  pose proof (unlock_spec pin m2 H2 N2 Ep Ea) as W. apply wp_bind_inv in W. apply wp_bind.
  eapply wp_mono; [exact W|]. cbv beta. intros _ m3 W3. apply wp_bind. eapply wp_mono; [exact W3|].
  cbv beta. intros u m4 [H4 N4]. destruct (negb (x_ok u)); [by apply done_with_good|].
  apply wp_bind. wp_call (query_spec m4 H4 N4). intros a m5 (H5 & N5 & R5). simpl.
  destruct (bool_decide (parse_cpin (x_raw a) = SimReady)) eqn:Er; [|by apply done_with_good]. bool_simpl.
  apply wp_bind. wp_call (forget_spec m5 H5 N5 (R5 Er)). intros _ m6 [H6 N6]. by apply done_with_good.
Qed.

Lemma run_good ops m : persistent = true \/ Restart ∉ ops -> good m -> good (run ops m).
Proof.
  intros Hp. revert m. induction ops as [|o ops IH]; intros m G; [done|]. cbn [run foldl].
  apply IH; [destruct Hp as [?|Hp]; [by left|right]; by apply not_elem_of_cons in Hp as [_ ?]|].
  destruct o as [pin|]; [by apply ensure_ready_good|]. destruct G as [Hr Hn]. split; [|done].
  intros pin Hl. destruct (Hr pin Hl) as [H1 _]. split; [exact H1|]. simpl.
  destruct Hp as [Hp|Hp]; [by intros [?|?]; congruence|]. apply not_elem_of_cons in Hp as [Hp _]. done.
Qed.

(** How often PINs were sent, and how often the card was ready. *)
Fixpoint unlocks (pin : text) (w : wire) : Z :=
  match w with
  | [] => 0
  | c :: w' => (if text_eqb c.1 (cpin_unlock pin) then 1 else 0) + unlocks pin w'
  end.
Fixpoint readies (w : wire) : Z :=
  match w with
  | [] => 0
  | c :: w' => (if text_eqb c.1 CPIN_QUERY && bool_decide (parse_cpin (x_raw c.2) = SimReady) then 1 else 0) + readies w'
  end.

Lemma unlocks_bound pin w :
  never_repeated w -> (forall c, c ∈ w -> is_unlock c -> c.1 = cpin_unlock pin) ->
  0 <= readies w /\ (unlocks pin w <= readies w \/ unlocks pin w = readies w + 1 /\ last_pin w pin).
Proof.
  induction w as [|[c x] w IH]; intros Hn Ho; [simpl; lia|].
  destruct IH as [Hr IH].
  { intros newer older p y ->. by apply (Hn ((c, x) :: newer) older p y). }
  { intros c' Hc'. apply Ho. by apply elem_of_cons; right. }
  cbn [unlocks readies fst snd]. unfold text_eqb. destruct (bool_decide (c = cpin_unlock pin)) eqn:E1; bool_simpl.
  - subst c. rewrite (bool_decide_false (cpin_unlock pin = CPIN_QUERY)) by apply unlock_not_query. simpl.
    split; [lia|]. assert (Hl : ~ last_pin w pin) by (by apply (Hn [] w pin x)).
    destruct IH as [IH|[_ IH]]; [|done]. destruct (decide (unlocks pin w = readies w)); [right|left; lia].
    split; [lia|apply lp_here].
  - destruct (bool_decide (c = CPIN_QUERY)) eqn:E2; bool_simpl; simpl.
    + destruct (bool_decide (parse_cpin (x_raw x) = SimReady)) eqn:E3; bool_simpl.
      * split; [lia|]. left. destruct IH as [IH|[IH _]]; lia.
      * split; [lia|]. destruct IH as [IH|[IH Hl]]; [left; lia|right]. split; [lia|]. apply lp_later; [|intros [p E]; simpl in E; rewrite E2 in E; by apply eq_sym, unlock_not_query in E|done].
        by intros [_ ?].
    + split; [lia|]. destruct IH as [IH|[IH Hl]]; [left; lia|right]. split; [lia|].
      apply lp_later; [by intros [? _]| |done]. intros Hu. apply E1. apply (Ho (c, x)); [by apply elem_of_cons; left|done].
Qed.

End Sim.
End SimManager.

(** ** Instances *)

Section Examples.
Import SimManager.

(** A modem whose card asks for the PIN and refuses the one it gets. *)
#[local] Instance refusing : AtTransport := fun _ cmd =>
  if text_eqb cmd CPIN_QUERY then mkExchange AtOk [] (txt "+CPIN: SIM PIN") false false
  else mkExchange AtError [] (txt "ERROR") false false.

Definition PIN : text := txt "1234".


(** The program never gives the manager its load and store functions: three
    starts of the daemon then send a rejected PIN three times. *)
Example restarts_without_note :
  unlocks PIN (sent (run false [Ensure PIN; Restart; Ensure PIN; Restart; Ensure PIN] (start None []))) = 3.
Proof. vm_compute. reflexivity. Qed.

Example restarts_with_note :
  unlocks PIN (sent (run true [Ensure PIN; Restart; Ensure PIN; Restart; Ensure PIN] (start None []))) = 1.
Proof. vm_compute. reflexivity. Qed.
End Examples.
