(* ===== verification/DataLink.v ===== *)
(** * The data links of the modem

    [core/cellular/ecm_link.{hpp,cpp}] and [ppp_link.{hpp,cpp}]: the two state
    machines that bring a cellular connection up, with the types they share
    ([cellular_config.hpp], [ports/iecm_backend.hpp], [ports/ippp_backend.hpp]).
    Every command and backend call is logged; the answers of the modem, of the
    network stack and of pppd are functions of that log, in which every tick
    leaves its time, so they may change from tick to tick as they like.  The
    texts for display are not modelled. *)

From S2P Require Import Prelude CoreTypes Text At SimManager.

Inductive PdpType := Ipv4 | Ipv4v6.
Inductive AuthMode := AuthNone | Pap | Chap.

#[export] Instance PdpType_eq : EqDecision PdpType.
Proof. solve_decision. Defined.

Definition pdp_type_name (t : PdpType) : string := match t with Ipv4v6 => "IPV4V6" | Ipv4 => "IP" end.
Definition pdp_type_parse (s : string) : option PdpType :=
  if bool_decide (s = "IP"%string) || bool_decide (s = "ip"%string) then Some Ipv4
  else if bool_decide (s = "IPV4V6"%string) || bool_decide (s = "ipv4v6"%string) then Some Ipv4v6
  else None.
Definition auth_mode_name (a : AuthMode) : string :=
  match a with Pap => "pap" | Chap => "chap" | AuthNone => "none" end.
Definition auth_mode_parse (s : string) : option AuthMode :=
  if bool_decide (s = "none"%string) || bool_decide (s = "NONE"%string) then Some AuthNone
  else if bool_decide (s = "pap"%string) || bool_decide (s = "PAP"%string) then Some Pap
  else if bool_decide (s = "chap"%string) || bool_decide (s = "CHAP"%string) then Some Chap
  else None.

(** [CellularConfig], the fields a data link reads. *)
Record CellularConfig := mkCellular {
  apn : text; pdp : PdpType; auth : AuthMode; username : text; password : text; nic_mode : bool; dial : text
}.
Definition CellularConfig_default : CellularConfig := mkCellular [] Ipv4 AuthNone [] [] true (txt "*99***1#").

(** [CellularStatus], the fields a data link reads. *)
Record CellularStatus := mkStatus {
  present : bool; responsive : bool; sim : SimState; registration : RegState
}.

Record LinkAddress := mkAddress { la_ipv4 : text; la_netmask : text; la_gateway : text; la_dns1 : text; la_dns2 : text }.
Definition LinkAddress_default : LinkAddress := mkAddress [] [] [] [] [].
Definition has_address (a : LinkAddress) : bool := negb (bool_decide (la_ipv4 a = [])).

Inductive DataLinkState :=
| Disabled | WaitDevice | WaitAt | WaitSim | WaitRegistration | EnsureEcmMode | WaitReenumeration
| ConfigurePdp | StartData | WaitNetif | Addressing | Dial | Negotiating | Disconnecting | Up | Failed.

#[export] Instance DataLinkState_eq : EqDecision DataLinkState.
Proof. solve_decision. Defined.

Inductive PppExit := ExitNone | ExitOk | NoDevice | DialFailed | AuthFailed | NegotiationFailed | LinkTerminated | ExitOther.

Record PppStatus := mkPpp { ps_running : bool; ps_ifname : text; ps_address : LinkAddress; ps_exit : PppExit }.
Record PppRequest := mkRequest {
  rq_tty : text; rq_apn : text; rq_dial : text; rq_pdp : PdpType; rq_auth : AuthMode; rq_username : text; rq_password : text
}.

(** ** The world *)

Inductive io :=
| TickAt (now : Z) (s : CellularStatus)
| AtCmd (cmd : text)
| SetUp (i : text)
| DhcpStart (i : text) (ok : bool)
| DhcpStop (i : text)
| SetAddress (i : text) (a : LinkAddress)
| Teardown (i : text)
| PppStart (r : PppRequest) (ok : bool)
| PppStop.

Class World := {
  w_at : list io -> text -> AtExchange;
  w_find_interface : list io -> option text;
  w_dhcp_start : list io -> text -> bool;
  w_read_address : list io -> text -> option LinkAddress;
  w_set_address : list io -> text -> LinkAddress -> bool;
  w_ppp_status : list io -> option PppStatus;
  w_ppp_start : list io -> PppRequest -> Result
}.

(** The state both links have ([CellularLinkState] and the members they share). *)
Record Link := mkLink {
  state : DataLinkState;
  interface_name : text;
  address : LinkAddress;
  modem_pdp_address : text;
  st_nic_mode : bool;
  attempts : Z;
  cfg_ : CellularConfig;
  want_up_ : bool;
  next_due_ms_ : Z;
  log : list io                                (* newest first *)
}.

#[export] Instance link_eta : Settable Link := fun r =>
  mkLink (state r) (interface_name r) (address r) (modem_pdp_address r) (st_nic_mode r) (attempts r)
         (cfg_ r) (want_up_ r) (next_due_ms_ r) (log r).

Definition Link_default : Link :=
  mkLink Disabled [] LinkAddress_default [] false 0 CellularConfig_default false 0 [].

(** [EcmLink::backoff_ms]: the loop doubles while below 30 seconds. *)
Fixpoint backoff_loop (fuel : nat) (i attempts s : Z) : Z :=
  match fuel with
  | O => s
  | S fuel' => if (i <? attempts) && (s <? 30) then backoff_loop fuel' (i + 1) attempts (s * 2) else s
  end.
Definition backoff_ms (attempts : Z) : Z :=
  if attempts <=? 0 then 0 else
  let s := backoff_loop 5 1 attempts 2 in (if 30 <? s then 30 else s) * 1000.

(** A command to the modem, and what was said about its two refusals of service. *)
Definition quoted (s : text) : text := QUOTE :: s ++ [QUOTE].

(** Nothing may be sent to the modem unless all of this holds. *)
Definition ready_for_data (s : CellularStatus) : bool :=
  present s && responsive s && bool_decide (sim s = SimReady) && reg_is_registered (registration s).

(** ** What both links do with their state *)

Class HasLink (S : Type) := { the_link : S -> Link; on_link : (Link -> Link) -> S -> S }.

Section Common.
Context {S : Type} {HL : HasLink S} {W : World}.

Definition set_link (f : Link -> Link) : ST S unit := modify (on_link f).
Definition emit (e : io) : ST S unit := set_link (fun l => l <| log ::= cons e |>).
Definition enter (s : DataLinkState) : ST S unit := set_link (fun l => l <| state := s |>).

Definition at_command (cmd : text) : ST S AtExchange :=
  x ← gets (fun m => w_at (log (the_link m)) cmd); emit (AtCmd cmd) ;; mret x.

Definition set_config (c : CellularConfig) : ST S unit := set_link (fun l => l <| cfg_ := c |>).

(** The first half of [fail]. *)
Definition count_failure (now : Z) : ST S unit :=
  set_link (fun l => l <| attempts ::= Z.add 1 |>) ;;
  set_link (fun l => l <| next_due_ms_ := now + backoff_ms (attempts l) |>).

Definition due (now : Z) (m : S) : bool :=
  (next_due_ms_ (the_link m) =? 0) || (next_due_ms_ (the_link m) <=? now).
End Common.

(** ** Tools: what a computation logs *)

(** Calls that only take something down. *)
Definition passive (e : io) : Prop :=
  match e with DhcpStop _ | Teardown _ | PppStop => True | _ => False end.
(** Calls of any kind, the mark of a tick excepted. *)
Definition any_call (e : io) : Prop := match e with TickAt _ _ => False | _ => True end.

Section Logs.
Context {S : Type} {HL : HasLink S} (HLlaw : forall f (m : S), the_link (on_link f m) = f (the_link m)).
Context (P : io -> Prop).

Definition grows (l l' : list io) : Prop := exists new, l' = new ++ l /\ Forall P new.

Lemma grows_refl l : grows l l.
Proof. by exists []. Qed.

Lemma grows_trans l1 l2 l3 : grows l1 l2 -> grows l2 l3 -> grows l1 l3.
Proof.
  intros (n1 & -> & H1) (n2 & -> & H2). exists (n2 ++ n1). split; [by rewrite app_assoc|]. by apply Forall_app.
Qed.

(** [logs c]: from any state, [c] adds calls of the kind [P] to the log. *)
Definition logs {A} (c : ST S A) : Prop := forall m, wp c (fun _ m' => grows (log (the_link m)) (log (the_link m'))) m.

Lemma logs_ret {A} (a : A) : logs (mret a).
Proof. intros m. apply wp_ret, grows_refl. Qed.
Lemma logs_skip : logs skip.
Proof. intros m. apply wp_skip, grows_refl. Qed.
Lemma logs_gets {A} (f : S -> A) : logs (gets f).
Proof. intros m. apply wp_gets, grows_refl. Qed.
Lemma logs_bind {A B} (c : ST S A) (k : A -> ST S B) : logs c -> (forall a, logs (k a)) -> logs (c ≫= k).
Proof.
  intros Hc Hk m. apply wp_bind. eapply wp_mono; [apply Hc|]. intros a m1 H1.
  eapply wp_mono; [apply Hk|]. intros b m2 H2. exact (grows_trans _ _ _ H1 H2).
Qed.
Lemma logs_when b (c : ST S unit) : (b = true -> logs c) -> logs (when b c).
Proof. intros H. destruct b; [by apply H|apply logs_skip]. Qed.
Lemma logs_modify (f : S -> S) : (forall m, log (the_link (f m)) = log (the_link m)) -> logs (modify f).
Proof. intros H m. apply wp_modify. rewrite H. apply grows_refl. Qed.
Lemma logs_set_link (f : Link -> Link) : (forall l, log (f l) = log l) -> logs (set_link f).
Proof using HLlaw. intros H. apply logs_modify. intros m. by rewrite HLlaw. Qed.
Lemma logs_emit e : P e -> logs (emit e).
Proof using HLlaw. intros He m. apply wp_modify. rewrite HLlaw. exists [e]. split; [done|]. constructor; [done|constructor]. Qed.
Lemma logs_at `{World} cmd : P (AtCmd cmd) -> logs (at_command cmd).
Proof using HLlaw.
  intros He. unfold at_command. apply logs_bind; [apply logs_gets|intros x].
  apply logs_bind; [by apply logs_emit|intros _; apply logs_ret].
Qed.
Lemma logs_enter s : logs (enter s).
Proof using HLlaw. by apply logs_set_link. Qed.
Lemma logs_count_failure now : logs (count_failure now).
Proof using HLlaw. unfold count_failure. apply logs_bind; [|intros _]; by apply logs_set_link. Qed.
End Logs.

Lemma grows_weaken (P Q : io -> Prop) l l' : (forall e, P e -> Q e) -> grows P l l' -> grows Q l l'.
Proof. intros H (n & -> & Hn). exists n. split; [done|]. eapply Forall_impl; [exact Hn|exact H]. Qed.

Lemma logs_weaken {S A} `{HasLink S} (P Q : io -> Prop) (c : ST S A) : (forall e, P e -> Q e) -> logs P c -> logs Q c.
Proof. intros HPQ Hc m. eapply wp_mono; [apply Hc|]. intros a m'. by apply grows_weaken. Qed.

Lemma passive_any e : passive e -> any_call e.
Proof. by destruct e. Qed.

(** Run through the steps of a computation; calls and tests are split off. *)
Ltac log_steps :=
  repeat match goal with
  | |- logs _ (_ ≫= _) => apply logs_bind
  | |- logs _ (mret _) => apply logs_ret
  | |- logs _ skip => apply logs_skip
  | |- logs _ (gets _) => apply logs_gets
  | |- logs _ (when _ _) => apply logs_when; intros _
  | |- logs _ (enter _) => apply logs_enter; done
  | |- logs _ (emit _) => apply logs_emit; done
  | |- logs _ (at_command _) => apply logs_at; done
  | |- logs _ (count_failure _) => apply logs_count_failure; done
  | |- logs _ (set_link _) => apply logs_set_link; done
  | |- logs _ (modify _) => apply logs_modify; done
  | |- forall _, logs _ _ => intros ?
  | |- logs _ (if ?b then _ else _) => destruct b
  | |- logs _ (match ?x with _ => _ end) => destruct x
  end.

(** An [Up] link has an address. *)
Definition upok (l : Link) : Prop := state l = Up -> has_address (address l) = true.

Lemma wp_then {S A B} (c : ST S A) (k : A -> ST S B) Q m : (forall a m', wp (k a) Q m') -> wp (c ≫= k) Q m.
Proof. intros H. apply wp_bind. unfold wp at 1. apply H. Qed.

(** ** [ICellularDataLink] *)

Class DataLink (S : Type) {HL : HasLink S} := {
  dl_connect : ST S unit;
  dl_disconnect : ST S unit;
  dl_set_modem_port : text -> ST S unit;           (* only the PPP link has one *)
  dl_tick : Z -> CellularStatus -> ST S unit
}.

(** What a data link promises to the uplink that drives it. *)
Class DataLinkLaws (S : Type) {HL : HasLink S} {DL : DataLink S} : Prop := {
  dl_link : forall f m, the_link (on_link f m) = f (the_link m);
  dl_tick_logs : forall now s m,
    wp (dl_tick now s) (fun _ m' => grows any_call (TickAt now s :: log (the_link m)) (log (the_link m'))) m;
  dl_tick_waits : forall now s m,
    want_up_ (the_link m) && ready_for_data s = false
    \/ want_up_ (the_link m) = true /\ state (the_link m) = Failed /\ due now m = false ->
    wp (dl_tick now s) (fun _ m' => grows passive (TickAt now s :: log (the_link m)) (log (the_link m'))) m;
  dl_port_link : forall tty m, the_link (exec (dl_set_modem_port tty) m) = the_link m;
  dl_connect_logs : logs passive dl_connect;
  dl_disconnect_logs : logs passive dl_disconnect;
  dl_connect_up : forall m, upok (the_link m) -> wp dl_connect (fun _ m' => upok (the_link m')) m;
  dl_disconnect_down : forall m, wp dl_disconnect (fun _ m' =>
    state (the_link m') = Disabled /\ address (the_link m') = LinkAddress_default /\ want_up_ (the_link m') = false) m;
  dl_tick_up : forall now s m, upok (the_link m) -> wp (dl_tick now s) (fun _ m' => upok (the_link m')) m
}.

(** ** Histories of a link *)

Inductive op := Connect | Disconnect | Config (c : CellularConfig) | ModemPort (tty : text) | Tick (now : Z) (s : CellularStatus).

Section Histories.
Context {S : Type} {HL : HasLink S} {DL : DataLink S}.

Definition step (o : op) (m : S) : S :=
  match o with
  | Connect => exec dl_connect m
  | Disconnect => exec dl_disconnect m
  | Config c => exec (set_config c) m
  | ModemPort tty => exec (dl_set_modem_port tty) m
  | Tick now s => exec (dl_tick now s) m
  end.

Definition run (ops : list op) (m : S) : S := foldl (fun m o => step o m) m ops.
End Histories.

(** Calls that ask something of the modem, the network stack or pppd. *)
Definition active (e : io) : Prop := any_call e /\ ~ passive e.

(** Every active call was made in a tick on a modem that was there, answered,
    had its card ready and was registered. *)
Definition guarded (l : list io) : Prop :=
  forall newer e older, l = newer ++ e :: older -> active e ->
    exists mid now s rest, older = mid ++ TickAt now s :: rest /\ Forall any_call mid /\ ready_for_data s = true.

Lemma guarded_passive new l : Forall passive new -> guarded l -> guarded (new ++ l).
Proof.
  intros Hp Hg. induction Hp as [|x new Hx Hp IH]; [done|]. intros newer e older E [He1 He2].
  destruct newer as [|y newer]; injection E as E1 E2; [by subst e|].
  exact (IH newer e older E2 (conj He1 He2)).
Qed.

Lemma guarded_mark now s l : guarded l -> guarded (TickAt now s :: l).
Proof.
  intros Hg newer e older E [He1 He2]. destruct newer as [|y newer]; injection E as E1 E2; [by subst e|].
  exact (Hg newer e older E2 (conj He1 He2)).
Qed.

Lemma guarded_ready new now s l :
  ready_for_data s = true -> Forall any_call new -> guarded l -> guarded (new ++ TickAt now s :: l).
Proof.
  intros Hs Hn Hg. induction Hn as [|x new Hx Hn IH]; [by apply guarded_mark|].
  intros newer e older E He. destruct newer as [|y newer]; injection E as E1 E2; [|exact (IH newer e older E2 He)].
  subst. exists new, now, s, l. done.
Qed.

Section Waits.
Context {S : Type} {HL : HasLink S} {DL : DataLink S} {LAWS : DataLinkLaws S}.

Definition link_inv (m : S) : Prop := guarded (log (the_link m)) /\ upok (the_link m).

Lemma step_inv o m : link_inv m -> link_inv (step o m).
Proof using LAWS.
  intros [G U]. destruct o as [| |c|tty|now s]; cbn [step].
  - destruct (dl_connect_logs m) as (new & E & Hn). split; [rewrite E; by apply guarded_passive|by apply dl_connect_up].
  - destruct (dl_disconnect_logs m) as (new & E & Hn). split; [rewrite E; by apply guarded_passive|].
    destruct (dl_disconnect_down m) as (Hd & _). intros Hu. rewrite Hu in Hd. discriminate.
  - unfold link_inv, set_config, set_link. change (exec (modify ?f) m) with (f m).
    rewrite dl_link. by split.
  - unfold link_inv. rewrite dl_port_link. by split.
  - split; [|by apply dl_tick_up].
    destruct (want_up_ (the_link m) && ready_for_data s) eqn:Er.
    + apply andb_true_iff in Er as [_ Er]. destruct (dl_tick_logs now s m) as (new & E & Hn). rewrite E.
      by apply guarded_ready.
    + destruct (dl_tick_waits now s m (or_introl Er)) as (new & E & Hn). rewrite E.
      apply guarded_passive; [done|]. by apply guarded_mark.
Qed.

Lemma history_inv ops m : link_inv m -> link_inv (run ops m).
Proof using LAWS. revert m. induction ops as [|o ops IH]; intros m I; [done|]. by apply IH, step_inv. Qed.
End Waits.

Lemma guarded_nil : guarded [].
Proof. intros newer e older E. by destruct newer. Qed.
