(* ===== verification/EcmLink.v ===== *)
(** * The ECM data link

    [core/cellular/ecm_link.{hpp,cpp}]: the state machine that brings the USB
    network interface of the modem up. *)

From S2P Require Import Prelude CoreTypes Text At SimManager DataLink.


Record t := mk {
  link : Link;
  reenum_deadline_ms_ : Z;
  netif_deadline_ms_ : Z;
  dhcp_deadline_ms_ : Z;
  usbnet_switch_tried_ : bool;
  nat_switch_tried_ : bool;
  dhcp_running_ : bool;
  dhcp_iface_ : text;
  unresponsive_ticks_ : Z
}.
#[export] Instance eta : Settable t := fun r =>
  mk (link r) (reenum_deadline_ms_ r) (netif_deadline_ms_ r) (dhcp_deadline_ms_ r) (usbnet_switch_tried_ r)
     (nat_switch_tried_ r) (dhcp_running_ r) (dhcp_iface_ r) (unresponsive_ticks_ r).
#[global] Instance ecm_has_link : HasLink t := { the_link := link; on_link f m := m <| link ::= f |> }.

Definition make : t := mk Link_default 0 0 0 false false false [] 0.

Definition kReenumWaitMs : Z := 90000.
Definition kNetifWaitMs : Z := 20000.
Definition kDhcpWaitMs : Z := 30000.
Definition kQnetdevType : Z := 3.
Definition kUnresponsiveTeardownTicks : Z := 3.

(** The commands that restart the modem in another mode. *)
Definition USBNET_SWITCH : text := txt "AT+QCFG=" ++ quoted (txt "usbnet") ++ txt ",1".
Definition nat_switch (want : Z) : text := txt "AT+QCFG=" ++ quoted (txt "nat") ++ txt "," ++ print_dec want.
Definition RESTART : text := txt "AT+CFUN=1,1".

Section Ecm.
Context {W : World}.

Definition fail (now : Z) : ST t unit := count_failure now ;; enter Failed.

Definition connect : ST t unit :=
  m ← gets (fun m => m);
  if want_up_ (link m) then skip else
  set_link (fun l => l <| want_up_ := true |> <| attempts := 0 |> <| next_due_ms_ := 0 |>) ;;
  modify (fun m => m <| usbnet_switch_tried_ := false |> <| nat_switch_tried_ := false |>) ;;
  enter WaitDevice.

(** [if (dhcp_running_) { be_.dhcp_stop(dhcp_iface_); dhcp_running_ = false; }]. *)
Definition stop_dhcp : ST t unit :=
  m ← gets (fun m => m);
  when (dhcp_running_ m) (emit (DhcpStop (dhcp_iface_ m)) ;; modify (fun m => m <| dhcp_running_ := false |>)).

Definition disconnect : ST t unit :=
  set_link (fun l => l <| want_up_ := false |>) ;;
  stop_dhcp ;;
  i ← gets (fun m => interface_name (link m));
  when (negb (bool_decide (i = []))) (emit (Teardown i) ;; set_link (fun l => l <| interface_name := [] |>)) ;;
  set_link (fun l => l <| address := LinkAddress_default |> <| modem_pdp_address := [] |> <| attempts := 0 |>
                       <| next_due_ms_ := 0 |> <| state := Disabled |>).

(** A switch of mode and the restart it needs. *)
Definition switch_mode (now : Z) (cmd : text) : ST t unit :=
  at_command cmd ;;
  at_command RESTART ;;
  modify (fun m => m <| reenum_deadline_ms_ := now + kReenumWaitMs |>) ;;
  enter WaitReenumeration.

(** The section that checks the mode; true when [tick] goes on. *)
Definition ensure_mode (now : Z) : ST t bool :=
  enter EnsureEcmMode ;;
  x ← at_command (txt "AT+QCFG=" ++ quoted (txt "usbnet"));
  match parse_qcfg_int (x_raw x) "usbnet" with
  | None => fail now ;; mret false
  | Some usbnet =>
      m ← gets (fun m => m);
      if negb (usbnet =? 1) then
        if usbnet_switch_tried_ m then fail now ;; mret false
        else
          modify (fun m => m <| usbnet_switch_tried_ := true |>) ;;
          switch_mode now USBNET_SWITCH ;;
          mret false
      else
        y ← at_command (txt "AT+QCFG=" ++ quoted (txt "nat"));
        let nat := parse_qcfg_int (x_raw y) "nat" in
        let want_nat := if nic_mode (cfg_ (link m)) then 1 else 0 in
        if match nat with Some n => negb (n =? want_nat) | None => false end && negb (nat_switch_tried_ m) then
          modify (fun m => m <| nat_switch_tried_ := true |>) ;;
          switch_mode now (nat_switch want_nat) ;;
          mret false
        else
          set_link (fun l => l <| st_nic_mode := match nat with Some n => n =? 1 | None => nic_mode (cfg_ l) end |>) ;;
          enter ConfigurePdp ;;
          mret true
  end.

(** [QICSGP] with the credentials. *)
Definition qicsgp (c : CellularConfig) : text :=
  txt "AT+QICSGP=1," ++ print_dec (if bool_decide (pdp c = Ipv4v6) then 3 else 1) ++ txt "," ++ quoted (apn c)
  ++ txt "," ++ quoted (username c) ++ txt "," ++ quoted (password c) ++ txt ","
  ++ print_dec (match auth c with Chap => 2 | Pap => 1 | AuthNone => 0 end).

Definition configure_pdp (now : Z) : ST t bool :=
  m ← gets (fun m => m);
  let c := cfg_ (link m) in
  if bool_decide (apn c = []) then fail now ;; mret false else
  x ← at_command (txt "AT+CGDCONT=1," ++ quoted (txt (pdp_type_name (pdp c))) ++ txt "," ++ quoted (apn c));
  if negb (x_ok x) then fail now ;; mret false else
  at_command (qicsgp c) ;;
  enter StartData ;;
  mret true.

Definition start_data (now : Z) : ST t bool :=
  x ← at_command (txt "AT+QNETDEVCTL=" ++ print_dec kQnetdevType ++ txt ",1");
  if negb (x_ok x) then fail now ;; mret false else
  modify (fun m => m <| netif_deadline_ms_ := now + kNetifWaitMs |>) ;;
  enter WaitNetif ;;
  mret true.

Definition wait_netif (now : Z) : ST t bool :=
  m ← gets (fun m => m);
  match w_find_interface (log (link m)) with
  | None => when (netif_deadline_ms_ m <? now) (fail now) ;; mret false
  | Some i =>
      set_link (fun l => l <| interface_name := i |>) ;;
      emit (SetUp i) ;;
      modify (fun m => m <| dhcp_deadline_ms_ := now + kDhcpWaitMs |>) ;;
      enter Addressing ;;
      mret true
  end.

(** The interface found is the one in use. *)
Definition same_interface (m : t) : bool :=
  match w_find_interface (log (link m)) with
  | None => false
  | Some i => text_eqb i (interface_name (link m))
  end.

(** The address of the context, when DHCP gave none. *)
Definition static_fallback (now : Z) (rdp : PdpContextParams) : ST t unit :=
  m ← gets (fun m => m);
  let i := interface_name (link m) in
  emit (DhcpStop i) ;;
  modify (fun m => m <| dhcp_running_ := false |>) ;;
  let gw := ctx_gateway rdp in
  let gw_is_dns := negb (bool_decide (gw = [])) && (text_eqb gw (ctx_dns1 rdp) || text_eqb gw (ctx_dns2 rdp)) in
  let ipv4_usable := negb (bool_decide (ctx_ipv4 rdp = [])) && negb (is_line (ctx_ipv4 rdp) "0.0.0.0") in
  let a := mkAddress (ctx_ipv4 rdp) (ctx_netmask rdp) gw (ctx_dns1 rdp) (ctx_dns2 rdp) in
  if ipv4_usable && negb (bool_decide (gw = [])) && negb gw_is_dns then
    ok ← gets (fun m => w_set_address (log (link m)) i a);
    emit (SetAddress i a) ;;
    if ok : bool then set_link (fun l => l <| address := a |> <| attempts := 0 |> <| state := Up |>)
    else fail now
  else fail now.

Definition addressing (now : Z) : ST t unit :=
  m ← gets (fun m => m);
  if negb (same_interface m) then
    stop_dhcp ;; set_link (fun l => l <| interface_name := [] |>) ;; fail now
  else
    x ← at_command (txt "AT+CGCONTRDP=1");
    let rdp := parse_cgcontrdp (x_raw x) in
    set_link (fun l => l <| modem_pdp_address := ctx_ipv4 rdp |>) ;;
    let i := interface_name (link m) in
    started ← (if dhcp_running_ m then mret true else
                 ok ← gets (fun m => w_dhcp_start (log (link m)) i);
                 emit (DhcpStart i ok) ;;
                 when ok (modify (fun m => m <| dhcp_running_ := true |> <| dhcp_iface_ := i |>)) ;;
                 mret ok);
    if negb started then fail now else
    m ← gets (fun m => m);
    match w_read_address (log (link m)) i with
    | Some a =>
        if has_address a then set_link (fun l => l <| address := a |> <| attempts := 0 |> <| state := Up |>)
        else when (dhcp_deadline_ms_ m <? now) (static_fallback now rdp)
    | None => when (dhcp_deadline_ms_ m <? now) (static_fallback now rdp)
    end.

(** A lease that lost its gateway keeps the one it had. *)
Definition keep_gateway (a old : LinkAddress) : LinkAddress :=
  if bool_decide (la_gateway a = []) && text_eqb (la_ipv4 a) (la_ipv4 old) && negb (bool_decide (la_gateway old = [])) then
    mkAddress (la_ipv4 a) (la_netmask a) (la_gateway old)
      (if bool_decide (la_dns1 a = []) then la_dns1 old else la_dns1 a)
      (if bool_decide (la_dns2 a = []) then la_dns2 old else la_dns2 a)
  else a.

Definition hold_up (now : Z) : ST t unit :=
  m ← gets (fun m => m);
  if negb (same_interface m) then
    stop_dhcp ;;
    set_link (fun l => l <| address := LinkAddress_default |> <| interface_name := [] |>) ;;
    fail now
  else
    let lost := modify (fun m => m <| dhcp_deadline_ms_ := now + kDhcpWaitMs |>) ;; enter Addressing in
    match w_read_address (log (link m)) (interface_name (link m)) with
    | None => lost
    | Some a =>
        if negb (has_address a) then lost
        else set_link (fun l => l <| address := keep_gateway a (address l) |>)
    end.

Definition is_state (s : DataLinkState) (m : t) : bool := bool_decide (state (link m) = s).

(** The sections of [tick] run one after the other, each if the state is its own. *)
Definition section (s : DataLinkState) (body : ST t bool) : ST t bool :=
  m ← gets (fun m => m);
  if is_state s m then body else mret true.

Definition bring_up (now : Z) : ST t unit :=
  m ← gets (fun m => m);
  go ← (if is_state ConfigurePdp m || is_state StartData m || is_state WaitNetif m || is_state Addressing m || is_state Up m
        then mret true else ensure_mode now);
  if negb go then skip else
  go ← section ConfigurePdp (configure_pdp now);
  if negb go then skip else
  go ← section StartData (start_data now);
  if negb go then skip else
  go ← section WaitNetif (wait_netif now);
  if negb go then skip else
  m ← gets (fun m => m);
  if is_state Addressing m then addressing now
  else if is_state Up m then hold_up now
  else skip.

(** Answers that fail to come on a standing link are counted first. *)
Definition endure (s : CellularStatus) : ST t bool :=
  m ← gets (fun m => m);
  if present s && negb (responsive s) && (is_state Up m || is_state Addressing m) then
    modify (fun m => m <| unresponsive_ticks_ ::= Z.add 1 |>) ;;
    gets (fun m => unresponsive_ticks_ m <? kUnresponsiveTeardownTicks)
  else mret false.

(** [tick]. *)
Definition tick (now : Z) (s : CellularStatus) : ST t unit :=
  emit (TickAt now s) ;;
  m ← gets (fun m => m);
  if negb (want_up_ (link m)) then when (negb (is_state Disabled m)) disconnect
  else
    endured ← endure s;
    if endured : bool then skip else
    when (present s && responsive s) (modify (fun m => m <| unresponsive_ticks_ := 0 |>)) ;;
    if negb (present s) || negb (responsive s) then
      modify (fun m => m <| unresponsive_ticks_ := 0 |>) ;;
      stop_dhcp ;;
      set_link (fun l => l <| address := LinkAddress_default |>) ;;
      m ← gets (fun m => m);
      if is_state WaitReenumeration m then when (reenum_deadline_ms_ m <? now) (fail now)
      else enter (if present s then WaitAt else WaitDevice)
    else
      when (is_state WaitReenumeration m) (enter EnsureEcmMode) ;;
      m ← gets (fun m => m);
      if is_state Failed m && negb (due now m) then skip
      else if negb (bool_decide (sim s = SimReady)) then enter WaitSim
      else if negb (reg_is_registered (registration s)) then enter WaitRegistration
      else bring_up now.
End Ecm.

(** ** The laws of a data link *)

Section Ecm.
Context {W : World}.

Lemma ecm_law f (m : t) : the_link (on_link f m) = f (the_link m).
Proof. done. Qed.

Lemma ecm_fail_logs now : logs passive (fail now).
Proof. unfold fail. log_steps. Qed.
Lemma stop_dhcp_logs : logs passive stop_dhcp.
Proof. unfold stop_dhcp. log_steps. Qed.
Lemma ecm_disconnect_logs : logs passive disconnect.
Proof. unfold disconnect. log_steps. apply stop_dhcp_logs. Qed.
Lemma ecm_connect_logs : logs passive connect.
Proof. unfold connect. log_steps. Qed.

Lemma fail_any now : logs any_call (fail now).
Proof. eapply logs_weaken, ecm_fail_logs; apply passive_any. Qed.
Lemma stop_dhcp_any : logs any_call stop_dhcp.
Proof. eapply logs_weaken, stop_dhcp_logs; apply passive_any. Qed.
Hint Resolve fail_any stop_dhcp_any : machino.

Lemma ensure_mode_logs now : logs any_call (ensure_mode now).
Proof. unfold ensure_mode, switch_mode. log_steps; auto with machino. Qed.
Lemma configure_pdp_logs now : logs any_call (configure_pdp now).
Proof. unfold configure_pdp. log_steps; auto with machino. Qed.
Lemma start_data_logs now : logs any_call (start_data now).
Proof. unfold start_data. log_steps; auto with machino. Qed.
Lemma wait_netif_logs now : logs any_call (wait_netif now).
Proof. unfold wait_netif. log_steps; auto with machino. Qed.
Lemma static_fallback_logs now rdp : logs any_call (static_fallback now rdp).
Proof. unfold static_fallback. log_steps; auto with machino. Qed.
Hint Resolve static_fallback_logs ensure_mode_logs configure_pdp_logs start_data_logs wait_netif_logs : machino.
Lemma addressing_logs now : logs any_call (addressing now).
Proof. unfold addressing. log_steps; auto with machino. Qed.
Lemma hold_up_logs now : logs any_call (hold_up now).
Proof. unfold hold_up. cbv zeta. log_steps; auto with machino. Qed.
Hint Resolve addressing_logs hold_up_logs : machino.
Lemma bring_up_logs now : logs any_call (bring_up now).
Proof. unfold bring_up, section. log_steps; auto with machino. Qed.
Lemma endure_logs s : logs passive (endure s).
Proof. unfold endure. log_steps. Qed.

Lemma ecm_tick_logs now s m :
  wp (tick now s) (fun _ m' => grows any_call (TickAt now s :: log (link m)) (log (link m'))) m.
Proof.
  unfold tick. apply wp_bind, wp_modify. match goal with |- wp _ _ ?x => set (m1 := x) end.
  change (TickAt now s :: log (link m)) with (log (the_link m1)).
  assert (Hd : logs any_call disconnect) by (eapply logs_weaken, ecm_disconnect_logs; apply passive_any).
  assert (He : logs any_call (endure s)) by (eapply logs_weaken, endure_logs; apply passive_any).
  match goal with |- wp ?c _ _ => assert (G : logs any_call c); [|apply G] end.
  log_steps; auto using bring_up_logs with machino.
Qed.

(** [endure] and the reset of its counter leave the link alone. *)
Lemma endure_link s m : wp (endure s) (fun r m' => link m' = link m
  /\ (r = true -> is_state Up m || is_state Addressing m = true)) m.
Proof.
  unfold endure. apply wp_bind, wp_gets. destruct (present s && _ && _) eqn:E; [|by apply wp_ret].
  apply andb_true_iff in E as [_ E]. apply wp_bind, wp_modify, wp_gets. simpl. done.
Qed.

Lemma ecm_tick_waits now s m :
  want_up_ (link m) && ready_for_data s = false
  \/ want_up_ (link m) = true /\ state (link m) = Failed /\ due now m = false ->
  wp (tick now s) (fun _ m' => grows passive (TickAt now s :: log (link m)) (log (link m'))) m.
Proof.
  intros H. unfold tick. apply wp_bind, wp_modify, wp_bind, wp_gets.
  match goal with |- wp _ _ ?x => set (m1 := x) end.
  change (TickAt now s :: log (link m)) with (log (the_link m1)).
  change (want_up_ (link m1)) with (want_up_ (link m)).
  assert (G : forall (c : ST t unit) m2, link m2 = link m1 -> logs passive c ->
            wp c (fun _ m' => grows passive (log (the_link m1)) (log (link m'))) m2).
  { intros c m2 E Hc. change (log (the_link m1)) with (log (link m1)). rewrite <- E. apply Hc. }
  destruct (want_up_ (link m)) eqn:Ew; cbn [negb andb] in *.
  2: { apply wp_when; intros _; [apply G; [done|apply ecm_disconnect_logs]|apply grows_refl]. }
  apply wp_bind. wp_call (endure_link s m1). intros r m2 [E2 _]. destruct r; [apply G; [done|log_steps]|].
  apply wp_bind. apply (wp_mono _ (fun _ m' => link m' = link m1)); [by apply wp_when; intros _; [apply wp_modify|]|].
  intros _ m3 E3. destruct (negb (present s) || negb (responsive s)) eqn:E1.
  { apply G; [done|]. log_steps; auto using stop_dhcp_logs, ecm_fail_logs. }
  apply wp_bind.
  apply (wp_mono _ (fun _ m' => log (link m') = log (link m1) /\ (state (link m) = Failed -> link m' = link m1))).
  { apply wp_when; intros Hs; [|by rewrite E3]. apply wp_modify. simpl. rewrite E3. split; [done|].
    intros Hf. unfold is_state in Hs. change (state (link m1)) with (state (link m)) in Hs. rewrite Hf in Hs. done. }
  intros _ m4 [E4 F4]. apply wp_bind, wp_gets.
  assert (G4 : forall c : ST t unit, logs passive c ->
            wp c (fun _ m' => grows passive (log (the_link m1)) (log (link m'))) m4).
  { intros c Hc. change (log (the_link m1)) with (log (link m1)). rewrite <- E4. apply Hc. }
  destruct (is_state Failed m4 && negb (due now m4)) eqn:E5; [apply G4; log_steps|].
  assert (Hr : ready_for_data s = false).
  { destruct H as [H|(_ & Hf & Hd)]; [done|]. exfalso. unfold is_state, due, the_link, ecm_has_link in *. rewrite (F4 Hf) in E5.
    change (state (link m1)) with (state (link m)) in E5.
    change (next_due_ms_ (link m1)) with (next_due_ms_ (link m)) in E5. rewrite Hd in E5.
    rewrite bool_decide_true in E5 by done. done. }
  unfold ready_for_data in Hr. destruct (present s), (responsive s); try done. cbn [andb] in Hr.
  destruct (bool_decide (sim s = SimReady)) eqn:E6; cbn [negb andb] in *; [|apply G4; log_steps].
  rewrite Hr. cbn [negb]. apply G4. log_steps.
Qed.

Lemma ecm_upok_enter s (m : t) : s <> Up -> wp (enter s) (fun _ m' => upok (the_link m')) m.
Proof. intros Hs. apply wp_modify. by intros E. Qed.

Lemma ecm_upok_fail now m : wp (fail now) (fun _ m' => upok (the_link m')) m.
Proof. unfold fail. apply wp_then. intros _ ?. by apply ecm_upok_enter. Qed.

Lemma enter_then {A} s (a : A) (m : t) : s <> Up -> wp (enter s ;; mret a) (fun _ m' => upok (the_link m')) m.
Proof. intros Hs. apply wp_bind, wp_modify, wp_ret. by intros E. Qed.

Lemma fail_then {A} now (a : A) m : wp (fail now ;; mret a) (fun _ m' => upok (the_link m')) m.
Proof. apply wp_bind. apply (wp_mono _ (fun _ m' => upok (the_link m'))); [apply ecm_upok_fail|]. intros _ m1 U. by apply wp_ret. Qed.

Lemma switch_mode_up now cmd m : wp (switch_mode now cmd ;; mret false) (fun _ m' => upok (the_link m')) m.
Proof.
  apply wp_bind. unfold switch_mode. apply wp_then. intros _ ?. apply wp_then. intros _ ?. apply wp_then. intros _ ?.
  apply wp_modify, wp_ret. by intros E.
Qed.

Lemma ensure_mode_up now m : wp (ensure_mode now) (fun _ m' => upok (the_link m')) m.
Proof.
  unfold ensure_mode. apply wp_then. intros _ ?. apply wp_then. intros x ?.
  destruct (parse_qcfg_int _ _); [|apply fail_then]. apply wp_bind, wp_gets. destruct (negb _).
  - destruct (usbnet_switch_tried_ _); [apply fail_then|]. apply wp_then. intros _ ?. apply switch_mode_up.
  - apply wp_then. intros y ?. cbv zeta. destruct (_ && _).
    + apply wp_then. intros _ ?. apply switch_mode_up.
    + apply wp_then. intros _ ?. by apply enter_then.
Qed.

Lemma configure_pdp_up now m : wp (configure_pdp now) (fun _ m' => upok (the_link m')) m.
Proof.
  unfold configure_pdp. apply wp_bind, wp_gets. cbv zeta. destruct (bool_decide _); [apply fail_then|].
  apply wp_then. intros x ?. destruct (negb _); [apply fail_then|]. apply wp_then. intros _ ?. by apply enter_then.
Qed.

Lemma start_data_up now m : wp (start_data now) (fun _ m' => upok (the_link m')) m.
Proof.
  unfold start_data. apply wp_then. intros x ?. destruct (negb _); [apply fail_then|]. apply wp_then. intros _ ?.
  by apply enter_then.
Qed.

Lemma wait_netif_up now m : upok (link m) -> wp (wait_netif now) (fun _ m' => upok (the_link m')) m.
Proof.
  intros U. unfold wait_netif. apply wp_bind, wp_gets. destruct (w_find_interface _).
  - do 3 (apply wp_then; intros _ ?). by apply enter_then.
  - apply wp_bind, wp_when; intros _; [|by apply wp_ret]. apply (wp_mono _ (fun _ m' => upok (the_link m'))); [apply ecm_upok_fail|]. intros _ m1 U1. by apply wp_ret.
Qed.

Lemma section_up s body m :
  upok (link m) -> (forall m, upok (link m) -> wp body (fun _ m' => upok (the_link m')) m) ->
  wp (section s body) (fun _ m' => upok (the_link m')) m.
Proof. intros U H. unfold section. apply wp_bind, wp_gets. destruct (is_state s m); [by apply H|by apply wp_ret]. Qed.

Lemma static_fallback_up now rdp m : upok (link m) -> wp (static_fallback now rdp) (fun _ m' => upok (the_link m')) m.
Proof.
  intros U. unfold static_fallback. apply wp_bind, wp_gets. cbv zeta. do 2 (apply wp_then; intros _ ?).
  destruct (negb _ && negb _ && _ && _) eqn:E; [|apply ecm_upok_fail]. apply wp_then. intros ok ?. apply wp_then. intros _ ?.
  destruct ok; [|apply ecm_upok_fail]. apply wp_modify. intros _. do 3 apply andb_true_iff in E as [E _]. exact E.
Qed.

Lemma addressing_up now m : upok (link m) -> wp (addressing now) (fun _ m' => upok (the_link m')) m.
Proof.
  intros U. unfold addressing. apply wp_bind, wp_gets. destruct (negb _).
  { do 2 (apply wp_then; intros _ ?). apply ecm_upok_fail. }
  assert (K : forall {A} (c : ST t A) m1, (forall m1, wp c (fun _ m' => state (link m') = state (link m1) /\ address (link m') = address (link m1)) m1) ->
            upok (link m1) -> wp c (fun _ m' => upok (link m')) m1).
  { intros A c m1 H U1. eapply wp_mono; [apply H|]. intros a m2 [E1 E2] E. rewrite E2. apply U1. congruence. }
  apply wp_bind. eapply wp_mono; [refine (K _ _ _ _ U); intros m9; split; reflexivity|]. cbv beta. intros x m1 U1. cbv zeta.
  apply wp_bind. eapply wp_mono; [refine (K _ _ _ _ U1); intros m9; split; reflexivity|]. cbv beta. intros _ m2 U2.
  apply wp_bind. eapply wp_mono.
  { refine (K _ _ _ _ U2). intros m3. destruct (dhcp_running_ m); [by apply wp_ret|].
    apply wp_bind, wp_gets, wp_bind, wp_modify, wp_bind. apply wp_when; intros _; [apply wp_modify|]; by apply wp_ret. }
  cbv beta. intros started m3 U3. destruct (negb started); [apply ecm_upok_fail|]. apply wp_bind, wp_gets.
  assert (F : wp (when (dhcp_deadline_ms_ m3 <? now) (static_fallback now (parse_cgcontrdp (x_raw x))))
                (fun _ m' => upok (the_link m')) m3) by (by apply wp_when; intros _; [apply static_fallback_up|]).
  destruct (w_read_address _ _) as [a|]; [|exact F]. destruct (has_address a) eqn:Ea; [|exact F].
  apply wp_modify. intros _. exact Ea.
Qed.

Lemma keep_gateway_address a old : has_address (keep_gateway a old) = has_address a.
Proof. unfold keep_gateway. by destruct (_ && _). Qed.

Lemma hold_up_up now m : wp (hold_up now) (fun _ m' => upok (the_link m')) m.
Proof.
  unfold hold_up. apply wp_bind, wp_gets. destruct (negb _).
  { do 2 (apply wp_then; intros _ ?). apply ecm_upok_fail. }
  cbv zeta. destruct (w_read_address _ _) as [a|]; [|apply wp_then; intros _ ?; by apply ecm_upok_enter].
  destruct (has_address a) eqn:Ea; cbn [negb]; [|apply wp_then; intros _ ?; by apply ecm_upok_enter].
  apply wp_modify. intros _. simpl. by rewrite keep_gateway_address.
Qed.

Lemma bring_up_up now m : upok (link m) -> wp (bring_up now) (fun _ m' => upok (the_link m')) m.
Proof.
  intros U. unfold bring_up. apply wp_bind, wp_gets, wp_bind.
  apply (wp_mono _ (fun _ m' => upok (the_link m'))).
  { destruct (_ || _); [by apply wp_ret|apply ensure_mode_up]. }
  intros go m1 U1. destruct (negb go); [by apply wp_skip|]. apply wp_bind.
  apply (wp_mono _ (fun _ m' => upok (the_link m'))); [apply section_up; [done|intros; apply configure_pdp_up]|].
  intros go2 m2 U2. destruct (negb go2); [by apply wp_skip|]. apply wp_bind.
  apply (wp_mono _ (fun _ m' => upok (the_link m'))); [apply section_up; [done|intros; apply start_data_up]|].
  intros go3 m3 U3. destruct (negb go3); [by apply wp_skip|]. apply wp_bind.
  apply (wp_mono _ (fun _ m' => upok (the_link m'))); [apply section_up; [done|intros; by apply wait_netif_up]|].
  intros go4 m4 U4. destruct (negb go4); [by apply wp_skip|]. apply wp_bind, wp_gets.
  destruct (is_state Addressing m4); [by apply addressing_up|]. destruct (is_state Up m4); [apply hold_up_up|].
  by apply wp_skip.
Qed.

Lemma ecm_disconnect_down m : wp disconnect (fun _ m' =>
  state (link m') = Disabled /\ address (link m') = LinkAddress_default /\ want_up_ (link m') = false) m.
Proof.
  unfold disconnect. apply wp_bind, wp_modify, wp_bind.
  apply (wp_mono _ (fun _ m' => want_up_ (link m') = false)).
  { unfold stop_dhcp. apply wp_bind, wp_gets. apply wp_when; intros _; [apply wp_bind, wp_modify, wp_modify|]; done. }
  intros _ m1 E1. apply wp_bind, wp_gets, wp_bind.
  apply (wp_mono _ (fun _ m' => want_up_ (link m') = false)).
  { apply wp_when; intros _; [apply wp_bind, wp_modify, wp_modify|]; done. }
  intros _ m2 E2. by apply wp_modify.
Qed.

Lemma ecm_tick_up now s m : upok (link m) -> wp (tick now s) (fun _ m' => upok (the_link m')) m.
Proof.
  intros U. unfold tick. apply wp_bind, wp_modify, wp_bind, wp_gets.
  match goal with |- wp _ _ ?x => set (m1 := x) end. assert (U1 : upok (link m1)) by exact U.
  destruct (negb (want_up_ (link m1))).
  { apply wp_when; intros _; [|exact U1]. eapply wp_mono; [apply ecm_disconnect_down|].
    intros _ m' (E & _) E'. simpl in *. congruence. }
  apply wp_bind. wp_call (endure_link s m1). intros r m2 [E2 _]. rewrite <- E2 in U1. destruct r; [by apply wp_skip|].
  apply wp_bind. apply (wp_mono _ (fun _ m' => upok (link m'))); [by apply wp_when; intros _; [apply wp_modify|]|].
  intros _ m3 U3. destruct (negb _ || negb _) eqn:E1.
  { do 3 (apply wp_then; intros _ ?). apply wp_bind, wp_gets.
    match goal with |- wp _ _ ?x => set (m4 := x) end. destruct (is_state WaitReenumeration m4) eqn:Es.
    - apply wp_when; intros _; [apply ecm_upok_fail|]. unfold is_state in Es. bool_simpl. intros E. simpl in E. congruence.
    - apply ecm_upok_enter. by destruct (present s). }
  apply wp_bind. apply (wp_mono _ (fun _ m' => upok (link m'))).
  { apply wp_when; intros _; [by apply wp_modify|done]. }
  intros _ m4 U4. apply wp_bind, wp_gets. destruct (_ && _); [by apply wp_skip|].
  destruct (negb (bool_decide (sim s = SimReady))); [by apply ecm_upok_enter|].
  destruct (negb (reg_is_registered _)); [by apply ecm_upok_enter|]. by apply bring_up_up.
Qed.

#[global] Instance ecm_link : DataLink t :=
  {| dl_connect := connect; dl_disconnect := disconnect; dl_set_modem_port := fun _ => skip; dl_tick := tick |}.

#[global] Instance ecm_laws : DataLinkLaws t.
Proof.
  split.
  - exact ecm_law.
  - exact ecm_tick_logs.
  - exact ecm_tick_waits.
  - done.
  - exact ecm_connect_logs.
  - exact ecm_disconnect_logs.
  - intros m U. unfold dl_connect, ecm_link, connect. apply wp_bind, wp_gets. destruct (want_up_ _); [by apply wp_skip|].
    do 2 (apply wp_then; intros _ ?). by apply ecm_upok_enter.
  - exact ecm_disconnect_down.
  - exact ecm_tick_up.
Qed.
End Ecm.

(** ** Every switch of mode is made once *)

Local Open Scope nat_scope.

(** How often a command was sent. *)
Fixpoint sent (cmd : text) (l : list io) : nat :=
  match l with
  | [] => 0
  | AtCmd c :: l => (if text_eqb c cmd then 1 else 0) + sent cmd l
  | _ :: l => sent cmd l
  end.
Definition usbnet_switches (l : list io) : nat := sent USBNET_SWITCH l.
Definition nat_switches (l : list io) : nat := sent (nat_switch 0%Z) l + sent (nat_switch 1%Z) l.
Definition restarts (l : list io) : nat := sent RESTART l.

(** How often a connection was asked for that was not wanted before. *)
Fixpoint sessions (want : bool) (ops : list op) : nat :=
  match ops with
  | [] => 0
  | Connect :: ops => (if want then 0 else 1) + sessions true ops
  | Disconnect :: ops => sessions false ops
  | _ :: ops => sessions want ops
  end.
Fixpoint wanted (want : bool) (ops : list op) : bool :=
  match ops with
  | [] => want
  | Connect :: ops => wanted true ops
  | Disconnect :: ops => wanted false ops
  | _ :: ops => wanted want ops
  end.

Section Switches.
Context {W : World}.

Definition left_over (tried : bool) : nat := if tried then 0 else 1.

(** From [m] to [m'] each switch used up its one attempt. *)
Definition spent (m m' : t) : Prop :=
  want_up_ (link m') = want_up_ (link m)
  /\ usbnet_switches (log (link m')) + left_over (usbnet_switch_tried_ m')
     = usbnet_switches (log (link m)) + left_over (usbnet_switch_tried_ m)
  /\ nat_switches (log (link m')) + left_over (nat_switch_tried_ m')
     = nat_switches (log (link m)) + left_over (nat_switch_tried_ m)
  /\ restarts (log (link m')) + (usbnet_switches (log (link m)) + nat_switches (log (link m)))
     = restarts (log (link m)) + (usbnet_switches (log (link m')) + nat_switches (log (link m'))).

Lemma spent_trans m1 m2 m3 : spent m1 m2 -> spent m2 m3 -> spent m1 m3.
Proof. unfold spent. intros (? & ? & ? & ?) (? & ? & ? & ?). repeat split; [congruence|lia..]. Qed.

Definition spends {A} (c : ST t A) : Prop := forall m, wp c (fun _ m' => spent m m') m.

Lemma spends_bind {A B} (c : ST t A) (k : A -> ST t B) : spends c -> (forall a, spends (k a)) -> spends (c ≫= k).
Proof.
  intros Hc Hk m. apply wp_bind. eapply wp_mono; [apply Hc|]. intros a m1 H1. eapply wp_mono; [apply Hk|].
  intros b m2 H2. exact (spent_trans _ _ _ H1 H2).
Qed.
Lemma spends_when b c : spends c -> spends (when b c).
Proof. intros H. destruct b; [exact H|]. by intros m. Qed.
Lemma spends_gets {A} (f : t -> A) : spends (gets f).
Proof. by intros m. Qed.
Lemma spends_ret {A} (a : A) : spends (mret a).
Proof. by intros m. Qed.
Lemma spends_set_link f : (forall l, log (f l) = log l) -> (forall l, want_up_ (f l) = want_up_ l) -> spends (set_link f).
Proof. intros H1 H2 m. apply wp_modify. unfold spent. simpl. by rewrite H1, H2. Qed.
Lemma spends_modify f :
  (forall m, link (f m) = link m) -> (forall m, usbnet_switch_tried_ (f m) = usbnet_switch_tried_ m) ->
  (forall m, nat_switch_tried_ (f m) = nat_switch_tried_ m) -> spends (modify f).
Proof. intros H1 H2 H3 m. apply wp_modify. unfold spent. by rewrite H1, H2, H3. Qed.
Lemma spends_emit e : (forall c, e <> AtCmd c) -> spends (emit e).
Proof. intros H m. apply wp_modify. destruct e; try done. by destruct (H cmd). Qed.

(** A command of another kind. *)
Definition harmless (c : text) : Prop :=
  c <> USBNET_SWITCH /\ c <> RESTART /\ c <> nat_switch 0%Z /\ c <> nat_switch 1%Z.

Lemma text_eqb_ne a b : a <> b -> text_eqb a b = false.
Proof. intros H. by apply bool_decide_false. Qed.

Lemma spends_at c : harmless c -> spends (at_command c).
Proof.
  intros (H1 & H2 & H3 & H4) m. unfold at_command. apply wp_bind, wp_gets, wp_bind, wp_modify, wp_ret.
  unfold spent, usbnet_switches, nat_switches, restarts. simpl.
  rewrite (text_eqb_ne _ _ H1), (text_eqb_ne _ _ H2), (text_eqb_ne _ _ H3), (text_eqb_ne _ _ H4). done.
Qed.

Ltac spend_steps :=
  repeat match goal with
  | |- spends (_ ≫= _) => apply spends_bind; [|intros ?]
  | |- spends (mret _) => apply spends_ret
  | |- spends skip => apply (spends_ret tt)
  | |- spends (gets _) => apply spends_gets
  | |- spends (when _ _) => apply spends_when
  | |- spends (enter _) => apply spends_set_link; done
  | |- spends (emit _) => apply spends_emit; done
  | |- spends (set_link _) => apply spends_set_link; done
  | |- spends (count_failure _) => unfold count_failure
  | |- spends (fail _) => unfold fail
  | |- spends stop_dhcp => unfold stop_dhcp
  | |- spends (modify _) => apply spends_modify; done
  | |- spends (at_command _) => apply spends_at; unfold harmless; repeat split; discriminate
  | |- spends (if ?b then _ else _) => destruct b
  | |- spends (match ?x with _ => _ end) => destruct x
  end.

Lemma spends_usbnet now m : usbnet_switch_tried_ m = false ->
  wp (modify (fun m => m <| usbnet_switch_tried_ := true |>) ;; switch_mode now USBNET_SWITCH ;; mret false)
     (fun _ m' => spent m m') m.
Proof.
  intros Ht. unfold spent. rewrite Ht. unfold wp, usbnet_switches, nat_switches, restarts. simpl. repeat split; lia.
Qed.

Lemma spends_nat now n m : n = 0%Z \/ n = 1%Z -> nat_switch_tried_ m = false ->
  wp (modify (fun m => m <| nat_switch_tried_ := true |>) ;; switch_mode now (nat_switch n) ;; mret false)
     (fun _ m' => spent m m') m.
Proof.
  intros Hn Ht. unfold spent. rewrite Ht. unfold wp, usbnet_switches, nat_switches, restarts.
  destruct Hn as [-> | ->]; simpl; repeat split; lia.
Qed.

Lemma spends_wp {A} (c : ST t A) m m' : spent m m' -> spends c -> wp c (fun _ m'' => spent m m'') m'.
Proof. intros H Hc. eapply wp_mono; [apply Hc|]. intros a m2 H2. exact (spent_trans _ _ _ H H2). Qed.

Lemma spends_ensure_mode now : spends (ensure_mode now).
Proof.
  unfold ensure_mode. do 2 (apply spends_bind; [spend_steps|intros ?]).
  destruct (parse_qcfg_int _ _) as [u|]; [|spend_steps]. intros m. apply wp_bind, wp_gets. destruct (negb (Z.eqb u 1)).
  { destruct (usbnet_switch_tried_ m) eqn:Eu; [|by apply spends_usbnet].
    match goal with |- wp ?c _ _ => assert (K : spends c) by spend_steps; apply K end. }
  assert (Hq : spends (at_command (txt "AT+QCFG=" ++ quoted (txt "nat")))) by spend_steps.
  pose proof (Hq m) as H0. apply wp_bind. apply (wp_mono _ (fun _ m' => spent m m' /\ nat_switch_tried_ m' = nat_switch_tried_ m)).
  { by apply (wp_conj _ _ (fun _ m' => nat_switch_tried_ m' = nat_switch_tried_ m)). }
  intros y m1 [H1 E1]. cbv zeta. rewrite <- E1. destruct (_ && negb (nat_switch_tried_ m1)) eqn:En.
  - apply andb_true_iff in En as [_ En]. apply negb_true_iff in En.
    eapply wp_mono; [apply spends_nat; [destruct (nic_mode _); auto|exact En]|].
    intros b m2 H2. exact (spent_trans _ _ _ H1 H2).
  - apply spends_wp; [exact H1|]. spend_steps.
Qed.

Lemma spends_configure_pdp now : spends (configure_pdp now).
Proof. unfold configure_pdp. spend_steps. Qed.
Lemma spends_start_data now : spends (start_data now).
Proof. unfold start_data. spend_steps. Qed.
Lemma spends_wait_netif now : spends (wait_netif now).
Proof. unfold wait_netif. spend_steps. Qed.
Lemma spends_addressing now : spends (addressing now).
Proof. unfold addressing, static_fallback. spend_steps. Qed.
Lemma spends_hold_up now : spends (hold_up now).
Proof. unfold hold_up. spend_steps. Qed.
Lemma spends_section s body : spends body -> spends (section s body).
Proof. intros H m. unfold section. apply wp_bind, wp_gets. destruct (is_state s m); [apply H|done]. Qed.

Lemma spends_bring_up now : spends (bring_up now).
Proof.
  unfold bring_up. repeat match goal with
  | |- spends (section _ _) => apply spends_section
  | |- spends (ensure_mode _) => apply spends_ensure_mode
  | |- spends (configure_pdp _) => apply spends_configure_pdp
  | |- spends (start_data _) => apply spends_start_data
  | |- spends (wait_netif _) => apply spends_wait_netif
  | |- spends (addressing _) => apply spends_addressing
  | |- spends (hold_up _) => apply spends_hold_up
  | |- _ => progress spend_steps
  end.
Qed.

Lemma spends_tick now s m : wp (tick now s) (fun _ m' => spent m m') m.
Proof.
  unfold tick. apply wp_bind. apply (wp_mono _ (fun _ m1 => spent m m1)).
  { match goal with |- wp ?c _ _ => assert (K : spends c) by spend_steps; apply K end. }
  intros u m1 H1. apply wp_bind, wp_gets. destruct (want_up_ (link m1)) eqn:Ew; cbn [negb].
  - apply spends_wp; [exact H1|]. unfold endure. spend_steps. apply spends_bring_up.
  - apply wp_when; intros _; [|exact H1].
    apply (wp_mono _ (fun _ m' => spent m1 m')); [|intros v m2 H2; exact (spent_trans _ _ _ H1 H2)].
    unfold disconnect. apply wp_bind, wp_modify. match goal with |- wp _ _ ?x => set (m2 := x) end.
    assert (H2 : spent m1 m2) by (unfold spent, m2; simpl; by rewrite Ew).
    apply spends_wp; [exact H2|]. spend_steps.
Qed.

(** [n] sessions so far. *)
Definition switch_inv (n : nat) (m : t) : Prop :=
  usbnet_switches (log (link m)) + (if want_up_ (link m) then left_over (usbnet_switch_tried_ m) else 0) <= n
  /\ nat_switches (log (link m)) + (if want_up_ (link m) then left_over (nat_switch_tried_ m) else 0) <= n
  /\ restarts (log (link m)) = usbnet_switches (log (link m)) + nat_switches (log (link m)).

Lemma sent_passive cmd new l : Forall passive new -> sent cmd (new ++ l) = sent cmd l.
Proof. induction 1 as [|e new He Hn IH]; [done|]. by destruct e. Qed.

Lemma passive_inv n m m' :
  switch_inv n m -> grows passive (log (link m)) (log (link m')) ->
  want_up_ (link m') = false \/
    want_up_ (link m') = want_up_ (link m) /\ usbnet_switch_tried_ m' = usbnet_switch_tried_ m
    /\ nat_switch_tried_ m' = nat_switch_tried_ m ->
  switch_inv n m'.
Proof.
  unfold switch_inv, usbnet_switches, nat_switches, restarts. intros (Hu & Hn & Hr) (new & -> & Hp) H.
  rewrite !sent_passive by done. destruct H as [-> | (-> & -> & ->)]; [|done]. repeat split; lia.
Qed.

(** A tick does not change what is wanted. *)
Lemma tick_want now s m : want_up_ (link (exec (tick now s) m)) = want_up_ (link m).
Proof. apply (spends_tick now s m). Qed.

Lemma switch_step n o m : switch_inv n m ->
  switch_inv (n + sessions (want_up_ (link m)) [o]) (step o m)
  /\ want_up_ (link (step o m)) = wanted (want_up_ (link m)) [o].
Proof.
  intros I. destruct o as [| |c|tty|now s]; cbn [step sessions wanted]; rewrite ?Nat.add_0_r.
  - assert (E : exec connect m = if want_up_ (link m) then m else
      m <| link ::= fun l => l <| want_up_ := true |> <| attempts := 0%Z |> <| next_due_ms_ := 0%Z |> <| state := WaitDevice |> |>
        <| usbnet_switch_tried_ := false |> <| nat_switch_tried_ := false |>).
    { unfold exec, connect, gets, mbind, st_bind. simpl. by destruct (want_up_ (link m)). }
    change (exec dl_connect m) with (exec connect m). rewrite E. destruct (want_up_ (link m)) eqn:Ew.
    { split; [|exact Ew]. by rewrite Nat.add_0_r. }
    split; [|done]. unfold switch_inv in *. rewrite Ew in I. simpl. lia.
  - destruct (ecm_disconnect_down m) as (_ & _ & Hw). split; [|exact Hw].
    apply (passive_inv n m); [exact I|apply (ecm_disconnect_logs m)|by left].
  - by split.
  - by split.
  - pose proof (tick_want now s m) as Hw. split; [|exact Hw]. change (dl_tick now s) with (tick now s).
    assert (spent m (exec (tick now s) m)) as (_ & Hu & Hn & Hr) by apply (spends_tick now s m).
    unfold switch_inv in *. rewrite Hw. destruct (want_up_ (link m)) eqn:Ew; [lia|].
    assert (G : grows passive (TickAt now s :: log (link m)) (log (link (exec (tick now s) m)))).
    { apply (ecm_tick_waits now s m). left. by rewrite Ew. }
    destruct G as (new & E & Hp). rewrite E. unfold usbnet_switches, nat_switches, restarts in *.
    rewrite !sent_passive by done. exact I.
Qed.

Lemma switch_history ops n m : switch_inv n m -> switch_inv (n + sessions (want_up_ (link m)) ops) (run ops m).
Proof.
  revert n m. induction ops as [|o ops IH]; intros n m I; [by rewrite Nat.add_0_r|].
  destruct (switch_step n o m I) as [I1 W1]. specialize (IH _ _ I1). cbn [run foldl] in *. rewrite W1 in IH.
  replace (n + sessions (want_up_ (link m)) (o :: ops)) with
    (n + sessions (want_up_ (link m)) [o] + sessions (wanted (want_up_ (link m)) [o]) ops); [exact IH|].
  destruct o, (want_up_ (link m)); cbn [sessions wanted]; lia.
Qed.

(** Every change of mode is tried once.  In any history of an ECM link,
    whatever the modem answers, the command that changes its USB mode and the
    one that changes its NAT mode are each sent at most once for every time a
    connection is newly asked for, and the modem is restarted exactly once for
    each of them: there is no loop of switching and restarting. *)
Theorem ecm_switch_once (ops : list op) :
  let m := run ops make in let n := sessions false ops in
  usbnet_switches (log (link m)) <= n /\ nat_switches (log (link m)) <= n
  /\ restarts (log (link m)) = usbnet_switches (log (link m)) + nat_switches (log (link m)).
Proof.
  intros m n. assert (I : switch_inv (0 + n) m) by (apply (switch_history ops 0 make); by repeat split).
  destruct I as (Hu & Hn & Hr). repeat split; [lia..|exact Hr].
Qed.
End Switches.
