(* ===== verification/PppLink.v ===== *)
(** * The PPP data link

    [core/cellular/ppp_link.{hpp,cpp}]: the state machine that dials with pppd. *)

From S2P Require Import Prelude CoreTypes Text At SimManager DataLink.


Record t := mk { link : Link; modem_tty_ : text; negotiate_deadline_ms_ : Z; started_ : bool }.
#[export] Instance eta : Settable t := fun r =>
  mk (link r) (modem_tty_ r) (negotiate_deadline_ms_ r) (started_ r).

#[global] Instance ppp_has_link : HasLink t := { the_link := link; on_link f m := m <| link ::= f |> }.

Definition make : t := mk Link_default [] 0 false.

Definition kNegotiateWaitMs : Z := 12000.
Definition kDialWaitMs : Z := 8000.

Section Ppp.
Context {W : World}.

(** [if (started_) { be_.stop(); started_ = false; }]. *)
Definition stop_pppd : ST t unit :=
  st ← gets started_;
  when st (emit PppStop ;; modify (fun m => m <| started_ := false |>)).

Definition fail (now : Z) : ST t unit :=
  count_failure now ;;
  stop_pppd ;;
  enter Failed.

Definition set_modem_port (tty : text) : ST t unit := modify (fun m => m <| modem_tty_ := tty |>).

Definition connect : ST t unit :=
  m ← gets (fun m => m);
  if want_up_ (link m) then skip else
  set_link (fun l => l <| want_up_ := true |> <| attempts := 0 |> <| next_due_ms_ := 0 |> <| state := WaitDevice |>).

Definition disconnect : ST t unit :=
  set_link (fun l => l <| want_up_ := false |>) ;;
  stop_pppd ;;
  set_link (fun l => l <| interface_name := [] |> <| address := LinkAddress_default |> <| modem_pdp_address := [] |>
                       <| attempts := 0 |> <| next_due_ms_ := 0 |> <| state := Disabled |>).

(** The section of [tick] for a pppd that was started. *)
Definition watch_call (now : Z) (status : option PppStatus) : ST t unit :=
  match status with
  | None => skip
  | Some ps =>
      if negb (ps_running ps) then
        modify (fun m => m <| started_ := false |>) ;; fail now
      else if negb (bool_decide (ps_ifname ps = [])) && has_address (ps_address ps) then
        set_link (fun l => l <| interface_name := ps_ifname ps |> <| address := ps_address ps |>
                             <| attempts := 0 |> <| next_due_ms_ := 0 |> <| state := Up |>)
      else
        set_link (fun l => l <| interface_name := ps_ifname ps |>) ;;
        m ← gets (fun m => m);
        if negotiate_deadline_ms_ m <? now then fail now
        else enter (if bool_decide (ps_ifname ps = []) then Dial else Negotiating)
  end.

(** The section of [tick] that dials. *)
Definition place_call (now : Z) : ST t unit :=
  m ← gets (fun m => m);
  let c := cfg_ (link m) in
  if bool_decide (modem_tty_ m = []) then enter WaitDevice
  else if bool_decide (apn c = []) then fail now
  else
    enter ConfigurePdp ;;
    at_command (txt "AT+CGACT=0,1") ;;
    x ← at_command (txt "AT+CGDCONT=1," ++ quoted (txt (pdp_type_name (pdp c))) ++ txt "," ++ quoted (apn c));
    if negb (x_ok x) then fail now else
    let req := mkRequest (modem_tty_ m) (apn c) (if bool_decide (dial c = []) then txt "*99***1#" else dial c)
                         (pdp c) (auth c) (username c) (password c) in
    rc ← gets (fun m => w_ppp_start (log (link m)) req);
    emit (PppStart req (is_ok rc)) ;;
    if negb (is_ok rc) then fail now else
    modify (fun m => m <| started_ := true |> <| negotiate_deadline_ms_ := now + kDialWaitMs + kNegotiateWaitMs |>) ;;
    enter Dial.

(** [tick]; [now] is the clock during the call. *)
Definition tick (now : Z) (s : CellularStatus) : ST t unit :=
  emit (TickAt now s) ;;
  m ← gets (fun m => m);
  if negb (want_up_ (link m)) then
    when (negb (bool_decide (state (link m) = Disabled))) disconnect
  else
    let ps := w_ppp_status (log (link m)) in
    if negb (present s) || negb (responsive s) then
      stop_pppd ;;
      set_link (fun l => l <| interface_name := [] |> <| address := LinkAddress_default |>) ;;
      enter (if present s then WaitAt else WaitDevice)
    else if bool_decide (state (link m) = Failed) && negb (due now m) then skip
    else if negb (bool_decide (sim s = SimReady)) then enter WaitSim
    else if negb (reg_is_registered (registration s)) then enter WaitRegistration
    else if started_ m then watch_call now ps
    else place_call now.
End Ppp.

(** ** The laws of a data link *)

Section Ppp.
Context {W : World}.

Lemma ppp_law f (m : t) : the_link (on_link f m) = f (the_link m).
Proof. done. Qed.

Lemma stop_pppd_logs : logs passive stop_pppd.
Proof. unfold stop_pppd. log_steps. Qed.
Lemma ppp_fail_logs now : logs passive (fail now).
Proof. unfold fail. log_steps. apply stop_pppd_logs. Qed.
Lemma ppp_disconnect_logs : logs passive disconnect.
Proof. unfold disconnect. log_steps. apply stop_pppd_logs. Qed.
Lemma ppp_connect_logs : logs passive connect.
Proof. unfold connect. log_steps. Qed.
Lemma watch_call_logs now ps : logs passive (watch_call now ps).
Proof. unfold watch_call. log_steps; apply ppp_fail_logs. Qed.

Lemma place_call_logs now : logs any_call (place_call now).
Proof.
  assert (Hf : logs any_call (fail now)) by (eapply logs_weaken, ppp_fail_logs; apply passive_any).
  unfold place_call. log_steps; exact Hf.
Qed.

Lemma ppp_tick_waits now s m :
  want_up_ (link m) && ready_for_data s = false
  \/ want_up_ (link m) = true /\ state (link m) = Failed /\ due now m = false ->
  wp (tick now s) (fun _ m' => grows passive (TickAt now s :: log (link m)) (log (link m'))) m.
Proof.
  intros H. unfold tick. apply wp_bind, wp_modify, wp_bind, wp_gets. simpl.
  match goal with |- wp _ _ ?x => set (m1 := x) end.
  change (TickAt now s :: log (link m)) with (log (the_link m1)).
  assert (G : forall c : ST t unit, logs passive c -> wp c (fun _ m' => grows passive (log (the_link m1)) (log (link m'))) m1).
  { intros c Hc. apply Hc. }
  destruct (want_up_ (link m)) eqn:Ew; cbn [negb andb] in *.
  2: { apply wp_when; intros _; [apply G, ppp_disconnect_logs|apply grows_refl]. }
  destruct (negb (present s) || negb (responsive s)) eqn:E1.
  { apply G. apply logs_bind; [apply stop_pppd_logs|intros _]. log_steps. }
  destruct (bool_decide (state (link m) = Failed) && negb (due now m1)) eqn:E2; [apply G; log_steps|].
  assert (Hr : ready_for_data s = false).
  { destruct H as [H|(_ & Hf & Hd)]; [done|]. exfalso. rewrite bool_decide_true in E2 by done.
    change (due now m1) with (due now m) in E2. rewrite Hd in E2. done. }
  unfold ready_for_data in Hr. destruct (present s), (responsive s); try done. cbn [andb] in Hr.
  destruct (bool_decide (sim s = SimReady)) eqn:E3; cbn [negb andb] in *; [|apply G; log_steps].
  rewrite Hr. cbn [negb]. apply G. log_steps.
Qed.

Lemma ppp_tick_logs now s m :
  wp (tick now s) (fun _ m' => grows any_call (TickAt now s :: log (link m)) (log (link m'))) m.
Proof.
  unfold tick. apply wp_bind, wp_modify. match goal with |- wp _ _ ?x => set (m1 := x) end.
  change (TickAt now s :: log (link m)) with (log (the_link m1)).
  assert (Hd : logs any_call disconnect) by (eapply logs_weaken, ppp_disconnect_logs; apply passive_any).
  assert (Hs : logs any_call stop_pppd) by (eapply logs_weaken, stop_pppd_logs; apply passive_any).
  assert (Hw : forall ps, logs any_call (watch_call now ps)) by (intros ps; eapply logs_weaken, watch_call_logs; apply passive_any).
  match goal with |- wp ?c _ _ => assert (G : logs any_call c); [|apply G] end.
  log_steps; auto using place_call_logs.
Qed.

Lemma ppp_upok_enter s (m : t) : s <> Up -> wp (enter s) (fun _ m' => upok (the_link m')) m.
Proof. intros Hs. apply wp_modify. by intros E. Qed.

Lemma ppp_upok_fail now m : wp (fail now) (fun _ m' => upok (the_link m')) m.
Proof. unfold fail. do 2 (apply wp_then; intros _ ?). by apply ppp_upok_enter. Qed.

Lemma watch_call_up now ps m : upok (link m) -> wp (watch_call now ps) (fun _ m' => upok (the_link m')) m.
Proof.
  intros U. unfold watch_call. destruct ps as [ps|]; [|by apply wp_skip].
  destruct (negb (ps_running ps)); [apply wp_then; intros _ ?; apply ppp_upok_fail|].
  destruct (negb _ && has_address (ps_address ps)) eqn:E.
  - apply wp_modify. intros _. by apply andb_true_iff in E as [_ E].
  - apply wp_then. intros _ m1. apply wp_bind, wp_gets. destruct (_ <? _); [apply ppp_upok_fail|].
    apply ppp_upok_enter. by destruct (bool_decide _).
Qed.

Lemma place_call_up now m : wp (place_call now) (fun _ m' => upok (the_link m')) m.
Proof.
  unfold place_call. apply wp_bind, wp_gets. cbv zeta. destruct (bool_decide (modem_tty_ m = [])); [by apply ppp_upok_enter|].
  destruct (bool_decide (apn _ = [])); [apply ppp_upok_fail|].
  do 2 (apply wp_then; intros _ ?). apply wp_then. intros x ?. destruct (negb _); [apply ppp_upok_fail|].
  apply wp_then. intros rc ?. apply wp_then. intros _ ?. destruct (negb _); [apply ppp_upok_fail|].
  apply wp_then. intros _ ?. by apply ppp_upok_enter.
Qed.

Lemma ppp_disconnect_down m : wp disconnect (fun _ m' =>
  state (link m') = Disabled /\ address (link m') = LinkAddress_default /\ want_up_ (link m') = false) m.
Proof.
  unfold disconnect. apply wp_bind, wp_modify, wp_bind. unfold stop_pppd. apply wp_bind, wp_gets.
  apply wp_when; intros _; [apply wp_bind, wp_modify, wp_modify|]; apply wp_modify; done.
Qed.

Lemma ppp_tick_up now s m : upok (link m) -> wp (tick now s) (fun _ m' => upok (the_link m')) m.
Proof.
  intros U. unfold tick. apply wp_bind, wp_modify, wp_bind, wp_gets. simpl.
  destruct (negb (want_up_ (link m))).
  { apply wp_when; intros _; [|exact U]. eapply wp_mono; [apply ppp_disconnect_down|].
    intros _ m' (E & _) E'. simpl in *. congruence. }
  destruct (negb _ || negb _); [do 2 (apply wp_then; intros _ ?); apply ppp_upok_enter; by destruct (present s)|].
  destruct (_ && _); [by apply wp_skip|]. destruct (negb _); [by apply ppp_upok_enter|].
  destruct (negb _); [by apply ppp_upok_enter|]. destruct (started_ m); [by apply watch_call_up|apply place_call_up].
Qed.

#[global] Instance ppp_link : DataLink t :=
  {| dl_connect := connect; dl_disconnect := disconnect; dl_set_modem_port := set_modem_port; dl_tick := tick |}.

#[global] Instance ppp_laws : DataLinkLaws t.
Proof.
  split.
  - exact ppp_law.
  - exact ppp_tick_logs.
  - exact ppp_tick_waits.
  - done.
  - exact ppp_connect_logs.
  - exact ppp_disconnect_logs.
  - intros m U. unfold dl_connect, ppp_link, connect. apply wp_bind, wp_gets. destruct (want_up_ _); [by apply wp_skip|].
    by apply wp_modify.
  - exact ppp_disconnect_down.
  - exact ppp_tick_up.
Qed.
End Ppp.

(** ** One pppd at a time *)

Section OnePppd.
Context {W : World}.

(** Something ended the pppd started at the end of [older]: a stop, or a tick
    in which it was reported as no longer running. *)
Definition ended (newer older : list io) : Prop :=
  In PppStop newer
  \/ exists l now s rest ps, newer = l ++ TickAt now s :: rest
       /\ w_ppp_status (TickAt now s :: rest ++ older) = Some ps /\ ps_running ps = false.

(** No pppd is left of those started so far. *)
Definition quiet (l : list io) : Prop :=
  forall newer r older, l = newer ++ PppStart r true :: older -> ended newer (PppStart r true :: older).

(** Each start found none left. *)
Definition alternates (l : list io) : Prop :=
  forall newer r ok older, l = newer ++ PppStart r ok :: older -> quiet older.

Lemma ended_cons e newer older : ended newer older -> ended (e :: newer) older.
Proof.
  intros [H|(l & now & s & rest & ps & -> & H)]; [by left; right|].
  right. by exists (e :: l), now, s, rest, ps.
Qed.

Definition is_start (e : io) : Prop := match e with PppStart _ _ => True | _ => False end.

Lemma quiet_cons e l : (forall r, e <> PppStart r true) -> quiet l -> quiet (e :: l).
Proof.
  intros He Hq newer r older E. destruct newer as [|y newer]; injection E as E1 E2; [by destruct (He r)|].
  apply ended_cons. by apply (Hq newer r older).
Qed.

Lemma quiet_stop l : quiet (PppStop :: l).
Proof. intros newer r older E. destruct newer as [|y newer]; injection E as E1 E2; [done|]. subst y. by left; left. Qed.

Lemma quiet_dead now s l ps : w_ppp_status (TickAt now s :: l) = Some ps -> ps_running ps = false -> quiet (TickAt now s :: l).
Proof.
  intros Hs Hr newer r older E. destruct newer as [|y newer]; injection E as E1 E2; [done|]. subst y. right.
  exists [], now, s, newer, ps. rewrite E2 in Hs. by rewrite app_comm_cons in Hs |- *.
Qed.

Lemma alternates_cons e l : (is_start e -> quiet l) -> alternates l -> alternates (e :: l).
Proof.
  intros He Ha newer r ok older E. destruct newer as [|y newer]; injection E as E1 E2; subst; [by apply He|].
  by apply (Ha newer r ok older).
Qed.

(** [started_] says whether a pppd may be there. *)
Definition pppd_inv (m : t) : Prop := alternates (log (link m)) /\ (started_ m = false -> quiet (log (link m))).

Definition keeps {A} (c : ST t A) : Prop := forall m, pppd_inv m -> wp c (fun _ m' => pppd_inv m') m.

Lemma keeps_bind {A B} (c : ST t A) (k : A -> ST t B) : keeps c -> (forall a, keeps (k a)) -> keeps (c ≫= k).
Proof. intros Hc Hk m I. apply wp_bind. eapply wp_mono; [by apply Hc|]. intros a m1 I1. by apply Hk. Qed.
Lemma keeps_set_link f : (forall l, log (f l) = log l) -> keeps (set_link f).
Proof. intros Hf m [I1 I2]. apply wp_modify. by split; simpl; rewrite Hf. Qed.
Lemma keeps_emit e : ~ is_start e -> keeps (emit e).
Proof.
  intros He m [I1 I2]. apply wp_modify. split; [by apply alternates_cons|]. intros Hs. apply quiet_cons; [|by apply I2].
  intros r E. by subst e; destruct He.
Qed.
Lemma keeps_port (d : Z) : keeps (modify (fun m => m <| negotiate_deadline_ms_ := d |>)).
Proof. intros m I. by apply wp_modify. Qed.

Lemma stop_pppd_quiet m : pppd_inv m -> wp stop_pppd (fun _ m' => pppd_inv m') m.
Proof.
  intros I. unfold stop_pppd. apply wp_bind, wp_gets. apply wp_when; intros Hs; [|done].
  apply wp_bind, wp_modify, wp_modify. split; simpl; [apply alternates_cons; [done|apply I]|]. intros _. apply quiet_stop.
Qed.

Ltac keep_steps :=
  repeat match goal with
  | |- keeps (_ ≫= _) => apply keeps_bind; [|intros ?]
  | |- keeps (set_link _) => apply keeps_set_link; done
  | |- keeps (enter _) => apply keeps_set_link; done
  | |- keeps stop_pppd => exact stop_pppd_quiet
  end.

Lemma keeps_fail now : keeps (fail now).
Proof.
  unfold fail, count_failure. keep_steps.
Qed.

Lemma keeps_connect : keeps connect.
Proof. intros m I. unfold connect. apply wp_bind, wp_gets. destruct (want_up_ _); [done|]. by apply keeps_set_link. Qed.

Lemma keeps_disconnect : keeps disconnect.
Proof. unfold disconnect. keep_steps. Qed.

Lemma keeps_place_call now m : started_ m = false -> pppd_inv m -> wp (place_call now) (fun _ m' => pppd_inv m') m.
Proof.
  intros Hs I. unfold place_call. apply wp_bind, wp_gets. cbv zeta.
  destruct (bool_decide (modem_tty_ m = [])); [by apply keeps_set_link|].
  destruct (bool_decide (apn _ = [])); [by apply keeps_fail|].
  pose (K := fun m1 : t => pppd_inv m1 /\ started_ m1 = false).
  assert (KI : K m) by done. clear I Hs.
  assert (Ka : forall cmd m1, K m1 -> wp (at_command cmd) (fun _ m' => K m') m1).
  { intros cmd m1 [[A1 Q1] S1]. unfold at_command. apply wp_bind, wp_gets, wp_bind, wp_modify, wp_ret.
    split; [split|exact S1]; simpl; [by apply alternates_cons|]. intros _. apply quiet_cons; [done|by apply Q1]. }
  apply wp_bind, wp_modify, wp_bind. apply (wp_mono _ (fun _ m' => K m')); [apply Ka, KI|]. intros x1 m1 K1.
  apply wp_bind. apply (wp_mono _ (fun _ m' => K m')); [apply Ka, K1|]. intros x m2 K2. destruct (negb (x_ok x)); [apply keeps_fail, K2|].
  apply wp_bind, wp_gets. destruct K2 as [[A2 Q2] S2].
  match goal with |- context [is_ok ?r] => generalize (is_ok r) end. intros ok. apply wp_bind, wp_modify.
  match goal with |- wp _ _ ?x => set (m3 := x) end.
  assert (A3 : alternates (log (link m3))) by (apply alternates_cons; [intros _; by apply Q2|exact A2]).
  destruct ok; cbn [negb].
  2: { apply keeps_fail. split; [exact A3|]. intros _. by apply quiet_cons; [|apply Q2]. }
  apply wp_bind, wp_modify, wp_modify. by split.
Qed.

Lemma keeps_watch_call now status m :
  pppd_inv m -> (forall ps, status = Some ps -> ps_running ps = false -> quiet (log (link m))) ->
  wp (watch_call now status) (fun _ m' => pppd_inv m') m.
Proof.
  intros I Hq. unfold watch_call. destruct status as [ps|]; [|done]. destruct (ps_running ps) eqn:Er; cbn [negb].
  - destruct (negb _ && _); [by apply keeps_set_link|]. apply wp_bind. apply (wp_mono _ (fun _ m' => pppd_inv m')); [by apply keeps_set_link|].
    intros u m1 I1. apply wp_bind, wp_gets. destruct (_ <? _); [by apply keeps_fail|by apply keeps_set_link].
  - apply wp_bind, wp_modify, keeps_fail. split; [apply I|]. intros _. by apply (Hq ps).
Qed.

Lemma keeps_tick now s : keeps (tick now s).
Proof.
  intros m I. unfold tick. apply wp_bind. apply (wp_mono _ (fun _ m1 => pppd_inv m1 /\ log (link m1) = TickAt now s :: log (link m))).
  { apply wp_modify. split; [|done]. by apply (keeps_emit (TickAt now s) (fun F => F)). }
  intros _ m1 [I1 E1]. apply wp_bind, wp_gets. destruct (negb (want_up_ _)).
  { apply wp_when; intros _; [by apply keeps_disconnect|done]. }
  destruct (negb _ || negb _). { assert (K : keeps (stop_pppd ;; set_link (fun l => l <| interface_name := [] |> <| address := LinkAddress_default |>) ;;
      enter (if present s then WaitAt else WaitDevice))) by keep_steps. by apply K. }
  destruct (_ && _); [done|]. destruct (negb _); [by apply keeps_set_link|]. destruct (negb _); [by apply keeps_set_link|].
  destruct (started_ m1) eqn:Es; [|by apply keeps_place_call]. apply keeps_watch_call; [done|].
  intros ps Hs Hr. rewrite E1 in Hs |- *. by eapply quiet_dead.
Qed.

Lemma keeps_step o m : pppd_inv m -> pppd_inv (step o m).
Proof.
  intros I. destruct o as [| |c|tty|now s]; cbn [step].
  - by apply keeps_connect.
  - by apply keeps_disconnect.
  - by apply keeps_set_link.
  - exact I.
  - by apply keeps_tick.
Qed.

(** C13. One pppd at a time.  In any history of a PPP link, between a start of
    pppd that succeeded and the next attempt to start one, the first was stopped
    or a tick was told that it was no longer running; and while [started_] is
    false none is left.  Not being able to look is not taken for the end. *)
Theorem one_pppd (ops : list op) :
  let m := run ops make in
  (forall newer r ok mid r' older,
     log (link m) = newer ++ PppStart r ok :: mid ++ PppStart r' true :: older ->
     ended mid (PppStart r' true :: older))
  /\ (started_ m = false -> quiet (log (link m))).
Proof.
  intros m. assert (I : pppd_inv m).
  { unfold m, run. assert (I0 : pppd_inv make).
    { split; [intros newer r ok older E; by destruct newer|]. intros _ newer r older E. by destruct newer. }
    revert I0. generalize make. induction ops as [|o ops IH]; intros m0 I0; [done|]. cbn [foldl]. by apply IH, keeps_step. }
  destruct I as [Ha Hq]. split; [|exact Hq]. intros newer r ok mid r' older E. by apply (Ha _ _ _ _ E mid r' older).
Qed.
End OnePppd.
