(* ===== verification/LinkHistory.v ===== *)
(** * Both data links behind [ICellularDataLink]

    The instances of PppLink.v and EcmLink.v run through the same histories. *)

From S2P Require Import Prelude CoreTypes Text At SimManager DataLink PppLink EcmLink.

(** A data link never works against the network.  Both links, whatever the
    modem, the network stack and pppd answer and in any history: a command, an
    interface, a DHCP client or a pppd is only asked for in a tick on a modem
    that is present, answers, has its card ready and is registered; without that
    a tick takes down at most what is there; and a link that reports Up has an
    address. *)
Theorem links_wait_for_network (W : World) (ops : list op) :
  (let m := run ops EcmLink.make in guarded (log (the_link m)) /\ upok (the_link m))
  /\ (let m := run ops PppLink.make in guarded (log (the_link m)) /\ upok (the_link m)).
Proof. split; apply history_inv; (split; [apply guarded_nil|by intros E]). Qed.

(** ** Runs of the links in one world *)

(** A modem in ECM and NIC mode that accepts every command and knows its
    context, on an interface that is [usb0] up to second 50 and [usb1] later;
    DHCP starts and [dhcp] says where it has given an address; pppd starts and
    [ppp] says what it reports. *)
Definition answer (cmd : text) : AtExchange :=
  let raw := if text_eqb cmd (q "AT+QCFG='usbnet'") then q "+QCFG: 'usbnet',1"
             else if text_eqb cmd (q "AT+QCFG='nat'") then q "+QCFG: 'nat',1"
             else if text_eqb cmd (txt "AT+CGCONTRDP=1") then
               q "+CGCONTRDP: 1,5,'net','37.82.1.2','37.82.1.1','10.0.0.1','10.0.0.2'"
             else [] in
  mkExchange AtOk raw raw false false.

Fixpoint last_tick (l : list io) : Z :=
  match l with [] => 0 | TickAt now _ :: _ => now | _ :: l => last_tick l end.

Definition leased : LinkAddress := mkAddress (txt "192.168.43.2") (txt "255.255.255.0") (txt "192.168.43.1") [] [].

Definition world (dhcp : text -> option LinkAddress) (ppp : Z -> option PppStatus) : World := {|
  w_at _ cmd := answer cmd;
  w_find_interface l := Some (txt (if last_tick l <=? 50000 then "usb0" else "usb1"));
  w_dhcp_start _ _ := true;
  w_read_address _ i := dhcp i;
  w_set_address _ _ _ := true;
  w_ppp_status l := ppp (last_tick l);
  w_ppp_start _ _ := Res.ok
|}.

Definition some_apn : CellularConfig := mkCellular (txt "net") Ipv4 AuthNone [] [] true [].
Definition registered : CellularStatus := mkStatus true true SimReady RegisteredHome.
Definition silent : CellularStatus := mkStatus true false SimReady RegisteredHome.
Definition searching : CellularStatus := mkStatus true true SimReady Searching.

(** Both links come up. *)
Example ecm_comes_up :
  let W := world (fun _ => Some leased) (fun _ => None) in
  let m := run [Config some_apn; Connect; Tick 1000 registered] EcmLink.make in
  state (the_link m) = Up /\ address (the_link m) = leased /\ Forall (fun e => e <> AtCmd RESTART) (log (the_link m)).
Proof. vm_compute. repeat split. repeat constructor; discriminate. Qed.

Example ppp_comes_up :
  let W := world (fun _ => None) (fun now => Some (mkPpp true (if now <=? 3000 then [] else txt "ppp0") leased ExitNone)) in
  let m := run [Config some_apn; ModemPort (txt "/dev/ttyUSB4"); Connect; Tick 1000 registered; Tick 2000 registered;
                Tick 5000 registered] PppLink.make in
  state (the_link m) = Up /\ interface_name (the_link m) = txt "ppp0".
Proof. vm_compute. repeat split. Qed.

(** A network interface that comes back under another name while the modem is
    searching: DHCP is not started on it, and when its address does not come the
    client that is stopped is not the one that runs. *)
Example client_left_running :
  let W := world (fun _ => None) (fun _ => None) in
  let m := run [Config some_apn; Connect; Tick 40000 registered; Tick 60000 searching; Tick 61000 registered;
                Tick 95000 registered] EcmLink.make in
  In (DhcpStart (txt "usb0") true) (log (the_link m))
  /\ ~ In (DhcpStop (txt "usb0")) (log (the_link m)) /\ ~ In (DhcpStart (txt "usb1") true) (log (the_link m))
  /\ In (DhcpStop (txt "usb1")) (log (the_link m)) /\ EcmLink.dhcp_running_ m = false.
Proof.
  vm_compute. repeat split; repeat (first [by left | right]); intros H; repeat (destruct H as [H|H]; [discriminate|]); done.
Qed.

(** One tick without an answer lifts the wait after a failure: the fifth failure
    asks for 30 seconds, and two seconds later the modem is asked again. *)
Example silence_lifts_the_wait :
  let W := world (fun _ => None) (fun _ => None) in
  let m := run [Config CellularConfig_default; Connect; Tick 1000 registered; Tick 4000 registered; Tick 9000 registered;
                Tick 18000 registered; Tick 35000 registered] EcmLink.make in
  let again := run [Tick 36000 silent; Tick 37000 registered] m in
  state (the_link m) = Failed /\ next_due_ms_ (the_link m) = 65000
  /\ attempts (the_link m) = 5 /\ attempts (the_link again) = 6.
Proof. vm_compute. repeat split. Qed.

(** A call that hangs is given up 20 seconds after pppd was started. *)
Example hanging_call :
  let W := world (fun _ => None) (fun _ => Some (mkPpp true (txt "ppp0") LinkAddress_default ExitNone)) in
  let m := run [Config some_apn; ModemPort (txt "/dev/ttyUSB4"); Connect; Tick 1000 registered; Tick 21000 registered] PppLink.make in
  state (the_link m) = Negotiating /\ state (the_link (run [Tick 21001 registered] m)) = Failed.
Proof. vm_compute. repeat split. Qed.
