(* ===== verification/Bytes.v ===== *)
(** * Octets

    [uint8_t] buffers as lists of integers below 256, with the big-endian reads
    and writes the network code is full of, and the facts about shifts, [|] and
    [^] on machine words that their users share. *)

From S2P Require Import Prelude Text.

Abbreviation bytes := (list Z).

(** The octets of a [std::string], and the character of an octet. *)
Definition octets_of (s : text) : bytes := map char_code s.
Definition chr (b : Z) : ascii := ascii_of_nat (Z.to_nat (u8 b)).

(** ** Machine words as bits *)

Definition word (w x : Z) : Prop := 0 <= x < 2 ^ w.
Abbreviation octet := (word 8).
Definition octets (l : bytes) : Prop := Forall octet l.

Lemma word_bits w x : 0 <= w -> word w x <-> 0 <= x /\ forall i, w <= i -> Z.testbit x i = false.
Proof.
  intros Hw. split.
  - intros [H0 H1]. split; [done|]. intros i Hi. rewrite <- (Z.mod_small x (2 ^ w)) by done.
    apply Z.mod_pow2_bits_high. lia.
  - intros [H0 Hb]. assert (E : x mod 2 ^ w = x).
    { apply Z.bits_inj'. intros i Hi. destruct (Z.ltb_spec i w).
      - by apply Z.mod_pow2_bits_low.
      - rewrite Z.mod_pow2_bits_high by lia. symmetry. by apply Hb. }
    rewrite <- E. apply Z.mod_pos_bound. lia.
Qed.

Lemma word_bit w x i : 0 <= w <= i -> word w x -> Z.testbit x i = false.
Proof. intros [Hw Hi] H. apply word_bits in H as [_ H]; [by apply H|done]. Qed.

Lemma word_lxor w x y : 0 <= w -> word w x -> word w y -> word w (Z.lxor x y).
Proof.
  intros Hw Hx Hy. apply word_bits; [done|]. split; [apply Z.lxor_nonneg; split; intros _; [apply Hy|apply Hx]|].
  intros i Hi. rewrite Z.lxor_spec, !(word_bit w) by (done || lia). done.
Qed.

Lemma word_lor w x y : 0 <= w -> word w x -> word w y -> word w (Z.lor x y).
Proof.
  intros Hw Hx Hy. apply word_bits; [done|]. split; [apply Z.lor_nonneg; split; [apply Hx|apply Hy]|].
  intros i Hi. rewrite Z.lor_spec, !(word_bit w) by (done || lia). done.
Qed.

Lemma word_land w x y : 0 <= w -> word w x -> 0 <= y -> word w (Z.land x y).
Proof.
  intros Hw Hx Hy. apply word_bits; [done|]. split; [apply Z.land_nonneg; by right|].
  intros i Hi. rewrite Z.land_spec, (word_bit w x) by (done || lia). done.
Qed.

Lemma word_wrap w x : 0 <= w -> word w (wrap w x).
Proof. intros. by apply wrap_range. Qed.

Lemma word_weaken w w' x : 0 <= w <= w' -> word w x -> word w' x.
Proof. intros Hw [H0 H1]. split; [done|]. eapply Z.lt_le_trans; [exact H1|]. apply Z.pow_le_mono_r; lia. Qed.

(** [|] of words that share no bit is a sum. *)
Lemma lor_add n a b : 0 <= n -> a mod 2 ^ n = 0 -> word n b -> Z.lor a b = a + b.
Proof.
  intros Hn Ha Hb. pose proof (Z.add_lor_land a b) as S. assert (E : Z.land a b = 0).
  { apply Z.bits_inj'. intros i Hi. rewrite Z.land_spec, Z.bits_0. destruct (Z.ltb_spec i n).
    - rewrite <- (Z.mod_pow2_bits_low a n i) by done. by rewrite Ha, Z.bits_0.
    - rewrite (word_bit n b) by (done || lia). apply andb_false_r. }
  lia.
Qed.

Lemma shiftl_mod a n m : 0 <= m <= n -> Z.shiftl a n mod 2 ^ m = 0.
Proof.
  intros H. rewrite Z.shiftl_mul_pow2 by lia. replace (2 ^ n) with (2 ^ (n - m) * 2 ^ m).
  - by rewrite Z.mul_assoc, Z.mod_mul by lia.
  - rewrite <- Z.pow_add_r by lia. f_equal. lia.
Qed.

(** A fact about all small numbers, checked by computation. *)
Definition below (n : nat) : list Z := map Z.of_nat (seq 0 n).

Lemma below_in n x : 0 <= x < Z.of_nat n -> In x (below n).
Proof. intros H. apply in_map_iff. exists (Z.to_nat x). split; [lia|]. apply in_seq. lia. Qed.

Lemma below_all n (f : Z -> bool) : forallb f (below n) = true -> forall x, 0 <= x < Z.of_nat n -> f x = true.
Proof. intros F x Hx. rewrite forallb_forall in F. by apply F, below_in. Qed.

(** ** Big-endian fields *)

Definition octet_at (p : bytes) (i : nat) : Z := nth i p 0.

(** [(uint16_t)((p[i] << 8) | p[i + 1])] and its wider companions. *)
Definition rd16 (p : bytes) (i : nat) : Z := Z.lor (Z.shiftl (octet_at p i) 8) (octet_at p (i + 1)).
Definition rd32 (p : bytes) (i : nat) : Z :=
  Z.lor (Z.lor (Z.lor (Z.shiftl (octet_at p i) 24) (Z.shiftl (octet_at p (i + 1)) 16))
               (Z.shiftl (octet_at p (i + 2)) 8)) (octet_at p (i + 3)).

Definition be16 (v : Z) : bytes := [u8 (Z.shiftr v 8); u8 v].
Definition be32 (v : Z) : bytes := [u8 (Z.shiftr v 24); u8 (Z.shiftr v 16); u8 (Z.shiftr v 8); u8 v].

(** [for (i = n - 1; i >= 0; --i) out = (char)(v >> (8 * i))]. *)
Fixpoint be (n : nat) (v : Z) : bytes :=
  match n with
  | O => []
  | S n' => u8 (Z.shiftr v (8 * Z.of_nat n')) :: be n' v
  end.

(** [v = 0; for (...) v = (v << 8) | b]. *)
Definition be_value (l : bytes) : Z := fold_left (fun v b => Z.lor (Z.shiftl v 8) b) l 0.

Lemma octet_u8 v : octet (u8 v).
Proof. by apply word_wrap. Qed.
#[export] Hint Resolve octet_u8 : machino.

Lemma octets_be n v : octets (be n v).
Proof. induction n; simpl; constructor; auto using octet_u8. Qed.

Lemma length_be n v : length (be n v) = n.
Proof. induction n; simpl; congruence. Qed.

Lemma octets_app a b : octets (a ++ b) <-> octets a /\ octets b.
Proof. apply Forall_app. Qed.

Lemma octets_take n l : octets l -> octets (take n l).
Proof. apply Forall_take. Qed.
Lemma octets_drop n l : octets l -> octets (drop n l).
Proof. apply Forall_drop. Qed.

Lemma octets_at p i : octets p -> octet (octet_at p i).
Proof.
  intros H. unfold octet_at. destruct (Nat.ltb_spec i (length p)) as [Hi|Hi].
  - apply (Forall_lookup_1 octet p i); [done|]. destruct (nth_lookup_or_length p i 0) as [E|E]; [done|lia].
  - rewrite nth_overflow by lia. by split.
Qed.

Lemma octet_at_app_l a b i : (i < length a)%nat -> octet_at (a ++ b) i = octet_at a i.
Proof. intros. unfold octet_at. by apply app_nth1. Qed.
Lemma octet_at_app_r a b i : octet_at (a ++ b) (length a + i) = octet_at b i.
Proof. unfold octet_at. rewrite app_nth2 by lia. f_equal. lia. Qed.
Lemma octet_at_drop p n i : octet_at (drop n p) i = octet_at p (n + i).
Proof.
  unfold octet_at. revert n. induction p as [|x p IH]; intros n; [by rewrite drop_nil; destruct i, (n + _)%nat|].
  destruct n; [done|]. simpl. apply IH.
Qed.

Lemma octet_bounds x : octet x <-> 0 <= x < 256.
Proof. done. Qed.

Ltac octet_arith :=
  unfold octet_at, wrap, word in *; cbn [nth Nat.add] in *;
  rewrite ?Z.shiftr_div_pow2, ?Z.shiftl_mul_pow2 in * by lia;
  change (2 ^ 8) with 256 in *; change (2 ^ 16) with 65536 in *; change (2 ^ 24) with 16777216 in *;
  change (2 ^ 32) with 4294967296 in *.

Lemma rd16_value p i : octets p -> rd16 p i = 256 * octet_at p i + octet_at p (i + 1).
Proof.
  intros H. unfold rd16. rewrite (lor_add 8) by (try apply shiftl_mod; try apply octets_at; done || lia).
  rewrite Z.shiftl_mul_pow2 by lia. lia.
Qed.

Lemma rd32_value p i : octets p ->
  rd32 p i = 16777216 * octet_at p i + 65536 * octet_at p (i + 1) + 256 * octet_at p (i + 2) + octet_at p (i + 3).
Proof.
  intros H. unfold rd32. pose proof (octets_at p i H) as H0. pose proof (octets_at p (i + 1) H) as H1.
  pose proof (octets_at p (i + 2) H) as H2. pose proof (octets_at p (i + 3) H) as H3.
  rewrite (lor_add 24 (Z.shiftl (octet_at p i) 24)); [|lia|by apply shiftl_mod|octet_arith; lia].
  rewrite (lor_add 16 (_ + _)); [|lia| |octet_arith; lia].
  2: { rewrite Z.add_mod, (shiftl_mod _ 24 16), (shiftl_mod _ 16 16) by lia. done. }
  rewrite (lor_add 8 (_ + _)); [|lia| |octet_arith; lia].
  2: { rewrite Z.add_mod, (Z.add_mod (Z.shiftl _ 24)), !shiftl_mod by lia. done. }
  rewrite !Z.shiftl_mul_pow2 by lia. lia.
Qed.

Lemma rd16_word p i : octets p -> word 16 (rd16 p i).
Proof.
  intros H. rewrite rd16_value by done. pose proof (octets_at p i H). pose proof (octets_at p (i + 1) H).
  octet_arith. lia.
Qed.
Lemma rd32_word p i : octets p -> word 32 (rd32 p i).
Proof.
  intros H. rewrite rd32_value by done. pose proof (octets_at p i H). pose proof (octets_at p (i + 1) H).
  pose proof (octets_at p (i + 2) H). pose proof (octets_at p (i + 3) H). octet_arith. lia.
Qed.

Lemma octets_be16 v : octets (be16 v).
Proof. repeat constructor; apply octet_u8. Qed.
Lemma octets_be32 v : octets (be32 v).
Proof. repeat constructor; apply octet_u8. Qed.
#[export] Hint Resolve octets_be16 octets_be32 octets_be octets_take octets_drop : machino.

(** What was written is read. *)
Lemma rd16_be16 v : word 16 v -> rd16 (be16 v) 0 = v.
Proof. intros H. rewrite rd16_value by auto with machino. unfold be16. octet_arith. Z.div_mod_to_equations. lia. Qed.
Lemma rd32_be32 v : word 32 v -> rd32 (be32 v) 0 = v.
Proof. intros H. rewrite rd32_value by auto with machino. unfold be32. octet_arith. Z.div_mod_to_equations. lia. Qed.

Lemma rd16_app_l a b i : (i + 1 < length a)%nat -> rd16 (a ++ b) i = rd16 a i.
Proof. intros. unfold rd16. by rewrite !octet_at_app_l by lia. Qed.
Lemma rd32_app_l a b i : (i + 3 < length a)%nat -> rd32 (a ++ b) i = rd32 a i.
Proof. intros. unfold rd32. by rewrite !octet_at_app_l by lia. Qed.
Lemma rd16_app_r a b i : rd16 (a ++ b) (length a + i) = rd16 b i.
Proof. unfold rd16. by rewrite <- Nat.add_assoc, !octet_at_app_r. Qed.
Lemma rd32_app_r a b i : rd32 (a ++ b) (length a + i) = rd32 b i.
Proof. unfold rd32. by rewrite <- !Nat.add_assoc, !octet_at_app_r. Qed.
Lemma rd16_drop p n i : rd16 (drop n p) i = rd16 p (n + i).
Proof. unfold rd16. by rewrite !octet_at_drop, Nat.add_assoc. Qed.
Lemma rd32_drop p n i : rd32 (drop n p) i = rd32 p (n + i).
Proof. unfold rd32. by rewrite !octet_at_drop, !Nat.add_assoc. Qed.

Lemma be_value_be n v : word (8 * Z.of_nat n) v -> be_value (be n v) = v.
Proof.
  unfold be_value. intros H. assert (G : forall acc, 0 <= acc ->
    fold_left (fun v b => Z.lor (Z.shiftl v 8) b) (be n v) acc = acc * 2 ^ (8 * Z.of_nat n) + v mod 2 ^ (8 * Z.of_nat n)).
  { clear H. induction n as [|n IH]; intros acc Ha; [simpl; rewrite Z.mod_1_r; lia|]. cbn [be fold_left].
    rewrite (lor_add 8) by (try apply shiftl_mod; try apply octet_u8; lia). rewrite IH.
    2: { rewrite Z.shiftl_mul_pow2 by lia. pose proof (octet_u8 (Z.shiftr v (8 * Z.of_nat n))) as [? _]. lia. }
    rewrite Z.shiftl_mul_pow2, Z.shiftr_div_pow2 by lia. unfold wrap.
    replace (8 * Z.of_nat (S n)) with (8 * Z.of_nat n + 8) by lia. rewrite Z.pow_add_r by lia.
    set (M := 2 ^ (8 * Z.of_nat n)). assert (0 < M) by (unfold M; lia). change (2 ^ 8) with 256.
    rewrite (Z.rem_mul_r v M 256) by lia. ring. }
  rewrite G by lia. rewrite Z.mod_small by done. lia.
Qed.

(** ** Reads of what a peer sent *)

(** Reads that stay inside: [(p[i] << 8) | p[i + 1]] and its 32-bit companion. *)
Definition get16 (p : bytes) (i : nat) : option Z :=
  a ← p !! i; b ← p !! (i + 1)%nat; Some (Z.lor (Z.shiftl a 8) b).
Definition get32 (p : bytes) (i : nat) : option Z :=
  a ← p !! i; b ← p !! (i + 1)%nat; c ← p !! (i + 2)%nat; d ← p !! (i + 3)%nat;
  Some (Z.lor (Z.lor (Z.lor (Z.shiftl a 24) (Z.shiftl b 16)) (Z.shiftl c 8)) d).

Lemma get_in (p : bytes) i : (i < length p)%nat -> p !! i = Some (octet_at p i).
Proof. intros H. unfold octet_at. destruct (nth_lookup_or_length p i 0) as [E|E]; [done|lia]. Qed.

Lemma get16_in p i : (i + 1 < length p)%nat -> get16 p i = Some (rd16 p i).
Proof. intros H. unfold get16, rd16. rewrite !get_in by lia. done. Qed.
Lemma get32_in p i : (i + 3 < length p)%nat -> get32 p i = Some (rd32 p i).
Proof. intros H. unfold get32, rd32. rewrite !get_in by lia. done. Qed.

(** Reads that [tac] shows to be inside are replaced by their value. *)
Ltac reads_by tac := rewrite ?get16_in, ?get32_in, ?get_in by tac; cbn [mbind option_bind].

(** ** Exclusive or *)

Definition xor_with (ks l : bytes) : bytes := zip_with Z.lxor l ks.

Lemma length_xor_with ks l : (length l <= length ks)%nat -> length (xor_with ks l) = length l.
Proof. intros. unfold xor_with. rewrite length_zip_with. lia. Qed.

Lemma xor_with_twice ks l : (length l <= length ks)%nat -> xor_with ks (xor_with ks l) = l.
Proof.
  revert ks. induction l as [|x l IH]; intros ks H; [done|]. destruct ks as [|k ks]; [simpl in H; lia|].
  cbn [xor_with zip_with]. f_equal; [by rewrite Z.lxor_assoc, Z.lxor_nilpotent, Z.lxor_0_r|]. apply IH. simpl in H. lia.
Qed.

Lemma octets_xor_with ks l : octets ks -> octets l -> octets (xor_with ks l).
Proof.
  intros Hk Hl. revert ks Hk. induction Hl as [|x l Hx Hl IH]; intros ks Hk; [constructor|].
  destruct Hk as [|k ks Hk' Hk]; [constructor|]. constructor; [by apply word_lxor|by apply IH].
Qed.
