(* ===== verification/Base64.v ===== *)
(** * Base64

    The two encoders of the sources ([app/http/websocket.cpp],
    [app/rtsp/h264_nal.cpp]) and the three decoders ([app/http/session.cpp],
    [app/rtsp/rtsp_auth.cpp], [app/onvif/soap.cpp]). *)

From S2P Require Import Prelude Text Bytes.

Definition T : text := txt "ABCDEFGHIJKLMNOPQRSTUVWXYZabcdefghijklmnopqrstuvwxyz0123456789+/".
Definition T_at (i : Z) : ascii := nth (Z.to_nat i) T "?"%char.
Definition PAD : ascii := "="%char.

(** One pass of the loop of [ws::base64]: the octets at [i], [i + 1], [i + 2]
    as far as there are any. *)
Definition encode_group (a : Z) (b c : option Z) : text :=
  let v := Z.shiftl a 16 in
  let v := match b with Some b => Z.lor v (Z.shiftl b 8) | None => v end in
  let v := match c with Some c => Z.lor v c | None => v end in
  [ T_at (Z.land (Z.shiftr v 18) 63);
    T_at (Z.land (Z.shiftr v 12) 63);
    if b is Some _ then T_at (Z.land (Z.shiftr v 6) 63) else PAD;
    if c is Some _ then T_at (Z.land v 63) else PAD ].

(** [ws::base64]. *)
Fixpoint base64 (l : bytes) : text :=
  match l with
  | [] => []
  | [a] => encode_group a None None
  | [a; b] => encode_group a (Some b) None
  | a :: b :: c :: l => encode_group a (Some b) (Some c) ++ base64 l
  end.

Module H264.
Definition encode_group (a : Z) (b c : option Z) : text :=
let v := Z.lor (Z.lor (Z.shiftl a 16) (match b with Some b => Z.shiftl b 8 | None => 0 end))
               (match c with Some c => c | None => 0 end) in
[ T_at (Z.land (Z.shiftr v 18) 63);
  T_at (Z.land (Z.shiftr v 12) 63);
  if b is Some _ then T_at (Z.land (Z.shiftr v 6) 63) else PAD;
  if c is Some _ then T_at (Z.land v 63) else PAD ].

(** [h264::base64]. *)
Fixpoint base64 (l : bytes) : text :=
match l with
| [] => []
| [a] => encode_group a None None
| [a; b] => encode_group a (Some b) None
| a :: b :: c :: l => encode_group a (Some b) (Some c) ++ base64 l
end.
End H264.

(** The lambda [val] of the decoders; [None] for -1. *)
Definition val (c : ascii) : option Z :=
  let x := char_code c in
  if (65 <=? x) && (x <=? 90) then Some (x - 65)
  else if (97 <=? x) && (x <=? 122) then Some (x - 97 + 26)
  else if (48 <=? x) && (x <=? 57) then Some (x - 48 + 52)
  else if x =? 43 then Some 62
  else if x =? 47 then Some 63
  else None.

(** The body the three loops share: [acc = (acc << 6) | v], in the 32 bits of an
    [int], and an octet when eight bits are there. *)
Definition take6 (v acc bits : Z) (out : bytes) : Z * Z * bytes :=
  let acc := i32 (Z.lor (Z.shiftl acc 6) v) in
  let bits := bits + 6 in
  if 8 <=? bits then (acc, bits - 8, out ++ [Z.land (Z.shiftr acc (bits - 8)) 255]) else (acc, bits, out).

Definition blank (c : ascii) : bool := bool_decide (c = NL \/ c = "013"%char \/ c = " "%char).

(** [b64_decode] of [session.cpp]: everything from the first [=] on is ignored. *)
Module Session.
Fixpoint loop (s : text) (acc bits : Z) (out : bytes) : option bytes :=
match s with
| [] => Some out
| c :: s =>
    if Ascii.eqb c PAD then Some out
    else match val c with
         | None => None
         | Some v => let '(acc, bits, out) := take6 v acc bits out in loop s acc bits out
         end
end.
Definition b64_decode (s : text) : option bytes := loop s 0 0 [].
End Session.

(** [b64_decode] of [rtsp_auth.cpp]: [=] and blanks are skipped. *)
Module RtspAuth.
Fixpoint loop (s : text) (acc bits : Z) (out : bytes) : option bytes :=
match s with
| [] => Some out
| c :: s =>
    if Ascii.eqb c PAD || blank c then loop s acc bits out
    else match val c with
         | None => None
         | Some v => let '(acc, bits, out) := take6 v acc bits out in loop s acc bits out
         end
end.
Definition b64_decode (s : text) : option bytes := loop s 0 0 [].
End RtspAuth.

(** [b64_decode] of [soap.cpp]: at most two [=], nothing but blanks after one. *)
Module Soap.
Fixpoint loop (s : text) (acc bits : Z) (pad : Z) (out : bytes) : option bytes :=
match s with
| [] => if pad <=? 2 then Some out else None
| c :: s =>
    if blank c || Ascii.eqb c "009" then loop s acc bits pad out
    else if Ascii.eqb c PAD then loop s acc bits (pad + 1) out
    else if 0 <? pad then None
    else match val c with
         | None => None
         | Some v => let '(acc, bits, out) := take6 v acc bits out in loop s acc bits pad out
         end
end.
Definition b64_decode (s : text) : option bytes := loop s 0 0 0 [].
End Soap.

(** ** Proofs *)

Definition sextet (v : Z) : Prop := 0 <= v < 64.

Definition sextets : list Z := map Z.of_nat (seq 0 64).

Lemma sextet_in v : sextet v -> In v sextets.
Proof.
  intros [H0 H1]. unfold sextets. apply in_map_iff. exists (Z.to_nat v). split; [lia|]. apply in_seq. lia.
Qed.

(** A fact about all letters, by computation. *)
Lemma letter_facts v : sextet v ->
  val (T_at v) = Some v /\ blank (T_at v) = false /\ Ascii.eqb (T_at v) PAD = false /\ Ascii.eqb (T_at v) "009" = false.
Proof.
  intros H. apply sextet_in in H. revert v H.
  apply (proj1 (List.Forall_forall (fun v => val (T_at v) = Some v /\ _) sextets)). repeat constructor.
Qed.

(** The sextets of a group. *)
Definition s1 (a : Z) : Z := a / 4.
Definition s2 (a b : Z) : Z := a mod 4 * 16 + b / 16.
Definition s3 (b c : Z) : Z := b mod 16 * 4 + c / 64.
Definition s4 (c : Z) : Z := c mod 64.

Lemma group_value a b c : octet a -> octet b -> octet c ->
  Z.lor (Z.lor (Z.shiftl a 16) (Z.shiftl b 8)) c = 65536 * a + 256 * b + c.
Proof.
  intros Ha Hb Hc. rewrite (lor_add 16 (Z.shiftl a 16)); [|lia|by apply shiftl_mod|octet_arith; lia].
  rewrite (lor_add 8 (_ + _)); [|lia| |done].
  - rewrite !Z.shiftl_mul_pow2 by lia. lia.
  - rewrite Z.add_mod, !shiftl_mod by lia. done.
Qed.

Lemma encode_group_value a b c : octet a -> (forall x, b = Some x -> octet x) -> (forall x, c = Some x -> octet x) ->
  encode_group a b c =
    [T_at (s1 a); T_at (s2 a (default 0 b)); if b is Some _ then T_at (s3 (default 0 b) (default 0 c)) else PAD;
     if c is Some _ then T_at (s4 (default 0 c)) else PAD].
Proof.
  intros Ha Hb Hc. unfold encode_group.
  set (v := match c with Some _ => _ | None => _ end).
  assert (Ob : octet (default 0 b)) by (destruct b; [by apply Hb|by split]).
  assert (Oc : octet (default 0 c)) by (destruct c; [by apply Hc|by split]).
  assert (E : v = 65536 * a + 256 * default 0 b + default 0 c).
  { rewrite <- group_value by done. unfold v. destruct b, c; simpl; by rewrite ?Z.lor_0_r. }
  change 63 with (Z.ones 6). rewrite !Z.land_ones, !Z.shiftr_div_pow2 by lia. rewrite E. unfold s1, s2, s3, s4.
  change (2 ^ 18) with 262144. change (2 ^ 12) with 4096. change (2 ^ 6) with 64. octet_arith.
  repeat f_equal; destruct b, c; try done; f_equal; Z.div_mod_to_equations; lia.
Qed.

Lemma base64_same l : H264.base64 l = base64 l.
Proof.
  assert (G : forall a b c, H264.encode_group a b c = encode_group a b c).
  { intros a [b|] [c|]; unfold H264.encode_group, encode_group; by rewrite ?Z.lor_0_r. }
  induction l as [l IH] using (induction_ltof1 _ length). unfold ltof in IH.
  destruct l as [|a [|b [|c l]]]; try done; cbn [H264.base64 base64]; rewrite G; [done..|].
  f_equal. apply IH. simpl. lia.
Qed.

(** *** What the decoders make of letters *)

Lemma i32_mod x m : 0 < m -> 2 ^ 32 mod m = 0 -> i32 x mod m = x mod m.
Proof.
  intros Hm Hd. unfold swrap. pose proof (Z.div_mod (x + 2 ^ (32 - 1)) (2 ^ 32) ltac:(lia)) as E.
  replace ((x + 2 ^ (32 - 1)) mod 2 ^ 32 - 2 ^ (32 - 1)) with (x + - ((x + 2 ^ (32 - 1)) / 2 ^ 32) * 2 ^ 32) by lia.
  rewrite Z.add_mod, (Z.mul_mod _ (2 ^ 32)), Hd, Z.mul_0_r, Z.mod_0_l, Z.add_0_r, Z.mod_mod by lia. done.
Qed.

Lemma take6_spec v acc bits out : sextet v -> 0 <= bits < 8 ->
  exists acc', acc' mod 256 = (64 * acc + v) mod 256
  /\ take6 v acc bits out =
     if 2 <=? bits then (acc', bits - 2, out ++ [(64 * acc + v) / 2 ^ (bits - 2) mod 256]) else (acc', bits + 6, out).
Proof.
  intros Hv Hb. exists (i32 (Z.lor (Z.shiftl acc 6) v)).
  assert (E : Z.lor (Z.shiftl acc 6) v = 64 * acc + v).
  { rewrite (lor_add 6) by (try apply shiftl_mod; done || lia). rewrite Z.shiftl_mul_pow2 by lia. lia. }
  rewrite E. split; [by apply i32_mod|]. unfold take6. rewrite E.
  replace (8 <=? bits + 6) with (2 <=? bits) by (destruct (Z.leb_spec 2 bits), (Z.leb_spec 8 (bits + 6)); lia).
  destruct (Z.leb_spec 2 bits); [|done]. replace (bits + 6 - 8) with (bits - 2) by lia.
  change 255 with (Z.ones 8). rewrite Z.land_ones, Z.shiftr_div_pow2 by lia.
  match goal with |- (_, _, _ ++ [?p]) = (_, _, _ ++ [?q]) => enough (p = q) as -> by done end.
  set (x := 64 * acc + v). set (n := bits - 2) in *. change (2 ^ 8) with 256.
  assert (P : 0 < 2 ^ n) by lia.
  assert (G : forall y, (y / 2 ^ n) mod 256 = y mod (2 ^ n * 256) / 2 ^ n).
  { intros y. rewrite Z.rem_mul_r by lia. rewrite (Z.mul_comm (2 ^ n)), Z.div_add by lia.
    rewrite (Z.div_small (y mod 2 ^ n)) by (apply Z.mod_pos_bound; lia). lia. }
  rewrite !G. f_equal. apply i32_mod; [lia|].
  replace (2 ^ 32) with (2 ^ (24 - n) * (2 ^ n * 256)); [apply Z.mod_mul; lia|].
  change 256 with (2 ^ 8). rewrite <- !Z.pow_add_r by lia. f_equal. lia.
Qed.

Ltac letters_eq :=
  match goal with |- (_, _, _ ++ ?p) = (_, _, _ ++ ?q) => enough (p = q) as -> by done end;
  octet_arith; repeat match goal with |- _ :: _ = _ :: _ => f_equal end; Z.div_mod_to_equations; lia.

(** Feed letters to the shared body. *)
Definition feed (vs : list Z) (st : Z * Z * bytes) : Z * Z * bytes :=
  fold_left (fun '(acc, bits, out) v => take6 v acc bits out) vs st.

#[local] Opaque take6.
Arguments s1 : simpl never.
Arguments s2 : simpl never.
Arguments s3 : simpl never.
Arguments s4 : simpl never.

(** One letter of a group, at the bit position the goal shows. *)
Ltac feed_letter :=
  match goal with |- context [take6 ?v ?acc ?bits ?o] =>
    let x := fresh "x" in let M := fresh "M" in let E := fresh "E" in
    destruct (take6_spec v acc bits o) as (x & M & E);
    [unfold sextet, s1, s2, s3, s4; octet_arith; Z.div_mod_to_equations; lia|lia|];
    rewrite E; clear E; simpl; change (0 + 6) with 6; change (6 - 2) with 4; change (4 - 2) with 2; change (2 - 2) with 0
  end.

Lemma feed_group a b c acc out : octet a -> octet b -> octet c ->
  exists acc', feed [s1 a; s2 a b; s3 b c; s4 c] (acc, 0, out) = (acc', 0, out ++ [a; b; c]).
Proof.
  intros Ha Hb Hc. unfold feed. cbn [fold_left]. do 4 feed_letter. eexists.
  rewrite <- !app_assoc. simpl. unfold s1, s2, s3, s4 in *. letters_eq.
Qed.

Lemma feed_two a acc out : octet a -> exists acc', feed [s1 a; s2 a 0] (acc, 0, out) = (acc', 4, out ++ [a]).
Proof.
  intros Ha. unfold feed. cbn [fold_left]. do 2 feed_letter. eexists. unfold s1, s2 in *. letters_eq.
Qed.

Lemma feed_three a b acc out : octet a -> octet b ->
  exists acc', feed [s1 a; s2 a b; s3 b 0] (acc, 0, out) = (acc', 2, out ++ [a; b]).
Proof.
  intros Ha Hb. unfold feed. cbn [fold_left]. do 3 feed_letter. eexists.
  rewrite <- !app_assoc. simpl. unfold s1, s2, s3 in *. letters_eq.
Qed.

(** A decoder: it takes letters as [take6] does and accepts the padding. *)
Section Decoder.
Context (loop : text -> Z -> Z -> bytes -> option bytes).
Context (letter : forall v s acc bits out, sextet v ->
loop (T_at v :: s) acc bits out = let '(acc, bits, out) := take6 v acc bits out in loop s acc bits out).
Context (at_end : forall acc bits out, loop [] acc bits out = Some out).
Context (one_pad : forall acc bits out, loop [PAD] acc bits out = Some out).
Context (two_pads : forall acc bits out, loop [PAD; PAD] acc bits out = Some out).

Lemma loop_feed vs s acc bits out : Forall sextet vs ->
loop (map T_at vs ++ s) acc bits out = let '(acc, bits, out) := feed vs (acc, bits, out) in loop s acc bits out.
Proof using letter.
intros H. revert acc bits out. induction H as [|v vs Hv H IH]; intros acc bits out; [done|].
cbn [map app]. rewrite letter by done. unfold feed. cbn [fold_left].
destruct (take6 v acc bits out) as [[acc1 bits1] out1]. apply IH.
Qed.

Lemma sextets_group a b c : octet a -> octet b -> octet c -> Forall sextet [s1 a; s2 a b; s3 b c; s4 c].
Proof. intros. repeat constructor; unfold s1, s2, s3, s4; octet_arith; Z.div_mod_to_equations; lia. Qed.

Lemma decodes l acc out : octets l -> loop (base64 l) acc 0 out = Some (out ++ l).
Proof using letter at_end one_pad two_pads.
revert acc out. induction l as [l IH] using (induction_ltof1 _ length). intros acc out H. unfold ltof in IH.
assert (O : octet 0) by by split.
destruct l as [|a [|b [|c l]]]; cbn [base64].
- rewrite at_end. by rewrite app_nil_r.
- apply Forall_cons in H as [Ha _]. rewrite encode_group_value by done. simpl.
  pose proof (sextets_group a 0 0 Ha O O) as S. apply Forall_cons in S as [S1 S]. apply Forall_cons in S as [S2 _].
  change [T_at (s1 a); T_at (s2 a 0); PAD; PAD] with (map T_at [s1 a; s2 a 0] ++ [PAD; PAD]).
  rewrite loop_feed by by repeat apply Forall_cons_2. destruct (feed_two a acc out Ha) as (acc' & ->). apply two_pads.
- apply Forall_cons in H as [Ha H]. apply Forall_cons in H as [Hb _].
  rewrite encode_group_value by (intros; simplify_eq; done). simpl.
  pose proof (sextets_group a b 0 Ha Hb O) as S. apply Forall_cons in S as [S1 S]. apply Forall_cons in S as [S2 S].
  apply Forall_cons in S as [S3 _].
  change [T_at (s1 a); T_at (s2 a b); T_at (s3 b 0); PAD] with (map T_at [s1 a; s2 a b; s3 b 0] ++ [PAD]).
  rewrite loop_feed by by repeat apply Forall_cons_2. destruct (feed_three a b acc out Ha Hb) as (acc' & ->). apply one_pad.
- apply Forall_cons in H as [Ha H]. apply Forall_cons in H as [Hb H]. apply Forall_cons in H as [Hc H].
  rewrite encode_group_value by (intros; simplify_eq; done). cbn [default].
  match goal with |- loop (_ ++ ?r) _ _ _ = _ =>
    change (loop (map T_at [s1 a; s2 a b; s3 b c; s4 c] ++ r) acc 0 out = Some (out ++ a :: b :: c :: l)) end.
  rewrite loop_feed by by apply sextets_group. destruct (feed_group a b c acc out Ha Hb Hc) as (acc' & ->).
  rewrite IH by (simpl; done || lia). by rewrite <- app_assoc.
Qed.
End Decoder.

Lemma letter_val v : sextet v -> val (T_at v) = Some v.
Proof. apply letter_facts. Qed.
Lemma letter_blank v : sextet v -> blank (T_at v) = false.
Proof. apply letter_facts. Qed.
Lemma letter_pad v : sextet v -> Ascii.eqb (T_at v) PAD = false.
Proof. apply letter_facts. Qed.
Lemma letter_tab v : sextet v -> Ascii.eqb (T_at v) "009" = false.
Proof. apply letter_facts. Qed.

Lemma base64_length l : length (base64 l) = (4 * ((length l + 2) / 3))%nat.
Proof.
  induction l as [l IH] using (induction_ltof1 _ length). unfold ltof in IH.
  destruct l as [|a [|b [|c l]]]; try done. cbn [base64]. rewrite length_app, IH by (simpl; lia). simpl length.
  replace (S (S (S (length l))) + 2)%nat with (length l + 2 + 1 * 3)%nat by lia. rewrite Nat.div_add by lia. lia.
Qed.

(** Base64 is read back.  Both encoders give the same text, four letters for
    every three octets begun, and each of the three decoders gives back exactly
    the octets that were encoded, however many they are and although the
    accumulator they shift through is an [int]. *)
Theorem base64_roundtrip (l : bytes) : octets l ->
  H264.base64 l = base64 l
  /\ length (base64 l) = (4 * ((length l + 2) / 3))%nat
  /\ Session.b64_decode (base64 l) = Some l
  /\ RtspAuth.b64_decode (base64 l) = Some l
  /\ Soap.b64_decode (base64 l) = Some l.
Proof.
  intros H. split; [apply base64_same|]. split; [apply base64_length|]. split; [|split].
  - apply (decodes Session.loop); try done. intros v s acc bits out Hv. cbn [Session.loop].
    by rewrite letter_pad, letter_val.
  - apply (decodes RtspAuth.loop); try done. intros v s acc bits out Hv. cbn [RtspAuth.loop].
    by rewrite letter_pad, letter_blank, letter_val.
  - apply (decodes (fun s acc bits out => Soap.loop s acc bits 0 out)); try done. intros v s acc bits out Hv. cbn [Soap.loop].
    by rewrite letter_pad, letter_blank, letter_tab, letter_val.
Qed.

Lemma base64_roundtrip_witness :
  octets [0; 255; 16; 171] /\ base64 [0; 255; 16; 171] = txt "AP8Qqw=="
  /\ RtspAuth.b64_decode (base64 [0; 255; 16; 171]) = Some [0; 255; 16; 171].
Proof.
  assert (O : octets [0; 255; 16; 171]) by (repeat constructor; by vm_compute).
  split; [exact O|]. split; [by vm_compute|]. by apply base64_roundtrip.
Defined.
