(* ===== verification/Sha1.v ===== *)
(** * SHA-1 and HMAC

    [sha1] of [app/http/websocket.cpp] and [hmac_sha1] of
    [app/webrtc/stun.cpp], with FIPS 180-4 as the reference of the former. *)

From S2P Require Import Prelude Text Bytes.

(** ** The source *)

(** [(v << n) | (v >> (32 - n))] on [uint32_t]. *)
Definition rotl (n v : Z) : Z := Z.lor (u32 (Z.shiftl v n)) (Z.shiftr v (32 - n)).

Definition hash : Type := Z * Z * Z * Z * Z.
Definition H_init : hash := (0x67452301, 0xEFCDAB89, 0x98BADCFE, 0x10325476, 0xC3D2E1F0).

(** One turn of the outer loop up to the block: the block, the new [off],
    [appended] and [length_done]. *)
Definition next_block (data : bytes) (off : nat) (appended : bool) : bytes * nat * bool * bool :=
  let len := length data in
  let total_bits := u64 (Z.of_nat len * 8) in
  let n := if (off <? len)%nat then (if (len - off <? 64)%nat then (len - off)%nat else 64%nat) else 0%nat in
  let block := take n (drop off data) in
  let off := (off + n)%nat in
  if (n <? 64)%nat then
    let '(block, n) := if appended then (block, n) else (block ++ [0x80], S n) in
    if (n <=? 56)%nat then (block ++ repeat 0 (56 - n) ++ be 8 total_bits, off, true, true)
    else (block ++ repeat 0 (64 - n), off, true, false)
  else (block, off, appended, false).

(** The message schedule [w]. *)
Definition block_words (block : bytes) : list Z := map (fun i => rd32 block (4 * i)) (seq 0 16).
Definition extend (w : list Z) (i : nat) : list Z :=
  let at_ k := nth (i - k) w 0 in
  w ++ [rotl 1 (Z.lxor (Z.lxor (Z.lxor (at_ 3%nat) (at_ 8%nat)) (at_ 14%nat)) (at_ 16%nat))].
Definition schedule (block : bytes) : list Z := fold_left extend (seq 16 64) (block_words block).

(** One round. *)
Definition round (w : list Z) (h : hash) (i : nat) : hash :=
  let '(a, b, c, d, e) := h in
  let '(f, k) :=
    if (i <? 20)%nat then (Z.lor (Z.land b c) (Z.land (u32 (Z.lnot b)) d), 0x5A827999)
    else if (i <? 40)%nat then (Z.lxor (Z.lxor b c) d, 0x6ED9EBA1)
    else if (i <? 60)%nat then (Z.lor (Z.lor (Z.land b c) (Z.land b d)) (Z.land c d), 0x8F1BBCDC)
    else (Z.lxor (Z.lxor b c) d, 0xCA62C1D6) in
  let t := u32 (rotl 5 a + f + e + k + nth i w 0) in
  (t, a, rotl 30 b, c, d).

Definition add_hash (h g : hash) : hash :=
  let '(h0, h1, h2, h3, h4) := h in
  let '(a, b, c, d, e) := g in
  (u32 (h0 + a), u32 (h1 + b), u32 (h2 + c), u32 (h3 + d), u32 (h4 + e)).

Definition compress (h : hash) (block : bytes) : hash :=
  add_hash h (fold_left (round (schedule block)) (seq 0 80) h).

(** [while (!length_done)]; [None] when the fuel is used up. *)
Fixpoint loop (fuel : nat) (data : bytes) (off : nat) (appended : bool) (h : hash) : option hash :=
  match fuel with
  | O => None
  | S fuel =>
      let '(block, off, appended, done) := next_block data off appended in
      let h := compress h block in
      if done then Some h else loop fuel data off appended h
  end.

Definition digest (h : hash) : bytes :=
  let '(h0, h1, h2, h3, h4) := h in be32 h0 ++ be32 h1 ++ be32 h2 ++ be32 h3 ++ be32 h4.

(** [sha1]; a turn of the loop takes 64 octets of the message, and two more
    turns are enough for the end. *)
Definition sha1 (data : bytes) : bytes :=
  match loop (length data / 64 + 2) data 0 false H_init with
  | Some h => digest h
  | None => []
  end.

(** [hmac_sha1]. *)
Definition hmac_sha1 (key msg : bytes) : bytes :=
  let k := if (64 <? length key)%nat then sha1 key else key in
  let k := k ++ repeat 0 (64 - length k) in
  let ipad := map (fun b => Z.lxor b 0x36) k in
  let opad := map (fun b => Z.lxor b 0x5c) k in
  sha1 (opad ++ sha1 (ipad ++ msg)).

(** ** FIPS 180-4 *)

Module Fips.

(** 5.1.1: a one bit, the least number of zeros that leaves 64 bits of the last
    block, the length of the message in bits. *)
Definition padding (n : nat) : bytes :=
  0x80 :: repeat 0 (Z.to_nat ((55 - Z.of_nat n) mod 64)) ++ be 8 (8 * Z.of_nat n).
Definition padded (msg : bytes) : bytes := msg ++ padding (length msg).

(** 5.2.1: blocks of 512 bits. *)
Fixpoint blocks (k : nat) (l : bytes) : list bytes :=
  match k with
  | O => []
  | S k => take 64 l :: blocks k (drop 64 l)
  end.

(** 4.1.1. *)
Definition Ch (x y z : Z) : Z := Z.lxor (Z.land x y) (Z.land (Z.lxor x (Z.ones 32)) z).
Definition Parity (x y z : Z) : Z := Z.lxor (Z.lxor x y) z.
Definition Maj (x y z : Z) : Z := Z.lxor (Z.lxor (Z.land x y) (Z.land x z)) (Z.land y z).
Definition ft (t : nat) : Z -> Z -> Z -> Z :=
  if (t <? 20)%nat then Ch else if (t <? 40)%nat then Parity else if (t <? 60)%nat then Maj else Parity.
(** 4.2.1. *)
Definition K (t : nat) : Z :=
  if (t <? 20)%nat then 0x5A827999 else if (t <? 40)%nat then 0x6ED9EBA1
  else if (t <? 60)%nat then 0x8F1BBCDC else 0xCA62C1D6.

(** 6.1.2, steps 2 to 4; step 1, the schedule, and [ROTL] are the same
    expressions there and in the source. *)
Definition step (w : list Z) (v : hash) (t : nat) : hash :=
  let '(a, b, c, d, e) := v in
  (u32 (rotl 5 a + ft t b c d + e + K t + nth t w 0), a, rotl 30 b, c, d).
Definition next (h : hash) (m : bytes) : hash := add_hash h (fold_left (step (schedule m)) (seq 0 80) h).

Definition sha1 (msg : bytes) : bytes :=
  let m := padded msg in digest (fold_left next (blocks (length m / 64) m) H_init).
End Fips.

(** Known answers (FIPS 180, RFC 2202). *)
Example sha1_abc :
  sha1 (octets_of (txt "abc")) = be 20 0xa9993e364706816aba3e25717850c26c9cd0d89d.
Proof. by vm_compute. Qed.
Example sha1_two_blocks :
  sha1 (octets_of (txt "abcdbcdecdefdefgefghfghighijhijkijkljklmklmnlmnomnopnopq")) = be 20 0x84983e441c3bd26ebaae4aa1f95129e5e54670f1.
Proof. by vm_compute. Qed.
Example hmac_rfc2202 :
  hmac_sha1 (octets_of (txt "Jefe")) (octets_of (txt "what do ya want for nothing?")) = be 20 0xeffcdf6ae5eb2fa2d27416d5f184df9c259a7c79.
Proof. by vm_compute. Qed.

(** ** The source computes the standard's function *)

(** *** The functions of a round *)

Lemma testbit_wrap w x i : 0 <= w -> 0 <= i -> Z.testbit (wrap w x) i = (i <? w) && Z.testbit x i.
Proof.
  intros Hw Hi. unfold wrap. destruct (Z.ltb_spec i w).
  - by apply Z.mod_pow2_bits_low.
  - by apply Z.mod_pow2_bits_high.
Qed.

Lemma choose_eq b c d : word 32 b ->
  Z.lor (Z.land b c) (Z.land (u32 (Z.lnot b)) d) = Fips.Ch b c d.
Proof.
  intros Hb. unfold Fips.Ch. apply Z.bits_inj'. intros i Hi.
  rewrite Z.lor_spec, Z.lxor_spec, !Z.land_spec, Z.lxor_spec, testbit_wrap, Z.lnot_spec, Z.testbit_ones by lia.
  replace (0 <=? i) with true by (symmetry; apply Z.leb_le; lia). destruct (Z.ltb_spec i 32); cbn [andb].
  - by destruct (Z.testbit b i), (Z.testbit c i), (Z.testbit d i).
  - rewrite (word_bit 32 b) by (done || lia). by destruct (Z.testbit c i), (Z.testbit d i).
Qed.

Lemma majority_eq b c d :
  Z.lor (Z.lor (Z.land b c) (Z.land b d)) (Z.land c d) = Fips.Maj b c d.
Proof.
  unfold Fips.Maj. apply Z.bits_inj'. intros i Hi. rewrite !Z.lor_spec, !Z.lxor_spec, !Z.land_spec.
  by destruct (Z.testbit b i), (Z.testbit c i), (Z.testbit d i).
Qed.

Lemma rotl_word n v : 0 <= n <= 32 -> word 32 v -> word 32 (rotl n v).
Proof.
  intros Hn [H0 H1]. apply word_lor; [lia|by apply word_wrap|]. split; [by apply Z.shiftr_nonneg|].
  rewrite Z.shiftr_div_pow2 by lia. apply Z.div_lt_upper_bound; [lia|]. nia.
Qed.

Definition hash_ok (h : hash) : Prop :=
  let '(a, b, c, d, e) := h in word 32 a /\ word 32 b /\ word 32 c /\ word 32 d /\ word 32 e.

Lemma round_step w h t : hash_ok h -> round w h t = Fips.step w h t /\ hash_ok (round w h t).
Proof.
  destruct h as [[[[a b] c] d] e]. intros (Ha & Hb & Hc & Hd & He). split.
  - unfold round, Fips.step, Fips.ft, Fips.K. rewrite (choose_eq b c d Hb), majority_eq.
    by destruct (t <? 20)%nat, (t <? 40)%nat, (t <? 60)%nat.
  - unfold round. destruct (if (t <? 20)%nat then _ else _) as [f k]. unfold hash_ok.
    split; [by apply word_wrap|]. split; [done|]. split; [by apply rotl_word|]. done.
Qed.

Lemma rounds_steps w ts h : hash_ok h ->
  fold_left (round w) ts h = fold_left (Fips.step w) ts h /\ hash_ok (fold_left (round w) ts h).
Proof.
  revert h. induction ts as [|t ts IH]; intros h Hh; [done|]. cbn [fold_left].
  destruct (round_step w h t Hh) as [E Hs]. rewrite <- E. by apply IH.
Qed.

Lemma add_hash_ok h g : hash_ok (add_hash h g).
Proof. destruct h as [[[[? ?] ?] ?] ?], g as [[[[? ?] ?] ?] ?]. unfold add_hash, hash_ok. do 4 (split; [by apply word_wrap|]). by apply word_wrap. Qed.

Lemma compress_next h m : hash_ok h -> compress h m = Fips.next h m /\ hash_ok (compress h m).
Proof.
  intros Hh. split; [|unfold compress; apply add_hash_ok]. unfold compress, Fips.next.
  exact (f_equal (add_hash h) (proj1 (rounds_steps (schedule m) (seq 0 80) h Hh))).
Qed.

#[local] Opaque compress Fips.next.

Lemma compress_all l h : hash_ok h ->
  fold_left compress l h = fold_left Fips.next l h /\ hash_ok (fold_left compress l h).
Proof.
  revert h. induction l as [|m l IH]; intros h Hh; [done|]. cbn [fold_left].
  destruct (compress_next h m Hh) as [E Hn]. rewrite <- E. by apply IH.
Qed.

(** *** The padding loop *)

Lemma be_wrap n v : be n (wrap (8 * Z.of_nat n) v) = be n v.
Proof.
  assert (G : forall k, (k <= n)%nat -> be k (wrap (8 * Z.of_nat n) v) = be k v); [|by apply G].
  induction k as [|k IH]; intros Hk; [done|]. cbn [be]. f_equal; [|apply IH; lia].
  apply Z.bits_inj'. intros i Hi. rewrite !testbit_wrap, !Z.shiftr_spec, testbit_wrap by lia.
  destruct (Z.ltb_spec i 8); [|done]. cbn [andb]. by destruct (Z.ltb_spec (i + 8 * Z.of_nat k) (8 * Z.of_nat n)); [|lia].
Qed.

Lemma length_padding n : length (Fips.padding n) = (1 + Z.to_nat ((55 - Z.of_nat n) mod 64) + 8)%nat.
Proof. unfold Fips.padding. cbn [length]. by rewrite length_app, repeat_length, length_be. Qed.

(** Where the message ends in its last block decides how many blocks follow. *)
Lemma padding_tail n r q : n = (64 * q + r)%nat -> (r < 64)%nat ->
  Z.to_nat ((55 - Z.of_nat n) mod 64) = if (r <? 56)%nat then (55 - r)%nat else (119 - r)%nat.
Proof. intros -> Hr. destruct (Nat.ltb_spec r 56); Z.div_mod_to_equations; lia. Qed.

Definition tail_blocks (r : nat) : nat := if (r <? 56)%nat then 1%nat else 2%nat.

Lemma blocks_step k l : Fips.blocks (S k) l = take 64 l :: Fips.blocks k (drop 64 l).
Proof. done. Qed.

(** The end of the message. *)
Lemma loop_tail data h off q r :
  off = (64 * q)%nat -> length data = (off + r)%nat -> (r < 64)%nat ->
  loop 2 data off false h = Some (fold_left compress (Fips.blocks (tail_blocks r) (drop off (Fips.padded data))) h).
Proof.
  intros Eo El Hr. unfold Fips.padded. rewrite drop_app_le by lia.
  assert (L : length (drop off data) = r) by (rewrite length_drop; lia).
  assert (N : (if (off <? length data)%nat then if (length data - off <? 64)%nat then (length data - off)%nat else 64%nat else 0%nat) = r).
  { destruct (Nat.ltb_spec off (length data)), (Nat.ltb_spec (length data - off) 64); lia. }
  assert (B : be 8 (u64 (Z.of_nat (length data) * 8)) = be 8 (8 * Z.of_nat (length data))).
  { rewrite (be_wrap 8). f_equal. lia. }
  assert (Z : Fips.padding (length data) =
    0x80 :: repeat 0 (if (r <? 56)%nat then (55 - r)%nat else (119 - r)%nat) ++ be 8 (8 * Z.of_nat (length data))).
  { unfold Fips.padding. rewrite (padding_tail _ r q) by lia. done. }
  rewrite Z. unfold tail_blocks. cbn [loop]. unfold next_block at 1. cbv zeta. rewrite N, take_ge by lia.
  replace (r <? 64)%nat with true by (symmetry; apply Nat.ltb_lt; lia).
  destruct (Nat.ltb_spec r 56) as [H|H].
  - replace (S r <=? 56)%nat with true by (symmetry; apply Nat.leb_le; lia). cbn [Fips.blocks fold_left].
    rewrite B, take_ge. 2: { rewrite length_app. cbn [length]. rewrite length_app, repeat_length, length_be. lia. }
    do 2 f_equal. rewrite <- app_assoc. cbn [app]. replace (56 - S r)%nat with (55 - r)%nat by lia. done.
  - replace (S r <=? 56)%nat with false by (symmetry; apply Nat.leb_gt; lia).
    unfold next_block. cbv zeta. replace (off + r <? length data)%nat with false by (symmetry; apply Nat.ltb_ge; lia).
    cbn [Nat.ltb Nat.leb]. rewrite take_0. cbn [app Nat.sub]. rewrite B. cbn [Fips.blocks fold_left].
    replace (119 - r)%nat with ((64 - S r) + 56)%nat by lia. rewrite repeat_app.
    set (z := be 8 _). replace ((drop off data ++ 0x80 :: (repeat 0 (64 - S r) ++ repeat 0 56) ++ z))
      with (((drop off data ++ [0x80]) ++ repeat 0 (64 - S r)) ++ repeat 0 56 ++ z) by (by rewrite <- !app_assoc).
    assert (L1 : length ((drop off data ++ [0x80]) ++ repeat 0 (64 - S r)) = 64%nat).
    { rewrite !length_app, repeat_length. simpl. lia. }
    rewrite take_app_length', drop_app_length' by done. rewrite (take_ge (repeat 0 56 ++ z)); [done|]. rewrite length_app, repeat_length. unfold z. rewrite length_be. lia.
Qed.

Lemma loop_blocks data h off q j r :
  off = (64 * q)%nat -> length data = (off + 64 * j + r)%nat -> (r < 64)%nat ->
  loop (j + 2) data off false h
  = Some (fold_left compress (Fips.blocks (j + tail_blocks r) (drop off (Fips.padded data))) h).
Proof.
  revert h off q. induction j as [|j IH]; intros h off q Eo El Hr; [apply (loop_tail data h off q r); lia|].
  cbn [Nat.add]. rewrite blocks_step. cbn [loop fold_left]. unfold next_block. cbv zeta.
  replace (off <? length data)%nat with true by (symmetry; apply Nat.ltb_lt; lia).
  replace (length data - off <? 64)%nat with false by (symmetry; apply Nat.ltb_ge; lia). cbn [Nat.ltb Nat.leb].
  rewrite (IH _ (off + 64)%nat (S q)) by lia.
  assert (E : take 64 (drop off (Fips.padded data)) = take 64 (drop off data)).
  { unfold Fips.padded. rewrite drop_app_le by lia. by rewrite take_app_le by (rewrite length_drop; lia). }
  by rewrite E, drop_drop.
Qed.

Lemma sha1_loop msg :
  loop (length msg / 64 + 2) msg 0 false H_init
  = Some (fold_left compress (Fips.blocks (length msg / 64 + tail_blocks (length msg mod 64)) (Fips.padded msg)) H_init).
Proof.
  rewrite (loop_blocks msg H_init 0 0 (length msg / 64) (length msg mod 64)); [by rewrite drop_0|done| |].
  - apply (Nat.div_mod_eq (length msg) 64).
  - apply Nat.mod_upper_bound. lia.
Qed.

Lemma padded_blocks msg : (length (Fips.padded msg) / 64)%nat = (length msg / 64 + tail_blocks (length msg mod 64))%nat.
Proof.
  set (j := (length msg / 64)%nat). set (r := (length msg mod 64)%nat).
  assert (El : length msg = (64 * j + r)%nat) by apply (Nat.div_mod_eq (length msg) 64).
  assert (Hr : (r < 64)%nat) by (apply Nat.mod_upper_bound; lia).
  unfold Fips.padded. rewrite length_app, length_padding, (padding_tail _ r j) by lia.
  unfold tail_blocks. destruct (Nat.ltb_spec r 56).
  - replace (length msg + (1 + (55 - r) + 8))%nat with ((j + 1) * 64)%nat by lia. by rewrite Nat.div_mul.
  - replace (length msg + (1 + (119 - r) + 8))%nat with ((j + 2) * 64)%nat by lia. by rewrite Nat.div_mul.
Qed.

Lemma digest_octets h : length (digest h) = 20%nat /\ octets (digest h).
Proof.
  destruct h as [[[[a b] c] d] e]. split; [done|]. unfold digest. rewrite !octets_app. auto with machino.
Qed.

Lemma sha1_digest msg : exists h, sha1 msg = digest h.
Proof. unfold sha1. rewrite sha1_loop. by eexists. Qed.

Lemma length_sha1 msg : length (sha1 msg) = 20%nat.
Proof. destruct (sha1_digest msg) as [h ->]. apply digest_octets. Qed.
Lemma octets_sha1 msg : octets (sha1 msg).
Proof. destruct (sha1_digest msg) as [h ->]. apply digest_octets. Qed.
Lemma length_hmac key msg : length (hmac_sha1 key msg) = 20%nat.
Proof. apply length_sha1. Qed.
Lemma octets_hmac key msg : octets (hmac_sha1 key msg).
Proof. apply octets_sha1. Qed.

(** SHA-1 is SHA-1.  The padding loop ends after at most [len / 64 + 2]
    turns for a message of any length, and what it computes block by block is
    the digest of FIPS 180-4: the message padded with a one bit, the fewest
    zeros and its length, compressed with the functions of the standard. *)
Theorem sha1_is_fips180 (msg : bytes) :
  (exists h, loop (length msg / 64 + 2) msg 0 false H_init = Some h) /\ sha1 msg = Fips.sha1 msg.
Proof.
  split; [rewrite sha1_loop; by eexists|]. unfold sha1, Fips.sha1. rewrite sha1_loop, padded_blocks. f_equal.
  apply compress_all. unfold hash_ok, H_init. repeat split; lia.
Qed.
