(* ===== verification/Aes.v ===== *)
(** * AES-128

    [app/webrtc/aes.{hpp,cpp}]: the S-box computed from logarithms, the key
    schedule on 32-bit words and the cipher with its shortcuts, and FIPS 197 as
    the reference they are proved equal to. *)

From S2P Require Import Prelude Bytes.

(** ** The source *)

Definition xtime (a : Z) : Z :=
  u8 (Z.lxor (Z.shiftl a 1) (if Z.land a 0x80 =? 0 then 0 else 0x1b)).

(** The first loop of [Tables]: [x], [exp], [log]. *)
Definition exp_step (st : Z * list Z * list Z) (i : nat) : Z * list Z * list Z :=
  let '(x, exp, log) := st in
  let hx := Z.lxor (u8 (Z.shiftl x 1)) (if Z.land x 0x80 =? 0 then 0 else 0x1b) in
  (Z.lxor x hx, exp ++ [x], <[Z.to_nat x := Z.of_nat i]> log).
Definition exp_log : list Z * list Z :=
  let '(_, exp, log) := fold_left exp_step (seq 0 255) (1, [], repeat 0 256) in
  (exp ++ [nth 0 exp 0], log).

(** One turn of the second loop. *)
Definition sbox_entry (exp log : list Z) (i : Z) : Z :=
  let inv := if i =? 0 then 0 else nth (Z.to_nat (255 - nth (Z.to_nat i) log 0)) exp 0 in
  let rot k := u8 (Z.lor (Z.shiftl inv k) (Z.shiftr inv (8 - k))) in
  u8 (Z.lxor (Z.lxor (Z.lxor (Z.lxor (Z.lxor inv (rot 1)) (rot 2)) (rot 3)) (rot 4)) 0x63).

(** [tabs().sbox]. *)
Definition octet_values : list Z := below 256.
Definition sbox : list Z := let '(exp, log) := exp_log in map (sbox_entry exp log) octet_values.
Definition Sbox (i : Z) : Z := nth (Z.to_nat i) sbox 0.

(** The constructor of [Aes128]. *)
Definition sub_word (t : Z) : Z :=
  Z.lor (Z.lor (Z.lor (Z.shiftl (Sbox (Z.land (Z.shiftr t 24) 255)) 24) (Z.shiftl (Sbox (Z.land (Z.shiftr t 16) 255)) 16))
               (Z.shiftl (Sbox (Z.land (Z.shiftr t 8) 255)) 8)) (Sbox (Z.land t 255)).
Definition expand (st : list Z * Z) (i : nat) : list Z * Z :=
  let '(rk, rcon) := st in
  let t := nth (i - 1) rk 0 in
  let '(t, rcon) :=
    if (i mod 4 =? 0)%nat then
      (Z.lxor (sub_word (Z.lor (u32 (Z.shiftl t 8)) (Z.shiftr t 24))) (Z.shiftl rcon 24), xtime rcon)
    else (t, rcon) in
  (rk ++ [Z.lxor (nth (i - 4) rk 0) t], rcon).
Definition Aes128 (key : bytes) : list Z :=
  (fold_left expand (seq 4 40) (map (fun i => rd32 key (4 * i)) (seq 0 4), 1)).1.

(** The lambda [add_rk]. *)
Definition add_rk (rk : list Z) (r : nat) (st : bytes) : bytes :=
  zip_with Z.lxor st
    (flat_map (fun c => let k := nth (4 * r + c) rk 0 in [u8 (Z.shiftr k 24); u8 (Z.shiftr k 16); u8 (Z.shiftr k 8); u8 k])
              (seq 0 4)).

Definition set_at (i : nat) (v : Z) (st : bytes) : bytes := <[i := v]> st.

(** The assignments of ShiftRows, in their order. *)
Definition shift_rows (st : bytes) : bytes :=
  let t := octet_at st 1 in
  let st := set_at 1 (octet_at st 5) st in let st := set_at 5 (octet_at st 9) st in
  let st := set_at 9 (octet_at st 13) st in let st := set_at 13 t st in
  let t := octet_at st 2 in let st := set_at 2 (octet_at st 10) st in let st := set_at 10 t st in
  let t := octet_at st 6 in let st := set_at 6 (octet_at st 14) st in let st := set_at 14 t st in
  let t := octet_at st 15 in
  let st := set_at 15 (octet_at st 11) st in let st := set_at 11 (octet_at st 7) st in
  let st := set_at 7 (octet_at st 3) st in set_at 3 t st.

Definition mix_column (a0 a1 a2 a3 : Z) : bytes :=
  let all := Z.lxor (Z.lxor (Z.lxor a0 a1) a2) a3 in
  [ Z.lxor (Z.lxor a0 all) (xtime (Z.lxor a0 a1)); Z.lxor (Z.lxor a1 all) (xtime (Z.lxor a1 a2));
    Z.lxor (Z.lxor a2 all) (xtime (Z.lxor a2 a3)); Z.lxor (Z.lxor a3 all) (xtime (Z.lxor a3 a0)) ].
Definition mix_columns (st : bytes) : bytes :=
  flat_map (fun c => mix_column (octet_at st (4 * c)) (octet_at st (4 * c + 1)) (octet_at st (4 * c + 2)) (octet_at st (4 * c + 3)))
           (seq 0 4).

Definition cipher_round (rk : list Z) (st : bytes) (r : nat) : bytes :=
  let st := map Sbox st in
  let st := shift_rows st in
  let st := if (r <? 10)%nat then mix_columns st else st in
  add_rk rk r st.

(** [Aes128::encrypt]. *)
Definition encrypt (rk : list Z) (input : bytes) : bytes :=
  fold_left (cipher_round rk) (seq 1 10) (add_rk rk 0 input).

(** ** FIPS 197 *)

Module Fips197.

(** 4.2: multiplication of polynomials modulo [x^8 + x^4 + x^3 + x + 1]. *)
Fixpoint reduce (n : nat) (p : Z) : Z :=
  match n with
  | O => p
  | S n => reduce n (if Z.testbit p (8 + Z.of_nat n) then Z.lxor p (Z.shiftl 0x11b (Z.of_nat n)) else p)
  end.
Definition carryless (a b : Z) : Z :=
  fold_left (fun acc i => if Z.testbit b i then Z.lxor acc (Z.shiftl a i) else acc) [0; 1; 2; 3; 4; 5; 6; 7] 0.
Definition mul (a b : Z) : Z := reduce 8 (carryless a b).

(** The multiplicative inverse, 0 for 0. *)
Definition inverse (a : Z) : Z := default 0 (head (base.filter (fun y => mul a y = 1) octet_values)).

(** 5.1.1, equation 5.1. *)
Definition affine_bit (b : Z) (i : Z) : bool :=
  xorb (xorb (xorb (xorb (xorb (Z.testbit b i) (Z.testbit b ((i + 4) mod 8))) (Z.testbit b ((i + 5) mod 8)))
                   (Z.testbit b ((i + 6) mod 8))) (Z.testbit b ((i + 7) mod 8))) (Z.testbit 0x63 i).
Definition sub_byte (a : Z) : Z :=
  let b := inverse a in fold_left (fun acc i => acc + Z.b2z (affine_bit b i) * 2 ^ i) [0; 1; 2; 3; 4; 5; 6; 7] 0.

(** 5.1.2: row [r] of the state, [st[r + 4 c]], moves by [r] columns. *)
Definition shift_rows (st : bytes) : bytes :=
  map (fun k => octet_at st (k mod 4 + 4 * ((k / 4 + k mod 4) mod 4))) (seq 0 16).

(** 5.1.3, equation 5.6. *)
Definition sum (l : list Z) : Z := fold_right Z.lxor 0 l.
Definition mix_column (c : bytes) : bytes :=
  map (fun row => sum (zip_with mul row c)) [[2; 3; 1; 1]; [1; 2; 3; 1]; [1; 1; 2; 3]; [3; 1; 1; 2]].
Definition mix_columns (st : bytes) : bytes := flat_map (fun c => mix_column (take 4 (drop (4 * c) st))) (seq 0 4).

(** 5.2: words of four octets. *)
Definition rcon (i : nat) : Z := Nat.iter (i - 1) (mul 2) 1.
Definition expand (w : list bytes) (i : nat) : list bytes :=
  let temp := nth (i - 1) w [] in
  let temp := if (i mod 4 =? 0)%nat
              then zip_with Z.lxor (map sub_byte (drop 1 temp ++ take 1 temp)) [rcon (i / 4); 0; 0; 0]
              else temp in
  w ++ [zip_with Z.lxor (nth (i - 4) w []) temp].
Definition key_expansion (key : bytes) : list bytes :=
  fold_left expand (seq 4 40) (map (fun i => take 4 (drop (4 * i) key)) (seq 0 4)).

(** 5.1.4. *)
Definition add_round_key (w : list bytes) (r : nat) (st : bytes) : bytes :=
  zip_with Z.lxor st (flat_map (fun c => nth (4 * r + c) w []) (seq 0 4)).

(** 5.1. *)
Definition round (w : list bytes) (st : bytes) (r : nat) : bytes :=
  add_round_key w r (mix_columns (shift_rows (map sub_byte st))).
Definition cipher (key input : bytes) : bytes :=
  let w := key_expansion key in
  let st := fold_left (round w) (seq 1 9) (add_round_key w 0 input) in
  add_round_key w 10 (shift_rows (map sub_byte st)).
End Fips197.

(** The vector of FIPS 197, C.1. *)
Example aes_vector :
  encrypt (Aes128 (be 16 0x000102030405060708090a0b0c0d0e0f)) (be 16 0x00112233445566778899aabbccddeeff)
  = be 16 0x69c4e0d86a7b0430d8cdb78070b4c55a.
Proof. by vm_compute. Qed.

(** ** Octets by computation *)

Lemma octet_values_in x : octet x -> In x octet_values.
Proof.
  intros H. by apply below_in.
Qed.

(** A decidable fact about all octets. *)
Lemma all_octets (p : Z -> bool) : forallb p octet_values = true -> forall x, octet x -> p x = true.
Proof. intros H x Hx. rewrite forallb_forall in H. by apply H, octet_values_in. Qed.

Lemma sbox_entries : forallb (fun x => Sbox x =? Fips197.sub_byte x) octet_values = true.
Proof. by vm_compute. Qed.

Lemma Sbox_sub x : octet x -> Sbox x = Fips197.sub_byte x.
Proof. intros H. apply Z.eqb_eq. exact (all_octets (fun x => Sbox x =? Fips197.sub_byte x) sbox_entries x H). Qed.

Lemma sub_byte_octet x : octet x -> octet (Fips197.sub_byte x).
Proof.
  intros H. assert (E : ((0 <=? Fips197.sub_byte x) && (Fips197.sub_byte x <? 256)) = true).
  { revert x H. apply (all_octets (fun x => (0 <=? Fips197.sub_byte x) && (Fips197.sub_byte x <? 256))). by vm_compute. }
  apply andb_true_iff in E as [H0 H1]. apply Z.leb_le in H0. apply Z.ltb_lt in H1. by split.
Qed.

Lemma mul_1 x : octet x -> Fips197.mul 1 x = x.
Proof. intros H. apply Z.eqb_eq. revert x H. apply (all_octets (fun x => Fips197.mul 1 x =? x)). by vm_compute. Qed.
Lemma mul_2 x : octet x -> Fips197.mul 2 x = xtime x.
Proof. intros H. apply Z.eqb_eq. revert x H. apply (all_octets (fun x => Fips197.mul 2 x =? xtime x)). by vm_compute. Qed.
Lemma mul_3 x : octet x -> Fips197.mul 3 x = Z.lxor (xtime x) x.
Proof. intros H. apply Z.eqb_eq. revert x H. apply (all_octets (fun x => Fips197.mul 3 x =? Z.lxor (xtime x) x)). by vm_compute. Qed.

Lemma xtime_octet x : octet (xtime x).
Proof. apply octet_u8. Qed.

(** [xtime] is linear. *)
Lemma xtime_lxor x y : octet x -> octet y -> xtime (Z.lxor x y) = Z.lxor (xtime x) (xtime y).
Proof.
  intros Hx Hy. apply Z.eqb_eq. revert y Hy.
  apply (all_octets (fun y => xtime (Z.lxor x y) =? Z.lxor (xtime x) (xtime y))). revert x Hx.
  apply (all_octets (fun x => forallb (fun y => xtime (Z.lxor x y) =? Z.lxor (xtime x) (xtime y)) octet_values)).
  by vm_compute.
Qed.

#[local] Opaque Fips197.sub_byte Fips197.mul Sbox xtime.

(** ** The round functions *)

Lemma octet_lxor x y : octet x -> octet y -> octet (Z.lxor x y).
Proof. intros. by apply word_lxor. Qed.
Create HintDb aes.
#[local] Hint Resolve octet_lxor xtime_octet sub_byte_octet : aes.

Ltac by_bits := apply Z.bits_inj'; intros ? ?; rewrite ?Z.lxor_spec, ?Z.bits_0;
  repeat match goal with |- context [Z.testbit ?x ?i] => generalize (Z.testbit x i); intros [] end; reflexivity.

Lemma mix_column_matrix a b c d : octet a -> octet b -> octet c -> octet d ->
  mix_column a b c d = Fips197.mix_column [a; b; c; d].
Proof.
  intros Ha Hb Hc Hd. unfold mix_column, Fips197.mix_column, Fips197.sum. cbn [map zip_with fold_right].
  rewrite !xtime_lxor, !mul_1, !mul_2, !mul_3 by done.
  repeat match goal with |- _ :: _ = _ :: _ => f_equal end; by_bits.
Qed.

(** A state of sixteen octets. *)
Definition state (st : bytes) : Prop := length st = 16%nat /\ octets st.

Lemma state_inv st : state st -> exists a b c d e f g h i j k l m n o p,
  st = [a; b; c; d; e; f; g; h; i; j; k; l; m; n; o; p].
Proof.
  intros [H _]. do 16 (destruct st as [|? st]; [discriminate|]). destruct st; [|discriminate]. by do 16 eexists.
Qed.

Ltac state_cases H :=
  let O := fresh "O" in
  pose proof (proj2 H) as O; apply state_inv in H as (? & ? & ? & ? & ? & ? & ? & ? & ? & ? & ? & ? & ? & ? & ? & ? & ->);
  unfold octets in O; rewrite !Forall_cons in O; destruct O as (? & ? & ? & ? & ? & ? & ? & ? & ? & ? & ? & ? & ? & ? & ? & ? & _).

Lemma state_16 a b c d e f g h i j k l m n o p :
  octet a -> octet b -> octet c -> octet d -> octet e -> octet f -> octet g -> octet h -> octet i -> octet j ->
  octet k -> octet l -> octet m -> octet n -> octet o -> octet p ->
  state [a; b; c; d; e; f; g; h; i; j; k; l; m; n; o; p].
Proof. intros. split; [done|]. unfold octets. rewrite !Forall_cons. done. Qed.

Lemma shift_rows_eq st : state st -> shift_rows st = Fips197.shift_rows st /\ state (shift_rows st).
Proof. intros H. state_cases H. split; [reflexivity|]. unfold shift_rows, set_at. simpl. by apply state_16. Qed.

Lemma mix_columns_eq st : state st -> mix_columns st = Fips197.mix_columns st /\ state (mix_columns st).
Proof.
  intros H. state_cases H. split.
  - unfold mix_columns, Fips197.mix_columns. cbn [flat_map seq take drop octet_at nth Nat.mul Nat.add].
    by rewrite <- !mix_column_matrix by done.
  - unfold mix_columns, mix_column. cbn. apply state_16; auto 20 with aes.
Qed.

Lemma sub_bytes_eq st : state st -> map Sbox st = map Fips197.sub_byte st /\ state (map Sbox st).
Proof.
  intros [L O]. unfold octets in O. assert (E : map Sbox st = map Fips197.sub_byte st).
  { apply map_ext_in. intros x Hx. apply Sbox_sub. rewrite Forall_forall in O. by apply O, list_elem_of_In. }
  split; [done|]. rewrite E. split; [by rewrite length_map|]. apply Forall_forall. intros y Hy.
  apply list_elem_of_fmap in Hy as (x & -> & Hx). rewrite Forall_forall in O. by apply sub_byte_octet, O.
Qed.

(** ** The key schedule *)

(** A word of the source and the four octets of the standard. *)
Definition word4 (w : bytes) : Prop := length w = 4%nat /\ octets w.
Definition of_word (w : bytes) : Z := rd32 w 0.

Lemma word4_inv w : word4 w -> exists a b c d, w = [a; b; c; d] /\ octet a /\ octet b /\ octet c /\ octet d.
Proof.
  intros [L O]. do 4 (destruct w as [|? w]; [discriminate|]). destruct w; [|discriminate].
  unfold octets in O. rewrite !Forall_cons in O. do 4 eexists. split; [done|]. by destruct O as (? & ? & ? & ? & _).
Qed.
Lemma word4_4 a b c d : octet a -> octet b -> octet c -> octet d -> word4 [a; b; c; d].
Proof. intros. split; [done|]. unfold octets. by rewrite !Forall_cons. Qed.

Lemma of_word_value a b c d : octet a -> octet b -> octet c -> octet d ->
  of_word [a; b; c; d] = 16777216 * a + 65536 * b + 256 * c + d.
Proof. intros. unfold of_word. rewrite rd32_value; [done|]. by apply word4_4. Qed.

Lemma of_word_octets a b c d : octet a -> octet b -> octet c -> octet d -> let t := of_word [a; b; c; d] in
  u8 (Z.shiftr t 24) = a /\ u8 (Z.shiftr t 16) = b /\ u8 (Z.shiftr t 8) = c /\ u8 t = d.
Proof.
  intros Ha Hb Hc Hd t. unfold t. rewrite of_word_value by done. octet_arith.
  repeat split; Z.div_mod_to_equations; lia.
Qed.

Lemma rot_word a b c d : octet a -> octet b -> octet c -> octet d -> let t := of_word [a; b; c; d] in
  Z.lor (u32 (Z.shiftl t 8)) (Z.shiftr t 24) = of_word [b; c; d; a].
Proof.
  intros Ha Hb Hc Hd t. unfold t. rewrite !of_word_value by done.
  rewrite (lor_add 8); [octet_arith; Z.div_mod_to_equations; lia|lia| |octet_arith; Z.div_mod_to_equations; lia].
  octet_arith. Z.div_mod_to_equations. lia.
Qed.

Lemma land_255 x : Z.land x 255 = u8 x.
Proof. change 255 with (Z.ones 8). by apply Z.land_ones. Qed.

Lemma sub_word_eq a b c d : octet a -> octet b -> octet c -> octet d ->
  sub_word (of_word [a; b; c; d]) = of_word (map Fips197.sub_byte [a; b; c; d]).
Proof.
  intros Ha Hb Hc Hd. unfold sub_word. rewrite !land_255.
  destruct (of_word_octets a b c d Ha Hb Hc Hd) as (-> & -> & -> & ->). by rewrite !Sbox_sub by done.
Qed.

Lemma testbit_octet x i : octet x -> 8 <= i -> Z.testbit x i = false.
Proof. intros. apply (word_bit 8); [lia|done]. Qed.

Lemma of_word_lxor a b c d a' b' c' d' :
  octet a -> octet b -> octet c -> octet d -> octet a' -> octet b' -> octet c' -> octet d' ->
  Z.lxor (of_word [a; b; c; d]) (of_word [a'; b'; c'; d'])
  = of_word [Z.lxor a a'; Z.lxor b b'; Z.lxor c c'; Z.lxor d d'].
Proof.
  intros. unfold of_word, rd32, octet_at. cbn [nth Nat.add]. apply Z.bits_inj'. intros i Hi.
  rewrite !Z.lxor_spec, !Z.lor_spec, !Z.shiftl_spec, !Z.lxor_spec by lia.
  destruct (Z.ltb_spec i 8); [|destruct (Z.ltb_spec i 16); [|destruct (Z.ltb_spec i 24)]].
  - rewrite !(Z.testbit_neg_r _ (i - 24)), !(Z.testbit_neg_r _ (i - 16)), !(Z.testbit_neg_r _ (i - 8)) by lia. done.
  - rewrite !(Z.testbit_neg_r _ (i - 24)), !(Z.testbit_neg_r _ (i - 16)) by lia.
    rewrite (testbit_octet d i), (testbit_octet d' i) by done. by rewrite !orb_false_r.
  - rewrite !(Z.testbit_neg_r _ (i - 24)) by lia.
    rewrite (testbit_octet d i), (testbit_octet d' i), (testbit_octet c (i - 8)), (testbit_octet c' (i - 8)) by (done || lia).
    by rewrite !orb_false_r.
  - rewrite (testbit_octet d i), (testbit_octet d' i), (testbit_octet c (i - 8)), (testbit_octet c' (i - 8)),
      (testbit_octet b (i - 16)), (testbit_octet b' (i - 16)) by (done || lia). by rewrite !orb_false_r.
Qed.

Lemma rcon_octet k : octet (Fips197.rcon k).
Proof.
  unfold Fips197.rcon. induction (k - 1)%nat as [|n IH]; [by split|]. rewrite Nat.iter_succ, mul_2 by done. apply xtime_octet.
Qed.
Lemma rcon_next k : (1 <= k)%nat -> Fips197.rcon (k + 1) = xtime (Fips197.rcon k).
Proof.
  intros Hk. rewrite <- mul_2 by apply rcon_octet. unfold Fips197.rcon.
  replace (k + 1 - 1)%nat with (S (k - 1)) by lia. by rewrite Nat.iter_succ.
Qed.

Lemma nth_of_word i w : (i < length w)%nat -> nth i (map of_word w) 0 = of_word (nth i w []).
Proof. intros Hi. rewrite (nth_indep _ 0 (of_word [])) by (by rewrite length_map). by rewrite map_nth. Qed.

Lemma nth_word4 i w : Forall word4 w -> (i < length w)%nat -> word4 (nth i w []).
Proof. intros Hw Hi. eapply Forall_forall; [exact Hw|]. apply list_elem_of_In, nth_In. lia. Qed.

Definition schedules (i : nat) (st : list Z * Z) (w : list bytes) : Prop :=
  length w = i /\ Forall word4 w /\ st.1 = map of_word w /\ st.2 = Fips197.rcon ((i + 3) / 4).

Lemma zip_word4 v w : word4 v -> word4 w ->
  word4 (zip_with Z.lxor v w) /\ Z.lxor (of_word v) (of_word w) = of_word (zip_with Z.lxor v w).
Proof.
  intros Hv Hw. apply word4_inv in Hv as (a & b & c & d & -> & ? & ? & ? & ?).
  apply word4_inv in Hw as (a' & b' & c' & d' & -> & ? & ? & ? & ?). split.
  - apply word4_4; by apply octet_lxor.
  - by rewrite of_word_lxor.
Qed.

Lemma rotated_word w k : word4 w ->
  let w' := zip_with Z.lxor (map Fips197.sub_byte (drop 1 w ++ take 1 w)) [Fips197.rcon k; 0; 0; 0] in
  word4 w' /\ Z.lxor (sub_word (Z.lor (u32 (Z.shiftl (of_word w) 8)) (Z.shiftr (of_word w) 24))) (Z.shiftl (Fips197.rcon k) 24)
             = of_word w'.
Proof.
  intros Hw w'. apply word4_inv in Hw as (a & b & c & d & -> & ? & ? & ? & ?).
  rewrite rot_word, sub_word_eq by done. pose proof (rcon_octet k) as Hk. assert (O : octet 0) by by split.
  assert (E : Z.shiftl (Fips197.rcon k) 24 = of_word [Fips197.rcon k; 0; 0; 0]).
  { unfold of_word, rd32, octet_at. cbn [nth Nat.add]. by rewrite !Z.shiftl_0_l, !Z.lor_0_r. }
  rewrite E. unfold w'. apply zip_word4; [|by apply word4_4]. cbn [drop take app map].
  apply word4_4; by apply sub_byte_octet.
Qed.

Lemma expand_step i st w : (4 <= i)%nat -> schedules i st w -> schedules (S i) (expand st i) (Fips197.expand w i).
Proof.
  intros Hi (L & Hw & E1 & E2). destruct st as [rk rc]. cbn [fst snd] in E1, E2. subst rk rc.
  unfold expand, Fips197.expand. rewrite nth_of_word by lia.
  pose proof (nth_word4 (i - 1) w Hw ltac:(lia)) as H1. pose proof (nth_word4 (i - 4) w Hw ltac:(lia)) as H4.
  destruct (Nat.eqb_spec (i mod 4) 0) as [Em|Em].
  - assert (Ek : ((i + 3) / 4 = i / 4)%nat) by (rewrite (Nat.div_mod_eq i 4), Em; 
      replace (4 * (i / 4) + 0 + 3)%nat with (3 + (i / 4) * 4)%nat by lia; rewrite Nat.div_add by lia; 
      replace (4 * (i / 4) + 0)%nat with ((i / 4) * 4)%nat by lia; by rewrite Nat.div_mul).
    rewrite Ek. destruct (rotated_word (nth (i - 1) w []) (i / 4) H1) as [W E]. rewrite E.
    destruct (zip_word4 _ _ H4 W) as [W' E']. unfold schedules. cbn [fst snd]. rewrite nth_of_word by lia.
    split; [rewrite length_app; simpl; lia|]. split; [by apply Forall_app; split; [|constructor]|].
    split; [rewrite (map_app of_word), E'; reflexivity|]. rewrite <- rcon_next by (apply Nat.div_le_lower_bound; lia).
    f_equal. pose proof (Nat.div_mod_eq i 4). replace (S i + 3)%nat with ((i / 4 + 1) * 4)%nat by lia. by rewrite Nat.div_mul.
  - destruct (zip_word4 _ _ H4 H1) as [W' E']. unfold schedules. cbn [fst snd]. rewrite nth_of_word by lia.
    split; [rewrite length_app; simpl; lia|]. split; [by apply Forall_app; split; [|constructor]|].
    split; [rewrite (map_app of_word), E'; reflexivity|]. f_equal.
    pose proof (Nat.mod_upper_bound i 4 ltac:(lia)). pose proof (Nat.div_mod_eq i 4).
    apply Nat2Z.inj. rewrite !Nat2Z.inj_div. zify. Z.div_mod_to_equations. lia.
Qed.

Lemma key_schedule key : length key = 16%nat -> octets key ->
  length (Fips197.key_expansion key) = 44%nat /\ Forall word4 (Fips197.key_expansion key)
  /\ Aes128 key = map of_word (Fips197.key_expansion key).
Proof.
  intros L O. destruct (state_inv key (conj L O)) as (a & b & c & d & e & f & g & h & i & j & k & l & m & n & o & p & E).
  set (w0 := map (fun i => take 4 (drop (4 * i) key)) (seq 0 4)).
  assert (B : schedules 4 (map (fun i => rd32 key (4 * i)) (seq 0 4), 1) w0).
  { unfold w0. subst key. split; [done|]. unfold octets in O. rewrite !Forall_cons in O.
    destruct O as (? & ? & ? & ? & ? & ? & ? & ? & ? & ? & ? & ? & ? & ? & ? & ? & _).
    split; [|by split]. cbn [map seq take drop Nat.mul Nat.add]. repeat apply Forall_cons_2; [by apply word4_4..|constructor]. }
  assert (G : forall t, schedules (4 + t) (fold_left expand (seq 4 t) (map (fun i => rd32 key (4 * i)) (seq 0 4), 1))
                          (fold_left Fips197.expand (seq 4 t) w0)).
  { induction t as [|t IH]; [exact B|]. rewrite seq_S, !fold_left_app. cbn [fold_left].
    replace (4 + S t)%nat with (S (4 + t)) by lia. apply expand_step; [lia|exact IH]. }
  destruct (G 40%nat) as (L1 & W1 & E1 & _). split; [exact L1|]. split; [exact W1|]. exact E1.
Qed.

Lemma add_rk_eq w r st : Forall word4 w -> (4 * r + 3 < length w)%nat ->
  add_rk (map of_word w) r st = Fips197.add_round_key w r st.
Proof.
  intros Hw Hr. unfold add_rk, Fips197.add_round_key. f_equal.
  assert (G : forall c, (c < 4)%nat -> (let k := nth (4 * r + c) (map of_word w) 0 in
    [u8 (Z.shiftr k 24); u8 (Z.shiftr k 16); u8 (Z.shiftr k 8); u8 k]) = nth (4 * r + c) w []).
  { intros c Hc. cbv zeta. rewrite nth_of_word by lia.
    destruct (word4_inv _ (nth_word4 (4 * r + c) w Hw ltac:(lia))) as (a & b & c' & d & -> & Ha & Hb & Hc' & Hd).
    by destruct (of_word_octets a b c' d Ha Hb Hc' Hd) as (-> & -> & -> & ->). }
  cbn [flat_map seq]. by rewrite !G by lia.
Qed.

Lemma add_round_key_state w r st : Forall word4 w -> (4 * r + 3 < length w)%nat -> state st ->
  state (Fips197.add_round_key w r st).
Proof.
  intros Hw Hr [L O]. unfold Fips197.add_round_key.
  assert (K : state (flat_map (fun c => nth (4 * r + c) w []) (seq 0 4))).
  { cbn [flat_map seq].
    pose proof (fun c Hc => nth_word4 (4 * r + c) w Hw Hc) as G.
    destruct (G 0%nat ltac:(lia)) as [L0 O0]. destruct (G 1%nat ltac:(lia)) as [L1 O1].
    destruct (G 2%nat ltac:(lia)) as [L2 O2]. destruct (G 3%nat ltac:(lia)) as [L3 O3].
    split; [rewrite !length_app; cbn [length]; lia|]. rewrite !octets_app. repeat split; try done. constructor. }
  destruct K as [LK OK]. split; [rewrite length_zip_with; lia|]. exact (octets_xor_with _ _ OK O).
Qed.

Lemma round_unfold w st r : Fips197.round w st r =
  Fips197.add_round_key w r (Fips197.mix_columns (Fips197.shift_rows (map Fips197.sub_byte st))).
Proof. unfold Fips197.round. reflexivity. Qed.

Lemma cipher_round_eq w st r : Forall word4 w -> length w = 44%nat -> (r <= 10)%nat -> state st ->
  let st' := Fips197.shift_rows (map Fips197.sub_byte st) in
  cipher_round (map of_word w) st r = Fips197.add_round_key w r (if (r <? 10)%nat then Fips197.mix_columns st' else st')
  /\ state (cipher_round (map of_word w) st r).
Proof.
  intros Hw L Hr Hst st'. unfold cipher_round. destruct (sub_bytes_eq st Hst) as [E1 S1].
  destruct (shift_rows_eq _ S1) as [E2 S2]. destruct (mix_columns_eq _ S2) as [E3 S3].
  rewrite add_rk_eq by (done || lia). split.
  - rewrite E3, E2, E1. done.
  - apply add_round_key_state; [done|lia|]. by destruct (r <? 10)%nat.
Qed.

(** C18. AES-128 is FIPS 197.  The S-box that is computed from logarithms, the
    key schedule on 32-bit words and the rounds with their shortcuts compute,
    for every key and every block, the cipher of the standard: inverse and
    affine map bit by bit, rows moved, columns multiplied by the matrix over the
    field, and the expanded key added. *)
Theorem aes128_is_fips197 (key block : bytes) :
  length key = 16%nat -> octets key -> length block = 16%nat -> octets block ->
  encrypt (Aes128 key) block = Fips197.cipher key block.
Proof.
  intros Lk Ok Lb Ob. destruct (key_schedule key Lk Ok) as (L & Hw & ->).
  set (w := Fips197.key_expansion key) in *. unfold encrypt, Fips197.cipher. fold w.
  rewrite add_rk_eq by (done || lia).
  assert (B : state (Fips197.add_round_key w 0 block)) by (apply add_round_key_state; [done|lia|done]).
  assert (G : forall t, (t <= 9)%nat ->
    fold_left (cipher_round (map of_word w)) (seq 1 t) (Fips197.add_round_key w 0 block)
    = fold_left (Fips197.round w) (seq 1 t) (Fips197.add_round_key w 0 block)
    /\ state (fold_left (cipher_round (map of_word w)) (seq 1 t) (Fips197.add_round_key w 0 block))).
  { induction t as [|t IH]; intros Ht; [done|]. rewrite seq_S, !fold_left_app. destruct IH as [E St]; [lia|].
    cbn [fold_left]. destruct (cipher_round_eq w _ (1 + t) Hw L ltac:(lia) St) as [E' S']. split; [|exact S'].
    rewrite E', E. replace (1 + t <? 10)%nat with true by (symmetry; apply Nat.ltb_lt; lia). cbv iota.
    symmetry. apply round_unfold. }
  destruct (G 9%nat ltac:(lia)) as [E St]. 
  replace (seq 1 10) with (seq 1 9 ++ [10%nat]) by done. rewrite fold_left_app.
  destruct (cipher_round_eq w _ 10 Hw L ltac:(lia) St) as [E' _]. change (10 <? 10)%nat with false in E'. cbv iota in E'.
  rewrite E in E'. rewrite E. exact E'.
Qed.

Lemma aes128_is_fips197_witness :
  let key := be 16 0x000102030405060708090a0b0c0d0e0f in let block := be 16 0x00112233445566778899aabbccddeeff in
  length key = 16%nat /\ encrypt (Aes128 key) block = Fips197.cipher key block.
Proof.
  intros key block. split; [apply length_be|]. exact (aes128_is_fips197 key block (length_be 16 _) (octets_be 16 _) (length_be 16 _) (octets_be 16 _)).
Defined.

Lemma encrypt_state key block : length key = 16%nat -> octets key -> state block -> state (encrypt (Aes128 key) block).
Proof.
  intros Lk Ok Hb. destruct (key_schedule key Lk Ok) as (L & Hw & ->). set (w := Fips197.key_expansion key) in *.
  unfold encrypt. rewrite add_rk_eq by (done || lia).
  assert (G : forall t, (t <= 10)%nat -> state (fold_left (cipher_round (map of_word w)) (seq 1 t) (Fips197.add_round_key w 0 block))).
  { induction t as [|t IH]; intros Ht; [by apply add_round_key_state; [|lia|]|]. rewrite seq_S, fold_left_app. cbn [fold_left].
    by apply cipher_round_eq; [| |lia|apply IH; lia]. }
  by apply G.
Qed.
