(* ===== verification/G711.v ===== *)
(** * G.711 companding

    [core/audio/g711.{hpp,cpp}]: PCM of 16 bits to and from mu-law and A-law.
    An [int] here never leaves 16 bits and a sign, so no operation wraps. *)

From S2P Require Import Prelude Bytes.

Definition kBias : Z := 0x84.
Definition kClip : Z := 32635.

(** [for (m = 0x4000; (s & m) == 0 && exp > 0; m >>= 1) --exp], from [exp]. *)
Fixpoint exponent (exp : nat) (s m : Z) : Z :=
  match exp with
  | O => 0
  | S exp' => if Z.land s m =? 0 then exponent exp' s (Z.shiftr m 1) else Z.of_nat exp
  end.

Definition ulaw_encode (pcm : Z) : Z :=
  let sign := Z.land (Z.shiftr pcm 8) 0x80 in
  let s := if sign =? 0 then pcm else - pcm in
  let s := if kClip <? s then kClip else s in
  let s := s + kBias in
  let exp := exponent 7 s 0x4000 in
  let mant := Z.land (Z.shiftr s (exp + 3)) 0x0F in
  u8 (Z.lnot (Z.lor (Z.lor sign (Z.shiftl exp 4)) mant)).

Definition alaw_encode (pcm : Z) : Z :=
  let sign := Z.land (Z.shiftr (Z.lnot pcm) 8) 0x80 in
  let s := if sign =? 0 then - pcm else pcm in
  let s := if kClip <? s then kClip else s in
  if 256 <=? s then
    let exp := exponent 7 s 0x4000 in
    let mant := Z.land (Z.shiftr s (exp + 3)) 0x0F in
    u8 (Z.lxor (Z.lor (Z.lor sign (Z.shiftl exp 4)) mant) 0x55)
  else u8 (Z.lxor (Z.lor sign (Z.shiftr s 4)) 0x55).

Definition ulaw_decode (input : Z) : Z :=
  let u := u8 (Z.lnot input) in
  let t := Z.shiftl (Z.land u 0x0F) 3 + kBias in
  let t := Z.shiftl t (Z.shiftr (Z.land u 0x70) 4) in
  i16 (if Z.land u 0x80 =? 0 then t - kBias else kBias - t).

Definition alaw_decode (input : Z) : Z :=
  let a := Z.lxor input 0x55 in
  let t := Z.shiftl (Z.land a 0x0F) 4 in
  let seg := Z.shiftr (Z.land a 0x70) 4 in
  let t := if seg =? 0 then t + 8 else if seg =? 1 then t + 0x108 else Z.shiftl (t + 0x108) (seg - 1) in
  i16 (if Z.land a 0x80 =? 0 then - t else t).

(** The overloads on arrays. *)
Definition ulaw_encode_all (pcm : list Z) : bytes := map ulaw_encode pcm.
Definition alaw_encode_all (pcm : list Z) : bytes := map alaw_encode pcm.
Definition ulaw_decode_all (input : bytes) : list Z := map ulaw_decode input.
Definition alaw_decode_all (input : bytes) : list Z := map alaw_decode input.

(** ** Every code by computation *)

Definition codes : list Z := below 256.

Definition code_facts (c : Z) : bool :=
  let u := ulaw_decode c in let a := alaw_decode c in
  (-32768 <=? u) && (u <? 32768) && (-32768 <=? a) && (a <? 32768)
  && ((ulaw_encode u =? c) || ((c =? 0x7f) && (u =? 0))) && (alaw_encode a =? c).

Lemma all_codes : forallb code_facts codes = true.
Proof. by vm_compute. Qed.

Lemma code_holds c : octet c -> code_facts c = true.
Proof. intros H. by apply (below_all 256 _ all_codes). Qed.

(** ** Every sample, by its sign and its magnitude in steps of eight

    Neither law looks at the three lowest bits of the (biased) magnitude, so
    4096 steps and a sign cover all samples. *)

Definition magnitude (s : Z) : Z := Z.min (Z.abs s) kClip.

Definition ulaw_code (sign t : Z) : Z :=
  let exp := exponent 7 t 0x800 in
  u8 (Z.lnot (Z.lor (Z.lor sign (Z.shiftl exp 4)) (Z.land (Z.shiftr t exp) 0x0F))).
Definition alaw_code (sign t : Z) : Z :=
  if 32 <=? t then
    let exp := exponent 7 t 0x800 in
    u8 (Z.lxor (Z.lor (Z.lor sign (Z.shiftl exp 4)) (Z.land (Z.shiftr t exp) 0x0F)) 0x55)
  else u8 (Z.lxor (Z.lor sign (Z.shiftr t 1)) 0x55).

Lemma exponent_nonneg e : forall s m, 0 <= exponent e s m.
Proof. induction e as [|e IH]; intros s m; cbn [exponent]; [lia|]. destruct (_ =? 0); [apply IH|lia]. Qed.

Lemma land_pow2 s j : 0 <= j -> (Z.land s (2 ^ j) =? 0) = negb (Z.testbit s j).
Proof.
  intros Hj. assert (E : Z.land s (2 ^ j) = if Z.testbit s j then 2 ^ j else 0).
  { apply Z.bits_inj'. intros n Hn. rewrite Z.land_spec, Z.pow2_bits_eqb by done.
    destruct (Z.eqb_spec j n) as [->|Hne].
    - rewrite andb_true_r. destruct (Z.testbit s n) eqn:Es; [by rewrite Z.pow2_bits_true|by rewrite Z.bits_0].
    - rewrite andb_false_r. destruct (Z.testbit s j); [by rewrite Z.pow2_bits_false by lia|by rewrite Z.bits_0]. }
  rewrite E. destruct (Z.testbit s j); [|done]. pose proof (Z.pow_pos_nonneg 2 j ltac:(lia) Hj). cbn [negb]. lia.
Qed.

Lemma shiftr_pow2 j : 0 < j -> Z.shiftr (2 ^ j) 1 = 2 ^ (j - 1).
Proof. intros Hj. rewrite Z.shiftr_div_pow2 by lia. change (2 ^ 1) with 2. replace j with (Z.succ (j - 1)) at 1 by lia.
  rewrite Z.pow_succ_r by lia. rewrite Z.mul_comm. apply Z.div_mul. lia. Qed.

Lemma exponent_step e : forall s j, 3 + Z.of_nat e <= j ->
  exponent e s (2 ^ j) = exponent e (Z.shiftr s 3) (2 ^ (j - 3)).
Proof.
  induction e as [|e IH]; intros s j Hj; [done|]. cbn [exponent].
  rewrite !land_pow2, Z.shiftr_spec by lia. replace (j - 3 + 3) with j by lia.
  rewrite !shiftr_pow2, IH by lia. by replace (j - 1 - 3) with (j - 3 - 1) by lia.
Qed.

Lemma exponent_14 s : exponent 7 s 0x4000 = exponent 7 (Z.shiftr s 3) 0x800.
Proof. apply (exponent_step 7 s 14). lia. Qed.

Lemma mantissa s : Z.shiftr s (exponent 7 (Z.shiftr s 3) 0x800 + 3) = Z.shiftr (Z.shiftr s 3) (exponent 7 (Z.shiftr s 3) 0x800).
Proof. rewrite Z.shiftr_shiftr by apply exponent_nonneg. f_equal. lia. Qed.

Lemma sign_rows : forallb (fun h => Z.land (h - 128) 0x80 =? (if h <? 128 then 0x80 else 0)) codes = true.
Proof. by vm_compute. Qed.

Lemma sign_bit s : -32768 <= s < 32768 -> Z.land (Z.shiftr s 8) 0x80 = if s <? 0 then 0x80 else 0.
Proof.
  intros H. rewrite Z.shiftr_div_pow2 by lia. change (2 ^ 8) with 256.
  pose proof (below_all 256 _ sign_rows (s / 256 + 128) ltac:(Z.div_mod_to_equations; lia)) as A. cbv beta in A. apply Z.eqb_eq in A. replace (s / 256 + 128 - 128) with (s / 256) in A by lia. rewrite A.
  destruct (Z.ltb_spec s 0); [rewrite (proj2 (Z.ltb_lt _ _))|rewrite (proj2 (Z.ltb_ge _ _))]; try done; Z.div_mod_to_equations; lia.
Qed.

Lemma clip m : (if kClip <? m then kClip else m) = Z.min m kClip.
Proof. destruct (Z.ltb_spec kClip m); lia. Qed.

Lemma ulaw_by_step s : -32768 <= s < 32768 ->
  ulaw_encode s = ulaw_code (if s <? 0 then 0x80 else 0) ((magnitude s + kBias) / 8).
Proof.
  intros H. unfold ulaw_encode, ulaw_code. rewrite sign_bit by done. cbv zeta. rewrite clip.
  rewrite exponent_14, mantissa. rewrite (Z.shiftr_div_pow2 _ 3) by lia. change (2 ^ 3) with 8.
  assert (E : Z.min (if (if s <? 0 then 128 else 0) =? 0 then s else - s) kClip = magnitude s).
  { unfold magnitude. destruct (Z.ltb_spec s 0); cbn [Z.eqb]; lia. }
  by rewrite E.
Qed.

Lemma alaw_by_step s : -32768 <= s < 32768 ->
  alaw_encode s = alaw_code (if s <? 0 then 0 else 0x80) (magnitude s / 8).
Proof.
  intros H. unfold alaw_encode, alaw_code. rewrite sign_bit by (unfold Z.lnot; lia). cbv zeta. rewrite clip.
  rewrite exponent_14, mantissa. rewrite (Z.shiftr_div_pow2 _ 3) by lia. change (2 ^ 3) with 8.
  assert (Es : (Z.lnot s <? 0) = negb (s <? 0)) by (unfold Z.lnot; destruct (Z.ltb_spec (Z.pred (- s)) 0), (Z.ltb_spec s 0); cbn; lia). rewrite Es.
  assert (E : Z.min (if (if negb (s <? 0) then 128 else 0) =? 0 then - s else s) kClip = magnitude s).
  { unfold magnitude. destruct (Z.ltb_spec s 0); cbn [Z.eqb negb]; lia. }
  rewrite E. set (m := magnitude s). assert (E8 : (32 <=? m / 8) = (256 <=? m)).
  { destruct (Z.leb_spec 32 (m / 8)), (Z.leb_spec 256 m); try done; Z.div_mod_to_equations; lia. }
  rewrite E8, (Z.shiftr_div_pow2 m 4), (Z.shiftr_div_pow2 (m / 8) 1), Z.div_div by lia. change (8 * 2 ^ 1) with 16. change (2 ^ 4) with 16.
  by destruct (s <? 0).
Qed.

(** The value [v] decoded for the magnitudes [lo .. lo + 7]: within the error. *)
Definition near (lo v floor : Z) : bool :=
  let e := Z.max floor (Z.max lo 0 / 16 + 8) in (Z.abs (v - lo) <=? e) && (Z.abs (v - (lo + 7)) <=? e).

Definition ulaw_value (t : Z) : Z := ulaw_decode (ulaw_code 0 t).
Definition alaw_value (t : Z) : Z := alaw_decode (alaw_code 0x80 t).

Definition is_octet (x : Z) : bool := (0 <=? x) && (x <? 256).
Lemma is_octet_spec x : is_octet x = true <-> octet x.
Proof. unfold is_octet, word. rewrite andb_true_iff, Z.leb_le, Z.ltb_lt. change (2 ^ 8) with 256. lia. Qed.

Definition step_facts (t : Z) : bool :=
  let u := ulaw_value t in let a := alaw_value t in
  is_octet (ulaw_code 0 t) && is_octet (ulaw_code 0x80 t) && is_octet (alaw_code 0 t) && is_octet (alaw_code 0x80 t)
  && (ulaw_decode (ulaw_code 0x80 t) =? - u) && (alaw_decode (alaw_code 0 t) =? - a) && (0 <=? a)
  && (if 16 <=? t then (0 <=? u) && near (8 * t - kBias) u 8 else true) && near (8 * t) a 16
  && (if (16 <=? t) && (t <? 4095) then u <=? ulaw_value (t + 1) else true)
  && (if t <? 4095 then a <=? alaw_value (t + 1) else true).

Lemma all_steps : forallb (fun h => forallb (fun l => step_facts (256 * h + l)) codes) (below 16) = true.
Proof. by vm_compute. Qed.

(** A conjunction of tests, taken apart into propositions. *)
Ltac apply_andb H :=
  lazymatch type of H with
  | (_ && _)%bool = true => let H' := fresh H in apply andb_true_iff in H as [H H']; apply_andb H; apply_andb H'
  | (_ <=? _) = true => apply Z.leb_le in H
  | (_ <? _) = true => apply Z.ltb_lt in H
  | (_ =? _) = true => apply Z.eqb_eq in H
  | is_octet _ = true => apply is_octet_spec in H
  | _ => idtac
  end.

Record step_ok (t : Z) : Prop := {
  ulaw_octets : octet (ulaw_code 0 t) /\ octet (ulaw_code 0x80 t);
  alaw_octets : octet (alaw_code 0 t) /\ octet (alaw_code 0x80 t);
  ulaw_odd : ulaw_decode (ulaw_code 0x80 t) = - ulaw_value t;
  alaw_odd : alaw_decode (alaw_code 0 t) = - alaw_value t;
  ulaw_pos : 16 <= t -> 0 <= ulaw_value t;
  alaw_pos : 0 <= alaw_value t;
  ulaw_near : 16 <= t -> near (8 * t - kBias) (ulaw_value t) 8 = true;
  alaw_near : near (8 * t) (alaw_value t) 16 = true;
  ulaw_mono : 16 <= t < 4095 -> ulaw_value t <= ulaw_value (t + 1);
  alaw_mono : t < 4095 -> alaw_value t <= alaw_value (t + 1) }.

Lemma step_holds t : 0 <= t < 4096 -> step_ok t.
Proof.
  intros H. pose proof (below_all 16 _ all_steps (t / 256) ltac:(Z.div_mod_to_equations; lia)) as A. cbv beta in A.
  apply (below_all 256 _) with (x := t mod 256) in A; [|by apply Z.mod_pos_bound].
  rewrite <- (Z.div_mod t 256) in A by done.
  unfold step_facts in A. cbv zeta in A. set (u := ulaw_value t) in *. set (a := alaw_value t) in *.
  apply_andb A. split; try done.
  all: intros; rewrite ?(proj2 (Z.leb_le 16 t)), ?(proj2 (Z.ltb_lt t 4095)) in * by lia; cbn [andb] in *.
  all: repeat match goal with Hx : (_ && _)%bool = true |- _ => apply_andb Hx | Hx : (_ <=? _) = true |- _ => apply_andb Hx end; done.
Qed.

(** [near], for one magnitude. *)
Lemma near_bound lo v floor m : near lo v floor = true -> lo <= m <= lo + 7 -> 0 <= m ->
  Z.abs (v - m) <= Z.max floor (m / 16 + 8).
Proof.
  unfold near. cbv zeta. intros H Hm Hp. apply_andb H.
  assert (Z.max lo 0 / 16 <= m / 16) by (apply Z.div_le_mono; lia). lia.
Qed.

(** ** The two laws on a sample *)

Definition ustep (s : Z) : Z := (magnitude s + kBias) / 8.
Definition astep (s : Z) : Z := magnitude s / 8.

Lemma steps_range s : 16 <= ustep s < 4096 /\ 0 <= astep s < 4096.
Proof. unfold ustep, astep, magnitude, kBias, kClip. Z.div_mod_to_equations. lia. Qed.

Lemma ulaw_decoded s : -32768 <= s < 32768 ->
  ulaw_decode (ulaw_encode s) = if s <? 0 then - ulaw_value (ustep s) else ulaw_value (ustep s).
Proof.
  intros H. destruct (steps_range s) as [Hu _]. rewrite ulaw_by_step by done. fold (ustep s).
  destruct (s <? 0); [exact (ulaw_odd _ (step_holds (ustep s) ltac:(lia)))|by unfold ulaw_value].
Qed.
Lemma alaw_decoded s : -32768 <= s < 32768 ->
  alaw_decode (alaw_encode s) = if s <? 0 then - alaw_value (astep s) else alaw_value (astep s).
Proof.
  intros H. destruct (steps_range s) as [_ Ha]. rewrite alaw_by_step by done. fold (astep s).
  destruct (s <? 0); [exact (alaw_odd _ (step_holds _ Ha))|by unfold alaw_value].
Qed.

Lemma next_step s s' : Z.abs s <= Z.abs s' <= Z.abs s + 1 ->
  ulaw_value (ustep s) <= ulaw_value (ustep s') /\ alaw_value (astep s) <= alaw_value (astep s').
Proof.
  intros H. destruct (steps_range s) as [Hu Ha], (steps_range s') as [Hu' Ha'].
  assert (Eu : ustep s' = ustep s \/ ustep s' = ustep s + 1) by (unfold ustep, magnitude, kBias, kClip in *; Z.div_mod_to_equations; lia).
  assert (Ea : astep s' = astep s \/ astep s' = astep s + 1) by (unfold astep, magnitude, kClip in *; Z.div_mod_to_equations; lia).
  split.
  - destruct Eu as [E|E]; rewrite E; [done|]. apply (ulaw_mono _ (step_holds (ustep s) ltac:(lia))). lia.
  - destruct Ea as [E|E]; rewrite E; [done|]. apply (alaw_mono _ (step_holds _ Ha)). lia.
Qed.

Lemma sample_values s : -32768 <= s < 32767 ->
  ulaw_decode (ulaw_encode s) <= ulaw_decode (ulaw_encode (s + 1))
  /\ alaw_decode (alaw_encode s) <= alaw_decode (alaw_encode (s + 1)).
Proof.
  intros H. rewrite !ulaw_decoded, !alaw_decoded by lia. destruct (Z.ltb_spec s 0), (Z.ltb_spec (s + 1) 0); try lia.
  - pose proof (next_step (s + 1) s ltac:(lia)). lia.
  - destruct (steps_range s) as [Hu Ha], (steps_range (s + 1)) as [Hu' Ha'].
    pose proof (ulaw_pos _ (step_holds _ (conj (Z.le_trans 0 16 _ ltac:(lia) (proj1 Hu)) (proj2 Hu))) (proj1 Hu)).
    pose proof (ulaw_pos _ (step_holds _ (conj (Z.le_trans 0 16 _ ltac:(lia) (proj1 Hu')) (proj2 Hu'))) (proj1 Hu')).
    pose proof (alaw_pos _ (step_holds _ Ha)). pose proof (alaw_pos _ (step_holds _ Ha')). lia.
  - pose proof (next_step s (s + 1) ltac:(lia)). lia.
Qed.

Lemma sample_near s : Z.abs s <= kClip ->
  Z.abs (ulaw_decode (ulaw_encode s) - s) <= Z.max 8 (Z.abs s / 16 + 8)
  /\ Z.abs (alaw_decode (alaw_encode s) - s) <= Z.max 16 (Z.abs s / 16 + 8).
Proof.
  intros H. assert (Hs : -32768 <= s < 32768) by (unfold kClip in H; lia). destruct (steps_range s) as [Hu Ha].
  rewrite ulaw_decoded, alaw_decoded by done.
  assert (U : Z.abs (ulaw_value (ustep s) - Z.abs s) <= Z.max 8 (Z.abs s / 16 + 8)).
  { apply (near_bound (8 * ustep s - kBias)); [apply (ulaw_near _ (step_holds (ustep s) ltac:(lia))); lia| |lia].
    unfold ustep, magnitude, kBias, kClip in *; Z.div_mod_to_equations; lia. }
  assert (A : Z.abs (alaw_value (astep s) - Z.abs s) <= Z.max 16 (Z.abs s / 16 + 8)).
  { apply (near_bound (8 * astep s)); [apply (alaw_near _ (step_holds _ Ha))| |lia].
    unfold astep, magnitude, kClip in *; Z.div_mod_to_equations; lia. }
  destruct (Z.ltb_spec s 0); lia.
Qed.

Lemma sample_octets s : -32768 <= s < 32768 -> octet (ulaw_encode s) /\ octet (alaw_encode s).
Proof.
  intros H. destruct (steps_range s) as [Hu Ha]. rewrite ulaw_by_step, alaw_by_step by done. fold (ustep s) (astep s).
  destruct (ulaw_octets _ (step_holds (ustep s) ltac:(lia))) as [U0 U1].
  destruct (alaw_octets _ (step_holds _ Ha)) as [A0 A1]. by split; destruct (s <? 0).
Qed.

(** G.711 loses only what it must.  Every code is given back by decoding and
    encoding (mu-law's negative zero, 0x7f, as the positive one); every sample
    of 16 bits is encoded to an octet, its decoded value is off by at most a
    sixteenth of the sample and eight (sixteen near zero for A-law) unless it
    was clipped, and a larger sample never decodes to a smaller value. *)
Theorem g711_faithful (s c : Z) :
  -32768 <= s < 32768 -> octet c ->
  (alaw_encode (alaw_decode c) = c /\ (c <> 0x7f -> ulaw_encode (ulaw_decode c) = c))
  /\ (octet (ulaw_encode s) /\ octet (alaw_encode s))
  /\ (Z.abs s <= kClip ->
        Z.abs (ulaw_decode (ulaw_encode s) - s) <= Z.abs s / 16 + 8
        /\ Z.abs (alaw_decode (alaw_encode s) - s) <= Z.max 16 (Z.abs s / 16 + 8))
  /\ (s < 32767 -> ulaw_decode (ulaw_encode s) <= ulaw_decode (ulaw_encode (s + 1))
                   /\ alaw_decode (alaw_encode s) <= alaw_decode (alaw_encode (s + 1))).
Proof.
  intros Hs Hc. pose proof (code_holds c Hc) as C. unfold code_facts in C. cbv zeta in C. apply_andb C. rename C1 into Hz.
  split; [|split; [by apply sample_octets|split]].
  - split; [done|]. intros Hne. apply orb_true_iff in Hz as [Hz|Hz]; apply_andb Hz; [done|lia].
  - intros Hk. destruct (sample_near s Hk) as [Hu Ha]. split; [|done].
    pose proof (Z.div_pos (Z.abs s) 16 ltac:(lia) ltac:(lia)). lia.
  - intros Hl. apply sample_values. lia.
Qed.

Lemma g711_faithful_witness : alaw_encode (alaw_decode 0xd5) = 0xd5 /\ Z.abs (ulaw_decode (ulaw_encode 1000) - 1000) <= 70.
Proof.
  assert (H : -32768 <= 1000 < 32768 /\ octet 0xd5) by (unfold word; lia).
  destruct (g711_faithful 1000 0xd5 (proj1 H) (proj2 H)) as ([Ha _] & _ & Hb & _). split; [exact Ha|].
  apply Hb. by vm_compute.
Defined.
