(* ===== verification/Rtp.v ===== *)
(** * RTP packets

    [app/rtp/rtp_packet.cpp]: the fixed header, written and parsed, and the
    G.711 payloads; the demultiplexing and the feedback of RTCP
    ([app/webrtc/rtp.cpp], [is_rtcp] and [parse_rtcp]); the framing of packets
    on the RTSP connection ([app/rtsp/rtp_audio.cpp], [take_interleaved]).
    These functions read what an untrusted peer sent: a read is [p !! i], and
    one outside the packet makes the whole computation [None]. *)

From S2P Require Import Prelude Text Bytes G711.

Definition kHeaderBytes : nat := 12.
Definition kPayloadPcmu : Z := 0.
Definition kPayloadPcma : Z := 8.

Record Header := {
  pt : Z;
  marker : bool;
  seqno : Z;
  ts : Z;
  ssrc : Z;
  payload_at : nat;
  payload_len : nat;
}.

Definition write_header (pt : Z) (marker : bool) (seq ts ssrc : Z) : bytes :=
  [0x80; u8 (Z.lor (Z.land pt 0x7f) (if marker then 0x80 else 0))] ++ be16 seq ++ be32 ts ++ be32 ssrc.

(** 0 for a malformed packet. *)
Definition header_length (p : bytes) : option nat :=
  let n := length p in
  if (n <? kHeaderBytes)%nat then Some 0%nat else
  b0 ← p !! 0%nat;
  if negb (Z.shiftr b0 6 =? 2) then Some 0%nat else
  let h := (kHeaderBytes + 4 * Z.to_nat (Z.land b0 0x0f))%nat in
  if negb (Z.land b0 0x10 =? 0) then
    if (n <? h + 4)%nat then Some 0%nat else
    e ← get16 p (h + 2);
    let h := (h + (4 + 4 * Z.to_nat e))%nat in
    Some (if (h <=? n)%nat then h else 0%nat)
  else Some (if (h <=? n)%nat then h else 0%nat).

(** [Some None] is [false]. *)
Definition parse (p : bytes) : option (option Header) :=
  let n := length p in
  h ← header_length p;
  if (h =? 0)%nat then Some None else
  b0 ← p !! 0%nat;
  pad ← (if negb (Z.land b0 0x20 =? 0) then last ← p !! (n - 1)%nat; Some (Some (Z.to_nat last)) else Some None);
  let fill (e : nat) :=
    b1 ← p !! 1%nat;
    s ← get16 p 2; t ← get32 p 4; c ← get32 p 8;
    Some (Some {| pt := Z.land b1 0x7f; marker := negb (Z.land b1 0x80 =? 0); seqno := s; ts := t; ssrc := c;
                  payload_at := h; payload_len := e - h |}) in
  match pad with
  | Some pad => if (pad =? 0)%nat || (n - h <? pad)%nat then Some None else fill (n - pad)%nat
  | None => fill n
  end.

(** Appended to [out]; [None] is [false]. *)
Definition decode_g711 (pt : Z) (p : bytes) (out : list Z) : option (list Z) :=
  if negb (pt =? kPayloadPcmu) && negb (pt =? kPayloadPcma) then None
  else Some (out ++ if pt =? kPayloadPcma then alaw_decode_all p else ulaw_decode_all p).

(** ** RTCP *)

Definition is_rtcp (p : bytes) : option bool :=
  if (length p <? 8)%nat then Some false else
  b0 ← p !! 0%nat;
  if negb (Z.shiftr b0 6 =? 2) then Some false else
  b1 ← p !! 1%nat;
  let pt := Z.land b1 0x7f in Some ((64 <=? pt) && (pt <=? 95)).

Record RtcpInfo := {
  pli : bool;
  receiver_report : bool;
}.

#[export] Instance eta_RtcpInfo : Settable RtcpInfo := fun r => Build_RtcpInfo (pli r) (receiver_report r).
#[export] Instance set_pli : Setter pli.
Proof. derive_setter. Defined.
#[export] Instance set_receiver_report : Setter receiver_report.
Proof. derive_setter. Defined.

(** One round of the loop adds at least four to [at]. *)
Fixpoint rtcp_loop (fuel : nat) (p : bytes) (pos : nat) (r : RtcpInfo) : option RtcpInfo :=
  match fuel with
  | O => None
  | S fuel =>
      let n := length p in
      if negb (pos + 4 <=? n)%nat then Some r else
      b0 ← p !! pos;
      if negb (Z.shiftr b0 6 =? 2) then Some r else
      let fmt := Z.land b0 0x1f in
      pt ← p !! (pos + 1)%nat;
      l ← get16 p (pos + 2);
      let plen := (4 * Z.to_nat (l + 1))%nat in
      if (n <? pos + plen)%nat then Some r else
      let r := if pt =? 201 then r <| receiver_report := true |> else r in
      let r := if (pt =? 206) && (fmt =? 1) then r <| pli := true |> else r in
      rtcp_loop fuel p (pos + plen) r
  end.

Definition parse_rtcp (p : bytes) : option RtcpInfo :=
  rtcp_loop (S (length p)) p 0 {| pli := false; receiver_report := false |}.

(** ** RTP on the RTSP connection *)

Definition kMaxInterleaved : nat := 4096.

Inductive Interleaved :=
  | NotOne
  | Partial
  | Frame (channel : Z) (data rest : bytes)
  | TooLarge.

(** [Frame] carries what is left of [buf]. *)
Definition take_interleaved (buf : bytes) : Interleaved :=
  if (length buf =? 0)%nat || negb (octet_at buf 0 =? 0x24) then NotOne else
  if (length buf <? 4)%nat then Partial else
  let len := Z.to_nat (rd16 buf 2) in
  if (kMaxInterleaved <? len)%nat then TooLarge else
  if (length buf <? 4 + len)%nat then Partial else
  Frame (octet_at buf 1) (take len (drop 4 buf)) (drop (4 + len) buf).

(** What the server itself puts on the connection ([send_interleaved] of
    rtsp_server.cpp puts the same four bytes before a packet). *)
Definition interleave (channel : Z) (data : bytes) : bytes :=
  [0x24; channel] ++ be16 (Z.of_nat (length data)) ++ data.

(** ** Facts *)

(** Reads that are inside are replaced by their value. *)
Ltac reads_inside := reads_by ltac:(unfold kHeaderBytes in *; lia).

Lemma header_length_spec p : exists h, header_length p = Some h /\ (h = 0 \/ kHeaderBytes <= h <= length p)%nat.
Proof.
  unfold header_length. case_match eqn:En; [by exists 0%nat; auto|]. apply Nat.ltb_ge in En. reads_inside.
  case_match; [by exists 0%nat; auto|]. case_match eqn:Ex.
  - case_match eqn:Ee; [by exists 0%nat; auto|]. apply Nat.ltb_ge in Ee. reads_inside. case_match eqn:El.
    + apply Nat.leb_le in El. eexists. split; [done|]. unfold kHeaderBytes in *. lia.
    + exists 0%nat. auto.
  - case_match eqn:El; [|by exists 0%nat; auto]. apply Nat.leb_le in El. eexists. split; [done|].
    unfold kHeaderBytes in *. lia.
Qed.

(** What [parse] promises of the fields it found in [p]. *)
Definition header_fits (p : bytes) (h : Header) : Prop :=
  (kHeaderBytes <= payload_at h)%nat /\ (payload_at h + payload_len h <= length p)%nat
  /\ word 7 (pt h) /\ word 16 (seqno h) /\ word 32 (ts h) /\ word 32 (ssrc h).

Lemma word_land_ones n x : 0 <= n -> word n (Z.land x (Z.ones n)).
Proof. intros Hn. rewrite Z.land_ones by done. apply Z.mod_pos_bound. lia. Qed.

Lemma parse_spec p : octets p -> exists r, parse p = Some r /\ (forall h, r = Some h -> header_fits p h).
Proof.
  intros Hp. unfold parse. destruct (header_length_spec p) as (h & -> & Hh). cbn [mbind option_bind].
  case_match eqn:E0; [by exists None|]. apply Nat.eqb_neq in E0. destruct Hh as [|[H12 Hn]]; [done|]. reads_inside.
  assert (F : forall e, (e <= length p)%nat -> header_fits p {| pt := Z.land (octet_at p 1) 0x7f;
    marker := negb (Z.land (octet_at p 1) 0x80 =? 0); seqno := rd16 p 2; ts := rd32 p 4; ssrc := rd32 p 8;
    payload_at := h; payload_len := e - h |}).
  { intros e He. unfold header_fits. cbn. split; [done|]. split; [lia|]. split; [apply (word_land_ones 7); lia|].
    split; [by apply rd16_word|]. split; by apply rd32_word. }
  case_match eqn:Ep; cbn [mbind option_bind].
  - reads_inside. case_match eqn:Eb; [by exists None|]. eexists. split; [done|]. intros ? [= <-]. apply F. lia.
  - reads_inside. eexists. split; [done|]. intros ? [= <-]. by apply F.
Qed.

Lemma rtcp_loop_total fuel p pos r :
  octets p -> (length p < pos + fuel)%nat -> (pos <= length p)%nat -> is_Some (rtcp_loop fuel p pos r).
Proof.
  intros Hp. revert pos r. induction fuel as [|fuel IH]; intros pos r Hf Hn; [lia|]. cbn [rtcp_loop].
  case_match eqn:E; [by eexists|]. apply negb_false_iff, Nat.leb_le in E. reads_inside.
  case_match; [by eexists|]. case_match eqn:El; [by eexists|]. apply Nat.ltb_ge in El.
  pose proof (rd16_word p (pos + 2) Hp) as [W _]. apply IH; lia.
Qed.

(** No datagram makes the parsers of the network path read outside of it,
    whatever its bytes are, and each of them returns: the header length is 0 or
    within the packet, an accepted packet's payload lies behind the fixed header
    and inside the packet, its fields have their widths, and the walk over an
    RTCP compound ends. *)
Theorem hostile_packet_safe (p : bytes) :
  octets p ->
  (exists h, header_length p = Some h /\ (h = 0 \/ kHeaderBytes <= h <= length p)%nat)
  /\ (exists r, parse p = Some r /\ (forall h, r = Some h -> header_fits p h))
  /\ is_Some (is_rtcp p)
  /\ is_Some (parse_rtcp p).
Proof.
  intros Hp. split; [apply header_length_spec|]. split; [by apply parse_spec|]. split.
  - unfold is_rtcp. case_match eqn:En; [by eexists|]. apply Nat.ltb_ge in En. reads_inside.
    case_match; [by eexists|]. reads_inside. by eexists.
  - apply rtcp_loop_total; [done|lia..].
Qed.

Definition truncated_extension : bytes := 0x90 :: repeat 0xff 14.

Lemma hostile_packet_safe_witness : parse truncated_extension = Some None.
Proof.
  assert (Hp : octets truncated_extension) by (repeat constructor; by vm_compute).
  destruct (hostile_packet_safe truncated_extension Hp) as (_ & (r & Hr & _) & _). rewrite Hr. revert Hr. vm_compute. congruence.
Defined.

(** What a sender puts on the wire: padding is some octets and their count. *)
Definition padding (n : nat) : bytes := repeat 0 n ++ [Z.of_nat (n + 1)].

Definition with_padding (h : bytes) : bytes := match h with [] => [] | b :: h => Z.lor b 0x20 :: h end.

Lemma length_write_header pt (m : bool) s t c : length (write_header pt m s t c) = kHeaderBytes.
Proof. done. Qed.

Lemma octets_write_header pt (m : bool) s t c : octets (write_header pt m s t c).
Proof.
  unfold write_header. rewrite !octets_app. split; [|split; [|split]]; auto with machino.
  repeat constructor; try lia; apply octet_u8.
Qed.

Lemma marker_octet pt (m : bool) (mk := if m then 0x80 else 0) :
  word 7 pt -> Z.land (u8 (Z.lor (Z.land pt 0x7f) mk)) 0x7f = pt
               /\ negb (Z.land (u8 (Z.lor (Z.land pt 0x7f) mk)) 0x80 =? 0) = m.
Proof.
  intros H. pose proof (below_all 128 (fun p => (Z.land (u8 (Z.lor (Z.land p 0x7f) mk)) 0x7f =? p)
     && Bool.eqb (negb (Z.land (u8 (Z.lor (Z.land p 0x7f) mk)) 0x80 =? 0)) m) ltac:(by subst mk; destruct m; vm_compute) pt H) as F.
  by rewrite andb_true_iff, Z.eqb_eq, eqb_true_iff in F.
Qed.

(** A header without sources and extension. *)
Lemma header_length_plain b p :
  b = 0x80 \/ b = 0xa0 -> (kHeaderBytes <= length (b :: p))%nat -> header_length (b :: p) = Some kHeaderBytes.
Proof.
  intros Hb Hn. unfold header_length. case_match eqn:En; [apply Nat.ltb_lt in En; lia|]. cbn [lookup list_lookup mbind option_bind].
  assert (E : forall x y : option nat, (if (kHeaderBytes <=? length (b :: p))%nat then x else y) = x)
    by (intros; by apply Nat.leb_le in Hn as ->).
  destruct Hb as [-> | ->]; cbn -[length Nat.leb kHeaderBytes]; rewrite Nat.add_0_r; by apply Nat.leb_le in Hn as ->.
Qed.

(** The fields at their places, for the octets [p] behind the first. *)
Definition fields_of (b1 : Z) (p : bytes) (len : nat) : Header :=
  {| pt := Z.land b1 0x7f; marker := negb (Z.land b1 0x80 =? 0); seqno := rd16 p 0; ts := rd32 p 2; ssrc := rd32 p 6;
     payload_at := 12; payload_len := len |}.

Lemma fields_written pt' (m : bool) seq' ts' ssrc' rest len :
  word 7 pt' -> word 16 seq' -> word 32 ts' -> word 32 ssrc' ->
  fields_of (u8 (Z.lor (Z.land pt' 0x7f) (if m then 0x80 else 0))) (be16 seq' ++ be32 ts' ++ be32 ssrc' ++ rest) len
  = {| pt := pt'; marker := m; seqno := seq'; ts := ts'; ssrc := ssrc'; payload_at := 12; payload_len := len |}.
Proof.
  intros Hpt Hs Ht Hc. unfold fields_of. destruct (marker_octet pt' m Hpt) as [-> ->].
  rewrite rd16_app_l, rd16_be16 by (cbn; done || lia). f_equal.
  - rewrite (rd32_app_r (be16 seq') _ 0), rd32_app_l by (cbn; lia). by apply rd32_be32.
  - rewrite (rd32_app_r (be16 seq') _ 4), (rd32_app_r (be32 ts') _ 0), rd32_app_l by (cbn; lia). by apply rd32_be32.
Qed.

Lemma octet_at_last a b p x : octet_at (a :: b :: p ++ [x]) (length (p ++ [x]) + 1) = x.
Proof.
  rewrite length_app. transitivity (octet_at ((a :: b :: p) ++ [x]) (length (a :: b :: p) + 0)).
  - f_equal. cbn [length]. lia.
  - by rewrite octet_at_app_r.
Qed.

Lemma parse_plain b b1 p pad :
  b = 0x80 /\ pad = 0%nat \/ b = 0xa0 /\ (0 < pad)%nat /\ octet_at (b :: b1 :: p) (length p + 1) = Z.of_nat pad ->
  (10 + pad <= length p)%nat ->
  parse (b :: b1 :: p) = Some (Some (fields_of b1 p (length p - 10 - pad))).
Proof.
  intros Hb Hn. unfold parse.
  rewrite header_length_plain; [|destruct Hb as [[-> _]|[-> _]]; auto|unfold kHeaderBytes; cbn [length]; lia].
  cbn [mbind option_bind]. rewrite !get16_in, !get32_in, !get_in by (cbn [length]; lia). cbn [mbind option_bind length].
  assert (F : forall b e, e = (2 + length p - pad - 12)%nat ->
    Some (Some {| pt := Z.land (octet_at (b :: b1 :: p) 1) 127; marker := negb (Z.land (octet_at (b :: b1 :: p) 1) 128 =? 0);
                  seqno := rd16 (b :: b1 :: p) 2; ts := rd32 (b :: b1 :: p) 4; ssrc := rd32 (b :: b1 :: p) 8;
                  payload_at := kHeaderBytes; payload_len := e |})
    = Some (Some (fields_of b1 p (length p - 10 - pad)))).
  { intros b' e ->. unfold fields_of. replace (2 + length p - pad - 12)%nat with (length p - 10 - pad)%nat by lia. done. }
  destruct Hb as [[-> ->]|(-> & Hp & E)].
  - change (Z.land (octet_at (128 :: b1 :: p) 0) 32) with 0. cbn [Z.eqb negb mbind option_bind Nat.eqb kHeaderBytes].
    apply F. unfold kHeaderBytes. lia.
  - change (Z.land (octet_at (160 :: b1 :: p) 0) 32) with 32. cbn [Z.eqb negb mbind option_bind Nat.eqb kHeaderBytes].
    replace (S (S (length p)) - 1)%nat with (length p + 1)%nat by lia. rewrite E, Nat2Z.id.
    case_match eqn:Eb; [|apply F; unfold kHeaderBytes; lia].
    apply orb_true_iff in Eb as [Eb|Eb]; [apply Nat.eqb_eq in Eb|apply Nat.ltb_lt in Eb]; unfold kHeaderBytes in *; lia.
Qed.

Lemma parse_written pt' (m : bool) seq' ts' ssrc' payload :
  word 7 pt' -> word 16 seq' -> word 32 ts' -> word 32 ssrc' ->
  parse (write_header pt' m seq' ts' ssrc' ++ payload)
  = Some (Some {| pt := pt'; marker := m; seqno := seq'; ts := ts'; ssrc := ssrc'; payload_at := 12;
                  payload_len := length payload |}).
Proof.
  intros Hpt Hs Ht Hc. unfold write_header. rewrite <- !app_assoc. cbn [app].
  rewrite (parse_plain _ _ _ 0) by (auto || (rewrite !length_app; cbn; lia)).
  rewrite fields_written by done. do 3 f_equal. rewrite !length_app. cbn. lia.
Qed.

(** A packet that was put together is taken apart again: the header written
    for a payload type, marker, sequence number, time stamp and source, followed
    by a payload (and padding, when the header says so), parses to exactly these,
    with the payload where it is and without the padding. *)
Theorem rtp_roundtrip (pt' : Z) (m : bool) (seq' ts' ssrc' : Z) (payload : bytes) (pad : nat) :
  word 7 pt' -> word 16 seq' -> word 32 ts' -> word 32 ssrc' -> octets payload -> (pad < 255)%nat ->
  let h := write_header pt' m seq' ts' ssrc' in
  let found := {| pt := pt'; marker := m; seqno := seq'; ts := ts'; ssrc := ssrc'; payload_at := 12;
                  payload_len := length payload |} in
  parse (h ++ payload) = Some (Some found)
  /\ parse (with_padding h ++ payload ++ padding pad) = Some (Some found)
  /\ take (payload_len found) (drop (payload_at found) (h ++ payload)) = payload.
Proof.
  intros Hpt Hs Ht Hc Hp Hpad h found. split; [by apply parse_written|split].
  - unfold h, found, write_header. cbn [app with_padding]. rewrite (parse_plain _ _ _ (pad + 1)).
    + rewrite <- !app_assoc, fields_written by done. do 3 f_equal. unfold padding. rewrite !length_app, repeat_length. cbn. lia.
    + right. split; [done|]. split; [lia|]. unfold padding. rewrite (app_assoc payload), app_assoc. apply octet_at_last.
    + unfold padding. rewrite !length_app, repeat_length. cbn. lia.
  - apply firstn_all.
Qed.

Lemma rtp_roundtrip_witness :
  parse (write_header 102 true 65535 0xfffffff0 0xcafe ++ [1; 2; 3])
  = Some (Some {| pt := 102; marker := true; seqno := 65535; ts := 0xfffffff0; ssrc := 0xcafe; payload_at := 12; payload_len := 3 |}).
Proof.
  assert (H : word 7 102 /\ word 16 65535 /\ word 32 0xfffffff0 /\ word 32 0xcafe /\ octets [1; 2; 3])
    by (unfold octets, word; repeat split; repeat constructor; by vm_compute).
  destruct H as (H1 & H2 & H3 & H4 & H5).
  apply (rtp_roundtrip 102 true 65535 0xfffffff0 0xcafe [1; 2; 3] 0 H1 H2 H3 H4 H5). lia.
Defined.

(** ** RTCP compounds *)

(** A report of a compound: format, type, and its body of 32-bit words. *)
Record Report := {
  r_fmt : Z;
  r_pt : Z;
  r_body : bytes;
}.

Definition report_ok (r : Report) : Prop :=
  word 5 (r_fmt r) /\ octet (r_pt r) /\ octets (r_body r) /\ exists k, length (r_body r) = (4 * k)%nat /\ Z.of_nat k < 65536.

Definition report_bytes (r : Report) : bytes :=
  [Z.lor 0x80 (r_fmt r); r_pt r] ++ be16 (Z.of_nat (length (r_body r) / 4)) ++ r_body r.

Definition is_pli (r : Report) : bool := (r_pt r =? 206) && (r_fmt r =? 1).
Definition is_rr (r : Report) : bool := r_pt r =? 201.

Lemma drop_at_app (a b : bytes) : drop (length a) (a ++ b) = b.
Proof. apply drop_app_length. Qed.

Lemma report_at pre r X i : (i < 2)%nat -> octet_at (pre ++ report_bytes r ++ X) (length pre + i) = octet_at (report_bytes r) i.
Proof. intros Hi. rewrite octet_at_app_r, octet_at_app_l; [done|]. unfold report_bytes. cbn. lia. Qed.

Lemma report_words pre r X k : length (r_body r) = (4 * k)%nat -> Z.of_nat k < 65536 ->
  rd16 (pre ++ report_bytes r ++ X) (length pre + 2) = Z.of_nat k.
Proof.
  intros Hl Hk. rewrite rd16_app_r, rd16_app_l by (unfold report_bytes; cbn; lia).
  unfold report_bytes. rewrite (rd16_app_r [_; _] _ 0), rd16_app_l by (cbn; lia). rewrite Hl.
  replace (4 * k / 4)%nat with k by (rewrite Nat.mul_comm, Nat.div_mul; lia). apply rd16_be16. split; lia.
Qed.

(** The first octet of a report: version 2 and the format. *)
Lemma report_octet f : word 5 f -> Z.shiftr (Z.lor 0x80 f) 6 = 2 /\ Z.land (Z.lor 0x80 f) 0x1f = f.
Proof.
  intros H. pose proof (below_all 32 (fun f => (Z.shiftr (Z.lor 0x80 f) 6 =? 2) && (Z.land (Z.lor 0x80 f) 0x1f =? f))
    ltac:(by vm_compute) f H) as F.
  by rewrite andb_true_iff, !Z.eqb_eq in F.
Qed.

Lemma rtcp_loop_reports rs : forall fuel pre info,
  Forall report_ok rs -> (length rs < fuel)%nat ->
  rtcp_loop fuel (pre ++ concat (map report_bytes rs)) (length pre) info
  = Some {| pli := pli info || existsb is_pli rs; receiver_report := receiver_report info || existsb is_rr rs |}.
Proof.
  induction rs as [|r rs IH]; intros fuel pre info Hok Hf; (destruct fuel as [|fuel]; [simpl in Hf; lia|]).
  - cbn [rtcp_loop]. rewrite length_app. cbn [concat map length].
    destruct (Nat.leb_spec (length pre + 4) (length pre + 0)); [lia|]. cbn. rewrite !orb_false_r. by destruct info.
  - inversion Hok as [|? ? (Hfm & Hpt & Hb & k & Hl & Hk) Hok']; subst. cbn [rtcp_loop map concat].
    set (X := concat (map report_bytes rs)) in *. set (q := pre ++ report_bytes r ++ X).
    assert (Hlen : length q = (length pre + (4 + 4 * k) + length X)%nat).
    { unfold q, report_bytes. rewrite !length_app, Hl. cbn [length]. change (length (be16 _)) with 2%nat. lia. }
    rewrite Hlen. destruct (Nat.leb_spec (length pre + 4) (length pre + (4 + 4 * k) + length X)); [|lia]. cbn [negb].
    rewrite get16_in, !get_in by lia. cbn [mbind option_bind].
    pose proof (report_at pre r X 0 ltac:(lia)) as E0. rewrite Nat.add_0_r in E0. unfold q.
    rewrite E0, (report_at pre r X 1), (report_words pre r X k) by (done || lia).
    change (octet_at (report_bytes r) 0) with (Z.lor 0x80 (r_fmt r)). change (octet_at (report_bytes r) 1) with (r_pt r).
    destruct (report_octet _ Hfm) as [-> ->]. cbn [Z.eqb Pos.eqb negb].
    replace (4 * Z.to_nat (Z.of_nat k + 1))%nat with (4 + 4 * k)%nat by lia.
    destruct (Nat.ltb_spec (length pre + (4 + 4 * k) + length X) (length pre + (4 + 4 * k))); [lia|].
    replace (length pre + (4 + 4 * k))%nat with (length (pre ++ report_bytes r)).
    2: { unfold report_bytes. rewrite !length_app, Hl. cbn [length]. change (length (be16 _)) with 2%nat. lia. }
    rewrite app_assoc. unfold X. rewrite IH by (done || (simpl in Hf; lia)). f_equal.
    cbn [existsb]. unfold is_pli, is_rr. destruct (r_pt r =? 201), (r_pt r =? 206), (r_fmt r =? 1); by destruct info as [[] []].
Qed.

(** What an RTCP compound asks for is understood: of any sequence of
    well-formed reports, [parse_rtcp] says exactly whether a picture loss
    indication and whether a receiver report is among them. *)
Theorem rtcp_feedback (rs : list Report) :
  Forall report_ok rs ->
  parse_rtcp (concat (map report_bytes rs)) = Some {| pli := existsb is_pli rs; receiver_report := existsb is_rr rs |}.
Proof.
  intros Hok. unfold parse_rtcp.
  pose proof (rtcp_loop_reports rs (S (length (concat (map report_bytes rs)))) [] {| pli := false; receiver_report := false |} Hok) as E.
  apply E. clear E.
  assert (G : (length rs <= length (concat (map report_bytes rs)))%nat); [|lia].
  clear. induction rs as [|r rs IH]; [done|]. cbn [map concat]. rewrite length_app. unfold report_bytes at 1. cbn [length app]. lia.
Qed.

Lemma rtcp_feedback_witness :
  parse_rtcp (concat (map report_bytes [ {| r_fmt := 1; r_pt := 201; r_body := repeat 7 28 |};
                                         {| r_fmt := 1; r_pt := 206; r_body := repeat 9 8 |} ]))
  = Some {| pli := true; receiver_report := true |}.
Proof.
  apply (rtcp_feedback [ {| r_fmt := 1; r_pt := 201; r_body := repeat 7 28 |}; {| r_fmt := 1; r_pt := 206; r_body := repeat 9 8 |} ]).
  constructor; [|constructor; [|constructor]]; (split; [by vm_compute|]); (split; [by vm_compute|]);
    (split; [repeat constructor; by vm_compute|]); [exists 7%nat|exists 2%nat]; by vm_compute.
Defined.

(** ** Frames on the RTSP connection *)

(** With the four octets of a header in the buffer. *)
Lemma take_interleaved_header channel len rest : Z.of_nat len < 65536 ->
  take_interleaved (0x24 :: channel :: u8 (Z.shiftr (Z.of_nat len) 8) :: u8 (Z.of_nat len) :: rest)
  = if (kMaxInterleaved <? len)%nat then TooLarge else
    if (length rest <? len)%nat then Partial else Frame channel (take len rest) (drop len rest).
Proof.
  intros Hl. unfold take_interleaved.
  change (0x24 :: channel :: u8 (Z.shiftr (Z.of_nat len) 8) :: u8 (Z.of_nat len) :: rest)
    with ([0x24; channel] ++ be16 (Z.of_nat len) ++ rest).
  rewrite (rd16_app_r [_; _] _ 0), rd16_app_l, rd16_be16, Nat2Z.id by (cbn; lia || (split; lia)).
  case_match; [done|]. change (length ([0x24; channel] ++ be16 (Z.of_nat len) ++ rest)) with (4 + length rest)%nat.
  destruct (Nat.ltb_spec (4 + length rest) (4 + len)), (Nat.ltb_spec (length rest) len); done || lia.
Qed.

Lemma take_interleaved_frame channel data rest : Z.of_nat (length data) < 65536 -> (length data <= kMaxInterleaved)%nat ->
  take_interleaved ([0x24; channel] ++ be16 (Z.of_nat (length data)) ++ data ++ rest) = Frame channel data rest.
Proof.
  intros Hd Hm. cbn [app be16]. rewrite take_interleaved_header by done.
  case_match eqn:El; [apply Nat.ltb_lt in El; lia|]. rewrite length_app.
  case_match eqn:Eb; [apply Nat.ltb_lt in Eb; lia|]. by rewrite take_app_length, drop_app_length.
Qed.

(** Interleaved frames come out as they went in, however the connection cut
    them: with less than a whole frame in the buffer nothing is taken, a whole
    frame is taken with its channel and leaves what follows it untouched, and a
    frame above the limit is refused from its header alone. *)
Theorem interleaved_stream (channel : Z) (data rest : bytes) (n : nat) :
  octet channel -> Z.of_nat (length data) < 65536 ->
  let f := interleave channel data in
  ((length data <= kMaxInterleaved)%nat ->
     take_interleaved (f ++ rest) = Frame channel data rest
     /\ ((0 < n < length f)%nat -> take_interleaved (take n f) = Partial))
  /\ ((kMaxInterleaved < length data)%nat -> (4 <= n)%nat -> take_interleaved (take n f) = TooLarge).
Proof.
  intros Hc Hd f. split; [intros Hm; split; [|intros Hn]|intros Hm Hn].
  - unfold f, interleave. rewrite <- !app_assoc. apply take_interleaved_frame; [lia|done].
  - unfold f, interleave in *. cbn [app length be16] in Hn |- *.
    do 4 (destruct n as [|n]; [lia || done|]). cbn [take]. rewrite take_interleaved_header by done.
    case_match eqn:El; [apply Nat.ltb_lt in El; lia|]. case_match eqn:Eb; [done|].
    apply Nat.ltb_ge in Eb. rewrite length_take in Eb. lia.
  - unfold f, interleave. cbn [app be16]. do 4 (destruct n as [|n]; [lia|]). cbn [take].
    rewrite take_interleaved_header by done. case_match eqn:El; [done|]. apply Nat.ltb_ge in El. lia.
Qed.

Lemma interleaved_stream_witness : take_interleaved (interleave 2 [1; 2; 3] ++ [0x24]) = Frame 2 [1; 2; 3] [0x24].
Proof.
  assert (H : octet 2 /\ Z.of_nat (length [1; 2; 3]) < 65536) by (by vm_compute).
  apply (interleaved_stream 2 [1; 2; 3] [0x24] 0 (proj1 H) (proj2 H)). apply Nat.leb_le. by vm_compute.
Defined.
