(* ===== verification/H264.v ===== *)
(** * H.264 access units

    [app/rtsp/h264_nal.cpp]: the NAL units of an Annex-B buffer, and the
    parameter sets among them. *)

From S2P Require Import Prelude Text Bytes.

(** [Nal::p] points at [nal_p], [Nal::len] is its length. *)
Record Nal := {
  nal_p : bytes;
  type : Z;
}.

Definition nal_at (d : bytes) (start len : nat) : Nal :=
  {| nal_p := take len (drop start d); type := Z.land (octet_at d start) 0x1f |}.

(** The length of the start code at [i], 0 if there is none. *)
Definition start_code (d : bytes) (i : nat) : nat :=
  if (octet_at d i =? 0) && (octet_at d (i + 1) =? 0)
     && ((octet_at d (i + 2) =? 1)
         || ((i + 4 <=? length d)%nat && (octet_at d (i + 2) =? 0) && (octet_at d (i + 3) =? 1)))
  then if octet_at d (i + 2) =? 1 then 3%nat else 4%nat
  else 0%nat.

(** [while (end > start && d[end-1]==0) --end]. *)
Fixpoint strip_zeros (d : bytes) (start e : nat) : nat :=
  match e with
  | O => O
  | S e' => if (start <? e)%nat && (octet_at d e' =? 0) then strip_zeros d start e' else e
  end.

(** [if (cnt < max && end > start) out[cnt++] = ...]. *)
Definition add_nal (d : bytes) (start e max : nat) (out : list Nal) : list Nal :=
  if (length out <? max)%nat && (start <? e)%nat then out ++ [nal_at d start (e - start)] else out.

(** [start] is [None] for [(size_t)-1]. *)
Fixpoint split_loop (fuel : nat) (d : bytes) (max i : nat) (start : option nat) (out : list Nal) : option nat * list Nal :=
  match fuel with
  | O => (start, out)
  | S fuel =>
      if (i + 3 <=? length d)%nat then
        let sc := start_code d i in
        if (sc =? 0)%nat then split_loop fuel d max (i + 1) start out
        else
          let out := match start with
                     | Some s => add_nal d s (strip_zeros d s i) max out
                     | None => out
                     end in
          split_loop fuel d max (i + sc) (Some (i + sc)%nat) out
      else (start, out)
  end.

(** What is behind the loop. *)
Definition split_end (d : bytes) (max : nat) (r : option nat * list Nal) : list Nal :=
  match r.1 with
  | Some s => if (s <? length d)%nat && (length r.2 <? max)%nat then r.2 ++ [nal_at d s (length d - s)] else r.2
  | None => r.2
  end.

Definition split (d : bytes) (max : nat) : list Nal := split_end d max (split_loop (length d) d max 0 None []).

(** The last SPS and the last PPS of the unit; the vectors as [assign] leaves
    them, and whether both were seen. *)
Definition extract_params (d : bytes) (sps pps : bytes) : bool * bytes * bytes :=
  let step (st : bool * bool * bytes * bytes) (n : Nal) :=
    let '(s, p, sps, pps) := st in
    let '(s, sps) := if type n =? 7 then (true, nal_p n) else (s, sps) in
    let '(p, pps) := if type n =? 8 then (true, nal_p n) else (p, pps) in
    (s, p, sps, pps) in
  let '(s, p, sps, pps) := fold_left step (split d 32) (false, false, sps, pps) in
  (s && p, sps, pps).

(** ** What an encoder writes *)

(** A NAL unit as the standard requires it: it does not end in a zero octet and
    emulation prevention keeps [0 0 0] and [0 0 1] out of it. *)
Definition plain_nal (n : bytes) : bool :=
  (0 <? length n)%nat && negb (octet_at n (length n - 1) =? 0)
  && forallb (fun i => negb ((octet_at n i =? 0) && (octet_at n (i + 1) =? 0) && (octet_at n (i + 2) <=? 1))) (seq 0 (length n - 2)).

(** Each unit behind its start code of at least two zeros and a one. *)
Definition annexb (units : list (nat * bytes)) : bytes :=
  concat (map (fun u => repeat 0 (2 + u.1) ++ 1 :: u.2) units).

Definition nal_of (n : bytes) : Nal := {| nal_p := n; type := Z.land (octet_at n 0) 0x1f |}.

(** ** Scanning *)

Lemma plain_nonempty n : plain_nal n = true -> (0 < length n)%nat.
Proof. unfold plain_nal. rewrite !andb_true_iff, Nat.ltb_lt. tauto. Qed.

Lemma plain_last n : plain_nal n = true -> octet_at n (length n - 1) <> 0.
Proof. unfold plain_nal. rewrite !andb_true_iff, negb_true_iff, Z.eqb_neq. tauto. Qed.

Lemma plain_inside n i : plain_nal n = true -> (i + 2 < length n)%nat ->
  octet_at n i = 0 -> octet_at n (i + 1) = 0 -> 1 < octet_at n (i + 2).
Proof.
  unfold plain_nal. rewrite !andb_true_iff, forallb_forall. intros [_ H] Hi E0 E1.
  specialize (H i ltac:(apply in_seq; lia)). rewrite E0, E1 in H. cbn in H. rewrite negb_true_iff, Z.leb_gt in H. done.
Qed.

(** No start code begins inside a unit, whatever comes before it and behind. *)
Lemma no_code_inside pre n post i : plain_nal n = true -> (i < length n)%nat ->
  start_code (pre ++ n ++ post) (length pre + i) = 0%nat.
Proof.
  intros Hn Hi. set (d := pre ++ n ++ post).
  assert (A : forall j, (j < length n)%nat -> octet_at d (length pre + j) = octet_at n j).
  { intros j Hj. unfold d. by rewrite octet_at_app_r, octet_at_app_l. }
  unfold start_code. destruct (octet_at d (length pre + i) =? 0) eqn:E0; [|done]. apply Z.eqb_eq in E0.
  destruct (octet_at d (length pre + i + 1) =? 0) eqn:E1; [|done]. apply Z.eqb_eq in E1. rewrite <- Nat.add_assoc in E1.
  assert (L : (i + 1 < length n)%nat).
  { destruct (Nat.eq_dec i (length n - 1)) as [->|]; [|lia]. rewrite A in E0 by lia. by apply plain_last in Hn. }
  assert (L2 : (i + 2 < length n)%nat).
  { destruct (Nat.eq_dec (i + 1) (length n - 1)) as [E|]; [|lia]. rewrite A, E in E1 by lia. by apply plain_last in Hn. }
  rewrite A in E0, E1 by lia. pose proof (plain_inside n i Hn L2 E0 E1) as H2.
  rewrite <- Nat.add_assoc, A by lia. set (x := octet_at n (i + 2)) in *.
  destruct (Z.eqb_spec x 1), (Z.eqb_spec x 0); [lia..|]. by rewrite andb_false_r.
Qed.

Lemma split_loop_skip k : forall fuel d max i start out,
  (forall j, (j < k)%nat -> start_code d (i + j) = 0%nat) ->
  ((0 < k)%nat -> (i + k + 2 <= length d)%nat) -> (k <= fuel)%nat ->
  split_loop fuel d max i start out = split_loop (fuel - k) d max (i + k) start out.
Proof.
  induction k as [|k IH]; intros fuel d max i start out Hs Hd Hf.
  - f_equal; lia.
  - destruct fuel as [|fuel]; [lia|]. cbn [split_loop Nat.sub]. destruct (Nat.leb_spec (i + 3) (length d)); [|lia].
    pose proof (Hs 0%nat ltac:(lia)) as E. rewrite Nat.add_0_r in E. rewrite E. cbn [Nat.eqb].
    rewrite IH; [f_equal; lia| |lia..]. intros j Hj.
    replace (i + 1 + j)%nat with (i + S j)%nat by lia. apply Hs. lia.
Qed.

(** Past a start code: the unit before it is added, the next begins behind it. *)
Lemma octet_at_zeros pre k post j : (j < k)%nat -> octet_at (pre ++ repeat 0 k ++ post) (length pre + j) = 0.
Proof. intros Hj. rewrite octet_at_app_r, octet_at_app_l by (rewrite repeat_length; lia). unfold octet_at. apply nth_repeat. Qed.

Lemma octet_at_one pre k post : octet_at (pre ++ repeat 0 k ++ 1 :: post) (length pre + k) = 1.
Proof.
  rewrite octet_at_app_r. pose proof (octet_at_app_r (repeat 0 k) (1 :: post) 0) as E.
  by rewrite repeat_length, Nat.add_0_r in E.
Qed.

Lemma code_found pre z post (d := pre ++ repeat 0 (2 + z) ++ 1 :: post) :
  start_code d (length pre + pred z) = (if (z =? 0)%nat then 3 else 4)%nat
  /\ (forall j, (j < pred z)%nat -> start_code d (length pre + j) = 0%nat).
Proof.
  assert (Z0 : forall j, (j < 2 + z)%nat -> octet_at d (length pre + j) = 0) by (intros; by apply octet_at_zeros).
  assert (Z1 : octet_at d (length pre + (2 + z)) = 1) by apply octet_at_one.
  assert (Hd : (length pre + (2 + z) < length d)%nat) by (unfold d; rewrite !length_app, repeat_length; cbn; lia).
  split.
  - unfold start_code. rewrite <- !Nat.add_assoc, (Z0 (pred z)), (Z0 (pred z + 1)%nat) by lia. cbn [Z.eqb andb].
    destruct z as [|z]; cbn [pred Nat.add Nat.eqb] in *; [by rewrite Z1|].
    rewrite (Z0 (z + 2)%nat) by lia. replace (z + 3)%nat with (S (S (S z))) by lia. rewrite Z1. cbn.
    by destruct (Nat.leb_spec (length pre + (z + 4)) (length d)); [|lia].
  - intros j Hj. unfold start_code. rewrite <- !Nat.add_assoc, (Z0 j), (Z0 (j + 1)%nat), (Z0 (j + 2)%nat), (Z0 (j + 3)%nat) by lia.
    cbn. by rewrite andb_false_r.
Qed.

Lemma pass_code fuel pre z post max start out (d := pre ++ repeat 0 (2 + z) ++ 1 :: post) :
  (length d <= length pre + fuel)%nat ->
  exists fuel', (length d <= length pre + z + 3 + fuel')%nat
  /\ split_loop fuel d max (length pre) start out
     = split_loop fuel' d max (length pre + z + 3) (Some (length pre + z + 3)%nat)
         match start with
         | Some s => add_nal d s (strip_zeros d s (length pre + pred z)) max out
         | None => out
         end.
Proof.
  intros Hf. destruct (code_found pre z post) as [Hc Hn]. fold d in Hc, Hn.
  assert (Hd : (length pre + (2 + z) < length d)%nat) by (unfold d; rewrite !length_app, repeat_length; cbn; lia).
  rewrite (split_loop_skip (pred z)) by (done || lia).
  destruct (fuel - pred z)%nat as [|fuel'] eqn:Ef; [lia|]. exists fuel'. split; [lia|]. cbn [split_loop].
  destruct (Nat.leb_spec (length pre + pred z + 3) (length d)); [|lia]. rewrite Hc.
  destruct z as [|z]; cbn [Nat.eqb pred]; f_equal; (lia || (f_equal; lia)).
Qed.

Lemma strip_back d s e k : (s < e)%nat -> octet_at d (e - 1) <> 0 -> (forall j, (j < k)%nat -> octet_at d (e + j) = 0) ->
  strip_zeros d s (e + k) = e.
Proof.
  intros Hs Hl. induction k as [|k IH]; intros Hz.
  - rewrite Nat.add_0_r. destruct e as [|e]; [lia|]. cbn [strip_zeros]. rewrite Nat.sub_succ, Nat.sub_0_r in Hl.
    rewrite (proj2 (Z.eqb_neq _ _)) by done. by rewrite andb_false_r.
  - rewrite Nat.add_succ_r. cbn [strip_zeros]. rewrite Hz by lia. destruct (Nat.ltb_spec s (S (e + k))); [|lia].
    apply IH. intros. apply Hz. lia.
Qed.

(** Units are kept up to the capacity of the array. *)
Definition push (max : nat) (out : list Nal) (n : Nal) : list Nal := if (length out <? max)%nat then out ++ [n] else out.

Lemma push_all max l : forall out, (length out <= max)%nat -> fold_left (push max) l out = take max (out ++ l).
Proof.
  induction l as [|n l IH]; intros out Ho; cbn [fold_left]; [by rewrite app_nil_r, take_ge|].
  unfold push at 2. case_match eqn:E.
  - apply Nat.ltb_lt in E. rewrite IH, <- app_assoc by (rewrite length_app; cbn; lia). done.
  - apply Nat.ltb_ge in E. rewrite IH by done. rewrite !take_app_le by lia. done.
Qed.

Lemma nal_at_app pre n post : (0 < length n)%nat -> nal_at (pre ++ n ++ post) (length pre) (length n) = nal_of n.
Proof.
  intros Hn. unfold nal_at, nal_of. f_equal; [by rewrite drop_app_length, take_app_length|].
  replace (length pre) with (length pre + 0)%nat by lia. by rewrite octet_at_app_r, octet_at_app_l.
Qed.

Lemma split_units units : forall fuel pre n out max d,
  d = pre ++ n ++ annexb units -> plain_nal n = true -> forallb plain_nal (map snd units) = true -> (length d <= length pre + fuel)%nat ->
  split_end d max (split_loop fuel d max (length pre) (Some (length pre)) out)
  = fold_left (push max) (map nal_of (n :: map snd units)) out.
Proof.
  induction units as [|[z n2] units IH]; intros fuel pre n out max d Hd0 Hn Hu Hf.
  - pose proof (plain_nonempty n Hn) as Hn0.
    assert (Hd : length d = (length pre + length n)%nat) by (rewrite Hd0; rewrite !length_app; cbn; lia).
    rewrite (split_loop_skip (length n - 2)); [|intros; rewrite Hd0; apply no_code_inside; [done|lia]|lia|lia].
    assert (E : split_loop (fuel - (length n - 2)) d max (length pre + (length n - 2)) (Some (length pre)) out
                = (Some (length pre), out)).
    { destruct (fuel - (length n - 2))%nat; [done|]. cbn [split_loop].
      by destruct (Nat.leb_spec (length pre + (length n - 2) + 3) (length d)); [lia|]. }
    rewrite E. unfold split_end. cbn [fst snd map fold_left]. rewrite Hd. replace (length pre + length n - length pre)%nat with (length n) by lia.
    rewrite Hd0, nal_at_app by done. destruct (Nat.ltb_spec (length pre) (length pre + length n)); [done|lia].
  - cbn [map snd forallb] in Hu. apply andb_true_iff in Hu as [Hn2 Hu]. pose proof (plain_nonempty n Hn) as Hn0.
    assert (Ed : d = (pre ++ n) ++ repeat 0 (2 + z) ++ 1 :: (n2 ++ annexb units)).
    { rewrite Hd0. unfold annexb. cbn [map concat snd fst]. by rewrite <- !app_assoc. }
    assert (Hd : (length pre + length n + z + 3 <= length d)%nat).
    { rewrite Ed, !length_app, repeat_length. cbn [length]. lia. }
    rewrite (split_loop_skip (length n)); [|intros; rewrite Hd0; apply no_code_inside; [done|lia]|lia|lia].
    rewrite <- length_app. 
    destruct (pass_code (fuel - length n) (pre ++ n) z (n2 ++ annexb units) max (Some (length pre)) out) as (fuel' & Hf' & E).
    { rewrite <- Ed, length_app. lia. }
    rewrite <- Ed in Hf', E. rewrite E. clear E.
    rewrite length_app, strip_back; [|lia| |].
    2: { rewrite <- Nat.add_sub_assoc by lia. rewrite Hd0, octet_at_app_r, octet_at_app_l by lia. by apply plain_last. }
    2: { intros j Hj. rewrite Ed, <- length_app. apply octet_at_zeros. lia. }
    rewrite <- length_app in *.
    assert (Ep : (length (pre ++ n) + z + 3)%nat = length (pre ++ n ++ repeat 0 (2 + z) ++ [1])).
    { rewrite !length_app, repeat_length. cbn. lia. }
    rewrite Ep in Hf' |- *.
    rewrite (IH fuel' _ n2); [|by rewrite Ed, <- !app_assoc|done..]. cbn [map fold_left]. f_equal.
    f_equal. unfold add_nal, push. rewrite length_app. replace (length pre + length n - length pre)%nat with (length n) by lia.
    destruct (Nat.ltb_spec (length pre) (length pre + length n)); [|lia]. rewrite andb_true_r, Hd0. by rewrite nal_at_app.
Qed.

Lemma split_annexb units max : forallb plain_nal (map snd units) = true -> split (annexb units) max = take max (map nal_of (map snd units)).
Proof.
  intros Hu. unfold split. destruct units as [|[z n] units]; [by destruct max|].
  cbn [map snd forallb] in Hu. apply andb_true_iff in Hu as [Hn Hu].
  set (d := annexb ((z, n) :: units)).
  assert (Ed : d = [] ++ repeat 0 (2 + z) ++ 1 :: (n ++ annexb units)).
  { unfold d, annexb. cbn [map concat snd fst]. by rewrite <- !app_assoc. }
  destruct (pass_code (length d) [] z (n ++ annexb units) max None []) as (fuel' & Hf' & E); [rewrite <- Ed; cbn; lia|].
  rewrite <- Ed in E, Hf'. change (length []) with 0%nat in E. rewrite E.
  change (length [] + z + 3)%nat with (0 + z + 3)%nat in Hf'.
  assert (Ep : (0 + z + 3)%nat = length (repeat 0 (2 + z) ++ [1])) by (rewrite length_app, repeat_length; cbn; lia).
  rewrite Ep in Hf' |- *. rewrite (split_units units fuel' _ n); [|by rewrite Ed, <- app_assoc|done..].
  apply push_all. cbn. lia.
Qed.

(** An access unit is cut where its start codes are: any sequence of NAL
    units that respects emulation prevention, each behind a start code of two or
    more zeros and a one, is given back unit by unit, in order and without the
    zeros between them, up to the capacity of the array. *)
Theorem split_roundtrip (units : list (nat * bytes)) (max : nat) :
  forallb plain_nal (map snd units) = true -> split (annexb units) max = take max (map nal_of (map snd units)).
Proof. apply split_annexb. Qed.

Definition sample_unit : list (nat * bytes) := [(1%nat, [0x67; 0x42; 0; 0; 3; 1]); (0%nat, [0x68; 0xce]); (3%nat, [0x65; 0x88])].

Lemma split_roundtrip_witness :
  map nal_p (split (annexb sample_unit) 64) = [[0x67; 0x42; 0; 0; 3; 1]; [0x68; 0xce]; [0x65; 0x88]].
Proof.
  assert (H : forallb plain_nal (map snd sample_unit) = true) by by vm_compute.
  rewrite (split_roundtrip sample_unit 64 H). by vm_compute.
Defined.
