(* ===== verification/Sps.v ===== *)
(** * The VUI of a sequence parameter set

    The second half of [app/rtsp/h264_nal.cpp]: a bit reader and a bit writer,
    and [sps_with_bitstream_restriction], which walks an SPS to one flag of its
    VUI and writes it anew from there. *)

From S2P Require Import Prelude Bytes.

(** [BitReader]. *)
Record BitReader := { rb : bytes; pos : nat; bad : bool }.
#[export] Instance eta_BitReader : Settable BitReader := fun r => Build_BitReader (rb r) (pos r) (bad r).

Definition bit_at (b : bytes) (i : nat) : Z := Z.land (Z.shiftr (octet_at b (i / 8)) (7 - Z.of_nat (i mod 8))) 1.

Definition bit : ST BitReader Z :=
  r ← gets id;
  if (length (rb r) * 8 <=? pos r)%nat then modify (fun r => r <| bad := true |>) ;; mret 0
  else modify (fun r => r <| pos ::= S |>) ;; mret (bit_at (rb r) (pos r)).

Fixpoint u_loop (n : nat) (v : Z) : ST BitReader Z :=
  match n with
  | O => mret v
  | S n => b ← bit; u_loop n (Z.lor (u32 (Z.shiftl v 1)) b)
  end.
Definition u (n : nat) : ST BitReader Z := u_loop n 0.

(** The leading zeros of [ue]; at most 33 rounds, the last of which ends it. *)
Fixpoint ue_zeros (fuel : nat) (z : nat) : ST BitReader nat :=
  match fuel with
  | O => mret z
  | S fuel =>
      b ← bit;
      broken ← gets bad;
      if (b =? 0) && (z <? 32)%nat && negb broken then ue_zeros fuel (S z) else mret z
  end.

(** [for (i = 0; i < z; ++i) v += bit() << (z - 1 - i)]; [n] rounds are left. *)
Fixpoint ue_tail (n : nat) (v : Z) : ST BitReader Z :=
  match n with
  | O => mret v
  | S n => b ← bit; ue_tail n (u32 (v + u32 (Z.shiftl b (Z.of_nat n))))
  end.

Definition ue : ST BitReader Z :=
  z ← ue_zeros 33 0;
  if (32 <=? z)%nat then modify (fun r => r <| bad := true |>) ;; mret 0
  else ue_tail z (u32 (u32 (Z.shiftl 1 (Z.of_nat z)) - 1)).

Definition se : ST BitReader Z :=
  k ← ue;
  mret (if Z.land k 1 =? 0 then i32 (- i32 (k / 2)) else i32 (u32 (k + 1) / 2)).

(** A value that is read past. *)
Definition past {A} (m : ST BitReader A) : ST BitReader unit := m ;; skip.
Definition flag : ST BitReader bool := v ← u 1; mret (negb (v =? 0)).

Fixpoint times (n : nat) (m : ST BitReader unit) : ST BitReader unit :=
  match n with
  | O => skip
  | S n => m ;; times n m
  end.

(** [skip_hrd]. *)
Definition skip_hrd : ST BitReader unit :=
  cnt ← ue;
  past (u 4) ;; past (u 4) ;;
  if 31 <? cnt then modify (fun r => r <| bad := true |>) else
  times (Z.to_nat (cnt + 1)) (past ue ;; past ue ;; past (u 1)) ;;
  past (u 5) ;; past (u 5) ;; past (u 5) ;; past (u 5).

(** The profiles with a chroma format. *)
Definition high_profile (p : Z) : bool :=
  existsb (Z.eqb p) [100; 110; 122; 244; 44; 83; 86; 118; 128; 138; 139; 134; 135].

(** The inner loop over a scaling list, [n] coefficients left.  (The [int] sum
    is undefined in C when it leaves 32 bits; it wraps here.) *)
Fixpoint scaling_loop (n : nat) (lst next : Z) : ST BitReader unit :=
  match n with
  | O => skip
  | S n =>
      next ← (if next =? 0 then mret next else d ← se; mret (Z.rem (i32 (i32 (lst + d) + 256)) 256));
      scaling_loop n (if next =? 0 then lst else next) next
  end.

Fixpoint scaling_lists (n : nat) (i : nat) : ST BitReader unit :=
  match n with
  | O => skip
  | S n =>
      broken ← gets bad;
      if (broken : bool) then skip else
      present ← flag;
      when present (scaling_loop (if (i <? 6)%nat then 16 else 64) 8 8) ;;
      scaling_lists n (S i)
  end.

Definition chroma_part : ST BitReader unit :=
  chroma ← ue;
  when (chroma =? 3) (past (u 1)) ;;
  past ue ;; past ue ;; past (u 1) ;;
  lists ← flag;
  when lists (scaling_lists (if chroma =? 3 then 12 else 8) 0).

(** Picture order count; [false] for the early return. *)
Definition poc_part : ST BitReader bool :=
  poc ← ue;
  if poc =? 0 then past ue ;; mret true
  else if poc =? 1 then
    past (u 1) ;; past se ;; past se ;;
    n ← ue;
    if 255 <? n then mret false else times (Z.to_nat n) (past se) ;; mret true
  else mret true.

Definition size_part : ST BitReader unit :=
  past ue ;; past (u 1) ;; past ue ;; past ue ;;
  frames ← flag;
  when (negb frames) (past (u 1)) ;;
  past (u 1) ;;
  crop ← flag;
  when crop (past ue ;; past ue ;; past ue ;; past ue).

Definition vui_part : ST BitReader unit :=
  aspect ← flag;
  when aspect (ar ← u 8; when (ar =? 255) (past (u 16) ;; past (u 16))) ;;
  overscan ← flag;
  when overscan (past (u 1)) ;;
  video ← flag;
  when video (past (u 3) ;; past (u 1) ;; colour ← flag; when colour (past (u 8) ;; past (u 8) ;; past (u 8))) ;;
  chroma ← flag;
  when chroma (past ue ;; past ue) ;;
  timing ← flag;
  when timing (past (u 32) ;; past (u 32) ;; past (u 1)) ;;
  nal_hrd ← flag;
  when nal_hrd skip_hrd ;;
  vcl_hrd ← flag;
  when vcl_hrd skip_hrd ;;
  when (nal_hrd || vcl_hrd) (past (u 1)) ;;
  past (u 1).

(** From the first bit to [bitstream_restriction_flag]: its position, or nothing
    where the code returns early. *)
Definition after_header : ST BitReader (option nat) :=
  profile ← u 8;
  past (u 8) ;; past (u 8) ;; past ue ;;
  when (high_profile profile) chroma_part ;;
  past ue ;;
  go ← poc_part;
  if negb go then mret None else
  size_part ;;
  vui ← flag;
  if negb vui then mret None else
  vui_part ;;
  at_ ← gets pos;
  mret (Some at_).

Definition walk : ST BitReader (option nat) := past (u 8) ;; after_header.

(** [BitWriter]. *)
Record BitWriter := { wb : bytes; fill : Z }.

Definition or_last (b : bytes) (v : Z) : bytes :=
  match last b with
  | Some x => take (length b - 1) b ++ [Z.lor x (u8 v)]
  | None => b
  end.

Definition w_bit (v : Z) (w : BitWriter) : BitWriter :=
  let b := if fill w =? 0 then wb w ++ [0] else wb w in
  let b := if v =? 0 then b else or_last b (Z.shiftl 1 (7 - fill w)) in
  {| wb := b; fill := Z.land (fill w + 1) 7 |}.

(** [u(v, n)]: bits [n - 1] down to 0. *)
Fixpoint w_u (v : Z) (n : nat) (w : BitWriter) : BitWriter :=
  match n with
  | O => w
  | S n => w_u v n (w_bit (Z.land (Z.shiftr v (Z.of_nat n)) 1) w)
  end.

(** [for (t = x; t > 1; t >>= 1) ++n]; 32 bits at most. *)
Fixpoint log_loop (fuel : nat) (t : Z) (n : nat) : nat :=
  match fuel with
  | O => n
  | S fuel => if 1 <? t then log_loop fuel (Z.shiftr t 1) (S n) else n
  end.

Fixpoint w_zeros (n : nat) (w : BitWriter) : BitWriter :=
  match n with
  | O => w
  | S n => w_zeros n (w_bit 0 w)
  end.

Definition w_ue (v : Z) (w : BitWriter) : BitWriter :=
  let x := u32 (v + 1) in
  let n := log_loop 32 x 0 in
  w_u x (S n) (w_zeros n w).

(** [while (w.fill != 0) w.bit(0)]: at most seven. *)
Fixpoint align (fuel : nat) (w : BitWriter) : BitWriter :=
  match fuel with
  | O => w
  | S fuel => if fill w =? 0 then w else align fuel (w_bit 0 w)
  end.

(** Emulation prevention taken out; [seen] is what is before, backwards. *)
Fixpoint strip_loop (seen rest : bytes) : bytes :=
  match rest with
  | [] => []
  | x :: rest =>
      let cut := match seen with a :: b :: _ => (x =? 3) && (a =? 0) && (b =? 0) | _ => false end in
      if cut then strip_loop (x :: seen) rest else x :: strip_loop (x :: seen) rest
  end.
Definition strip (sps : bytes) : bytes := strip_loop [] sps.

(** And put in again, after the header byte. *)
Fixpoint protect_loop (zeros : Z) (l : bytes) : bytes :=
  match l with
  | [] => []
  | x :: l =>
      let z := if (zeros =? 2) && (x <=? 3) then 0 else zeros in
      (if (zeros =? 2) && (x <=? 3) then [3] else []) ++ x :: protect_loop (if x =? 0 then z + 1 else 0) l
  end.
Definition emulate (b : bytes) : bytes := octet_at b 0 :: protect_loop 0 (drop 1 b).

(** The copied bits. *)
Fixpoint copy_bits (b : bytes) (i n : nat) (w : BitWriter) : BitWriter :=
  match n with
  | O => w
  | S n => copy_bits b (S i) n (w_bit (bit_at b i) w)
  end.

Definition rebuild (rbsp : bytes) (flag_pos : nat) (num_reorder_frames max_dec_frame_buffering : Z) : bytes :=
  let w := copy_bits rbsp 0 flag_pos {| wb := []; fill := 0 |} in
  let w := w_bit 1 (w_bit 1 w) in
  let w := w_ue 16 (w_ue 16 (w_ue 0 (w_ue 0 w))) in
  let w := w_ue max_dec_frame_buffering (w_ue num_reorder_frames w) in
  wb (align 8 (w_bit 1 w)).

Definition sps_with_bitstream_restriction (sps : bytes) (num_reorder_frames max_dec_frame_buffering : Z) : bytes :=
  if (length sps <? 5)%nat || negb (Z.land (octet_at sps 0) 0x1f =? 7) then sps else
  let rbsp := strip sps in
  let '(r, s) := walk {| rb := rbsp; pos := 0; bad := false |} in
  match r with
  | None => sps
  | Some flag_pos =>
      let '(f, s) := bit s in
      if bad s || (f =? 1) then sps
      else emulate (rebuild rbsp flag_pos num_reorder_frames max_dec_frame_buffering)
  end.

(** ** Reading depends on what is read only *)

Definition same_to (n : nat) (b b' : bytes) : Prop := forall i, (i < n)%nat -> (i < length b' * 8)%nat /\ bit_at b' i = bit_at b i.

(** A reader keeps its buffer and a failure; if it does not fail, its result
    depends on the bits up to its position only. *)
Record local_at {A} (m : ST BitReader A) (r : BitReader) : Prop := {
  l_buffer : rb (exec m r) = rb r;
  l_bad : bad r = true -> bad (exec m r) = true;
  l_pos : bad (exec m r) = false -> (pos r <= pos (exec m r))%nat;
  l_same : bad (exec m r) = false -> forall b', same_to (pos (exec m r)) (rb r) b' ->
    m (r <| rb := b' |>) = (result m r, exec m r <| rb := b' |>);
}.
Definition local {A} (m : ST BitReader A) : Prop := forall r, local_at m r.

Lemma local_ret {A} (a : A) : local (mret a).
Proof. intros r. by split. Qed.

Lemma local_skip : local skip.
Proof. intros r. by split. Qed.

Lemma local_bind {A B} (m : ST BitReader A) (k : A -> ST BitReader B) : local m -> (forall a, local (k a)) -> local (m ≫= k).
Proof.
  intros Hm Hk r. destruct (Hm r) as [M1 M2 M3 M4]. unfold exec, result in *.
  pose proof (Hk (m r).1 (m r).2) as [K1 K2 K3 K4]. unfold exec, result in *.
  assert (E : (m ≫= k) r = k (m r).1 (m r).2) by (unfold mbind, st_bind; by destruct (m r)).
  assert (Hb : bad (k (m r).1 (m r).2).2 = false -> bad (m r).2 = false).
  { intros Hf. destruct (bad (m r).2); [|done]. by rewrite K2 in Hf. }
  split; unfold exec, result; rewrite E.
  - congruence.
  - auto.
  - intros Hf. specialize (M3 (Hb Hf)). specialize (K3 Hf). lia.
  - intros Hf b' Hs. specialize (M3 (Hb Hf)). specialize (K3 Hf).
    unfold mbind, st_bind. rewrite M4; [|by apply Hb|intros i Hi; apply Hs; lia]. apply K4; [done|]. by rewrite M1.
Qed.

Lemma local_bad : local (gets bad).
Proof. intros r. by split. Qed.
Lemma local_pos : local (gets pos).
Proof. intros r. by split. Qed.

Lemma local_fail : local (modify (fun r : BitReader => r <| bad := true |>)).
Proof. intros r. by split. Qed.

Lemma local_if {A} (c : bool) (m n : ST BitReader A) : local m -> local n -> local (if c then m else n).
Proof. by destruct c. Qed.

Lemma local_when c m : local m -> local (when c m).
Proof. intros Hm. apply local_if; [done|apply local_skip]. Qed.

Lemma bit_step r : bit r = if (length (rb r) * 8 <=? pos r)%nat then (0, r <| bad := true |>) else (bit_at (rb r) (pos r), r <| pos ::= S |>).
Proof. unfold bit, mbind, st_bind, gets, modify, mret, st_ret. cbn. by destruct (_ <=? _)%nat. Qed.

Lemma local_bit : local bit.
Proof.
  intros r. split; unfold exec, result; rewrite !bit_step; destruct (Nat.leb_spec (length (rb r) * 8) (pos r)); cbn; try done; [lia|].
  intros Hb b' Hs. destruct (Hs (pos r)) as [H1 H2]; [cbn; lia|]. rewrite bit_step. cbn.
  destruct (Nat.leb_spec (length b' * 8) (pos r)); [lia|]. by rewrite H2.
Qed.

Create HintDb reader.
#[export] Hint Resolve local_ret local_skip local_bind local_bad local_pos local_fail local_if local_when local_bit : reader.
#[export] Hint Extern 1 (local (let '_ := _ in _)) => cbv zeta : reader.
Ltac locals := repeat first [progress intros | solve [auto with reader] | apply local_bind | apply local_if | apply local_when].

Lemma local_u_loop n : forall v, local (u_loop n v).
Proof. induction n; cbn [u_loop]; locals. Qed.
Lemma local_u n : local (u n).
Proof. apply local_u_loop. Qed.
#[export] Hint Resolve local_u : reader.

Lemma local_ue_zeros fuel : forall z, local (ue_zeros fuel z).
Proof. induction fuel; cbn [ue_zeros]; locals. Qed.
Lemma local_ue_tail n : forall v, local (ue_tail n v).
Proof. induction n; cbn [ue_tail]; locals. Qed.
#[export] Hint Resolve local_ue_zeros local_ue_tail : reader.
Lemma local_ue : local ue.
Proof. unfold ue. locals. Qed.
#[export] Hint Resolve local_ue : reader.
Lemma local_se : local se.
Proof. unfold se. locals. Qed.
Lemma local_past {A} (m : ST BitReader A) : local m -> local (past m).
Proof. unfold past. locals. Qed.
Lemma local_flag : local flag.
Proof. unfold flag. locals. Qed.
#[export] Hint Resolve local_se local_past local_flag : reader.
Lemma local_times n m : local m -> local (times n m).
Proof. induction n; cbn [times]; locals. Qed.
#[export] Hint Resolve local_times : reader.
Lemma local_skip_hrd : local skip_hrd.
Proof. unfold skip_hrd. locals. Qed.
Lemma local_scaling_loop n : forall a b, local (scaling_loop n a b).
Proof. induction n; cbn [scaling_loop]; locals. Qed.
#[export] Hint Resolve local_skip_hrd local_scaling_loop : reader.
Lemma local_scaling_lists n : forall i, local (scaling_lists n i).
Proof. induction n; cbn [scaling_lists]; locals. Qed.
#[export] Hint Resolve local_scaling_lists : reader.
Lemma local_chroma : local chroma_part.
Proof. unfold chroma_part. locals. Qed.
Lemma local_poc : local poc_part.
Proof. unfold poc_part. locals. Qed.
Lemma local_size : local size_part.
Proof. unfold size_part. locals. Qed.
Lemma local_vui : local vui_part.
Proof. unfold vui_part. locals. Qed.
#[export] Hint Resolve local_chroma local_poc local_size local_vui : reader.
Lemma local_after_header : local after_header.
Proof. unfold after_header. locals. Qed.
#[export] Hint Resolve local_after_header : reader.
Lemma local_walk : local walk.
Proof. unfold walk. locals. Qed.

(** The position is where the reader stands. *)
Lemma wp_any {A} (m : ST BitReader A) s : wp m (fun _ _ => True) s.
Proof. done. Qed.

Lemma walk_pos r n s : walk r = (Some n, s) -> n = pos s.
Proof.
  assert (W : wp walk (fun o s => match o with Some n => n = pos s | None => True end) r).
  { unfold walk, after_header. repeat first [apply wp_bind, wp_gets|apply wp_bind; eapply wp_mono; [apply wp_any|]; intros ? ? _
                                            |match goal with |- wp (if ?b then _ else _) _ _ => destruct b end].
    all: by apply wp_ret. }
  intros E. unfold wp, result, exec in W. by rewrite E in W.
Qed.

(** ** What is written *)

Definition written (w : BitWriter) (l : list Z) : Prop :=
  length (wb w) = ((length l + 7) / 8)%nat /\ fill w = Z.of_nat (length l mod 8) /\ octets (wb w) /\ forall i, bit_at (wb w) i = nth i l 0.

Lemma bit_at_testbit b i : bit_at b i = Z.b2z (Z.testbit (octet_at b (i / 8)) (7 - Z.of_nat (i mod 8))).
Proof.
  unfold bit_at. pose proof (Nat.mod_upper_bound i 8 ltac:(lia)). rewrite (Z.land_ones _ 1) by lia. rewrite <- Z.bit0_mod.
  rewrite Z.shiftr_spec by lia. done.
Qed.

Lemma octet_at_snoc b x j : octet_at (b ++ [x]) j = if (j =? length b)%nat then x else octet_at b j.
Proof.
  unfold octet_at. destruct (Nat.eqb_spec j (length b)) as [->|]; [by rewrite app_nth2, Nat.sub_diag by lia|].
  destruct (Nat.lt_ge_cases j (length b)); [by rewrite app_nth1|]. rewrite !nth_overflow; [done|lia|rewrite length_app; cbn; lia].
Qed.

Lemma or_last_snoc b x v : or_last (b ++ [x]) v = b ++ [Z.lor x (u8 v)].
Proof. unfold or_last. rewrite last_snoc, length_app. cbn. by rewrite Nat.add_sub, take_app_length. Qed.

Lemma bit_or_last b x k i : octet x -> (length b = k / 8)%nat ->
  bit_at (or_last (b ++ [x]) (Z.shiftl 1 (7 - Z.of_nat (k mod 8)))) i = if (i =? k)%nat then 1 else bit_at (b ++ [x]) i.
Proof.
  intros Hx Hl. pose proof (Nat.mod_upper_bound k 8 ltac:(lia)). pose proof (Nat.mod_upper_bound i 8 ltac:(lia)).
  rewrite or_last_snoc, !bit_at_testbit, !octet_at_snoc. rewrite wrap_small.
  2:{ rewrite Z.shiftl_mul_pow2, Z.mul_1_l by lia. split; [apply Z.pow_nonneg; lia|apply Z.pow_lt_mono_r; lia]. }
  pose proof (Nat.div_mod_eq i 8). pose proof (Nat.div_mod_eq k 8). rewrite Hl.
  destruct (Nat.eqb_spec (i / 8) (k / 8)) as [E|E].
  - rewrite Z.lor_spec, Z.shiftl_spec by lia. destruct (Nat.eqb_spec i k) as [->|Hne].
    + rewrite Z.sub_diag. change (Z.testbit 1 0) with true. by rewrite orb_true_r.
    + replace (Z.testbit 1 (7 - Z.of_nat (i mod 8) - (7 - Z.of_nat (k mod 8)))) with false; [by rewrite orb_false_r|].
      symmetry. destruct (Z.lt_ge_cases (7 - Z.of_nat (i mod 8) - (7 - Z.of_nat (k mod 8))) 0); [by apply Z.testbit_neg_r|].
      apply (Z.bits_above_log2 1); [lia|]. change (Z.log2 1) with 0. lia.
  - destruct (Nat.eqb_spec i k) as [->|]; [done|]. done.
Qed.

Lemma up_to_octet k : ((k + 7) / 8 = if (k mod 8 =? 0) then k / 8 else S (k / 8))%nat.
Proof.
  pose proof (Nat.div_mod_eq k 8). pose proof (Nat.mod_upper_bound k 8 ltac:(lia)). destruct (Nat.eqb_spec (k mod 8) 0).
  - symmetry. apply (Nat.div_unique _ _ _ 7); lia.
  - symmetry. apply (Nat.div_unique _ _ _ (k mod 8 - 1)); lia.
Qed.

Lemma written_bit w l v : v = 0 \/ v = 1 -> written w l -> written (w_bit v w) (l ++ [v]).
Proof.
  intros Hv (H1 & H2 & H3 & H4). set (k := length l) in *. pose proof (Nat.mod_upper_bound k 8 ltac:(lia)). pose proof (Nat.div_mod_eq k 8).
  assert (B : exists b x, (if fill w =? 0 then wb w ++ [0] else wb w) = b ++ [x] /\ length b = (k / 8)%nat /\ octets (b ++ [x])
              /\ forall i, bit_at (b ++ [x]) i = nth i l 0).
  { destruct (Z.eqb_spec (fill w) 0) as [E|E].
    - exists (wb w), 0. split; [done|]. rewrite H2 in E. split; [rewrite H1, up_to_octet; by destruct (Nat.eqb_spec (k mod 8) 0); [|lia]|]. split; [apply octets_app; split; [done|by repeat constructor]|].
      intros i. rewrite <- H4, !bit_at_testbit, octet_at_snoc. destruct (Nat.eqb_spec (i / 8) (length (wb w))) as [Ei|]; [|done].
      unfold octet_at. rewrite nth_overflow by lia. done.
    - rewrite H2 in E. destruct (wb w) as [|y b'] eqn:Eb using rev_ind; [rewrite up_to_octet in H1; destruct (Nat.eqb_spec (k mod 8) 0) as [E0|]; [by rewrite E0 in E|]; change (length (@nil Z)) with O in H1; lia|]. clear IHb'.
      exists b', y. split; [done|]. rewrite length_app, up_to_octet in H1. destruct (Nat.eqb_spec (k mod 8) 0) as [E0|]; [by rewrite E0 in E|]. change (length [y]) with 1%nat in H1. split; [lia|done]. }
  destruct B as (b & x & Eb & Hl & Ho & Hb). unfold w_bit. rewrite Eb.
  assert (F : Z.land (fill w + 1) 7 = Z.of_nat (length (l ++ [v]) mod 8)).
  { rewrite H2, length_app. change (length [v]) with 1%nat. fold k. change 7 with (Z.ones 3). rewrite Z.land_ones by lia. change (2 ^ 3) with 8.
    rewrite !Nat2Z.inj_mod, Nat2Z.inj_add. apply Zplus_mod_idemp_l. }
  assert (L : length (b ++ [x]) = ((length (l ++ [v]) + 7) / 8)%nat).
  { rewrite !length_app. change (length [v]) with 1%nat. change (length [x]) with 1%nat. fold k. rewrite Hl.
    replace (k + 1 + 7)%nat with (k + 1 * 8)%nat by lia. by rewrite Nat.div_add by lia. }
  assert (N : forall i, nth i (l ++ [v]) 0 = if (i =? k)%nat then v else nth i l 0).
  { intros i. apply (octet_at_snoc l v i). }
  destruct Hv as [-> | ->]; cbn [Z.eqb].
  - split; [exact L|]. split; [exact F|]. split; [exact Ho|]. intros i. cbn [wb]. rewrite Hb, N. destruct (Nat.eqb_spec i k) as [->|]; [|done].
    by rewrite nth_overflow.
  - split; [|split; [exact F|split]]; cbn [wb].
    + rewrite or_last_snoc, length_app. rewrite length_app in L. exact L.
    + rewrite or_last_snoc. apply octets_app in Ho as [Ho Hx]. apply octets_app. split; [done|]. constructor; [|constructor].
      apply word_lor; [lia|by inversion Hx|apply octet_u8].
    + intros i. rewrite H2. fold k. rewrite bit_or_last; [|apply octets_app in Ho as [_ Hx]; by inversion Hx|done]. rewrite N. by destruct (_ =? _)%nat.
Qed.

(** The [n] low bits of [v], highest first. *)
Fixpoint bin (v : Z) (n : nat) : list Z :=
  match n with
  | O => []
  | S n => Z.land (Z.shiftr v (Z.of_nat n)) 1 :: bin v n
  end.

(** Exp-Golomb: the code of [v]. *)
Definition ue_code (v : Z) : list Z := let n := Z.to_nat (Z.log2 (v + 1)) in repeat 0 n ++ bin (v + 1) (S n).

Lemma land_1 x : Z.land x 1 = 0 \/ Z.land x 1 = 1.
Proof. rewrite (Z.land_ones _ 1) by lia. pose proof (Z.mod_pos_bound x (2 ^ 1) ltac:(lia)). lia. Qed.

Lemma written_u n : forall v w l, written w l -> written (w_u v n w) (l ++ bin v n).
Proof.
  induction n as [|n IH]; intros v w l Hw; cbn [w_u bin]; [by rewrite app_nil_r|].
  change (l ++ ?b :: bin v n) with (l ++ [b] ++ bin v n). rewrite app_assoc.
  apply IH, written_bit; [apply land_1|done].
Qed.

Lemma written_zeros n : forall w l, written w l -> written (w_zeros n w) (l ++ repeat 0 n).
Proof.
  induction n as [|n IH]; intros w l Hw; cbn [w_zeros repeat]; [by rewrite app_nil_r|].
  change (l ++ 0 :: repeat 0 n) with (l ++ [0] ++ repeat 0 n). rewrite app_assoc. apply IH, written_bit; auto.
Qed.

Lemma log_loop_spec fuel : forall t n, 0 < t -> (Z.log2 t < Z.of_nat fuel) -> log_loop fuel t n = (n + Z.to_nat (Z.log2 t))%nat.
Proof.
  induction fuel as [|fuel IH]; intros t n Ht Hf; [pose proof (Z.log2_nonneg t); lia|]. cbn [log_loop]. destruct (Z.ltb_spec 1 t).
  - assert (E : Z.log2 (Z.shiftr t 1) = Z.log2 t - 1) by (rewrite Z.log2_shiftr by lia; pose proof (Z.log2_pos t ltac:(lia)); lia).
    pose proof (Z.log2_pos t ltac:(lia)). rewrite IH, E; [lia| |lia]. rewrite Z.shiftr_div_pow2 by lia. apply Z.div_str_pos. lia.
  - assert (t = 1) as -> by lia. change (Z.log2 1) with 0. cbn. lia.
Qed.

Lemma written_ue v w l : 0 <= v < 2 ^ 32 - 1 -> written w l -> written (w_ue v w) (l ++ ue_code v).
Proof.
  intros Hv Hw. unfold w_ue, ue_code. rewrite wrap_small by lia.
  assert (Hl : Z.log2 (v + 1) < 32) by (apply Z.log2_lt_pow2; lia).
  rewrite log_loop_spec by (lia || exact Hl). cbn [Nat.add]. rewrite app_assoc. apply (written_u (S _)), written_zeros, Hw.
Qed.

Lemma written_copy b n : forall i w l, written w l -> written (copy_bits b i n w) (l ++ map (bit_at b) (seq i n)).
Proof.
  induction n as [|n IH]; intros i w l Hw; cbn [copy_bits seq map]; [by rewrite app_nil_r|].
  change (l ++ ?x :: ?y) with (l ++ [x] ++ y). rewrite app_assoc. apply IH, written_bit; [apply land_1|done].
Qed.

Lemma written_align k : forall fuel w l, written w l -> ((length l + k) mod 8 = 0)%nat -> (k < 8)%nat -> (k < fuel)%nat ->
  written (align fuel w) (l ++ repeat 0 k).
Proof.
  induction k as [|k IH]; intros fuel w l Hw Hm Hk Hf; (destruct fuel as [|fuel]; [lia|]); cbn [align]; destruct (Hw) as (H1 & H2 & H3 & H4).
  - rewrite Nat.add_0_r in Hm. rewrite H2, Hm. cbn. by rewrite app_nil_r.
  - destruct (Z.eqb_spec (fill w) 0) as [E|_].
    + exfalso. rewrite H2 in E. assert (E' : (length l mod 8 = 0)%nat) by lia.
      pose proof (Nat.div_mod_eq (length l) 8). rewrite <- (Nat.mod_unique _ 8 (length l / 8) (S k)) in Hm; lia.
    + cbn [repeat]. change (l ++ 0 :: repeat 0 k) with (l ++ [0] ++ repeat 0 k). rewrite app_assoc. apply IH; [apply written_bit; [by left|done]| |lia|lia].
      rewrite length_app. change (length [0]) with 1%nat. by rewrite <- Nat.add_assoc.
Qed.

(** ** What is read *)

Definition at_bits (r : BitReader) (l : list Z) : Prop :=
  forall i x, l !! i = Some x -> (pos r + i < length (rb r) * 8)%nat /\ bit_at (rb r) (pos r + i) = x.

Definition reads {A} (m : ST BitReader A) (v : A) (l : list Z) : Prop :=
  forall r, bad r = false -> at_bits r l -> m r = (v, r <| pos ::= fun p => (p + length l)%nat |>).

Lemma reads_ret {A} (a : A) : reads (mret a) a [].
Proof. intros [b p f] _ _. unfold mret, st_ret. cbn. by rewrite Nat.add_0_r. Qed.

Lemma reads_bind {A B} (m : ST BitReader A) (k : A -> ST BitReader B) a v l1 l2 :
  reads m a l1 -> reads (k a) v l2 -> reads (m ≫= k) v (l1 ++ l2).
Proof.
  intros Hm Hk r Hb Ha. unfold mbind, st_bind. rewrite Hm; [|done|].
  - rewrite Hk; [destruct r; cbn; by rewrite length_app, Nat.add_assoc|done|]. intros i x Hi. cbn.
    rewrite <- Nat.add_assoc. apply Ha. by rewrite lookup_app_r, Nat.add_comm, Nat.add_sub by lia.
  - intros i x Hi. apply Ha. by apply lookup_app_l_Some.
Qed.

Lemma reads_bit x : reads bit x [x].
Proof.
  intros r Hb Ha. destruct (Ha 0%nat x eq_refl) as [H1 H2]. rewrite Nat.add_0_r in H1, H2. rewrite bit_step.
  destruct (Nat.leb_spec (length (rb r) * 8) (pos r)); [lia|]. rewrite H2. destruct r. cbn. by rewrite Nat.add_1_r.
Qed.

Lemma bit_of v n : Z.land (Z.shiftr v (Z.of_nat n)) 1 = (v / 2 ^ Z.of_nat n) mod 2.
Proof. rewrite (Z.land_ones _ 1), Z.shiftr_div_pow2 by lia. done. Qed.

Lemma low_bits v n : 0 <= v -> v mod 2 ^ Z.of_nat (S n) = (v / 2 ^ Z.of_nat n) mod 2 * 2 ^ Z.of_nat n + v mod 2 ^ Z.of_nat n.
Proof.
  intros Hv. rewrite Nat2Z.inj_succ, Z.pow_succ_r by lia. rewrite (Z.mul_comm 2), Z.rem_mul_r by lia. lia.
Qed.

Lemma reads_u_loop n : forall acc v, 0 <= acc -> 0 <= v -> (acc + 1) * 2 ^ Z.of_nat n <= 2 ^ 32 ->
  reads (u_loop n acc) (acc * 2 ^ Z.of_nat n + v mod 2 ^ Z.of_nat n) (bin v n).
Proof.
  induction n as [|n IH]; intros acc v Ha Hv Hb; cbn [u_loop bin].
  - rewrite Z.mul_1_r, Z.mod_1_r, Z.add_0_r. apply reads_ret.
  - change (?x :: bin v n) with ([x] ++ bin v n). eapply reads_bind; [apply reads_bit|]. rewrite bit_of.
    assert (P : 0 < 2 ^ Z.of_nat n) by (apply Z.pow_pos_nonneg; lia).
    pose proof (Z.mod_pos_bound (v / 2 ^ Z.of_nat n) 2 ltac:(lia)). rewrite Nat2Z.inj_succ, Z.pow_succ_r in Hb by lia.
    rewrite Z.shiftl_mul_pow2 by lia. rewrite wrap_small by nia. rewrite (lor_add 1) by first [lia|by rewrite Z.mod_mul|split; lia].
    replace (acc * 2 ^ Z.of_nat (S n) + v mod 2 ^ Z.of_nat (S n))
      with ((acc * 2 ^ 1 + (v / 2 ^ Z.of_nat n) mod 2) * 2 ^ Z.of_nat n + v mod 2 ^ Z.of_nat n)
      by (rewrite low_bits, Nat2Z.inj_succ, Z.pow_succ_r by lia; lia).
    apply IH; [lia|lia|nia].
Qed.

Lemma reads_u n v : (n <= 32)%nat -> 0 <= v < 2 ^ Z.of_nat n -> reads (u n) v (bin v n).
Proof.
  intros Hn Hv. pose proof (reads_u_loop n 0 v ltac:(lia) ltac:(lia)) as R. rewrite Z.mul_0_l, Z.add_0_l, Z.mod_small in R by lia. apply R.
  assert (2 ^ Z.of_nat n <= 2 ^ 32) by (apply Z.pow_le_mono_r; lia). lia.
Qed.

Lemma reads_gets {A B} (f : BitReader -> A) a (k : A -> ST BitReader B) v l :
  (forall r, bad r = false -> f r = a) -> reads (k a) v l -> reads (x ← gets f; k x) v l.
Proof. intros Hf Hk r Hb Ha. unfold mbind, st_bind, gets. rewrite (Hf r Hb). by apply Hk. Qed.

Lemma reads_zeros z : forall n fuel, (z + n < 32)%nat -> (z < fuel)%nat -> reads (ue_zeros fuel n) (n + z)%nat (repeat 0 z ++ [1]).
Proof.
  induction z as [|z IH]; intros n fuel Hn Hf; (destruct fuel as [|fuel]; [lia|]); cbn [ue_zeros repeat app].
  - eapply (reads_bind _ _ _ _ [1] []); [apply reads_bit|]. eapply reads_gets; [by intros r H; exact H|].
    cbn. rewrite Nat.add_0_r. apply reads_ret.
  - eapply (reads_bind _ _ _ _ [0] (repeat 0 z ++ [1])); [apply reads_bit|]. eapply reads_gets; [by intros r H; exact H|].
    destruct (Nat.ltb_spec n 32); [|lia]. cbn [Z.eqb andb negb]. rewrite <- Nat.add_succ_comm. apply IH; lia.
Qed.

Lemma reads_tail n : forall v x, 0 <= v -> 0 <= x -> v + x mod 2 ^ Z.of_nat n < 2 ^ 32 -> reads (ue_tail n v) (v + x mod 2 ^ Z.of_nat n) (bin x n).
Proof.
  induction n as [|n IH]; intros v x Hv Hx Hb; cbn [ue_tail bin].
  - rewrite Z.mod_1_r, Z.add_0_r. apply reads_ret.
  - change (?b :: bin x n) with ([b] ++ bin x n). eapply reads_bind; [apply reads_bit|]. rewrite bit_of, low_bits in * by lia.
    assert (P : 0 < 2 ^ Z.of_nat n) by (apply Z.pow_pos_nonneg; lia). pose proof (Z.mod_pos_bound (x / 2 ^ Z.of_nat n) 2 ltac:(lia)).
    pose proof (Z.mod_pos_bound x (2 ^ Z.of_nat n) P).
    rewrite Z.shiftl_mul_pow2 by lia. set (c := (x / 2 ^ Z.of_nat n) mod 2) in *. assert (C : c = 0 \/ c = 1) by lia. clearbody c.
    rewrite (wrap_small 32 (c * _)) by (destruct C as [-> | ->]; lia). rewrite wrap_small by (destruct C as [-> | ->]; lia).
    rewrite Z.add_assoc. apply IH; destruct C as [-> | ->]; lia.
Qed.

Lemma reads_ue v : 0 <= v < 2 ^ 32 - 1 -> reads ue v (ue_code v).
Proof.
  intros Hv. unfold ue, ue_code. set (n := Z.to_nat (Z.log2 (v + 1))). pose proof (Z.log2_spec (v + 1) ltac:(lia)) as L.
  assert (Hl : Z.log2 (v + 1) < 32) by (apply Z.log2_lt_pow2; lia). pose proof (Z.log2_nonneg (v + 1)).
  assert (En : Z.log2 (v + 1) = Z.of_nat n) by lia. rewrite En, Z.pow_succ_r in L by lia. cbn [bin].
  assert (E1 : Z.land (Z.shiftr (v + 1) (Z.of_nat n)) 1 = 1).
  { rewrite bit_of. rewrite <- (Z.div_unique (v + 1) (2 ^ Z.of_nat n) 1 (v + 1 - 2 ^ Z.of_nat n)); [done|left; lia|lia]. }
  rewrite E1. change (repeat 0 n ++ 1 :: bin (v + 1) n) with (repeat 0 n ++ [1] ++ bin (v + 1) n). rewrite app_assoc.
  eapply reads_bind; [apply (reads_zeros n 0 33); lia|]. cbn [Nat.add]. destruct (Nat.leb_spec 32 n); [lia|].
  assert (P : 0 < 2 ^ Z.of_nat n <= 2 ^ 31) by (split; [apply Z.pow_pos_nonneg; lia|apply Z.pow_le_mono_r; lia]).
  rewrite Z.shiftl_mul_pow2, Z.mul_1_l by lia. rewrite !wrap_small by (rewrite ?wrap_small; lia).
  assert (M : (v + 1) mod 2 ^ Z.of_nat n = v + 1 - 2 ^ Z.of_nat n) by (symmetry; apply (Z.mod_unique _ _ 1); [left; lia|lia]).
  replace v with (2 ^ Z.of_nat n - 1 + (v + 1) mod 2 ^ Z.of_nat n) at 1 by lia. apply reads_tail; lia.
Qed.

(** ** Emulation prevention *)

(** How many zeros end what is before, as [protect_loop] counts them. *)
Inductive ends_in : Z -> bytes -> Prop :=
  | e_none y s : y <> 0 -> ends_in 0 (y :: s)
  | e_one y s : y <> 0 -> ends_in 1 (0 :: y :: s)
  | e_two s : ends_in 2 (0 :: 0 :: s).

Lemma strip_protect l : forall z seen, ends_in z seen -> strip_loop seen (protect_loop z l) = l.
Proof.
  induction l as [|x l IH]; intros z seen He; [done|]. cbn [protect_loop]. destruct ((z =? 2) && (x <=? 3)) eqn:E.
  - inversion He as [| |s Ez Es]; subst; try lia. cbn. rewrite andb_false_r. cbn. f_equal.
    apply IH. destruct (Z.eqb_spec x 0) as [->|]; by constructor.
  - cbn [app strip_loop]. assert (C : match seen with a :: b :: _ => (x =? 3) && (a =? 0) && (b =? 0) | _ => false end = false).
    { inversion He as [y s Hy|y s Hy|s]; subst; [destruct s; [done|]; destruct (Z.eqb_spec y 0); [done|]; by rewrite andb_false_r, ?andb_false_l| |].
      - destruct (Z.eqb_spec y 0); [done|]. apply andb_false_r.
      - destruct (Z.eqb_spec x 3); [subst; done|done]. }
    rewrite C. f_equal. apply IH. inversion He as [y s Hy|y s Hy|s]; subst; destruct (Z.eqb_spec x 0) as [->|]; try by constructor. done.
Qed.

Lemma strip_emulate b : b <> [] -> octet_at b 0 <> 0 -> strip (emulate b) = b.
Proof.
  intros Hb H0. destruct b as [|x b]; [done|]. unfold strip, emulate. cbn in *. f_equal. rewrite drop_0. apply strip_protect. by constructor.
Qed.

(** No three octets that look like a start code. *)
Definition no_start_code (l : bytes) : Prop :=
  forall i, (i + 2 < length l)%nat -> octet_at l i = 0 -> octet_at l (i + 1) = 0 -> 2 < octet_at l (i + 2).

Fixpoint coded (z : Z) (l : bytes) : Prop :=
  match l with
  | [] => True
  | x :: l => (z = 2 -> 2 < x) /\ coded (if x =? 0 then Z.min 2 (z + 1) else 0) l
  end.

Lemma coded_protect l : forall z, octets l -> 0 <= z <= 2 -> coded z (protect_loop z l).
Proof.
  induction l as [|x l IH]; intros z Hl Hz; [done|]. apply Forall_cons in Hl as [Hx Hl]. destruct Hx. cbn [protect_loop].
  destruct ((z =? 2) && (x <=? 3)) eqn:E.
  - cbn. split; [lia|]. split; [lia|]. destruct (Z.eqb_spec x 0); [change (Z.min 2 (0 + 1)) with 1; by apply IH|by apply IH].
  - cbn. split; [lia|]. destruct (Z.eqb_spec x 0); [|by apply IH]. replace (Z.min 2 (z + 1)) with (z + 1) by lia. apply IH; [done|lia].
Qed.

Lemma coded_no_start_code l : forall z, 0 <= z -> coded z l -> no_start_code l.
Proof.
  induction l as [|x l IH]; intros z Hz Hc i Hi H1 H2; [cbn in Hi; lia|]. cbn in Hc. destruct Hc as [Hc1 Hc2]. destruct i as [|i].
  - destruct l as [|y [|w l]]; cbn in Hi; try lia. cbn in *. subst. cbn in Hc2. apply Hc2. lia.
  - apply (IH (if x =? 0 then Z.min 2 (z + 1) else 0)) with (i := i); try done; [destruct (x =? 0); lia|cbn in Hi; lia].
Qed.

Lemma emulate_coded b : octets b -> b <> [] -> octet_at b 0 <> 0 -> no_start_code (emulate b).
Proof.
  intros Hb Hne H0. apply (coded_no_start_code _ 0); [done|]. unfold emulate. cbn. split; [done|].
  destruct (Z.eqb_spec (octet_at b 0) 0); [done|]. apply coded_protect; [by apply octets_drop|lia].
Qed.

Lemma octets_strip l : forall seen, octets l -> octets (strip_loop seen l).
Proof.
  induction l as [|x l IH]; intros seen Hl; [done|]. apply Forall_cons in Hl as [Hx Hl]. cbn [strip_loop].
  match goal with |- context [if ?c then _ else _] => destruct c end; [by apply IH|]. constructor; [done|by apply IH].
Qed.

Lemma length_protect l : forall z, (length l <= length (protect_loop z l))%nat.
Proof.
  induction l as [|x l IH]; intros z; [done|]. cbn [protect_loop]. rewrite length_app. cbn [length].
  match goal with |- context [protect_loop ?z l] => specialize (IH z) end. lia.
Qed.

Lemma length_emulate b : b <> [] -> (length b <= length (emulate b))%nat.
Proof.
  intros Hb. unfold emulate. cbn [length]. pose proof (length_protect (drop 1 b) 0). rewrite length_drop in H. lia.
Qed.

(** ** The rewritten parameter set *)

Definition start (b : bytes) : BitReader := {| rb := b; pos := 0; bad := false |}.

(** The walk reaches the flag at [n], and the flag is there and clear. *)
Definition restrictable (sps : bytes) (n : nat) : Prop :=
  (5 <= length sps)%nat /\ Z.land (octet_at sps 0) 0x1f = 7
  /\ exists s, walk (start (strip sps)) = (Some n, s) /\ bad s = false /\ (n < length (strip sps) * 8)%nat /\ bit_at (strip sps) n = 0.

(** A decoder at the flag: the flag, [motion_vectors_over_pic_boundaries], the two
    denominators, the two lengths of vectors, the two numbers, the stop bit. *)
Definition restriction : ST BitReader (list Z) :=
  present ← u 1; vectors ← u 1; max_bytes ← ue; max_bits ← ue; horizontal ← ue; vertical ← ue; reorder ← ue; buffering ← ue; stop ← u 1;
  mret [present; vectors; max_bytes; max_bits; horizontal; vertical; reorder; buffering; stop].

Definition restriction_code (reorder buffering : Z) : list Z :=
  [1; 1] ++ ue_code 0 ++ ue_code 0 ++ ue_code 16 ++ ue_code 16 ++ ue_code reorder ++ ue_code buffering ++ [1].

Lemma reads_restriction r d : 0 <= r < 2 ^ 32 - 1 -> 0 <= d < 2 ^ 32 - 1 ->
  reads restriction [1; 1; 0; 0; 16; 16; r; d; 1] (restriction_code r d).
Proof.
  intros Hr Hd. unfold restriction, restriction_code. change ([1; 1] ++ ?l) with ([1] ++ [1] ++ l).
  do 2 (eapply reads_bind; [apply (reads_u 1 1); lia|]).
  do 6 (eapply reads_bind; [apply reads_ue; lia|]).
  eapply (reads_bind _ _ _ _ [1] []); [apply (reads_u 1 1); lia|apply reads_ret].
Qed.

Lemma u_loop_pos n : forall v r, bad (exec (u_loop n v) r) = false -> pos (exec (u_loop n v) r) = (pos r + n)%nat.
Proof.
  unfold exec. induction n as [|n IH]; intros v r; [cbn; lia|]. cbn [u_loop]. unfold mbind, st_bind. rewrite bit_step.
  destruct (_ <=? _)%nat; intros Hb; (rewrite IH by exact Hb).
  - exfalso. assert (B : forall r v, bad r = true -> bad (u_loop n v r).2 = true) by (intros; by apply (l_bad _ _ (local_u_loop n _ _))).
    by rewrite B in Hb.
  - cbn. lia.
Qed.

Lemma walk_past_header b n s : walk (start b) = (Some n, s) -> bad s = false -> (8 <= n)%nat.
Proof.
  intros E Hb. pose proof (walk_pos _ _ _ E) as ->.
  assert (L := l_pos _ _ (local_after_header (exec (past (u 8)) (start b)))).
  assert (E2 : exec after_header (exec (past (u 8)) (start b)) = s).
  { transitivity (exec walk (start b)); [|unfold exec; by rewrite E]. unfold walk, exec, mbind, st_bind. by destruct (past (u 8) (start b)). }
  rewrite E2 in L. specialize (L Hb).
  assert (Hh : bad (exec (past (u 8)) (start b)) = false).
  { destruct (bad (exec (past (u 8)) (start b))) eqn:F; [|done].
    pose proof (l_bad _ _ (local_after_header (exec (past (u 8)) (start b))) F) as G. rewrite E2 in G. congruence. }
  assert (P : pos (exec (past (u 8)) (start b)) = 8%nat); [|lia].
  assert (X : exec (past (u 8)) (start b) = exec (u_loop 8 0) (start b)) by (unfold past, u, exec, mbind, st_bind; by destruct (u_loop 8 0 (start b))).
  rewrite X in *. rewrite u_loop_pos by done. done.
Qed.

(** The bits of the result of [rebuild]. *)
Definition rebuilt_bits (rbsp : bytes) (n : nat) (r d : Z) : list Z := map (bit_at rbsp) (seq 0 n) ++ restriction_code r d.

Lemma rebuild_bits rbsp n r d : 0 <= r < 2 ^ 32 - 1 -> 0 <= d < 2 ^ 32 - 1 ->
  exists k, (k < 8)%nat /\ octets (rebuild rbsp n r d)
    /\ (length (rebuild rbsp n r d) * 8 = length (rebuilt_bits rbsp n r d) + k)%nat
    /\ forall i, bit_at (rebuild rbsp n r d) i = nth i (rebuilt_bits rbsp n r d ++ repeat 0 k) 0.
Proof.
  intros Hr Hd. unfold rebuild. set (w0 := {| wb := []; fill := 0 |}).
  assert (W0 : written w0 []).
  { split; [done|]. split; [done|]. split; [constructor|]. intros i. rewrite bit_at_testbit. unfold octet_at.
    rewrite (nth_overflow (wb w0)) by (cbn; lia). rewrite Z.testbit_0_l. by destruct i. }
  pose proof (written_copy rbsp n 0 w0 [] W0) as W1. cbn [app] in W1. set (w1 := copy_bits rbsp 0 n w0) in *. clearbody w1.
  set (w2 := w_bit 1 _). assert (W2 : written w2 (rebuilt_bits rbsp n r d)).
  { unfold w2, rebuilt_bits, restriction_code. change ([1; 1] ++ ?l) with ([1] ++ [1] ++ l). rewrite !app_assoc.
    apply written_bit; [by right|]. do 6 (apply written_ue; [lia|]). do 2 (apply written_bit; [by right|]). exact W1. }
  clearbody w2. set (L := rebuilt_bits rbsp n r d) in *. clearbody L.
  assert (K : exists k, (k < 8)%nat /\ ((length L + k) mod 8 = 0)%nat).
  { pose proof (Nat.div_mod_eq (length L) 8). pose proof (Nat.mod_upper_bound (length L) 8 ltac:(lia)). destruct (decide (length L mod 8 = 0)%nat) as [E|].
    - exists 0%nat. rewrite Nat.add_0_r. split; [lia|done].
    - exists (8 - length L mod 8)%nat. split; [lia|]. symmetry. apply (Nat.mod_unique _ _ (S (length L / 8))); lia. }
  destruct K as (k & Hk & Hm). exists k. destruct (written_align k 8 w2 L W2 Hm Hk Hk) as (A1 & _ & A3 & A4). split; [done|]. split; [done|]. split; [|done].
  rewrite A1, length_app, repeat_length, up_to_octet, Hm. cbn [Nat.eqb]. pose proof (Nat.div_mod_eq (length L + k) 8). lia.
Qed.

Lemma octet_bits x y : octet x -> octet y -> (forall i, (i < 8)%nat -> bit_at [x] i = bit_at [y] i) -> x = y.
Proof.
  intros Hx Hy Hb. apply Z.bits_inj'. intros j Hj. destruct (Z.lt_ge_cases j 8); [|by rewrite !(word_bit 8) by (lia || done)].
  specialize (Hb (Z.to_nat (7 - j)) ltac:(lia)). rewrite !bit_at_testbit in Hb. rewrite Nat.div_small, Nat.mod_small in Hb by lia. cbn in Hb.
  replace (7 - Z.of_nat (Z.to_nat (7 - j))) with j in Hb by lia. by apply Z.b2z_inj.
Qed.

Lemma bit_at_first b i : (i < 8)%nat -> bit_at b i = bit_at [octet_at b 0] i.
Proof. intros Hi. rewrite !bit_at_testbit, Nat.div_small by done. done. Qed.

Lemma strip_head sps : octet_at (strip sps) 0 = octet_at sps 0.
Proof. by destruct sps. Qed.

Lemma length_code r d : (25 <= length (restriction_code r d))%nat.
Proof.
  unfold restriction_code. rewrite !length_app. change (length [1; 1]) with 2%nat. change (length (ue_code 0)) with 1%nat. change (length (ue_code 16)) with 9%nat.
  change (length [1]) with 1%nat. assert (U : forall v, (1 <= length (ue_code v))%nat) by (intros v; unfold ue_code; rewrite length_app; cbn [bin length]; lia).
  pose proof (U r). pose proof (U d). lia.
Qed.

Lemma restriction_cases sps r d : sps_with_bitstream_restriction sps r d =
  if (length sps <? 5)%nat || negb (Z.land (octet_at sps 0) 0x1f =? 7) then sps else
  match walk (start (strip sps)) with
  | (None, _) => sps
  | (Some n, s) => if bad (bit s).2 || ((bit s).1 =? 1) then sps else emulate (rebuild (strip sps) n r d)
  end.
Proof.
  unfold sps_with_bitstream_restriction, start. destruct (_ || _); [done|]. cbv zeta. destruct (walk _) as [[n|] s]; [|done].
  by destruct (bit s).
Qed.

Section Rewritten.
Context (sps : bytes) (n : nat) (r d : Z).
Hypothesis Hsps : octets sps.
Hypothesis Hr : 0 <= r < 2 ^ 32 - 1.
Hypothesis Hd : 0 <= d < 2 ^ 32 - 1.
Hypothesis Hok : restrictable sps n.

Definition rebuilt : bytes := rebuild (strip sps) n r d.

Lemma restricted_is : sps_with_bitstream_restriction sps r d = emulate rebuilt.
Proof using Hok.
  destruct Hok as (H1 & H2 & s & Hw & Hb & Hn & H0). rewrite restriction_cases, H2, Hw. pose proof (walk_pos _ _ _ Hw) as E.
  destruct (Nat.ltb_spec (length sps) 5); [lia|]. cbn [Z.eqb Pos.eqb orb negb].
  assert (Eb : rb s = strip sps) by (pose proof (l_buffer _ _ (local_walk (start (strip sps)))) as B; unfold exec in B; by rewrite Hw in B).
  rewrite bit_step, Eb, <- E. destruct (Nat.leb_spec (length (strip sps) * 8) n); [lia|]. cbn [fst snd]. rewrite H0. cbn. by rewrite Hb.
Qed.

Lemma rebuilt_facts : exists k, (k < 8)%nat /\ octets rebuilt /\ (length rebuilt * 8 = n + length (restriction_code r d) + k)%nat
  /\ (forall i, (i < n)%nat -> bit_at rebuilt i = bit_at (strip sps) i)
  /\ (forall i, bit_at rebuilt (n + i) = nth i (restriction_code r d ++ repeat 0 k) 0) /\ octet_at rebuilt 0 = octet_at sps 0 /\ rebuilt <> [].
Proof using Hsps Hr Hd Hok.
  destruct (rebuild_bits (strip sps) n r d Hr Hd) as (k & Hk & Ho & Hl & Hb). fold rebuilt in Ho, Hl, Hb. unfold rebuilt_bits in Hl, Hb.
  assert (Lm : length (map (bit_at (strip sps)) (seq 0 n)) = n) by by rewrite length_map, length_seq.
  assert (P : forall i, (i < n)%nat -> bit_at rebuilt i = bit_at (strip sps) i).
  { intros i Hi. rewrite Hb, <- app_assoc, app_nth1 by lia. rewrite (nth_indep _ 0 (bit_at (strip sps) 0)) by lia.
    rewrite map_nth, seq_nth by lia. done. }
  destruct Hok as (H1 & H2 & s & Hw & Hbad & Hn & H0). pose proof (walk_past_header _ _ _ Hw Hbad) as H8.
  exists k. split; [done|]. split; [done|]. split; [rewrite Hl, length_app; lia|]. split; [exact P|].
  split; [intros i; rewrite Hb, <- app_assoc, app_nth2 by lia; f_equal; lia|]. split.
  - rewrite <- (strip_head sps). apply octet_bits; [apply octets_at; exact Ho|apply octets_at, octets_strip, Hsps|].
    intros i Hi. rewrite <- !bit_at_first by done. apply P. lia.
  - intros E. rewrite E, length_app in Hl. cbn in Hl. lia.
Qed.

Lemma header_nonzero : octet_at sps 0 <> 0.
Proof using Hok. destruct Hok as (_ & H & _). intros E. by rewrite E in H. Qed.

Lemma strip_rebuilt : strip (emulate rebuilt) = rebuilt.
Proof using Hsps Hr Hd Hok.
  destruct rebuilt_facts as (k & _ & _ & _ & _ & _ & E & Hne). apply strip_emulate; [done|]. rewrite E. apply header_nonzero.
Qed.

(** The walk over the new octets ends where it ended before. *)
Lemma walk_rebuilt : exists s, walk (start rebuilt) = (Some n, s) /\ bad s = false /\ pos s = n /\ rb s = rebuilt.
Proof using Hsps Hr Hd Hok.
  destruct rebuilt_facts as (k & _ & _ & Hl & Hp & _ & _ & _). pose proof (length_code r d).
  destruct Hok as (H1 & H2 & s & Hw & Hb & Hn & H0). pose proof (walk_pos _ _ _ Hw) as En.
  exists (s <| rb := rebuilt |>). split; [|by split; [|split; [symmetry; exact En|]]].
  pose proof (l_same _ _ (local_walk (start (strip sps)))) as L. unfold exec, result in L. rewrite Hw in L. apply L; [done|].
  intros i Hi. cbn in Hi. split; [|apply Hp]; lia.
Qed.
End Rewritten.

(** The parameter set with its restriction stated.  Where the walk reaches a clear
    flag, the result is a parameter set whose bits up to the flag are those of the
    input; the same walk stops at the same flag; a decoder reads there what was to
    be stated, then the stop bit, and only fewer than eight zero bits follow; no
    start code can be found in the result, its header is the old one, and stating
    it again changes nothing.  Everywhere else the input comes back as it is. *)
Theorem restriction_stated (sps : bytes) (r d : Z) : octets sps -> 0 <= r < 2 ^ 32 - 1 -> 0 <= d < 2 ^ 32 - 1 ->
  let out := sps_with_bitstream_restriction sps r d in
  (forall n, restrictable sps n ->
     (forall i, (i < n)%nat -> bit_at (strip out) i = bit_at (strip sps) i)
     /\ (exists s, walk (start (strip out)) = (Some n, s) /\ bad s = false
           /\ exists s', restriction s = ([1; 1; 0; 0; 16; 16; r; d; 1], s') /\ bad s' = false
                /\ (pos s' <= length (strip out) * 8 < pos s' + 8)%nat /\ forall i, (pos s' <= i)%nat -> bit_at (strip out) i = 0)
     /\ no_start_code out /\ octet_at out 0 = octet_at sps 0
     /\ forall r' d', sps_with_bitstream_restriction out r' d' = out)
  /\ ((forall n, ~ restrictable sps n) -> out = sps).
Proof.
  intros Hsps Hr Hd out. split.
  - intros n Hok. unfold out. rewrite (restricted_is sps n r d Hok). rewrite (strip_rebuilt sps n r d Hsps Hr Hd Hok).
    destruct (rebuilt_facts sps n r d Hsps Hr Hd Hok) as (k & Hk & Ho & Hl & Hp & Hc & Hh & Hne).
    destruct (walk_rebuilt sps n r d Hsps Hr Hd Hok) as (s & Hw & Hb & Hn & Erb).
    pose proof (header_nonzero sps n Hok) as H0. pose proof (length_code r d) as Hlen. set (b := rebuilt sps n r d) in *. clearbody b.
    assert (Hread : restriction s = ([1; 1; 0; 0; 16; 16; r; d; 1], s <| pos ::= fun p => (p + length (restriction_code r d))%nat |>)).
    { apply reads_restriction; [done|done|done|]. intros i x Hi. rewrite Erb, Hn. pose proof (lookup_lt_Some _ _ _ Hi). split; [lia|].
      rewrite Hc. rewrite app_nth1 by done. by apply nth_lookup_Some. }
    split; [exact Hp|]. split; [|split; [apply emulate_coded; [done|done|by rewrite Hh]|split; [exact Hh|]]].
    + exists s. split; [done|]. split; [done|]. eexists. split; [exact Hread|]. split; [exact Hb|]. cbn -[restriction_code]. rewrite Hn. split; [lia|].
      intros i Hi. replace i with (n + (i - n))%nat by lia. rewrite Hc, app_nth2 by lia. apply nth_repeat.
    + intros r' d'. rewrite restriction_cases, strip_emulate by (done || by rewrite Hh). rewrite Hw.
      destruct (_ || negb _); [done|]. rewrite bit_step, Erb, Hn. destruct (Nat.leb_spec (length b * 8) n); [lia|]. cbn [fst snd].
      specialize (Hc 0%nat). rewrite Nat.add_0_r in Hc. rewrite Hc. cbn. by rewrite orb_true_r.
  - intros Hno. unfold out. rewrite restriction_cases. destruct (Nat.ltb_spec (length sps) 5) as [|H5]; [done|].
    destruct (Z.eqb_spec (Z.land (octet_at sps 0) 31) 7) as [H7|]; [|done]. cbn [orb negb].
    destruct (walk (start (strip sps))) as [[n|] s] eqn:Ew; [|done]. pose proof (walk_pos _ _ _ Ew) as En. rewrite bit_step.
    assert (Eb : rb s = strip sps) by (pose proof (l_buffer _ _ (local_walk (start (strip sps)))) as B; unfold exec in B; by rewrite Ew in B).
    rewrite Eb, <- En. destruct (Nat.leb_spec (length (strip sps) * 8) n); [done|]. cbn [fst snd].
    change (bad (s <| pos ::= S |>)) with (bad s). destruct (bad s) eqn:Hb; [done|]. cbn [orb].
    destruct (Z.eqb_spec (bit_at (strip sps) n) 1) as [|Hne]; [done|]. exfalso. apply (Hno n). split; [done|]. split; [done|].
    exists s. split; [done|]. split; [done|]. split; [done|]. unfold bit_at in *. by destruct (land_1 (Z.shiftr (octet_at (strip sps) (n / 8)) (7 - Z.of_nat (n mod 8)))).
Qed.

(** ** At a concrete parameter set *)

(** High profile, a scaling list, cropping, and a VUI with every optional part but
    the buffering descriptions. *)
Definition a_sps : bytes :=
  [103; 100; 0; 51; 173; 255; 255; 128; 202; 128; 120; 2; 39; 229; 255; 192; 0; 64; 0; 90; 128; 128; 128; 160; 0; 0; 3; 0; 32; 0; 0; 5; 0; 128].

Lemma restriction_stated_witness :
  restrictable a_sps 255 /\ sps_with_bitstream_restriction a_sps 0 1
    = [103; 100; 0; 51; 173; 255; 255; 128; 202; 128; 120; 2; 39; 229; 255; 192; 0; 64; 0; 90; 128; 128; 128; 160; 0; 0; 3; 0; 32; 0; 0; 5; 1; 225; 16; 141; 64]
  /\ no_start_code (sps_with_bitstream_restriction a_sps 0 1).
Proof.
  assert (R : restrictable a_sps 255).
  { split; [cbn; lia|]. split; [done|]. exists (walk (start (strip a_sps))).2. split; [by vm_compute|]. split; [by vm_compute|]. split; [apply Nat.ltb_lt; by vm_compute|by vm_compute]. }
  assert (O : octets a_sps) by (repeat constructor; lia).
  destruct (restriction_stated a_sps 0 1 O ltac:(lia) ltac:(lia)) as [H _]. destruct (H 255%nat R) as (_ & _ & Hs & _).
  split; [exact R|]. split; [vm_compute; reflexivity|exact Hs].
Defined.
