(* ===== verification/Packetize.v ===== *)
(** * An access unit as RTP packets

    [app/webrtc/rtp.cpp], [packetize_h264]: single NAL unit packets and
    fragmentation units (RFC 6184, packetization mode 1), composed of [split]
    and [write_header]; and the receiver of that RFC, which puts the units
    together again. *)

From S2P Require Import Prelude Text Bytes Rtp H264.

Record RtpParams := {
  payload_type : Z;
  p_ssrc : Z;
  max_payload : nat;
}.

(** A step of the packetizer: the packets it adds and [seq] behind it. *)
Definition sent : Type := list bytes * Z.

Definition header (p : RtpParams) (seq ts : Z) (marker : bool) : bytes :=
  write_header (payload_type p) marker seq ts (p_ssrc p).

(** [p.max_payload - 2] on [size_t]. *)
Definition chunk_size (p : RtpParams) : nat := Z.to_nat (u64 (Z.of_nat (max_payload p) - 2)).

(** [while (off < nal.len)]: every round moves [off] by at least one octet when
    the chunk is not empty. *)
Fixpoint fragments (fuel : nat) (p : RtpParams) (nal : Nal) (ts : Z) (is_last : bool) (off : nat) (seq : Z) : sent :=
  match fuel with
  | O => ([], seq)
  | S fuel =>
      let len := length (nal_p nal) in
      if (off <? len)%nat then
        let indicator := u8 (Z.lor (Z.land (octet_at (nal_p nal) 0) 0xe0) 28) in
        let type := u8 (Z.land (octet_at (nal_p nal) 0) 0x1f) in
        let chunk := chunk_size p in
        let n := if (len - off <? chunk)%nat then (len - off)%nat else chunk in
        let start := (off =? 1)%nat in
        let fin := (off + n =? len)%nat in
        let pkt := header p seq ts (is_last && fin)
                   ++ [indicator; u8 (Z.lor (Z.lor (if start then 0x80 else 0) (if fin then 0x40 else 0)) type)]
                   ++ take n (drop off (nal_p nal)) in
        let '(out, seq) := fragments fuel p nal ts is_last (off + n) (u16 (seq + 1)) in
        (pkt :: out, seq)
      else ([], seq)
  end.

(** The body of the loop over the units. *)
Definition send_nal (p : RtpParams) (nal : Nal) (ts : Z) (is_last : bool) (seq : Z) : sent :=
  if (type nal =? 9) || (length (nal_p nal) =? 0)%nat then ([], seq)
  else if (length (nal_p nal) <=? max_payload p)%nat then ([header p seq ts is_last ++ nal_p nal], u16 (seq + 1))
  else fragments (length (nal_p nal)) p nal ts is_last 1 seq.

(** [for (i = n; i-- > 0; ) if (nals[i].type != 9) { last = i; break; }]. *)
Fixpoint last_sent (nals : list Nal) (n : nat) (k : nat) : nat :=
  match k with
  | O => n
  | S k => match nals !! k with
           | Some nal => if negb (type nal =? 9) then k else last_sent nals n k
           | None => last_sent nals n k
           end
  end.

Fixpoint send_nals (p : RtpParams) (nals : list Nal) (ts : Z) (last i : nat) (seq : Z) : sent :=
  match nals with
  | [] => ([], seq)
  | nal :: nals =>
      let '(out, seq) := send_nal p nal ts (i =? last)%nat seq in
      let '(out', seq) := send_nals p nals ts last (S i) seq in
      (out ++ out', seq)
  end.

Definition packetize_h264 (au : bytes) (ts90k seq : Z) (p : RtpParams) : sent :=
  let nals := split au 64 in
  let n := length nals in
  send_nals p nals ts90k (last_sent nals n n) 0 seq.

(** ** The receiver of RFC 6184 *)

(** The unit being put together, and the units that are complete. *)
Record Receiver := {
  partial : option bytes;
  units : list bytes;
}.

(** 5.6 and 5.8: a payload is a unit, or a fragment that starts, continues or
    ends one; a fragment without its start is dropped. *)
Definition receive (r : Receiver) (payload : bytes) : Receiver :=
  let kind := Z.land (octet_at payload 0) 0x1f in
  if kind =? 28 then
    let fu := octet_at payload 1 in
    let data := drop 2 payload in
    let begun := if negb (Z.land fu 0x80 =? 0)
                 then Some (Z.lor (Z.land (octet_at payload 0) 0xe0) (Z.land fu 0x1f) :: data)
                 else option_map (fun d => d ++ data) (partial r) in
    if negb (Z.land fu 0x40 =? 0)
    then match begun with Some u => {| partial := None; units := units r ++ [u] |} | None => r end
    else {| partial := begun; units := units r |}
  else {| partial := None; units := units r ++ [payload] |}.

Definition payload_of (pkt : bytes) : bytes :=
  match parse pkt with
  | Some (Some h) => take (payload_len h) (drop (payload_at h) pkt)
  | _ => []
  end.

Definition depacketize (pkts : list bytes) : list bytes :=
  units (fold_left receive (map payload_of pkts) {| partial := None; units := [] |}).

(** What the receiver needs besides: a unit of a type that is no packet format,
    whose octets are octets. *)
Definition sendable (n : bytes) : bool :=
  plain_nal n && (1 <=? Z.land (octet_at n 0) 0x1f) && (Z.land (octet_at n 0) 0x1f <? 24)
  && forallb (fun b => (0 <=? b) && (b <? 256)) n.

Definition is_aud (n : bytes) : bool := Z.land (octet_at n 0) 0x1f =? 9.

(** ** The packets of a list of payloads *)

(** Consecutive packets of one time stamp, each with its marker and payload. *)
Fixpoint stamp (p : RtpParams) (ts seq : Z) (l : list (bool * bytes)) : list bytes :=
  match l with
  | [] => []
  | (m, pl) :: l => (header p seq ts m ++ pl) :: stamp p ts (u16 (seq + 1)) l
  end.

Definition advance (seq : Z) (n : nat) : Z := u16 (seq + Z.of_nat n).

Lemma advance_0 seq : word 16 seq -> advance seq 0 = seq.
Proof. intros H. unfold advance. rewrite Z.add_0_r. by apply wrap_small. Qed.

Lemma advance_add seq a b : advance (advance seq a) b = advance seq (a + b).
Proof. unfold advance. rewrite wrap_add_l. f_equal. lia. Qed.

Lemma word_advance seq n : word 16 (advance seq n).
Proof. by apply word_wrap. Qed.
#[local] Hint Resolve word_advance : machino.

Lemma advance_1 seq : u16 (seq + 1) = advance seq 1.
Proof. done. Qed.

Lemma stamp_app p ts l1 : forall seq l2, word 16 seq -> stamp p ts seq (l1 ++ l2) = stamp p ts seq l1 ++ stamp p ts (advance seq (length l1)) l2.
Proof.
  induction l1 as [|[m pl] l1 IH]; intros seq l2 Hs; cbn [app stamp length]; [by rewrite advance_0|].
  rewrite advance_1, IH by apply word_advance. by rewrite advance_add.
Qed.

Lemma length_stamp p ts l : forall seq, length (stamp p ts seq l) = length l.
Proof. induction l as [|[] l IH]; intros; cbn [stamp length]; [done|by rewrite IH]. Qed.

Lemma stamp_lookup p ts l : forall seq k, word 16 seq ->
  stamp p ts seq l !! k = (fun '(m, pl) => header p (advance seq k) ts m ++ pl) <$> l !! k.
Proof.
  induction l as [|[m pl] l IH]; intros seq k Hs; [by destruct k|]. destruct k as [|k]; cbn [stamp].
  - cbn. by rewrite advance_0.
  - cbn [lookup list_lookup]. rewrite advance_1. fold (@lookup nat bytes (list bytes) list_lookup).
    change (stamp p ts (advance seq 1) l !! k = (fun '(m, pl) => header p (advance seq (S k)) ts m ++ pl) <$> l !! k).
    rewrite IH by apply word_advance. by rewrite advance_add.
Qed.

(** The markers of a unit, or of an access unit: only the last packet has it. *)
Definition markers (n : nat) (is_last : bool) : list bool :=
  match n with O => [] | S n => repeat false n ++ [is_last] end.

(** ** One unit *)

Lemma sendable_octets n : sendable n = true -> octets n.
Proof.
  unfold sendable. rewrite !andb_true_iff, forallb_forall. intros [_ H]. apply List.Forall_forall.
  intros b Hb. specialize (H b Hb). rewrite andb_true_iff, Z.leb_le, Z.ltb_lt in H. exact H.
Qed.

Section OneUnit.
Context (p : RtpParams) (nal : bytes) (ts : Z).
Hypothesis Hmax : (3 <= max_payload p)%nat.
Hypothesis Hmax64 : Z.of_nat (max_payload p) < 2 ^ 64.
Hypothesis Hnal : sendable nal = true.

Let n := length nal.

Lemma chunk_size_value : chunk_size p = (max_payload p - 2)%nat.
Proof. unfold chunk_size. rewrite wrap_small by lia. lia. Qed.

Lemma first_octet_parts :
  let b := octet_at nal 0 in
  Z.land (u8 (Z.lor (Z.land b 0xe0) 28)) 0x1f = 28
  /\ Z.lor (Z.land (u8 (Z.lor (Z.land b 0xe0) 28)) 0xe0) (Z.land b 0x1f) = b.
Proof.
  cbv zeta. pose proof (below_all 256 (fun b => (Z.land (u8 (Z.lor (Z.land b 0xe0) 28)) 0x1f =? 28)
    && (Z.lor (Z.land (u8 (Z.lor (Z.land b 0xe0) 28)) 0xe0) (Z.land b 0x1f) =? b)) ltac:(by vm_compute)
    _ (octets_at _ 0 (sendable_octets nal Hnal))) as F.
  by rewrite andb_true_iff, !Z.eqb_eq in F.
Qed.

Lemma fu_octet (s e : bool) :
  let t := u8 (Z.land (octet_at nal 0) 0x1f) in
  let f := u8 (Z.lor (Z.lor (if s then 0x80 else 0) (if e then 0x40 else 0)) t) in
  negb (Z.land f 0x80 =? 0) = s /\ negb (Z.land f 0x40 =? 0) = e /\ Z.land f 0x1f = Z.land (octet_at nal 0) 0x1f.
Proof.
  cbv zeta. pose proof (below_all 256 (fun b =>
    let f := u8 (Z.lor (Z.lor (if s then 0x80 else 0) (if e then 0x40 else 0)) (u8 (Z.land b 0x1f))) in
    Bool.eqb (negb (Z.land f 0x80 =? 0)) s && Bool.eqb (negb (Z.land f 0x40 =? 0)) e && (Z.land f 0x1f =? Z.land b 0x1f))
    ltac:(by destruct s, e; vm_compute) _ (octets_at _ 0 (sendable_octets nal Hnal))) as F.
  cbv zeta in F. rewrite !andb_true_iff, !Z.eqb_eq, !eqb_true_iff in F. tauto.
Qed.

(** A fragment extends what was received. *)
Lemma receive_fragment off k (fin : bool) part us :
  (1 <= off < n)%nat -> (off + k <= n)%nat -> off = 1%nat \/ part = Some (take off nal) ->
  receive {| partial := part; units := us |}
    ([u8 (Z.lor (Z.land (octet_at nal 0) 0xe0) 28);
      u8 (Z.lor (Z.lor (if (off =? 1)%nat then 0x80 else 0) (if fin then 0x40 else 0)) (u8 (Z.land (octet_at nal 0) 0x1f)))]
     ++ take k (drop off nal))
  = if fin then {| partial := None; units := us ++ [take (off + k) nal] |}
    else {| partial := Some (take (off + k) nal); units := us |}.
Proof.
  intros Ho Hk Hp. unfold receive. cbn [app octet_at nth drop partial units].
  destruct first_octet_parts as [-> H1]. destruct (fu_octet (off =? 1)%nat fin) as (-> & -> & ->).
  cbn [Z.eqb Pos.eqb]. rewrite H1. fold n.
  assert (E : (if (off =? 1)%nat then Some (octet_at nal 0 :: take k (drop off nal))
               else option_map (fun d => d ++ take k (drop off nal)) part) = Some (take (off + k) nal)).
  { destruct (Nat.eqb_spec off 1) as [->|Hne].
    - f_equal. subst n. destruct nal as [|b l]; [cbn in Ho; lia|]. cbn [octet_at nth drop Nat.add take].
      by rewrite drop_0.
    - destruct Hp as [| ->]; [done|]. cbn [option_map]. by rewrite take_take_drop. }
  rewrite drop_0, E. by destruct fin.
Qed.

(** Receiving the fragments from [off] on completes the unit. *)
Lemma fragments_received is_last : forall fuel off seq,
  word 16 seq -> (1 <= off < n)%nat -> (n - off <= fuel)%nat ->
  exists l, fragments fuel p (nal_of nal) ts is_last off seq = (stamp p ts seq l, advance seq (length l))
    /\ Forall (fun pl => length pl <= max_payload p)%nat (map snd l)
    /\ map fst l = markers (length l) is_last /\ l <> [] /\ (length l <= n - off)%nat
    /\ (forall us part, (off = 1%nat \/ part = Some (take off nal)) ->
          fold_left receive (map snd l) {| partial := part; units := us |} = {| partial := None; units := us ++ [nal] |}).
Proof.
  induction fuel as [|fuel IH]; intros off seq Hs Ho Hf; [lia|]. cbn [fragments nal_of nal_p]. fold n.
  destruct (Nat.ltb_spec off n); [|lia]. rewrite chunk_size_value.
  set (k := if (n - off <? max_payload p - 2)%nat then (n - off)%nat else (max_payload p - 2)%nat).
  assert (Hk : (1 <= k <= n - off)%nat /\ (k <= max_payload p - 2)%nat).
  { subst k. case_match eqn:E; [apply Nat.ltb_lt in E|apply Nat.ltb_ge in E]; lia. }
  clearbody k. destruct (Nat.eqb_spec (off + k) n) as [En|En].
  - exists [(is_last, [u8 (Z.lor (Z.land (octet_at nal 0) 0xe0) 28);
      u8 (Z.lor (Z.lor (if (off =? 1)%nat then 0x80 else 0) 0x40) (u8 (Z.land (octet_at nal 0) 0x1f)))] ++ take k (drop off nal))].
    assert (E : fragments fuel p (nal_of nal) ts is_last (off + k) (u16 (seq + 1)) = ([], u16 (seq + 1))).
    { destruct fuel; [done|]. cbn [fragments nal_of nal_p]. fold n. by destruct (Nat.ltb_spec (off + k) n); [lia|]. }
    rewrite E, andb_true_r. split; [done|]. cbn [map snd fst length]. split; [|split; [done|split; [done|split; [lia|]]]].
    + constructor; [|constructor]. cbn [app length]. rewrite length_take. lia.
    + intros us part Hp. cbn [fold_left]. rewrite (receive_fragment off k true) by (done || lia).
      rewrite En. unfold n. by rewrite firstn_all.
  - destruct (IH (off + k)%nat (u16 (seq + 1))) as (l & -> & Hl & Hm & Hne & Hlen & Hr); [by apply word_wrap|lia..|].
    exists ((false, [u8 (Z.lor (Z.land (octet_at nal 0) 0xe0) 28);
      u8 (Z.lor (Z.lor (if (off =? 1)%nat then 0x80 else 0) 0) (u8 (Z.land (octet_at nal 0) 0x1f)))] ++ take k (drop off nal)) :: l).
    rewrite andb_false_r. cbn [stamp map fst snd length]. split; [by rewrite advance_1, advance_add|].
    split; [|split; [|split; [done|split; [lia|]]]].
    + constructor; [|done]. cbn [app length]. rewrite length_take. lia.
    + rewrite Hm. by destruct l.
    + intros us part Hp. cbn [fold_left]. rewrite (receive_fragment off k false) by (done || lia). apply Hr. by right.
Qed.

Lemma send_nal_received is_last seq :
  word 16 seq ->
  exists l, send_nal p (nal_of nal) ts is_last seq = (stamp p ts seq l, advance seq (length l))
    /\ Forall (fun pl => length pl <= max_payload p)%nat (map snd l)
    /\ map fst l = markers (length l) is_last /\ (l = [] <-> is_aud nal = true) /\ (length l <= n)%nat
    /\ forall us, fold_left receive (map snd l) {| partial := None; units := us |}
       = {| partial := None; units := us ++ (if is_aud nal then [] else [nal]) |}.
Proof.
  intros Hs. unfold send_nal, is_aud. cbn [nal_of type nal_p].
  destruct (Z.eqb_spec (Z.land (octet_at nal 0) 0x1f) 9); cbn [orb].
  { exists []. cbn. rewrite advance_0 by done. repeat (split; [done || lia|]). intros us. by rewrite app_nil_r. }
  assert (Hn : (0 < n)%nat /\ Z.land (octet_at nal 0) 0x1f < 24).
  { unfold sendable in Hnal. rewrite !andb_true_iff in Hnal. destruct Hnal as [[[Hp _] Hl] _].
    split; [by apply plain_nonempty|by apply Z.ltb_lt]. }
  fold n. destruct (Nat.eqb_spec n 0) as [|_]; [lia|]. cbn [orb]. destruct (Nat.leb_spec n (max_payload p)).
  - exists [(is_last, nal)]. cbn. split; [done|]. split; [by repeat constructor|]. split; [done|]. split; [done|]. split; [lia|].
    intros us. unfold receive. rewrite (proj2 (Z.eqb_neq _ 28)) by lia. done.
  - destruct (fragments_received is_last n 1 seq Hs) as (l & E & Hl & Hm & Hne & Hlen & Hr); [lia..|]. exists l.
    split; [done|]. split; [done|]. split; [done|]. split; [done|]. split; [lia|]. intros us. apply Hr. by left.
Qed.
End OneUnit.

(** ** The whole access unit *)

(** [last] is the index, counted from [i], of the last unit that is sent. *)
Definition is_last_sent (nals : list bytes) (i last : nat) : Prop :=
  forall k n, nals !! k = Some n -> is_aud n = false ->
    ((i + k)%nat = last <-> forall k' n', (k < k')%nat -> nals !! k' = Some n' -> is_aud n' = true).

Lemma is_last_sent_tail n nals i last : is_last_sent (n :: nals) i last -> is_last_sent nals (S i) last.
Proof.
  intros H k m Hk Ha. specialize (H (S k) m Hk Ha). rewrite Nat.add_succ_r in H. rewrite Nat.add_succ_l, H. split.
  - intros G k' n' Hlt Hk'. apply (G (S k') n'); [lia|done].
  - intros G [|k'] n' Hlt Hk'; [lia|]. apply (G k' n'); [lia|done].
Qed.

Lemma last_sent_spec nals n k : (k <= length nals)%nat -> (length nals <= n)%nat ->
  (last_sent nals n k = n /\ (forall j x, (j < k)%nat -> nals !! j = Some x -> type x = 9))
  \/ exists x, (last_sent nals n k < k)%nat /\ nals !! last_sent nals n k = Some x /\ type x <> 9
               /\ (forall j y, (last_sent nals n k < j < k)%nat -> nals !! j = Some y -> type y = 9).
Proof.
  intros Hk Hn. induction k as [|k IH]; cbn [last_sent]; [left; split; [done|lia]|].
  destruct (nals !! k) as [x|] eqn:E; [|apply lookup_ge_None_1 in E; lia].
  destruct (Z.eqb_spec (type x) 9) as [E9|N9]; cbn [negb].
  - destruct IH as [[IH1 IH2]|(y & I1 & I2 & I3 & I4)]; [lia|left|right].
    + split; [done|]. intros j z Hj Hz. destruct (Nat.eq_dec j k) as [->|]; [congruence|]. apply (IH2 j); [lia|done].
    + exists y. split; [lia|]. split; [done|]. split; [done|]. intros j z Hj Hz.
      destruct (Nat.eq_dec j k) as [->|]; [congruence|]. apply (I4 j); [lia|done].
  - right. exists x. split; [lia|]. split; [done|]. split; [done|]. intros; lia.
Qed.

Lemma last_sent_last ns : is_last_sent ns 0 (last_sent (map nal_of ns) (length ns) (length ns)).
Proof.
  intros k n Hk Ha. pose proof (lookup_lt_Some _ _ _ Hk) as Hlt. cbn [Nat.add].
  assert (M : forall j x, ns !! j = Some x -> map nal_of ns !! j = Some (nal_of x)).
  { intros j x Hx. change (map nal_of ns) with (nal_of <$> ns). by rewrite list_lookup_fmap, Hx. }
  unfold is_aud in *. apply Z.eqb_neq in Ha.
  destruct (last_sent_spec (map nal_of ns) (length ns) (length ns)) as [[_ H]|(x & H1 & H2 & H3 & H4)];
    try (rewrite length_map; done); set (L := last_sent _ _ _) in *.
  - exfalso. apply Ha. apply (H k (nal_of n)); [done|by apply M].
  - split.
    + intros <- k' n' Hk' Hn'. apply Z.eqb_eq. apply (H4 k' (nal_of n')); [|by apply M].
      pose proof (lookup_lt_Some _ _ _ Hn'). lia.
    + intros G. destruct (Nat.lt_trichotomy k L) as [Hl|[Hl|Hl]]; [|done|].
      * destruct (lookup_lt_is_Some_2 ns L) as [y Hy]; [lia|]. specialize (G L y Hl Hy). apply Z.eqb_eq in G.
        rewrite (M L y Hy) in H2. injection H2 as <-. done.
      * exfalso. apply Ha. apply (H4 k (nal_of n)); [lia|by apply M].
Qed.

Lemma markers_false_app a b is_last : markers a false ++ markers (S b) is_last = markers (a + S b) is_last.
Proof.
  destruct a as [|a]; [done|]. cbn [markers Nat.add]. rewrite <- app_assoc.
  replace (a + S b)%nat with (a + (1 + b))%nat by lia. by rewrite !repeat_app, <- !app_assoc.
Qed.

Definition sent_units (ns : list bytes) : list bytes := List.filter (fun n => negb (is_aud n)) ns.

Lemma sent_nothing ns : sent_units ns = [] <-> forall k n, ns !! k = Some n -> is_aud n = true.
Proof.
  induction ns as [|n ns IH]; [by split|]. cbn [sent_units List.filter]. fold (sent_units ns).
  destruct (is_aud n) eqn:E; cbn [negb].
  - rewrite IH. split; [intros H [|k] m Hm; [by injection Hm as <-|by apply (H k)]|intros H k; apply (H (S k))].
  - split; [done|]. intros H. by rewrite (H 0%nat n eq_refl) in E.
Qed.

Section Unit.
Context (p : RtpParams) (ts : Z).
Hypothesis Hmax : (3 <= max_payload p)%nat.
Hypothesis Hmax64 : Z.of_nat (max_payload p) < 2 ^ 64.

Lemma send_nals_received ns : forall i last seq,
  word 16 seq -> forallb sendable ns = true -> is_last_sent ns i last ->
  exists l, send_nals p (map nal_of ns) ts last i seq = (stamp p ts seq l, advance seq (length l))
    /\ Forall (fun pl => length pl <= max_payload p)%nat (map snd l)
    /\ map fst l = markers (length l) true /\ (l = [] <-> sent_units ns = []) /\ (length l <= length (concat ns))%nat
    /\ forall us, fold_left receive (map snd l) {| partial := None; units := us |} = {| partial := None; units := us ++ sent_units ns |}.
Proof.
  induction ns as [|n ns IH]; intros i last seq Hs Hn Hl.
  { exists []. cbn. rewrite advance_0 by done. repeat (split; [done || lia|]). intros us. by rewrite app_nil_r. }
  cbn [forallb] in Hn. apply andb_true_iff in Hn as [Hn Hns]. cbn [map send_nals sent_units List.filter].
  destruct (send_nal_received p n ts Hmax Hmax64 Hn (i =? last)%nat seq Hs) as (l1 & -> & A1 & B1 & C1 & N1 & D1).
  destruct (IH (S i) last (advance seq (length l1))) as (l2 & -> & A2 & B2 & C2 & N2 & D2);
    [apply word_advance|done|by eapply is_last_sent_tail|].
  fold (sent_units ns). exists (l1 ++ l2). rewrite !map_app, !length_app, advance_add, stamp_app by done.
  split; [done|]. split; [by apply Forall_app|]. split; [|split; [|split; [cbn [concat]; rewrite length_app; lia|]]].
  - rewrite B1, B2. destruct (is_aud n) eqn:Ea; [by rewrite (proj2 C1 eq_refl)|].
    specialize (Hl 0%nat n eq_refl Ea). rewrite Nat.add_0_r in Hl.
    assert (G : i = last <-> l2 = []).
    { rewrite C2, sent_nothing, Hl. split; [intros H k m Hm; apply (H (S k) m); [lia|done]|].
      intros H [|k'] n' Hlt Hk'; [lia|]. by apply (H k'). }
    destruct (Nat.eqb_spec i last) as [Ei|Ei].
    + rewrite (proj1 G Ei). cbn [length markers]. by rewrite app_nil_r, Nat.add_0_r.
    + destruct l2 as [|x l2]; [tauto|]. apply markers_false_app.
  - destruct (is_aud n); cbn [negb]; [by rewrite (proj2 C1 eq_refl)|].
    split; [|done]. intros H. apply app_eq_nil in H as [H _]. by apply C1 in H.
  - intros us. rewrite fold_left_app, D1, D2, <- app_assoc. by destruct (is_aud n).
Qed.
End Unit.

Lemma payloads_stamped p ts' l : forall seq, word 7 (payload_type p) -> word 32 (p_ssrc p) -> word 32 ts' -> word 16 seq ->
  map payload_of (stamp p ts' seq l) = map snd l.
Proof.
  induction l as [|[m pl] l IH]; intros seq H1 H2 H3 H4; [done|]. cbn [stamp map snd].
  rewrite IH by (done || by apply word_wrap). f_equal. unfold payload_of, header. rewrite parse_written by done.
  apply firstn_all.
Qed.

Lemma marker_at n k m : (k < n)%nat -> markers n true !! k = Some m -> m = (S k =? n)%nat.
Proof.
  intros Hk Hm. destruct n as [|n]; [lia|]. cbn [markers] in Hm. destruct (Nat.eqb_spec (S k) (S n)) as [E|E].
  - injection E as ->. rewrite lookup_app_r in Hm by (rewrite repeat_length; lia).
    rewrite repeat_length, Nat.sub_diag in Hm. by injection Hm as <-.
  - rewrite lookup_app_l in Hm by (rewrite repeat_length; lia). apply list_elem_of_lookup_2 in Hm.
    change (repeat false n) with (repeat false n) in Hm. apply list_elem_of_In, repeat_spec in Hm. done.
Qed.

(** The packets of an access unit, as payloads: what a receiver between two
    units makes of them, and that they are octets. *)
Lemma octets_header p seq ts' m : octets (header p seq ts' m).
Proof. apply octets_write_header. Qed.

Lemma octets_fragments p n ts' is_last : octets n -> forall fuel off seq,
  Forall octets (fragments fuel p (nal_of n) ts' is_last off seq).1.
Proof.
  intros Hn. induction fuel as [|fuel IH]; intros off seq; [constructor|]. cbn [fragments nal_of nal_p].
  destruct (off <? _)%nat; [|constructor].
  specialize (IH (off + (if (length n - off <? chunk_size p)%nat then (length n - off)%nat else chunk_size p))%nat (u16 (seq + 1))).
  destruct (fragments _ _ _ _ _ _ _) as [out seq']. constructor; [|done].
  apply octets_app. split; [apply octets_header|]. apply octets_app. split.
  - apply Forall_cons; split; [by apply word_wrap|]. apply Forall_cons; split; [by apply word_wrap|constructor].
  - apply octets_take, octets_drop, Hn.
Qed.

Lemma octets_send_nals p ts' ns : forall last i seq, Forall octets ns -> Forall octets (send_nals p (map nal_of ns) ts' last i seq).1.
Proof.
  induction ns as [|n ns IH]; intros last i seq Hns; [constructor|]. inversion Hns as [|? ? Hn Hns']; subst. cbn [map send_nals].
  assert (Ho : Forall octets (send_nal p (nal_of n) ts' (i =? last)%nat seq).1).
  { unfold send_nal. destruct (_ || _); [constructor|]. destruct (_ <=? _)%nat; [|by apply octets_fragments].
    apply Forall_cons; split; [|constructor]. apply octets_app. split; [apply octets_header|done]. }
  destruct (send_nal _ _ _ _ _) as [o1 s1]. specialize (IH last (S i) s1 Hns'). destruct (send_nals _ _ _ _ _ _) as [o2 s2].
  by apply Forall_app.
Qed.

Lemma packetize_stamped p ts' seq (au : list (nat * bytes)) : word 16 seq -> (3 <= max_payload p)%nat ->
  Z.of_nat (max_payload p) < 2 ^ 64 -> forallb sendable (map snd au) = true -> (length au <= 64)%nat ->
  exists l, packetize_h264 (annexb au) ts' seq p = (stamp p ts' seq l, advance seq (length l))
    /\ Forall (fun pl => length pl <= max_payload p)%nat (map snd l)
    /\ map fst l = markers (length l) true /\ Forall octets (map snd l) /\ (length l <= length (concat (map snd au)))%nat
    /\ forall us, fold_left receive (map snd l) {| partial := None; units := us |}
                   = {| partial := None; units := us ++ sent_units (map snd au) |}.
Proof.
  intros Hs Hmax Hmax64 Hn Hlen.
  assert (Hplain : forallb plain_nal (map snd au) = true).
  { apply forallb_forall. intros n Hin. rewrite forallb_forall in Hn. specialize (Hn n Hin). unfold sendable in Hn.
    rewrite !andb_true_iff in Hn. tauto. }
  assert (Hoct : Forall octets (map snd au)).
  { apply List.Forall_forall. intros n Hin. rewrite forallb_forall in Hn. by apply sendable_octets, Hn. }
  unfold packetize_h264. rewrite split_annexb, take_ge by (rewrite ?length_map; done). set (ns := map snd au) in *.
  rewrite length_map. pose proof (octets_send_nals p ts' ns (last_sent (map nal_of ns) (length ns) (length ns)) 0 seq Hoct) as O.
  destruct (send_nals_received p ts' Hmax Hmax64 ns 0 _ seq Hs Hn (last_sent_last ns)) as (l & E & Hl & Hm & _ & Hlen' & Hr).
  rewrite E in *. exists l. repeat (split; [done|]). split; [|done]. clear -O. revert seq O.
  induction l as [|[m pl] l IH]; intros seq O; [constructor|]. cbn [stamp fst] in O.
  apply Forall_cons in O as [O1 O2].
  apply (octets_app (header p seq ts' m) pl) in O1 as [_ O1]. constructor; [done|]. by eapply IH.
Qed.

(** The receiver of RFC 6184 gets the access unit that was sent.  For any
    unit of up to 64 NAL units, each behind its start code, and any budget that
    leaves room for a fragment: putting the packets together again gives back the
    NAL units in order, without the access unit delimiters; every packet is within
    the budget and parses, with the stream's type, source and time stamp and the
    next sequence number (also across its wrap); the marker is on the last packet
    and on no other. *)
Theorem packetize_roundtrip (p : RtpParams) (ts' seq : Z) (au : list (nat * bytes)) :
  word 7 (payload_type p) -> word 32 (p_ssrc p) -> word 32 ts' -> word 16 seq ->
  (3 <= max_payload p)%nat -> Z.of_nat (max_payload p) < 2 ^ 64 ->
  forallb sendable (map snd au) = true -> (length au <= 64)%nat ->
  let '(pkts, seq') := packetize_h264 (annexb au) ts' seq p in
  depacketize pkts = sent_units (map snd au)
  /\ seq' = advance seq (length pkts)
  /\ (forall k pkt, pkts !! k = Some pkt ->
        (length pkt <= 12 + max_payload p)%nat
        /\ exists h, parse pkt = Some (Some h) /\ pt h = payload_type p /\ ssrc h = p_ssrc p /\ ts h = ts'
                     /\ seqno h = advance seq k /\ marker h = (S k =? length pkts)%nat).
Proof.
  intros Hpt Hss Hts Hs Hmax Hmax64 Hn Hlen.
  destruct (packetize_stamped p ts' seq au Hs Hmax Hmax64 Hn Hlen) as (l & -> & Hl & Hm & _ & _ & Hr).
  rewrite length_stamp. split; [|split; [done|]].
  - unfold depacketize. rewrite payloads_stamped, Hr by done. done.
  - intros k pkt Hk. rewrite stamp_lookup in Hk by done. destruct (l !! k) as [[m pl]|] eqn:El; [|done].
    change (Some (header p (advance seq k) ts' m ++ pl) = Some pkt) in Hk. apply (inj Some) in Hk as <-. split.
    + rewrite length_app. change (length (header p (advance seq k) ts' m)) with 12%nat. apply Nat.add_le_mono_l.
      rewrite Forall_lookup in Hl. apply (Hl k). change (map snd l) with (snd <$> l). by rewrite list_lookup_fmap, El.
    + unfold header. rewrite parse_written by (done || apply word_advance). eexists. split; [done|]. cbn. repeat (split; [done|]).
      assert (Em : map fst l !! k = Some m) by (change (map fst l) with (fst <$> l); by rewrite list_lookup_fmap, El).
      rewrite Hm in Em. pose proof (lookup_lt_Some _ _ _ El). by apply marker_at in Em as ->.
Qed.

Definition small_budget : RtpParams := {| payload_type := 102; p_ssrc := 0xcafe; max_payload := 4 |}.
Definition small_unit : list (nat * bytes) :=
  [(1%nat, [0x09; 0xf0]); (1%nat, [0x67; 0x42; 0x1f]); (0%nat, [0x65; 1; 2; 3; 4; 5; 6]); (0%nat, [0x09; 0x10])].

Lemma packetize_roundtrip_witness :
  let '(pkts, seq') := packetize_h264 (annexb small_unit) 90000 65534 small_budget in
  depacketize pkts = [[0x67; 0x42; 0x1f]; [0x65; 1; 2; 3; 4; 5; 6]] /\ seq' = advance 65534 (length pkts).
Proof.
  assert (H : word 7 (payload_type small_budget) /\ word 32 (p_ssrc small_budget) /\ word 32 90000 /\ word 16 65534)
    by (split; [|split; [|split]]; by vm_compute).
  destruct H as (H1 & H2 & H3 & H4).
  assert (H5 : (3 <= max_payload small_budget)%nat) by (apply Nat.leb_le; by vm_compute).
  assert (H6 : Z.of_nat (max_payload small_budget) < 2 ^ 64) by by vm_compute.
  assert (H7 : forallb sendable (map snd small_unit) = true) by by vm_compute.
  assert (H8 : (length small_unit <= 64)%nat) by (apply Nat.leb_le; by vm_compute).
  pose proof (packetize_roundtrip small_budget 90000 65534 small_unit H1 H2 H3 H4 H5 H6 H7 H8) as P.
  destruct (packetize_h264 _ _ _ _) as [pkts seq']. destruct P as (P & Q & _). rewrite P. split; [by vm_compute|exact Q].
Defined.

(** The sequence number wraps inside this access unit. *)
Example small_unit_packets :
  map (fun pkt => (rd16 pkt 2, payload_of pkt)) (packetize_h264 (annexb small_unit) 90000 65534 small_budget).1
  = [(65534, [0x67; 0x42; 0x1f]); (65535, [0x7c; 0x85; 1; 2]); (0, [0x7c; 0x05; 3; 4]); (1, [0x7c; 0x45; 5; 6])].
Proof. by vm_compute. Qed.
