(* ===== verification/Srtp.v ===== *)
(** * SRTP and SRTCP

    [app/webrtc/srtp.{hpp,cpp}], profile SRTP_AES128_CM_HMAC_SHA1_80: key
    derivation, counter mode, the rollover counter and the replay window per
    SSRC, protection and its inverse for RTP and RTCP.  Composed of [Aes.encrypt],
    [Sha1.hmac_sha1] and [Rtp.header_length].

    [false] is [None]; a packet that was refused is not used by the callers, so
    what is left of it is not part of the result. *)

From S2P Require Import Prelude Text Bytes Sha1 Aes Rtp.

(** ** Counter mode *)

Definition ctr_block (iv : bytes) (n : Z) : bytes := take 14 iv ++ be16 n.

(** One round per block of 16 octets; [n] is the counter of the first. *)
Fixpoint cm_blocks (fuel : nat) (key : list Z) (iv : bytes) (n : Z) (buf : bytes) : bytes :=
  match fuel, buf with
  | S fuel, _ :: _ =>
      let ks := encrypt key (ctr_block iv (u16 n)) in
      xor_with ks (take 16 buf) ++ cm_blocks fuel key iv (n + 1) (drop 16 buf)
  | _, _ => buf
  end.

Definition cm_xor (key : list Z) (iv buf : bytes) : bytes := cm_blocks (length buf) key iv 0 buf.

(** [iv[pos + i] ^= l[i]]. *)
Definition xor_at (pos : nat) (l iv : bytes) : bytes :=
  take pos iv ++ xor_with l (take (length l) (drop pos iv)) ++ drop (pos + length l) iv.

Definition make_iv (salt : bytes) (ssrc index48 : Z) : bytes :=
  xor_at 8 (be 6 index48) (xor_at 4 (be32 ssrc) (salt ++ [0; 0])).

Definition aes_cm_keystream (key : list Z) (iv16 : bytes) (len : nat) : bytes := cm_xor key iv16 (repeat 0 len).

Record SrtpKey := {
  master_key : bytes;
  master_salt : bytes;
}.

Definition srtp_kdf (mk : SrtpKey) (label : Z) (out_len : nat) : bytes :=
  cm_xor (Aes128 (master_key mk)) (xor_at 7 [label] (master_salt mk ++ [0; 0])) (repeat 0 out_len).

(** [SrtpSession::Dir]. *)
Record Dir := {
  cipher : list Z;
  d_salt : bytes;
  auth : bytes;
}.

Definition make_dir (mk : SrtpKey) (rtcp : bool) : Dir := {|
  cipher := Aes128 (srtp_kdf mk (if rtcp then 3 else 0) 16);
  auth := srtp_kdf mk (if rtcp then 4 else 1) 20;
  d_salt := srtp_kdf mk (if rtcp then 5 else 2) 14;
|}.

(** ** Streams and their slots *)

Record OutSeq := {
  o_ssrc : Z;
  o_roc : Z;
  o_last : Z;
  o_seen : bool;
}.

Record InSeq := {
  i_ssrc : Z;
  i_roc : Z;
  i_high : Z;
  i_seen : bool;
  win_high : Z;
  win_mask : Z;
}.

Definition kStreams : nat := 4.

Definition OutSeq0 (x : Z) : OutSeq := {| o_ssrc := x; o_roc := 0; o_last := 0; o_seen := false |}.
Definition InSeq0 (x : Z) : InSeq :=
  {| i_ssrc := x; i_roc := 0; i_high := 0; i_seen := false; win_high := 0; win_mask := 0 |}.

(** What the template [slot] asks of its element. *)
Class Stream (T : Type) := {
  seen : T -> bool;
  s_ssrc : T -> Z;
  set_ssrc : Z -> T -> T;
  fresh : Z -> T;
}.

#[export] Instance stream_out : Stream OutSeq := {|
  seen := o_seen;
  s_ssrc := o_ssrc;
  set_ssrc x e := {| o_ssrc := x; o_roc := o_roc e; o_last := o_last e; o_seen := o_seen e |};
  fresh := OutSeq0;
|}.

#[export] Instance stream_in : Stream InSeq := {|
  seen := i_seen;
  s_ssrc := i_ssrc;
  set_ssrc x e := {| i_ssrc := x; i_roc := i_roc e; i_high := i_high e; i_seen := i_seen e;
                     win_high := win_high e; win_mask := win_mask e |};
  fresh := InSeq0;
|}.

Fixpoint first_index {T} (f : T -> bool) (a : list T) : option nat :=
  match a with
  | [] => None
  | e :: a => if f e then Some 0%nat else option_map S (first_index f a)
  end.

(** The array as [slot] leaves it, and the index of the reference it returns. *)
Definition slot {T} `{Stream T} (a : list T) (ssrc : Z) : list T * nat :=
  match first_index (fun e => seen e && (s_ssrc e =? ssrc)) a with
  | Some i => (a, i)
  | None =>
      match first_index (fun e => negb (seen e)) a with
      | Some i => (alter (set_ssrc ssrc) i a, i)
      | None => (<[0%nat := fresh ssrc]> a, 0%nat)
      end
  end.

(** ** The session *)

Record SrtpSession := {
  rtp_out_ : Dir;
  rtcp_out_ : Dir;
  rtcp_in_ : Dir;
  rtp_in_ : Dir;
  out_ : list OutSeq;
  in_ : list InSeq;
  rtcp_index_ : Z;
  in_replay_high_ : Z;
  in_replay_mask_ : Z;
}.

#[export] Instance eta_SrtpSession : Settable SrtpSession := fun s =>
  Build_SrtpSession (rtp_out_ s) (rtcp_out_ s) (rtcp_in_ s) (rtp_in_ s) (out_ s) (in_ s) (rtcp_index_ s)
    (in_replay_high_ s) (in_replay_mask_ s).
#[export] Instance set_out_ : Setter out_.
Proof. derive_setter. Defined.
#[export] Instance set_in_ : Setter in_.
Proof. derive_setter. Defined.
#[export] Instance set_rtcp_index_ : Setter rtcp_index_.
Proof. derive_setter. Defined.
#[export] Instance set_in_replay_high_ : Setter in_replay_high_.
Proof. derive_setter. Defined.
#[export] Instance set_in_replay_mask_ : Setter in_replay_mask_.
Proof. derive_setter. Defined.

Definition make_session (out in' : SrtpKey) : SrtpSession := {|
  rtp_out_ := make_dir out false;
  rtcp_out_ := make_dir out true;
  rtcp_in_ := make_dir in' true;
  rtp_in_ := make_dir in' false;
  out_ := repeat (OutSeq0 0) kStreams;
  in_ := repeat (InSeq0 0) kStreams;
  rtcp_index_ := 0;
  in_replay_high_ := 0;
  in_replay_mask_ := 0;
|}.

(** [((uint64_t)roc << 16) | seq]. *)
Definition index_of (roc seq : Z) : Z := Z.lor (Z.shiftl roc 16) seq.

(** *** RTP out *)

Definition tag_of (d : Dir) (m : bytes) : bytes := take 10 (hmac_sha1 (auth d) m).

(** What [protect_rtp] does with the slot: its next state. *)
Definition out_step (st : OutSeq) (seq : Z) : OutSeq :=
  let wrapped := o_seen st && (seq <? o_last st) && (0x8000 <? u16 (o_last st - seq)) in
  {| o_ssrc := o_ssrc st; o_roc := if wrapped then u32 (o_roc st + 1) else o_roc st; o_last := seq; o_seen := true |}.

Definition protect_rtp (pkt : bytes) (s : SrtpSession) : option bytes * SrtpSession :=
  if (length pkt <? 12)%nat then (None, s) else
  let ssrc := rd32 pkt 8 in
  let seq := rd16 pkt 2 in
  let '(a, i) := slot (out_ s) ssrc in
  let st := out_step (nth i a (OutSeq0 0)) seq in
  let roc := o_roc st in
  let index := index_of roc seq in
  let d := rtp_out_ s in
  let pkt := take 12 pkt ++ cm_xor (cipher d) (make_iv (d_salt d) ssrc index) (drop 12 pkt) in
  (Some (pkt ++ tag_of d (pkt ++ be32 roc)), s <| out_ := <[i := st]> a |>).

(** *** RTP in *)

(** RFC 3711, appendix A: the rollover this [seq] most likely belongs to. *)
Definition estimate (st : InSeq) (seq : Z) : Z :=
  if i_seen st then
    if i_high st <? 32768
    then if (32768 <? seq - i_high st) && (0 <? i_roc st) then u32 (i_roc st - 1) else i_roc st
    else if seq <? i_high st - 32768 then u32 (i_roc st + 1) else i_roc st
  else i_roc st.

(** The packet was seen before, or is behind the window. *)
Definition replayed (high mask index : Z) : bool :=
  if index <=? high then
    let back := u64 (high - index) in
    if 64 <=? back then true else negb (Z.land mask (u64 (Z.shiftl 1 back)) =? 0)
  else false.

Definition in_step (st : InSeq) (v seq index : Z) : InSeq :=
  if negb (i_seen st) then
    {| i_ssrc := i_ssrc st; i_roc := v; i_high := seq; i_seen := true; win_high := index; win_mask := 1 |}
  else
    let '(roc, high) :=
      if v =? u32 (i_roc st + 1) then (v, seq)
      else if (v =? i_roc st) && (i_high st <? seq) then (i_roc st, seq) else (i_roc st, i_high st) in
    if win_high st <? index then
      let shift := u64 (index - win_high st) in
      {| i_ssrc := i_ssrc st; i_roc := roc; i_high := high; i_seen := true; win_high := index;
         win_mask := if 64 <=? shift then 1 else Z.lor (u64 (Z.shiftl (win_mask st) shift)) 1 |}
    else
      {| i_ssrc := i_ssrc st; i_roc := roc; i_high := high; i_seen := true; win_high := win_high st;
         win_mask := Z.lor (win_mask st) (u64 (Z.shiftl 1 (u64 (win_high st - index)))) |}.

(** [unprotect_rtp] up to the advance of the state: the index and the length of
    the header of an authentic packet that is no replay. *)
Definition authenticate (pkt : bytes) (s : SrtpSession) : option (Z * nat) * SrtpSession :=
  if (length pkt <? 12 + 10)%nat then (None, s) else
  let tag_at := (length pkt - 10)%nat in
  match header_length (take tag_at pkt) with
  | None | Some O => (None, s)
  | Some hdr =>
      let ssrc := rd32 pkt 8 in
      let seq := rd16 pkt 2 in
      let '(a, i) := slot (in_ s) ssrc in
      let s := s <| in_ := a |> in
      let st := nth i a (InSeq0 0) in
      let v := estimate st seq in
      let index := index_of v seq in
      if (if i_seen st then replayed (win_high st) (win_mask st) index else false) then (None, s) else
      if negb (bool_decide (tag_of (rtp_in_ s) (take tag_at pkt ++ be32 v) = drop tag_at pkt)) then (None, s) else
      (Some (index, hdr), s <| in_ := <[i := in_step st v seq index]> a |>)
  end.

(** The rest: decryption of what is behind the header, and the padding. *)
Definition decrypt (d : Dir) (pkt : bytes) (index : Z) (hdr : nat) : option (bytes * nat) :=
  let tag_at := (length pkt - 10)%nat in
  let iv := make_iv (d_salt d) (rd32 pkt 8) index in
  let pkt := take hdr pkt ++ cm_xor (cipher d) iv (drop hdr (take tag_at pkt)) in
  if negb (Z.land (octet_at pkt 0) 0x20 =? 0) && (hdr <? length pkt)%nat then
    let pad := Z.to_nat (octet_at pkt (length pkt - 1)) in
    if (pad =? 0)%nat || (length pkt - hdr <? pad)%nat then None
    else Some (take (length pkt - pad) pkt, hdr)
  else Some (pkt, hdr).

Definition unprotect_rtp (pkt : bytes) (s : SrtpSession) : option (bytes * nat) * SrtpSession :=
  match authenticate pkt s with
  | (Some (index, hdr), s) => (decrypt (rtp_in_ s) pkt index hdr, s)
  | (None, s) => (None, s)
  end.

(** *** RTCP *)

Definition protect_rtcp (pkt : bytes) (s : SrtpSession) : option bytes * SrtpSession :=
  if (length pkt <? 8)%nat then (None, s) else
  let ssrc := rd32 pkt 4 in
  let s := s <| rtcp_index_ := u32 (rtcp_index_ s + 1) |> in
  let index := Z.land (rtcp_index_ s) 0x7fffffff in
  let d := rtcp_out_ s in
  let pkt := take 8 pkt ++ cm_xor (cipher d) (make_iv (d_salt d) ssrc index) (drop 8 pkt) in
  let pkt := pkt ++ be32 (Z.lor 0x80000000 index) in
  (Some (pkt ++ tag_of d pkt), s).

Definition unprotect_rtcp (pkt : bytes) (s : SrtpSession) : option bytes * SrtpSession :=
  if (length pkt <? 8 + 4 + 10)%nat then (None, s) else
  let tag_at := (length pkt - 10)%nat in
  let d := rtcp_in_ s in
  if negb (bool_decide (tag_of d (take tag_at pkt) = drop tag_at pkt)) then (None, s) else
  let ei_at := (tag_at - 4)%nat in
  let ei := rd32 pkt ei_at in
  let index := Z.land ei 0x7fffffff in
  let high := in_replay_high_ s in
  let mask := in_replay_mask_ s in
  let accept (s : SrtpSession) :=
    let body := drop 8 (take ei_at pkt) in
    let body := if negb (Z.land ei 0x80000000 =? 0)
                then cm_xor (cipher d) (make_iv (d_salt d) (rd32 pkt 4) index) body else body in
    (Some (take 8 pkt ++ body), s) in
  if high <? index then
    let shift := u64 (index - high) in
    let mask := if 64 <=? shift then 0 else u64 (Z.shiftl mask shift) in
    accept (s <| in_replay_mask_ := Z.lor mask 1 |> <| in_replay_high_ := index |>)
  else
    let back := u64 (high - index) in
    if 64 <=? back then (None, s) else
    let bit := u64 (Z.shiftl 1 back) in
    if negb (Z.land mask bit =? 0) then (None, s)
    else accept (s <| in_replay_mask_ := Z.lor mask bit |>).
