(* ===== verification/SrtpFacts.v ===== *)
(** * SRTP: counter mode, slots and windows

    What the parts of [Srtp] do, for the theorems of SrtpSpec: counter mode is
    its own inverse; the array of slots is a finite map from SSRC to stream as
    long as one of them is free; a mask of 64 bits below the highest index is the
    set of the indices that were accepted. *)

From S2P Require Import Prelude Text Bytes Sha1 Aes Rtp Srtp.

(** ** Counter mode *)

Definition key_ok (rk : list Z) : Prop := forall b, Aes.state b -> Aes.state (encrypt rk b).

Lemma key_ok_Aes128 key : length key = 16%nat -> octets key -> key_ok (Aes128 key).
Proof. intros Hl Ho b Hb. by apply encrypt_state. Qed.

Lemma ctr_block_state iv n : Aes.state iv -> Aes.state (ctr_block iv n).
Proof.
  intros [Hl Ho]. unfold ctr_block. split.
  - rewrite length_app, length_take, Hl. done.
  - apply octets_app. auto with machino.
Qed.

Section Counter.
Context (key : list Z) (iv : bytes).
Hypothesis Hkey : key_ok key.
Hypothesis Hiv : Aes.state iv.

Let ks (n : Z) : bytes := encrypt key (ctr_block iv (u16 n)).

Lemma ks_state n : Aes.state (ks n).
Proof. by apply Hkey, ctr_block_state. Qed.

Lemma cm_block_length n (buf : bytes) : length (xor_with (ks n) (take 16 buf)) = length (take 16 buf).
Proof. apply length_xor_with. rewrite length_take, (proj1 (ks_state n)). lia. Qed.

Lemma length_cm_blocks fuel : forall n buf, length (cm_blocks fuel key iv n buf) = length buf.
Proof.
  induction fuel as [|fuel IH]; intros n [|b buf]; try done. cbn [cm_blocks].
  rewrite length_app, IH. fold (ks n). rewrite cm_block_length, length_take, length_drop. lia.
Qed.

Lemma cm_blocks_twice fuel : forall n buf, cm_blocks fuel key iv n (cm_blocks fuel key iv n buf) = buf.
Proof.
  induction fuel as [|fuel IH]; intros n buf; [done|]. destruct buf as [|b buf]; [done|].
  set (m := b :: buf). assert (Hm : cm_blocks (S fuel) key iv n m
    = xor_with (ks n) (take 16 m) ++ cm_blocks fuel key iv (n + 1) (drop 16 m)) by done.
  rewrite Hm. set (h := xor_with (ks n) (take 16 m)). set (t := cm_blocks fuel key iv (n + 1) (drop 16 m)).
  assert (Hh : length h = Nat.min 16 (length m)) by (unfold h; rewrite cm_block_length, length_take; done).
  assert (Ht : (length m <= 16)%nat -> t = []).
  { intros Hle. apply length_zero_iff_nil. unfold t. rewrite length_cm_blocks, length_drop. lia. }
  assert (E1 : take 16 (h ++ t) = h /\ drop 16 (h ++ t) = t).
  { destruct (Nat.le_gt_cases (length m) 16) as [Hle|Hgt].
    - rewrite (Ht Hle), app_nil_r, take_ge, drop_ge by lia. done.
    - assert (length h = 16%nat) as <- by lia. by rewrite take_app_length, drop_app_length. }
  destruct (h ++ t) as [|c l] eqn:Ec.
  - exfalso. apply app_eq_nil in Ec as [-> _]. cbn in Hh. lia.
  - cbn [cm_blocks]. fold (ks n). rewrite (proj1 E1), (proj2 E1). unfold t. rewrite IH. unfold h.
    rewrite xor_with_twice by (rewrite length_take, (proj1 (ks_state n)); lia). apply take_drop.
Qed.

Lemma octets_cm_blocks fuel : forall n buf, octets buf -> octets (cm_blocks fuel key iv n buf).
Proof.
  induction fuel as [|fuel IH]; intros n buf Hb; [done|]. destruct buf as [|b buf]; [done|]. cbn [cm_blocks].
  apply octets_app. split; [apply octets_xor_with; [apply ks_state|by apply octets_take]|].
  apply IH. by apply octets_drop.
Qed.

Lemma length_cm_xor buf : length (cm_xor key iv buf) = length buf.
Proof. apply length_cm_blocks. Qed.
Lemma cm_xor_twice buf : cm_xor key iv (cm_xor key iv buf) = buf.
Proof. unfold cm_xor. rewrite length_cm_blocks. apply cm_blocks_twice. Qed.
Lemma octets_cm_xor buf : octets buf -> octets (cm_xor key iv buf).
Proof. apply octets_cm_blocks. Qed.
End Counter.

Lemma xor_at_ok pos l iv : (pos + length l <= length iv)%nat -> octets l -> octets iv ->
  length (xor_at pos l iv) = length iv /\ octets (xor_at pos l iv).
Proof.
  intros Hl Ho Hi. unfold xor_at. split.
  - rewrite !length_app, length_xor_with, !length_take, !length_drop; [lia|]. rewrite length_take. lia.
  - rewrite !octets_app. split; [by apply octets_take|]. split; [|by apply octets_drop].
    apply octets_xor_with; [done|]. by apply octets_take, octets_drop.
Qed.

Definition salt_ok (salt : bytes) : Prop := length salt = 14%nat /\ octets salt.

Lemma salt_iv salt : salt_ok salt -> Aes.state (salt ++ [0; 0]).
Proof.
  intros [Hl Ho]. split; [rewrite length_app, Hl; done|]. apply octets_app. split; [done|]. by repeat constructor.
Qed.

Lemma make_iv_state salt ssrc index : salt_ok salt -> Aes.state (make_iv salt ssrc index).
Proof.
  intros Hs. destruct (salt_iv salt Hs) as [Hl Ho]. unfold make_iv, Aes.state.
  destruct (xor_at_ok 4 (be32 ssrc) (salt ++ [0; 0])) as [Hl4 Ho4]; [cbn; lia|auto with machino|done|].
  destruct (xor_at_ok 8 (be 6 index) (xor_at 4 (be32 ssrc) (salt ++ [0; 0]))) as [Hl8 Ho8];
    [rewrite length_be, Hl4; lia|auto with machino|done|]. by rewrite Hl8, Hl4.
Qed.

Definition key_material (k : SrtpKey) : Prop :=
  length (master_key k) = 16%nat /\ octets (master_key k) /\ salt_ok (master_salt k).

Definition dir_ok (d : Dir) : Prop := key_ok (cipher d) /\ salt_ok (d_salt d).

Lemma srtp_kdf_ok k label n : key_material k -> octet label ->
  length (srtp_kdf k label n) = n /\ octets (srtp_kdf k label n).
Proof.
  intros (Hl & Ho & Hs) Hlab. destruct (salt_iv _ Hs) as [Hl' Ho'].
  destruct (xor_at_ok 7 [label] (master_salt k ++ [0; 0])) as [Hl7 Ho7]; [cbn; lia|by apply Forall_singleton|done|].
  assert (Hst : Aes.state (xor_at 7 [label] (master_salt k ++ [0; 0]))) by (split; [by rewrite Hl7|done]).
  pose proof (key_ok_Aes128 _ Hl Ho) as Hk. unfold srtp_kdf. split.
  - by rewrite length_cm_xor, repeat_length.
  - apply octets_cm_xor; [done..|]. apply List.Forall_forall. intros x Hx. apply repeat_spec in Hx as ->. done.
Qed.

Lemma make_dir_ok k rtcp : key_material k -> dir_ok (make_dir k rtcp).
Proof.
  intros Hk. unfold make_dir. split; cbn [cipher d_salt].
  - destruct (srtp_kdf_ok k (if rtcp then 3 else 0) 16 Hk) as [Hl Ho]; [by destruct rtcp|]. by apply key_ok_Aes128.
  - apply srtp_kdf_ok; [done|]. by destruct rtcp.
Qed.

Lemma tag_of_length d m : length (tag_of d m) = 10%nat.
Proof. unfold tag_of. rewrite length_take, length_hmac. done. Qed.

(** The cipher of a packet applied twice. *)
Lemma cm_xor_iv_twice d x i buf : dir_ok d ->
  cm_xor (cipher d) (make_iv (d_salt d) x i) (cm_xor (cipher d) (make_iv (d_salt d) x i) buf) = buf.
Proof. intros [Hk Hs]. apply cm_xor_twice; [done|by apply make_iv_state]. Qed.

Lemma length_cm_xor_iv d x i buf : dir_ok d -> length (cm_xor (cipher d) (make_iv (d_salt d) x i) buf) = length buf.
Proof. intros [Hk Hs]. apply length_cm_xor; [done|by apply make_iv_state]. Qed.

Lemma index_of_value roc seq : word 16 seq -> index_of roc seq = 65536 * roc + seq.
Proof.
  intros H. unfold index_of. rewrite (lor_add 16) by (try apply shiftl_mod; done || lia).
  rewrite Z.shiftl_mul_pow2 by lia. lia.
Qed.

(** ** Slots *)

(** What the two instances of [Stream] satisfy. *)
Class StreamLaws (T : Type) `{Stream T} := {
  seen_fresh x : seen (fresh x) = false;
  ssrc_fresh x : s_ssrc (fresh x) = x;
  set_ssrc_fresh x y : set_ssrc x (fresh y) = fresh x;
}.

#[export] Instance stream_out_laws : StreamLaws OutSeq.
Proof. by split. Qed.
#[export] Instance stream_in_laws : StreamLaws InSeq.
Proof. by split. Qed.

Section Slots.
Context {T : Type} `{StreamLaws T}.
Implicit Types (a : list T) (e : T) (x y : Z).

Definition is_for x e : bool := seen e && (s_ssrc e =? x).

(** The array as a map. *)
Definition stream_at a x : option T := List.find (is_for x) a.

Definition count_seen a : nat := length (List.filter seen a).

(** An entry that holds nothing is in its initial state. *)
Definition blank_ok a : Prop := forall i e, a !! i = Some e -> seen e = false -> exists y, e = fresh y.

Lemma first_index_some (f : T -> bool) a i : first_index f a = Some i ->
  exists e, a !! i = Some e /\ f e = true /\ (forall j e', (j < i)%nat -> a !! j = Some e' -> f e' = false).
Proof.
  revert i. induction a as [|e a IH]; intros i; cbn [first_index]; [done|]. destruct (f e) eqn:E.
  - intros [= <-]. exists e. split; [done|]. split; [done|]. intros; lia.
  - destruct (first_index f a) as [k|]; [|done]. intros [= <-]. destruct (IH k eq_refl) as (e' & H1 & H2 & H3).
    exists e'. split; [done|]. split; [done|]. intros [|j] e'' Hj Ha; [by injection Ha as <-|]. apply (H3 j); [lia|done].
Qed.

Lemma first_index_none (f : T -> bool) a : first_index f a = None -> forall i e, a !! i = Some e -> f e = false.
Proof.
  induction a as [|e a IH]; cbn [first_index]; [done|]. destruct (f e) eqn:E; [done|].
  destruct (first_index f a); [done|]. intros _ [|i] e' Ha; [by injection Ha as <-|]. by apply (IH eq_refl i).
Qed.

Lemma find_first (f : T -> bool) a i e : a !! i = Some e -> f e = true ->
  (forall j e', (j < i)%nat -> a !! j = Some e' -> f e' = false) -> List.find f a = Some e.
Proof.
  revert i. induction a as [|e0 a IH]; intros i Ha Hf Hb; [done|]. cbn [List.find]. destruct i as [|i].
  - injection Ha as ->. by rewrite Hf.
  - rewrite (Hb 0%nat e0 ltac:(lia) eq_refl). apply (IH i); [done..|]. intros j e' Hj He'. apply (Hb (S j)); [lia|done].
Qed.

Lemma find_nothing (f : T -> bool) a : (forall i e, a !! i = Some e -> f e = false) -> List.find f a = None.
Proof.
  induction a as [|e a IH]; intros Hf; [done|]. cbn [List.find]. rewrite (Hf 0%nat e eq_refl). apply IH.
  intros i e' He. by apply (Hf (S i)).
Qed.

Lemma find_other (f : T -> bool) a i e e' : a !! i = Some e -> f e = false -> f e' = false ->
  List.find f (<[i := e']> a) = List.find f a.
Proof.
  revert i. induction a as [|e0 a IH]; intros i Ha Hf Hf'; [done|]. destruct i as [|i].
  - injection Ha as ->. change (<[0%nat := e']> (e :: a)) with (e' :: a). cbn [List.find]. by rewrite Hf, Hf'.
  - change (<[S i := e']> (e0 :: a)) with (e0 :: <[i := e']> a). cbn [List.find]. by rewrite (IH i Ha Hf Hf').
Qed.

Lemma count_insert a i e e' : a !! i = Some e ->
  (count_seen (<[i := e']> a) + (if seen e then 1 else 0) = count_seen a + (if seen e' then 1 else 0))%nat.
Proof.
  unfold count_seen. revert i. induction a as [|e0 a IH]; intros i Ha; [done|]. destruct i as [|i].
  - injection Ha as ->. change (<[0%nat := e']> (e :: a)) with (e' :: a). cbn [List.filter].
    destruct (seen e), (seen e'); cbn [length]; lia.
  - change (<[S i := e']> (e0 :: a)) with (e0 :: <[i := e']> a). cbn [List.filter]. specialize (IH i Ha).
    destruct (seen e0); cbn [length]; lia.
Qed.

Lemma count_full a : (forall i e, a !! i = Some e -> seen e = true) -> count_seen a = length a.
Proof.
  unfold count_seen. induction a as [|e a IH]; intros Hf; [done|]. cbn [List.filter].
  rewrite (Hf 0%nat e eq_refl). cbn [length]. f_equal. apply IH. intros i e' He. by apply (Hf (S i)).
Qed.

Lemma is_for_seen x e : is_for x e = true <-> seen e = true /\ s_ssrc e = x.
Proof. unfold is_for. by rewrite andb_true_iff, Z.eqb_eq. Qed.

Lemma stream_at_is a x e : stream_at a x = Some e -> seen e = true /\ s_ssrc e = x.
Proof. intros E. apply List.find_some in E as [_ E]. by apply is_for_seen. Qed.

Lemma blank_insert a i e : blank_ok a -> (seen e = false -> exists y, e = fresh y) -> blank_ok (<[i := e]> a).
Proof.
  intros Hb He j e' Hj Hs. destruct (Nat.eq_dec i j) as [->|Hne].
  - destruct (decide (j < length a)%nat) as [Hlt|Hge].
    + rewrite list_lookup_insert_eq in Hj by done. injection Hj as <-. by apply He.
    + rewrite list_insert_ge in Hj by lia. by apply (Hb j).
  - rewrite list_lookup_insert_ne in Hj by done. by apply (Hb j).
Qed.

(** An entry that holds nothing, written over by another. *)
Lemma stream_at_unseen a i e e' : a !! i = Some e -> seen e = false -> seen e' = false ->
  forall y, stream_at (<[i := e']> a) y = stream_at a y.
Proof. intros Ha He He' y. apply (find_other _ _ _ e); [done|..]; unfold is_for; by rewrite ?He, ?He'. Qed.

Lemma slot_found a x e : stream_at a x = Some e -> exists i, slot a x = (a, i) /\ a !! i = Some e
  /\ (forall j e', (j < i)%nat -> a !! j = Some e' -> is_for x e' = false).
Proof.
  intros Ha. unfold slot, stream_at in *. fold (is_for x).
  destruct (first_index (is_for x) a) as [i|] eqn:E.
  - apply first_index_some in E as (e' & H1 & H2 & H3). exists i. split; [done|].
    rewrite (find_first _ _ _ _ H1 H2 H3) in Ha. by injection Ha as <-.
  - rewrite find_nothing in Ha by by apply first_index_none. done.
Qed.

Lemma slot_free a x : stream_at a x = None -> (count_seen a < length a)%nat -> exists i e,
  slot a x = (alter (set_ssrc x) i a, i) /\ a !! i = Some e /\ seen e = false
  /\ (forall j e', a !! j = Some e' -> is_for x e' = false).
Proof.
  intros Ha Hc. unfold slot, stream_at in *. fold (is_for x).
  destruct (first_index (is_for x) a) as [i|] eqn:E.
  - apply first_index_some in E as (e' & H1 & H2 & H3). by rewrite (find_first _ _ _ _ H1 H2 H3) in Ha.
  - destruct (first_index _ a) as [i|] eqn:E2 in |- *.
    + apply first_index_some in E2 as (e & H1 & H2 & _). exists i, e. split; [done|]. split; [done|].
      split; [by apply negb_true_iff|]. by apply first_index_none.
    + rewrite count_full in Hc; [lia|]. intros i e He. apply negb_false_iff. by apply (first_index_none _ _ E2 i).
Qed.

(** [slot] with room: the reference is to the stream's state, or to the state
    of a new stream, and writing it changes the map at that SSRC alone. *)
Lemma slot_spec a x : blank_ok a -> stream_at a x <> None \/ (count_seen a < length a)%nat ->
  exists a' i e, slot a x = (a', i) /\ a' !! i = Some e /\ e = default (fresh x) (stream_at a x)
  /\ length a' = length a /\ count_seen a' = count_seen a /\ blank_ok a' /\ (forall y, stream_at a' y = stream_at a y)
  /\ (forall e', seen e' = true -> s_ssrc e' = x ->
       (forall y, stream_at (<[i := e']> a') y = if y =? x then Some e' else stream_at a y)
       /\ blank_ok (<[i := e']> a')
       /\ count_seen (<[i := e']> a') = (count_seen a + if stream_at a x is Some _ then 0 else 1)%nat).
Proof.
  intros Hb Hroom. destruct (stream_at a x) as [e|] eqn:Ea.
  - destruct (slot_found a x e Ea) as (i & E & Hi & Hbefore). exists a, i, e.
    do 7 (split; [done|]). intros e' Hs Hx. destruct (stream_at_is _ _ _ Ea) as [Hse Hxe]. split; [|split].
    + intros y. destruct (Z.eqb_spec y x) as [->|Hy].
      * apply (find_first _ _ i); [by rewrite list_lookup_insert_eq by by eapply lookup_lt_Some|by apply is_for_seen|].
        intros j e2 Hj He2. rewrite list_lookup_insert_ne in He2 by lia. by apply (Hbefore j).
      * apply (find_other _ _ _ e); [done|..]; unfold is_for; rewrite ?Hxe, ?Hx; apply andb_false_iff; right; by apply Z.eqb_neq.
    + apply blank_insert; [done|]. by rewrite Hs.
    + pose proof (count_insert _ _ _ e' Hi) as C. rewrite Hse, Hs in C. lia.
  - destruct Hroom as [|Hroom]; [done|]. destruct (slot_free a x Ea Hroom) as (i & e & E & Hi & Hs & Hnone).
    destruct (Hb i e Hi Hs) as [y0 ->]. pose proof (lookup_lt_Some _ _ _ Hi) as Hlt.
    assert (Ei : alter (set_ssrc x) i a = <[i := fresh x]> a).
    { apply list_eq. intros j. destruct (Nat.eq_dec i j) as [<-|Hne].
      - rewrite list_lookup_alter_eq, list_lookup_insert_eq, Hi by done. cbn. by rewrite set_ssrc_fresh.
      - by rewrite list_lookup_alter_ne, list_lookup_insert_ne. }
    rewrite Ei in E. exists (<[i := fresh x]> a), i, (fresh x). split; [done|].
    split; [by rewrite list_lookup_insert_eq|]. split; [done|]. split; [apply length_insert|].
    split; [pose proof (count_insert _ _ _ (fresh x) Hi) as C; rewrite !seen_fresh in C; lia|].
    split; [apply blank_insert; [done|by exists x]|]. split; [apply (stream_at_unseen _ _ _ _ Hi); by rewrite ?seen_fresh|].
    intros e' Hs' Hx. rewrite list_insert_insert_eq. split; [|split].
    + intros y. destruct (Z.eqb_spec y x) as [->|Hy].
      * apply (find_first _ _ i); [by rewrite list_lookup_insert_eq|by apply is_for_seen|].
        intros j e2 Hj He2. rewrite list_lookup_insert_ne in He2 by lia. by apply (Hnone j).
      * apply (find_other _ _ _ (fresh y0)); [done|..]; unfold is_for; rewrite ?Hs, ?Hx; [done|]. apply andb_false_iff; right; by apply Z.eqb_neq, not_eq_sym.
    + apply blank_insert; [done|]. by rewrite Hs'.
    + pose proof (count_insert _ _ _ e' Hi) as C. rewrite Hs, Hs' in C. lia.
Qed.
End Slots.

(** ** The replay window *)

(** [acc] is the set of indices accepted so far. *)
Record window_ok (high mask : Z) (acc : list Z) : Prop := {
  wk_mask : word 64 mask;
  wk_high : forall i, i ∈ acc -> i <= high;
  wk_bits : forall b, 0 <= b < 64 -> Z.testbit mask b = bool_decide (high - b ∈ acc);
}.

Lemma window_empty : window_ok 0 0 [].
Proof.
  split; [done|intros i Hi; by apply elem_of_nil in Hi|]. intros b _. rewrite Z.bits_0. symmetry.
  apply bool_decide_eq_false. apply not_elem_of_nil.
Qed.

Lemma window_first i : window_ok i 1 [i].
Proof.
  split; [done|intros j Hj; apply list_elem_of_singleton in Hj; lia|]. intros b Hb.
  destruct (Z.eq_dec b 0) as [->|Hne].
  - symmetry. apply bool_decide_eq_true. apply list_elem_of_singleton. lia.
  - rewrite (word_bit 1 1) by (done || lia). symmetry. apply bool_decide_eq_false. rewrite list_elem_of_singleton. lia.
Qed.

(** [mask & (1ull << back)]. *)
Lemma mask_bit mask back : word 64 mask -> 0 <= back < 64 ->
  negb (Z.land mask (u64 (Z.shiftl 1 back)) =? 0) = Z.testbit mask back.
Proof.
  intros Hm Hb. rewrite wrap_small.
  2: { rewrite Z.shiftl_mul_pow2 by lia. split; [lia|]. rewrite Z.mul_1_l. apply Z.pow_lt_mono_r; lia. }
  rewrite Z.shiftl_mul_pow2, Z.mul_1_l by lia. destruct (Z.testbit mask back) eqn:E.
  - apply negb_true_iff, Z.eqb_neq. intros Z0. assert (B : Z.testbit (Z.land mask (2 ^ back)) back = true).
    { rewrite Z.land_spec, E, Z.pow2_bits_true by lia. done. } by rewrite Z0, Z.bits_0 in B.
  - apply negb_false_iff, Z.eqb_eq. apply Z.bits_inj'. intros j Hj. rewrite Z.land_spec, Z.pow2_bits_eqb, Z.bits_0 by lia.
    destruct (Z.eqb_spec back j) as [<-|]; [by rewrite E|apply andb_false_r].
Qed.

(** The test of both windows: an index is refused when it was accepted before,
    or when it is too far behind to know. *)
Lemma replayed_spec high mask acc index : window_ok high mask acc -> 0 <= index -> high < 2 ^ 63 ->
  replayed high mask index = true <-> high - 64 >= index \/ index ∈ acc.
Proof.
  intros W Hi Hh. unfold replayed. destruct (Z.leb_spec index high) as [Hle|Hgt].
  - rewrite wrap_small by lia. destruct (Z.leb_spec 64 (high - index)) as [Hb|Hb].
    + split; [intros _; left; lia|done].
    + rewrite mask_bit, (wk_bits _ _ _ W), bool_decide_eq_true by (lia || apply (wk_mask _ _ _ W)).
      replace (high - (high - index)) with index by lia. split; [by right|intros [?|?]; [lia|done]].
  - split; [done|]. intros [?|Hin]; [lia|]. apply (wk_high _ _ _ W) in Hin. lia.
Qed.

(** A higher index moves the window up. *)
Lemma window_up high mask acc index : window_ok high mask acc -> high < index < high + 2 ^ 63 ->
  let shift := u64 (index - high) in
  window_ok index (Z.lor (if 64 <=? shift then 0 else u64 (Z.shiftl mask shift)) 1) (index :: acc).
Proof.
  intros W Hi shift. unfold shift. rewrite wrap_small by lia. set (k := index - high).
  assert (Bits : forall b, 0 <= b < 64 -> Z.testbit (if 64 <=? k then 0 else u64 (Z.shiftl mask k)) b
    = (k <=? b) && bool_decide (index - b ∈ acc)).
  { intros b Hb. destruct (Z.leb_spec 64 k).
    - rewrite Z.bits_0. by destruct (Z.leb_spec k b); [lia|].
    - unfold wrap. rewrite Z.mod_pow2_bits_low, Z.shiftl_spec by lia. destruct (Z.leb_spec k b); cbn [andb].
      + rewrite (wk_bits _ _ _ W) by lia. by replace (high - (b - k)) with (index - b) by (unfold k; lia).
      + apply Z.testbit_neg_r. lia. }
  split.
  - apply word_lor; [lia| |done]. destruct (64 <=? k); [done|by apply word_wrap].
  - intros i [->|Hin]%elem_of_cons; [done|]. apply (wk_high _ _ _ W) in Hin. lia.
  - intros b Hb. rewrite Z.lor_spec, Bits by done. destruct (Z.eq_dec b 0) as [->|Hne].
    + rewrite orb_true_r. symmetry. apply bool_decide_eq_true, elem_of_cons. left. lia.
    + rewrite (word_bit 1 1), orb_false_r by (done || lia). rewrite (bool_decide_ext (index - b ∈ index :: acc) (index - b ∈ acc)).
      * destruct (Z.leb_spec k b); [done|]. symmetry. apply bool_decide_eq_false. intros Hin. apply (wk_high _ _ _ W) in Hin. lia.
      * rewrite elem_of_cons. split; [intros [?|?]; [lia|done]|by right].
Qed.

(** An index inside the window sets its bit. *)
Lemma window_in high mask acc index : window_ok high mask acc -> high - 64 < index <= high ->
  window_ok high (Z.lor mask (u64 (Z.shiftl 1 (u64 (high - index))))) (index :: acc).
Proof.
  intros W Hi. rewrite (wrap_small 64 (high - index)) by lia. rewrite wrap_small.
  2: { rewrite Z.shiftl_mul_pow2 by lia. split; [lia|]. rewrite Z.mul_1_l. apply Z.pow_lt_mono_r; lia. }
  rewrite Z.shiftl_mul_pow2, Z.mul_1_l by lia. split.
  - apply word_lor; [lia|apply (wk_mask _ _ _ W)|]. split; [lia|]. apply Z.pow_lt_mono_r; lia.
  - intros i [->|Hin]%elem_of_cons; [lia|]. by apply (wk_high _ _ _ W).
  - intros b Hb. rewrite Z.lor_spec, Z.pow2_bits_eqb, (wk_bits _ _ _ W) by lia.
    destruct (Z.eqb_spec (high - index) b) as [<-|Hne].
    + rewrite orb_true_r. symmetry. apply bool_decide_eq_true, elem_of_cons. left. lia.
    + rewrite orb_false_r. apply bool_decide_ext. rewrite elem_of_cons. split; [by right|intros [?|?]; [lia|done]].
Qed.
