(* ===== verification/SrtpSpec.v ===== *)
(** * SRTP: what the session guarantees

    The state of a stream against the set of indices it accepted, the sealed
    packet as the contract between sender and receiver, and the theorems: what
    was sent arrives, across rollovers, losses and reordering; nothing is
    accepted twice; what is accepted carries a valid tag. *)

From S2P Require Import Prelude Text Bytes Sha1 Aes Rtp Srtp SrtpFacts.

(** ** Slots that hold a known set of streams *)

Record slots_ok {T} `{Stream T} (a : list T) (L : list Z) : Prop := {
  so_blank : blank_ok a;
  so_length : length a = kStreams;
  so_nodup : NoDup L;
  so_count : count_seen a = length L;
  so_streams : forall y, y ∈ L <-> is_Some (stream_at a y);
}.

Lemma slots_initial {T} `{StreamLaws T} x : slots_ok (repeat (fresh x) kStreams) [].
Proof.
  assert (B : forall i e, repeat (fresh x) kStreams !! i = Some e -> e = fresh x).
  { intros i e Hi. apply list_elem_of_lookup_2, list_elem_of_In, repeat_spec in Hi. done. }
  split; [intros i e Hi _; rewrite (B i e Hi); by exists x|done|constructor| |].
  - unfold count_seen, kStreams. cbn. by rewrite !seen_fresh.
  - intros y. split; [intros Hy; by apply elem_of_nil in Hy|]. intros [e He].
    unfold stream_at in He. rewrite find_nothing in He; [done|]. intros i e' Hi. rewrite (B i e' Hi). unfold is_for.
    by rewrite seen_fresh.
Qed.

Lemma slots_step {T} `{StreamLaws T} (a : list T) L x (d : T) : slots_ok a L -> x ∈ L \/ (length L < kStreams)%nat ->
  exists a' i, slot a x = (a', i) /\ nth i a' d = default (fresh x) (stream_at a x)
  /\ slots_ok a' L /\ (forall y, stream_at a' y = stream_at a y)
  /\ (forall e', seen e' = true -> s_ssrc e' = x ->
       slots_ok (<[i := e']> a') (if decide (x ∈ L) then L else x :: L)
       /\ forall y, stream_at (<[i := e']> a') y = if y =? x then Some e' else stream_at a y).
Proof.
  intros [Hb Hl Hn Hc Hs] Hroom.
  destruct (slot_spec a x Hb) as (a' & i & e & E & Hi & He & Hl' & Hc' & Hb' & Hs' & Hup).
  { destruct Hroom as [Hx|Hlt]; [left; apply Hs in Hx as [? ->]; done|right; rewrite Hl; lia]. }
  exists a', i. split; [done|]. split; [rewrite <- He; by apply nth_lookup_Some|].
  split; [split; [done|congruence|done|congruence|intros y; by rewrite Hs']|]. split; [done|].
  intros e' Hse Hxe. destruct (Hup e' Hse Hxe) as (H1 & H2 & H3). split; [|done].
  split; [done|by rewrite length_insert, Hl'| | |].
  - case_decide; [done|by constructor].
  - rewrite H3, Hc. destruct (stream_at a x) as [e0|] eqn:Ex.
    + rewrite decide_True by (apply Hs; by exists e0). lia.
    + rewrite decide_False; [cbn; lia|]. intros Hx. apply Hs in Hx as [? Hx]. congruence.
  - intros y. rewrite H1. destruct (Z.eqb_spec y x) as [->|Hy].
    + split; [by eexists|]. intros _. case_decide; [done|]. apply elem_of_cons. by left.
    + rewrite <- Hs. case_decide; [done|]. rewrite elem_of_cons. split; [intros [?|?]; done|by right].
Qed.

(** ** One stream *)

(** The index is [roc || seq]. *)
Lemma index_split J : 0 <= J -> index_of (J / 65536) (J mod 65536) = J.
Proof.
  intros HJ. rewrite index_of_value; [rewrite Z.add_comm; symmetry; rewrite Z.add_comm; apply Z.div_mod; lia|].
  apply Z.mod_pos_bound. lia.
Qed.

(** A receiving stream that accepted the indices [acc]. *)
Record in_ok (e : InSeq) (acc : list Z) : Prop := {
  ik_seen : i_seen e = true;
  ik_roc : word 32 (i_roc e);
  ik_high : word 16 (i_high e);
  ik_win : win_high e = index_of (i_roc e) (i_high e);
  ik_top : win_high e ∈ acc;
  ik_window : window_ok (win_high e) (win_mask e) acc;
}.

Lemma estimate_near e acc J : in_ok e acc -> 0 <= J < 2 ^ 48 -> win_high e - 32768 < J < win_high e + 32768 ->
  estimate e (J mod 65536) = J / 65536.
Proof.
  intros [Hs [Hr0 Hr1] [Hh0 Hh1] Hw _ _] HJ Hnear. rewrite index_of_value in Hw by done. rewrite Hw in Hnear. unfold estimate. rewrite Hs.
  pose proof (Z.div_mod J 65536 ltac:(lia)) as D. pose proof (Z.mod_pos_bound J 65536 ltac:(lia)) as M.
  set (q := J / 65536) in *. set (m := J mod 65536) in *. change (2 ^ 16) with 65536 in *. change (2 ^ 32) with 4294967296 in *.
  change (2 ^ 48) with 281474976710656 in *.
  destruct (Z.ltb_spec (i_high e) 32768).
  - destruct (Z.ltb_spec 32768 (m - i_high e)); cbn [andb].
    + destruct (Z.ltb_spec 0 (i_roc e)); [rewrite wrap_small by lia; lia|lia].
    + lia.
  - destruct (Z.ltb_spec m (i_high e - 32768)); [rewrite wrap_small by (change (2 ^ 32) with 4294967296; lia); lia|lia].
Qed.

Lemma estimate_word e acc seq : in_ok e acc -> word 32 (estimate e seq).
Proof.
  intros [Hs Hr _ _ _ _]. unfold estimate. rewrite Hs. repeat case_match; try done; by apply word_wrap.
Qed.

Lemma next_roc roc : 0 <= roc < 4294967296 -> u32 (roc + 1) = roc + 1 \/ (roc = 4294967295 /\ u32 (roc + 1) = 0).
Proof.
  intros H. destruct (Z.eq_dec roc 4294967295) as [->|]; [by right|left]. apply wrap_small. change (2 ^ 32) with 4294967296. lia.
Qed.

Lemma estimate_cases e acc seq : in_ok e acc ->
  estimate e seq = i_roc e
  \/ (estimate e seq = i_roc e - 1 /\ 0 < i_roc e /\ i_high e + 32768 < seq)
  \/ (estimate e seq = u32 (i_roc e + 1) /\ seq < i_high e - 32768).
Proof.
  intros [Hs [Hr0 Hr1] _ _ _ _]. unfold estimate. rewrite Hs.
  destruct (Z.ltb_spec (i_high e) 32768).
  - destruct (Z.ltb_spec 32768 (seq - i_high e)), (Z.ltb_spec 0 (i_roc e)); cbn [andb]; auto.
    right. left. rewrite wrap_small by lia. lia.
  - destruct (Z.ltb_spec seq (i_high e - 32768)); auto.
Qed.

Lemma in_ok_replayed e acc v seq : in_ok e acc -> word 32 v -> word 16 seq ->
  win_high e - 64 >= index_of v seq \/ index_of v seq ∈ acc -> replayed (win_high e) (win_mask e) (index_of v seq) = true.
Proof.
  intros [_ [Hr0 Hr1] [Hh0 Hh1] Hw _ Wk] Hv Hq. rewrite !index_of_value in * by done. destruct Hv, Hq.
  apply replayed_spec; [done|lia|]. change (2 ^ 16) with 65536 in *. change (2 ^ 32) with 4294967296 in *. lia.
Qed.

(** What [in_step] keeps, for an index that was not refused. *)
Lemma in_step_ok e acc seq (v := estimate e seq) (index := index_of v seq) : in_ok e acc -> word 16 seq ->
  replayed (win_high e) (win_mask e) index = false -> in_ok (in_step e v seq index) (index :: acc).
Proof.
  intros Hok Hq Hrep. pose proof Hok as [Hs [Hr0 Hr1] [Hh0 Hh1] Hw Ht Wk]. pose proof (estimate_word e acc seq Hok) as Hv. fold v in Hv.
  assert (Hi : index = 65536 * v + seq) by by apply index_of_value.
  rewrite index_of_value in Hw by done. destruct Hq as [Hq0 Hq1]. destruct Hv as [Hv0 Hv1].
  change (2 ^ 16) with 65536 in *. change (2 ^ 32) with 4294967296 in *.
  assert (Hnew : win_high e - 64 < index /\ index ∉ acc).
  { destruct (replayed_spec _ _ _ index Wk ltac:(lia) ltac:(lia)) as [_ H]. split.
    - destruct (Z.le_gt_cases index (win_high e - 64)); [|lia]. rewrite H in Hrep; [done|left; lia].
    - intros Hin. rewrite H in Hrep; [done|by right]. }
  destruct Hnew as [Hlow Hfresh].
  assert (Up : forall roc high, win_high e < index -> word 32 roc -> word 16 high -> index = index_of roc high ->
    in_ok {| i_ssrc := i_ssrc e; i_roc := roc; i_high := high; i_seen := true; win_high := index;
             win_mask := if 64 <=? u64 (index - win_high e) then 1 else Z.lor (u64 (Z.shiftl (win_mask e) (u64 (index - win_high e)))) 1 |}
          (index :: acc)).
  { intros roc high Hup Hroc Hhigh He. split; try done; cbn [win_high win_mask]; [apply elem_of_cons; by left|].
    pose proof (window_up _ _ _ index Wk ltac:(lia)) as W. cbv zeta in W. by destruct (64 <=? u64 (index - win_high e)). }
  assert (In : index <= win_high e ->
    in_ok {| i_ssrc := i_ssrc e; i_roc := i_roc e; i_high := i_high e; i_seen := true; win_high := win_high e;
             win_mask := Z.lor (win_mask e) (u64 (Z.shiftl 1 (u64 (win_high e - index)))) |} (index :: acc)).
  { intros Hin. split; try done; cbn [win_high win_mask i_roc i_high]; [by rewrite index_of_value|apply elem_of_cons; by right|].
    apply window_in; [done|lia]. }
  unfold in_step. rewrite Hs. cbn [negb].
  pose proof (next_roc (i_roc e) (conj Hr0 Hr1)) as Nr. pose proof (estimate_cases e acc seq Hok) as Cases. fold v in Cases.
  set (nr := u32 (i_roc e + 1)) in *. destruct (Z.eqb_spec v nr) as [En|En].
  - destruct (Z.ltb_spec (win_high e) index); [by apply Up|]. lia.
  - destruct (Z.eqb_spec v (i_roc e)) as [Ev|Ev]; cbn [andb].
    + destruct (Z.ltb_spec (i_high e) seq), (Z.ltb_spec (win_high e) index); try lia; [|by apply In].
      apply Up; [done..|]. rewrite index_of_value; [lia|done].
    + destruct (Z.ltb_spec (win_high e) index); [lia|]. by apply In.
Qed.

Lemma in_step_first x seq : word 16 seq -> in_ok (in_step (InSeq0 x) 0 seq (index_of 0 seq)) [index_of 0 seq].
Proof.
  intros Hq. unfold in_step. cbn [InSeq0 i_seen negb]. split; try done; cbn [win_high win_mask].
  - by apply list_elem_of_singleton.
  - apply window_first.
Qed.

Lemma in_step_ssrc e v seq index : i_ssrc (in_step e v seq index) = i_ssrc e /\ i_seen (in_step e v seq index) = true.
Proof. unfold in_step. repeat (case_match; simpl); done. Qed.

(** ** The receiving side of a session *)

(** An event: the SSRC and the index of a packet that was authenticated. *)
Definition event : Type := Z * Z.

Definition indices (x : Z) (hist : list event) : list Z := map snd (List.filter (fun ev => ev.1 =? x) hist).

Lemma indices_cons x y i hist : indices y ((x, i) :: hist) = if x =? y then i :: indices y hist else indices y hist.
Proof. unfold indices. cbn. by destruct (x =? y). Qed.

Lemma indices_in x i hist : i ∈ indices x hist <-> (x, i) ∈ hist.
Proof.
  induction hist as [|[y j] hist IH]; [split; intros Hx; by apply elem_of_nil in Hx|].
  rewrite indices_cons, elem_of_cons. destruct (Z.eqb_spec y x) as [->|Hy].
  - rewrite elem_of_cons, IH. split; [intros [->|?]; auto|]. intros [[= ->]|?]; auto.
  - rewrite IH. split; [auto|]. intros [[= -> _]|?]; done.
Qed.

(** Newest event first. *)
Record rx_ok (s : SrtpSession) (L : list Z) (hist : list event) : Prop := {
  rk_slots : slots_ok (in_ s) L;
  rk_streams : forall y, match stream_at (in_ s) y with
                         | Some e => in_ok e (indices y hist)
                         | None => indices y hist = []
                         end;
}.

Definition same_keys (s s' : SrtpSession) : Prop :=
  rtp_in_ s' = rtp_in_ s /\ rtp_out_ s' = rtp_out_ s /\ rtcp_in_ s' = rtcp_in_ s /\ rtcp_out_ s' = rtcp_out_ s.

Definition streams_after (x : Z) (L : list Z) : list Z := if decide (x ∈ L) then L else x :: L.

(** The tag of a datagram is that of its content under the receiving key. *)
Definition authentic (d : Dir) (pkt : bytes) (index : Z) : Prop :=
  let tag_at := (length pkt - 10)%nat in
  (22 <= length pkt)%nat /\ drop tag_at pkt = tag_of d (take tag_at pkt ++ be32 (index / 65536)).

Lemma authenticate_spec pkt s L hist : rx_ok s L hist -> octets pkt -> rd32 pkt 8 ∈ L \/ (length L < kStreams)%nat ->
  match authenticate pkt s with
  | (None, s') => rx_ok s' L hist /\ same_keys s s'
  | (Some (i, h), s') =>
      rx_ok s' (streams_after (rd32 pkt 8) L) ((rd32 pkt 8, i) :: hist) /\ same_keys s s'
      /\ ((rd32 pkt 8, i) ∉ hist) /\ authentic (rtp_in_ s) pkt i
  end.
Proof.
  intros Hrx Hp Hroom. pose proof Hrx as [Hs Hst]. unfold authenticate. set (x := rd32 pkt 8) in *.
  assert (Same : forall a, same_keys s (s <| in_ := a |>)) by done.
  destruct (Nat.ltb_spec (length pkt) (12 + 10)) as [|Elen]; [done|].
  destruct (header_length _) as [[|hdr]|]; [done| |done].
  destruct (slots_step (in_ s) L x (InSeq0 0) Hs Hroom) as (a & i & -> & -> & Ha & Hstr & Hup).
  assert (Hrx' : rx_ok (s <| in_ := a |>) L hist).
  { split; [done|]. intros y. change (in_ (s <| in_ := a |>)) with a. rewrite Hstr. apply Hst. }
  set (e := default (fresh x) (stream_at (in_ s) x)) in *. set (v := estimate e (rd16 pkt 2)).
  pose proof (rd16_word pkt 2 Hp) as Hq.
  destruct (if i_seen e then _ else _) eqn:Erep; [done|]. destruct (negb _) eqn:Etag; [done|].
  apply negb_false_iff, bool_decide_eq_true in Etag.
  assert (Ev : index_of v (rd16 pkt 2) / 65536 = v).
  { rewrite index_of_value by done. destruct Hq as [Hq0 Hq1]. change (2 ^ 16) with 65536 in Hq1.
    rewrite Z.mul_comm, Z.div_add_l, Z.div_small by lia. lia. }
  destruct (in_step_ssrc e v (rd16 pkt 2) (index_of v (rd16 pkt 2))) as [Hx Hseen].
  assert (He : in_ok e (indices x hist) \/ e = InSeq0 x /\ indices x hist = []).
  { pose proof (Hst x) as Hx0. unfold e. destruct (stream_at (in_ s) x); [by left|by right]. }
  assert (Hex : i_ssrc e = x).
  { unfold e. destruct (stream_at (in_ s) x) as [e0|] eqn:E0; [by apply stream_at_is in E0 as [_ E0]|done]. }
  clearbody e.
  destruct (Hup (in_step e v (rd16 pkt 2) (index_of v (rd16 pkt 2)))) as [Hs' Hstr']; [done|cbn; congruence|].
  assert (Hnew : in_ok (in_step e v (rd16 pkt 2) (index_of v (rd16 pkt 2))) (index_of v (rd16 pkt 2) :: indices x hist)
                 /\ index_of v (rd16 pkt 2) ∉ indices x hist).
  { destruct He as [Hx0|[He Hx0]].
    - rewrite (ik_seen _ _ Hx0) in Erep. split; [by apply in_step_ok|]. intros Hin.
      rewrite (in_ok_replayed _ _ _ _ Hx0) in Erep; [done| |done|by right]. by apply estimate_word with (indices x hist).
    - unfold v. rewrite He, Hx0. split; [by apply in_step_first|apply not_elem_of_nil]. }
  destruct Hnew as [Hok Hfresh]. split; [|split; [done|split]].
  - split; [done|]. intros y. change (in_ (_ <| in_ := ?b |>)) with b. rewrite Hstr', indices_cons, Z.eqb_sym. destruct (Z.eqb_spec x y) as [->|]; [done|apply Hst].
  - by rewrite <- indices_in.
  - split; [lia|]. rewrite Ev. symmetry. exact Etag.
Qed.

Lemma unprotect_state pkt s : (unprotect_rtp pkt s).2 = (authenticate pkt s).2.
Proof. unfold unprotect_rtp. by destruct (authenticate pkt s) as [[[i h]|] s']. Qed.

Lemma rx_initial out in' : rx_ok (make_session out in') [] [].
Proof.
  pose proof (slots_initial (T := InSeq) 0) as Hs. split; [done|]. intros y.
  destruct (stream_at (in_ (make_session out in')) y) as [e|] eqn:E; [|done].
  assert (Hy : y ∈ []); [|by apply elem_of_nil in Hy]. apply (so_streams _ _ Hs). by exists e.
Qed.

(** The packets a session authenticates among the datagrams that reach it, in
    their order; [unprotect_rtp] hands out at most these. *)
Fixpoint run_in (ds : list bytes) (s : SrtpSession) : list event :=
  match ds with
  | [] => []
  | d :: ds =>
      let rest := run_in ds (unprotect_rtp d s).2 in
      match (authenticate d s).1 with
      | Some (i, _) => (rd32 d 8, i) :: rest
      | None => rest
      end
  end.

Lemma NoDup_le (l k : list Z) : NoDup l -> (forall x, x ∈ l -> x ∈ k) -> (length l <= length k)%nat.
Proof. intros Hl Hk. apply submseteq_length, NoDup_submseteq; done. Qed.

Lemma run_in_spec d0 K ds : forall s L hist, Forall octets ds -> rx_ok s L hist -> rtp_in_ s = d0 ->
  (length K < kStreams)%nat -> (forall y, y ∈ L -> y ∈ K) -> (forall ev, ev ∈ run_in ds s -> ev.1 ∈ K) ->
  NoDup (run_in ds s) /\ (forall ev, ev ∈ run_in ds s -> ev ∉ hist)
  /\ (forall ev, ev ∈ run_in ds s -> exists d, d ∈ ds /\ rd32 d 8 = ev.1 /\ authentic d0 d ev.2).
Proof.
  induction ds as [|d ds IH]; intros s L hist Hds Hrx Hd HK HLK Hev.
  { split; [constructor|]. split; intros ev Hin; by apply elem_of_nil in Hin. }
  inversion Hds as [|? ? Hd8 Hds']; subst. cbn [run_in] in *. rewrite unprotect_state in *.
  assert (Hroom : rd32 d 8 ∈ L \/ (length L < kStreams)%nat).
  { right. eapply Nat.le_lt_trans; [|exact HK]. apply NoDup_le; [apply (so_nodup _ _ (rk_slots _ _ _ Hrx))|done]. }
  pose proof (authenticate_spec d s L hist Hrx Hd8 Hroom) as A.
  destruct (authenticate d s) as [[[i h]|] s'] eqn:Ea; cbn [fst snd] in *.
  - destruct A as (Hrx' & (Hk & _) & Hfresh & Hauth). set (x := rd32 d 8) in *.
    assert (Hx : x ∈ K) by (apply (Hev (x, i)), elem_of_cons; by left).
    destruct (IH s' _ _ Hds' Hrx' Hk HK) as (I1 & I2 & I3).
    { unfold streams_after. case_decide; [done|]. intros y [->|?]%elem_of_cons; [done|by apply HLK]. }
    { intros ev Hin. apply Hev, elem_of_cons. by right. }
    split; [constructor; [intros Hin; apply I2 in Hin; apply Hin, elem_of_cons; by left|done]|]. split.
    + intros ev [->|Hin]%elem_of_cons; [done|]. apply I2 in Hin. intros Hh. apply Hin, elem_of_cons. by right.
    + intros ev [->|Hin]%elem_of_cons; [exists d; split; [apply elem_of_cons; by left|done]|].
      destruct (I3 ev Hin) as (d' & Hin' & ?). exists d'. split; [apply elem_of_cons; by right|done].
  - destruct A as (Hrx' & (Hk & _)). destruct (IH s' _ _ Hds' Hrx' Hk HK HLK Hev) as (I1 & I2 & I3).
    split; [done|]. split; [done|]. intros ev Hin. destruct (I3 ev Hin) as (d' & Hin' & ?).
    exists d'. split; [apply elem_of_cons; by right|done].
Qed.


(** ** From sender to receiver *)

(** A packet as the camera makes them: the fixed header of [write_header] and a
    payload; [g_index] is the 48-bit index whose lower half the header carries. *)
Record Outgoing := {
  g_pt : Z;
  g_marker : bool;
  g_ts : Z;
  g_ssrc : Z;
  g_index : Z;
  g_payload : bytes;
}.

Definition packet (g : Outgoing) : bytes :=
  write_header (g_pt g) (g_marker g) (g_index g mod 65536) (g_ts g) (g_ssrc g) ++ g_payload g.

Definition outgoing_ok (g : Outgoing) : Prop := word 32 (g_ssrc g) /\ 0 <= g_index g < 2 ^ 48 /\ octets (g_payload g).

Lemma packet_fields g rest : outgoing_ok g ->
  rd16 (take 12 (packet g) ++ rest) 2 = g_index g mod 65536 /\ rd32 (take 12 (packet g) ++ rest) 8 = g_ssrc g
  /\ length (take 12 (packet g)) = 12%nat /\ drop 12 (packet g) = g_payload g.
Proof.
  intros (Hx & Hi & _). assert (E : take 12 (packet g) = write_header (g_pt g) (g_marker g) (g_index g mod 65536) (g_ts g) (g_ssrc g)).
  { reflexivity. }
  rewrite E. unfold write_header. rewrite <- !app_assoc. split; [|split; [|done]].
  - rewrite (rd16_app_r [_; _] _ 0), rd16_app_l by (cbn; lia). apply rd16_be16. apply Z.mod_pos_bound. lia.
  - rewrite (rd32_app_r [_; _] _ 6), (rd32_app_r (be16 _) _ 4), (rd32_app_r (be32 _) _ 0), rd32_app_l by (cbn; lia).
    by apply rd32_be32.
Qed.

(** What [protect_rtp] makes of a packet when its count of rollovers is right:
    the contract between the two ends. *)
Definition seal (d : Dir) (g : Outgoing) : bytes :=
  let body := take 12 (packet g) ++ cm_xor (cipher d) (make_iv (d_salt d) (g_ssrc g) (g_index g)) (g_payload g) in
  body ++ tag_of d (body ++ be32 (g_index g / 65536)).

Section Unseal.
Context (d : Dir) (g : Outgoing).
Hypothesis Hd : dir_ok d.
Hypothesis Hg : outgoing_ok g.

Let ct := cm_xor (cipher d) (make_iv (d_salt d) (g_ssrc g) (g_index g)) (g_payload g).

Lemma seal_length : length (seal d g) = (22 + length (g_payload g))%nat.
Proof.
  unfold seal. destruct (packet_fields g [] Hg) as (_ & _ & Hl & _).
  rewrite !length_app, tag_of_length, length_cm_xor_iv, Hl by done. lia.
Qed.

Lemma seal_body : take (length (seal d g) - 10) (seal d g) = take 12 (packet g) ++ ct
                  /\ drop (length (seal d g) - 10) (seal d g)
                     = tag_of d ((take 12 (packet g) ++ ct) ++ be32 (g_index g / 65536)).
Proof.
  assert (E : (length (seal d g) - 10)%nat = length (take 12 (packet g) ++ ct)).
  { rewrite seal_length, length_app. unfold ct. rewrite length_cm_xor_iv by done.
    destruct (packet_fields g [] Hg) as (_ & _ & -> & _). lia. }
  rewrite E. unfold seal. fold ct. by rewrite take_app_length, drop_app_length.
Qed.

Lemma seal_header : header_length (take (length (seal d g) - 10) (seal d g)) = Some 12%nat.
Proof.
  rewrite (proj1 seal_body). assert (E : exists tl, take 12 (packet g) ++ ct = 0x80 :: tl).
  { unfold packet, write_header. cbn. by eexists. }
  destruct E as [tl E]. rewrite E. apply header_length_plain; [by left|]. rewrite <- E, length_app.
  destruct (packet_fields g [] Hg) as (_ & _ & -> & _). unfold kHeaderBytes. lia.
Qed.

Lemma seal_fields : rd16 (seal d g) 2 = g_index g mod 65536 /\ rd32 (seal d g) 8 = g_ssrc g.
Proof. unfold seal. rewrite <- !app_assoc. by split; apply packet_fields. Qed.

Lemma decrypt_seal : decrypt d (seal d g) (g_index g) 12 = Some (packet g, 12%nat).
Proof.
  unfold decrypt. rewrite (proj1 seal_body), (proj2 seal_fields).
  destruct (packet_fields g ct Hg) as (_ & _ & Hl & Hdrop).
  assert (E1 : drop 12 (take 12 (packet g) ++ ct) = ct) by (rewrite <- Hl at 1; apply drop_app_length).
  assert (E2 : take 12 (seal d g) = take 12 (packet g)).
  { unfold seal. rewrite <- !app_assoc. rewrite <- Hl at 1. apply take_app_length. }
  rewrite E1, E2. unfold ct. rewrite cm_xor_iv_twice by done. rewrite <- Hdrop, take_drop.
  assert (E : Z.land (octet_at (packet g) 0) 0x20 = 0) by done. rewrite E. done.
Qed.

Lemma octets_seal : octets (seal d g).
Proof.
  unfold seal. destruct Hg as (_ & _ & Ho). destruct Hd as [Hk Hs]. rewrite !octets_app. split; [split|].
  - apply octets_take. unfold packet. apply octets_app. split; [apply octets_write_header|done].
  - apply octets_cm_xor; [done|by apply make_iv_state|done].
  - apply octets_take, octets_hmac.
Qed.
End Unseal.

(** *** The sender *)

(** The index of the last packet of [x]; the newest packet is first. *)
Definition last_index (x : Z) (prev : list Outgoing) : option Z :=
  option_map g_index (List.find (fun g => g_ssrc g =? x) prev).

(** A stream starts below the first rollover, and its sequence numbers go up by
    less than half their range from packet to packet. *)
Definition follows (prev : list Outgoing) (g : Outgoing) : Prop :=
  match last_index (g_ssrc g) prev with
  | None => g_index g < 65536
  | Some i => i < g_index g < i + 32768
  end.

Fixpoint in_order (prev gs : list Outgoing) : Prop :=
  match gs with
  | [] => True
  | g :: gs => follows prev g /\ in_order (g :: prev) gs
  end.

Record tx_ok (s : SrtpSession) (L : list Z) (prev : list Outgoing) : Prop := {
  tk_slots : slots_ok (out_ s) L;
  tk_streams : forall y, match stream_at (out_ s) y with
                         | Some e => exists i, last_index y prev = Some i /\ o_roc e = i / 65536 /\ o_last e = i mod 65536
                                               /\ 0 <= i < 2 ^ 48
                         | None => last_index y prev = None
                         end;
}.

Lemma tx_initial out in' : tx_ok (make_session out in') [] [].
Proof.
  pose proof (slots_initial (T := OutSeq) 0) as Hs. split; [done|]. intros y.
  destruct (stream_at (out_ (make_session out in')) y) as [e|] eqn:E; [|done].
  assert (Hy : y ∈ []); [|by apply elem_of_nil in Hy]. apply (so_streams _ _ Hs). by exists e.
Qed.

(** The rollover counter after a packet is the upper half of its index. *)
Lemma out_step_roc e i J : o_seen e = true -> o_roc e = i / 65536 -> o_last e = i mod 65536 -> 0 <= i ->
  i < J < i + 32768 -> J < 2 ^ 48 -> o_roc (out_step e (J mod 65536)) = J / 65536.
Proof.
  intros Hs Hr Hl Hi HJ HJ48. unfold out_step. cbn [o_roc]. rewrite Hs, Hr, Hl. cbn [andb].
  change (2 ^ 48) with 281474976710656 in *.
  pose proof (Z.div_mod i 65536 ltac:(lia)) as D1. pose proof (Z.mod_pos_bound i 65536 ltac:(lia)) as M1.
  pose proof (Z.div_mod J 65536 ltac:(lia)) as D2. pose proof (Z.mod_pos_bound J 65536 ltac:(lia)) as M2.
  set (q1 := i / 65536) in *. set (m1 := i mod 65536) in *. set (q2 := J / 65536) in *. set (m2 := J mod 65536) in *.
  destruct (Z.ltb_spec m2 m1); cbn [andb]; [|lia].
  rewrite (wrap_small 16) by (change (2 ^ 16) with 65536; lia).
  destruct (Z.ltb_spec 0x8000 (m1 - m2)); [|lia]. rewrite wrap_small by (change (2 ^ 32) with 4294967296; lia). lia.
Qed.

Lemma protect_spec g s L prev : tx_ok s L prev -> outgoing_ok g -> follows prev g ->
  g_ssrc g ∈ L \/ (length L < kStreams)%nat ->
  exists s', protect_rtp (packet g) s = (Some (seal (rtp_out_ s) g), s')
  /\ tx_ok s' (streams_after (g_ssrc g) L) (g :: prev) /\ same_keys s s'.
Proof.
  intros [Hs Hst] Hg Hf Hroom. destruct (packet_fields g (drop 12 (packet g)) Hg) as (Hq & Hx & Hl & Hdrop).
  rewrite take_drop in Hq, Hx. unfold protect_rtp. rewrite Hq, Hx.
  destruct (Nat.ltb_spec (length (packet g)) 12) as [Hc|_].
  { exfalso. rewrite <- (take_drop 12 (packet g)), length_app, Hl in Hc. lia. }
  destruct (slots_step (out_ s) L (g_ssrc g) (OutSeq0 0) Hs Hroom) as (a & i & -> & -> & Ha & Hstr & Hup).
  set (e := default (fresh (g_ssrc g)) (stream_at (out_ s) (g_ssrc g))).
  set (e' := out_step e (g_index g mod 65536)).
  destruct Hg as (_ & Hi & _).
  assert (Hroc : o_roc e' = g_index g / 65536).
  { unfold e', e. pose proof (Hst (g_ssrc g)) as Hx0. unfold follows in Hf.
    destruct (stream_at (out_ s) (g_ssrc g)) as [e0|] eqn:E0; cbn [default].
    - destruct Hx0 as (j & Ej & Hr & Hla & Hj). rewrite Ej in Hf. destruct (stream_at_is _ _ _ E0) as [Hse _].
      apply (out_step_roc e0 j); done || lia.
    - rewrite Hx0 in Hf. cbn. symmetry. apply Z.div_small. lia. }
  assert (Hex : o_ssrc e' = g_ssrc g).
  { unfold e', out_step. cbn. unfold e. destruct (stream_at (out_ s) (g_ssrc g)) as [e0|] eqn:E0; [|done].
    by apply stream_at_is in E0 as [_ E0]. }
  rewrite Hroc, index_split, Hdrop by lia. eexists. split; [done|]. split; [|done].
  destruct (Hup e' eq_refl Hex) as [Hs' Hstr']. split; [done|]. intros y.
  change (out_ (_ <| out_ := ?b |>)) with b. rewrite Hstr'. unfold last_index. cbn [List.find]. rewrite Z.eqb_sym.
  destruct (Z.eqb_spec (g_ssrc g) y) as [_|]; [|apply Hst]. exists (g_index g). split; [done|]. split; [done|]. by split.
Qed.

(** *** The receiver *)

(** A packet that is the first of its source and below the first rollover; or
    one that was not delivered before, not too far behind the newest and less
    than half the range of sequence numbers before it. *)
Definition deliverable (hist : list event) (g : Outgoing) : Prop :=
  let acc := indices (g_ssrc g) hist in
  (acc = [] /\ g_index g < 65536)
  \/ ((g_index g ∉ acc) /\ exists top, top ∈ acc /\ (forall i, i ∈ acc -> i <= top) /\ top - 64 < g_index g < top + 32768).

Fixpoint all_deliverable (hist : list event) (gs : list Outgoing) : Prop :=
  match gs with
  | [] => True
  | g :: gs => deliverable hist g /\ all_deliverable ((g_ssrc g, g_index g) :: hist) gs
  end.

Lemma unprotect_seal g s L hist d : rx_ok s L hist -> rtp_in_ s = d -> dir_ok d -> outgoing_ok g -> deliverable hist g ->
  g_ssrc g ∈ L \/ (length L < kStreams)%nat ->
  exists s', unprotect_rtp (seal d g) s = (Some (packet g, 12%nat), s')
  /\ rx_ok s' (streams_after (g_ssrc g) L) ((g_ssrc g, g_index g) :: hist) /\ rtp_in_ s' = d.
Proof.
  intros Hrx Hk Hd Hg Hdel Hroom. destruct (seal_fields d g Hg) as [Hq Hx].
  assert (Ha : exists s', authenticate (seal d g) s = (Some (g_index g, 12%nat), s')).
  { unfold authenticate. rewrite (seal_header d g Hd Hg), Hq, Hx. destruct (seal_body d g Hd Hg) as [-> ->].
    destruct (Nat.ltb_spec (length (seal d g)) (12 + 10)) as [Hc|_]; [rewrite seal_length in Hc by done; lia|].
    destruct (slots_step (in_ s) L (g_ssrc g) (InSeq0 0) (rk_slots _ _ _ Hrx) Hroom) as (a & i & -> & -> & _).
    set (e := default (fresh (g_ssrc g)) (stream_at (in_ s) (g_ssrc g))).
    destruct Hg as (_ & Hi & _).
    assert (He : (in_ok e (indices (g_ssrc g) hist) \/ e = InSeq0 (g_ssrc g)) /\ estimate e (g_index g mod 65536) = g_index g / 65536
                 /\ (if i_seen e then replayed (win_high e) (win_mask e) (g_index g) else false) = false).
    { pose proof (rk_streams _ _ _ Hrx (g_ssrc g)) as Hst. unfold e. destruct (stream_at (in_ s) (g_ssrc g)) as [e0|] eqn:E0; cbn [default id option_rect].
      - change (default (fresh (g_ssrc g)) (Some e0)) with e0. split; [by left|].
        destruct Hdel as [[Hnil _]|(Hnot & top & Htop & Hmax & Hnear)]; [pose proof (ik_top _ _ Hst) as Ht; rewrite Hnil in Ht; by apply elem_of_nil in Ht|].
        assert (Et : win_high e0 = top).
        { apply Z.le_antisymm; [apply Hmax, (ik_top _ _ Hst)|]. by apply (wk_high _ _ _ (ik_window _ _ Hst)). }
        rewrite <- Et in Hnear. split; [apply (estimate_near _ _ _ Hst); lia|]. rewrite (ik_seen _ _ Hst).
        destruct (replayed _ _ _) eqn:R; [|done]. exfalso. apply (replayed_spec _ _ _ _ (ik_window _ _ Hst)) in R as [R|R]; [lia|done|lia|].
        pose proof Hst as [_ [? ?] [? ?] Hw _ _]. rewrite index_of_value in Hw by done. change (2 ^ 16) with 65536 in *.
        change (2 ^ 32) with 4294967296 in *. lia.
      - split; [by right|]. split; [|done]. cbn. destruct Hdel as [[_ Hlt]|(_ & top & Htop & _)].
        + symmetry. apply Z.div_small. lia.
        + rewrite Hst in Htop. by apply elem_of_nil in Htop. }
    destruct He as (_ & -> & Hrep). rewrite index_split by lia. rewrite Hrep. 
    cbn [rtp_in_]. change (rtp_in_ (s <| in_ := a |>)) with (rtp_in_ s). rewrite Hk.
    rewrite bool_decide_true by done. cbn [negb]. eexists. done. }
  destruct Ha as [s' Ha]. pose proof (authenticate_spec (seal d g) s L hist Hrx (octets_seal d g Hd Hg)) as A.
  rewrite Hx, Ha in A. destruct (A Hroom) as (Hrx' & (Hk' & _) & _). exists s'. split; [|split; [done|congruence]].
  unfold unprotect_rtp. rewrite Ha, Hk', Hk. by rewrite decrypt_seal.
Qed.

(** ** The theorem *)

Fixpoint protect_all (pkts : list bytes) (s : SrtpSession) : list bytes :=
  match pkts with
  | [] => []
  | p :: pkts => let '(r, s) := protect_rtp p s in default [] r :: protect_all pkts s
  end.

Fixpoint unprotect_all (ds : list bytes) (s : SrtpSession) : list (option (bytes * nat)) :=
  match ds with
  | [] => []
  | d :: ds => let '(r, s) := unprotect_rtp d s in r :: unprotect_all ds s
  end.

Lemma streams_after_incl x L (K : list Z) : x ∈ K -> (forall y, y ∈ L -> y ∈ K) -> forall y, y ∈ streams_after x L -> y ∈ K.
Proof. intros Hx HL y. unfold streams_after. case_decide; [apply HL|]. intros [->|?]%elem_of_cons; [done|by apply HL]. Qed.

(** With all sources among four, there is room for each. *)
Lemma room_for {T} `{Stream T} (a : list T) (L K : list Z) x : slots_ok a L -> (length K <= kStreams)%nat -> x ∈ K ->
  (forall y, y ∈ L -> y ∈ K) -> x ∈ L \/ (length L < kStreams)%nat.
Proof.
  intros Hs HK Hx HL. destruct (decide (x ∈ L)) as [|Hn]; [by left|right].
  apply Nat.lt_le_trans with (length (x :: L)); [cbn; lia|]. etransitivity; [|exact HK]. apply NoDup_le.
  - constructor; [done|apply (so_nodup _ _ Hs)].
  - intros y [->|?]%elem_of_cons; [done|by apply HL].
Qed.

Lemma protect_all_spec d (K : list Z) gs : forall s L prev, tx_ok s L prev -> rtp_out_ s = d -> (length K <= kStreams)%nat ->
  (forall y, y ∈ L -> y ∈ K) -> (forall g, g ∈ gs -> outgoing_ok g /\ g_ssrc g ∈ K) -> in_order prev gs ->
  protect_all (map packet gs) s = map (seal d) gs.
Proof.
  induction gs as [|g gs IH]; intros s L prev Htx Hk HK HL Hgs Hord; [done|]. destruct Hord as [Hf Hord].
  destruct (Hgs g) as [Hg Hx]; [apply elem_of_cons; by left|]. cbn [map protect_all].
  destruct (protect_spec g s L prev Htx Hg Hf (room_for _ _ _ _ (tk_slots _ _ _ Htx) HK Hx HL)) as (s' & -> & Htx' & Hks).
  cbn [default]. rewrite Hk. f_equal. eapply IH; [exact Htx'|destruct Hks as (_ & -> & _); done|done| | |done].
  - by apply streams_after_incl.
  - intros g' Hg'. apply Hgs, elem_of_cons. by right.
Qed.

Lemma unprotect_all_spec d (K : list Z) hs : forall s L hist, rx_ok s L hist -> rtp_in_ s = d -> dir_ok d -> (length K <= kStreams)%nat ->
  (forall y, y ∈ L -> y ∈ K) -> (forall g, g ∈ hs -> outgoing_ok g /\ g_ssrc g ∈ K) -> all_deliverable hist hs ->
  unprotect_all (map (seal d) hs) s = map (fun g => Some (packet g, 12%nat)) hs.
Proof.
  induction hs as [|g hs IH]; intros s L hist Hrx Hk Hd HK HL Hhs Hdel; [done|]. destruct Hdel as [Hdg Hdel].
  destruct (Hhs g) as [Hg Hx]; [apply elem_of_cons; by left|]. cbn [map unprotect_all].
  destruct (unprotect_seal g s L hist d Hrx Hk Hd Hg Hdg (room_for _ _ _ _ (rk_slots _ _ _ Hrx) HK Hx HL)) as (s' & -> & Hrx' & Hk').
  f_equal. eapply IH; [exact Hrx'|done|done|done| | |done].
  - by apply streams_after_incl.
  - intros g' Hg'. apply Hhs, elem_of_cons. by right.
Qed.

(** C15. What the camera protects, a receiver with the same key gets back.  The
    camera sends packets of up to four sources, each source's sequence numbers
    going up from packet to packet by less than half their range, over any number
    of rollovers.  The packets picked by [ks] reach the receiver, in that order:
    any may be lost, and any may be late by less than the window of 64, as long as
    none comes twice and no gap reaches half the range of sequence numbers.  Then
    the receiver gets exactly the packets that were sent, each with its payload
    behind the fixed header. *)
Theorem srtp_delivers (key k1 k2 : SrtpKey) (gs : list Outgoing) (sources : list Z) (ks : list nat) (g0 : Outgoing) :
  key_material key -> (length sources <= kStreams)%nat ->
  (forall g, g ∈ gs -> outgoing_ok g /\ g_ssrc g ∈ sources) -> in_order [] gs ->
  (forall k, k ∈ ks -> (k < length gs)%nat) -> all_deliverable [] (map (fun k => nth k gs g0) ks) ->
  let sent := protect_all (map packet gs) (make_session key k1) in
  unprotect_all (map (fun k => nth k sent []) ks) (make_session k2 key)
  = map (fun k => Some (packet (nth k gs g0), 12%nat)) ks.
Proof.
  intros Hkey Hn Hgs Hord Hks Hdel sent. set (d := make_dir key false).
  assert (Hsent : sent = map (seal d) gs).
  { apply (protect_all_spec d sources gs _ [] []); [apply tx_initial|done|done|intros y Hy; by apply elem_of_nil in Hy|done|done]. }
  assert (E : map (fun k => nth k sent []) ks = map (seal d) (map (fun k => nth k gs g0) ks)).
  { rewrite Hsent, map_map. apply map_ext_in. intros k Hk. apply list_elem_of_In in Hk. specialize (Hks k Hk).
    rewrite (nth_indep _ [] (seal d g0)) by (by rewrite length_map). apply map_nth. }
  rewrite E, (unprotect_all_spec d sources _ (make_session k2 key) [] []); [by rewrite map_map|apply rx_initial|done| |done| | |done].
  - by apply make_dir_ok.
  - intros y Hy. by apply elem_of_nil in Hy.
  - intros g Hg. apply Hgs. apply list_elem_of_In in Hg. apply in_map_iff in Hg as (k & <- & Hk). apply list_elem_of_In in Hk.
    apply list_elem_of_In, nth_In. by apply Hks.
Qed.

(** ** At concrete inputs *)

Definition key_a : SrtpKey := {| master_key := below 16; master_salt := below 14 |}.
Definition key_b : SrtpKey := {| master_key := map (Z.add 40) (below 16); master_salt := map (Z.add 80) (below 14) |}.

(** Two sources around their rollover; the third packet is lost, the fourth
    overtakes the second. *)
Definition video (i : Z) : Outgoing :=
  {| g_pt := 102; g_marker := true; g_ts := 3000; g_ssrc := 7; g_index := i; g_payload := [1; 2; 3] |}.
Definition audio (i : Z) : Outgoing :=
  {| g_pt := 8; g_marker := false; g_ts := 160; g_ssrc := 8; g_index := i; g_payload := [9; 9] |}.
Definition two_streams : list Outgoing := [video 65534; audio 65535; video 65535; video 65536; audio 65536].

Lemma srtp_delivers_witness :
  unprotect_all (map (fun k => nth k (protect_all (map packet two_streams) (make_session key_a key_b)) []) [0; 3; 1; 4]%nat)
                (make_session key_b key_a)
  = map (fun g => Some (packet g, 12%nat)) [video 65534; video 65536; audio 65535; audio 65536].
Proof.
  assert (H1 : key_material key_a).
  { split; [done|]. split; [|split; [done|]]; unfold octets; apply List.Forall_forall; intros x Hx; apply in_map_iff in Hx as (n & <- & Hn);
      apply in_seq in Hn; unfold word; change (2 ^ 8) with 256; lia. }
  assert (H2 : forall g, g ∈ two_streams -> outgoing_ok g /\ g_ssrc g ∈ [7; 8]).
  { assert (F : List.Forall (fun g => outgoing_ok g /\ g_ssrc g ∈ [7; 8]) two_streams).
    { repeat constructor; try (by vm_compute); try (apply (bool_decide_unpack _); by vm_compute). }
    intros g Hg. apply list_elem_of_In in Hg. rewrite List.Forall_forall in F. by apply F. }
  assert (H3 : in_order [] two_streams) by (repeat split; by vm_compute).
  assert (H4 : forall k, k ∈ [0; 3; 1; 4]%nat -> (k < length two_streams)%nat).
  { intros k Hk. apply list_elem_of_In in Hk. cbn in Hk. change (length two_streams) with 5%nat. lia. }
  assert (H5 : all_deliverable [] (map (fun k => nth k two_streams (video 0)) [0; 3; 1; 4]%nat)).
  { cbn [map nth two_streams all_deliverable]. split; [left; by vm_compute|]. split; [right|split; [left; by vm_compute|split; [right|done]]].
    - split; [by apply (bool_decide_unpack _); vm_compute|]. exists 65534.
      split; [by apply (bool_decide_unpack _); vm_compute|]. split; [|cbn; lia].
      intros i Hi. apply list_elem_of_In in Hi. cbn in Hi. lia.
    - split; [by apply (bool_decide_unpack _); vm_compute|]. exists 65535.
      split; [by apply (bool_decide_unpack _); vm_compute|]. split; [|cbn; lia].
      intros i Hi. apply list_elem_of_In in Hi. cbn in Hi. lia. }
  exact (srtp_delivers key_a key_b key_b two_streams [7; 8] [0; 3; 1; 4]%nat (video 0) H1 ltac:(apply Nat.leb_le; reflexivity) H2 H3 H4 H5).
Defined.

(** A packet of each of five sources, sealed under one key. *)
Definition source (x i : Z) : bytes :=
  seal (make_dir key_a false)
    {| g_pt := 8; g_marker := false; g_ts := 0; g_ssrc := x; g_index := i; g_payload := [42] |}.

Definition replayed_stream : list bytes := [source 1 10; source 1 11; source 1 10; source 1 11].


(** The bound on the sources is needed: [slot] is taken before the tag is
    checked.  With four sources in use, a datagram of a fifth with a worthless tag
    is refused, but the first slot is gone and with it the window of source 1, whose
    packet is then accepted a second time. *)
Definition four_sources : list bytes := [source 1 10; source 2 10; source 3 10; source 4 10].
Definition forged : bytes := take 13 (source 5 10) ++ repeat 0 10.

Example slot_lost_before_authentication :
  run_in (four_sources ++ [source 1 10]) (make_session key_b key_a) = [(1, 10); (2, 10); (3, 10); (4, 10)]
  /\ run_in (four_sources ++ [forged; source 1 10]) (make_session key_b key_a) = [(1, 10); (2, 10); (3, 10); (4, 10); (1, 10)].
Proof. split; by vm_compute. Qed.

