(* ===== verification/SrtcpSpec.v ===== *)
(** * SRTCP: what the session guarantees

    One index for all sources, carried in the packet: reports arrive as they were
    sent, and none is accepted twice. *)

From S2P Require Import Prelude Text Bytes Sha1 Aes Rtp Srtp SrtpFacts.

(** What [protect_rtcp] makes of a packet when its index is [i]. *)
Definition seal_rtcp (d : Dir) (p : bytes) (i : Z) : bytes :=
  let body := (take 8 p ++ cm_xor (cipher d) (make_iv (d_salt d) (rd32 p 4) i) (drop 8 p)) ++ be32 (Z.lor 0x80000000 i) in
  body ++ tag_of d body.

(** The index field of a datagram. *)
Definition rtcp_field (pkt : bytes) : Z := rd32 pkt (length pkt - 10 - 4).
Definition rtcp_index (pkt : bytes) : Z := Z.land (rtcp_field pkt) 0x7fffffff.

Record rtcp_ok (s : SrtpSession) (acc : list Z) : Prop := {
  ck_window : window_ok (in_replay_high_ s) (in_replay_mask_ s) acc;
  ck_high : 0 <= in_replay_high_ s < 2 ^ 31;
  ck_top : in_replay_high_ s = 0 \/ in_replay_high_ s ∈ acc;
}.

Lemma rtcp_index_range pkt : octets pkt -> 0 <= rtcp_index pkt < 2 ^ 31.
Proof.
  intros H. unfold rtcp_index. change 0x7fffffff with (Z.ones 31). rewrite Z.land_ones by lia. apply Z.mod_pos_bound. lia.
Qed.

(** What the two branches of the window do. *)
Lemma unprotect_rtcp_spec pkt s acc : rtcp_ok s acc -> octets pkt ->
  match unprotect_rtcp pkt s with
  | (None, s') => rtcp_ok s' acc /\ rtcp_in_ s' = rtcp_in_ s
  | (Some _, s') =>
      rtcp_ok s' (rtcp_index pkt :: acc) /\ rtcp_in_ s' = rtcp_in_ s /\ (rtcp_index pkt ∉ acc)
      /\ drop (length pkt - 10) pkt = tag_of (rtcp_in_ s) (take (length pkt - 10) pkt)
  end.
Proof.
  intros Hok Hp. pose proof Hok as [W Hh Ht]. unfold unprotect_rtcp. pose proof (rtcp_index_range pkt Hp) as Hi.
  destruct (Nat.ltb_spec (length pkt) (8 + 4 + 10)); [done|].
  destruct (negb _) eqn:Et; [done|]. apply negb_false_iff, bool_decide_eq_true in Et.
  fold (rtcp_field pkt). fold (rtcp_index pkt). set (i := rtcp_index pkt) in *.
  assert (Up : in_replay_high_ s < i -> rtcp_ok (s <| in_replay_mask_ := Z.lor (if 64 <=? u64 (i - in_replay_high_ s) then 0
     else u64 (Z.shiftl (in_replay_mask_ s) (u64 (i - in_replay_high_ s)))) 1 |> <| in_replay_high_ := i |>) (i :: acc)).
  { intros Hlt. split; [apply (window_up _ _ _ i W); lia|done|right; apply elem_of_cons; by left]. }
  destruct (Z.ltb_spec (in_replay_high_ s) i) as [Hlt|Hle].
  - split; [by apply Up|]. split; [done|]. split; [|done]. intros Hin. apply (wk_high _ _ _ W) in Hin. lia.
  - pose proof (replayed_spec _ _ _ i W ltac:(lia) ltac:(lia)) as R. unfold replayed in R.
    rewrite (proj2 (Z.leb_le i _)) in R by done.
    destruct (Z.leb_spec 64 (u64 (in_replay_high_ s - i))) as [|Hb]; [done|]. destruct (negb _); [done|].
    assert (Hn : i ∉ acc) by (intros Hin; assert (false = true) by (apply R; by right); done).
    split; [|done]. split; [|done|destruct Ht; [by left|right; apply elem_of_cons; by right]].
    apply (window_in _ _ _ i W). rewrite wrap_small in Hb by lia. lia.
Qed.

Lemma rtcp_initial out in' : rtcp_ok (make_session out in') [].
Proof. split; [apply window_empty|done|by left]. Qed.

(** The indices of the reports a session accepts. *)
Fixpoint run_rtcp (ds : list bytes) (s : SrtpSession) : list Z :=
  match ds with
  | [] => []
  | d :: ds =>
      let '(r, s) := unprotect_rtcp d s in
      match r with
      | Some _ => rtcp_index d :: run_rtcp ds s
      | None => run_rtcp ds s
      end
  end.

Lemma run_rtcp_spec ds : forall s acc, rtcp_ok s acc -> Forall octets ds ->
  NoDup (run_rtcp ds s) /\ forall i, i ∈ run_rtcp ds s -> i ∉ acc.
Proof.
  induction ds as [|d ds IH]; intros s acc Hok Hds; [split; [constructor|intros i Hi; by apply elem_of_nil in Hi]|].
  inversion Hds as [|? ? Hd Hds']; subst. cbn [run_rtcp]. pose proof (unprotect_rtcp_spec d s acc Hok Hd) as A.
  destruct (unprotect_rtcp d s) as [[p|] s'].
  - destruct A as (Hok' & _ & Hn & _). destruct (IH s' _ Hok' Hds') as [I1 I2].
    split; [constructor; [intros Hin; apply I2 in Hin; apply Hin, elem_of_cons; by left|done]|].
    intros i [->|Hi]%elem_of_cons; [done|]. apply I2 in Hi. intros Ha. apply Hi, elem_of_cons. by right.
  - destruct A as [Hok' _]. by apply IH.
Qed.

(** ** From sender to receiver *)

Section Unseal.
Context (d : Dir) (p : bytes) (i : Z).
Hypothesis Hd : dir_ok d.
Hypothesis Hp : octets p.
Hypothesis Hlen : (8 <= length p)%nat.
Hypothesis Hi : 0 <= i < 2 ^ 31.

Let ct := cm_xor (cipher d) (make_iv (d_salt d) (rd32 p 4) i) (drop 8 p).
Let body := take 8 p ++ ct.
Let sealed := seal_rtcp d p i.

Lemma body_length : length body = length p.
Proof. unfold body, ct. rewrite length_app, length_cm_xor_iv, length_take, length_drop by done. lia. Qed.

Lemma sealed_length : length sealed = (length p + 14)%nat.
Proof.
  unfold sealed, seal_rtcp. fold ct. fold body. rewrite !length_app, tag_of_length, body_length. cbn. lia.
Qed.

Lemma sealed_split : take (length sealed - 10) sealed = body ++ be32 (Z.lor 0x80000000 i)
  /\ drop (length sealed - 10) sealed = tag_of d (body ++ be32 (Z.lor 0x80000000 i))
  /\ take (length sealed - 10 - 4) sealed = body.
Proof.
  assert (E : (length sealed - 10)%nat = length (body ++ be32 (Z.lor 0x80000000 i))).
  { rewrite sealed_length, length_app, body_length. cbn. lia. }
  assert (E4 : (length (body ++ be32 (Z.lor 0x80000000 i)) - 4)%nat = length body) by (rewrite length_app; cbn; lia).
  rewrite E, E4. unfold sealed, seal_rtcp. fold ct. fold body. split; [apply take_app_length|]. split; [apply drop_app_length|].
  rewrite <- app_assoc. apply take_app_length.
Qed.

Lemma sealed_field : rtcp_field sealed = 2 ^ 31 + i.
Proof.
  assert (Ei : Z.lor 0x80000000 i = 2 ^ 31 + i) by by apply (lor_add 31).
  unfold rtcp_field. rewrite sealed_length. replace (length p + 14 - 10 - 4)%nat with (length body + 0)%nat by (rewrite body_length; lia).
  unfold sealed, seal_rtcp. fold ct. fold body. rewrite <- app_assoc, rd32_app_r, rd32_app_l by (cbn; lia).
  rewrite Ei. apply rd32_be32. change (2 ^ 31) with 2147483648 in *. unfold word. change (2 ^ 32) with 4294967296. lia.
Qed.

Lemma sealed_index : rtcp_index sealed = i /\ negb (Z.land (rtcp_field sealed) 0x80000000 =? 0) = true.
Proof.
  unfold rtcp_index. rewrite sealed_field. split.
  - change 0x7fffffff with (Z.ones 31). rewrite Z.land_ones, Z.add_comm by lia. change (2 ^ 31) with (1 * 2 ^ 31) at 1.
    rewrite Z.mod_add by lia. by apply Z.mod_small.
  - change 0x80000000 with (u64 (Z.shiftl 1 31)). rewrite mask_bit; [|unfold word; lia|lia].
    rewrite Z.testbit_true by lia. change (2 ^ 31) with (1 * 2 ^ 31) at 1. rewrite Z.div_add_l, Z.div_small by lia. done.
Qed.

Lemma sealed_ssrc : rd32 sealed 4 = rd32 p 4 /\ take 8 sealed = take 8 p.
Proof.
  assert (Hl : length (take 8 p) = 8%nat) by (rewrite length_take; lia).
  unfold sealed, seal_rtcp. fold ct. rewrite <- !app_assoc. split.
  - rewrite rd32_app_l by lia. rewrite <- (take_drop 8 p) at 2. by rewrite rd32_app_l by lia.
  - rewrite <- Hl at 1. apply take_app_length.
Qed.

Lemma octets_sealed : octets sealed.
Proof.
  destruct Hd as [Hk Hs]. unfold sealed, seal_rtcp. rewrite !octets_app. split; [split; [split|]|]; auto with machino.
  - apply octets_cm_xor; [done|by apply make_iv_state|by apply octets_drop].
  - apply octets_take, octets_hmac.
Qed.

Lemma unprotect_sealed s acc : rtcp_ok s acc -> rtcp_in_ s = d -> i ∉ acc -> (forall j, j ∈ acc -> j - 64 < i) ->
  exists s', unprotect_rtcp sealed s = (Some p, s').
Proof.
  intros [W Hh Ht] Hk Hn Hw. destruct sealed_index as [Ei Ee]. destruct sealed_split as (E1 & E2 & E3). destruct sealed_ssrc as [E4 E5].
  unfold unprotect_rtcp. destruct (Nat.ltb_spec (length sealed) (8 + 4 + 10)) as [Hc|_]; [rewrite sealed_length in Hc; lia|].
  rewrite Hk, E1, E2, bool_decide_true by done. cbn [negb]. fold (rtcp_field sealed). fold (rtcp_index sealed). rewrite Ei, Ee.
  rewrite E3, E4, E5. assert (Eb : drop 8 body = ct).
  { pose proof (drop_app_length (take 8 p) ct) as X. rewrite length_take in X. by replace (8 `min` length p)%nat with 8%nat in X by lia. }
  rewrite Eb. unfold ct. rewrite cm_xor_iv_twice, take_drop by done.
  destruct (Z.ltb_spec (in_replay_high_ s) i) as [Hlt|Hle]; [by eexists|].
  assert (Hback : in_replay_high_ s - 64 < i) by (destruct Ht as [Ht|Ht]; [lia|by apply Hw in Ht]).
  assert (R : ~ replayed (in_replay_high_ s) (in_replay_mask_ s) i = true).
  { pose proof (replayed_spec _ _ _ i W ltac:(lia) ltac:(lia)) as [Q _]. intros R. apply Q in R as [R|R]; [lia|done]. }
  unfold replayed in R. rewrite (proj2 (Z.leb_le i _)) in R by done.
  destruct (Z.leb_spec 64 (u64 (in_replay_high_ s - i))) as [|_]; [by destruct R|]. apply not_true_is_false in R. rewrite R. by eexists.
Qed.
End Unseal.

Lemma protect_rtcp_spec p s : (8 <= length p)%nat -> 0 <= rtcp_index_ s < 2 ^ 31 - 1 ->
  exists s', protect_rtcp p s = (Some (seal_rtcp (rtcp_out_ s) p (rtcp_index_ s + 1)), s')
  /\ rtcp_index_ s' = rtcp_index_ s + 1 /\ rtcp_out_ s' = rtcp_out_ s.
Proof.
  intros Hl Hi. unfold protect_rtcp. destruct (Nat.ltb_spec (length p) 8); [lia|].
  set (s1 := s <| rtcp_index_ := u32 (rtcp_index_ s + 1) |>).
  assert (E : rtcp_index_ s1 = rtcp_index_ s + 1).
  { change (u32 (rtcp_index_ s + 1) = rtcp_index_ s + 1). apply wrap_small. change (2 ^ 31) with 2147483648 in *.
    change (2 ^ 32) with 4294967296. lia. }
  rewrite E. change 0x7fffffff with (Z.ones 31). rewrite Z.land_ones, Z.mod_small by lia.
  exists s1. split; [done|]. by split.
Qed.

Fixpoint protect_reports (ps : list bytes) (s : SrtpSession) : list bytes :=
  match ps with
  | [] => []
  | p :: ps => let '(r, s) := protect_rtcp p s in default [] r :: protect_reports ps s
  end.

Fixpoint unprotect_reports (ds : list bytes) (s : SrtpSession) : list (option bytes) :=
  match ds with
  | [] => []
  | d :: ds => let '(r, s) := unprotect_rtcp d s in r :: unprotect_reports ds s
  end.

(** Positions of reports that arrive: none twice, none 64 or more behind another. *)
Fixpoint arrive (before ks : list nat) : Prop :=
  match ks with
  | [] => True
  | k :: ks => (k ∉ before) /\ (forall j, j ∈ before -> (j < k + 64)%nat) /\ arrive (k :: before) ks
  end.

Definition report_index (k : nat) : Z := Z.of_nat (k + 1).

Lemma protect_reports_nth ps : forall s k, Forall (fun p => 8 <= length p)%nat ps -> (k < length ps)%nat ->
  0 <= rtcp_index_ s -> rtcp_index_ s + Z.of_nat (length ps) < 2 ^ 31 ->
  nth k (protect_reports ps s) [] = seal_rtcp (rtcp_out_ s) (nth k ps []) (rtcp_index_ s + report_index k).
Proof.
  induction ps as [|p ps IH]; intros s k Hp Hk H0 Hi; [cbn in Hk; lia|]. inversion Hp as [|? ? Hp1 Hp2]; subst. cbn [length] in *.
  cbn [protect_reports]. destruct (protect_rtcp_spec p s Hp1) as (s' & -> & E1 & E2); [lia|]. cbn [default].
  destruct k as [|k]; cbn [nth]; [done|]. change (default [] ?x :: ?l) with (default [] x :: l).
  rewrite IH by (done || lia). rewrite E1, E2. f_equal. unfold report_index. lia.
Qed.

Lemma unprotect_reports_spec ps d ks : forall s before, dir_ok d -> rtcp_in_ s = d ->
  Forall (fun p => octets p /\ (8 <= length p)%nat) ps -> Z.of_nat (length ps) < 2 ^ 31 ->
  rtcp_ok s (map report_index before) -> arrive before ks -> (forall k, k ∈ ks -> (k < length ps)%nat) ->
  unprotect_reports (map (fun k => seal_rtcp d (nth k ps []) (report_index k)) ks) s = map (fun k => Some (nth k ps [])) ks.
Proof.
  induction ks as [|k ks IH]; intros s before Hd Hk Hps Hn Hok Ha Hks; [done|]. destruct Ha as (Hnew & Hold & Ha).
  specialize (Hks k) as Hlt. rewrite elem_of_cons in Hlt. specialize (Hlt (or_introl eq_refl)).
  destruct (proj1 (Forall_lookup _ ps) Hps k (nth k ps [])) as [Hp8 Hl8].
  { destruct (nth_lookup_or_length ps k []) as [E|E]; [done|lia]. }
  assert (Hi : 0 <= report_index k < 2 ^ 31) by (unfold report_index; lia).
  cbn [map unprotect_reports].
  destruct (unprotect_sealed d (nth k ps []) (report_index k) Hd Hl8 Hi s (map report_index before) Hok Hk) as [s' E].
  { intros Hin. apply list_elem_of_In, in_map_iff in Hin as (j & Ej & Hj). apply list_elem_of_In in Hj.
    unfold report_index in Ej. by replace j with k in Hj by lia. }
  { intros i Hin. apply list_elem_of_In, in_map_iff in Hin as (j & <- & Hj). apply list_elem_of_In in Hj.
    specialize (Hold j Hj). unfold report_index. lia. }
  pose proof (unprotect_rtcp_spec _ s _ Hok (octets_sealed d (nth k ps []) (report_index k) Hd Hp8)) as A.
  rewrite E in A |- *. destruct A as (Hok' & Hk' & _).
  rewrite (proj1 (sealed_index d (nth k ps []) (report_index k) Hd Hl8 Hi)) in Hok'.
  f_equal. apply (IH s' (k :: before)); [done|congruence|done..|]. intros j Hj. apply Hks, elem_of_cons. by right.
Qed.

(** C16. Every report arrives as it was sent, and only once.  A receiver with the
    sender's key gets back exactly the reports [ks] picks, in that order, however
    many were lost and whichever came late by less than 64; and whatever datagrams
    reach a session, from whomever, it accepts each index at most once. *)
Theorem srtcp_delivers_once (key k1 k2 : SrtpKey) (ps : list bytes) (ks : list nat) (ds : list bytes) :
  key_material key -> Forall (fun p => octets p /\ (8 <= length p)%nat) ps -> Z.of_nat (length ps) < 2 ^ 31 ->
  arrive [] ks -> (forall k, k ∈ ks -> (k < length ps)%nat) -> Forall octets ds ->
  let sent := protect_reports ps (make_session key k1) in
  unprotect_reports (map (fun k => nth k sent []) ks) (make_session k2 key) = map (fun k => Some (nth k ps [])) ks
  /\ NoDup (run_rtcp ds (make_session k2 key)).
Proof.
  intros Hkey Hps Hn Ha Hks Hds sent. split.
  - rewrite <- (unprotect_reports_spec ps (make_dir key true) ks (make_session k2 key) []); [|by apply make_dir_ok|done|done|done|apply rtcp_initial|done|done].
    f_equal. apply map_ext_in. intros k Hk. apply list_elem_of_In in Hk. unfold sent.
    rewrite protect_reports_nth; [done| |by apply Hks|done|exact Hn]. eapply Forall_impl; [exact Hps|]. by intros ? [_ ?].
  - apply (run_rtcp_spec ds _ [] (rtcp_initial k2 key) Hds).
Qed.

Definition report (x : Z) : bytes := [0x81; 201; 0; 1; 0; 0; 0; x].
Definition report_key : SrtpKey := {| master_key := below 16; master_salt := below 14 |}.

Lemma srtcp_delivers_once_witness :
  unprotect_reports (map (fun k => nth k (protect_reports [report 1; report 2; report 3] (make_session report_key report_key)) []) [0; 2; 1]%nat)
                    (make_session report_key report_key)
  = [Some (report 1); Some (report 3); Some (report 2)]
  /\ NoDup (run_rtcp [report 1; report 1] (make_session report_key report_key)).
Proof.
  assert (H1 : key_material report_key).
  { split; [done|]. split; [|split; [done|]]; unfold octets; apply List.Forall_forall; intros x Hx; apply in_map_iff in Hx as (n & <- & Hn);
      apply in_seq in Hn; unfold word; change (2 ^ 8) with 256; lia. }
  assert (Hr : forall x, octet x -> octets (report x) /\ (8 <= length (report x))%nat).
  { intros x Hx. split; [|apply Nat.leb_le; reflexivity]. do 7 (apply Forall_cons; split; [by vm_compute|]). by apply Forall_singleton. }
  assert (H2 : Forall (fun p => octets p /\ (8 <= length p)%nat) [report 1; report 2; report 3]) by (repeat (apply Forall_cons; split; [by apply Hr; vm_compute|]); constructor).
  assert (H4 : arrive [] [0; 2; 1]%nat).
  { cbn [arrive]. split; [by apply not_elem_of_nil|]. split; [intros j Hj; by apply elem_of_nil in Hj|].
    split; [by apply (bool_decide_unpack _); vm_compute|]. split; [intros j Hj; apply list_elem_of_In in Hj; cbn in Hj; lia|].
    split; [by apply (bool_decide_unpack _); vm_compute|]. split; [intros j Hj; apply list_elem_of_In in Hj; cbn in Hj; lia|done]. }
  assert (H5 : forall k, k ∈ [0; 2; 1]%nat -> (k < length [report 1; report 2; report 3])%nat).
  { intros k Hk. apply list_elem_of_In in Hk. cbn in Hk. change (length [report 1; report 2; report 3]) with 3%nat. lia. }
  assert (H6 : Forall octets [report 1; report 1]) by (repeat (apply Forall_cons; split; [by apply Hr; vm_compute|]); constructor).
  exact (srtcp_delivers_once report_key report_key report_key [report 1; report 2; report 3] [0; 2; 1]%nat [report 1; report 1]
           H1 H2 ltac:(reflexivity) H4 H5 H6).
Defined.
