(* ===== verification/WebSocket.v ===== *)
(** * WebSocket frames

    [app/http/websocket.{hpp,cpp}]: the accept key of the handshake, the frames
    the server writes and the frames it reads.  A [std::string] of octets is
    their list. *)

From S2P Require Import Prelude Text Bytes Base64 Sha1.

Definition GUID : text := txt "258EAFA5-E914-47DA-95CA-C5AB0DC85B11".

Definition accept_key (key : text) : text := base64 (sha1 (octets_of (key ++ GUID))).


Definition handshake_response (key : text) : text :=
  txt "HTTP/1.1 101 Switching Protocols" ++ CRLF ++ txt "Upgrade: websocket" ++ CRLF ++ txt "Connection: Upgrade" ++ CRLF
  ++ txt "Sec-WebSocket-Accept: " ++ accept_key key ++ CRLF ++ CRLF.

(** The length field of [frame_with]. *)
Definition length_field (len : Z) : bytes :=
  if len <? 126 then [u8 len] else if len <? 65536 then 126 :: be16 len else 127 :: be 8 len.

Definition frame_with (opcode : Z) (payload : bytes) : bytes :=
  u8 (Z.lor 0x80 opcode) :: length_field (Z.of_nat (length payload)) ++ payload.

Definition frame (text : bool) (payload : bytes) : bytes := frame_with (if text then 1 else 2) payload.
Definition pong_frame (p : bytes) : bytes := frame_with 10 p.
Definition ping_frame (p : bytes) : bytes := frame_with 9 p.

(** [payload[i] ^ mask[i & 3]]. *)
Definition unmask (mask payload : bytes) : bytes := imap (fun i b => Z.lxor b (octet_at mask (i mod 4))) payload.

Inductive Parse :=
  | Incomplete
  | Bad
  | Ok (consumed : Z) (opcode : Z) (payload : bytes).

(** The part of [parse_frame] behind the length field at [p]. *)
Definition parse_payload (input : bytes) (opcode len p max_payload : Z) : Parse :=
  if max_payload <? len then Bad else
  if Z.of_nat (length input) <? u64 (p + 4 + len) then Incomplete else
  let mask := take 4 (drop (Z.to_nat p) input) in
  Ok (p + 4 + len) opcode (unmask mask (take (Z.to_nat len) (drop (Z.to_nat (p + 4)) input))).

Definition parse_frame (input : bytes) (max_payload : Z) : Parse :=
  if (length input <? 2)%nat then Incomplete else
  let b0 := octet_at input 0 in
  let b1 := octet_at input 1 in
  if Z.land b0 0x80 =? 0 then Bad else
  if negb (Z.land b0 0x70 =? 0) then Bad else
  let opcode := Z.land b0 0x0f in
  if Z.land b1 0x80 =? 0 then Bad else
  let len := Z.land b1 0x7f in
  if len =? 126 then
    if (length input <? 4)%nat then Incomplete else parse_payload input opcode (rd16 input 2) 4 max_payload
  else if len =? 127 then
    if (length input <? 10)%nat then Incomplete
    else parse_payload input opcode (be_value (take 8 (drop 2 input))) 10 max_payload
  else parse_payload input opcode len 2 max_payload.

(** ** The other end *)

(** RFC 6455 5.2: what a client writes: the same header with the mask bit, the
    masking key, the masked payload. *)
Definition client_head (opcode len : Z) : bytes :=
  Z.lor 0x80 opcode :: match length_field len with b1 :: r => Z.lor 0x80 b1 :: r | [] => [] end.

(** 5.3: octet after octet, the key goes round. *)
Fixpoint client_mask (key payload : bytes) : bytes :=
  match key, payload with
  | k :: key, b :: payload => Z.lxor b k :: client_mask (key ++ [k]) payload
  | _, _ => []
  end.

Definition client_frame (opcode : Z) (mask payload : bytes) : bytes :=
  client_head opcode (Z.of_nat (length payload)) ++ mask ++ client_mask mask payload.

(** What a client reads: opcode, payload and what follows the frame. *)
Definition client_payload (op : Z) (len : nat) (rest : bytes) : option (Z * bytes * bytes) :=
  if (length rest <? len)%nat then None else Some (op, take len rest, drop len rest).

Definition client_read (input : bytes) : option (Z * bytes * bytes) :=
  match input with
  | b0 :: b1 :: rest =>
      if (Z.land b0 0xf0 =? 0x80) && (b1 <? 128) then
        if b1 =? 126 then
          if (length rest <? 2)%nat then None else client_payload (Z.land b0 0x0f) (Z.to_nat (be_value (take 2 rest))) (drop 2 rest)
        else if b1 =? 127 then
          if (length rest <? 8)%nat then None else client_payload (Z.land b0 0x0f) (Z.to_nat (be_value (take 8 rest))) (drop 8 rest)
        else client_payload (Z.land b0 0x0f) (Z.to_nat b1) rest
      else None
  | _ => None
  end.

(** The key and the answer of RFC 6455 1.3. *)
Example accept_key_rfc6455 : accept_key (txt "dGhlIHNhbXBsZSBub25jZQ==") = txt "s3pPLMBiTxaQ9kYGzzhZRbK+xOo=".
Proof. by vm_compute. Qed.

(** ** Reading *)

Lemma length_unmask mask l : length (unmask mask l) = length l.
Proof. apply length_imap. Qed.

(** The loop over an index modulo four is the key going round. *)
Lemma unmask_is_client_mask payload : forall key, length key = 4%nat -> unmask key payload = client_mask key payload.
Proof.
  unfold unmask. induction payload as [|b payload IH]; intros key Hk; [by destruct key|].
  destruct key as [|k0 [|k1 [|k2 [|k3 [|]]]]]; try done. cbn [client_mask app]. rewrite imap_cons. f_equal.
  rewrite <- IH by done. apply imap_ext. intros i x _. unfold compose. f_equal.
  pose proof (Nat.mod_upper_bound i 4 ltac:(lia)). assert (E : (S i mod 4 = if i mod 4 =? 3 then 0 else S (i mod 4))%nat).
  { change (S i) with (1 + i)%nat. rewrite <- (Nat.Div0.add_mod_idemp_r 1 i 4). destruct (i mod 4)%nat as [|[|[|[|]]]]; try done. lia. }
  rewrite E. destruct (i mod 4)%nat as [|[|[|[|]]]]; try done. lia.
Qed.

Lemma unmask_twice mask l : unmask mask (unmask mask l) = l.
Proof.
  unfold unmask. apply list_eq. intros i. rewrite !list_lookup_imap. destruct (l !! i) as [b|]; [|done]. cbn.
  by rewrite Z.lxor_assoc, Z.lxor_nilpotent, Z.lxor_0_r.
Qed.

(** The first octet of a frame, with its final bit and its opcode. *)
Lemma finopcode_octet op : word 4 op ->
  let b := Z.lor 0x80 op in
  u8 b = b /\ (Z.land b 0x80 =? 0) = false /\ (Z.land b 0x70 =? 0) = true /\ Z.land b 0x0f = op
  /\ (Z.land b 0xf0 =? 0x80) = true.
Proof.
  intros H b. pose proof (below_all 16 (fun op => let b := Z.lor 0x80 op in (u8 b =? b) && negb (Z.land b 0x80 =? 0)
    && (Z.land b 0x70 =? 0) && (Z.land b 0x0f =? op) && (Z.land b 0xf0 =? 0x80)) ltac:(by vm_compute) op H) as F.
  cbv zeta in F. fold b in F. rewrite !andb_true_iff, negb_true_iff in F. destruct F as [[[[A B] C] D] E].
  apply Z.eqb_eq in A, D. by repeat split.
Qed.

(** The second, with the mask bit and up to seven bits of the length. *)
Lemma mask_octet x : 0 <= x < 128 ->
  (Z.land (Z.lor 0x80 x) 0x80 =? 0) = false /\ Z.land (Z.lor 0x80 x) 0x7f = x.
Proof.
  intros H. pose proof (below_all 128 (fun x => negb (Z.land (Z.lor 0x80 x) 0x80 =? 0) && (Z.land (Z.lor 0x80 x) 0x7f =? x))
    ltac:(by vm_compute) x H) as F.
  by rewrite andb_true_iff, negb_true_iff, Z.eqb_eq in F.
Qed.

Lemma parse_head op len t max_payload : word 4 op -> 0 <= len < 2 ^ 63 ->
  parse_frame (client_head op len ++ t) max_payload
  = parse_payload (client_head op len ++ t) op len (Z.of_nat (length (client_head op len))) max_payload.
Proof.
  intros Hop Hl. destruct (finopcode_octet op Hop) as (_ & F1 & F2 & F3 & _). unfold client_head, length_field.
  destruct (Z.ltb_spec len 126); [|destruct (Z.ltb_spec len 65536)].
  - rewrite (wrap_small 8) by (change (2 ^ 8) with 256; lia). destruct (mask_octet len) as [S1 S2]; [lia|].
    unfold parse_frame. cbn [app length Nat.ltb Nat.leb octet_at nth]. rewrite F1, F2, F3, S1, S2. cbn [negb].
    destruct (Z.eqb_spec len 126), (Z.eqb_spec len 127); (lia || done).
  - unfold parse_frame. cbn [app length Nat.ltb Nat.leb octet_at nth be16]. rewrite F1, F2, F3.
    change (Z.land (Z.lor 128 126) 128 =? 0) with false. change (Z.land (Z.lor 128 126) 127 =? 126) with true. cbn [negb].
    f_equal. change (rd16 ([Z.lor 128 op; Z.lor 128 126] ++ be16 len ++ t) 2 = len).
    rewrite (rd16_app_r [_; _] _ 0), rd16_app_l by (cbn; lia). apply rd16_be16. split; [lia|change (2 ^ 16) with 65536; lia].
  - unfold parse_frame. cbn [app length Nat.ltb Nat.leb octet_at nth be]. rewrite F1, F2, F3.
    change (Z.land (Z.lor 128 127) 128 =? 0) with false. change (Z.land (Z.lor 128 127) 127 =? 126) with false.
    change (Z.land (Z.lor 128 127) 127 =? 127) with true. cbn [negb].
    f_equal. change (be_value (be 8 len) = len). apply be_value_be. split; [lia|]. cbn. lia.
Qed.

Lemma parse_short op len n max_payload : word 4 op -> 0 <= len < 2 ^ 63 -> (n < length (client_head op len))%nat ->
  parse_frame (take n (client_head op len)) max_payload = Incomplete.
Proof.
  intros Hop Hl. destruct (finopcode_octet op Hop) as (_ & F1 & F2 & F3 & _). unfold client_head, length_field.
  destruct (Z.ltb_spec len 126); [|destruct (Z.ltb_spec len 65536)]; cbn [length be16 be]; intros Hn.
  - do 2 (destruct n as [|n]; [done|]). lia.
  - do 2 (destruct n as [|n]; [done|]). unfold parse_frame. cbn [take length Nat.ltb Nat.leb octet_at nth].
    rewrite F1, F2. change (Z.land (Z.lor 128 126) 128 =? 0) with false. change (Z.land (Z.lor 128 126) 127 =? 126) with true.
    cbn [negb]. do 2 (destruct n as [|n]; [done|]). lia.
  - do 2 (destruct n as [|n]; [done|]). unfold parse_frame. cbn [take length Nat.ltb Nat.leb octet_at nth].
    rewrite F1, F2. change (Z.land (Z.lor 128 127) 128 =? 0) with false. change (Z.land (Z.lor 128 127) 127 =? 126) with false.
    change (Z.land (Z.lor 128 127) 127 =? 127) with true. cbn [negb]. do 8 (destruct n as [|n]; [done|]). lia.
Qed.

Lemma head_length op len : (length (client_head op len) <= 10)%nat.
Proof. unfold client_head, length_field. repeat case_match; cbn [length be16 be]; simplify_eq/=; cbn; lia. Qed.

Lemma length_client_frame op mask payload : length mask = 4%nat ->
  length (client_frame op mask payload) = (length (client_head op (Z.of_nat (length payload))) + 4 + length payload)%nat.
Proof. intros Hm. unfold client_frame. rewrite <- unmask_is_client_mask by done. rewrite !length_app, length_unmask. lia. Qed.

(** What arrived of the masking key and the payload, behind a whole header. *)
Lemma parse_tail op h t len max_payload : 0 <= len <= max_payload -> (length h <= 10)%nat -> max_payload < 2 ^ 63 ->
  parse_payload (h ++ t) op len (Z.of_nat (length h)) max_payload
  = if Z.of_nat (length t) <? 4 + len then Incomplete
    else Ok (Z.of_nat (length h) + 4 + len) op (unmask (take 4 t) (take (Z.to_nat len) (drop 4 t))).
Proof.
  intros Hl Hh Hm. unfold parse_payload. destruct (Z.ltb_spec max_payload len); [lia|].
  rewrite wrap_small by lia. rewrite length_app.
  destruct (Z.ltb_spec (Z.of_nat (length h + length t)) (Z.of_nat (length h) + 4 + len)),
           (Z.ltb_spec (Z.of_nat (length t)) (4 + len)); try lia; [done|].
  rewrite Nat2Z.id, drop_app_length. replace (Z.to_nat (Z.of_nat (length h) + 4)) with (length h + 4)%nat by lia.
  by rewrite drop_app_add.
Qed.

Lemma take_head n (h t : bytes) : (n < length h)%nat -> take n (h ++ t) = take n h.
Proof. intros H. apply take_app_le. lia. Qed.

Lemma take_beyond (h t : bytes) n : take (length h + n) (h ++ t) = h ++ take n t.
Proof. apply take_app_add. Qed.

Lemma take_be k v l : take k (be k v ++ l) = be k v.
Proof. rewrite <- (length_be k v) at 1. apply take_app_length. Qed.
Lemma drop_be k v l : drop k (be k v ++ l) = l.
Proof. rewrite <- (length_be k v) at 1. apply drop_app_length. Qed.

Lemma client_reads op payload rest : word 4 op -> Z.of_nat (length payload) < 2 ^ 63 ->
  client_read (frame_with op payload ++ rest) = Some (op, payload, rest).
Proof.
  intros Hop Hlen. destruct (finopcode_octet op Hop) as (F0 & _ & _ & F3 & F4). set (len := Z.of_nat (length payload)) in *.
  assert (P : client_payload op (length payload) (payload ++ rest) = Some (op, payload, rest)).
  { unfold client_payload. rewrite length_app. destruct (Nat.ltb_spec (length payload + length rest) (length payload)); [lia|].
    by rewrite take_app_length, drop_app_length. }
  unfold frame_with, length_field. fold len. destruct (Z.ltb_spec len 126); [|destruct (Z.ltb_spec len 65536)].
  - rewrite (wrap_small 8 len) by (change (2 ^ 8) with 256; lia). cbn [app client_read]. rewrite F0, F3, F4.
    destruct (Z.ltb_spec len 128), (Z.eqb_spec len 126), (Z.eqb_spec len 127); try lia. cbn [andb].
    unfold len. by rewrite Nat2Z.id.
  - change (be16 len) with (be 2 len). cbn [app client_read]. rewrite F0, F3, F4.
    change (126 <? 128) with true. change (126 =? 126) with true. cbn [andb].
    rewrite <- app_assoc, length_app, length_be, take_be, drop_be, be_value_be by (split; [lia|done]).
    unfold len. by rewrite Nat2Z.id.
  - cbn [app client_read]. rewrite F0, F3, F4.
    change (127 <? 128) with true. change (127 =? 126) with false. change (127 =? 127) with true. cbn [andb].
    rewrite <- app_assoc, length_app, length_be, take_be, drop_be, be_value_be by (split; [lia|change (2 ^ (8 * Z.of_nat 8)) with (2 ^ 64); lia]).
    unfold len. by rewrite Nat2Z.id.
Qed.

(** Frames survive both ways, however the connection cuts them.  From a
    client: a frame it masked is read with its opcode and payload and leaves what
    follows it; with any part of it missing the server waits; a payload above the
    limit is refused as soon as the header is there.  To a client: what the server
    writes is read back by the rules of RFC 6455 with its opcode and payload, and
    is refused as a client's, for want of a mask. *)
Theorem websocket_roundtrip (op : Z) (mask payload rest : bytes) (max_payload : Z) (n : nat) :
  word 4 op -> length mask = 4%nat -> Z.of_nat (length payload) < 2 ^ 63 -> 0 <= max_payload < 2 ^ 63 ->
  let f := client_frame op mask payload in
  let len := Z.of_nat (length payload) in
  (len <= max_payload ->
     parse_frame (f ++ rest) max_payload = Ok (Z.of_nat (length f)) op payload
     /\ ((n < length f)%nat -> parse_frame (take n f) max_payload = Incomplete))
  /\ (max_payload < len -> (10 <= n)%nat -> parse_frame (take n f) max_payload = Bad)
  /\ client_read (frame_with op payload ++ rest) = Some (op, payload, rest)
  /\ parse_frame (frame_with op payload ++ rest) max_payload = Bad.
Proof.
  intros Hop Hmask Hlen Hmax f len. set (h := client_head op len). set (t := mask ++ unmask mask payload).
  pose proof (head_length op len) as Hh. fold h in Hh.
  assert (Hf : length f = (length h + 4 + length payload)%nat) by by apply length_client_frame.
  assert (Ht : length t = (4 + length payload)%nat) by (unfold t; rewrite length_app, length_unmask; lia).
  assert (Ef : f = h ++ t) by (unfold f, client_frame; by rewrite <- unmask_is_client_mask).
  assert (Hp : forall x, parse_frame (h ++ x) max_payload = parse_payload (h ++ x) op len (Z.of_nat (length h)) max_payload)
    by (intros; apply parse_head; [done|lia]).
  split; [|split; [|split]].
  - intros Hle. split.
    + rewrite Ef, <- app_assoc, Hp, parse_tail by lia. rewrite length_app, Ht.
      destruct (Z.ltb_spec (Z.of_nat (4 + length payload + length rest)) (4 + len)); [lia|].
      f_equal; [rewrite length_app, Ht; lia|]. unfold len. rewrite Nat2Z.id. unfold t. rewrite <- app_assoc.
      rewrite <- Hmask at 1. rewrite take_app_length. rewrite <- Hmask at 1. rewrite drop_app_length.
      rewrite take_app_le, take_ge by (rewrite length_unmask; lia). apply unmask_twice.
    + intros Hn. rewrite Ef. destruct (Nat.lt_ge_cases n (length h)) as [Hc|Hc].
      * rewrite take_head by done. apply parse_short; [done|lia|done].
      * replace n with (length h + (n - length h))%nat by lia. rewrite take_beyond, Hp.
        rewrite parse_tail, length_take by lia. rewrite Ht. destruct (Z.ltb_spec (Z.of_nat ((n - length h) `min` (4 + length payload))) (4 + len)); [done|lia].
  - intros Hgt Hn. rewrite Ef. replace n with (length h + (n - length h))%nat by lia. rewrite take_beyond, Hp.
    unfold parse_payload. by destruct (Z.ltb_spec max_payload len); [|lia].
  - by apply client_reads.
  - destruct (finopcode_octet op Hop) as (F0 & F1 & F2 & _). unfold frame_with, length_field. fold len.
    assert (G : forall b r, 0 <= b < 128 -> parse_frame (u8 (Z.lor 0x80 op) :: b :: r) max_payload = Bad).
    { intros b r Hb. unfold parse_frame. cbn [length Nat.ltb Nat.leb octet_at nth]. rewrite F0, F1, F2. cbn [negb].
      by rewrite (below_all 128 (fun b => Z.land b 0x80 =? 0) ltac:(by vm_compute) b Hb). }
    destruct (Z.ltb_spec len 126); [|destruct (len <? 65536)]; cbn [app]; apply G; try lia.
    rewrite wrap_small; change (2 ^ 8) with 256; lia.
Qed.

Lemma websocket_roundtrip_witness :
  parse_frame (client_frame 1 [1; 2; 3; 4] [104; 105] ++ [9]) 4096 = Ok 8 1 [104; 105]
  /\ client_read (frame_with 1 [104; 105] ++ [9]) = Some (1, [104; 105], [9]).
Proof.
  assert (H : word 4 1 /\ Z.of_nat (length [104; 105]) < 2 ^ 63 /\ 0 <= 4096 < 2 ^ 63 /\ Z.of_nat (length [104; 105]) <= 4096)
    by (unfold word; repeat split; by vm_compute).
  destruct H as (H1 & H2 & H3 & H4).
  destruct (websocket_roundtrip 1 [1; 2; 3; 4] [104; 105] [9] 4096 0 H1 eq_refl H2 H3) as (A & _ & C & _).
  split; [exact (proj1 (A H4))|exact C].
Defined.
