(* ===== verification/Stun.v ===== *)
(** * STUN for ICE-lite

    [app/webrtc/stun.{hpp,cpp}]: the Binding Request of the browser, parsed and
    checked against our password, and the answer.  A read of the datagram is
    [p !! i]; one outside of it makes the parser [None]. *)

From S2P Require Import Prelude Text Bytes Sha1.

Definition MAGIC : Z := 0x2112A442.

(** [crc32]: eight steps per octet. *)
Definition crc_step (c : Z) : Z := Z.lxor (Z.shiftr c 1) (Z.land 0xedb88320 (u32 (- Z.land c 1))).
Definition crc_octet (c b : Z) : Z := Nat.iter 8 crc_step (Z.lxor c b).
Definition crc32 (p : bytes) : Z := Z.lxor (fold_left crc_octet p 0xffffffff) 0xffffffff.

Definition is_stun (p : bytes) : option bool :=
  if (length p <? 20)%nat then Some false else
  b0 ← p !! 0%nat;
  if negb (Z.land b0 0xc0 =? 0) then Some false else
  m ← get32 p 4; Some (m =? MAGIC).

Record StunRequest := {
  ok : bool;
  tid : bytes;
  username : bytes;
  use_candidate : bool;
  integrity_ok : bool;
}.

#[export] Instance eta_StunRequest : Settable StunRequest := fun r =>
  Build_StunRequest (ok r) (tid r) (username r) (use_candidate r) (integrity_ok r).
#[export] Instance set_ok : Setter ok.
Proof. derive_setter. Defined.
#[export] Instance set_tid : Setter tid.
Proof. derive_setter. Defined.
#[export] Instance set_username : Setter username.
Proof. derive_setter. Defined.
#[export] Instance set_use_candidate : Setter use_candidate.
Proof. derive_setter. Defined.
#[export] Instance set_integrity_ok : Setter integrity_ok.
Proof. derive_setter. Defined.

Definition no_request : StunRequest :=
  {| ok := false; tid := repeat 0 12; username := []; use_candidate := false; integrity_ok := false |}.

(** [copy[2] = len >> 8; copy[3] = len]. *)
Definition with_length (len : Z) (p : bytes) : bytes := take 2 p ++ be16 len ++ drop 4 p.

(** The HMAC over the message up to [pos], its length field written as if it
    ended behind the attribute that begins there. *)
Definition message_mac (pwd p : bytes) (pos : nat) : bytes :=
  hmac_sha1 pwd (with_length (u16 (Z.of_nat (pos + 24 - 20))) (take pos p)).

(** One attribute at [pos], its value of [alen] octets. *)
Definition attribute (p pwd : bytes) (pos : nat) (type : Z) (alen : nat) (r : StunRequest) : option StunRequest :=
  let av := take alen (drop (pos + 4) p) in
  if negb (length av =? alen)%nat then None else
  Some (if type =? 0x0006 then r <| username := av |>
        else if type =? 0x0025 then r <| use_candidate := true |>
        else if (type =? 0x0008) && (alen =? 20)%nat then
          r <| integrity_ok := bool_decide (message_mac pwd p pos = av) |>
        else r).

(** [while (at + 4 <= 20 + mlen)]; every round moves [at] by four or more. *)
Fixpoint attributes (fuel : nat) (p pwd : bytes) (fin pos : nat) (r : StunRequest) : option StunRequest :=
  match fuel with
  | O => None
  | S fuel =>
      if negb (pos + 4 <=? fin)%nat then Some r else
      type ← get16 p pos;
      alen ← get16 p (pos + 2);
      let alen := Z.to_nat alen in
      if (fin <? pos + 4 + alen)%nat then Some r else
      r ← attribute p pwd pos type alen r;
      attributes fuel p pwd fin (pos + (4 + alen) + Z.to_nat (Z.land (4 - Z.land (Z.of_nat alen) 3) 3)) r
  end.

Definition parse_binding_request (p pwd : bytes) : option StunRequest :=
  let n := length p in
  s ← is_stun p;
  if negb s then Some no_request else
  t ← get16 p 0;
  if negb (t =? 0x0001) then Some no_request else
  l ← get16 p 2;
  let mlen := Z.to_nat l in
  if (n <? 20 + mlen)%nat then Some no_request else
  let r := no_request <| tid := take 12 (drop 8 p) |> in
  r ← attributes (S n) p pwd (20 + mlen) 20 r;
  Some (r <| ok := true |>).

Definition binding_response (tid : bytes) (peer_ip4 peer_port : Z) (pwd : bytes) : bytes :=
  let b := be16 0x0101 ++ be16 0 ++ be32 MAGIC ++ tid in
  let b := b ++ be16 0x0020 ++ be16 8 ++ [0; 0x01] ++ be16 (u16 (Z.lxor peer_port (Z.shiftr MAGIC 16)))
             ++ be32 (Z.lxor peer_ip4 MAGIC) in
  let b := with_length (u16 (Z.of_nat (length b) - 20 + 24)) b in
  let b := b ++ be16 0x0008 ++ be16 20 ++ hmac_sha1 pwd b in
  let b := with_length (u16 (Z.of_nat (length b) - 20 + 8)) b in
  b ++ be16 0x8028 ++ be16 4 ++ be32 (Z.lxor (crc32 b) 0x5354554e).

(** The check value of CRC-32. *)
Example crc32_check : crc32 (octets_of (txt "123456789")) = 0xCBF43926.
Proof. by vm_compute. Qed.

(** ** Any datagram *)

(** A MESSAGE-INTEGRITY attribute at [pos] that holds the right HMAC. *)
Definition integrity_at (p pwd : bytes) (pos : nat) : Prop :=
  (20 <= pos)%nat /\ (pos + 24 <= length p)%nat /\ rd16 p pos = 0x0008 /\ rd16 p (pos + 2) = 20
  /\ message_mac pwd p pos = take 20 (drop (pos + 4) p).

Lemma attribute_in p pwd pos type alen r : (pos + 4 + alen <= length p)%nat ->
  exists r', attribute p pwd pos type alen r = Some r'
  /\ (integrity_ok r' = true -> integrity_ok r = true
      \/ (type = 0x0008 /\ alen = 20%nat /\ message_mac pwd p pos = take 20 (drop (pos + 4) p))).
Proof.
  intros H. unfold attribute. rewrite length_take, length_drop.
  destruct (Nat.eqb_spec (alen `min` (length p - (pos + 4))) alen) as [_|]; [|lia]. cbn [negb]. eexists. split; [done|].
  destruct (Z.eqb_spec type 6); [by left|]. destruct (Z.eqb_spec type 37); [by left|].
  destruct (Z.eqb_spec type 8) as [->|]; cbn [andb]; [|by left]. destruct (Nat.eqb_spec alen 20) as [->|]; [|by left].
  intros Hi. right. split; [done|]. split; [done|]. by apply bool_decide_eq_true in Hi.
Qed.

Lemma pad_bound x : (Z.to_nat (Z.land x 3) <= 3)%nat.
Proof. change 3 with (Z.ones 2) at 1. rewrite Z.land_ones by lia. pose proof (Z.mod_pos_bound x (2 ^ 2) ltac:(lia)). lia. Qed.

Lemma attributes_in fuel p pwd fin : octets p -> (fin <= length p)%nat -> forall pos r,
  (20 <= pos <= fin + 3)%nat -> (fin + 4 < pos + fuel)%nat ->
  exists r', attributes fuel p pwd fin pos r = Some r'
  /\ (integrity_ok r' = true -> integrity_ok r = true \/ exists pos', integrity_at p pwd pos').
Proof.
  intros Hp Hfin. induction fuel as [|fuel IH]; intros pos r H20 Hf; cbn [attributes].
  { lia. }
  destruct (Nat.leb_spec (pos + 4) fin) as [H4|]; cbn [negb]; [|by exists r; auto].
  rewrite !get16_in by lia. cbn [mbind option_bind]. set (alen := Z.to_nat (rd16 p (pos + 2))).
  destruct (Nat.ltb_spec fin (pos + 4 + alen)) as [|Ha]; [by exists r; auto|].
  destruct (attribute_in p pwd pos (rd16 p pos) alen r) as (r' & -> & Hr'); [lia|]. cbn [mbind option_bind].
  destruct (IH (pos + (4 + alen) + Z.to_nat (Z.land (4 - Z.land (Z.of_nat alen) 3) 3))%nat r') as (r'' & -> & Hr'');
    [pose proof (pad_bound (4 - Z.land (Z.of_nat alen) 3)); lia|lia|].
  exists r''. split; [done|]. intros Hi. destruct (Hr'' Hi) as [Hi'|?]; [|by right].
  destruct (Hr' Hi') as [?|(Ht & Hl & Hm)]; [by left|right]. exists pos. split; [lia|]. split; [lia|]. split; [done|].
  split; [|done]. pose proof (rd16_word p (pos + 2) Hp) as [? _]. unfold alen in Hl. lia.
Qed.

(** A Binding Request counts as ours only with the HMAC under our password.
    Whatever octets arrive, the parser returns without reading outside of them,
    and it reports integrity only for a datagram that carries, at some place behind
    the header, a MESSAGE-INTEGRITY attribute holding the HMAC of what precedes
    it under the password. *)
Theorem stun_integrity (p pwd : bytes) :
  octets p ->
  is_Some (is_stun p)
  /\ exists r, parse_binding_request p pwd = Some r
     /\ (integrity_ok r = true -> ok r = true /\ is_stun p = Some true /\ exists pos, integrity_at p pwd pos).
Proof.
  intros Hp. assert (Hs : exists b, is_stun p = Some b /\ (b = true -> (20 <= length p)%nat)).
  { unfold is_stun. destruct (Nat.ltb_spec (length p) 20); [by exists false|]. reads_by ltac:(lia).
    destruct (negb _); [by exists false|]. by eexists. }
  destruct Hs as (b & Hs & Hb). split; [by exists b|]. unfold parse_binding_request. rewrite Hs. cbn [mbind option_bind].
  destruct b; cbn [negb]; [|(exists no_request; split; [done|discriminate])]. specialize (Hb eq_refl). reads_by ltac:(lia).
  destruct (negb _); [(exists no_request; split; [done|discriminate])|].
  destruct (Nat.ltb_spec (length p) (20 + Z.to_nat (rd16 p 2))) as [|Hl]; [(exists no_request; split; [done|discriminate])|].
  destruct (attributes_in (S (length p)) p pwd (20 + Z.to_nat (rd16 p 2)) Hp Hl 20 (no_request <| tid := take 12 (drop 8 p) |>))
    as (r & -> & Hr); [lia..|].
  cbn [mbind option_bind]. eexists. split; [done|]. intros Hi. split; [done|]. split; [done|]. by destruct (Hr Hi).
Qed.


(** Somebody else's request, and one with a forged attribute. *)
Definition stray : bytes := be16 1 ++ be16 24 ++ be32 MAGIC ++ repeat 7 12 ++ be16 8 ++ be16 20 ++ repeat 0 20.

Lemma stun_integrity_witness : parse_binding_request stray [1; 2; 3] <> None.
Proof.
  assert (Hp : octets stray) by (apply List.Forall_forall; intros b Hb;
    assert (F : forallb (fun b => (0 <=? b) && (b <? 256)) stray = true) by (by vm_compute);
    rewrite forallb_forall in F; specialize (F b Hb); rewrite andb_true_iff, Z.leb_le, Z.ltb_lt in F; exact F).
  destruct (stun_integrity stray [1; 2; 3] Hp) as (_ & r & Hr & _). rewrite Hr. discriminate.
Defined.

(** ** The request of a browser *)

(** An attribute of RFC 5389 15: type, length, value, padding to 32 bits. *)
Record Attr := {
  a_type : Z;
  a_value : bytes;
}.

Definition padding (len : nat) : nat := ((4 - len mod 4) mod 4)%nat.
Definition attr_bytes (a : Attr) : bytes :=
  be16 (a_type a) ++ be16 (Z.of_nat (length (a_value a))) ++ a_value a ++ repeat 0 (padding (length (a_value a))).
Definition attrs_bytes (l : list Attr) : bytes := concat (map attr_bytes l).

(** 6: the header, for a body of [len] octets. *)
Definition request_header (len : nat) (tid : bytes) : bytes := be16 0x0001 ++ be16 (Z.of_nat len) ++ be32 MAGIC ++ tid.
Definition request (tid : bytes) (l : list Attr) : bytes := request_header (length (attrs_bytes l)) tid ++ attrs_bytes l.

(** 15.4: the HMAC of the message up to the attribute, the length in the header
    pointing to its end. *)
Definition client_mac (pwd tid : bytes) (before : list Attr) : bytes :=
  hmac_sha1 pwd (request_header (length (attrs_bytes before) + 24) tid ++ attrs_bytes before).

Definition attr_ok (a : Attr) : Prop := word 16 (a_type a) /\ Z.of_nat (length (a_value a)) < 65536.

Lemma attr_fields pre a post : attr_ok a ->
  let p := pre ++ attr_bytes a ++ post in
  rd16 p (length pre) = a_type a /\ rd16 p (length pre + 2) = Z.of_nat (length (a_value a))
  /\ take (length (a_value a)) (drop (length pre + 4) p) = a_value a.
Proof.
  intros [Ht Hl] p. unfold p, attr_bytes. split; [|split].
  - replace (length pre) with (length pre + 0)%nat by lia. rewrite rd16_app_r, <- !app_assoc, rd16_app_l by (cbn; lia).
    by apply rd16_be16.
  - rewrite rd16_app_r, <- !app_assoc, (rd16_app_r (be16 _) _ 0), rd16_app_l by (cbn; lia). apply rd16_be16. split; [lia|done].
  - rewrite drop_app_add, <- !app_assoc. change (take (length (a_value a)) (a_value a ++ repeat 0 (padding (length (a_value a))) ++ post) = a_value a).
    apply take_app_length.
Qed.

Lemma attr_length a : length (attr_bytes a) = (4 + length (a_value a) + padding (length (a_value a)))%nat.
Proof. unfold attr_bytes. rewrite !length_app, repeat_length. cbn. lia. Qed.

Lemma padding_code n : Z.to_nat (Z.land (4 - Z.land (Z.of_nat n) 3) 3) = padding n.
Proof.
  change 3 with (Z.ones 2). rewrite !Z.land_ones by lia. change (2 ^ 2) with 4. unfold padding.
  pose proof (Nat.mod_upper_bound n 4 ltac:(lia)). apply Nat2Z.inj.
  rewrite Z2Nat.id by (apply Z.mod_pos_bound; lia). rewrite Nat2Z.inj_mod, Nat2Z.inj_sub, Nat2Z.inj_mod by lia. done.
Qed.

(** What the parser makes of the attributes behind [before]. *)
Fixpoint interpret (pwd tid : bytes) (before l : list Attr) (r : StunRequest) : StunRequest :=
  match l with
  | [] => r
  | a :: l =>
      interpret pwd tid (before ++ [a]) l
        (if a_type a =? 0x0006 then r <| username := a_value a |>
         else if a_type a =? 0x0025 then r <| use_candidate := true |>
         else if (a_type a =? 0x0008) && (length (a_value a) =? 20)%nat
              then r <| integrity_ok := bool_decide (client_mac pwd tid before = a_value a) |>
         else r)
  end.

Lemma with_length_header len len' tid body :
  with_length len' (request_header len tid ++ body) = be16 0x0001 ++ be16 len' ++ be32 MAGIC ++ tid ++ body.
Proof. reflexivity. Qed.

Lemma mac_of_client pwd tid before post len : length tid = 12%nat -> Z.of_nat (length (attrs_bytes before)) + 24 < 65536 ->
  message_mac pwd (request_header len tid ++ attrs_bytes before ++ post) (20 + length (attrs_bytes before)) = client_mac pwd tid before.
Proof.
  intros Ht Hl. unfold message_mac, client_mac. f_equal. rewrite app_assoc, take_app_le by (rewrite length_app; unfold request_header; cbn; lia).
  rewrite take_ge by (rewrite length_app; unfold request_header; cbn; lia).
  rewrite with_length_header. unfold request_header. rewrite <- !app_assoc.
  replace (u16 (Z.of_nat (20 + length (attrs_bytes before) + 24 - 20))) with (Z.of_nat (length (attrs_bytes before) + 24)); [done|].
  rewrite wrap_small by (change (2 ^ 16) with 65536; lia). lia.
Qed.

Lemma attributes_interpret pwd tid len l : forall fuel before r,
  length tid = 12%nat -> Forall attr_ok l -> (length l < fuel)%nat -> Z.of_nat (length (attrs_bytes (before ++ l))) + 24 < 65536 ->
  let p := request_header len tid ++ attrs_bytes (before ++ l) in
  attributes fuel p pwd (length p) (20 + length (attrs_bytes before)) r = Some (interpret pwd tid before l r).
Proof.
  induction l as [|a l IH]; intros fuel before r Ht Hl Hf Hlen p; (destruct fuel as [|fuel]; [cbn in Hf; lia|]); cbn [attributes].
  - assert (E : length p = (20 + length (attrs_bytes before))%nat).
    { unfold p. rewrite app_nil_r, length_app. unfold request_header. cbn. lia. }
    rewrite E. destruct (Nat.leb_spec (20 + length (attrs_bytes before) + 4) (20 + length (attrs_bytes before))); [lia|done].
  - inversion Hl as [|? ? Ha Hl']; subst.
    set (pre := request_header len tid ++ attrs_bytes before).
    assert (Ep : p = pre ++ attr_bytes a ++ attrs_bytes l).
    { unfold p, pre, attrs_bytes. rewrite map_app, concat_app. cbn. by rewrite <- !app_assoc. }
    assert (Epre : length pre = (20 + length (attrs_bytes before))%nat) by (unfold pre; rewrite length_app; unfold request_header; cbn; lia).
    assert (Elen : length p = (length pre + (4 + length (a_value a) + padding (length (a_value a))) + length (attrs_bytes l))%nat).
    { rewrite Ep, !length_app, attr_length. lia. }
    destruct (attr_fields pre a (attrs_bytes l) Ha) as (F1 & F2 & F3). cbv zeta in F1, F2, F3. rewrite <- Ep in F1, F2, F3.
    rewrite <- Epre. destruct (Nat.leb_spec (length pre + 4) (length p)); [|lia]. cbn [negb]. rewrite !get16_in by lia.
    cbn [mbind option_bind]. rewrite F1, F2, Nat2Z.id.
    destruct (Nat.ltb_spec (length p) (length pre + 4 + length (a_value a))); [lia|].
    unfold attribute. rewrite F3, Nat.eqb_refl. cbn [negb mbind option_bind]. rewrite padding_code.
    assert (Em : message_mac pwd p (length pre) = client_mac pwd tid before).
    { rewrite Epre. unfold p, attrs_bytes at 1. rewrite map_app, concat_app. apply mac_of_client; [done|].
      unfold attrs_bytes in Hlen |- *. rewrite map_app, concat_app, length_app in Hlen. lia. }
    rewrite Em. cbn [interpret].
    assert (Eb : before ++ a :: l = (before ++ [a]) ++ l) by by rewrite <- app_assoc.
    unfold p. rewrite Eb in Hlen |- *. rewrite <- (IH fuel (before ++ [a])) by (done || (cbn in Hf; lia)).
    f_equal. unfold attrs_bytes. rewrite map_app, concat_app, length_app. cbn [map concat]. rewrite app_nil_r, attr_length. rewrite Epre. unfold attrs_bytes. lia.
Qed.

(** The last value of a USERNAME, and whether a USE-CANDIDATE is there. *)
Definition last_username (l : list Attr) : bytes :=
  match List.find (fun a => a_type a =? 0x0006) (rev l) with Some a => a_value a | None => [] end.
Definition asks_candidate (l : list Attr) : bool := existsb (fun a => a_type a =? 0x0025) l.
Definition is_integrity (a : Attr) : bool := (a_type a =? 0x0008) && (length (a_value a) =? 20)%nat.

Lemma interpret_fields pwd tid l : forall before r,
  let r' := interpret pwd tid before l r in
  ok r' = ok r /\ Stun.tid r' = Stun.tid r
  /\ username r' = (match List.find (fun a => a_type a =? 0x0006) (rev l) with Some a => a_value a | None => username r end)
  /\ use_candidate r' = use_candidate r || asks_candidate l
  /\ (existsb is_integrity l = false -> integrity_ok r' = integrity_ok r).
Proof.
  induction l as [|a l IH]; intros before r; [by rewrite orb_false_r|]. cbn [interpret rev asks_candidate existsb]. cbv zeta.
  match goal with |- context [interpret pwd tid (before ++ [a]) l ?x] => set (r1 := x) end.
  destruct (IH (before ++ [a]) r1) as (I1 & I2 & I3 & I4 & I5). rewrite I1, I2, I3, I4. unfold is_integrity at 1.
  assert (Ef : forall d, (match List.find (fun a => a_type a =? 6) (rev l ++ [a]) with Some a => a_value a | None => d end)
    = match List.find (fun a => a_type a =? 6) (rev l) with Some a => a_value a | None => if a_type a =? 6 then a_value a else d end).
  { intros d. clear. induction (rev l) as [|b k IH]; cbn [app List.find]; [by destruct (a_type a =? 6)|]. by destruct (a_type b =? 6). }
  rewrite Ef. do 2 (split; [unfold r1; by repeat case_match|]).
  unfold r1 in *. destruct (Z.eqb_spec (a_type a) 6) as [->|]; [|destruct (Z.eqb_spec (a_type a) 37) as [->|]].
  - do 2 (split; [done|]). intros H. by apply I5.
  - split; [done|]. split; [by rewrite orb_true_r|]. intros H. by apply I5.
  - destruct ((a_type a =? 8) && (length (a_value a) =? 20)%nat); do 2 (split; [done|]); intros H; [done|]. by apply I5.
Qed.

Lemma attrs_count l : (length l < S (20 + length (attrs_bytes l)))%nat.
Proof.
  unfold attrs_bytes. induction l as [|a l IH]; [cbn; lia|]. cbn [map concat length]. rewrite length_app, attr_length. lia.
Qed.

(** The last MESSAGE-INTEGRITY decides. *)
Lemma interpret_integrity pwd tid mac after : length mac = 20%nat -> existsb is_integrity after = false ->
  forall before pre r, integrity_ok (interpret pwd tid pre (before ++ {| a_type := 0x0008; a_value := mac |} :: after) r)
  = bool_decide (client_mac pwd tid (pre ++ before) = mac).
Proof.
  intros Hm Ha. induction before as [|b before IH]; intros pre r; cbn [app interpret].
  - cbn [a_type a_value Z.eqb Pos.eqb]. rewrite Hm, app_nil_r. cbn [Nat.eqb andb].
    match goal with |- integrity_ok (interpret _ _ _ _ ?x) = _ => pose proof (interpret_fields pwd tid after (pre ++ [{| a_type := 8; a_value := mac |}]) x) as (_ & _ & _ & _ & I) end.
    by rewrite I.
  - rewrite IH. by rewrite <- app_assoc.
Qed.

(** A browser's Binding Request is understood, and checked against what it
    computed.  For any attributes before and after a MESSAGE-INTEGRITY, each padded
    to 32 bits: the parser finds the transaction, the user name and the candidate
    flag, and reports integrity exactly when the attribute holds the HMAC of
    RFC 5389 15.4 under the password. *)
Theorem stun_request_parsed (pwd tid mac : bytes) (before after : list Attr) :
  length tid = 12%nat -> length mac = 20%nat ->
  let mi := {| a_type := 0x0008; a_value := mac |} in
  let l := before ++ mi :: after in
  Forall attr_ok l -> existsb is_integrity after = false -> Z.of_nat (length (attrs_bytes l)) + 24 < 65536 ->
  parse_binding_request (request tid l) pwd
  = Some {| ok := true; Stun.tid := tid; username := last_username l; use_candidate := asks_candidate l;
            integrity_ok := bool_decide (client_mac pwd tid before = mac) |}.
Proof.
  intros Ht Hm mi l Hl Hafter Hlen. set (p := request tid l). set (body := attrs_bytes l) in *.
  assert (Hlenp : length p = (20 + length body)%nat) by (unfold p, request; fold body; rewrite length_app; unfold request_header; rewrite !length_app; cbn; lia).
  assert (R0 : rd16 p 0 = 1) by done.
  assert (R2 : rd16 p 2 = Z.of_nat (length body)).
  { unfold p, request, request_header. fold body. rewrite <- !app_assoc, (rd16_app_r (be16 _) _ 0), rd16_app_l by (cbn; lia).
    apply rd16_be16. split; [lia|change (2 ^ 16) with 65536; lia]. }
  assert (Es : is_stun p = Some true).
  { unfold is_stun. destruct (Nat.ltb_spec (length p) 20); [lia|]. reads_by ltac:(lia). done. }
  unfold parse_binding_request. rewrite Es. cbn [mbind option_bind negb]. reads_by ltac:(lia). rewrite R0, R2, Nat2Z.id, Hlenp.
  cbn [Z.eqb Pos.eqb negb]. destruct (Nat.ltb_spec (20 + length body) (20 + length body)); [lia|].
  assert (Etid : take 12 (drop 8 p) = tid).
  { unfold p, request, request_header. rewrite <- !app_assoc. change (take 12 (tid ++ attrs_bytes l) = tid). rewrite <- Ht. apply take_app_length. }
  rewrite Etid. assert (Ea := attributes_interpret pwd tid (length body) l (S (20 + length body)) [] (no_request <| Stun.tid := tid |>) Ht Hl).
  cbv zeta in Ea. change ([] ++ l) with l in Ea. fold body in Ea. change (request_header (length body) tid ++ body) with p in Ea.
  rewrite Hlenp in Ea. change (length (attrs_bytes [])) with 0%nat in Ea. rewrite Nat.add_0_r in Ea. rewrite Ea; [|by apply attrs_count|done].
  cbn [mbind option_bind]. f_equal.
  destruct (interpret_fields pwd tid l [] (no_request <| Stun.tid := tid |>)) as (_ & I2 & I3 & I4 & _).
  assert (I5 : integrity_ok (interpret pwd tid [] l (no_request <| Stun.tid := tid |>)) = bool_decide (client_mac pwd tid before = mac)).
  { apply (interpret_integrity pwd tid mac after); done. }
  revert I2 I3 I4 I5. destruct (interpret _ _ _ _ _) as [? ? ? ? ?]. cbn. by intros -> -> -> ->.
Qed.

Definition our_pwd : bytes := [115; 101; 99; 114; 101; 116].
Definition a_tid : bytes := below 12.
Definition user : Attr := {| a_type := 0x0006; a_value := [97; 58; 98] |}.
Definition integrity (before : list Attr) : Attr := {| a_type := 0x0008; a_value := client_mac our_pwd a_tid before |}.
Definition candidate : Attr := {| a_type := 0x0025; a_value := [] |}.
Definition fingerprint : Attr := {| a_type := 0x8028; a_value := [1; 2; 3; 4] |}.

#[local] Opaque client_mac hmac_sha1.

Lemma attr_ok_intro t v : (0 <=? t) && (t <? 65536) && (length v <? 256)%nat = true -> attr_ok {| a_type := t; a_value := v |}.
Proof.
  rewrite !andb_true_iff, Z.leb_le, Z.ltb_lt, Nat.ltb_lt. intros [Ht Hv]. split; [exact Ht|]. cbn [a_value]. lia.
Qed.

Lemma stun_request_parsed_witness :
  parse_binding_request (request a_tid [user; candidate; integrity [user; candidate]; fingerprint]) our_pwd
  = Some {| ok := true; tid := a_tid; username := [97; 58; 98]; use_candidate := true; integrity_ok := true |}.
Proof.
  assert (H1 : Forall attr_ok ([user; candidate] ++ integrity [user; candidate] :: [fingerprint])).
  { cbn [app]. do 3 (apply Forall_cons; split; [apply attr_ok_intro; vm_compute; reflexivity|]).
    apply Forall_singleton, attr_ok_intro. vm_compute. reflexivity. }
  assert (H : length (client_mac our_pwd a_tid [user; candidate]) = 20%nat) by (vm_compute; reflexivity).
  etransitivity; [apply (stun_request_parsed our_pwd a_tid (client_mac our_pwd a_tid [user; candidate]) [user; candidate] [fingerprint]
    eq_refl H H1 eq_refl); vm_compute; reflexivity|].
  rewrite bool_decide_true by reflexivity. reflexivity.
Defined.

(** What stands behind the MESSAGE-INTEGRITY is covered by nothing, and is read
    all the same: a request as the browser sent it, and the same with a user
    name and a candidate flag added on the way. *)
Example unprotected_attributes :
  let sent := [user; integrity [user]] in
  let seen l := (fun r => (integrity_ok r, username r, use_candidate r)) <$> parse_binding_request (request a_tid l) our_pwd in
  seen sent = Some (true, [97; 58; 98], false)
  /\ seen (sent ++ [{| a_type := 0x0006; a_value := [120] |}; candidate]) = Some (true, [120], true).
Proof. split; by vm_compute. Qed.

(** ** The answer *)

Lemma crc_step_word c : word 32 c -> word 32 (crc_step c).
Proof.
  intros Hc. unfold crc_step. apply word_lxor; [lia| |].
  - destruct Hc as [H0 H1]. rewrite Z.shiftr_div_pow2 by lia. split; [by apply Z.div_pos|].
    change (2 ^ 1) with 2. apply Z.div_lt_upper_bound; lia.
  - apply word_land; [lia|done|]. by apply (word_wrap 32).
Qed.

Lemma crc32_word p : octets p -> word 32 (crc32 p).
Proof.
  intros Hp. unfold crc32. apply word_lxor; [lia| |done].
  assert (G : forall c, word 32 c -> word 32 (fold_left crc_octet p c)); [|by apply G].
  induction Hp as [|b p Hb Hp IH]; intros c Hc; [done|]. cbn [fold_left]. apply IH. unfold crc_octet.
  assert (H : word 32 (Z.lxor c b)) by (apply word_lxor; [lia|done|]; apply (word_weaken 8); [lia|done]).
  revert H. generalize (Z.lxor c b). generalize 8%nat. intros k. induction k as [|k IHk]; intros z Hz; [done|].
  cbn [Nat.iter nat_rect]. apply crc_step_word, IHk, Hz.
Qed.

(** Its parts: the header for a length, the address, the HMAC, all before the
    FINGERPRINT. *)
Definition answer_header (len : Z) (tid : bytes) : bytes := be16 0x0101 ++ be16 len ++ be32 MAGIC ++ tid.
Definition address_part (ip port : Z) : bytes :=
  be16 0x0020 ++ be16 8 ++ [0; 0x01] ++ be16 (u16 (Z.lxor port (Z.shiftr MAGIC 16))) ++ be32 (Z.lxor ip MAGIC).
Definition mac_part (tid : bytes) (ip port : Z) (pwd : bytes) : bytes := hmac_sha1 pwd (answer_header 36 tid ++ address_part ip port).
Definition body_part (tid : bytes) (ip port : Z) (pwd : bytes) : bytes :=
  answer_header 44 tid ++ address_part ip port ++ be16 0x0008 ++ be16 20 ++ mac_part tid ip port pwd.

Lemma with_length_answer len len' tid rest :
  with_length len' (be16 0x0101 ++ be16 len ++ be32 MAGIC ++ tid ++ rest) = answer_header len' tid ++ rest.
Proof. reflexivity. Qed.

Lemma response_shape tid ip port pwd : length tid = 12%nat ->
  binding_response tid ip port pwd
  = body_part tid ip port pwd ++ be16 0x8028 ++ be16 4 ++ be32 (Z.lxor (crc32 (body_part tid ip port pwd)) 0x5354554e).
Proof.
  intros Ht. unfold binding_response. fold (address_part ip port). rewrite <- !(app_assoc _ _ (address_part ip port)).
  assert (L1 : length (be16 0x0101 ++ be16 0 ++ be32 MAGIC ++ tid ++ address_part ip port) = 32%nat) by (rewrite !length_app, Ht; done).
  rewrite L1, with_length_answer. change (u16 (Z.of_nat 32 - 20 + 24)) with 36. fold (mac_part tid ip port pwd).
  assert (L2 : length ((answer_header 36 tid ++ address_part ip port) ++ be16 8 ++ be16 20 ++ mac_part tid ip port pwd) = 56%nat).
  { unfold answer_header. rewrite !length_app, Ht. unfold mac_part. rewrite length_hmac. done. }
  rewrite L2. change (u16 (Z.of_nat 56 - 20 + 8)) with 44. unfold answer_header at 1 2. rewrite <- !app_assoc.
  by rewrite !with_length_answer.
Qed.

(** The answer passes every check of the browser: it is a Binding Success of
    the transaction, its XOR-MAPPED-ADDRESS names the address and port the request
    came from, its MESSAGE-INTEGRITY holds the HMAC under the password for the
    length the message has up to there, its FINGERPRINT the CRC of all before it,
    and the length in the header is the length of the message. *)
Theorem stun_answer_verifies (tid pwd : bytes) (ip port : Z) :
  length tid = 12%nat -> octets tid -> word 32 ip -> word 16 port ->
  let b := binding_response tid ip port pwd in
  is_stun b = Some true /\ rd16 b 0 = 0x0101 /\ take 12 (drop 8 b) = tid /\ rd16 b 2 = Z.of_nat (length b) - 20
  /\ (rd16 b 20 = 0x0020 /\ rd16 b 22 = 8 /\ octet_at b 25 = 1
      /\ Z.lxor (rd16 b 26) (Z.shiftr MAGIC 16) = port /\ Z.lxor (rd32 b 28) MAGIC = ip)
  /\ integrity_at b pwd 32
  /\ (rd16 b 56 = 0x8028 /\ rd16 b 58 = 4 /\ rd32 b 60 = Z.lxor (crc32 (take 56 b)) 0x5354554e).
Proof.
  intros Ht Ho Hip Hport b. set (m := mac_part tid ip port pwd).
  assert (Hm : length m = 20%nat) by apply length_hmac.
  assert (Om : octets m) by apply octets_hmac.
  assert (Eb : b = body_part tid ip port pwd ++ be16 0x8028 ++ be16 4 ++ be32 (Z.lxor (crc32 (body_part tid ip port pwd)) 0x5354554e))
    by by apply response_shape.
  assert (Hl : length (body_part tid ip port pwd) = 56%nat).
  { unfold body_part, answer_header. fold m. rewrite !length_app, Ht, Hm. done. }
  set (fp := Z.lxor (crc32 (body_part tid ip port pwd)) 0x5354554e) in *.
  set (rest := address_part ip port ++ be16 0x0008 ++ be16 20 ++ m ++ be16 0x8028 ++ be16 4 ++ be32 fp).
  assert (Eh : b = answer_header 44 tid ++ rest) by (rewrite Eb; unfold body_part, rest; by rewrite <- !app_assoc).
  assert (Lh : length (answer_header 44 tid) = 20%nat) by (unfold answer_header; rewrite !length_app, Ht; done).
  assert (Lb : length b = 64%nat) by (rewrite Eb, length_app, Hl; done).
  assert (R16 : forall i, rd16 b (20 + i) = rd16 rest i) by (intros i; rewrite Eh, <- Lh; apply rd16_app_r).
  assert (R32 : forall i, rd32 b (20 + i) = rd32 rest i) by (intros i; rewrite Eh, <- Lh; apply rd32_app_r).
  split; [|split; [|split; [|split; [|split; [|split]]]]].
  - unfold is_stun. destruct (Nat.ltb_spec (length b) 20); [lia|]. reads_by ltac:(lia). by rewrite Eh.
  - by rewrite Eh.
  - rewrite Eh. unfold answer_header. rewrite <- !app_assoc. change (take 12 (tid ++ rest) = tid). rewrite <- Ht. apply take_app_length.
  - rewrite Lb, Eh. done.
  - split; [exact (R16 0%nat)|]. split; [exact (R16 2%nat)|]. split; [|split].
    + rewrite Eh. replace 25%nat with (length (answer_header 44 tid) + 5)%nat by (by rewrite Lh). by rewrite octet_at_app_r.
    + change 26%nat with (20 + 6)%nat. rewrite R16. change (rd16 rest 6) with (rd16 (be16 (u16 (Z.lxor port (Z.shiftr MAGIC 16)))) 0).
      rewrite rd16_be16 by by apply word_wrap. rewrite wrap_small by by apply (word_lxor 16).
      by rewrite Z.lxor_assoc, Z.lxor_nilpotent, Z.lxor_0_r.
    + change 28%nat with (20 + 8)%nat. rewrite R32. change (rd32 rest 8) with (rd32 (be32 (Z.lxor ip MAGIC)) 0).
      rewrite rd32_be32 by by apply (word_lxor 32). by rewrite Z.lxor_assoc, Z.lxor_nilpotent, Z.lxor_0_r.
  - split; [lia|]. split; [lia|]. split; [exact (R16 12%nat)|]. split; [exact (R16 14%nat)|].
    set (tail := be16 8 ++ be16 20 ++ m ++ be16 0x8028 ++ be16 4 ++ be32 fp).
    assert (E32 : b = (answer_header 44 tid ++ address_part ip port) ++ tail) by (rewrite Eh; unfold rest, tail; by rewrite <- !app_assoc).
    assert (L32 : length (answer_header 44 tid ++ address_part ip port) = 32%nat) by (rewrite length_app, Lh; done).
    unfold message_mac. rewrite E32. rewrite <- L32 at 2. rewrite take_app_length.
    assert (E36 : drop (32 + 4) ((answer_header 44 tid ++ address_part ip port) ++ tail) = m ++ be16 0x8028 ++ be16 4 ++ be32 fp).
    { rewrite <- L32, drop_app_add. done. }
    rewrite E36. change (u16 (Z.of_nat (32 + 24 - 20))) with 36. unfold answer_header at 1. rewrite <- !app_assoc, with_length_answer.
    fold (mac_part tid ip port pwd). fold m. rewrite <- Hm. symmetry. apply take_app_length.
  - set (fin := be16 0x8028 ++ be16 4 ++ be32 fp) in *.
    assert (F16 : forall i, rd16 b (56 + i) = rd16 fin i) by (intros i; rewrite Eb, <- Hl; apply rd16_app_r).
    assert (F32 : forall i, rd32 b (56 + i) = rd32 fin i) by (intros i; rewrite Eb, <- Hl; apply rd32_app_r).
    split; [exact (F16 0%nat)|]. split; [exact (F16 2%nat)|].
    assert (Et : take 56 b = body_part tid ip port pwd) by (rewrite Eb, <- Hl; apply take_app_length).
    rewrite Et. change 60%nat with (56 + 4)%nat. rewrite F32. change (rd32 fin 4) with (rd32 (be32 fp) 0). apply rd32_be32.
    apply word_lxor; [lia|apply crc32_word|done]. unfold body_part, answer_header, address_part. fold m. rewrite !octets_app.
    assert (octets [0; 1]) by (by repeat constructor). auto 20 with machino.
Qed.

Lemma stun_answer_verifies_witness :
  is_stun (binding_response a_tid 0xc0a80001 50000 our_pwd) = Some true
  /\ integrity_at (binding_response a_tid 0xc0a80001 50000 our_pwd) our_pwd 32.
Proof.
  assert (Ho : octets a_tid).
  { apply List.Forall_forall. intros x Hx. apply in_map_iff in Hx as (n & <- & Hn). apply in_seq in Hn. unfold word.
    change (2 ^ 8) with 256. lia. }
  assert (H : word 32 0xc0a80001 /\ word 16 50000) by (unfold word; repeat split; by vm_compute).
  destruct (stun_answer_verifies a_tid our_pwd 0xc0a80001 50000 eq_refl Ho (proj1 H) (proj2 H)) as (H1 & _ & _ & _ & _ & H2 & _).
  split; [exact H1|exact H2].
Defined.
