(* ===== verification/Session.v ===== *)
(** * Sessions of the front door

    [app/http/session.{hpp,cpp}], [SessionGate]: the cookie of a browser that
    logged in, the form and cookie parsers, Basic authentication.  The credential
    check is the function it is constructed with; the tokens come from
    [secure_hex] and are arguments of the operations that draw them, empty when
    there is no randomness.  An [int64_t] time does not come near its bounds. *)

From S2P Require Import Prelude Text Bytes Base64.

Definition SESSION_MS : Z := 12 * 3600 * 1000.
Definition REMEMBER_MS : Z := 30 * 24 * 3600 * 1000.
Definition MAX_SESSIONS : nat := 32.
Definition COOKIE : text := txt "session".

Definition is_public (method path : text) : bool :=
  (text_eqb method (txt "GET") && (text_eqb path (txt "/login.html") || text_eqb path (txt "/favicon.ico")))
  || (text_eqb method (txt "POST") && text_eqb path (txt "/login")).

(** [s.compare(0, p.size(), p) == 0]. *)
Definition starts_with (p s : text) : bool := text_eqb (take (length p) s) p.

Definition is_local_peer (peer : text) : bool := starts_with (txt "127.") peer || starts_with (txt "::1") peer.

(** ** Parsers; a position in the string is the suffix that begins there *)

Definition hexval (c : ascii) : option Z :=
  let x := char_code c in
  if (48 <=? x) && (x <=? 57) then Some (x - 48)
  else if (97 <=? x) && (x <=? 102) then Some (x - 97 + 10)
  else if (65 <=? x) && (x <=? 70) then Some (x - 65 + 10)
  else None.

(** The loop over the value, between [=] and [&]. *)
Fixpoint url_decode (s : text) : text :=
  match s with
  | [] => []
  | c :: r =>
      if Ascii.eqb c "+" then " "%char :: url_decode r
      else if Ascii.eqb c "%" then
        match r with
        | h :: l :: r' =>
            match hexval h, hexval l with
            | Some a, Some b => chr (a * 16 + b) :: url_decode r'
            | _, _ => c :: url_decode r
            end
        | _ => c :: url_decode r
        end
      else c :: url_decode r
  end.

(** A turn of [while (p < body.size())] takes at least the [&]. *)
Fixpoint form_loop (fuel : nat) (body key : text) : text :=
  match fuel, body with
  | S fuel, _ :: _ =>
      let amp := default (length body) (index_of "&" body) in
      match index_of "=" body with
      | Some eq =>
          if (eq <? amp)%nat && text_eqb (take eq body) key
          then url_decode (take (amp - (eq + 1)) (drop (eq + 1) body))
          else form_loop fuel (drop (amp + 1) body) key
      | None => form_loop fuel (drop (amp + 1) body) key
      end
  | _, _ => []
  end.

Definition form_value (body key : text) : text := form_loop (length body) body key.

Fixpoint skip_blanks (s : text) : text :=
  match s with
  | c :: r => if Ascii.eqb c " " || Ascii.eqb c ";" then skip_blanks r else s
  | [] => []
  end.

Fixpoint cookie_loop (fuel : nat) (header name : text) : text :=
  match fuel, header with
  | S fuel, _ :: _ =>
      let s := skip_blanks header in
      let fin := default (length s) (index_of ";" s) in
      match index_of "=" s with
      | Some eq =>
          if (eq <? fin)%nat && text_eqb (take eq s) name then take (fin - eq - 1) (drop (eq + 1) s)
          else cookie_loop fuel (drop (fin + 1) s) name
      | None => cookie_loop fuel (drop (fin + 1) s) name
      end
  | _, _ => []
  end.

Definition cookie_value (header name : text) : text := cookie_loop (length header) header name.

(** ** The gate *)

(** The order in which an [unordered_map] is walked is the library's. *)
Class Iteration := iterate : gmap text Z -> list (text * Z).
Class IterationLaw `{Iteration} := iterate_all m : iterate m ≡ₚ map_to_list m.

(** What the gate is constructed with; [None] is an empty [std::function]. *)
Class Credentials := check_ : option (text -> text -> bool).

Definition checked `{Credentials} (user pass : text) : bool :=
  match check_ with Some f => f user pass | None => false end.

(** The tokens and their expiry. *)
Abbreviation gate := (gmap text Z).

Section Gate.
Context {It : Iteration} {Cred : Credentials}.

Definition authed_basic (authorization_header : text) : bool :=
  if negb (starts_with (txt "Basic ") authorization_header) then false else
  match Base64.Session.b64_decode (drop 6 authorization_header) with
  | None => false
  | Some plain =>
      let plain := map chr plain in
      match index_of ":" plain with
      | None => false
      | Some colon =>
          if negb (text_eqb (take colon plain) (txt "root")) then false
          else checked (take colon plain) (drop (colon + 1) plain)
      end
  end.

Definition authed (cookie_header : text) (now_ms : Z) (tokens_ : gate) : bool * gate :=
  let tok := cookie_value cookie_header COOKIE in
  match tok with
  | [] => (false, tokens_)
  | _ =>
      match tokens_ !! tok with
      | None => (false, tokens_)
      | Some expiry => if expiry <? now_ms then (false, delete tok tokens_) else (true, tokens_)
      end
  end.

(** [for (it) if (it->second < oldest->second) oldest = it]. *)
Definition oldest (l : list (text * Z)) : option text :=
  match l with
  | [] => None
  | e :: _ => Some (fold_left (fun o it => if it.2 <? o.2 then it else o) l e).1
  end.

Fixpoint drop_oldest (fuel : nat) (tokens_ : gate) : gate :=
  match fuel with
  | O => tokens_
  | S fuel =>
      if (MAX_SESSIONS <=? base.size tokens_)%nat then
        match oldest (iterate tokens_) with
        | Some k => drop_oldest fuel (delete k tokens_)
        | None => tokens_
        end
      else tokens_
  end.

Definition evict (now_ms : Z) (tokens_ : gate) : gate :=
  let tokens_ := filter (fun kv => ~ kv.2 < now_ms) tokens_ in drop_oldest (base.size tokens_) tokens_.

Definition set_cookie (tok : text) : text :=
  txt "Set-Cookie: " ++ COOKIE ++ txt "=" ++ tok ++ txt "; Path=/; HttpOnly; SameSite=Strict".

(** Status and [Set-Cookie] line. *)
Definition login (body : text) (now_ms : Z) (tok : text) (tokens_ : gate) : Z * text * gate :=
  let user := form_value body (txt "username") in
  let pass := form_value body (txt "password") in
  let remember := text_eqb (form_value body (txt "remember")) (txt "1") in
  match user with
  | [] => (400, [], tokens_)
  | _ =>
      if negb (text_eqb user (txt "root")) then (403, [], tokens_) else
      if negb (checked user pass) then (403, [], tokens_) else
      let tokens_ := evict now_ms tokens_ in
      match tok with
      | [] => (500, [], tokens_)
      | _ =>
          let tokens_ := <[tok := now_ms + if remember then REMEMBER_MS else SESSION_MS]> tokens_ in
          (200, set_cookie tok ++ (if remember then txt "; Max-Age=2592000" else []) ++ CRLF, tokens_)
      end
  end.

Definition mint (now_ms : Z) (tok : text) (tokens_ : gate) : text * gate :=
  let tokens_ := evict now_ms tokens_ in
  match tok with
  | [] => ([], tokens_)
  | _ => (set_cookie tok ++ CRLF, <[tok := now_ms + SESSION_MS]> tokens_)
  end.

Definition logout (cookie_header : text) (tokens_ : gate) : gate :=
  match cookie_value cookie_header COOKIE with
  | [] => tokens_
  | tok => delete tok tokens_
  end.

Definition clear_cookie : text := txt "Set-Cookie: " ++ COOKIE ++ txt "=; Path=/; Max-Age=0" ++ CRLF.
End Gate.

(** ** Eviction *)

Lemma fold_earliest l : forall o : text * Z,
  let r := fold_left (fun o it => if it.2 <? o.2 then it else o) l o in
  (r = o \/ In r l) /\ r.2 <= o.2 /\ (forall x, In x l -> r.2 <= x.2).
Proof.
  induction l as [|x l IH]; intros o; cbn [fold_left]; [split; [by left|split; [lia|done]]|].
  destruct (IH (if x.2 <? o.2 then x else o)) as (H1 & H2 & H3). destruct (Z.ltb_spec x.2 o.2).
  - split; [destruct H1 as [->|]; [right; by left|right; by right]|]. split; [lia|]. intros y [<-|Hy]; [done|by apply H3].
  - split; [destruct H1 as [H1|]; [by left|right; by right]|]. split; [done|]. intros y [<-|Hy]; [lia|by apply H3].
Qed.

Section Theorems.
Context {It : Iteration} {Law : IterationLaw} {Cred : Credentials}.

Lemma oldest_spec (m : gate) : m <> ∅ -> exists k e, oldest (iterate m) = Some k /\ m !! k = Some e
  /\ (forall k' e', m !! k' = Some e' -> e <= e').
Proof.
  intros Hm. pose proof (iterate_all m) as P. assert (A : forall k e, In (k, e) (iterate m) <-> m !! k = Some e).
  { intros k e. rewrite <- list_elem_of_In, P. apply elem_of_map_to_list. }
  destruct (iterate m) as [|x l] eqn:E.
  - exfalso. apply Hm. apply map_to_list_empty_iff. by apply Permutation_nil_l in P.
  - cbn [oldest]. destruct (fold_earliest (x :: l) x) as (H1 & H2 & H3). set (r := fold_left _ _ _) in *.
    assert (Hr : In r (x :: l)) by (destruct H1 as [->|]; [by left|done]). destruct r as [k e]. exists k, e. cbn [fst].
    split; [done|]. split; [by apply A|]. intros k' e' Hk. apply A in Hk. by apply (H3 (k', e')).
Qed.

(** What is left by [drop_oldest], and what it took. *)
Lemma drop_oldest_spec fuel : forall m : gate, (base.size m <= fuel)%nat ->
  let m' := drop_oldest fuel m in
  m' ⊆ m /\ (base.size m' < MAX_SESSIONS)%nat
  /\ (m' = m \/ (MAX_SESSIONS <= base.size m)%nat /\ base.size m' = (MAX_SESSIONS - 1)%nat)
  /\ (forall k e k' e', m !! k = Some e -> m' !! k = None -> m' !! k' = Some e' -> e <= e').
Proof.
  induction fuel as [|fuel IH]; intros m Hf; cbn [drop_oldest].
  - split; [done|]. split; [unfold MAX_SESSIONS; lia|]. split; [by left|]. intros. simplify_map_eq.
  - destruct (Nat.leb_spec MAX_SESSIONS (base.size m)) as [Hfull|Hroom].
    + destruct (oldest_spec m) as (k & e & -> & Hk & Hmin).
      { intros ->. rewrite map_size_empty in Hfull. unfold MAX_SESSIONS in Hfull. lia. }
      assert (Hs : base.size (delete k m) = pred (base.size m)) by (by rewrite map_size_delete, Hk).
      destruct (IH (delete k m)) as (I1 & I2 & I3 & I4); [unfold MAX_SESSIONS in Hfull; lia|]. split; [|split; [done|split]].
      * transitivity (delete k m); [done|apply delete_subseteq].
      * right. split; [done|]. destruct I3 as [I3|[_ ->]]; [|done]. rewrite I3 in I2.
        rewrite I3, Hs. rewrite Hs in I2. unfold MAX_SESSIONS in *. lia.
      * intros k1 e1 k2 e2 G1 G2 G3. destruct (decide (k1 = k)) as [->|Hne].
        -- simplify_eq. apply (Hmin k2). apply (lookup_weaken _ _ _ _ G3). transitivity (delete k m); [done|apply delete_subseteq].
        -- apply (I4 k1 e1 k2 e2); [by rewrite lookup_delete_ne|done|done].
    + split; [done|]. split; [done|]. split; [by left|]. intros. simplify_map_eq.
Qed.

Lemma evict_spec (now : Z) (m : gate) :
  let m' := evict now m in
  (forall k e, m' !! k = Some e -> m !! k = Some e /\ now <= e)
  /\ (base.size m' < MAX_SESSIONS)%nat
  /\ (forall k e, m !! k = Some e -> m' !! k = None ->
       e < now \/ (base.size m' = MAX_SESSIONS - 1)%nat /\ (forall k' e', m' !! k' = Some e' -> e <= e')).
Proof.
  unfold evict. set (f := filter _ m). destruct (drop_oldest_spec (base.size f) f (le_n _)) as (H1 & H2 & H3 & H4).
  split; [|split; [done|]].
  - intros k e Hk. apply (lookup_weaken _ f) in Hk; [|done]. unfold f in Hk. apply map_lookup_filter_Some in Hk as [? ?]. split; [done|]. cbn in *. lia.
  - intros k e Hk Hn. destruct (f !! k) as [e0|] eqn:Ef.
    + right. assert (e0 = e) as -> by (unfold f in Ef; apply map_lookup_filter_Some in Ef as [? _]; congruence).
      split; [destruct H3 as [H3|[_ H3]]; [|done]; congruence|]. intros k' e' Hk'. by apply (H4 k e k' e').
    + left. unfold f in Ef. apply map_lookup_filter_None in Ef as [?|Ef]; [congruence|]. specialize (Ef e Hk). cbn in Ef. lia.
Qed.

(** ** Histories *)

Inductive Op :=
  | Login (body : text) (now_ms : Z) (tok : text)
  | Mint (now_ms : Z) (tok : text)
  | Authed (cookie_header : text) (now_ms : Z)
  | Logout (cookie_header : text).

Definition step (m : gate) (op : Op) : gate :=
  match op with
  | Login body now tok => (login body now tok m).2
  | Mint now tok => (mint now tok m).2
  | Authed h now => (authed h now m).2
  | Logout h => logout h m
  end.

Definition run (ops : list Op) : gate := fold_left step ops ∅.

(** The token an operation hands out, and until when: a login of root with
    credentials that were accepted, or the setup that has just set them. *)
Definition grants (op : Op) : option (text * Z) :=
  match op with
  | Login body now (c :: t) =>
      let user := form_value body (txt "username") in
      if text_eqb user (txt "root") && checked user (form_value body (txt "password"))
      then Some (c :: t, now + if text_eqb (form_value body (txt "remember")) (txt "1") then REMEMBER_MS else SESSION_MS)
      else None
  | Mint now (c :: t) => Some (c :: t, now + SESSION_MS)
  | _ => None
  end.

Definition revokes (tok : text) (op : Op) : bool :=
  match op with Logout h => text_eqb (cookie_value h COOKIE) tok | _ => false end.

(** Some operation handed the token out until [e], and no later one took it back. *)
Definition session_of (ops : list Op) (tok : text) (e : Z) : Prop :=
  exists before op after, ops = before ++ op :: after /\ grants op = Some (tok, e) /\ existsb (revokes tok) after = false.

Lemma session_snoc ops op tok e : session_of ops tok e -> revokes tok op = false -> session_of (ops ++ [op]) tok e.
Proof.
  intros (b & o & a & -> & Hg & Hr) Hop. exists b, o, (a ++ [op]). split; [by rewrite <- app_assoc|]. split; [done|].
  rewrite existsb_app, Hr. cbn. by rewrite Hop.
Qed.

Lemma text_eqb_eq a b : text_eqb a b = true <-> a = b.
Proof. apply bool_decide_eq_true. Qed.

(** What one operation leaves in the gate. *)
Lemma step_sessions m op tok e : step m op !! tok = Some e ->
  (m !! tok = Some e /\ (tok <> [] -> revokes tok op = false)) \/ (grants op = Some (tok, e) /\ tok <> []).
Proof.
  destruct op as [body now t|now t|h now|h]; cbn [step revokes].
  - unfold login. destruct (form_value body (txt "username")) as [|u us] eqn:Eu; [by left|].
    destruct (text_eqb (u :: us) (txt "root")) eqn:Er; [|by left]. cbn [negb].
    destruct (checked (u :: us) (form_value body (txt "password"))) eqn:Ec; [|by left]. cbn [negb].
    destruct t as [|c t]; cbn [snd]; [intros Hk; left; split; [by apply (evict_spec now)|done]|].
    intros Hk. apply lookup_insert_Some in Hk as [[<- <-]|[_ Hk]]; [right|left; split; [by apply (evict_spec now)|done]].
    cbn [grants]. by rewrite Eu, Er, Ec.
  - unfold mint. destruct t as [|c t]; cbn [snd]; [intros Hk; left; split; [by apply (evict_spec now)|done]|].
    intros Hk. apply lookup_insert_Some in Hk as [[<- <-]|[_ Hk]]; [by right|left; split; [by apply (evict_spec now)|done]].
  - unfold authed. destruct (cookie_value h COOKIE); [by left|]. destruct (m !! _); [|by left]. destruct (_ <? _); [|by left].
    cbn [snd]. intros Hk. apply lookup_delete_Some in Hk as [_ Hk]. by left.
  - unfold logout. destruct (cookie_value h COOKIE) as [|c t] eqn:Ec.
    + intros Hk. left. split; [done|]. intros Hne. apply not_true_is_false. intros He. apply text_eqb_eq in He. done.
    + intros Hk. apply lookup_delete_Some in Hk as [Hne Hk]. left. split; [done|]. intros _. apply not_true_is_false.
      intros He. apply text_eqb_eq in He. done.
Qed.

Lemma run_sessions ops : forall tok e, run ops !! tok = Some e -> tok <> [] /\ session_of ops tok e.
Proof.
  induction ops as [|op ops IH] using rev_ind; intros tok e Hk; [done|].
  unfold run in Hk. rewrite fold_left_app in Hk. cbn [fold_left] in Hk. fold (run ops) in Hk.
  apply step_sessions in Hk as [[Hk Hr]|[Hg Hne]].
  - apply IH in Hk as [Hne Hs]. split; [done|]. apply session_snoc; auto.
  - split; [done|]. exists ops, op, []. done.
Qed.

Lemma step_size m op : (base.size m <= MAX_SESSIONS)%nat -> (base.size (step m op) <= MAX_SESSIONS)%nat.
Proof.
  intros Hm. assert (E : forall now, (base.size (evict now m) < MAX_SESSIONS)%nat) by (intros now; apply (evict_spec now m)).
  assert (I : forall now k (e : Z), (base.size (<[k := e]> (evict now m)) <= MAX_SESSIONS)%nat).
  { intros now k e. specialize (E now). rewrite map_size_insert. destruct (_ !! _); cbn; lia. }
  assert (D : forall k, (base.size (delete k m) <= MAX_SESSIONS)%nat).
  { intros k. rewrite map_size_delete. destruct (_ !! _); cbn; lia. }
  destruct op as [body now t|now t|h now|h]; cbn [step].
  - unfold login. specialize (E now). repeat case_match; cbn [snd]; try done; try apply I; lia.
  - unfold mint. specialize (E now). destruct t; cbn [snd]; [lia|apply I].
  - unfold authed. repeat case_match; cbn [snd]; done.
  - unfold logout. case_match; done.
Qed.
End Theorems.


Definition first_in_order : Iteration := map_to_list.
Definition first_law : @IterationLaw first_in_order := fun _ => Permutation_refl _.
Definition one_account : Credentials := Some (fun _ pass => text_eqb pass (txt "pw")).

Definition sign_in : text := txt "username=root&password=pw".


(** ** What a browser sends *)

Definition hex_digit (n : Z) : ascii := chr (if n <? 10 then 48 + n else 55 + n).
Definition is_plain (c : ascii) : bool :=
  let x := char_code c in
  is_digit c || ((65 <=? x) && (x <=? 90)) || ((97 <=? x) && (x <=? 122)).

(** application/x-www-form-urlencoded. *)
Definition encode_char (c : ascii) : text :=
  if is_plain c then [c] else if Ascii.eqb c " " then ["+"%char]
  else ["%"%char; hex_digit (char_code c / 16); hex_digit (char_code c mod 16)].
Definition url_encode (s : text) : text := flat_map encode_char s.

Fixpoint join (sep : text) (l : list text) : text :=
  match l with
  | [] => []
  | [x] => x
  | x :: l => x ++ sep ++ join sep l
  end.

Definition form_body (fields : list (text * text)) : text :=
  join (txt "&") (map (fun f => f.1 ++ "="%char :: url_encode f.2) fields).
Definition cookie_header (cookies : list (text * text)) : text :=
  join (txt "; ") (map (fun f => f.1 ++ "="%char :: f.2) cookies).

(** The value of the first field of that name. *)
Definition first_value (key : text) (l : list (text * text)) : text :=
  match List.find (fun f => text_eqb f.1 key) l with Some f => f.2 | None => [] end.

Lemma join_cons sep x y l : join sep (x :: y :: l) = x ++ sep ++ join sep (y :: l).
Proof. done. Qed.

Definition all_chars : list ascii := map (fun n => ascii_of_nat n) (seq 0 256).

Lemma all_chars_in c : In c all_chars.
Proof.
  apply in_map_iff. exists (nat_of_ascii c). split; [apply ascii_nat_embedding|]. apply in_seq.
  pose proof (nat_ascii_bounded c). lia.
Qed.

Lemma by_chars (f : ascii -> bool) : forallb f all_chars = true -> forall c, f c = true.
Proof. intros H c. rewrite forallb_forall in H. apply H, all_chars_in. Qed.

Lemma encode_decode_char c : forall r, url_decode (encode_char c ++ r) = c :: url_decode r.
Proof.
  intros r. pose proof (by_chars (fun c => if is_plain c then negb (Ascii.eqb c "+") && negb (Ascii.eqb c "%")
    else if Ascii.eqb c " " then true
    else match hexval (hex_digit (char_code c / 16)), hexval (hex_digit (char_code c mod 16)) with
         | Some a, Some b => Ascii.eqb (chr (a * 16 + b)) c | _, _ => false end) ltac:(by vm_compute) c) as F.
  cbv beta in F. unfold encode_char. destruct (is_plain c).
  - apply andb_true_iff in F as [F1 F2]. apply negb_true_iff in F1, F2. cbn [app url_decode]. by rewrite F1, F2.
  - destruct (Ascii.eqb c " ") eqn:Es; [apply Ascii.eqb_eq in Es as ->; done|].
    cbn [app url_decode]. change (Ascii.eqb "%" "+") with false. change (Ascii.eqb "%" "%") with true. cbn [andb].
    destruct (hexval _), (hexval _); try done. by apply Ascii.eqb_eq in F as ->.
Qed.

Lemma decode_encode v : url_decode (url_encode v) = v.
Proof.
  induction v as [|c v IH]; [done|]. cbn [url_encode flat_map]. rewrite encode_decode_char. f_equal. exact IH.
Qed.

Lemma encode_clean v : ("&"%char ∉ url_encode v) /\ ("="%char ∉ url_encode v).
Proof.
  assert (G : forall c, ("&"%char ∉ encode_char c) /\ ("="%char ∉ encode_char c)).
  { intros c. pose proof (by_chars (fun c => negb (existsb (Ascii.eqb "&") (encode_char c)) && negb (existsb (Ascii.eqb "=") (encode_char c)))
      ltac:(by vm_compute) c) as F. cbv beta in F. apply andb_true_iff in F as [F1 F2]. apply negb_true_iff in F1, F2.
    split; intros Hin; apply list_elem_of_In in Hin; [rewrite <- not_true_iff_false in F1; apply F1|rewrite <- not_true_iff_false in F2; apply F2];
      apply existsb_exists; eexists; (split; [exact Hin|apply Ascii.eqb_refl]). }
  induction v as [|c v [I1 I2]]; [split; apply not_elem_of_nil|]. cbn [url_encode flat_map]. destruct (G c) as [G1 G2].
  split; rewrite elem_of_app; intros [?|?]; done.
Qed.

(** A field name of a form; a name and a value of a cookie. *)
Definition form_name (k : text) : Prop := ("&"%char ∉ k) /\ ("="%char ∉ k).
Definition cookie_name (k : text) : Prop :=
  ("="%char ∉ k) /\ (";"%char ∉ k) /\ exists c r, k = c :: r /\ c <> " "%char /\ c <> ";"%char.

Lemma form_unfold fuel body key : body <> [] ->
  form_loop (S fuel) body key
  = let amp := default (length body) (index_of "&" body) in
    match index_of "=" body with
    | Some eq =>
        if (eq <? amp)%nat && text_eqb (take eq body) key then url_decode (take (amp - (eq + 1)) (drop (eq + 1) body))
        else form_loop fuel (drop (amp + 1) body) key
    | None => form_loop fuel (drop (amp + 1) body) key
    end.
Proof. by destruct body. Qed.

(** A turn of the form loop at a field, with [tail] empty or another field. *)
Lemma form_turn fuel k v tail key : form_name k -> tail = [] \/ head tail = Some "&"%char ->
  form_loop (S fuel) ((k ++ "="%char :: url_encode v) ++ tail) key
  = if text_eqb k key then v else form_loop fuel (drop 1 tail) key.
Proof.
  intros [Hk1 Hk2] Ht. destruct (encode_clean v) as [Hv1 _]. set (f := k ++ "="%char :: url_encode v).
  rewrite form_unfold by (unfold f; by destruct k).
  assert (Ea : default (length (f ++ tail)) (index_of "&" (f ++ tail)) = length f).
  { assert (Hf : "&"%char ∉ f) by (unfold f; rewrite elem_of_app, elem_of_cons; intros [?|[?|?]]; done).
    destruct tail as [|c tail]; [rewrite app_nil_r; by rewrite index_of_none|].
    destruct Ht as [|Ht]; [done|]. injection Ht as ->. by rewrite index_of_app. }
  rewrite Ea. assert (Ef : f ++ tail = k ++ "="%char :: (url_encode v ++ tail)) by (unfold f; by rewrite <- app_assoc).
  assert (Lf : length f = (length k + 1 + length (url_encode v))%nat) by (unfold f; rewrite length_app; cbn; lia).
  assert (E1 : index_of "=" (f ++ tail) = Some (length k)) by (rewrite Ef; by apply index_of_app).
  assert (E2 : take (length k) (f ++ tail) = k) by (rewrite Ef; apply take_app_length).
  assert (E3 : drop (length k + 1) (f ++ tail) = url_encode v ++ tail) by (rewrite Ef, drop_app_add; done).
  cbv zeta. rewrite E1, E2, E3. destruct (Nat.ltb_spec (length k) (length f)); [|lia]. cbn [andb]. destruct (text_eqb k key).
  - replace (length f - (length k + 1))%nat with (length (url_encode v)) by lia. rewrite take_app_length. apply decode_encode.
  - by rewrite drop_app_add.
Qed.

Lemma form_read fields key : forall fuel, Forall form_name (map fst fields) -> (length (form_body fields) <= fuel)%nat ->
  form_loop fuel (form_body fields) key = first_value key fields.
Proof.
  unfold form_body, first_value. induction fields as [|[k v] fields IH]; intros fuel Hn Hf; [by destruct fuel|].
  inversion Hn as [|? ? Hk Hn']; subst. cbn [List.find fst snd].
  destruct fields as [|f2 fields].
  - cbn [map join fst snd] in *. destruct fuel as [|fuel]; [rewrite length_app in Hf; cbn in Hf; lia|].
    rewrite <- (app_nil_r (k ++ _)), form_turn by auto. destruct (text_eqb k key); [done|]. by destruct fuel.
  - cbn [map] in *. rewrite join_cons in *. cbn [fst snd] in *. destruct fuel as [|fuel]; [rewrite length_app in Hf; cbn in Hf; lia|].
    rewrite form_turn by (by auto). destruct (text_eqb k key); [done|].
    change (drop 1 (txt "&" ++ ?x)) with x. apply IH; [done|]. rewrite !length_app in Hf. cbn in Hf |- *. lia.
Qed.

Lemma cookie_unfold fuel header name : header <> [] ->
  cookie_loop (S fuel) header name
  = let s := skip_blanks header in
    let fin := default (length s) (index_of ";" s) in
    match index_of "=" s with
    | Some eq =>
        if (eq <? fin)%nat && text_eqb (take eq s) name then take (fin - eq - 1) (drop (eq + 1) s)
        else cookie_loop fuel (drop (fin + 1) s) name
    | None => cookie_loop fuel (drop (fin + 1) s) name
    end.
Proof. by destruct header. Qed.

Lemma cookie_turn fuel (blank : bool) k v tail name : cookie_name k -> ";"%char ∉ v -> tail = [] \/ head tail = Some ";"%char ->
  cookie_loop (S fuel) ((if blank then [" "%char] else []) ++ (k ++ "="%char :: v) ++ tail) name
  = if text_eqb k name then v else cookie_loop fuel (drop 1 tail) name.
Proof.
  intros (Hk1 & Hk2 & c & r & Ek & Hc1 & Hc2) Hv Ht. set (f := k ++ "="%char :: v).
  rewrite cookie_unfold by (unfold f; rewrite Ek; by destruct blank).
  assert (Es : skip_blanks ((if blank then [" "%char] else []) ++ f ++ tail) = f ++ tail).
  { assert (G : skip_blanks (f ++ tail) = f ++ tail).
    { unfold f. rewrite Ek. cbn [app skip_blanks]. rewrite (proj2 (Ascii.eqb_neq c " ")), (proj2 (Ascii.eqb_neq c ";")) by done. done. }
    by destruct blank. }
  rewrite Es.
  assert (Ea : default (length (f ++ tail)) (index_of ";" (f ++ tail)) = length f).
  { assert (Hf : ";"%char ∉ f) by (unfold f; rewrite elem_of_app, elem_of_cons; intros [?|[?|?]]; done).
    destruct tail as [|c' tail]; [rewrite app_nil_r; by rewrite index_of_none|].
    destruct Ht as [|Ht]; [done|]. injection Ht as ->. by rewrite index_of_app. }
  assert (Ef : f ++ tail = k ++ "="%char :: (v ++ tail)) by (unfold f; by rewrite <- app_assoc).
  assert (Lf : length f = (length k + 1 + length v)%nat) by (unfold f; rewrite length_app; cbn; lia).
  assert (E1 : index_of "=" (f ++ tail) = Some (length k)) by (rewrite Ef; by apply index_of_app).
  assert (E2 : take (length k) (f ++ tail) = k) by (rewrite Ef; apply take_app_length).
  assert (E3 : drop (length k + 1) (f ++ tail) = v ++ tail) by (rewrite Ef, drop_app_add; done).
  cbv zeta. rewrite Ea, E1, E2, E3. destruct (Nat.ltb_spec (length k) (length f)); [|lia]. cbn [andb]. destruct (text_eqb k name).
  - replace (length f - length k - 1)%nat with (length v) by lia. apply take_app_length.
  - by rewrite drop_app_add.
Qed.

Lemma cookie_read cookies name : forall fuel (blank : bool),
  Forall (fun f => cookie_name f.1 /\ (";"%char ∉ f.2)) cookies -> (length (cookie_header cookies) <= fuel)%nat ->
  cookies <> [] -> cookie_loop fuel ((if blank then [" "%char] else []) ++ cookie_header cookies) name = first_value name cookies.
Proof.
  unfold cookie_header, first_value. induction cookies as [|[k v] cookies IH]; intros fuel blank Hn Hf Hne; [done|].
  inversion Hn as [|? ? [Hk Hv] Hn']; subst. cbn [List.find fst snd] in *.
  destruct cookies as [|f2 cookies].
  - cbn [map join fst snd] in *. destruct fuel as [|fuel]; [rewrite length_app in Hf; cbn in Hf; lia|].
    rewrite <- (app_nil_r (k ++ _)), cookie_turn by auto. destruct (text_eqb k name); [done|]. by destruct fuel.
  - cbn [map] in *. rewrite join_cons in *. cbn [fst snd] in *. destruct fuel as [|fuel]; [rewrite length_app in Hf; cbn in Hf; lia|].
    rewrite cookie_turn by auto. destruct (text_eqb k name); [done|].
    change (drop 1 (txt "; " ++ ?x)) with ([" "%char] ++ x). apply (IH fuel true); [done| |done].
    rewrite !length_app in Hf. cbn in Hf |- *. lia.
Qed.

(** A form field and a cookie are read as the browser wrote them.  Of any
    fields, encoded by the rules of HTML forms, [form_value] gives the decoded value
    of the first of that name, and nothing for a name that is not there; of any
    cookies, [cookie_value] gives the value of the first of that name. *)
Theorem browser_fields_read (fields cookies : list (text * text)) (key name : text) :
  Forall form_name (map fst fields) -> Forall (fun f => cookie_name f.1 /\ (";"%char ∉ f.2)) cookies ->
  form_value (form_body fields) key = first_value key fields
  /\ cookie_value (cookie_header cookies) name = first_value name cookies.
Proof.
  intros Hf Hc. split; [by apply form_read|]. destruct cookies as [|f cookies]; [done|].
  by apply (cookie_read (f :: cookies) name _ false).
Qed.

Lemma browser_fields_read_witness :
  form_value (form_body [(txt "username", txt "root"); (txt "password", txt "a&b=c %")]) (txt "password") = txt "a&b=c %"
  /\ cookie_value (cookie_header [(txt "theme", txt "dark"); (COOKIE, txt "t=0")]) COOKIE = txt "t=0".
Proof.
  assert (Hf : Forall form_name (map fst [(txt "username", txt "root"); (txt "password", txt "a&b=c %")])).
  { repeat (apply Forall_cons; split; [split; by apply (bool_decide_unpack _); vm_compute|]). apply Forall_nil. exact I. }
  assert (Hc : Forall (fun f => cookie_name f.1 /\ (";"%char ∉ f.2)) [(txt "theme", txt "dark"); (COOKIE, txt "t=0")]).
  { repeat (apply Forall_cons; split; [split; [split; [by apply (bool_decide_unpack _); vm_compute|
      split; [by apply (bool_decide_unpack _); vm_compute|by do 2 eexists]]|by apply (bool_decide_unpack _); vm_compute]|]). by apply Forall_nil. }
  exact (browser_fields_read _ _ (txt "password") COOKIE Hf Hc).
Defined.

(** ** A login *)

(** A login answers what it did.  A form without a user name is malformed; any
    user but root, and root without accepted credentials, is refused, and these
    leave every session as it was; without randomness there is no session.  Else
    the session begins: the cookie of the answer passes from then on until it runs
    out (12 hours, 30 days when asked to remember), and no longer once it is
    logged out; what made room for it had run out, or, with 32 sessions, ran out
    before any that was kept. *)
Theorem login_outcome `{IterationLaw} `{Credentials} (body tok : text) (now : Z) (m : gate) :
  let user := form_value body (txt "username") in
  let pass := form_value body (txt "password") in
  let life := if text_eqb (form_value body (txt "remember")) (txt "1") then REMEMBER_MS else SESSION_MS in
  let '(status, cookie, m') := login body now tok m in
  (status = 400 /\ user = [] /\ m' = m /\ cookie = [])
  \/ (status = 403 /\ user <> [] /\ (user <> txt "root" \/ checked user pass = false) /\ m' = m /\ cookie = [])
  \/ (status = 500 /\ tok = [] /\ m' = evict now m /\ cookie = [])
  \/ (status = 200 /\ user = txt "root" /\ checked user pass = true /\ tok <> []
      /\ (forall header later, cookie_value header COOKIE = tok ->
            (authed header later m').1 = (later <=? now + life)
            /\ (authed header later (logout header m')).1 = false)
      /\ (forall k e, m !! k = Some e -> m' !! k = None ->
            e < now \/ (forall k' e', k' <> tok -> m' !! k' = Some e' -> e <= e'))).
Proof.
  unfold login. destruct (form_value body (txt "username")) as [|c u] eqn:Eu; [by left|]. rewrite <- Eu.
  destruct (text_eqb (form_value body (txt "username")) (txt "root")) eqn:Er; cbn [negb].
  2: { right. left. split; [done|]. split; [by rewrite Eu|]. split; [|done]. left. intros E. apply text_eqb_eq in E. congruence. }
  destruct (checked _ _) eqn:Ec; cbn [negb].
  2: { right. left. split; [done|]. split; [by rewrite Eu|]. split; [by right|done]. }
  destruct tok as [|t ts]; [by right; right; left|]. right. right. right. split; [done|].
  split; [by apply text_eqb_eq|]. split; [done|]. split; [done|]. split.
  - intros header later Hh. unfold authed, logout. rewrite Hh, lookup_insert_eq. split.
    + destruct (Z.ltb_spec (now + if text_eqb (form_value body (txt "remember")) (txt "1") then REMEMBER_MS else SESSION_MS) later) as [?|?];
        cbn [fst]; symmetry; [by apply Z.leb_gt|by apply Z.leb_le].
    + by rewrite lookup_delete_eq.
  - intros k e Hk Hn. apply lookup_insert_None in Hn as [Hn Hkt].
    destruct (proj2 (proj2 (evict_spec now m)) k e Hk Hn) as [?|[_ Hmin]]; [by left|right].
    intros k' e' Hk' He'. rewrite lookup_insert_ne in He' by done. by apply (Hmin k').
Qed.

Lemma login_outcome_witness :
  let '(status, _, m) := @login first_in_order one_account sign_in 1000 (txt "t0") ∅ in
  status = 200 /\ (authed (txt "session=t0") 2000 m).1 = true.
Proof.
  pose proof (@login_outcome first_in_order first_law one_account sign_in (txt "t0") 1000 ∅) as H.
  destruct (@login first_in_order one_account sign_in 1000 (txt "t0") ∅) as [[status cookie] m] eqn:E.
  assert (Es : status = 200).
  { assert (E2 : (@login first_in_order one_account sign_in 1000 (txt "t0") ∅).1.1 = 200) by by vm_compute.
    rewrite E in E2. exact E2. }
  split; [exact Es|].
  destruct H as [(H & _)|[(H & _)|[(H & _)|(_ & _ & _ & _ & H & _)]]]; [lia|lia|lia|].
  rewrite (proj1 (H (txt "session=t0") 2000 ltac:(vm_compute; reflexivity))). by vm_compute.
Defined.

(** What passes for local is a prefix of the address. *)
Example local_peers :
  map is_local_peer [txt "127.0.0.1:5000"; txt "::1:5000"; txt "192.168.1.2:80"; txt "::1234:5678:80"] = [true; true; false; true].
Proof. by vm_compute. Qed.
