(* ===== verification/HttpParse.v ===== *)
(** * HTTP requests and heads

    [app/http/http_parse.{hpp,cpp}]: the request parser of the front door, the
    request it writes for the web interface behind it, the rewriting of paths
    that are files, and what it makes of the head of a relayed answer.  A
    [size_t] has 32 bits on the camera.  (The insertion of menu entries into pages
    is in HtmlInject.) *)

From S2P Require Import Prelude Text.

Definition CR : ascii := "013".
Definition HT : ascii := "009".
Definition SP : ascii := " ".
Definition NUL : ascii := "000".
Definition DQUOTE : ascii := "034".

(** ** Requests *)

Record Request := {
  method : text; path : text; query : text; headers : list (text * text); body : text;
  content_length : Z; keep_alive : bool
}.

#[export] Instance Request_settable : Settable Request :=
  fun r => Build_Request (method r) (path r) (query r) (headers r) (body r) (content_length r) (keep_alive r).

(** [Request::header]. *)
Fixpoint header_of (hs : list (text * text)) (n : text) : text :=
  match hs with
  | [] => []
  | h :: hs' => if text_eqb h.1 n then h.2 else header_of hs' n
  end.
Definition header (r : Request) (n : string) : text := header_of (headers r) (txt n).

(** The out parameters are written with [Ok] alone. *)
Inductive Parse := Incomplete | Ok (consumed : Z) (out : Request) | Bad | TooLarge.

Record Limits := { max_head : Z; max_headers : Z; max_body : Z; head_only : bool }.

Definition default_limits : Limits := {| max_head := 8192; max_headers := 32; max_body := 8192; head_only := false |}.

(** [s.find_first_not_of(set)], [s.find_last_not_of(set)]. *)
Fixpoint first_not (P : ascii -> bool) (s : text) : option nat :=
  match s with
  | [] => None
  | c :: s' => if P c then S <$> first_not P s' else Some O
  end.
Fixpoint last_not (P : ascii -> bool) (s : text) : option nat :=
  match s with
  | [] => None
  | c :: s' => match last_not P s' with Some i => Some (S i) | None => if P c then None else Some O end
  end.

Definition blank (c : ascii) : bool := Ascii.eqb c SP || Ascii.eqb c HT.
Definition blank_cr (c : ascii) : bool := blank c || Ascii.eqb c CR.

(** [trim].  Where only carriage returns are left, [b] is [npos] and the length
    [b - a + 1] wraps: nothing from the beginning, everything from a later place. *)
Definition trim (s : text) : text :=
  match first_not blank s with
  | None => []
  | Some a =>
      match last_not blank_cr s with
      | Some b => take (b - a + 1) (drop a s)
      | None => match a with O => [] | _ => drop a s end
      end
  end.

Definition upper_case (c : ascii) : bool := let n := char_code c in (65 <=? n) && (n <=? 90).

(** The characters a target must not have, and those a header line must not. *)
Definition bad_target (c : ascii) : bool := let n := char_code c in (n <? 33) || (n =? 127).
Definition bad_field (c : ascii) : bool := (char_code c <? 32) && negb (Ascii.eqb c HT) && negb (Ascii.eqb c CR).

(** The loop over [i]: a percent-encoded dot. *)
Fixpoint encoded_dot (s : text) : bool :=
  match s with
  | [] => false
  | c :: s' =>
      match s' with
      | x :: y :: _ => Ascii.eqb c "%" && Ascii.eqb x "2" && (Ascii.eqb y "e" || Ascii.eqb y "E")
      | _ => false
      end || encoded_dot s'
  end.

(** [while (p < end)]; each round takes at least two octets.  [None] is [Bad]. *)
Fixpoint header_loop (fuel : nat) (lim : Limits) (buf : text) (fin p : nat) (hs : list (text * text)) : option (list (text * text)) :=
  match fuel with
  | O => None
  | S fuel =>
      if negb (p <? fin)%nat then Some hs else
      let e := match find_from CRLF buf p with Some e => if (fin <? e)%nat then fin else e | None => fin end in
      let h := take (e - p) (drop p buf) in
      if existsb bad_field h then None else
      match index_of ":" h with
      | None => None
      | Some c =>
          let name := trim (lowercase (take c h)) in
          let val := trim (drop (c + 1) h) in
          if text_eqb name [] || (max_headers lim <=? Z.of_nat (length hs)) then None
          else header_loop fuel lim buf fin (e + 2) (hs ++ [(name, val)])
      end
  end.

(** [strtoull] on digits. *)
Definition strtoull (s : text) : Z := strtou 64 s.

(** The declared length: [None] is [Bad], [Some None] is [TooLarge]. *)
Definition declared (lim : Limits) (hs : list (text * text)) : option (option Z) :=
  let n := length (List.filter (fun h => text_eqb h.1 (txt "content-length")) hs) in
  if (1 <? n)%nat then None else
  let cl := header_of hs (txt "content-length") in
  match cl with
  | [] => Some (Some 0)
  | _ =>
      if negb (forallb is_digit cl) then None else
      let v := strtoull cl in
      if (if head_only lim then (2 ^ 32 - 1) / 2 <? v else max_body lim <? v) then Some None else Some (Some (u32 v))
  end.

(** [conn == close], [conn == keep-alive]. *)
Definition wants_keep (hs : list (text * text)) (http11 : bool) : bool :=
  let conn := lowercase (header_of hs (txt "connection")) in
  if text_eqb conn (txt "close") then false else if text_eqb conn (txt "keep-alive") then true else http11.

(** The request line: method, path, query, and whether it is HTTP/1.1. *)
Definition request_line (line : text) : option (text * text * text * bool) :=
  match index_of SP line, last_index SP line with
  | Some s1, Some s2 =>
      if (s1 =? s2)%nat || (2048 <? size line) then None else
      let method := take s1 line in
      let target := take (s2 - s1 - 1) (drop (s1 + 1) line) in
      let version := drop (s2 + 1) line in
      if negb (text_eqb version (txt "HTTP/1.1") || text_eqb version (txt "HTTP/1.0")) then None else
      if negb (has_prefix (txt "/") target) then None else
      if existsb bad_target target then None else
      let q := index_of "?" target in
      let path := match q with Some q => take q target | None => target end in
      let query := match q with Some q => drop (q + 1) target | None => [] end in
      if occurs (txt "..") path then None else
      if encoded_dot path then None else
      if negb (forallb upper_case method) then None else
      Some (method, path, query, text_eqb version (txt "HTTP/1.1"))
  | _, _ => None
  end.

Definition TERM : text := CRLF ++ CRLF.

Definition parse_request (buf : text) (lim : Limits) : Parse :=
  match find_text TERM buf with
  | None => if max_head lim <? size buf then TooLarge else Incomplete
  | Some fin =>
      if max_head lim <? Z.of_nat fin then TooLarge else
      let nl := default O (find_text CRLF buf) in
      match request_line (take nl buf) with
      | None => Bad
      | Some (m, pa, q, http11) =>
          match header_loop (length buf) lim buf fin (nl + 2) [] with
          | None => Bad
          | Some hs =>
              match declared lim hs with
              | None => Bad
              | Some None => TooLarge
              | Some (Some body_len) =>
                  if negb (text_eqb (header_of hs (txt "transfer-encoding")) []) then Bad else
                  let r := Build_Request m pa q hs [] body_len (wants_keep hs http11) in
                  if head_only lim then Ok (Z.of_nat fin + 4) r else
                  let total := u32 (Z.of_nat fin + 4 + body_len) in
                  if size buf <? total then Incomplete
                  else Ok total (r <| body := substr buf (Z.of_nat fin + 4) body_len |>)
              end
          end
      end
  end.

(** ** Towards the web interface *)

Definition alnum (c : ascii) : bool :=
  let n := char_code c in is_digit c || upper_case c || ((97 <=? n) && (n <=? 122)).

Definition cgi_char (c : ascii) : bool := alnum c || Ascii.eqb c "." || Ascii.eqb c "_" || Ascii.eqb c "-".

(** [is_stock_json_cgi]: the tail where it answers true. *)
Definition is_stock_json_cgi (path : text) : option text :=
  if negb (has_prefix (txt "/cgi-bin/j/") path) then None else
  let tail := drop 11 path in
  if text_eqb tail [] || bool_decide ("/"%char ∈ tail) then None else
  if (size tail <? 5) || negb (text_eqb (drop (length tail - 4) tail) (txt ".cgi")) then None else
  if forallb cgi_char tail then Some tail else None.

Definition is_xdigit (c : ascii) : bool :=
  let n := char_code c in is_digit c || ((65 <=? n) && (n <=? 70)) || ((97 <=? n) && (n <=? 102)).

(** The value of a hex digit, as [strtoul(hex, nullptr, 16)] takes it. *)
Definition xdigit_value (c : ascii) : Z :=
  let n := char_code c in if is_digit c then n - 48 else if n <=? 70 then n - 55 else n - 87.

Definition char_of (n : Z) : ascii := ascii_of_nat (Z.to_nat n).

Fixpoint percent_decode (s : text) : text :=
  match s with
  | [] => []
  | c :: s' =>
      if Ascii.eqb c "%" then
        match s' with
        | a :: b :: r =>
            if is_xdigit a && is_xdigit b then char_of (16 * xdigit_value a + xdigit_value b) :: percent_decode r
            else c :: percent_decode s'
        | _ => c :: percent_decode s'
        end
      else c :: percent_decode s'
  end.

Definition unreserved (c : ascii) : bool :=
  alnum c || Ascii.eqb c "-" || Ascii.eqb c "." || Ascii.eqb c "_" || Ascii.eqb c "~" || Ascii.eqb c "/".

Definition HEX (n : Z) : ascii := char_of (if n <? 10 then 48 + n else 55 + n).

Definition encode_char (c : ascii) : text :=
  if unreserved c then [c]
  else ["%"%char; HEX (Z.shiftr (char_code c) 4); HEX (Z.land (char_code c) 15)].

Definition percent_encode_path (s : text) : text := concat (map encode_char s).

(** What [stat] says of a path: absent, a regular file, something else. *)
Class Probe := probe : text -> Z.

(** The request itself where nothing is rewritten. *)
Definition file_get_rewrite `{Probe} (req : Request) (web_root : text) : bool * Request :=
  if negb (text_eqb (method req) (txt "GET")) || (size (path req) <? 2) || negb (has_prefix (txt "/") (path req)) then (false, req) else
  if has_prefix (txt "/a/") (path req) || has_prefix (txt "/cgi-bin/") (path req) then (false, req) else
  let fs := percent_decode (path req) in
  if occurs (txt "..") fs || bool_decide (NUL ∈ fs) then (false, req) else
  if bool_decide (last fs = Some "/"%char) then (false, req) else
  if negb (probe (web_root ++ fs) =? 0) then (false, req) else
  if negb (probe fs =? 1) then (false, req) else
  (true, req <| path := txt "/cgi-bin/machino-file-get.cgi" |> <| query := txt "path=" ++ percent_encode_path fs |>).

(** The headers the relay sets itself or that end at this hop. *)
Definition hop_header (n : text) : bool :=
  existsb (fun x => text_eqb n (txt x))
    ["host"; "connection"; "keep-alive"; "proxy-connection"; "transfer-encoding"; "upgrade"; "content-length"; "te"]%string.

Definition kept_headers (hs : list (text * text)) : list (text * text) := List.filter (fun h => negb (hop_header h.1)) hs.

Definition field_line (h : text * text) : text := h.1 ++ txt ": " ++ h.2 ++ CRLF.

(** [path] of [forward_request]. *)
Definition forward_path (req : Request) : text :=
  if text_eqb (method req) (txt "OPTIONS") then path req else
  match is_stock_json_cgi (path req) with
  | Some tail => txt "/cgi-bin/machino-cgi-run.cgi/j/" ++ tail
  | None => path req
  end.

Definition forward_target (req : Request) : text :=
  forward_path req ++ match query req with [] => [] | q => txt "?" ++ q end.

Definition forward_request (req : Request) (upstream_host : text) : text :=
  method req ++ txt " " ++ forward_target req ++ txt " HTTP/1.0" ++ CRLF
  ++ concat (map field_line (kept_headers (headers req)))
  ++ txt "Host: " ++ upstream_host ++ CRLF
  ++ txt "Connection: close" ++ CRLF
  ++ match body req with [] => [] | _ => txt "Content-Length: " ++ print_dec (size (body req)) ++ CRLF end
  ++ CRLF ++ body req.

(** ** The head of a relayed answer *)

(** [relay_head_end]: the place and the length of the terminator. *)
Definition LFLF : text := [NL; NL].
Definition relay_head_end (buf : text) : option (nat * nat) :=
  match find_text TERM buf, find_text LFLF buf with
  | Some crlf, Some lf => if (crlf <=? lf)%nat then Some (crlf, 4%nat) else Some (lf, 2%nat)
  | Some crlf, None => Some (crlf, 4%nat)
  | None, Some lf => Some (lf, 2%nat)
  | None, None => None
  end.

(** A line without the carriage return at its end. *)
Definition chop_cr (l : text) : text :=
  match last l with Some c => if Ascii.eqb c CR then removelast l else l | None => l end.

(** The loop [while (pos < end)]: the lines of [head] up to [end]. *)
Definition head_lines (head : text) (fin : nat) : list text := map chop_cr (conf_lines (take fin head)).

(** The name of a field line: what is before the colon, or the line. *)
Definition field_name (line : text) : text := lowercase (match index_of ":" line with Some c => take c line | None => line end).

(** [line.c_str() + colon + 1], [line.substr(colon + 1)]: the line where there is no colon. *)
Definition after_colon (line : text) : text := match index_of ":" line with Some c => drop (c + 1) line | None => line end.

(** [for_each_header_line]: the lines it gives to [fn], with their names. *)
Definition header_lines (head : text) (fin : nat) : list (text * text) :=
  map (fun l => (field_name l, l)) (List.filter (fun l => negb (text_eqb l [])) (drop 1 (head_lines head fin))).

Definition relay_head_is_html (head : text) : bool :=
  match relay_head_end head with
  | None => false
  | Some (fin, _) =>
      let ls := header_lines head fin in
      existsb (fun nl => text_eqb nl.1 (txt "content-type") && occurs (txt "text/html") (lowercase (after_colon nl.2))) ls
      && negb (existsb (fun nl => text_eqb nl.1 (txt "transfer-encoding")) ls)
  end.

Definition framing_header (n : text) : bool :=
  existsb (fun x => text_eqb n (txt x)) ["content-length"; "connection"; "keep-alive"; "proxy-connection"; "transfer-encoding"]%string.

Definition put_crlf (l : text) : text := l ++ CRLF.

(** What the two rebuilding functions share: the status line and the other fields;
    [None] where they return the head. *)
Definition rebuilt_head (head : text) : option text :=
  match relay_head_end head with
  | None => None
  | Some (fin, _) =>
      match index_of NL head with
      | None => None
      | Some sl =>
          Some (put_crlf (chop_cr (take sl head))
                ++ concat (map (fun nl => put_crlf nl.2) (List.filter (fun nl => negb (framing_header nl.1)) (header_lines head fin))))
      end
  end.

Definition relay_head_with_length (head : text) (body_len : Z) (keep_alive : bool) : text :=
  match rebuilt_head head with
  | None => head
  | Some out => out ++ txt "Content-Length: " ++ print_dec body_len ++ CRLF
                ++ (if keep_alive then txt "Connection: keep-alive" else txt "Connection: close") ++ TERM
  end.

Definition relay_head_stream_close (head : text) : text :=
  match rebuilt_head head with None => head | Some out => out ++ txt "Connection: close" ++ TERM end.

(** The locals of the loop of [relay_head_keepalive]. *)
Record Framing := { have_len : bool; chunked : bool; rebuilt : text; body_len_ : Z }.

#[export] Instance Framing_settable : Settable Framing :=
  fun f => Build_Framing (have_len f) (chunked f) (rebuilt f) (body_len_ f).

Definition keepalive_line (f : Framing) (line : text) : Framing :=
  match line with
  | [] => f
  | _ =>
      let name := field_name line in
      if text_eqb name (txt "content-length") then
        f <| have_len := true |> <| body_len_ := strtoul (c_str (after_colon line)) |> <| rebuilt ::= fun r => r ++ put_crlf line |>
      else if text_eqb name (txt "transfer-encoding") then f <| chunked := true |>
      else if text_eqb name (txt "connection") || text_eqb name (txt "keep-alive") || text_eqb name (txt "proxy-connection") then f
      else f <| rebuilt ::= fun r => r ++ put_crlf line |>
  end.

Definition keepalive_lines (lines : list text) : Framing :=
  match lines with
  | [] => Build_Framing false false [] 0
  | first :: rest => fold_left keepalive_line rest (Build_Framing false false (put_crlf first) 0)
  end.

Definition bodyless (status : Z) : bool := ((100 <=? status) && (status <? 200)) || (status =? 204) || (status =? 304).

(** The status code in the first line; [None] where the head cannot be judged. *)
Definition head_status (head : text) : option Z :=
  match index_of SP head with
  | None => None
  | Some sp =>
      if size head <? Z.of_nat sp + 4 then None else
      let status := atoi (drop (sp + 1) head) in
      if status <? 100 then None else Some status
  end.

(** The verdict, [out] and [body_len]. *)
Definition relay_head_keepalive (head : text) : bool * text * Z :=
  match relay_head_end head with
  | None => (false, head, 0)
  | Some (fin, _) =>
      match head_status head with
      | None => (false, head, 0)
      | Some status =>
          let f := keepalive_lines (head_lines head fin) in
          if chunked f then (false, head, 0) else
          if negb (bodyless status) && negb (have_len f) then (false, head, 0) else
          (true, rebuilt f ++ txt "Connection: keep-alive" ++ TERM, if bodyless status then 0 else body_len_ f)
      end
  end.

(** ** Answers *)

Definition status_text (s : Z) : text :=
  txt match s with
      | 200 => "OK" | 204 => "No Content" | 302 => "Found"
      | 400 => "Bad Request" | 401 => "Unauthorized" | 403 => "Forbidden" | 404 => "Not Found"
      | 405 => "Method Not Allowed" | 409 => "Conflict" | 413 => "Payload Too Large"
      | 422 => "Unprocessable Entity" | 500 => "Internal Server Error"
      | 501 => "Not Implemented" | 502 => "Bad Gateway"
      | 503 => "Service Unavailable" | 504 => "Gateway Timeout"
      | _ => "Unknown"
      end%string.

Definition response_head (status : Z) (ct : text) (content_length : Z) (keep_alive : bool) (extra : text) : text :=
  txt "HTTP/1.1 " ++ print_int status ++ txt " " ++ status_text status ++ CRLF
  ++ txt "Content-Type: " ++ ct ++ CRLF ++ txt "Content-Length: " ++ print_dec content_length ++ CRLF
  ++ txt "Cache-Control: no-store" ++ CRLF ++ txt "Access-Control-Allow-Origin: *" ++ CRLF
  ++ extra
  ++ (if keep_alive then txt "Connection: keep-alive" else txt "Connection: close") ++ CRLF
  ++ CRLF.

Definition response (status : Z) (ct body : text) (keep_alive : bool) (extra : text) : text :=
  response_head status ct (size body) keep_alive extra ++ body.

Definition sse_headers : text :=
  txt "HTTP/1.1 200 OK" ++ CRLF ++ txt "Content-Type: text/event-stream" ++ CRLF ++ txt "Cache-Control: no-store" ++ CRLF
  ++ txt "Access-Control-Allow-Origin: *" ++ CRLF ++ txt "Connection: close" ++ TERM ++ txt ": connected" ++ LFLF.

Definition sse_event (type data : text) : text := txt "event: " ++ type ++ [NL] ++ txt "data: " ++ data ++ LFLF.

Definition mjpeg_headers (boundary : text) : text :=
  txt "HTTP/1.1 200 OK" ++ CRLF ++ txt "Content-Type: multipart/x-mixed-replace; boundary=" ++ boundary
  ++ CRLF ++ txt "Cache-Control: no-store" ++ CRLF ++ txt "Pragma: no-cache" ++ CRLF
  ++ txt "Access-Control-Allow-Origin: *" ++ CRLF ++ txt "Connection: close" ++ TERM.

Definition mjpeg_frame (boundary data : text) : text :=
  txt "--" ++ boundary ++ CRLF ++ txt "Content-Type: image/jpeg" ++ CRLF ++ txt "Content-Length: " ++ print_dec (size data) ++ TERM
  ++ data ++ CRLF.
