(* ===== verification/HttpSpec.v ===== *)
(** * What the front door accepts, and what it passes on

    A verdict does not depend on how the octets arrived; an accepted request
    has no way to say more than the parser saw; what is written for the web
    interface is read back as the request that was checked; a rewritten path
    decodes to the file that was looked at. *)

From S2P Require Import Prelude Text HttpParse.

(** ** Arrival in pieces *)

(** The buffer is parsed again after each piece until there is a verdict. *)
Fixpoint feed (lim : Limits) (acc : text) (pieces : list text) : Parse :=
  match parse_request acc lim, pieces with
  | Incomplete, c :: cs => feed lim (acc ++ c) cs
  | v, _ => v
  end.

(** The sums of the limits do not wrap. *)
Definition bounded (lim : Limits) : Prop := 0 <= max_head lim /\ 0 <= max_body lim /\ max_head lim + 4 + max_body lim < 2 ^ 32.

(** No terminator yet in a buffer that is only just too long for one. *)
Definition at_the_edge (lim : Limits) (buf : text) : Prop :=
  find_text TERM buf = None /\ max_head lim < size buf < max_head lim + 4.

Lemma term_prefix buf fin : find_text TERM buf = Some fin -> (fin <= length buf)%nat /\ has_prefix CRLF (drop fin buf) = true.
Proof.
  intros (H & L & _)%find_text_some. split; [done|]. apply has_prefix_spec in H as [r ->]. apply has_prefix_spec. by exists (CRLF ++ r).
Qed.

(** Inside the head a line end is found, and not past the head's. *)
Lemma line_end buf fin p : find_text TERM buf = Some fin -> (p <= fin)%nat ->
  exists e, find_from CRLF buf p = Some e /\ (p <= e <= fin)%nat.
Proof.
  intros [L H]%term_prefix Hp. unfold find_from.
  assert (O : has_prefix CRLF (drop (fin - p) (drop p buf)) = true) by (rewrite drop_drop; by replace (p + (fin - p))%nat with fin by lia).
  destruct (find_text CRLF (drop p buf)) as [i|] eqn:F.
  - cbn. exists (p + i)%nat. split; [done|]. apply find_text_some in F as (_ & _ & B).
    destruct (decide (i <= fin - p)%nat); [lia|]. rewrite B in O by lia. done.
  - rewrite find_text_none in F. rewrite F in O; [done|]. rewrite length_drop. lia.
Qed.

Lemma find_from_grow p a b pos e : (pos <= length a)%nat -> find_from p a pos = Some e -> find_from p (a ++ b) pos = Some e.
Proof.
  unfold find_from. intros Hp E. rewrite drop_app_le by done. destruct (find_text p (drop pos a)) as [i|] eqn:F; [|done].
  by rewrite (find_text_grow _ _ _ _ F).
Qed.

(** The loop depends on the head alone; a round per octet is fuel enough. *)
Lemma header_loop_grow lim buf more fin : find_text TERM buf = Some fin -> forall f1 f2 p hs,
  (fin - p < f1)%nat -> (fin - p < f2)%nat ->
  header_loop f1 lim (buf ++ more) fin p hs = header_loop f2 lim buf fin p hs.
Proof.
  intros E. assert (L : (fin <= length buf)%nat) by (by apply find_text_some in E as (_ & ? & _)).
  induction f1 as [|f1 IH]; intros [|f2] p hs H1 H2; [lia|lia|lia|]. cbn [header_loop].
  destruct (p <? fin)%nat eqn:P; cbn [negb]; [|done]. apply Nat.ltb_lt in P.
  destruct (line_end buf fin p E ltac:(lia)) as (e & F & He).
  rewrite F, (find_from_grow CRLF buf more p e ltac:(lia) F). assert (B : (fin <? e)%nat = false) by (apply Nat.ltb_ge; lia). rewrite B.
  rewrite drop_app_le by lia. rewrite take_app_le by (rewrite length_drop; lia).
  destruct (existsb _ _); [done|]. destruct (index_of _ _); [|done]. cbv zeta. destruct (_ || _); [done|].
  apply IH; lia.
Qed.

Lemma declared_bound lim hs n : 0 <= max_body lim < 2 ^ 32 ->
  declared lim hs = Some (Some n) -> 0 <= n < 2 ^ 32 /\ (head_only lim = false -> n <= max_body lim).
Proof.
  intros Hm. unfold declared. destruct (_ <? _)%nat; [done|]. cbv zeta.
  destruct (header_of hs _) as [|c cl] eqn:Ec; [intros [= <-]; split; [lia|intros _; lia]|].
  destruct (forallb is_digit (c :: cl)) eqn:D; cbn [negb]; [|done]. destruct (if head_only lim then _ else _) eqn:V; [done|]. intros [= <-].
  split; [unfold u32; apply Z.mod_pos_bound; lia|]. intros Ho. rewrite Ho in V. apply Z.ltb_ge in V.
  apply dec_value_nonneg in D. assert (0 <= strtoull (c :: cl)) by (unfold strtoull, strtou; lia). unfold u32. rewrite Z.mod_small by lia. lia.
Qed.

(** What remains of the parser behind the loop. *)
Definition finish_request (buf : text) (lim : Limits) (fin : nat) (line : text * text * text * bool) (hs : list (text * text)) : Parse :=
  let '(m, pa, q, http11) := line in
  match declared lim hs with
  | None => Bad
  | Some None => TooLarge
  | Some (Some body_len) =>
      if negb (text_eqb (header_of hs (txt "transfer-encoding")) []) then Bad else
      let r := Build_Request m pa q hs [] body_len (wants_keep hs http11) in
      if head_only lim then Ok (Z.of_nat fin + 4) r else
      let total := u32 (Z.of_nat fin + 4 + body_len) in
      if size buf <? total then Incomplete else Ok total (r <| body := substr buf (Z.of_nat fin + 4) body_len |>)
  end.

Lemma parse_request_steps buf lim : parse_request buf lim =
  match find_text TERM buf with
  | None => if max_head lim <? size buf then TooLarge else Incomplete
  | Some fin =>
      if max_head lim <? Z.of_nat fin then TooLarge else
      let nl := default O (find_text CRLF buf) in
      match request_line (take nl buf) with
      | None => Bad
      | Some line => match header_loop (length buf) lim buf fin (nl + 2) [] with
                     | None => Bad
                     | Some hs => finish_request buf lim fin line hs
                     end
      end
  end.
Proof.
  unfold parse_request. destruct (find_text TERM buf) as [fin|]; [|done]. destruct (max_head lim <? Z.of_nat fin); [done|]. cbv zeta.
  destruct (request_line _) as [[[[m pa] q] k]|]; [|done]. destruct (header_loop _ _ _ _ _ _); done.
Qed.

Definition decided (v : Parse) : Prop := match v with Incomplete => False | _ => True end.

Lemma finish_grow buf more lim fin line hs : bounded lim -> Z.of_nat fin <= max_head lim ->
  decided (finish_request buf lim fin line hs) -> finish_request (buf ++ more) lim fin line hs = finish_request buf lim fin line hs.
Proof.
  intros (Bh & Bb & B) Hfin. unfold finish_request. destruct line as [[[m pa] q] k].
  destruct (declared lim hs) as [[n|]|] eqn:D; [|done|done]. apply declared_bound in D as [Hn Hm]; [|lia].
  destruct (negb _); [done|]. cbv zeta. destruct (head_only lim); [done|]. specialize (Hm eq_refl).
  unfold u32. rewrite Z.mod_small by lia. rewrite size_app. pose proof (size_nonneg more).
  destruct (size buf <? Z.of_nat fin + 4 + n) eqn:S; [done|]. apply Z.ltb_ge in S. intros _.
  assert (S' : (size buf + size more <? Z.of_nat fin + 4 + n) = false) by (apply Z.ltb_ge; lia). rewrite S'. f_equal.
  cbn [upd]. f_equal. unfold substr. rewrite size_app, !Z.min_l by lia. unfold size in S.
  rewrite drop_app_le by lia. rewrite take_app_le by (rewrite length_drop; lia). done.
Qed.

(** A verdict stays when more arrives. *)
Lemma parse_grow lim buf more : bounded lim -> decided (parse_request buf lim) -> ~ at_the_edge lim buf ->
  parse_request (buf ++ more) lim = parse_request buf lim.
Proof.
  intros Hlim. rewrite !parse_request_steps. unfold at_the_edge. destruct (find_text TERM buf) as [fin|] eqn:E.
  - intros Hd _. rewrite (find_text_grow _ _ _ _ E). destruct (max_head lim <? Z.of_nat fin) eqn:Hf; [done|]. apply Z.ltb_ge in Hf.
    destruct (line_end buf fin O E ltac:(lia)) as (nl & F & Hnl). unfold find_from in F. rewrite drop_0 in F.
    destruct (find_text CRLF buf) as [nl'|] eqn:G; [|done]. cbn in F. injection F as F. subst nl'. rewrite (find_text_grow _ _ _ _ G). cbv zeta. unfold id, default. cbv beta iota.
    pose proof (proj1 (term_prefix _ _ E)) as Hb. rewrite take_app_le by lia. destruct (request_line _) as [line|]; [|done].
    assert (0 < length buf)%nat. { destruct buf; cbn in *; [|lia]. destruct fin; [|lia]. done. }
    rewrite (header_loop_grow lim buf more fin E _ (length buf)) by (rewrite ?length_app; lia).
    cbv zeta in Hd. unfold id, default in Hd. cbv beta iota in Hd.
    destruct (header_loop _ _ _ _ _ _) as [hs|]; [|done]. by apply finish_grow.
  - intros Hd Hedge. destruct (max_head lim <? size buf) eqn:S; [|done]. apply Z.ltb_lt in S.
    assert (L : max_head lim + 4 <= size buf) by (destruct (decide (size buf < max_head lim + 4)); [tauto|lia]).
    destruct (find_text TERM (buf ++ more)) as [fin|] eqn:G.
    + apply (find_text_new _ _ _ _ E) in G. change (length TERM) with 4%nat in G. unfold size in L.
      assert (H : (max_head lim <? Z.of_nat fin) = true) by (apply Z.ltb_lt; lia). by rewrite H.
    + assert (H : (max_head lim <? size (buf ++ more)) = true) by (apply Z.ltb_lt; rewrite size_app; pose proof (size_nonneg more); lia). by rewrite H.
Qed.

(** C28. However the octets of a request are cut into pieces, and wherever the parser is
    run in between, the verdict is that on the whole: no piece boundary makes a bad request
    good or moves the end of a good one, so that the octets behind it are the next request.
    The one exception is a head that ends within three octets of the limit. *)
Theorem pieces_do_not_matter lim pieces : bounded lim ->
  feed lim [] pieces = parse_request (concat pieces) lim
  \/ exists k, at_the_edge lim (concat (take k pieces)) /\ feed lim [] pieces = TooLarge.
Proof.
  intros Hlim. change (concat pieces) with ([] ++ concat pieces).
  assert (H : forall acc, feed lim acc pieces = parse_request (acc ++ concat pieces) lim
    \/ exists k, at_the_edge lim (acc ++ concat (take k pieces)) /\ feed lim acc pieces = TooLarge); [|apply H].
  induction pieces as [|c cs IH]; intros acc.
  - cbn. rewrite app_nil_r. left. by destruct (parse_request acc lim).
  - assert (F : feed lim acc (c :: cs) = match parse_request acc lim with Incomplete => feed lim (acc ++ c) cs | v => v end) by (cbn; by destruct (parse_request acc lim)).
    rewrite F. cbn [concat]. assert (C : parse_request acc lim = Incomplete \/ decided (parse_request acc lim)) by (destruct (parse_request acc lim); cbn; auto).
    destruct C as [P|D].
    + rewrite P. destruct (IH (acc ++ c)) as [E|(k & Hk & E)]; [left; by rewrite E, <- app_assoc|].
      right. exists (S k). cbn [take concat]. by rewrite app_assoc.
    + destruct (decide (find_text TERM acc = None /\ max_head lim < size acc < max_head lim + 4)) as [Hedge|Hedge].
      * right. exists O. cbn. rewrite app_nil_r. split; [done|]. destruct Hedge as [N S]. unfold parse_request. rewrite N.
        assert (B : (max_head lim <? size acc) = true) by (apply Z.ltb_lt; lia). by rewrite B.
      * left. rewrite (parse_grow lim acc _ Hlim D Hedge). by destruct (parse_request acc lim).
Qed.

Lemma pieces_do_not_matter_witness :
  feed default_limits [] [txt "GET /a HT"; txt "TP/1.1" ++ CRLF; CRLF ++ txt "GET"]
  = parse_request (concat [txt "GET /a HT"; txt "TP/1.1" ++ CRLF; CRLF ++ txt "GET"]) default_limits
  /\ feed default_limits [] [txt "GET /a HT"; txt "TP/1.1" ++ CRLF; CRLF ++ txt "GET"]
     = Ok 19 (Build_Request (txt "GET") (txt "/a") [] [] [] 0 true).
Proof.
  split; [|reflexivity].
  destruct (pieces_do_not_matter default_limits [txt "GET /a HT"; txt "TP/1.1" ++ CRLF; CRLF ++ txt "GET"]) as [E|(k & _ & E)];
    [by vm_compute|exact E|by vm_compute in E].
Defined.

(** A request of 8194 octets without body: in one piece its head is within the limit,
    cut before its last octet it is refused. *)
Definition edge_request : text := txt "GET / HTTP/1.1" ++ CRLF ++ txt "a:" ++ repeat "b"%char (Z.to_nat 8172) ++ TERM.

Example edge_depends_on_pieces :
  feed default_limits [] [edge_request] <> TooLarge
  /\ feed default_limits [] [take (Z.to_nat 8193) edge_request; drop (Z.to_nat 8193) edge_request] = TooLarge.
Proof. split; [by vm_compute|by vm_compute]. Qed.

(** ** What is left by [trim] *)

(** No blank at the front and none, nor a carriage return, at the end. *)
Definition tight (s : text) : Prop := s = [] \/ exists c l, head s = Some c /\ blank c = false /\ last s = Some l /\ blank_cr l = false.

Lemma first_not_spec P s : match first_not P s with
  | Some a => exists l c r, s = l ++ c :: r /\ length l = a /\ Forall (fun c => P c = true) l /\ P c = false
  | None => Forall (fun c => P c = true) s end.
Proof.
  induction s as [|c s IH]; cbn [first_not]; [constructor|]. destruct (P c) eqn:E.
  - destruct (first_not P s) as [a|]; cbn [fmap option_fmap option_map]; [|by constructor].
    destruct IH as (l & x & r & -> & <- & Hl & Hx). exists (c :: l), x, r. repeat split; auto.
  - exists [], c, s. repeat split; auto.
Qed.

Lemma last_not_spec P s : match last_not P s with
  | Some b => exists l c r, s = l ++ c :: r /\ length l = b /\ Forall (fun c => P c = true) r /\ P c = false
  | None => Forall (fun c => P c = true) s end.
Proof.
  induction s as [|c s IH]; cbn [last_not]; [constructor|]. destruct (last_not P s) as [b|].
  - destruct IH as (l & x & r & -> & <- & Hr & Hx). exists (c :: l), x, r. repeat split; auto.
  - destruct (P c) eqn:E; [by constructor|]. exists [], c, s. repeat split; auto.
Qed.

Lemma trim_spec s : CR ∉ trim s -> tight (trim s).
Proof.
  unfold trim. pose proof (first_not_spec blank s) as F. destruct (first_not blank s) as [a|]; [|by left].
  destruct F as (l & c & r & -> & <- & Hl & Hc). pose proof (last_not_spec blank_cr (l ++ c :: r)) as B.
  destruct (last_not blank_cr (l ++ c :: r)) as [b|].
  - destruct B as (l' & x & r' & E & <- & Hr & Hx). intros _. right.
    assert (Hle : (length l <= length l')%nat).
    { destruct (decide (length l <= length l')%nat); [done|]. exfalso.
      assert (L : (l ++ c :: r) !! length l' = Some x) by (rewrite E; by apply list_lookup_middle).
      rewrite lookup_app_l in L by lia. apply list_elem_of_lookup_2 in L. rewrite Forall_forall in Hl. apply Hl in L.
      unfold blank_cr in Hx. by rewrite L in Hx. }
    assert (D : drop (length l) (l ++ c :: r) = drop (length l) l' ++ x :: r') by (by rewrite E, drop_app_le).
    rewrite drop_app_length in *. rewrite D. exists c, x.
    replace (length l' - length l + 1)%nat with (length (drop (length l) l' ++ [x])) by (rewrite length_app, length_drop; cbn; lia).
    change (x :: r') with ([x] ++ r'). rewrite app_assoc, take_app_length. split; [|split; [done|split; [apply last_snoc|done]]].
    destruct (drop (length l) l') as [|y ys]; cbn in *; congruence.
  - destruct (length l) as [|n] eqn:N; [by left|]. intros HCR. exfalso. apply HCR. rewrite <- N, drop_app_length.
    rewrite Forall_forall in B. assert (Hin : c ∈ l ++ c :: r) by (apply elem_of_app; right; by left). apply B in Hin.
    unfold blank_cr in Hin. rewrite Hc in Hin. apply Ascii.eqb_eq in Hin. subst c. by left.
Qed.

Lemma first_not_head P c s : P c = false -> first_not P (c :: s) = Some O.
Proof. intros H. cbn. by rewrite H. Qed.

Lemma last_not_snoc P s c : P c = false -> last_not P (s ++ [c]) = Some (length s).
Proof. intros H. induction s as [|x s IH]; cbn; [by rewrite H|by rewrite IH]. Qed.

Lemma tight_shape s : tight s -> s = [] \/ exists c s' l t, s = c :: s' /\ s = t ++ [l] /\ blank c = false /\ blank_cr l = false.
Proof.
  intros [->|(c & l & Hh & Hc & Hl & Hb)]; [by left|]. right. apply last_Some in Hl as [t ->].
  destruct (t ++ [l]) as [|x s'] eqn:E; [done|]. injection Hh as ->. exists c, s', l, t. auto.
Qed.

Lemma tight_trim s : tight s -> trim s = s.
Proof.
  intros [->|(c & s' & l & t & E & E' & Hc & Hl)]%tight_shape; [done|]. unfold trim.
  rewrite E at 1. rewrite first_not_head by done. rewrite E' at 1. rewrite last_not_snoc by done.
  rewrite drop_0, Nat.sub_0_r. apply take_ge. rewrite E', length_app. cbn. lia.
Qed.

Lemma tight_trim_blank s : tight s -> trim (SP :: s) = s.
Proof.
  intros [->|(c & s' & l & t & E & E' & Hc & Hl)]%tight_shape; [done|]. unfold trim.
  assert (F : first_not blank (SP :: s) = Some 1%nat) by (rewrite E; cbn; by rewrite Hc).
  assert (L : last_not blank_cr (SP :: s) = Some (length s)).
  { rewrite E'. change (SP :: t ++ [l]) with ((SP :: t) ++ [l]). rewrite last_not_snoc by done. cbn. by rewrite length_app, Nat.add_comm. }
  rewrite F, L. cbn [drop]. apply take_ge. lia.
Qed.

(** ** What an accepted request looks like *)

(** The name and the value of a field: no octet in them starts another line, the name
    is lower case without a colon, both are trimmed (as far as there is no bare carriage
    return). *)
Definition field_ok (h : text * text) : Prop :=
  h.1 <> [] /\ lowercase h.1 = h.1 /\ (":"%char ∉ h.1)
  /\ existsb bad_field (h.1 ++ h.2) = false
  /\ (CR ∉ h.1 -> tight h.1) /\ (CR ∉ h.2 -> tight h.2).

(** Nothing in the request line ends it or climbs out of the tree. *)
Definition line_ok (r : Request) : Prop :=
  forallb upper_case (method r) = true
  /\ has_prefix (txt "/") (path r) = true /\ existsb bad_target (path r ++ query r) = false
  /\ ("?"%char ∉ path r) /\ occurs (txt "..") (path r) = false /\ encoded_dot (path r) = false.

Definition length_fields (hs : list (text * text)) : nat := length (List.filter (fun h => text_eqb h.1 (txt "content-length")) hs).

Definition request_ok (lim : Limits) (r : Request) : Prop :=
  line_ok r
  /\ Forall field_ok (headers r) /\ Z.of_nat (length (headers r)) <= Z.max 0 (max_headers lim)
  /\ (length_fields (headers r) <= 1)%nat /\ header r "transfer-encoding" = [].

Lemma existsb_false {A} (f : A -> bool) l : existsb f l = false <-> forall x, x ∈ l -> f x = false.
Proof.
  induction l as [|a l IH]; cbn; [split; [intros _ x Hx; by apply not_elem_of_nil in Hx|done]|].
  rewrite orb_false_iff, IH. split.
  - intros [Ha Hl] x [->|Hx]%elem_of_cons; auto.
  - intros H. split; [apply H; by left|]. intros x Hx. apply H. by right.
Qed.

Lemma existsb_sub {A} (f : A -> bool) l k : (forall x, x ∈ k -> x ∈ l) -> existsb f l = false -> existsb f k = false.
Proof. rewrite !existsb_false. auto. Qed.

Lemma elem_take {A} (x : A) n l : x ∈ take n l -> x ∈ l.
Proof. intros H. rewrite <- (take_drop n l). apply elem_of_app. by left. Qed.

Lemma elem_drop {A} (x : A) n l : x ∈ drop n l -> x ∈ l.
Proof. intros H. rewrite <- (take_drop n l). apply elem_of_app. by right. Qed.

Lemma elem_trim x s : x ∈ trim s -> x ∈ s.
Proof.
  unfold trim. destruct (first_not blank s) as [a|]; [|by intros ?%not_elem_of_nil]. destruct (last_not _ _).
  - intros H%elem_take. by apply elem_drop in H.
  - destruct a; [by intros ?%not_elem_of_nil|]. apply elem_drop.
Qed.

Lemma lower_lower c : lower (lower c) = lower c.
Proof. destruct c as [[] [] [] [] [] [] [] []]; reflexivity. Qed.

Lemma lowercase_twice s : lowercase (lowercase s) = lowercase s.
Proof. unfold lowercase. rewrite map_map. apply map_ext, lower_lower. Qed.

Lemma lowercase_take n s : lowercase (take n s) = take n (lowercase s).
Proof. unfold lowercase. by rewrite firstn_map. Qed.

Lemma lowercase_drop n s : lowercase (drop n s) = drop n (lowercase s).
Proof. unfold lowercase. by rewrite skipn_map. Qed.

Lemma lowercase_fix s : lowercase s = s <-> Forall (fun c => lower c = c) s.
Proof.
  induction s as [|c s IH]; cbn; [done|]. rewrite Forall_cons. split.
  - intros [= Hc Hs]. split; [done|]. by apply IH.
  - intros [-> Hs]. f_equal. by apply IH.
Qed.

Lemma lowercase_trim s : lowercase s = s -> lowercase (trim s) = trim s.
Proof. rewrite !lowercase_fix, !Forall_forall. intros H x Hx. apply H. by apply elem_trim. Qed.

Lemma lower_bad c : bad_field (lower c) = bad_field c /\ (lower c = ":"%char -> c = ":"%char).
Proof. destruct c as [[] [] [] [] [] [] [] []]; split; (reflexivity || done). Qed.

(** One line of the header, as the loop takes it. *)
Lemma field_of_line h c (name := trim (lowercase (take c h))) (val := trim (drop (c + 1) h)) :
  existsb bad_field h = false -> index_of ":" h = Some c -> name <> [] -> field_ok (name, val).
Proof.
  intros Hb Hc Hn. unfold field_ok. cbn [fst snd]. split; [done|]. split; [apply lowercase_trim, lowercase_twice|].
  split; [|split; [|split; [apply trim_spec|apply trim_spec]]].
  - intros Hin%elem_trim. unfold lowercase in Hin. apply list_elem_of_fmap in Hin as (x & Hx & Hin). symmetry in Hx. apply lower_bad in Hx.
    subst x. by apply take_index in Hc.
  - rewrite existsb_false in *. intros x [Hx|Hx]%elem_of_app; apply elem_trim in Hx.
    + apply list_elem_of_fmap in Hx as (y & -> & Hy). rewrite (proj1 (lower_bad y)). apply Hb. by apply elem_take in Hy.
    + apply Hb. by apply elem_drop in Hx.
Qed.

Lemma header_loop_ok lim buf fin : forall fuel p hs hs', header_loop fuel lim buf fin p hs = Some hs' ->
  Forall field_ok hs -> Z.of_nat (length hs) <= Z.max 0 (max_headers lim) ->
  Forall field_ok hs' /\ Z.of_nat (length hs') <= Z.max 0 (max_headers lim).
Proof.
  induction fuel as [|fuel IH]; intros p hs hs'; cbn [header_loop]; [done|].
  destruct (negb _); [by intros [= <-]|]. cbv zeta. set (e := match find_from _ _ _ with Some _ => _ | None => _ end).
  destruct (existsb bad_field _) eqn:Hb; [done|]. destruct (index_of ":" _) as [c|] eqn:Hc; [|done].
  destruct (text_eqb_spec (trim (lowercase (take c (take (e - p) (drop p buf))))) []) as [|Hn]; [done|]. cbn [orb].
  destruct (max_headers lim <=? Z.of_nat (length hs)) eqn:Hm; [done|]. apply Z.leb_gt in Hm. intros E Hf Hl.
  apply IH in E; [done| |].
  - apply Forall_app. split; [done|]. constructor; [|constructor]. by apply field_of_line.
  - rewrite length_app. cbn. lia.
Qed.

Lemma request_line_ok line m pa q k : request_line line = Some (m, pa, q, k) ->
  forall hs b n ka, line_ok (Build_Request m pa q hs b n ka).
Proof.
  unfold request_line. destruct (index_of SP line) as [s1|]; [|done]. destruct (last_index SP line) as [s2|]; [|done].
  destruct (_ || _); [done|]. cbv zeta. destruct (negb _); [done|]. set (target := take _ (drop (s1 + 1) line)).
  destruct (has_prefix (txt "/") target) eqn:P; [|done]. cbn [negb]. destruct (existsb bad_target target) eqn:Hb; [done|].
  set (pa' := match index_of "?" target with Some _ => _ | None => _ end). set (q' := match index_of "?" target with Some _ => _ | None => [] end).
  destruct (occurs (txt "..") pa') eqn:Ho; [done|]. destruct (encoded_dot pa') eqn:He; [done|]. destruct (forallb upper_case _) eqn:Hu; [|done].
  intros [= <- <- <- <-] hs b n ka. unfold line_ok. cbn [method path query]. split; [done|].
  assert (Hpre : has_prefix (txt "/") pa' = true).
  { unfold pa'. destruct (index_of "?" target) as [i|] eqn:I; [|done]. apply has_prefix_spec in P as [r P]. rewrite P in I. cbn in I.
    destruct (index_of "?" r) as [j|]; [|done]. cbn in I. injection I as <-. rewrite P. apply has_prefix_spec. by exists (take j r). }
  split; [done|]. split; [|split; [|done]].
  - apply (existsb_sub _ target); [|done]. intros x [Hx|Hx]%elem_of_app; unfold pa', q' in Hx; destruct (index_of "?" target).
    + by apply elem_take in Hx.
    + done.
    + by apply elem_drop in Hx.
    + by apply not_elem_of_nil in Hx.
  - unfold pa'. destruct (index_of "?" target) as [i|] eqn:I; [by apply take_index|by apply index_of_none_inv].
Qed.

Lemma parse_request_ok buf lim n r : parse_request buf lim = Ok n r -> request_ok lim r.
Proof.
  rewrite parse_request_steps. destruct (find_text TERM buf) as [fin|]; [|by destruct (_ <? _)]. destruct (max_head lim <? Z.of_nat fin); [done|]. cbv zeta.
  destruct (request_line _) as [[[[m pa] q] k]|] eqn:L; [|done]. destruct (header_loop _ _ _ _ _ _) as [hs|] eqn:H; [|done].
  apply header_loop_ok in H as [Hf Hl]; [|constructor|cbn; lia]. pose proof (request_line_ok _ _ _ _ _ L) as Hline.
  unfold finish_request. destruct (declared lim hs) as [[b|]|] eqn:D; [|done|done].
  assert (C : (length_fields hs <= 1)%nat).
  { unfold declared in D. fold (length_fields hs) in D. destruct (1 <? length_fields hs)%nat eqn:G; [done|]. by apply Nat.ltb_ge in G. }
  destruct (text_eqb_spec (header_of hs (txt "transfer-encoding")) []) as [T|]; [|done]. cbn [negb]. cbv zeta.
  destruct (head_only lim); [|destruct (_ <? _); [done|]]; intros [= _ <-]; (split; [apply Hline|]; auto).
Qed.

(** ** Reading back what was written *)

(** A head as lines: the request line, field lines, the empty line. *)
Definition written (line : text) (fields : list text) (body : text) : text :=
  line ++ CRLF ++ concat (map put_crlf fields) ++ CRLF ++ body.

Lemma find_crlf a b : one_line a -> find_text CRLF (a ++ CRLF ++ b) = Some (length a).
Proof.
  intros Ha. apply (find_text_at [CR] NL a b Ha). by intros ?%list_elem_of_singleton.
Qed.

(** The second octet of a line that is followed by a line end is no line feed. *)
Lemma second_octet (P : text) x a b : one_line (x :: a) -> has_prefix (CR :: NL :: P) (x :: a ++ CR :: b) = false.
Proof.
  intros [_ Ha]%not_elem_of_cons. apply not_true_is_false. intros [r E]%has_prefix_spec. cbn in E. destruct a as [|y a]; cbn in E; [done|].
  injection E as _ E _. apply Ha. rewrite E. by left.
Qed.

Lemma find_term_last a b : one_line a -> find_text TERM (a ++ TERM ++ b) = Some (length a).
Proof.
  induction a as [|x a IH]; intros Ha.
  - apply find_text_some. split; [exact (has_prefix_app TERM b)|]. split; [cbn; lia|intros j Hj; cbn in Hj; lia].
  - cbn [app find_text length]. change (TERM ++ b) with (CR :: [NL; CR; NL] ++ b) at 1.
    rewrite (second_octet [CR; NL] x a _ Ha). rewrite IH; [done|]. by apply not_elem_of_cons in Ha as [_ ?].
Qed.

Lemma find_term_next a s : one_line a -> has_prefix CRLF s = false ->
  find_text TERM (a ++ CRLF ++ s) = Nat.add (length a + 2) <$> find_text TERM s.
Proof.
  intros Ha Hs. induction a as [|x a IH].
  - cbn [app length]. change (CRLF ++ s) with (CR :: NL :: s). cbn [find_text].
    assert (H1 : has_prefix TERM (CR :: NL :: s) = false).
    { apply not_true_is_false. intros [r E]%has_prefix_spec. cbn in E. injection E as E. assert (C : has_prefix CRLF s = true); [|congruence].
      apply has_prefix_spec. by exists r. }
    assert (H2 : has_prefix TERM (NL :: s) = false).
    { apply not_true_is_false. intros [r E]%has_prefix_spec. done. }
    rewrite H1, H2. by destruct (find_text TERM s).
  - cbn [app find_text length]. change (CRLF ++ s) with (CR :: [NL] ++ s) at 1. rewrite (second_octet [CR; NL] x a _ Ha).
    rewrite IH by (by apply not_elem_of_cons in Ha as [_ ?]). by destruct (find_text TERM s).
Qed.

Definition plain_line (l : text) : Prop := l <> [] /\ one_line l.

Lemma length_put l : length (put_crlf l) = (length l + 2)%nat.
Proof. unfold put_crlf. by rewrite length_app. Qed.

Lemma no_crlf_line l s : plain_line l -> has_prefix CRLF (put_crlf l ++ s) = false.
Proof.
  intros [Hl Ho]. destruct l as [|x a]; [done|]. unfold put_crlf. rewrite <- app_assoc. change (CRLF ++ s) with (CR :: [NL] ++ s).
  apply (second_octet [] x a _ Ho).
Qed.

(** Where the head of a written request ends. *)
Definition head_size (line : text) (fields : list text) : nat := (length (line ++ CRLF ++ concat (map put_crlf fields)) - 2)%nat.

Lemma find_term_written line fields body : one_line line -> Forall plain_line fields ->
  find_text TERM (written line fields body) = Some (head_size line fields).
Proof.
  unfold written, head_size. intros Hl Hf. revert line Hl. induction Hf as [|f fields Hp Hf IH]; intros line Hl; cbn [map concat].
  - cbn [app]. change (CRLF ++ CRLF ++ body) with (TERM ++ body). rewrite find_term_last by done. f_equal. rewrite length_app. cbn. lia.
  - rewrite find_term_next; [|done|rewrite <- app_assoc; by apply no_crlf_line].
    unfold put_crlf at 1. rewrite <- !app_assoc. rewrite IH by (by destruct Hp). cbn [fmap option_fmap option_map]. f_equal.
    rewrite !length_app, length_put. change (length CRLF) with 2%nat. lia.
Qed.

(** A field as the loop takes its line. *)
Definition read_field (h : text) : option (text * text) :=
  if existsb bad_field h then None else
  match index_of ":" h with
  | None => None
  | Some c => Some (trim (lowercase (take c h)), trim (drop (c + 1) h))
  end.

Lemma header_loop_step fuel lim buf fin p hs e h : (p < fin)%nat -> find_from CRLF buf p = Some e -> (e <= fin)%nat ->
  take (e - p) (drop p buf) = h ->
  header_loop (S fuel) lim buf fin p hs =
  match read_field h with
  | None => None
  | Some v => if text_eqb v.1 [] || (max_headers lim <=? Z.of_nat (length hs)) then None
              else header_loop fuel lim buf fin (e + 2) (hs ++ [v])
  end.
Proof.
  intros Hp He Hfin Hh. cbn [header_loop]. apply Nat.ltb_lt in Hp. rewrite Hp, He. cbn [negb].
  apply Nat.ltb_ge in Hfin. rewrite Hfin. cbv zeta. rewrite Hh. unfold read_field.
  destruct (existsb _ _); [done|]. by destruct (index_of _ _).
Qed.

Lemma header_loop_written lim fields : forall vals, Forall2 (fun h v => plain_line h /\ read_field h = Some v /\ v.1 <> []) fields vals ->
  forall pre body hs fuel, Z.of_nat (length hs + length vals) <= max_headers lim ->
  (length fields < fuel)%nat -> (2 <= length pre)%nat ->
  header_loop fuel lim (pre ++ concat (map put_crlf fields) ++ CRLF ++ body)
    (length (pre ++ concat (map put_crlf fields)) - 2) (length pre) hs = Some (hs ++ vals).
Proof.
  induction 1 as [|h v fields vals ([Hne Ho] & Hv & Hn) Hf IH]; intros pre body hs fuel Hm Hfuel Hpre; (destruct fuel as [|fuel]; [cbn in *; lia|]).
  - cbn [header_loop map concat app]. rewrite app_nil_r. assert (H : (length pre <? length pre - 2)%nat = false) by (apply Nat.ltb_ge; lia). rewrite H. cbn. by rewrite app_nil_r.
  - cbn [map concat]. set (rest := concat (map put_crlf fields)) in *. assert (0 < length h)%nat by (destruct h; [done|cbn; lia]).
    assert (L : length (pre ++ put_crlf h ++ rest) = (length pre + length h + 2 + length rest)%nat) by (rewrite !length_app, length_put; lia).
    specialize (IH (pre ++ put_crlf h) body (hs ++ [v]) fuel). rewrite <- !app_assoc in IH. rewrite L in IH |- *.
    assert (D : drop (length pre) (pre ++ put_crlf h ++ rest ++ CRLF ++ body) = h ++ CRLF ++ rest ++ CRLF ++ body).
    { rewrite drop_app_length. unfold put_crlf. by rewrite <- !app_assoc. }
    rewrite <- app_assoc, (header_loop_step _ _ _ _ _ _ (length pre + length h) h); [|lia| |lia|].
    + rewrite Hv. cbn [length] in Hm. assert (M : (max_headers lim <=? Z.of_nat (length hs)) = false) by (apply Z.leb_gt; lia). rewrite M.
      destruct (text_eqb_spec v.1 []); [done|]. cbn [orb]. assert (LP : length (pre ++ put_crlf h) = (length pre + length h + 2)%nat) by (rewrite length_app, length_put; lia). rewrite LP in IH.
      cbn [length] in Hfuel. rewrite IH; [|rewrite length_app; cbn; lia|lia|lia]. done.
    + unfold find_from. rewrite D, find_crlf by done. done.
    + rewrite D. replace (length pre + length h - length pre)%nat with (length h) by lia. by rewrite take_app_length.
Qed.

Lemma parse_request_written lim line fields vals body m pa q k : bounded lim -> head_only lim = false ->
  plain_line line -> request_line line = Some (m, pa, q, k) ->
  Forall2 (fun h v => plain_line h /\ read_field h = Some v /\ v.1 <> []) fields vals ->
  Z.of_nat (length vals) <= max_headers lim -> Z.of_nat (head_size line fields) <= max_head lim ->
  declared lim vals = Some (Some (size body)) -> header_of vals (txt "transfer-encoding") = [] ->
  parse_request (written line fields body) lim
  = Ok (size (written line fields body)) (Build_Request m pa q vals body (size body) (wants_keep vals k)).
Proof.
  intros Hlim Hho [Hne Hl] Hline Hf Hm Hfin Hd Ht. rewrite parse_request_steps.
  assert (Hp : Forall plain_line fields). { clear - Hf. induction Hf as [|? ? ? ? [? _]]; constructor; auto. }
  assert (B : written line fields body = (line ++ CRLF) ++ concat (map put_crlf fields) ++ CRLF ++ body) by (unfold written; by rewrite <- !app_assoc).
  assert (N : length (line ++ CRLF) = (length line + 2)%nat) by (by rewrite length_app).
  assert (H4 : length (line ++ CRLF ++ concat (map put_crlf fields) ++ CRLF) = (head_size line fields + 4)%nat).
  { unfold head_size. rewrite !length_app. change (length CRLF) with 2%nat. lia. }
  assert (HB : written line fields body = (line ++ CRLF ++ concat (map put_crlf fields) ++ CRLF) ++ body) by (unfold written; by rewrite <- !app_assoc).
  assert (HL : length (written line fields body) = (head_size line fields + 4 + length body)%nat) by (rewrite HB, length_app, H4; done).
  assert (F : find_text CRLF (written line fields body) = Some (length line)) by (by apply find_crlf).
  assert (Hloop : header_loop (length (written line fields body)) lim (written line fields body) (head_size line fields) (length line + 2) [] = Some vals).
  { rewrite B at 2. unfold head_size. rewrite <- N, (app_assoc line). apply (header_loop_written lim fields vals Hf (line ++ CRLF) body []); [cbn; lia| |rewrite N; lia].
    rewrite HL. unfold head_size. rewrite app_assoc, length_app, N.
    assert (length fields <= length (concat (map put_crlf fields)))%nat; [|lia].
    clear. induction fields as [|f fs IH]; cbn; [lia|]. rewrite length_app, length_put. lia. }
  rewrite find_term_written by done. rewrite (proj2 (Z.ltb_ge _ _) Hfin). cbv zeta. rewrite F.
  unfold id, default. cbv beta iota. rewrite Hloop. unfold written at 1. rewrite take_app_length, Hline.
  unfold finish_request. rewrite Hd, Ht. change (text_eqb [] []) with true. cbn [negb]. cbv zeta. rewrite Hho.
  pose proof (declared_bound lim vals _ ltac:(destruct Hlim; lia) Hd) as [_ Hb]. specialize (Hb Hho). destruct Hlim as (? & ? & ?).
  pose proof (size_nonneg body). assert (E : Z.of_nat (head_size line fields) + 4 + size body = size (written line fields body)) by (unfold size; rewrite HL; lia).
  unfold u32. rewrite E, Z.mod_small by lia. rewrite Z.ltb_irrefl. f_equal. cbn [upd]. f_equal.
  unfold substr. rewrite Z.min_l by lia. replace (Z.to_nat (Z.of_nat (head_size line fields) + 4)) with (head_size line fields + 4)%nat by lia.
  rewrite HB, <- H4, drop_app_length. unfold size. rewrite Nat2Z.id. apply firstn_all.
Qed.

(** *** The parts of a forwarded request *)

(** A property of characters, decided by trying the 256 of them. *)
Definition on_all (P : ascii -> bool) : bool := forallb (fun n => P (ascii_of_nat n)) (seq 0 256).

Lemma for_all_chars (P : ascii -> bool) : on_all P = true -> forall c, P c = true.
Proof.
  unfold on_all. rewrite forallb_forall. intros H c. pose proof (nat_ascii_bounded c). rewrite <- (ascii_nat_embedding c). apply H, in_seq. lia.
Qed.

(** Characters of one class are of another: [on_all (fun c => implb (P c) (Q c))]. *)
Lemma class_incl (P Q : ascii -> bool) : on_all (fun c => implb (P c) (Q c)) = true -> forall c, P c = true -> Q c = true.
Proof. intros H c Hc. pose proof (for_all_chars _ H c) as I. cbn in I. by rewrite Hc in I. Qed.

Lemma read_field_line n n' v : ":"%char ∉ n -> existsb bad_field (n ++ v) = false -> trim (lowercase n) = n' -> tight v ->
  read_field (n ++ txt ": " ++ v) = Some (n', v).
Proof.
  intros Hn Hb Ht Hv. unfold read_field. change (txt ": " ++ v) with (":"%char :: SP :: v).
  assert (B : existsb bad_field (n ++ ":"%char :: SP :: v) = false) by (rewrite existsb_app in *; apply orb_false_iff in Hb as [-> Hb]; exact Hb).
  rewrite B, index_of_app by done. rewrite take_app_length, Ht.
  replace (length n + 1)%nat with (length (n ++ [":"%char])) by (by rewrite length_app).
  change (":"%char :: SP :: v) with ([":"%char] ++ SP :: v). rewrite app_assoc, drop_app_length. by rewrite tight_trim_blank.
Qed.

Lemma no_bad_lf s : existsb bad_field s = false -> one_line s.
Proof. rewrite existsb_false. intros H Hin. by apply H in Hin. Qed.

(** A field as it is written, without its end. *)
Definition field_text (h : text * text) : text := h.1 ++ txt ": " ++ h.2.

Lemma field_text_plain h : existsb bad_field (h.1 ++ h.2) = false -> plain_line (field_text h).
Proof.
  rewrite existsb_app. intros [H1 H2]%orb_false_iff. unfold field_text. split.
  - intros E. apply app_eq_nil in E as [_ E]. done.
  - intros [Hin|[Hin|Hin]%elem_of_app]%elem_of_app; [by apply no_bad_lf in H1| |by apply no_bad_lf in H2].
    revert Hin. cbn. by intros [?|[?|?%not_elem_of_nil]%elem_of_cons]%elem_of_cons.
Qed.

Definition cr_free (h : text * text) : Prop := (CR ∉ h.1) /\ (CR ∉ h.2).

Lemma read_kept h : field_ok h -> cr_free h -> plain_line (field_text h) /\ read_field (field_text h) = Some h /\ h.1 <> [].
Proof.
  intros (Hne & Hlow & Hcol & Hb & Ht1 & Ht2) [H1 H2]. split; [by apply field_text_plain|]. split; [|done].
  destruct h as [n v]. unfold field_text. cbn [fst snd] in *. apply read_field_line; [done|done| |by apply Ht2]. rewrite Hlow. by apply tight_trim, Ht1.
Qed.

(** The host of the web interface is a plain value. *)
Definition plain_host (host : text) : Prop := tight host /\ existsb bad_field host = false.

Definition own_headers (host : text) (body : text) : list (text * text) :=
  [(txt "host", host); (txt "connection", txt "close")]
  ++ match body with [] => [] | _ => [(txt "content-length", print_dec (size body))] end.

(** The request the web interface is given. *)
Definition as_forwarded (r : Request) (host : text) : Request :=
  Build_Request (method r) (forward_path r) (query r) (kept_headers (headers r) ++ own_headers host (body r)) (body r) (size (body r)) false.

Definition forward_line (r : Request) : text := method r ++ txt " " ++ forward_target r ++ txt " HTTP/1.0".

Definition forward_fields (r : Request) (host : text) : list text :=
  map field_text (kept_headers (headers r)) ++ [txt "Host: " ++ host; txt "Connection: close"]
  ++ match body r with [] => [] | _ => [txt "Content-Length: " ++ print_dec (size (body r))] end.

Lemma forward_written r host : forward_request r host = written (forward_line r) (forward_fields r host) (body r).
Proof.
  unfold forward_request, written, forward_line, forward_fields. rewrite !map_app, !concat_app, <- !app_assoc, map_map. do 5 f_equal.
  assert (E : map field_line (kept_headers (headers r)) = map (fun h => put_crlf (field_text h)) (kept_headers (headers r))).
  { apply map_ext. intros h. unfold field_line, put_crlf, field_text. by rewrite <- !app_assoc. }
  rewrite E. f_equal. cbn [map concat]. unfold put_crlf. rewrite <- !app_assoc. do 5 f_equal.
  cbn [app]. destruct (body r); [done|]. cbn [map concat app]. by rewrite <- !app_assoc.
Qed.

Lemma digits_field s : forallb is_digit s = true -> existsb bad_field s = false.
Proof.
  rewrite forallb_forall, existsb_false. intros H x Hx. apply negb_true_iff. apply (class_incl is_digit (fun c => negb (bad_field c))); [by vm_compute|]. apply H. by apply list_elem_of_In.
Qed.

Lemma digits_tight s : forallb is_digit s = true -> tight s.
Proof.
  destruct s as [|c s]; [by left|]. intros H. right. rewrite forallb_forall in H.
  destruct (exists_last (l := c :: s) ltac:(done)) as (t & l & E). exists c, l. rewrite E at 2. rewrite last_snoc.
  assert (Hc : is_digit c = true) by (apply H; by left). assert (Hl : is_digit l = true) by (apply H; rewrite E; apply in_app_iff; right; by left).
  split; [done|]. split; [|split; [done|]]; apply negb_true_iff.
  - by apply (class_incl is_digit (fun c => negb (blank c))); [vm_compute|].
  - by apply (class_incl is_digit (fun c => negb (blank_cr c))); [vm_compute|].
Qed.

Lemma header_of_app hs hs' n : n ∉ hs.*1 -> header_of (hs ++ hs') n = header_of hs' n.
Proof.
  induction hs as [|h hs IH]; [done|]. cbn. intros [Hn Hs]%not_elem_of_cons. destruct (text_eqb_spec h.1 n); [congruence|by apply IH].
Qed.

Lemma kept_not_hop hs n : hop_header n = true -> n ∉ (kept_headers hs).*1.
Proof.
  intros Hh (h & -> & Hin)%list_elem_of_fmap. apply list_elem_of_In, filter_In in Hin as [_ Hin]. by rewrite Hh in Hin.
Qed.

Lemma print_dec_tight n : 0 <= n -> tight (print_dec n).
Proof. intros Hn. by apply digits_tight, print_dec_digits. Qed.

Lemma kept_filter hs n : hop_header n = true -> List.filter (fun h => text_eqb h.1 n) (kept_headers hs) = [].
Proof.
  intros Hh. pose proof (kept_not_hop hs n Hh) as N. induction (kept_headers hs) as [|h l IH]; [done|].
  cbn. cbn in N. apply not_elem_of_cons in N as [N1 N2]. destruct (text_eqb_spec h.1 n) as [E|]; [by rewrite E in N1|by apply IH].
Qed.

Lemma own_declared lim hs host body : head_only lim = false -> 0 <= size body < 2 ^ 32 -> size body <= max_body lim ->
  declared lim (kept_headers hs ++ own_headers host body) = Some (Some (size body)).
Proof.
  intros Hho Hb Hm. unfold declared. rewrite Hho, header_of_app by (by apply kept_not_hop). rewrite List.filter_app, kept_filter by done. cbn [app].
  destruct (decide (body = [])) as [->|Hne]; [done|].
  assert (E : own_headers host body = [(txt "host", host); (txt "connection", txt "close"); (txt "content-length", print_dec (size body))]) by (by destruct body).
  rewrite E. change (header_of _ _) with (print_dec (size body)). change (length (List.filter _ _)) with 1%nat. change (1 <? 1)%nat with false. cbv beta iota zeta.
  pose proof (print_dec_nonempty (size body)) as Hd. pose proof (print_dec_digits (size body) ltac:(lia)) as D.
  assert (V : strtoull (print_dec (size body)) = size body) by (apply strtou_print; lia).
  destruct (print_dec (size body)) as [|c s]; [done|]. rewrite D, V. cbn [negb]. apply Z.ltb_ge in Hm. rewrite Hm. unfold u32. by rewrite Z.mod_small by lia.
Qed.

Lemma own_keep hs host body k : wants_keep (kept_headers hs ++ own_headers host body) k = false.
Proof. unfold wants_keep. rewrite header_of_app by (by apply kept_not_hop). reflexivity. Qed.

Lemma own_transfer hs host body : header_of (kept_headers hs ++ own_headers host body) (txt "transfer-encoding") = [].
Proof. rewrite header_of_app by (by apply kept_not_hop). by destruct body. Qed.

Lemma kept_forall (P : text * text -> Prop) hs : Forall P hs -> Forall P (kept_headers hs).
Proof. rewrite !Forall_forall. intros H x Hx. apply list_elem_of_In, filter_In in Hx as [Hx _]. by apply H, list_elem_of_In. Qed.

Lemma read_own r host : plain_host host -> Forall field_ok (headers r) -> Forall cr_free (headers r) ->
  Forall2 (fun h v => plain_line h /\ read_field h = Some v /\ v.1 <> []) (forward_fields r host) (kept_headers (headers r) ++ own_headers host (body r)).
Proof.
  intros [Ht Hb] Hf Hc. apply Forall2_app.
  - assert (H : Forall (fun h => field_ok h /\ cr_free h) (kept_headers (headers r))) by (apply kept_forall, Forall_and; done).
    induction H as [|h l [H1 H2] _ IH]; constructor; [by apply read_kept|done].
  - apply Forall2_app.
    + constructor; [|constructor; [|constructor]].
      * split; [apply (field_text_plain (txt "Host", host)); cbn [fst snd]; by rewrite existsb_app, Hb|]. split; [|done].
        by apply (read_field_line (txt "Host") (txt "host")); [apply (bool_decide_unpack _)|rewrite existsb_app, Hb| |].
      * split; [|split; [by vm_compute|done]]. split; [done|]. by apply (bool_decide_unpack (NL ∉ txt "Connection: close")).
    + destruct (decide (body r = [])) as [->|Hne]; [constructor|].
      pose proof (size_nonneg (body r)) as Hs. pose proof (print_dec_digits _ Hs) as D.
      assert (Hfd : existsb bad_field (txt "Content-Length" ++ print_dec (size (body r))) = false) by (rewrite existsb_app, (digits_field _ D); reflexivity).
      assert (F : Forall2 (fun h v => plain_line h /\ read_field h = Some v /\ v.1 <> []) [txt "Content-Length: " ++ print_dec (size (body r))] [(txt "content-length", print_dec (size (body r)))]); [|by destruct (body r)].
      constructor; [|constructor]. split; [by apply (field_text_plain (txt "Content-Length", print_dec (size (body r))))|]. split; [|done].
      by apply (read_field_line (txt "Content-Length") (txt "content-length")); [apply (bool_decide_unpack _)| | |apply print_dec_tight].
Qed.

(** *** The request line *)

Lemma not_class (P : ascii -> bool) c s : P c = true -> existsb P s = false -> c ∉ s.
Proof. rewrite existsb_false. intros Hc H Hin. apply H in Hin. congruence. Qed.

Lemma upper_no_space s : forallb upper_case s = true -> SP ∉ s.
Proof. intros H Hin. rewrite forallb_forall in H. by apply list_elem_of_In, H in Hin. Qed.

Definition no_dots (s : text) : bool := negb (occurs (txt "..") s).

Lemma occurs_suffix p s n : occurs p s = false -> occurs p (drop n s) = false.
Proof.
  revert s. induction n as [|n IH]; intros [|c s] H; try done. cbn [drop]. cbn [occurs] in H. apply orb_false_iff in H as [_ H]. by apply IH.
Qed.

(** Two dots do not come up where a piece that ends in another octet is put in front. *)
Lemma dots_app a x b : x <> "."%char -> occurs (txt "..") (a ++ [x]) = false -> occurs (txt "..") b = false -> occurs (txt "..") ((a ++ [x]) ++ b) = false.
Proof.
  intros Hx Ha Hb. induction a as [|c a IH].
  - cbn [app]. change (txt "..") with ["."%char; "."%char]. by rewrite occurs_cons.
  - cbn [app occurs] in *. apply orb_false_iff in Ha as [H1 H2]. rewrite IH by done. rewrite orb_false_r.
    change (txt "..") with ["."%char; "."%char] in *. rewrite has_prefix_cons in *. destruct a as [|d a]; cbn [app] in *.
    + rewrite has_prefix_cons. destruct (Ascii.eqb_spec x "."); [done|]. by rewrite andb_false_r.
    + rewrite has_prefix_cons in *. exact H1.
Qed.

Lemma no_percent_no_dot s : "%"%char ∉ s -> encoded_dot s = false.
Proof.
  induction s as [|c s IH]; [done|]. intros [Hc Hs]%not_elem_of_cons. cbn [encoded_dot]. rewrite IH by done. rewrite orb_false_r.
  destruct s as [|x [|y s]]; try done. by destruct (Ascii.eqb_spec c "%").
Qed.

Lemma existsb_class (P Q : ascii -> bool) s : on_all (fun c => implb (P c) (negb (Q c))) = true -> forallb P s = true -> existsb Q s = false.
Proof.
  intros H Hs. rewrite existsb_false. intros x Hx. rewrite forallb_forall in Hs. apply negb_true_iff, (class_incl P (fun c => negb (Q c)) H). by apply Hs, list_elem_of_In.
Qed.

Lemma class_avoids (P : ascii -> bool) c s : P c = false -> forallb P s = true -> c ∉ s.
Proof. intros Hc H Hin. rewrite forallb_forall in H. apply list_elem_of_In, H in Hin. congruence. Qed.

(** The shim's path keeps what the parser made sure of. *)
Lemma forward_path_ok r : line_ok r -> let p := forward_path r in
  has_prefix (txt "/") p = true /\ existsb bad_target p = false /\ ("?"%char ∉ p) /\ occurs (txt "..") p = false /\ encoded_dot p = false.
Proof.
  intros (_ & Hp & Hb & Hq & Hd & He). rewrite existsb_app in Hb. apply orb_false_iff in Hb as [Hb _]. unfold forward_path. cbv zeta.
  destruct (text_eqb _ _); [done|]. destruct (is_stock_json_cgi (path r)) as [tail|] eqn:J; [|done].
  unfold is_stock_json_cgi in J. destruct (negb _); [done|]. cbv zeta in J. destruct (_ || _); [done|]. destruct (_ || _); [done|].
  destruct (forallb cgi_char (drop 11 (path r))) eqn:C; [|done]. injection J as J. rewrite J in C.
  pose proof (occurs_suffix _ _ 11 Hd) as Ho. rewrite J in Ho. set (pre := txt "/cgi-bin/machino-cgi-run.cgi/j/").
  split; [|split; [|split; [|split]]].
  - apply has_prefix_grow. by vm_compute.
  - rewrite existsb_app, (existsb_class cgi_char bad_target tail); [by vm_compute|by vm_compute|done].
  - intros [Hin|Hin]%elem_of_app; [|by apply (class_avoids cgi_char "?" tail eq_refl C)]. revert Hin. by apply (bool_decide_unpack ("?"%char ∉ pre)).
  - change pre with (txt "/cgi-bin/machino-cgi-run.cgi/j" ++ ["/"%char]). apply dots_app; [done|by vm_compute|done].
  - apply no_percent_no_dot. intros [Hin|Hin]%elem_of_app; [|by apply (class_avoids cgi_char "%" tail eq_refl C)]. revert Hin. by apply (bool_decide_unpack ("%"%char ∉ pre)).
Qed.

Lemma read_forward_line r : line_ok r -> size (method r) + size (forward_target r) + 10 <= 2048 ->
  plain_line (forward_line r) /\ request_line (forward_line r) = Some (method r, forward_path r, query r, false).
Proof.
  intros Hok Hsize. pose proof (forward_path_ok r Hok) as (P1 & P2 & P3 & P4 & P5). destruct Hok as (Hm & _ & Hb & _). rewrite existsb_app in Hb.
  apply orb_false_iff in Hb as [_ Hq]. apply upper_no_space in Hm as Hsp.
  assert (Ht : existsb bad_target (forward_target r) = false).
  { unfold forward_target. rewrite existsb_app, P2. destruct (query r) as [|c q]; [done|]. rewrite existsb_app. by rewrite Hq. }
  assert (Hsp2 : SP ∉ forward_target r) by (by apply (not_class bad_target)).
  assert (I : index_of "?" (forward_target r) = match query r with [] => None | _ => Some (length (forward_path r)) end).
  { unfold forward_target. destruct (query r); [rewrite app_nil_r; by apply index_of_none|]. by apply index_of_app. }
  unfold forward_line. split.
  - split; [by destruct (method r)|]. intros Hin.
    assert (L1 : NL ∉ method r) by (by apply (class_avoids upper_case)). assert (L2 : NL ∉ forward_target r) by (by apply (not_class bad_target)).
    rewrite !elem_of_app in Hin. destruct Hin as [?|[Hin|[?|Hin]]]; [done| |done|]; revert Hin; apply (bool_decide_unpack (NL ∉ _)); by vm_compute.
  - unfold request_line. change (txt " " ++ forward_target r ++ txt " HTTP/1.0") with (SP :: forward_target r ++ SP :: txt "HTTP/1.0").
    rewrite index_of_app by done. set (line := method r ++ SP :: forward_target r ++ SP :: txt "HTTP/1.0").
    assert (E : line = (method r ++ SP :: forward_target r) ++ SP :: txt "HTTP/1.0") by (unfold line; by rewrite <- app_assoc).
    assert (L : last_index SP line = Some (length (method r) + 1 + length (forward_target r))%nat).
    { rewrite E, last_index_at by (by apply (bool_decide_unpack (SP ∉ _))). f_equal. rewrite length_app. cbn. lia. }
    rewrite L. assert (S : size line = size (method r) + size (forward_target r) + 10) by (rewrite E; unfold size; rewrite !length_app; cbn; lia).
    assert (B1 : (length (method r) =? length (method r) + 1 + length (forward_target r))%nat = false) by (apply Nat.eqb_neq; lia).
    assert (B2 : (2048 <? size line) = false) by (apply Z.ltb_ge; lia). rewrite B1, B2. cbn [orb]. cbv zeta.
    assert (D1 : drop (length (method r) + 1) line = forward_target r ++ SP :: txt "HTTP/1.0").
    { unfold line. change (SP :: forward_target r ++ ?x) with ([SP] ++ forward_target r ++ x). rewrite app_assoc.
      replace (length (method r) + 1)%nat with (length (method r ++ [SP])) by (by rewrite length_app). apply drop_app_length. }
    assert (D2 : drop (length (method r) + 1 + length (forward_target r) + 1) line = txt "HTTP/1.0").
    { rewrite <- Nat.add_assoc, <- drop_drop, D1. change (SP :: txt "HTTP/1.0") with ([SP] ++ txt "HTTP/1.0"). rewrite app_assoc.
      replace (length (forward_target r) + 1)%nat with (length (forward_target r ++ [SP])) by (by rewrite length_app). apply drop_app_length. }
    rewrite D1, D2. change (text_eqb (txt "HTTP/1.0") (txt "HTTP/1.1")) with false. change (text_eqb (txt "HTTP/1.0") (txt "HTTP/1.0")) with true. cbn [orb negb].
    replace (length (method r) + 1 + length (forward_target r) - length (method r) - 1)%nat with (length (forward_target r)) by lia. rewrite take_app_length.
    assert (T : take (length (method r)) line = method r) by apply take_app_length. rewrite Ht, I, T, Hm.
    assert (PT : has_prefix (txt "/") (forward_target r) = true) by (unfold forward_target; by apply has_prefix_grow). rewrite PT. cbn [negb].
    unfold forward_target. destruct (query r) as [|c q].
    + rewrite app_nil_r, P4, P5. cbn [negb]. reflexivity.
    + rewrite take_app_length, P4, P5. cbn [negb]. do 2 f_equal. change (txt "?" ++ c :: q) with (["?"%char] ++ c :: q). rewrite app_assoc.
      replace (length (forward_path r) + 1)%nat with (length (forward_path r ++ ["?"%char])) by (by rewrite length_app). by rewrite drop_app_length.
Qed.

(** Limits that have room for the request with the relay's own headers. *)
Definition room (lim : Limits) (r : Request) (host : text) : Prop :=
  bounded lim /\ head_only lim = false /\ Z.of_nat (length (kept_headers (headers r))) + 3 <= max_headers lim
  /\ Z.of_nat (head_size (forward_line r) (forward_fields r host)) <= max_head lim /\ size (body r) <= max_body lim.

(** C27. What is passed on is what was checked: the octets written for the web interface,
    read by the same rules, are one request and nothing more, with the method, the path
    (or the shim's for a JSON script), the query and the body that were accepted, and with
    the accepted headers less those of this hop, plus exactly one host, one connection and
    at most one content-length, which is the size of the body.  (For requests without a bare
    carriage return in their headers.) *)
Theorem relay_says_what_was_checked lim lim' r host : request_ok lim r -> Forall cr_free (headers r) -> plain_host host ->
  room lim' r host -> size (method r) + size (forward_target r) + 10 <= 2048 ->
  parse_request (forward_request r host) lim' = Ok (size (forward_request r host)) (as_forwarded r host)
  /\ (length_fields (headers (as_forwarded r host)) <= 1)%nat.
Proof.
  intros (Hline & Hf & _) Hcr Hhost (Hlim & Hho & Hn & Hh & Hb) Hsize. apply read_forward_line in Hline as [Hp Hl]; [|done].
  rewrite forward_written. unfold as_forwarded. cbn [headers].
  assert (D : declared lim' (kept_headers (headers r) ++ own_headers host (body r)) = Some (Some (size (body r)))).
  { apply own_declared; [done| |done]. pose proof (size_nonneg (body r)). destruct Hlim. lia. }
  split.
  - rewrite (parse_request_written lim' _ _ (kept_headers (headers r) ++ own_headers host (body r)) (body r) _ _ _ _ Hlim Hho Hp Hl); [by rewrite own_keep| | |done|done|apply own_transfer].
    + by apply read_own.
    + rewrite length_app. assert (length (own_headers host (body r)) <= 3)%nat by (destruct (body r); cbn; lia). lia.
  - unfold declared in D. fold (length_fields (kept_headers (headers r) ++ own_headers host (body r))) in D.
    destruct (1 <? length_fields _)%nat eqn:E; [done|]. by apply Nat.ltb_ge in E.
Qed.

Definition time_post : text :=
  txt "POST /cgi-bin/j/time.cgi?tz=1 HTTP/1.1" ++ CRLF ++ txt "Host: cam.local" ++ CRLF ++ txt "Cookie:  session=ab " ++ CRLF
  ++ txt "Content-Length: 2" ++ CRLF ++ txt "Connection: keep-alive" ++ TERM ++ txt "hi".

Definition time_request : Request :=
  Build_Request (txt "POST") (txt "/cgi-bin/j/time.cgi") (txt "tz=1")
    [(txt "host", txt "cam.local"); (txt "cookie", txt "session=ab"); (txt "content-length", txt "2"); (txt "connection", txt "keep-alive")]
    (txt "hi") 2 true.

Example time_parsed : parse_request time_post default_limits = Ok (size time_post) time_request.
Proof. vm_compute. reflexivity. Qed.

Example time_forwarded : forward_request time_request (txt "127.0.0.1") =
  txt "POST /cgi-bin/machino-cgi-run.cgi/j/time.cgi?tz=1 HTTP/1.0" ++ CRLF ++ txt "cookie: session=ab" ++ CRLF ++ txt "Host: 127.0.0.1" ++ CRLF
  ++ txt "Connection: close" ++ CRLF ++ txt "Content-Length: 2" ++ TERM ++ txt "hi".
Proof. vm_compute. reflexivity. Qed.

Lemma cr_free_dec hs : forallb (fun h => negb (existsb (Ascii.eqb CR) (h.1 ++ h.2))) hs = true -> Forall cr_free hs.
Proof.
  rewrite forallb_forall, Forall_forall. intros H h Hin%list_elem_of_In. apply H in Hin. apply negb_true_iff in Hin. rewrite existsb_false in Hin.
  split; intros C; (assert (Ascii.eqb CR CR = false) by (apply Hin, elem_of_app; tauto)); done.
Qed.

Lemma loopback_plain : plain_host (txt "127.0.0.1").
Proof. split; [|by vm_compute]. right. by exists "1"%char, "1"%char. Qed.

Lemma relay_says_what_was_checked_witness :
  parse_request (forward_request time_request (txt "127.0.0.1")) default_limits
  = Ok (size (forward_request time_request (txt "127.0.0.1"))) (as_forwarded time_request (txt "127.0.0.1"))
  /\ (length_fields (headers (as_forwarded time_request (txt "127.0.0.1"))) <= 1)%nat.
Proof.
  apply (relay_says_what_was_checked default_limits default_limits).
  - exact (parse_request_ok _ _ _ _ time_parsed).
  - by apply cr_free_dec.
  - exact loopback_plain.
  - by vm_compute.
  - by vm_compute.
Defined.

(** ** No line is smuggled *)

Lemma conf_lines_written line fields : plain_line line -> Forall plain_line fields ->
  conf_lines (written line fields []) = map (fun l => l ++ [CR]) (line :: fields ++ [[]]).
Proof.
  intros Hl Hf. unfold written. assert (H : forall a s, one_line a -> conf_lines (a ++ CRLF ++ s) = (a ++ [CR]) :: conf_lines s).
  { intros a s Ha. unfold conf_lines. rewrite conf_lines_skip by done. reflexivity. }
  rewrite H by (by destruct Hl). cbn [map]. f_equal. induction Hf as [|f fields [_ Hf] _ IH].
  - exact (H [] [] (not_elem_of_nil _)).
  - cbn [map concat app]. unfold put_crlf at 1. rewrite <- !app_assoc, H by done. by rewrite IH.
Qed.

(** C26. An accepted request takes exactly the octets of its head and its declared body; its
    method is of capital letters, its path starts at the root, without dot segments, plain or
    encoded, and no octet of its line or of a header ends a line: for a reader that ends its
    lines at any line feed, what is written for the web interface has exactly the lines
    intended, whatever the headers were. *)
Theorem no_line_is_smuggled buf lim n r host : parse_request buf lim = Ok n r -> bounded lim -> plain_host host ->
  request_ok lim r
  /\ (exists fin, find_text TERM buf = Some fin /\ n = Z.of_nat fin + 4 + size (body r)
      /\ (head_only lim = false -> size (body r) = content_length r /\ content_length r <= max_body lim /\ exists rest, buf = take (fin + 4) buf ++ body r ++ rest))
  /\ (size (method r) + size (forward_target r) + 10 <= 2048 ->
      exists head, forward_request r host = head ++ body r
      /\ conf_lines head = map (fun l => l ++ [CR]) (forward_line r :: forward_fields r host ++ [[]])).
Proof.
  intros E Hlim [_ Hhost]. pose proof (parse_request_ok _ _ _ _ E) as Hok. split; [done|]. split.
  - rewrite parse_request_steps in E. destruct (find_text TERM buf) as [fin|] eqn:F; [|by destruct (_ <? _)].
    destruct (max_head lim <? Z.of_nat fin) eqn:Hfin; [done|]. apply Z.ltb_ge in Hfin. cbv zeta in E. destruct (request_line _) as [[[[m pa] q] k]|]; [|done].
    destruct (header_loop _ _ _ _ _ _) as [hs|]; [|done]. unfold finish_request in E.
    destruct (declared lim hs) as [[b|]|] eqn:D; [|done|done]. destruct (negb _); [done|]. cbv zeta in E. exists fin. split; [done|].
    destruct Hlim as (? & ? & ?). apply declared_bound in D as [Hb Hm]; [|lia]. destruct (head_only lim).
    + injection E as <- <-. cbn. split; [unfold size; cbn; lia|done].
    + specialize (Hm eq_refl). unfold u32 in E. rewrite Z.mod_small in E by lia. destruct (size buf <? _) eqn:S; [done|]. apply Z.ltb_ge in S. injection E as <- <-.
      cbn [upd body content_length]. unfold substr. replace (Z.to_nat (Z.of_nat fin + 4)) with (fin + 4)%nat by lia. rewrite Z.min_l by lia.
      unfold size in *. rewrite length_take, length_drop. split; [lia|]. intros _. split; [lia|]. split; [lia|].
      exists (drop (Z.to_nat b) (drop (fin + 4) buf)). by rewrite take_drop, take_drop.
  - intros Hsize. destruct Hok as (Hline & Hf & _). apply read_forward_line in Hline as [Hp _]; [|done].
    exists (written (forward_line r) (forward_fields r host) []). split.
    + rewrite forward_written. unfold written. by rewrite <- !app_assoc.
    + apply conf_lines_written; [done|]. unfold forward_fields. apply Forall_app. split.
      * apply Forall_map, kept_forall. apply (Forall_impl _ _ _ Hf). intros h (_ & _ & _ & Hb & _). by apply field_text_plain.
      * constructor; [apply (field_text_plain (txt "Host", host)); cbn [fst snd]; by rewrite existsb_app, Hhost|]. constructor; [by apply (field_text_plain (txt "Connection", txt "close"))|].
        destruct (body r) as [|c b] eqn:Eb; [constructor|]. constructor; [|constructor].
        apply (field_text_plain (txt "Content-Length", print_dec (size (c :: b)))). cbn [fst snd]. rewrite existsb_app, (digits_field (print_dec (size (c :: b)))); [reflexivity|]. apply print_dec_digits, size_nonneg.
Qed.

Lemma no_line_is_smuggled_witness : exists head, forward_request time_request (txt "127.0.0.1") = head ++ txt "hi"
  /\ conf_lines head = map (fun l => l ++ [CR]) (forward_line time_request :: forward_fields time_request (txt "127.0.0.1") ++ [[]]).
Proof.
  destruct (no_line_is_smuggled time_post default_limits _ _ (txt "127.0.0.1") time_parsed) as (_ & _ & H).
  - by vm_compute.
  - exact loopback_plain.
  - apply H. by vm_compute.
Defined.

(** A carriage return may stand at the front of a header's name: the parser sees no
    declared body, and passes the line on as it is. *)
Definition hidden_length : text := txt "GET /x HTTP/1.1" ++ CRLF ++ CR :: txt "Content-Length: 99" ++ TERM.

Example hidden_length_passes : exists r, parse_request hidden_length default_limits = Ok (size hidden_length) r
  /\ content_length r = 0 /\ kept_headers (headers r) = [(CR :: txt "content-length", txt "99")].
Proof. eexists. split; [vm_compute; reflexivity|]. split; reflexivity. Qed.

(** The method may be empty. *)
Example empty_method_passes : exists r, parse_request (txt " /x HTTP/1.1" ++ TERM) default_limits = Ok 16 r /\ method r = [].
Proof. eexists. split; [vm_compute; reflexivity|reflexivity]. Qed.
