(* ===== verification/HttpHeadSpec.v ===== *)
(** * Files served by path, and heads of relayed answers

    A path that is rewritten decodes to the file that was looked at; a relayed
    answer leaves its connection open only when the browser finds its end where the
    relay does. *)

From S2P Require Import Prelude Text HttpParse HttpSpec.

(** ** Files by path *)

Lemma decode_encoded c s : percent_decode (encode_char c ++ s) = c :: percent_decode s.
Proof. destruct c as [[] [] [] [] [] [] [] []]; reflexivity. Qed.

Lemma decode_encoded_path s : percent_decode (percent_encode_path s) = s.
Proof. unfold percent_encode_path. induction s as [|c s IH]; [done|]. cbn [map concat]. by rewrite decode_encoded, IH. Qed.

Lemma encoded_clean s : existsb bad_target (percent_encode_path s) = false.
Proof.
  unfold percent_encode_path. induction s as [|c s IH]; [done|]. cbn [map concat]. rewrite existsb_app, IH, orb_false_r.
  apply negb_true_iff. revert c. apply (for_all_chars (fun c => negb (existsb bad_target (encode_char c)))). by vm_compute.
Qed.

(** Only a path that is absent below the web root and a regular file on the camera
    is rewritten, one without dot segments, NUL or trailing slash after its decoding; the
    name handed to the script decodes to that file, whatever octets it has, the rest of the
    request is as it was, and it is as safe to pass on as before.  Any other request is
    left alone. *)
Theorem rewritten_path_is_the_file `{Probe} lim r web_root : request_ok lim r ->
  let '(rewritten, r') := file_get_rewrite r web_root in
  let file := percent_decode (path r) in
  if rewritten then
    probe (web_root ++ file) = 0 /\ probe file = 1
    /\ (exists rest, file = "/"%char :: rest) /\ occurs (txt "..") file = false /\ (NUL ∉ file) /\ last file <> Some "/"%char
    /\ path r' = txt "/cgi-bin/machino-file-get.cgi" /\ (exists name, query r' = txt "path=" ++ name /\ percent_decode name = file)
    /\ method r' = txt "GET" /\ headers r' = headers r /\ body r' = body r /\ request_ok lim r'
  else r' = r.
Proof.
  intros Hok. unfold file_get_rewrite. destruct (negb _ || _ || _) eqn:G; [done|]. destruct (has_prefix (txt "/a/") _ || _); [done|]. cbv zeta.
  destruct (occurs (txt "..") (percent_decode (path r)) || _) eqn:D; [done|]. destruct (bool_decide (last _ = _)) eqn:L; [done|].
  destruct (negb (probe (web_root ++ _) =? 0)) eqn:P; [done|]. destruct (negb (probe (percent_decode _) =? 1)) eqn:Q; [done|].
  rewrite !orb_false_iff in G. destruct G as ((Gm & _) & Gp). apply orb_false_iff in D as [D1 D2].
  apply negb_false_iff, Z.eqb_eq in P. apply negb_false_iff, Z.eqb_eq in Q. apply bool_decide_eq_false in L, D2. apply negb_false_iff in Gm, Gp.
  apply bool_decide_eq_true in Gm. apply has_prefix_spec in Gp as [rest Gp]. cbn [upd path query method headers body].
  split; [done|]. split; [done|]. split; [exists (percent_decode rest); by rewrite Gp|]. do 3 (split; [done|]). split; [done|].
  split; [exists (percent_encode_path (percent_decode (path r))); by rewrite decode_encoded_path|]. do 3 (split; [done|]).
  destruct Hok as [(H1 & _) H2]. split; [|exact H2]. split; [exact H1|]. cbn [path query].
  split; [by vm_compute|]. split; [rewrite !existsb_app, encoded_clean; by vm_compute|].
  split; [by apply (bool_decide_unpack ("?"%char ∉ _))|]. by split; vm_compute.
Qed.

Definition card_request : Request := Build_Request (txt "GET") (txt "/mnt/sda1/a%20b+c.bin") [] [] [] 0 true.

(** A camera with one file. *)
Definition one_file (name : text) : Probe := fun p => if text_eqb p name then 1 else 0.

Lemma rewritten_path_is_the_file_witness :
  let '(rewritten, r') := @file_get_rewrite (one_file (txt "/mnt/sda1/a b+c.bin")) card_request (txt "/var/www") in
  rewritten = true /\ query r' = txt "path=/mnt/sda1/a%20b%2Bc.bin" /\ path r' = txt "/cgi-bin/machino-file-get.cgi".
Proof.
  assert (O : request_ok default_limits card_request).
  { apply (parse_request_ok (txt "GET /mnt/sda1/a%20b+c.bin HTTP/1.1" ++ TERM) default_limits 38). by vm_compute. }
  pose proof (@rewritten_path_is_the_file (one_file (txt "/mnt/sda1/a b+c.bin")) default_limits card_request (txt "/var/www") O) as T.
  assert (E : (@file_get_rewrite (one_file (txt "/mnt/sda1/a b+c.bin")) card_request (txt "/var/www")).1 = true) by (by vm_compute).
  assert (Q : query (@file_get_rewrite (one_file (txt "/mnt/sda1/a b+c.bin")) card_request (txt "/var/www")).2 = txt "path=/mnt/sda1/a%20b%2Bc.bin") by (by vm_compute).
  destruct (@file_get_rewrite _ _ _) as [b r']. cbn [fst snd] in E, Q. subst b. split; [done|]. split; [exact Q|]. apply T.
Defined.

(** The trees of the web interface are looked for in the path as it was sent: one that is
    percent-encoded is probed. *)
Example encoded_tree_is_probed :
  (@file_get_rewrite (one_file (txt "/a/x")) (Build_Request (txt "GET") (txt "/%61/x") [] [] [] 0 true) (txt "/var/www")).1 = true.
Proof. by vm_compute. Qed.

(** ** The browser's side *)

(** The value of a field. *)
Definition field_value (line : text) : text := trim (after_colon line).

Definition named (n : string) (line : text) : bool := text_eqb (field_name line) (txt n).

(** How many octets of body follow a head, as a client of HTTP/1.1 finds out: none after
    a status that has no body, else what all content-length fields declare alike; otherwise
    the end of the connection is the end ([None]). *)
Definition client_frame (head : text) : option Z :=
  match relay_head_end head, head_status head with
  | Some (fin, _), Some status =>
      let fields := drop 1 (head_lines head fin) in
      if bodyless status then Some 0
      else if existsb (named "transfer-encoding") fields then None
      else match map field_value (List.filter (named "content-length") fields) with
           | [] => None
           | v :: vs => if negb (text_eqb v []) && forallb is_digit v && forallb (text_eqb v) vs then Some (dec_value v) else None
           end
  | _, _ => None
  end.

(** A status line: a version, three digits and the rest. *)
Definition status_line (st : text) (s : Z) : Prop :=
  exists ver d rest, st = ver ++ SP :: d ++ rest /\ (SP ∉ ver) /\ length d = 3%nat /\ forallb is_digit d = true /\ dec_value d = s
    /\ (rest = [] \/ exists r, rest = SP :: r) /\ 100 <= s.

(** A length field that says [v]. *)
Definition declares (v line : text) : Prop :=
  exists a b, after_colon line = a ++ v ++ b /\ forallb blank a = true /\ forallb blank b = true.

(** A number one can declare. *)
Definition number (v : text) : Prop := v <> [] /\ forallb is_digit v = true /\ dec_value v < 2 ^ 32.

Definition hop (line : text) : bool :=
  named "transfer-encoding" line || named "connection" line || named "keep-alive" line || named "proxy-connection" line.

(** The fields that go on to the browser. *)
Definition passed (fs : list text) : list text := List.filter (fun l => negb (text_eqb l []) && negb (hop l)) fs.

Definition KEEP : text := txt "Connection: keep-alive".
Definition CLOSE : text := txt "Connection: close".

Lemma keepalive_fold fs : forall f,
  let g := fold_left keepalive_line fs f in
  have_len g = have_len f || existsb (named "content-length") fs
  /\ chunked g = chunked f || existsb (named "transfer-encoding") fs
  /\ rebuilt g = rebuilt f ++ concat (map put_crlf (passed fs))
  /\ body_len_ g = match last (List.filter (named "content-length") fs) with Some l => strtoul (c_str (after_colon l)) | None => body_len_ f end.
Proof.
  induction fs as [|l fs IH]; intros f; cbn [fold_left existsb passed List.filter].
  - by rewrite !orb_false_r, app_nil_r.
  - cbv zeta in *. destruct (IH (keepalive_line f l)) as (I1 & I2 & I3 & I4). rewrite I1, I2, I3, I4. clear IH I1 I2 I3 I4.
    destruct l as [|c l]; [done|]. change (text_eqb (c :: l) []) with false. unfold hop, named in *. unfold keepalive_line.
    cbv zeta. set (name := field_name (c :: l)).
    destruct (text_eqb_spec name (txt "content-length")) as [E|N1].
    + assert (F : forall x, txt "content-length" <> txt x -> text_eqb name (txt x) = false) by (intros x Hx; apply bool_decide_eq_false; congruence).
      rewrite !F by done. cbn [negb andb orb map concat upd have_len chunked rebuilt body_len_].
      split; [by rewrite orb_true_r|]. split; [done|]. split; [by rewrite <- app_assoc|].
      destruct (List.filter _ fs) as [|x k]; [done|]. rewrite last_cons_cons. destruct (last (x :: k)) eqn:La; [done|by apply last_None in La].
    + destruct (text_eqb name (txt "transfer-encoding")) eqn:E2.
      { cbn [negb andb orb map concat upd have_len chunked rebuilt body_len_]. split; [done|]. split; [by rewrite orb_true_r|]. split; done. }
      destruct (text_eqb name (txt "connection")), (text_eqb name (txt "keep-alive")), (text_eqb name (txt "proxy-connection"));
        cbn [negb andb orb map concat upd have_len chunked rebuilt body_len_]; (split; [done|]; split; [done|]; split; [|done]); rewrite <- ?app_assoc; done.
Qed.

Lemma keepalive_lines_of st fs : let g := keepalive_lines (st :: fs) in
  have_len g = existsb (named "content-length") fs
  /\ chunked g = existsb (named "transfer-encoding") fs
  /\ rebuilt g = put_crlf st ++ concat (map put_crlf (passed fs))
  /\ body_len_ g = match last (List.filter (named "content-length") fs) with Some l => strtoul (c_str (after_colon l)) | None => 0 end.
Proof. apply (keepalive_fold fs (Build_Framing false false (put_crlf st) 0)). Qed.

(** *** Lines of a head *)

Lemma chop_cr_cases l : chop_cr l = l \/ l = chop_cr l ++ [CR].
Proof.
  unfold chop_cr. destruct (last l) as [c|] eqn:L; [|by left]. destruct (Ascii.eqb_spec c CR) as [->|]; [|by left].
  right. apply last_Some in L as [t ->]. by rewrite removelast_last.
Qed.

Lemma chop_cr_snoc l : chop_cr (l ++ [CR]) = l.
Proof. unfold chop_cr. rewrite last_snoc. cbn. apply removelast_last. Qed.

Lemma chop_cr_one l : one_line l -> one_line (chop_cr l).
Proof. intros H. destruct (chop_cr_cases l) as [E|E]; [by rewrite E|]. unfold one_line in *. rewrite E in H. intros C. apply H, elem_of_app. by left. Qed.

Lemma head_lines_one head fin : Forall one_line (head_lines head fin).
Proof. unfold head_lines. apply Forall_map. apply (Forall_impl _ _ _ (one_conf_lines _)). intros l. apply chop_cr_one. Qed.

(** A first line, and what follows it in the text. *)
Lemma conf_lines_first s : forall cur l ls, conf_lines_from s cur = l :: ls -> exists t, cur ++ s = l ++ t /\ (t = [] \/ exists t', t = NL :: t').
Proof.
  induction s as [|c s IH]; intros cur l ls; cbn [conf_lines_from].
  - destruct cur as [|x cur]; [done|]. intros [= <- _]. exists []. rewrite app_nil_r. auto.
  - destruct (Ascii.eqb_spec c NL) as [->|N].
    + intros [= <- _]. exists (NL :: s). split; [done|]. right. by exists s.
    + intros E. apply IH in E as (t & E & Ht). exists t. by rewrite <- app_assoc in E.
Qed.

Lemma head_end_next head fin sep : relay_head_end head = Some (fin, sep) ->
  exists c t, drop fin head = c :: t /\ (c = CR \/ c = NL).
Proof.
  unfold relay_head_end.
  assert (T : forall i, find_text TERM head = Some i -> exists c t, drop i head = c :: t /\ (c = CR \/ c = NL)).
  { intros i (H & _)%find_text_some. apply has_prefix_spec in H as [r ->]. exists CR, ([NL; CR; NL] ++ r). auto. }
  assert (L : forall i, find_text LFLF head = Some i -> exists c t, drop i head = c :: t /\ (c = CR \/ c = NL)).
  { intros i (H & _)%find_text_some. apply has_prefix_spec in H as [r ->]. exists NL, ([NL] ++ r). auto. }
  destruct (find_text TERM head), (find_text LFLF head); [destruct (_ <=? _)%nat| | |]; intros [= <- <-]; auto.
Qed.

(** The status line begins the head, and a line end follows it. *)
Lemma head_first_line head fin sep st fs : relay_head_end head = Some (fin, sep) -> head_lines head fin = st :: fs ->
  exists c t, head = st ++ c :: t /\ (c = CR \/ c = NL).
Proof.
  intros (c & t & D & Hc)%head_end_next. unfold head_lines. destruct (conf_lines (take fin head)) as [|l ls] eqn:E; [done|]. intros [= <- _].
  apply conf_lines_first in E as (t' & E & Ht). cbn [app] in E. rewrite <- (take_drop fin head). rewrite E, D.
  destruct (chop_cr_cases l) as [F|F].
  - rewrite F. destruct Ht as [->|[t2 ->]]; [exists c, t; by rewrite app_nil_r|]. exists NL, (t2 ++ c :: t). rewrite <- app_assoc. auto.
  - exists CR, (t' ++ c :: t). rewrite F at 1. rewrite <- !app_assoc. auto.
Qed.

(** ** Status and lengths *)

Lemma c_str_digits d t : forallb is_digit d = true -> c_str (d ++ t) = d ++ c_str t.
Proof.
  induction d as [|c d IH]; [done|]. cbn [forallb app c_str]. intros [Hc Hd]%andb_true_iff. rewrite IH by done.
  destruct (Ascii.eqb_spec c "000") as [->|]; [done|done].
Qed.

Definition not_digit_first (t : text) : Prop := match t with [] => True | c :: _ => is_digit c = false end.

Lemma c_str_not_digit t : not_digit_first t -> not_digit_first (c_str t).
Proof. destruct t as [|c t]; [done|]. cbn. by destruct (Ascii.eqb c "000"). Qed.

Lemma digit_start c : is_digit c = true -> is_space c = false /\ Ascii.eqb c "-" = false /\ Ascii.eqb c "+" = false.
Proof.
  intros Hc. pose proof (class_incl is_digit (fun c => negb (is_space c || Ascii.eqb c "-" || Ascii.eqb c "+")) ltac:(by vm_compute) c Hc) as H.
  cbv beta in H. apply negb_true_iff in H. rewrite !orb_false_iff in H. tauto.
Qed.

Lemma scan_digits d t : d <> [] -> forallb is_digit d = true -> not_digit_first t -> scan_int (d ++ t) = Some (i32 (dec_value d), t).
Proof.
  intros Hd D Ht. destruct d as [|c d]; [done|]. assert (Hc : is_digit c = true) by (cbn in D; by apply andb_true_iff in D as [? _]).
  unfold scan_int. cbn [app skip_space]. destruct (digit_start c Hc) as (-> & -> & ->).
  change (c :: d ++ t) with ((c :: d) ++ t). by rewrite take_digits_app.
Qed.

Lemma dec_value_bound d : forallb is_digit d = true -> 0 <= dec_value d < 10 ^ Z.of_nat (length d).
Proof.
  induction d as [|c d IH] using rev_ind; [done|]. rewrite forallb_app. intros [Hd Hc]%andb_true_iff. specialize (IH Hd).
  cbn in Hc. apply andb_true_iff in Hc as [Hc _]. unfold is_digit in Hc. apply andb_true_iff in Hc as [H1 H2]. apply Z.leb_le in H1, H2.
  rewrite dec_value_snoc, length_app. unfold digit_value. replace (Z.of_nat (length d + length [c])) with (Z.succ (Z.of_nat (length d))) by (cbn; lia).
  rewrite Z.pow_succ_r by lia. lia.
Qed.

Lemma status_of_line st s c t : status_line st s -> (c = CR \/ c = NL) -> head_status (st ++ c :: t) = Some s.
Proof.
  intros (ver & d & rest & -> & Hv & L & D & <- & Hr & Hs) Hc. unfold head_status. rewrite <- app_assoc. cbn [app]. rewrite index_of_app by done.
  assert (B : (size (ver ++ SP :: (d ++ rest) ++ c :: t) <? Z.of_nat (length ver) + 4) = false).
  { apply Z.ltb_ge. unfold size. rewrite length_app. cbn [length]. rewrite !length_app, L. lia. }
  rewrite B. replace (length ver + 1)%nat with (length (ver ++ [SP])) by (by rewrite length_app).
  change (SP :: (d ++ rest) ++ c :: t) with ([SP] ++ (d ++ rest) ++ c :: t). rewrite (app_assoc ver), drop_app_length, <- app_assoc.
  unfold atoi. rewrite c_str_digits, scan_digits; [|by destruct d|done| |done].
  - pose proof (dec_value_bound d D) as Hb. rewrite L in Hb. change (10 ^ Z.of_nat 3) with 1000 in Hb. rewrite swrap_small by lia.
    assert (B2 : (dec_value d <? 100) = false) by (apply Z.ltb_ge; lia). by rewrite B2.
  - apply c_str_not_digit. destruct Hr as [->|[r ->]]; cbn; [|done]. by destruct Hc as [-> | ->].
Qed.

Lemma skip_blanks_space a t : forallb blank a = true -> skip_space (a ++ t) = skip_space t.
Proof.
  induction a as [|c a IH]; [done|]. cbn [forallb app skip_space]. intros [Hc Ha]%andb_true_iff.
  rewrite (class_incl blank is_space) by (done || by vm_compute). by apply IH.
Qed.

Lemma blanks_not_digit b : forallb blank b = true -> not_digit_first b.
Proof.
  destruct b as [|c b]; [done|]. cbn [forallb not_digit_first]. intros [Hc _]%andb_true_iff. apply negb_true_iff.
  by apply (class_incl blank (fun c => negb (is_digit c))); [vm_compute|].
Qed.

Lemma c_str_blanks a t : forallb blank a = true -> c_str (a ++ t) = a ++ c_str t.
Proof.
  induction a as [|c a IH]; [done|]. cbn [forallb app c_str]. intros [Hc Ha]%andb_true_iff. rewrite IH by done.
  destruct (Ascii.eqb_spec c "000") as [->|]; [done|done].
Qed.

Lemma strtoul_field a v b : forallb blank a = true -> number v -> forallb blank b = true -> strtoul (c_str (a ++ v ++ b)) = dec_value v.
Proof.
  intros Ha (Hv & D & Hb) Hbb. rewrite c_str_blanks, c_str_digits by done. unfold strtoul. rewrite skip_blanks_space by done.
  destruct v as [|c v]; [done|]. assert (Hc : is_digit c = true) by (cbn in D; by apply andb_true_iff in D as [? _]).
  cbn [app skip_space]. destruct (digit_start c Hc) as (-> & -> & ->).
  change (c :: v ++ c_str b) with ((c :: v) ++ c_str b). rewrite take_digits_app by (done || by apply c_str_not_digit, blanks_not_digit).
  cbn [fst]. assert (B : (2 ^ 32 - 1 <? dec_value (c :: v)) = false) by (apply Z.ltb_ge; lia). by rewrite B.
Qed.

Lemma first_not_blanks P a t : forallb P a = true -> first_not P (a ++ t) = Nat.add (length a) <$> first_not P t.
Proof.
  induction a as [|c a IH]; cbn; [by destruct (first_not P t)|]. intros [-> Ha]%andb_true_iff. rewrite IH by done. by destruct (first_not P t).
Qed.

Lemma last_not_blanks P t b : forallb P b = true -> last_not P (t ++ b) = last_not P t.
Proof.
  intros Hb. induction t as [|c t IH]; cbn; [|by rewrite IH]. induction b as [|c b IH]; [done|]. cbn in *. apply andb_true_iff in Hb as [-> Hb]. by rewrite IH.
Qed.

Lemma last_not_prefix P a t n : last_not P t = Some n -> last_not P (a ++ t) = Some (length a + n)%nat.
Proof. intros H. induction a as [|c a IH]; cbn; [done|]. by rewrite IH. Qed.

Lemma trim_blanks a v b : forallb blank a = true -> v <> [] -> tight v -> forallb blank b = true -> trim (a ++ v ++ b) = v.
Proof.
  intros Ha Hne [->|(c & s' & l & t & E & E' & Hc & Hl)]%tight_shape Hb; [done|]. unfold trim. rewrite first_not_blanks by done.
  assert (F : first_not blank (v ++ b) = Some O) by (rewrite E; cbn; by rewrite Hc). rewrite F. cbn [fmap option_fmap option_map]. rewrite Nat.add_0_r.
  assert (L : last_not blank_cr (v ++ b) = Some (length t)).
  { rewrite last_not_blanks; [rewrite E'; by apply last_not_snoc|]. rewrite forallb_forall in *. intros x Hx. unfold blank_cr. by rewrite Hb. }
  rewrite (last_not_prefix _ a _ _ L), drop_app_length. replace (length a + length t - length a + 1)%nat with (length v) by (rewrite E', length_app; cbn; lia).
  apply take_app_length.
Qed.

(** *** Reading a written head back *)

Lemma conf_lines_sep a s : exists ls, conf_lines (a ++ NL :: s) = ls ++ conf_lines s.
Proof.
  unfold conf_lines. generalize (@nil ascii) at 1 as cur. induction a as [|c a IH]; intros cur; cbn [app conf_lines_from].
  - exists [cur]. by rewrite Ascii.eqb_refl.
  - destruct (Ascii.eqb_spec c NL); [destruct (IH []) as [ls E]; exists (cur :: ls); by rewrite E|]. apply IH.
Qed.

Lemma no_double_lf line fields : plain_line line -> Forall plain_line fields -> find_text LFLF (written line fields []) = None.
Proof.
  intros Hl Hf. apply find_text_none. intros j Hj. apply not_true_is_false. intros [r E]%has_prefix_spec.
  pose proof (take_drop j (written line fields [])) as T. rewrite E in T. change (LFLF ++ r) with (NL :: NL :: r) in T.
  destruct (conf_lines_sep (take j (written line fields [])) (NL :: r)) as [ls C]. rewrite T, conf_lines_written in C by done.
  assert (Hin : [] ∈ map (fun l => l ++ [CR]) (line :: fields ++ [[]])).
  { rewrite C. apply elem_of_app. right. unfold conf_lines. cbn. by left. }
  apply list_elem_of_fmap in Hin as (x & Hx & _). by destruct x.
Qed.

Lemma written_end line fields : plain_line line -> Forall plain_line fields ->
  relay_head_end (written line fields []) = Some (head_size line fields, 4%nat).
Proof.
  intros Hl Hf. unfold relay_head_end. rewrite find_term_written by (done || by destruct Hl). by rewrite no_double_lf.
Qed.

Lemma written_lines line fields k : plain_line line -> Forall plain_line (fields ++ [k]) -> last k <> Some CR ->
  head_lines (written line (fields ++ [k]) []) (head_size line (fields ++ [k])) = line :: fields ++ [k].
Proof.
  intros Hl [Hf Hk]%Forall_app Hcr. apply Forall_inv in Hk as [Hne Hk]. unfold head_lines.
  assert (T : take (head_size line (fields ++ [k])) (written line (fields ++ [k]) []) = line ++ CRLF ++ concat (map put_crlf fields) ++ k).
  { unfold head_size, written. rewrite map_app, concat_app. cbn [map concat]. rewrite app_nil_r. unfold put_crlf at 2 4. rewrite <- !app_assoc.
    set (w := line ++ CRLF ++ concat (map put_crlf fields) ++ k ++ CRLF).
    assert (W : w = (line ++ CRLF ++ concat (map put_crlf fields) ++ k) ++ CRLF) by (unfold w; by rewrite <- !app_assoc).
    assert (N : (length w - 2)%nat = length (line ++ CRLF ++ concat (map put_crlf fields) ++ k)) by (rewrite W, length_app; cbn; lia). rewrite N.
    assert (W2 : line ++ CRLF ++ concat (map put_crlf fields) ++ k ++ CRLF ++ CRLF ++ [] = (line ++ CRLF ++ concat (map put_crlf fields) ++ k) ++ CRLF ++ CRLF) by (by rewrite <- !app_assoc).
    rewrite W2. apply take_app_length. }
  rewrite T. assert (H : forall a s, one_line a -> conf_lines (a ++ CRLF ++ s) = (a ++ [CR]) :: conf_lines s).
  { intros a s Ha. unfold conf_lines. rewrite conf_lines_skip by done. reflexivity. }
  clear T. rewrite H by (by destruct Hl). cbn [map]. rewrite chop_cr_snoc. f_equal.
  induction Hf as [|f fields [_ Hf] _ IH].
  - cbn [map concat app]. unfold conf_lines. rewrite <- (app_nil_r k) at 1. rewrite conf_lines_skip by done. cbn. destruct k as [|c k']; [done|]. cbn [map]. f_equal.
    unfold chop_cr. destruct (last (c :: k')) as [x|] eqn:L; [|done]. destruct (Ascii.eqb_spec x CR); [congruence|done].
  - cbn [map concat app]. unfold put_crlf at 1. rewrite <- !app_assoc, H by done. cbn [map]. rewrite chop_cr_snoc. f_equal. apply IH.
Qed.

(** *** The answer that is kept open *)

Lemma status_plain st s : status_line st s -> st <> [].
Proof. intros (ver & d & rest & -> & _) E. by apply app_eq_nil in E as [_ E]. Qed.

Lemma passed_plain fs : Forall one_line fs -> Forall plain_line (passed fs).
Proof.
  rewrite !Forall_forall. intros H l Hl. apply list_elem_of_In, filter_In in Hl as [Hl Hb]. split; [by intros ->|]. by apply H, list_elem_of_In.
Qed.

Lemma keep_plain : plain_line KEEP.
Proof. split; [done|]. by apply (bool_decide_unpack (NL ∉ KEEP)). Qed.

Lemma named_not n m line : named n line = true -> txt n <> txt m -> named m line = false.
Proof. unfold named. intros H%bool_decide_eq_true N. apply bool_decide_eq_false. congruence. Qed.

Lemma passed_lengths fs : List.filter (named "content-length") (passed fs) = List.filter (named "content-length") fs.
Proof.
  induction fs as [|l fs IH]; [done|]. cbn [passed List.filter]. fold (passed fs). destruct (named "content-length" l) eqn:N.
  - assert (H : hop l = false) by (unfold hop; by rewrite !(named_not _ _ _ N)). assert (E : text_eqb l [] = false) by (by destruct l).
    rewrite H, E. cbn [negb andb List.filter]. by rewrite N, IH.
  - destruct (negb _ && negb _); [|done]. cbn [List.filter]. by rewrite N.
Qed.

Lemma passed_chunked fs : existsb (named "transfer-encoding") (passed fs) = false.
Proof.
  rewrite existsb_false. intros l Hl. apply list_elem_of_In, filter_In in Hl as [_ Hl]. apply andb_true_iff in Hl as [_ Hl]. unfold hop in Hl.
  by destruct (named "transfer-encoding" l).
Qed.

Lemma client_frame_written st s gs k : status_line st s -> plain_line st -> Forall plain_line (gs ++ [k]) -> last k <> Some CR ->
  client_frame (written st (gs ++ [k]) []) =
  if bodyless s then Some 0
  else if existsb (named "transfer-encoding") (gs ++ [k]) then None
  else match map field_value (List.filter (named "content-length") (gs ++ [k])) with
       | [] => None
       | v :: vs => if negb (text_eqb v []) && forallb is_digit v && forallb (text_eqb v) vs then Some (dec_value v) else None
       end.
Proof.
  intros Hs Hp Hf Hk. unfold client_frame. rewrite written_end, written_lines by done.
  unfold written. change (CRLF ++ concat (map put_crlf (gs ++ [k])) ++ CRLF ++ []) with (CR :: NL :: concat (map put_crlf (gs ++ [k])) ++ CRLF ++ []).
  rewrite (status_of_line _ s) by auto. done.
Qed.

(** The relay and the browser read the same number. *)
Lemma lengths_agree fs v : number v -> Forall (declares v) (List.filter (named "content-length") fs) -> existsb (named "content-length") fs = true ->
  match last (List.filter (named "content-length") fs) with Some l => strtoul (c_str (after_colon l)) | None => 0 end = dec_value v
  /\ match map field_value (List.filter (named "content-length") fs) with
     | [] => None
     | v :: vs => if negb (text_eqb v []) && forallb is_digit v && forallb (text_eqb v) vs then Some (dec_value v) else None
     end = Some (dec_value v).
Proof.
  intros Hv Hd He. assert (N : List.filter (named "content-length") fs <> []).
  { apply existsb_exists in He as (l & Hl & Hn). intros E. assert (In l []) by (rewrite <- E; by apply filter_In). done. }
  assert (V : Forall (fun l => field_value l = v) (List.filter (named "content-length") fs)).
  { apply (Forall_impl _ _ _ Hd). intros l (a & b & E & Ha & Hb). unfold field_value. rewrite E. destruct Hv as (Hne & D & _).
    apply trim_blanks; [done|done|by apply digits_tight|done]. }
  split.
  - destruct (last _) as [l|] eqn:L; [|by apply last_None in L]. apply last_Some in L as [t E]. rewrite E in Hd.
    apply Forall_app in Hd as [_ Hd]. apply Forall_inv in Hd as (a & b & -> & Ha & Hb). by apply strtoul_field.
  - destruct (List.filter _ fs) as [|l ls]; [done|]. cbn [map]. apply Forall_cons in V as [-> V]. destruct Hv as (Hne & D & _).
    assert (F : forallb (text_eqb v) (map field_value ls) = true).
    { apply forallb_forall. intros x Hx. apply in_map_iff in Hx as (l' & <- & Hl'). rewrite Forall_forall in V. rewrite V by (by apply list_elem_of_In). by apply bool_decide_eq_true. }
    rewrite D, F. by destruct v.
Qed.

Lemma keepalive_verdict head fin sep st fs s v : relay_head_end head = Some (fin, sep) -> head_lines head fin = st :: fs ->
  status_line st s -> number v -> Forall (declares v) (List.filter (named "content-length") fs) ->
  let '(keep, out, n) := relay_head_keepalive head in
  if keep then
    client_frame out = Some n /\ n = (if bodyless s then 0 else dec_value v)
    /\ out = written st (passed fs ++ [KEEP]) []
  else out = head /\ n = 0
    /\ (existsb (named "transfer-encoding") fs = true \/ bodyless s = false /\ existsb (named "content-length") fs = false).
Proof.
  intros He Hl Hs Hv Hd. unfold relay_head_keepalive. destruct (head_first_line _ _ _ _ _ He Hl) as (c & t & Eh & Hc).
  pose proof (head_lines_one head fin) as Hone. rewrite Hl in Hone. apply Forall_cons in Hone as [Host Hofs].
  assert (Hst : head_status head = Some s) by (rewrite Eh; by apply status_of_line). rewrite He, Hst, Hl. cbv zeta.
  destruct (keepalive_lines_of st fs) as (G1 & G2 & G3 & G4). rewrite G1, G2, G3, G4. clear G1 G2 G3 G4.
  destruct (existsb (named "transfer-encoding") fs) eqn:Hte; [auto|].
  destruct (negb (bodyless s) && negb (existsb (named "content-length") fs)) eqn:Hno.
  { apply andb_true_iff in Hno as [H1%negb_true_iff H2%negb_true_iff]. auto 6. }
  assert (Eo : (put_crlf st ++ concat (map put_crlf (passed fs))) ++ txt "Connection: keep-alive" ++ TERM = written st (passed fs ++ [KEEP]) []).
  { unfold written, put_crlf at 1. rewrite map_app, concat_app. cbn [map concat]. rewrite <- !app_assoc. reflexivity. }
  rewrite Eo. assert (Hpl : plain_line st) by (split; [by apply (status_plain _ s)|done]).
  assert (Hpf : Forall plain_line (passed fs ++ [KEEP])) by (apply Forall_app; split; [by apply passed_plain|constructor; [apply keep_plain|constructor]]).
  rewrite (client_frame_written st s) by done. rewrite existsb_app, passed_chunked, List.filter_app, passed_lengths. change (existsb _ [KEEP]) with false.
  change (List.filter _ [KEEP]) with (@nil text). rewrite app_nil_r. cbn [orb]. destruct (bodyless s); [done|].
  destruct (existsb (named "content-length") fs) eqn:Hlen; [|done]. destruct (lengths_agree fs v Hv Hd Hlen) as [-> ->]. done.
Qed.

(** The head of an answer whose length fields, if any, agree on a number: when the
    connection to the browser stays open, a browser finds, from what it is sent, the very end
    the relay stops at; the head it is sent is the status line, the fields that are not for
    this hop, in their order, and one connection field.  Otherwise the head goes out as it
    came, and that is only where it is chunked or says no length. *)
Theorem kept_answer_is_framed head fin sep st fs s v : relay_head_end head = Some (fin, sep) -> head_lines head fin = st :: fs ->
  status_line st s -> number v -> Forall (declares v) (List.filter (named "content-length") fs) ->
  let '(keep, out, n) := relay_head_keepalive head in
  if keep then
    client_frame out = Some n /\ n = (if bodyless s then 0 else dec_value v)
    /\ out = written st (passed fs ++ [KEEP]) []
  else out = head /\ n = 0
    /\ (existsb (named "transfer-encoding") fs = true \/ bodyless s = false /\ existsb (named "content-length") fs = false).
Proof. by apply keepalive_verdict. Qed.

Definition css_head : text :=
  txt "HTTP/1.0 200 OK" ++ CRLF ++ txt "Content-type: text/css" ++ [NL] ++ txt "Content-Length: 512 " ++ CRLF ++ txt "Connection: close" ++ TERM.

Lemma css_status : status_line (txt "HTTP/1.0 200 OK") 200.
Proof.
  exists (txt "HTTP/1.0"), (txt "200"), (txt " OK"). split; [done|]. split; [by apply (bool_decide_unpack (SP ∉ _))|].
  do 3 (split; [by vm_compute|]). split; [right; by eexists|lia].
Qed.

Lemma kept_answer_is_framed_witness : exists out, relay_head_keepalive css_head = (true, out, 512) /\ client_frame out = Some 512
  /\ out = written (txt "HTTP/1.0 200 OK") [txt "Content-type: text/css"; txt "Content-Length: 512 "; KEEP] [].
Proof.
  pose proof (kept_answer_is_framed css_head 79 4 (txt "HTTP/1.0 200 OK") [txt "Content-type: text/css"; txt "Content-Length: 512 "; txt "Connection: close"] 200 (txt "512")) as T.
  assert (E : relay_head_keepalive css_head = (true, (relay_head_keepalive css_head).1.2, 512)) by (by vm_compute).
  rewrite E in T. exists (relay_head_keepalive css_head).1.2. split; [exact E|].
  destruct T as (T1 & _ & T2).
  - by vm_compute.
  - by vm_compute.
  - exact css_status.
  - by repeat split.
  - constructor; [|constructor]. exists (txt " "), (txt " "). by repeat split.
  - split; [exact T1|exact T2].
Defined.

(** ** Heads of pages that are rewritten *)

(** The fields a rebuilt head keeps. *)
Definition unframed (head : text) (fin : nat) : list text :=
  map snd (List.filter (fun nl => negb (framing_header nl.1)) (header_lines head fin)).

Lemma rebuilt_written head fin sep sl k : relay_head_end head = Some (fin, sep) -> index_of NL head = Some sl ->
  exists out, rebuilt_head head = Some out /\ out ++ concat (map put_crlf k) ++ CRLF = written (chop_cr (take sl head)) (unframed head fin ++ k) [].
Proof.
  intros He Hn. unfold rebuilt_head. rewrite He, Hn. eexists. split; [done|]. unfold written, unframed, put_crlf at 1.
  rewrite map_app, concat_app, map_map, <- !app_assoc. done.
Qed.

Lemma unframed_plain head fin : Forall plain_line (unframed head fin).
Proof.
  unfold unframed, header_lines. pose proof (head_lines_one head fin) as Hone. rewrite Forall_forall in *. intros l Hl.
  apply list_elem_of_In, in_map_iff in Hl as ([n l'] & <- & Hl). apply filter_In in Hl as [Hl _]. apply in_map_iff in Hl as (l & [= <- <-] & Hl).
  apply filter_In in Hl as [Hl Hne]. cbn [snd]. split; [by intros ->|]. apply Hone. apply (elem_drop _ 1). by apply list_elem_of_In.
Qed.

Lemma unframed_not n head fin : framing_header (txt n) = true -> forall l, In l (unframed head fin) -> named n l = false.
Proof.
  intros Hn l Hl. apply in_map_iff in Hl as ([m l'] & <- & Hl). apply filter_In in Hl as [Hl Hf]. apply in_map_iff in Hl as (l & [= <- <-] & _). cbn [fst snd] in *.
  apply bool_decide_eq_false. intros E. by rewrite E, Hn in Hf.
Qed.

Lemma existsb_none {A} (f : A -> bool) l : (forall x, In x l -> f x = false) -> existsb f l = false.
Proof. intros H. apply existsb_false. intros x Hx. by apply H, list_elem_of_In. Qed.

Lemma filter_none {A} (f : A -> bool) l : (forall x, In x l -> f x = false) -> List.filter f l = [].
Proof. induction l as [|x l IH]; intros H; cbn; [done|]. rewrite H by (by left). apply IH. intros y Hy. apply H. by right. Qed.

(** The head of a page that is rewritten on its way, whatever the upstream said of
    its length: with the connection to be closed the browser reads to the end of it, and with
    the length given the browser finds exactly that many octets (none, if the status has no
    body). *)
Theorem rewritten_page_is_framed head fin sep sl s n keep : relay_head_end head = Some (fin, sep) -> index_of NL head = Some sl ->
  status_line (chop_cr (take sl head)) s -> 0 <= n < 2 ^ 32 ->
  client_frame (relay_head_stream_close head) = (if bodyless s then Some 0 else None)
  /\ client_frame (relay_head_with_length head n keep) = Some (if bodyless s then 0 else n).
Proof.
  intros He Hn Hs Hr. assert (Hp : plain_line (chop_cr (take sl head))).
  { split; [by apply (status_plain _ s)|]. apply chop_cr_one. intros Hin. by apply take_index in Hn. }
  assert (Hu : Forall plain_line (unframed head fin)) by apply unframed_plain.
  assert (Hk : plain_line KEEP /\ plain_line CLOSE) by (split; [apply keep_plain|split; [done|by apply (bool_decide_unpack (NL ∉ CLOSE))]]).
  destruct Hk as [Hk Hc]. pose proof (existsb_none _ _ (unframed_not "transfer-encoding" head fin eq_refl)) as Hte.
  pose proof (filter_none _ _ (unframed_not "content-length" head fin eq_refl)) as Hcl. split.
  - unfold relay_head_stream_close. destruct (rebuilt_written head fin sep sl [CLOSE] He Hn) as (out & -> & E).
    assert (E' : out ++ txt "Connection: close" ++ TERM = written (chop_cr (take sl head)) (unframed head fin ++ [CLOSE]) []).
    { rewrite <- E. cbn [map concat]. unfold put_crlf. by rewrite <- !app_assoc. }
    rewrite E', (client_frame_written _ s); [|done|done|apply Forall_app; split; [done|by constructor]|done].
    rewrite existsb_app, Hte, List.filter_app, Hcl. reflexivity.
  - unfold relay_head_with_length. set (k := if keep then KEEP else CLOSE). set (cl := txt "Content-Length: " ++ print_dec n).
    destruct (rebuilt_written head fin sep sl [cl; k] He Hn) as (out & -> & E).
    assert (E' : out ++ txt "Content-Length: " ++ print_dec n ++ CRLF ++ (if keep then txt "Connection: keep-alive" else txt "Connection: close") ++ TERM
                 = written (chop_cr (take sl head)) ((unframed head fin ++ [cl]) ++ [k]) []).
    { rewrite <- app_assoc. cbn [app]. rewrite <- E. cbn [map concat]. unfold put_crlf, cl, k. rewrite <- !app_assoc. by destruct keep. }
    pose proof (print_dec_digits n ltac:(lia)) as D. pose proof (print_dec_nonempty n) as Hne.
    assert (Hplain : plain_line cl) by (apply (field_text_plain (txt "Content-Length", print_dec n)); cbn [fst snd]; rewrite existsb_app, (digits_field (print_dec n)) by done; reflexivity).
    rewrite E', (client_frame_written _ s); [|done|done| |by destruct keep].
    2: { apply Forall_app; split; [|by destruct keep; constructor]. apply Forall_app; split; [done|by constructor]. }
    rewrite !existsb_app, Hte, !List.filter_app, Hcl. assert (A : after_colon cl = SP :: print_dec n) by done.
    assert (V : field_value cl = print_dec n) by (unfold field_value; rewrite A; by apply tight_trim_blank, digits_tight).
    assert (F1 : existsb (named "transfer-encoding") [cl] = false) by done. assert (F2 : List.filter (named "content-length") [cl] = [cl]) by done.
    assert (F3 : existsb (named "transfer-encoding") [k] = false) by (by destruct keep). assert (F4 : List.filter (named "content-length") [k] = []) by (by destruct keep).
    rewrite F1, F2, F3, F4. cbn [orb app map forallb]. rewrite V, D. destruct (bodyless s); [done|].
    assert (Hnn : negb (text_eqb (print_dec n) []) = true) by (by destruct (print_dec n)). rewrite Hnn. cbn [andb]. f_equal. apply print_dec_value. lia.
Qed.

Lemma rewritten_page_is_framed_witness :
  client_frame (relay_head_stream_close css_head) = None /\ client_frame (relay_head_with_length css_head 700 true) = Some 700.
Proof.
  apply (rewritten_page_is_framed css_head 79 4 16 200 700 true); [by vm_compute|by vm_compute| |done].
  exact css_status.
Defined.

(** Two lengths that differ: the relay counts by the last and lets both through. *)
Definition two_lengths : text :=
  txt "HTTP/1.0 200 OK" ++ CRLF ++ txt "Content-Length: 5" ++ CRLF ++ txt "Content-Length: 9" ++ TERM.

Example two_lengths_kept : exists out, relay_head_keepalive two_lengths = (true, out, 9) /\ client_frame out = None.
Proof. eexists. split; [vm_compute; reflexivity|by vm_compute]. Qed.

(** A length that is no number counts as none. *)
Example no_number_kept : exists out, relay_head_keepalive (txt "HTTP/1.0 200 OK" ++ CRLF ++ txt "Content-Length: many" ++ TERM) = (true, out, 0) /\ client_frame out = None.
Proof. eexists. split; [vm_compute; reflexivity|by vm_compute]. Qed.

(** A blank before the colon hides a transfer coding. *)
Example hidden_coding_kept : exists out,
  relay_head_keepalive (txt "HTTP/1.1 200 OK" ++ CRLF ++ txt "Transfer-Encoding : chunked" ++ CRLF ++ txt "Content-Length: 5" ++ TERM) = (true, out, 5)
  /\ occurs (txt "chunked") out = true.
Proof. eexists. split; [vm_compute; reflexivity|by vm_compute]. Qed.
