(* ===== verification/HtmlInject.v ===== *)
(** * Pages of the web interface

    The insertions of [app/http/http_parse.cpp] into relayed pages: menu entries, the
    card on the network page, the player on the dashboard, the line in the footer.
    A page whose anchors are not found, or that has the insertion already, goes
    through as it is.  The texts are the program's; a back quote in them stands
    for a double quote. *)

From S2P Require Import Prelude Text HttpParse.

Definition html (s : string) : text := map (fun c => if Ascii.eqb c "`" then DQUOTE else c) (txt s).

Definition kNavMarkSystem : text := txt "<!-- machino-nav -->".
Definition kNavMarkServices : text := txt "<!-- machino-nav-services -->".

(** ** The texts *)

Definition nav_add : text := html
"
							" ++ kNavMarkSystem ++ html
"
							<li><a class=`dropdown-item` href=`machino-usb.cgi`>USB</a></li>
							<li><a class=`dropdown-item` href=`machino-cellular.cgi`>Cellular</a></li>
							<li><a class=`dropdown-item` href=`machino-uplinks.cgi`>Uplinks</a></li>
							<li><a class=`dropdown-item` href=`machino-devices.cgi`>Device Manager</a></li>
							<li><a class=`dropdown-item` href=`machino-ai.cgi`>AI</a></li>
							<li><a class=`dropdown-item` href=`machino-audio.cgi`>Audio</a></li>
							<li><a class=`dropdown-item` href=`machino-cleanup.cgi`>Storage</a></li>".

Definition nav_sadd : text := html
"
							" ++ kNavMarkServices ++ html
"
							<li><a class=`dropdown-item` href=`machino-ipsec.cgi`>IPsec / IKEv2</a></li>
							<li><a class=`dropdown-item` href=`machino-dyndns.cgi`>DynDNS</a></li>".

Definition linked : text := html "<a href=`https://github.com/aresstack/machino`>Machino</a> by <a href=`https://aresstack.com/?ref=machino`>AresStack</a>".

Definition network_card : text := html
"<div class=`col-12 col-lg-6`>
<div class=`card h-100` id=`mchnw-card`><div class=`card-body`>
	<div class=`mj-live-head`><h3 class=`mj-cap`>USB network hardware</h3><span class=`mj-live-rule`></span></div>
	<p class=`mj-card-note`>The hardware side of the add-on radio, reported by machino. Once the adapter is <b>registered</b>, it appears in the Wireless adapter list on this page.</p>
	<dl class=`row mb-0`>
	<dt class=`col-6`>USB role</dt><dd class=`col-6` id=`mchnw-role`>&hellip;</dd>
	<dt class=`col-6`>Port power (3.3 V VBUS)</dt><dd class=`col-6` id=`mchnw-power`>&hellip;</dd>
	<dt class=`col-6`>Adapter</dt><dd class=`col-6` id=`mchnw-adapter`>&hellip;</dd>
	<dt class=`col-6`>Hardware detected</dt><dd class=`col-6` id=`mchnw-hw`>&hellip;</dd>
	<dt class=`col-6`>Driver loaded</dt><dd class=`col-6` id=`mchnw-drv`>&hellip;</dd>
	</dl>
	<p class=`mj-card-note`>Managed on <a href=`machino-usb.cgi`>USB</a> and <a href=`machino-devices.cgi`>Device Manager</a>.</p>
<script>
(function () {
	function put(id, text) { var e = document.getElementById(id); if (e) e.textContent = text; }
	function grab(url, fill) {
		fetch(url, {credentials: `same-origin`})
			.then(function (r) { return r.ok ? r.json() : null; })
			.then(fill)
			.catch(function () { fill(null); });
	}
	grab(`/api/v1/usb`, function (u) {
		if (!u) { put(`mchnw-role`, `no data`); put(`mchnw-power`, `no data`); return; }
		var labels = {off: `Disabled`, wifi: `Wi-Fi`, cellular: `Cellular (4G)`};
		var role = labels[u.mode] || u.mode || `unknown`;
		if (u.rebootRequired) role += ` (reboot pending)`;
		put(`mchnw-role`, role);
		put(`mchnw-power`, (u.power && u.power.state) ? u.power.state : `unknown`);
	});
	grab(`/api/v1/devices`, function (d) {
		var list = (d && d.devices) || [];
		if (!list.length) { put(`mchnw-adapter`, `none`); put(`mchnw-hw`, `-`); put(`mchnw-drv`, `-`); return; }
		var a = list[0];
		put(`mchnw-adapter`, (a.title || a.id) + ` - ` + (a.state || `unknown`));
		put(`mchnw-hw`, a.hardwarePresent ? `yes` : `no`);
		put(`mchnw-drv`, a.driverLoaded ? `yes` : `no`);
	});
})();
</script>
</div></div>
</div>

".

Definition preview_script (stream : Z) : text :=
  html "
<script src=`/a/preview.js` defer></script>
<script id=`mch-prev`>
// machino: webui.dashboard_preview=live - stream player in the snapshot tile
(function () {
	'use strict';
	function start() {
		var tile = document.getElementById('st-prev');
		var off = document.getElementById('st-prev-off');
		var note = document.getElementById('st-prev-note');
		var note0 = note ? note.textContent : '';
		if (!tile || !window.MajesticVideo || !window.MajesticVideo.attach) return;
		var v = document.createElement('video');
		v.id = 'mch-prev-video'; v.muted = true; v.autoplay = true; v.playsInline = true;
		v.setAttribute('playsinline', ''); v.setAttribute('muted', '');
		v.style.cssText = 'position:absolute;inset:0;width:100%;height:100%;object-fit:cover;display:none;background:#0d0f14';
		tile.insertBefore(v, tile.firstChild);
		var img = document.getElementById('st-prev-img');
		function show(on) {
			v.style.display = on ? 'block' : 'none';
			if (img) img.style.display = on ? 'none' : '';
			if (off) off.style.display = on ? 'none' : '';
			// Bei Erfolg 'live | sub/main', bei Fehlschlag zurueck auf den
			// urspruenglichen Text (sonst bleibt ein falsches 'live' stehen).
			if (note) note.textContent = on ? 'live \u00b7 "
  ++ txt (if (stream =? 1)%Z then "sub" else "main")
  ++ html "' : note0;
		}
		v.addEventListener('playing', function () { show(true); });
		window.MajesticVideo.attach(v, { stream: "
  ++ txt (if (stream =? 1)%Z then "1" else "0")
  ++ html ", onState: function (st) {
			if (st === 'unreachable' || st === 'error' || st === 'unsupported') show(false);
		} });
		// Ein Tab im Hintergrund haelt keine Sitzung offen: Browser drosseln
		// das Video ohnehin, und die Kamera hat nur wenige Slots. (Kein
		// eigener 'pause'-Handler: der wuerde bei einem stotternden Stream
		// eine play/pause-Schleife ausloesen; visibilitychange reicht.)
		document.addEventListener('visibilitychange', function () {
			if (document.hidden) v.pause(); else v.play().catch(function () {});
		});
	}
	// preview.js ist defer und definiert window.MajesticVideo erst nach
	// dem Parsen; ein Inline-<script> ignoriert defer und liefe zu frueh
	// (dann waere MajesticVideo undefined und die Vorschau tot). Also
	// erst starten, wenn die defer-Skripte fertig sind: DOMContentLoaded.
	if (window.MajesticVideo && window.MajesticVideo.attach) start();
	else document.addEventListener('DOMContentLoaded', start);
})();
</script>".

(** ** The insertions *)

(** [out.insert(at, add)], and the three [append]s that do the same. *)
Definition insert_at (at_ : nat) (add page : text) : text := take at_ page ++ add ++ drop at_ page.

(** The first of two spellings. *)
Definition find_either (p q page : text) : option nat :=
  match find_text p page with Some i => Some i | None => find_text q page end.

(** The second insertion of [inject_machino_nav]. *)
Definition inject_services (out : text) : text :=
  if occurs kNavMarkServices out then out else
  match find_either (html "href=`wireguard.cgi`") (txt "href='wireguard.cgi'") out with
  | None => out
  | Some sa => match find_from (txt "</li>") out sa with
               | None => out
               | Some sli => insert_at (sli + 5) nav_sadd out
               end
  end.

(** The page, and [changed]. *)
Definition inject_machino_nav (page : text) : text * bool :=
  if occurs kNavMarkSystem page then (page, false) else
  match find_either (html "href=`network.cgi`") (txt "href='network.cgi'") page with
  | None => (page, false)
  | Some at_ => match find_from (txt "</li>") page at_ with
                | None => (page, false)
                | Some liEnd => (inject_services (insert_at (liEnd + 5) nav_add page), true)
                end
  end.

(** [s.rfind(p, pos)]. *)
Fixpoint rfind_text (p s : text) (pos : nat) : option nat :=
  if has_prefix p (drop pos s) then Some pos else match pos with O => None | S pos' => rfind_text p s pos' end.

Definition page_space (c : ascii) : bool := Ascii.eqb c " " || Ascii.eqb c HT || Ascii.eqb c CR || Ascii.eqb c NL.

Definition inject_machino_network_cards (page : text) : text * bool :=
  if occurs (txt "mchnw-card") page then (page, false) else
  match find_text (html "<details class=`mj-advanced`") page with
  | None => (page, false)
  | Some det =>
      let colOpen := html "<div class=`col-12 col-lg-6`>" in
      match rfind_text colOpen page det with
      | None => (page, false)
      | Some wrap =>
          if forallb page_space (take (det - (wrap + length colOpen)) (drop (wrap + length colOpen) page))
          then (insert_at wrap network_card page, true) else (page, false)
      end
  end.

Definition inject_machino_dashboard_preview (page : text) (stream : Z) : text * bool :=
  if occurs (txt "mch-prev") page then (page, false) else
  match find_text (txt "/a/dashboard.js") page with
  | None => (page, false)
  | Some js => match find_from (txt "</script>") page js with
               | None => (page, false)
               | Some close => (insert_at (close + 9) (preview_script stream) page, true)
               end
  end.

Definition footer_line : text := NL :: HT :: html "<p class=`text-end`" ++ txt ">" ++ linked ++ txt "</p>".

Definition inject_machino_footer_brand (page : text) : text * bool :=
  if occurs (txt "?ref=machino") page then (page, false) else
  match find_text (txt "Machino by AresStack") page with
  | Some old => (take old page ++ linked ++ drop (old + 20) page, true)
  | None =>
      match find_text (txt "?ref=webui") page with
      | None => (page, false)
      | Some at_ => match find_from (txt "</p>") page at_ with
                    | None => (page, false)
                    | Some pEnd => (insert_at (pEnd + 4) footer_line page, true)
                    end
      end
  end.

Definition relay_nav_complete (window : text) : bool := occurs (txt "</nav>") window.

(** ** What is added *)

Lemma occurs_spec p s : occurs p s = true <-> exists a b, s = a ++ p ++ b.
Proof.
  induction s as [|c s IH]; cbn [occurs].
  - rewrite orb_false_r, has_prefix_spec. split; [intros [r E]; by exists [], r|]. intros (a & b & E). symmetry in E. apply app_eq_nil in E as [-> E]. by exists b.
  - rewrite orb_true_iff, has_prefix_spec, IH. split.
    + intros [[r E]|(a & b & ->)]; [by exists [], r|by exists (c :: a), b].
    + intros ([|x a] & b & E); [left; by exists b|]. injection E as -> ->. right. by exists a, b.
Qed.

Lemma occurs_app_l p a b : occurs p a = true -> occurs p (a ++ b) = true.
Proof. rewrite !occurs_spec. intros (x & y & ->). exists x, (y ++ b). by rewrite <- !app_assoc. Qed.

Lemma occurs_app_r p a b : occurs p b = true -> occurs p (a ++ b) = true.
Proof. rewrite !occurs_spec. intros (x & y & ->). exists (a ++ x), y. by rewrite <- !app_assoc. Qed.

Lemma occurs_inserted p i add page : occurs p add = true -> occurs p (insert_at i add page) = true.
Proof. intros H. unfold insert_at. by apply occurs_app_r, occurs_app_l. Qed.

(** What ends in the one [e] it has is not torn by something put in behind an [e]. *)
Lemma occurs_behind m e a x b : e ∉ m -> last a = Some e -> occurs (m ++ [e]) (a ++ b) = true -> occurs (m ++ [e]) (a ++ x ++ b) = true.
Proof.
  intros Hm La (p & q & E)%occurs_spec. apply last_Some in La as [a' ->].
  destruct (decide (length (p ++ m ++ [e]) <= length (a' ++ [e]))%nat) as [L|L].
  - apply occurs_app_l, occurs_spec. exists p, (drop (length (p ++ m ++ [e])) (a' ++ [e])).
    assert (T : take (length (p ++ m ++ [e])) (a' ++ [e]) = p ++ m ++ [e]).
    { assert (T : take (length (p ++ m ++ [e])) ((a' ++ [e]) ++ b) = p ++ m ++ [e]) by (rewrite E, !app_assoc, take_app_length; done). by rewrite take_app_le in T. }
    rewrite <- (take_drop (length (p ++ m ++ [e])) (a' ++ [e])) at 1. rewrite T. by rewrite <- !app_assoc.
  - destruct (decide (length (a' ++ [e]) <= length p)%nat) as [K|K].
    + apply occurs_app_r, occurs_app_r, occurs_spec. exists (drop (length (a' ++ [e])) p), q.
      assert (D : drop (length (a' ++ [e])) ((a' ++ [e]) ++ b) = drop (length (a' ++ [e])) (p ++ (m ++ [e]) ++ q)) by (by rewrite E).
      by rewrite drop_app_length, drop_app_le in D.
    + exfalso. assert (N : ((a' ++ [e]) ++ b) !! length a' = Some e) by (rewrite <- app_assoc; by apply list_lookup_middle).
      rewrite E, lookup_app_r in N by (rewrite length_app in K; cbn in K; lia).
      rewrite <- app_assoc, lookup_app_l in N by (rewrite !length_app in *; cbn in *; lia). apply Hm. by eapply list_elem_of_lookup_2.
Qed.

(** [out] is the page with [add] in one place, behind [before] there. *)
Definition added (before add page out : text) : Prop := exists a b, page = (a ++ before) ++ b /\ out = (a ++ before) ++ add ++ b.

Lemma prefix_split p s i : has_prefix p (drop i s) = true -> s = (take i s ++ p) ++ drop (i + length p) s.
Proof.
  intros [r E]%has_prefix_spec. rewrite <- (take_drop i s) at 1. rewrite <- app_assoc. f_equal. rewrite E. f_equal. by rewrite <- drop_drop, E, drop_app_length.
Qed.

Lemma find_from_prefix p s pos i : find_from p s pos = Some i -> has_prefix p (drop i s) = true.
Proof.
  unfold find_from. destruct (find_text p (drop pos s)) as [j|] eqn:F; [|done]. intros [= <-]. apply find_text_some in F as (H & _). by rewrite drop_drop in H.
Qed.

Lemma insert_split a add b : insert_at (length a) add (a ++ b) = a ++ add ++ b.
Proof. unfold insert_at. by rewrite take_app_length, drop_app_length. Qed.

Lemma drop_length_lt {A} i (s : list A) : drop i s <> [] -> (i < length s)%nat.
Proof. intros H. destruct (decide (i < length s)%nat); [done|]. rewrite drop_ge in H by lia. done. Qed.

Lemma added_at before add page pos i : before <> [] -> find_from before page pos = Some i -> added before add page (insert_at (i + length before) add page).
Proof.
  intros Hb H%find_from_prefix. pose proof (prefix_split _ _ _ H) as E. exists (take i page), (drop (i + length before) page). split; [done|].
  assert (L : (i < length page)%nat).
  { apply drop_length_lt. intros N. rewrite N in H. apply has_prefix_spec in H as [r H]. symmetry in H. by apply app_eq_nil in H as [? _]. }
  assert (N : (i + length before)%nat = length (take i page ++ before)) by (rewrite length_app, length_take; lia).
  rewrite <- (insert_split (take i page ++ before)), <- E, <- N. done.
Qed.

Lemma find_text_from p s i : find_text p s = Some i -> find_from p s 0 = Some i.
Proof. unfold find_from. rewrite drop_0. by intros ->. Qed.

Lemma rfind_prefix p s pos i : rfind_text p s pos = Some i -> has_prefix p (drop i s) = true.
Proof.
  induction pos as [|pos IH].
  - cbn [rfind_text]. destruct (has_prefix p (drop 0 s)) eqn:E; [|done]. intros F. injection F as F. by subst i.
  - cbn [rfind_text]. destruct (has_prefix p (drop (S pos) s)) eqn:E; [|exact IH]. intros F. injection F as F. by subst i.
Qed.

(** Whatever the page is, an insertion that reports no change gives the page back, and
    one that reports a change has added its text in one place and taken nothing away: menu
    entries behind the end of a list item, the player behind the end of a script, the card in
    front of a column, the footer's line behind the end of a paragraph, or the two links in
    place of the plain words of an older footer. *)
Theorem pages_are_only_added_to page stream :
  (let '(out, changed) := inject_machino_nav page in
   if changed then exists mid, added (txt "</li>") nav_add page mid /\ (out = mid \/ added (txt "</li>") nav_sadd mid out) else out = page)
  /\ (let '(out, changed) := inject_machino_network_cards page in
      if changed then exists a b, page = a ++ html "<div class=`col-12 col-lg-6`>" ++ b /\ out = a ++ network_card ++ html "<div class=`col-12 col-lg-6`>" ++ b else out = page)
  /\ (let '(out, changed) := inject_machino_dashboard_preview page stream in
      if changed then added (txt "</script>") (preview_script stream) page out else out = page)
  /\ (let '(out, changed) := inject_machino_footer_brand page in
      if changed then added (txt "</p>") footer_line page out \/ (exists a b, page = a ++ txt "Machino by AresStack" ++ b /\ out = a ++ linked ++ b) else out = page).
Proof.
  split; [|split; [|split]].
  - unfold inject_machino_nav. destruct (occurs _ _); [done|]. destruct (find_either _ _ _) as [at_|]; [|done].
    destruct (find_from _ _ _) as [li|] eqn:F; [|done]. exists (insert_at (li + 5) nav_add page). split; [by apply (added_at (txt "</li>") nav_add page at_)|].
    unfold inject_services. destruct (occurs _ _); [by left|]. destruct (find_either _ _ _) as [sa|]; [|by left].
    destruct (find_from (txt "</li>") (insert_at _ _ _) sa) as [sli|] eqn:G; [|by left]. right. by apply (added_at (txt "</li>") nav_sadd _ sa).
  - unfold inject_machino_network_cards. destruct (occurs _ _); [done|]. destruct (find_text _ _) as [det|]; [|done]. cbv zeta.
    destruct (rfind_text _ _ _) as [wrap|] eqn:R; [|done]. destruct (forallb _ _); [|done]. apply rfind_prefix, has_prefix_spec in R as [r R].
    exists (take wrap page), r. unfold insert_at. rewrite R. split; [|done]. by rewrite <- R, take_drop.
  - unfold inject_machino_dashboard_preview. destruct (occurs _ _); [done|]. destruct (find_text _ _) as [js|]; [|done].
    destruct (find_from _ _ _) as [cl|] eqn:F; [|done]. by apply (added_at (txt "</script>") (preview_script stream) page js).
  - unfold inject_machino_footer_brand. destruct (occurs _ _); [done|]. destruct (find_text (txt "Machino by AresStack") page) as [old|] eqn:O.
    + right. apply find_text_split in O. exists (take old page), (drop (old + 20) page). done.
    + destruct (find_text (txt "?ref=webui") page) as [at_|]; [|done]. destruct (find_from _ _ _) as [pe|] eqn:F; [|done].
      left. by apply (added_at (txt "</p>") footer_line page at_).
Qed.

(** A page that went through an insertion, with or without effect, goes through it
    again as it is: a second relay, or a proxy in front, never stacks the entries. *)
Theorem insertions_do_not_stack page stream :
  inject_machino_nav (inject_machino_nav page).1 = ((inject_machino_nav page).1, false)
  /\ inject_machino_network_cards (inject_machino_network_cards page).1 = ((inject_machino_network_cards page).1, false)
  /\ inject_machino_dashboard_preview (inject_machino_dashboard_preview page stream).1 stream = ((inject_machino_dashboard_preview page stream).1, false)
  /\ inject_machino_footer_brand (inject_machino_footer_brand page).1 = ((inject_machino_footer_brand page).1, false).
Proof.
  assert (G : forall (f : text -> text * bool) m, (forall p, f p = (p, false) \/ occurs m (f p).1 = true) -> (forall p, occurs m p = true -> f p = (p, false)) ->
    f (f page).1 = ((f page).1, false)).
  { intros f m H1 H2. destruct (H1 page) as [E|E]; [by rewrite E|]. by apply H2. }
  split; [|split; [|split]].
  - apply (G _ kNavMarkSystem); [|by intros p; unfold inject_machino_nav; intros ->]. intros p. unfold inject_machino_nav.
    destruct (occurs kNavMarkSystem p); [by left|]. destruct (find_either _ _ _) as [at_|]; [|by left]. destruct (find_from _ _ _) as [li|]; [|by left]. right. cbn [fst].
    assert (O : occurs kNavMarkSystem (insert_at (li + 5) nav_add p) = true) by (apply occurs_inserted; by vm_compute).
    unfold inject_services. destruct (occurs kNavMarkServices _); [done|]. destruct (find_either _ _ _) as [sa|]; [|done].
    destruct (find_from _ _ sa) as [sli|] eqn:F; [|done]. apply (added_at (txt "</li>") nav_sadd) in F as (a & b & E1 & E2); [|done]. change (length (txt "</li>")) with 5%nat in E2. rewrite E2. rewrite E1 in O.
    apply (occurs_behind (txt "<!-- machino-nav --") ">"); [by apply (bool_decide_unpack (">"%char ∉ _))| |exact O]. change (txt "</li>") with (txt "</li" ++ [">"%char]). rewrite app_assoc. apply last_snoc.
  - apply (G _ (txt "mchnw-card")); [|by intros p; unfold inject_machino_network_cards; intros ->]. intros p. unfold inject_machino_network_cards.
    destruct (occurs _ p); [by left|]. destruct (find_text _ _); [|by left]. cbv zeta. destruct (rfind_text _ _ _); [|by left]. destruct (forallb _ _); [|by left].
    right. apply occurs_inserted. by vm_compute.
  - apply (G (fun p => inject_machino_dashboard_preview p stream) (txt "mch-prev")); [|by intros p; unfold inject_machino_dashboard_preview; intros ->]. intros p. unfold inject_machino_dashboard_preview.
    destruct (occurs _ p); [by left|]. destruct (find_text _ _); [|by left]. destruct (find_from _ _ _); [|by left].
    right. apply occurs_inserted. unfold preview_script. by destruct (stream =? 1); vm_compute.
  - apply (G _ (txt "?ref=machino")); [|by intros p; unfold inject_machino_footer_brand; intros ->]. intros p. unfold inject_machino_footer_brand.
    destruct (occurs _ p); [by left|]. destruct (find_text _ p) as [old|].
    { right. apply occurs_app_r, occurs_app_l. by vm_compute. }
    destruct (find_text _ p); [|by left]. destruct (find_from _ _ _); [|by left]. right. apply occurs_inserted. by vm_compute.
Qed.

(** A page with the anchors of the menu. *)
Definition menu_page : text :=
  html "<li><a href=`network.cgi`>Network</a></li><li><a href=`wireguard.cgi`>WireGuard</a></li></nav>".

Example menu_filled : (inject_machino_nav menu_page).2 = true /\ occurs (txt "machino-ipsec.cgi") (inject_machino_nav menu_page).1 = true.
Proof. by split; vm_compute. Qed.
