(* ===== verification/HttpRelay.v ===== *)
(** * The relay to the web interface

    [app/http/http_server.{hpp,cpp}], the members [relay_*] of a client and
    [relay_upstream], [relay_open], [pump_relay], [queue], [flush]: a request that is
    not the daemon's is sent to the web interface on the same camera, and the answer
    streams into the output buffer of the client.  What the kernel answers on the two
    sockets is the class [Kernel]; everything asked is in a log, newest first.  The
    counters of a reply are not wrapped at 4 GB. *)

From S2P Require Import Prelude Text HttpParse HtmlInject.

(** ** Data *)

Record ServerConfig := {
  max_out_buffer : Z; relay_timeout_ms : Z; relay_max_ms : Z; max_relay_inflight : nat;
  max_relay_bytes : Z; max_page_transform_bytes : Z; upstream_host : text
}.

Inductive Relay := RelayNone | Queued | Connecting | Writing | Reading.

#[export] Instance Relay_eq : EqDecision Relay.
Proof. solve_decision. Defined.

(** What [socket] and [connect] come to. *)
Inductive OpenAnswer := NoSocket | Refused | Connected | InProgress.

(** What [send] and [recv] return; no octets received is the end of the stream. *)
Inductive SendAnswer := Took (n : nat) | SendAgain | SendFailed.
Inductive RecvAnswer := Got (b : text) | RecvAgain | RecvFailed.

Inductive Ev :=
| Open (a : OpenAnswer)
| Close
| SoError (failed : bool)
| SendUp (b : text) (a : SendAnswer)
| RecvUp (a : RecvAnswer)
| SendDown (b : text) (a : SendAnswer).

Class Kernel := {
  k_open : list Ev -> OpenAnswer;
  k_error : list Ev -> bool;
  k_send_up : list Ev -> text -> SendAnswer;
  k_recv_up : list Ev -> RecvAnswer;
  k_send_down : list Ev -> text -> SendAnswer
}.

Record Client := {
  relay_fd : bool;                   (* relay_fd >= 0 *)
  relay_state : Relay;
  relay_req : text; relay_off : nat;
  relay_total : Z;
  relay_idle_deadline_ms : Z; relay_abs_deadline_ms : Z;
  relay_what : text;
  keep_alive_wanted : bool;
  relay_head : text; relay_head_done : bool;
  relay_keep : bool; relay_body_len : Z; relay_body_seen : Z;
  relay_inject : bool; relay_inject_cards : bool; relay_inject_preview : bool; relay_preview_stream : Z;
  relay_inject_buf : text;
  relay_file : bool; relay_get : bool;
  out : text; close_after_flush : bool; last_activity_ms : Z;
  k_log : list Ev
}.

#[export] Instance Client_settable : Settable Client :=
  fun c => Build_Client (relay_fd c) (relay_state c) (relay_req c) (relay_off c) (relay_total c) (relay_idle_deadline_ms c) (relay_abs_deadline_ms c)
    (relay_what c) (keep_alive_wanted c) (relay_head c) (relay_head_done c) (relay_keep c) (relay_body_len c) (relay_body_seen c)
    (relay_inject c) (relay_inject_cards c) (relay_inject_preview c) (relay_preview_stream c) (relay_inject_buf c)
    (relay_file c) (relay_get c) (out c) (close_after_flush c) (last_activity_ms c) (k_log c).

(** A new [Client]. *)
Definition new_client : Client :=
  {| relay_fd := false; relay_state := RelayNone; relay_req := []; relay_off := O; relay_total := 0; relay_idle_deadline_ms := 0; relay_abs_deadline_ms := 0;
     relay_what := []; keep_alive_wanted := false; relay_head := []; relay_head_done := false; relay_keep := false; relay_body_len := 0; relay_body_seen := 0;
     relay_inject := false; relay_inject_cards := false; relay_inject_preview := false; relay_preview_stream := 0; relay_inject_buf := [];
     relay_file := false; relay_get := false; out := []; close_after_flush := false; last_activity_ms := 0; k_log := [] |}.

Section Relay.
Context `{Kernel} (cfg_ : ServerConfig).

(** A call on the kernel. *)
Definition ask {A} (f : list Ev -> A) (ev : A -> Ev) : ST Client A :=
  c ← gets id;
  let a := f (k_log c) in
  modify (fun c => c <| k_log ::= cons (ev a) |>) ;;
  mret a.

Definition log_ (ev : Ev) : ST Client unit := modify (fun c => c <| k_log ::= cons ev |>).

Definition buf_size : Z := 8192.

(** [queue]: [cap] 0 is [max_out_buffer]. *)
Definition queue (data : text) (cap : Z) : ST Client bool :=
  c ← gets id;
  let limit := if cap =? 0 then max_out_buffer cfg_ else cap in
  if limit <? size (out c) + size data then mret false
  else modify (fun c => c <| out ::= fun o => o ++ data |>) ;; mret true.

(** [flush]: each round takes at least an octet. *)
Fixpoint flush_loop (fuel : nat) : ST Client bool :=
  match fuel with
  | O => mret true
  | S fuel =>
      c ← gets id;
      match out c with
      | [] => mret true
      | _ =>
          a ← ask (fun l => k_send_down l (out c)) (SendDown (out c));
          match a with
          | Took O | SendFailed => mret false
          | SendAgain => mret true
          | Took w => modify (fun c => c <| out ::= drop w |>) ;; flush_loop fuel
          end
      end
  end.
Definition flush : ST Client bool := c ← gets id; flush_loop (length (out c) + 1).

(** [response(status, text/plain, msg, false)]. *)
Definition plain (status : Z) (msg : text) : text := response status (txt "text/plain") msg false [].

(** A literal that ends in a line feed. *)
Definition line_of (s : string) : text := txt s ++ [NL].

(** [relay_open]; [now] is read again for the deadline. *)
Definition relay_open (now : Z) : ST Client bool :=
  a ← ask k_open Open;
  match a with
  | NoSocket =>
      modify (fun c => c <| relay_state := RelayNone |>) ;;
      queue (plain 502 (line_of "upstream socket failed")) 0 ;;
      modify (fun c => c <| close_after_flush := true |>) ;; mret true
  | Refused =>
      log_ Close ;;
      modify (fun c => c <| relay_state := RelayNone |>) ;;
      queue (plain 502 (line_of "OpenIPC WebUI backend unreachable")) 0 ;;
      modify (fun c => c <| close_after_flush := true |>) ;; mret true
  | Connected | InProgress =>
      modify (fun c => c <| relay_fd := true |>
        <| relay_state := match a with Connected => Writing | _ => Connecting end |>
        <| relay_idle_deadline_ms := now + relay_timeout_ms cfg_ |>) ;;
      mret true
  end.

(** [relay_upstream]: [preview] is the setting of the dashboard, [sub] whether there is a
    second stream, [inflight] the number of clients with an upstream socket. *)
Definition relay_upstream (req : Request) (preview sub : bool) (inflight : nat) (now : Z) : ST Client bool :=
  modify (fun c => c <| relay_req := forward_request req (upstream_host cfg_) |> <| relay_off := O |> <| relay_total := 0 |>
    <| relay_head := [] |> <| relay_head_done := false |> <| relay_keep := false |> <| relay_body_len := 0 |> <| relay_body_seen := 0 |>
    <| relay_inject := false |> <| relay_inject_buf := [] |> <| relay_file := false |>
    <| relay_get := text_eqb (method req) (txt "GET") |>) ;;
  modify (fun c => c <| relay_inject_cards := relay_get c && text_eqb (path req) (txt "/cgi-bin/network.cgi") |> <| relay_inject_preview := false |>) ;;
  c ← gets id;
  when (relay_get c && text_eqb (path req) (txt "/cgi-bin/dashboard.cgi") && preview)
    (modify (fun c => c <| relay_inject_preview := true |> <| relay_preview_stream := if sub then 1 else 0 |>)) ;;
  modify (fun c => c <| keep_alive_wanted := keep_alive req |>
    <| relay_idle_deadline_ms := now + relay_timeout_ms cfg_ |> <| relay_abs_deadline_ms := now + relay_max_ms cfg_ |>
    <| relay_what := method req ++ txt " " ++ path req |>) ;;
  if (max_relay_inflight cfg_ <=? inflight)%nat then modify (fun c => c <| relay_state := Queued |>) ;; mret true
  else relay_open now.

(** The end of the route: a request that may be for a file. *)
Definition relay_request `{Probe} (req : Request) (web_root : text) (preview sub : bool) (inflight : nat) (now : Z) : ST Client bool :=
  let '(file, fr) := file_get_rewrite req web_root in
  ok ← relay_upstream fr preview sub inflight now;
  modify (fun c => c <| relay_file := file |>) ;;
  mret ok.

(** ** The pump *)

Definition hang_up : ST Client unit :=
  log_ Close ;;
  modify (fun c => c <| relay_fd := false |> <| relay_state := RelayNone |> <| relay_req := [] |>).

(** The lambda [done]. *)
Definition relay_done : ST Client bool :=
  hang_up ;;
  c ← gets id;
  if relay_keep c then
    modify (fun c => c <| relay_head := [] |> <| relay_head_done := false |>
      <| relay_keep := false |> <| relay_body_len := 0 |> <| relay_body_seen := 0 |>
      <| relay_inject := false |> <| relay_inject_cards := false |> <| relay_inject_preview := false |>
      <| relay_inject_buf := [] |> <| relay_total := 0 |>) ;;
    mret true
  else modify (fun c => c <| close_after_flush := true |>) ;; mret true.

(** The lambda [fail]. *)
Definition relay_fail (status : Z) (msg : text) : ST Client bool :=
  hang_up ;;
  c ← gets id;
  if 0 <? relay_total c then modify (fun c => c <| out := [] |>) ;; mret false else
  modify (fun c => c <| close_after_flush := true |>) ;;
  queue (plain status (msg ++ txt " (" ++ relay_what c ++ txt ")" ++ [NL])) 0.

Definition progress (now : Z) : ST Client unit :=
  modify (fun c => c <| relay_idle_deadline_ms := now + relay_timeout_ms cfg_ |> <| last_activity_ms := now |>).

(** The insertions into a whole page. *)
Definition page_of (c : Client) (page : text) : text :=
  let '(merged, did) := inject_machino_nav page in
  let emit := if did : bool then merged else page in
  let emit := if relay_inject_cards c then let '(w, d) := inject_machino_network_cards emit in if d : bool then w else emit else emit in
  let emit := if relay_inject_preview c then let '(w, d) := inject_machino_dashboard_preview emit (relay_preview_stream c) in if d : bool then w else emit else emit in
  let '(w, d) := inject_machino_footer_brand emit in if d : bool then w else emit.

(** What a round of the loop comes to. *)
Inductive Flow := Continue | Return (ok : bool).

Definition page_cap : Z := max_page_transform_bytes cfg_ + max_out_buffer cfg_ + buf_size.
Definition out_cap : Z := max_out_buffer cfg_ + buf_size.

Definition clear_inject : ST Client unit :=
  modify (fun c => c <| relay_inject := false |> <| relay_inject_cards := false |> <| relay_inject_preview := false |> <| relay_inject_buf := [] |>).

(** The end of the stream. *)
Definition at_eof : ST Client bool :=
  c ← gets id;
  ok ← (if relay_inject c then
          let emit := page_of c (relay_inject_buf c) in
          q ← (match emit with [] => mret true | _ => queue emit page_cap end);
          if negb q then mret false else
          modify (fun c => c <| relay_total ::= Z.add (size emit) |>) ;;
          clear_inject ;; mret true
        else mret true);
  if negb ok then mret false else
  modify (fun c => if relay_keep c && (relay_body_seen c <? relay_body_len c) then c <| relay_keep := false |> else c) ;;
  relay_done.

(** Octets of the head; with its end, what follows goes the way of the body. *)
Definition take_head (now : Z) (b : text) : ST Client Flow :=
  modify (fun c => c <| relay_head ::= fun h => h ++ b |>) ;;
  c ← gets id;
  match relay_head_end (relay_head c) with
  | None =>
      if 8192 <? size (relay_head c) then ok ← relay_fail 502 (txt "OpenIPC WebUI backend sent an oversized header"); mret (Return ok)
      else progress now ;; mret Continue
  | Some (hend, sep) =>
      let head := take (hend + sep) (relay_head c) in
      let rest := drop (hend + sep) (relay_head c) in
      modify (fun c => c <| relay_head := [] |> <| relay_head_done := true |>) ;;
      if relay_get c && relay_head_is_html head then
        let sh := relay_head_stream_close head in
        q ← queue sh out_cap;
        if negb q then mret (Return false) else
        modify (fun c => c <| relay_total ::= Z.add (size sh) |> <| relay_keep := false |> <| relay_inject := true |> <| relay_inject_buf := rest |>) ;;
        progress now ;; mret Continue
      else
        let '(keep, patched, len) := if keep_alive_wanted c then relay_head_keepalive head else (false, head, relay_body_len c) in
        modify (fun c => c <| relay_keep := keep |> <| relay_body_len := len |>) ;;
        let send_head := if keep : bool then patched else head in
        q ← queue send_head out_cap;
        if negb q then mret (Return false) else
        modify (fun c => c <| relay_total ::= Z.add (size send_head) |>) ;;
        ok ← (match rest with
              | [] => mret true
              | _ =>
                  let rest := if keep && (len <? size rest) then take (Z.to_nat len) rest else rest in
                  q ← queue rest out_cap;
                  if negb q then mret false else
                  modify (fun c => c <| relay_total ::= Z.add (size rest) |> <| relay_body_seen ::= Z.add (size rest) |>) ;;
                  mret true
              end);
        if negb ok then mret (Return false) else
        c ← gets id;
        if relay_keep c && (relay_body_len c <=? relay_body_seen c) then ok ← relay_done; mret (Return ok)
        else progress now ;; mret Continue
  end.

(** Octets of a page that is held for its insertions. *)
Definition take_page (now : Z) (b : text) : ST Client Flow :=
  modify (fun c => c <| relay_inject_buf ::= fun p => p ++ b |>) ;;
  c ← gets id;
  if max_page_transform_bytes cfg_ <? size (relay_inject_buf c) then
    q ← queue (relay_inject_buf c) page_cap;
    if negb q then mret (Return false) else
    modify (fun c => c <| relay_total ::= Z.add (size (relay_inject_buf c)) |>) ;;
    clear_inject ;; progress now ;; mret Continue
  else progress now ;; mret Continue.

(** Octets of the body. *)
Definition take_body (now : Z) (b : text) : ST Client Flow :=
  c ← gets id;
  let take_ := if relay_keep c && (relay_body_len c <? relay_body_seen c + size b) then relay_body_len c - relay_body_seen c else size b in
  q ← (if take_ =? 0 then mret true else queue (take (Z.to_nat take_) b) out_cap);
  if negb q then mret (Return false) else
  modify (fun c => c <| relay_total ::= Z.add take_ |> <| relay_body_seen ::= Z.add take_ |>) ;;
  c ← gets id;
  if relay_keep c && (relay_body_len c <=? relay_body_seen c) then ok ← relay_done; mret (Return ok)
  else progress now ;; mret Continue.

(** A round of [while (c.out.size() < cfg_.max_out_buffer)]. *)
Definition read_round (now : Z) : ST Client Flow :=
  a ← ask k_recv_up RecvUp;
  match a with
  | Got [] => ok ← at_eof; mret (Return ok)
  | RecvAgain => mret (Return true)
  | RecvFailed => ok ← relay_fail 502 (txt "OpenIPC WebUI backend failed"); mret (Return ok)
  | Got b =>
      let b := take (Z.to_nat buf_size) b in
      c ← gets id;
      if negb (relay_file c) && (max_relay_bytes cfg_ <? relay_total c + size (relay_head c) + size b) then
        ok ← relay_fail 502 (txt "upstream response exceeds the relay size limit"); mret (Return ok)
      else if negb (relay_head_done c) then take_head now b
      else if relay_inject c then take_page now b
      else take_body now b
  end.

(** The loop; [None] where the rounds run out. *)
Fixpoint read_loop (fuel : nat) (now : Z) : ST Client (option bool) :=
  match fuel with
  | O => mret None
  | S fuel =>
      c ← gets id;
      if max_out_buffer cfg_ <=? size (out c) then progress now ;; mret (Some true) else
      f ← read_round now;
      match f with Continue => read_loop fuel now | Return ok => mret (Some ok) end
  end.

(** Every round brings an octet into the head, the page or the output. *)
Definition read_fuel : nat := Z.to_nat (max_out_buffer cfg_ + max_page_transform_bytes cfg_ + 3 * buf_size).

(** The loop of the phase [Writing]: [Some] where the pump returns. *)
Fixpoint write_loop (fuel : nat) (now : Z) : ST Client (option bool) :=
  match fuel with
  | O => mret None
  | S fuel =>
      c ← gets id;
      if (length (relay_req c) <=? relay_off c)%nat then mret None else
      let rest := drop (relay_off c) (relay_req c) in
      a ← ask (fun l => k_send_up l rest) (SendUp rest);
      match a with
      | Took (S n) => modify (fun c => c <| relay_off ::= Nat.add (S n) |>) ;; progress now ;; write_loop fuel now
      | SendAgain => mret (Some true)
      | _ => ok ← relay_fail 502 (txt "upstream write failed"); mret (Some ok)
      end
  end.

(** What [poll] says of the upstream socket. *)
Record Revents := { nval : bool; err_or_hup : bool; writable : bool }.

Definition pump_reading (now : Z) : ST Client bool :=
  r ← read_loop read_fuel now;
  mret (default true r).

Definition pump_writing (now : Z) : ST Client bool :=
  c ← gets id;
  r ← (if bool_decide (relay_state c = Writing) then write_loop (length (relay_req c) - relay_off c + 1) now else mret None);
  match r with
  | Some ok => mret ok
  | None => modify (fun c => c <| relay_state := Reading |>) ;; pump_reading now
  end.

(** [pump_relay]; [now2] is the clock [relay_open] reads. *)
Definition pump_relay (re : Revents) (inflight : nat) (now now2 : Z) : ST Client bool :=
  c ← gets id;
  if bool_decide (relay_state c = Queued) then
    if relay_idle_deadline_ms c <=? now then
      modify (fun c => c <| relay_state := RelayNone |> <| relay_req := [] |> <| close_after_flush := true |>) ;;
      queue (plain 503 (line_of "OpenIPC WebUI backend is busy")) 0
    else if (max_relay_inflight cfg_ <=? inflight)%nat then mret true
    else relay_open now2
  else if nval re then relay_fail 502 (txt "OpenIPC WebUI backend failed")
  else if negb (relay_file c) && (relay_abs_deadline_ms c <=? now) then
    relay_fail 504 (txt "OpenIPC WebUI backend exceeded the " ++ print_int (relay_max_ms cfg_) ++ txt " ms relay ceiling")
  else if relay_idle_deadline_ms c <=? now then
    relay_fail 504 (txt "OpenIPC WebUI backend sent nothing for " ++ print_int (relay_timeout_ms cfg_) ++ txt " ms")
  else if bool_decide (relay_state c = Connecting) then
    if err_or_hup re then relay_fail 502 (txt "OpenIPC WebUI backend unreachable") else
    if negb (writable re) then mret true else
    failed ← ask k_error SoError;
    if failed : bool then relay_fail 502 (txt "OpenIPC WebUI backend unreachable") else
    modify (fun c => c <| relay_state := Writing |>) ;; progress now ;;
    pump_writing now
  else pump_writing now.

End Relay.
