(* ===== verification/HttpRelaySpec.v ===== *)
(** * What the browser gets from the relay

    Any history of a reply: pumps with whatever the kernel answers, and flushes.  What
    is given to the browser is a function of what the web interface sent, however it
    came in pieces; a connection stays open only at the end of a whole answer; nothing
    follows an answer that broke off; a relay ends. *)

From S2P Require Import Prelude Text HttpParse HttpSpec HttpHeadSpec HtmlInject HttpRelay.

(** ** The head of a stream *)

Lemma relay_head_end_grow a b e : relay_head_end a = Some e -> relay_head_end (a ++ b) = Some e.
Proof.
  unfold relay_head_end. destruct (find_text TERM a) as [i|] eqn:T.
  - rewrite (find_text_grow _ _ _ _ T). destruct (find_text LFLF a) as [j|] eqn:L; [by rewrite (find_text_grow _ _ _ _ L)|].
    intros [= <-]. destruct (find_text LFLF (a ++ b)) as [j|] eqn:L2; [|done].
    apply (find_text_new _ _ _ _ L) in L2. pose proof (find_text_spec TERM a) as S. rewrite T in S. destruct S as (_ & S & _).
    change (length TERM) with 4%nat in S. change (length LFLF) with 2%nat in L2. assert (B : (i <=? j)%nat = true) by (apply Nat.leb_le; lia). by rewrite B.
  - destruct (find_text LFLF a) as [j|] eqn:L; [|done]. intros [= <-]. rewrite (find_text_grow _ _ _ _ L).
    destruct (find_text TERM (a ++ b)) as [i|] eqn:T2; [|done].
    assert (B : (i <=? j)%nat = false); [|by rewrite B]. apply Nat.leb_gt. pose proof (find_text_new _ _ _ _ T T2) as N. change (length TERM) with 4%nat in N.
    pose proof (find_text_spec LFLF a) as S. rewrite L in S. destruct S as (_ & S & _). change (length LFLF) with 2%nat in S.
    apply (find_text_grow _ _ b) in L. apply find_text_some in L as (L & _). apply find_text_some in T2 as (T2 & _).
    destruct (decide (j < i)%nat) as [|C]; [done|]. exfalso. apply has_prefix_spec in L as [r L], T2 as [t T2].
    assert (L0 : (a ++ b) !! j = Some NL) by (rewrite <- (Nat.add_0_r j), <- lookup_drop, L; done).
    assert (L1 : (a ++ b) !! (j + 1)%nat = Some NL) by (rewrite <- lookup_drop, L; done).
    assert (T0 : (a ++ b) !! i = Some CR) by (rewrite <- (Nat.add_0_r i), <- lookup_drop, T2; done).
    assert (T3 : (a ++ b) !! (i + 2)%nat = Some CR) by (rewrite <- lookup_drop, T2; done).
    destruct (decide (i = j)) as [->|]; [by rewrite L0 in T0|]. replace (i + 2)%nat with (j + 1)%nat in T3 by lia. by rewrite L1 in T3.
Qed.

(** The head of what came, and what came behind it. *)
Definition head_of (y : text) : option (text * text) :=
  match relay_head_end y with Some (h, s) => Some (take (h + s) y, drop (h + s) y) | None => None end.

Lemma head_end_within y h s : relay_head_end y = Some (h, s) -> (h + s <= length y)%nat.
Proof.
  unfold relay_head_end. pose proof (find_text_spec TERM y) as T. pose proof (find_text_spec LFLF y) as L.
  change (length TERM) with 4%nat in T. change (length LFLF) with 2%nat in L.
  destruct (find_text TERM y), (find_text LFLF y); [destruct (_ <=? _)%nat| | |]; intros E; try done; injection E as <- <-; lia.
Qed.

Lemma head_of_grow y b h r : head_of y = Some (h, r) -> head_of (y ++ b) = Some (h, r ++ b).
Proof.
  unfold head_of. destruct (relay_head_end y) as [[i s]|] eqn:E; [|done]. intros [= <- <-].
  rewrite (relay_head_end_grow _ _ _ E). apply head_end_within in E. by rewrite take_app_le, drop_app_le by lia.
Qed.

Lemma head_of_app y h r : head_of y = Some (h, r) -> y = h ++ r.
Proof. unfold head_of. destruct (relay_head_end y) as [[i s]|]; [|done]. intros [= <- <-]. by rewrite take_drop. Qed.

(** ** What was given and what came *)

(** The octets a [recv] of [sizeof buf] brings. *)
Definition piece (b : text) : text := take (Z.to_nat buf_size) b.

Fixpoint received (l : list Ev) : text :=
  match l with
  | [] => []
  | RecvUp (Got b) :: l => received l ++ piece b
  | _ :: l => received l
  end.

Fixpoint sent_down (l : list Ev) : text :=
  match l with
  | [] => []
  | SendDown b (Took n) :: l => sent_down l ++ take n b
  | _ :: l => sent_down l
  end.

(** What was put out for the browser, on its way or still in the buffer. *)
Definition given (c : Client) : text := sent_down (k_log c) ++ out c.

(** What a reply depends on besides what comes. *)
Record Wants := { w_get : bool; w_keep : bool; w_cards : bool; w_preview : bool; w_stream : Z }.

Definition wants (w : Wants) (c : Client) : Prop := relay_get c = w_get w /\ keep_alive_wanted c = w_keep w.
Definition inserts (w : Wants) (c : Client) : Prop :=
  relay_inject_cards c = w_cards w /\ relay_inject_preview c = w_preview w /\ (w_preview w = true -> relay_preview_stream c = w_stream w).

Definition is_page (w : Wants) (head : text) : bool := w_get w && relay_head_is_html head.

(** The page with its insertions. *)
Definition whole_page (w : Wants) (page : text) : text :=
  let emit := (inject_machino_nav page).1 in
  let emit := if w_cards w then (inject_machino_network_cards emit).1 else emit in
  let emit := if w_preview w then (inject_machino_dashboard_preview emit (w_stream w)).1 else emit in
  (inject_machino_footer_brand emit).1.

(** The verdict on a head: may the connection stay, with which head, for how many octets. *)
Definition verdict (w : Wants) (head : text) : bool * text * Z :=
  if w_keep w then relay_head_keepalive head else (false, head, 0).

(** The phases of a reply: [x] was given, [y] came. *)
Inductive phase (w : Wants) (c : Client) (x y : text) : Prop :=
| BeforeHead : relay_head_done c = false -> x = [] -> relay_head c = y -> relay_head_end y = None ->
    relay_total c = 0 -> relay_keep c = false -> relay_inject c = false -> relay_body_seen c = 0 -> relay_inject_buf c = [] -> inserts w c -> phase w c x y
| HoldingPage head b : relay_head_done c = true -> head_of y = Some (head, b) -> is_page w head = true -> relay_head c = [] ->
    x = relay_head_stream_close head -> relay_total c = size x -> relay_keep c = false -> relay_inject c = true -> relay_inject_buf c = b -> inserts w c -> phase w c x y
| LongPage head b : relay_head_done c = true -> head_of y = Some (head, b) -> is_page w head = true -> relay_head c = [] ->
    x = relay_head_stream_close head ++ b -> relay_total c = size x -> relay_keep c = false -> relay_inject c = false -> phase w c x y
| KeptBody head b patched len : relay_head_done c = true -> head_of y = Some (head, b) -> is_page w head = false -> relay_head c = [] ->
    verdict w head = (true, patched, len) -> x = patched ++ b -> relay_total c = size x -> relay_keep c = true -> relay_inject c = false ->
    relay_body_len c = len -> relay_body_seen c = size b -> size b < len -> phase w c x y
| PlainBody head b : relay_head_done c = true -> head_of y = Some (head, b) -> is_page w head = false -> relay_head c = [] ->
    (verdict w head).1.1 = false -> x = head ++ b -> relay_total c = size x -> relay_keep c = false -> relay_inject c = false -> phase w c x y.

(** How a reply can end. *)
Inductive ended (w : Wants) (close : bool) (x y : text) : Prop :=
| WholeAnswer head patched b rest : close = false -> head_of y = Some (head, b ++ rest) -> is_page w head = false ->
    verdict w head = (true, patched, size b) -> x = patched ++ b -> ended w close x y
| ToTheEnd head b : close = true -> head_of y = Some (head, b) -> is_page w head = false -> (verdict w head).1.1 = false -> x = y -> ended w close x y
| BrokenOff head patched b len : close = true -> head_of y = Some (head, b) -> is_page w head = false ->
    verdict w head = (true, patched, len) -> size b < len -> x = patched ++ b -> ended w close x y
| Page head b : close = true -> head_of y = Some (head, b) -> is_page w head = true ->
    x = relay_head_stream_close head ++ whole_page w b \/ x = relay_head_stream_close head ++ b -> ended w close x y
| Refusal status msg : close = true -> x = plain status msg -> ended w close x y
| NoHead : close = true -> head_of y = None -> x = [] -> ended w close x y.

(** The members of an updated client. *)
Ltac members := cbn [upd id relay_fd relay_state relay_req relay_off relay_total relay_idle_deadline_ms relay_abs_deadline_ms relay_what
  keep_alive_wanted relay_head relay_head_done relay_keep relay_body_len relay_body_seen relay_inject relay_inject_cards relay_inject_preview
  relay_preview_stream relay_inject_buf relay_file relay_get out close_after_flush last_activity_ms k_log received sent_down] in *.

Section Reply.
Context `{Kernel} (cfg : ServerConfig) (w : Wants) (D0 U0 : text).

(** A reply under way. *)
Definition holds (c : Client) : Prop :=
  exists x y, given c = D0 ++ x /\ received (k_log c) = U0 ++ y /\ wants w c /\ close_after_flush c = false
    /\ (relay_state c = Queued -> x = [] /\ y = []) /\ phase w c x y.

Definition over (c : Client) : Prop :=
  exists x y, given c = D0 ++ x /\ received (k_log c) = U0 ++ y /\ ended w (close_after_flush c) x y.

(** What a step leaves, unless the client is dropped. *)
Definition after (ok : bool) (c : Client) : Prop :=
  ok = true -> (relay_state c <> RelayNone /\ holds c) \/ (relay_state c = RelayNone /\ over c).

Lemma after_dropped c : after false c.
Proof. done. Qed.

Lemma wp_queue data cap (Q : bool -> Client -> Prop) c :
  Q false c -> Q true (c <| out ::= fun o => o ++ data |>) -> wp (queue cfg data cap) Q c.
Proof. intros Hf Ht. unfold queue. wp_go; assumption. Qed.

Lemma given_queue data c : given (c <| out ::= fun o => o ++ data |>) = given c ++ data.
Proof. unfold given. cbn [upd out k_log]. by rewrite app_assoc. Qed.

Lemma wp_kernel {A} (f : list Ev -> A) (ev : A -> Ev) (Q : A -> Client -> Prop) c :
  Q (f (k_log c)) (c <| k_log ::= cons (ev (f (k_log c))) |>) -> wp (ask f ev) Q c.
Proof. intros HQ. unfold ask. wp_go. exact HQ. Qed.

Lemma rebuilt_nonempty head : relay_head_stream_close head = [] -> head = [].
Proof.
  unfold relay_head_stream_close. destruct (rebuilt_head head); [|done]. intros E. apply app_eq_nil in E as [_ E]. discriminate.
Qed.

Lemma patched_nonempty head patched len : verdict w head = (true, patched, len) -> patched <> [].
Proof.
  unfold verdict. destruct (w_keep w); [|done]. unfold relay_head_keepalive. destruct (relay_head_end head) as [[i s]|]; [|done].
  destruct (head_status head); [|done]. cbv zeta. destruct (chunked _); [done|]. destruct (_ && _); [done|]. intros [= <- _] E.
  apply app_eq_nil in E as [_ E]. discriminate.
Qed.

Lemma head_nonempty y head b : head_of y = Some (head, b) -> head <> [].
Proof.
  unfold head_of. destruct (relay_head_end y) as [[i s]|] eqn:E; [|done]. intros [= <- _] N. pose proof (head_end_within _ _ _ E) as L.
  assert (S : (2 <= s)%nat).
  { unfold relay_head_end in E. destruct (find_text TERM y), (find_text LFLF y); [destruct (_ <=? _)%nat| | |]; try done; injection E as _ <-; lia. }
  assert (Z : length (take (i + s) y) = O) by (by rewrite N). rewrite length_take in Z. lia.
Qed.

Lemma nonempty_size (s : text) : s <> [] -> 0 < size s.
Proof. destruct s; [done|]. intros _. unfold size. cbn. lia. Qed.

(** Before the head nothing was given; from then on something was. *)
Lemma phase_total c x y : phase w c x y -> (x = [] /\ head_of y = None /\ relay_total c = 0) \/ 0 < relay_total c.
Proof.
  intros [? -> ? E T ? ? ? ? ?|head b ? Hy ? ? -> T|head b ? Hy ? ? -> T|head b patched len ? Hy ? ? Hv -> T|head b ? Hy ? ? ? -> T].
  - left. unfold head_of. by rewrite E.
  - right. rewrite T. apply nonempty_size. intros N%rebuilt_nonempty. by apply head_nonempty in Hy.
  - right. rewrite T, size_app. pose proof (size_nonneg b). assert (0 < size (relay_head_stream_close head)); [|lia].
    apply nonempty_size. intros N%rebuilt_nonempty. by apply head_nonempty in Hy.
  - right. rewrite T, size_app. pose proof (size_nonneg b). apply patched_nonempty, nonempty_size in Hv. lia.
  - right. rewrite T, size_app. pose proof (size_nonneg b). apply head_nonempty, nonempty_size in Hy. lia.
Qed.

Lemma relay_fail_any status msg c x y : given c = D0 ++ x -> received (k_log c) = U0 ++ y -> x = [] \/ 0 < relay_total c ->
  wp (relay_fail cfg status msg) after c.
Proof.
  intros Hx Hy Hp. unfold relay_fail, hang_up, log_. wp_go; [done|].
  apply wp_queue; [done|]. intros _. right. split; [done|]. members. destruct Hp as [->|Hp]; [|apply Z.ltb_ge in E; lia].
  exists (plain status (msg ++ txt " (" ++ relay_what c ++ txt ")" ++ [NL])), y. unfold given in *. members.
  split; [|split; [done|by eapply Refusal]]. rewrite app_nil_r in Hx. by rewrite app_assoc, Hx.
Qed.

Lemma relay_fail_spec status msg c : holds c -> wp (relay_fail cfg status msg) after c.
Proof.
  intros (x & y & Hx & Hy & Hw & Hc & Hq & Hp). apply (relay_fail_any _ _ _ x y Hx Hy). apply phase_total in Hp. destruct Hp as [(-> & _)|]; auto.
Qed.

(** The upstream is let go of: the connection stays exactly where the framing is kept. *)
Definition finished (c : Client) : Prop :=
  exists x y, given c = D0 ++ x /\ received (k_log c) = U0 ++ y /\ close_after_flush c = false /\ ended w (negb (relay_keep c)) x y.

Lemma relay_done_spec c : finished c -> wp relay_done after c.
Proof.
  intros (x & y & Hx & Hy & Hc & He). unfold relay_done, hang_up, log_. wp_go; members; intros _; right; (split; [done|]); exists x, y;
    unfold given in *; members; rewrite E in He; rewrite ?Hc; done.
Qed.

Lemma page_of_whole c page : inserts w c -> page_of c page = whole_page w page.
Proof.
  intros (Hc & Hp & Hs). unfold page_of, whole_page. rewrite Hc, Hp.
  assert (K : forall (f : text -> text * bool), (forall p, (f p).2 = false -> (f p).1 = p) -> forall p, (let '(q, d) := f p in if d then q else p) = (f p).1).
  { intros f Hf p. pose proof (Hf p) as E. destruct (f p) as [q []]; [done|]. by rewrite E. }
  pose proof (fun p => pages_are_only_added_to p (w_stream w)) as O.
  assert (E1 : (let '(merged, did) := inject_machino_nav page in if did : bool then merged else page) = (inject_machino_nav page).1).
  { apply K. intros p E. destruct (O p) as (O1 & _). destruct (inject_machino_nav p) as [q d]. cbn in *. by subst d. }
  destruct (inject_machino_nav page) as [merged did]. cbn [fst] in *. rewrite E1. clear E1.
  assert (E2 : forall p, (let '(q, d) := inject_machino_network_cards p in if d : bool then q else p) = (inject_machino_network_cards p).1).
  { apply K. intros p E. destruct (O p) as (_ & O1 & _). destruct (inject_machino_network_cards p) as [q d]. cbn in *. by subst d. }
  assert (E3 : forall p, (let '(q, d) := inject_machino_dashboard_preview p (w_stream w) in if d : bool then q else p) = (inject_machino_dashboard_preview p (w_stream w)).1).
  { apply (K (fun p => inject_machino_dashboard_preview p (w_stream w))). intros p E. destruct (O p) as (_ & _ & O1 & _). destruct (inject_machino_dashboard_preview p (w_stream w)) as [q d]. cbn in *. by subst d. }
  assert (E4 : forall p, (let '(q, d) := inject_machino_footer_brand p in if d : bool then q else p) = (inject_machino_footer_brand p).1).
  { apply K. intros p E. destruct (O p) as (_ & _ & _ & O1). destruct (inject_machino_footer_brand p) as [q d]. cbn in *. by subst d. }
  rewrite E4. destruct (w_preview w); [rewrite (Hs eq_refl)|]; destruct (w_cards w); by rewrite ?E2, ?E3.
Qed.

Lemma given_log ev c : (forall b n, ev <> SendDown b (Took n)) -> given (c <| k_log ::= cons ev |>) = given c.
Proof. intros N. unfold given. members. destruct ev as [| | | | |b [n| |]]; try done. by destruct (N b n). Qed.

Lemma close_finished c x y : given c = D0 ++ x -> received (k_log c) = U0 ++ y -> close_after_flush c = false -> relay_keep c = false -> ended w true x y ->
  wp relay_done after c.
Proof. intros Hx Hy Hc Hk He. apply relay_done_spec. exists x, y. by rewrite Hk. Qed.

Lemma at_eof_spec c : holds c -> wp (at_eof cfg) after c.
Proof.
  intros (x & y & Hx & Hy & Hw & Hc & Hq & Hp). unfold at_eof, clear_inject. wp_step. wp_step. members.
  destruct Hp as [Hd -> <- Hn Ht Hk Hi Hs Hb Hins|head b Hd Hh Hpg Hr -> Ht Hk Hi Hb Hins|head b Hd Hh Hpg Hr -> Ht Hk Hi|head b patched len Hd Hh Hpg Hr Hv -> Ht Hk Hi Hl Hs Hlt|head b Hd Hh Hpg Hr Hv -> Ht Hk Hi]; rewrite Hi.
  - wp_step. wp_step. cbn [negb]. wp_step. wp_step. members. rewrite Hk. cbn [andb]. apply (close_finished _ [] (relay_head c)); try done. apply NoHead; [done| |done]. unfold head_of. by rewrite Hn.
  - rewrite (page_of_whole c _ Hins), Hb. wp_step. wp_step.
    assert (F : forall c', given c' = given c ++ whole_page w b -> received (k_log c') = received (k_log c) -> close_after_flush c' = false -> relay_keep c' = false ->
      wp relay_done after c').
    { intros c' E1 E2 E3 E4. apply (close_finished _ (relay_head_stream_close head ++ whole_page w b) y); [by rewrite E1, Hx, <- app_assoc|by rewrite E2|done|done|].
      eapply Page; eauto. }
    destruct (whole_page w b) as [|e es] eqn:We.
    + wp_go; try discriminate; members; rewrite ?Hk; cbn [andb]; apply F; unfold given; members; rewrite ?app_nil_r; done.
    + apply wp_queue; [wp_go; done|]. wp_go; try discriminate; members; rewrite ?Hk; cbn [andb]; apply F; unfold given; members; rewrite ?app_assoc; done.
  - wp_step. wp_step. cbn [negb]. wp_step. wp_step. members. rewrite Hk. cbn [andb]. apply (close_finished _ (relay_head_stream_close head ++ b) y); try done. eapply Page; eauto.
  - wp_step. wp_step. cbn [negb]. wp_step. wp_step. members. rewrite Hk, Hs, Hl. apply Z.ltb_lt in Hlt as Hlt'. rewrite Hlt'. cbn [andb].
    apply (close_finished _ (patched ++ b) y); try done. by eapply BrokenOff.
  - wp_step. wp_step. cbn [negb]. wp_step. wp_step. members. rewrite Hk. cbn [andb]. apply (close_finished _ (head ++ b) y); try done. eapply ToTheEnd; try done. by apply head_of_app in Hh.
Qed.

(** *** The rounds of the loop *)

Definition flowed (f : Flow) (c : Client) : Prop :=
  match f with Continue => relay_state c = Reading /\ holds c | Return ok => after ok c end.

(** Octets [b] came, and are not yet part of the reply. *)
Definition pending (c : Client) (x y b : text) : Prop :=
  given c = D0 ++ x /\ received (k_log c) = U0 ++ y ++ b /\ wants w c /\ close_after_flush c = false /\ relay_state c = Reading /\ phase w c x y.

Lemma wp_return (m : ST Client bool) c : wp m after c -> wp (ok ← m; mret (Return ok)) flowed c.
Proof. intros Hm. wp_step. eapply wp_mono; [exact Hm|]. intros ok c' Ha. by wp_step. Qed.

(** A state of the loop that goes on. *)
Lemma go_on now c x y : given c = D0 ++ x -> received (k_log c) = U0 ++ y -> wants w c -> close_after_flush c = false -> relay_state c = Reading ->
  phase w (c <| relay_idle_deadline_ms := now + relay_timeout_ms cfg |> <| last_activity_ms := now |>) x y ->
  wp (progress cfg now ;; mret Continue) flowed c.
Proof.
  intros Hx Hy Hw Hc Hs Hp. unfold progress. wp_go. split; [done|]. exists x, y. do 4 (split; [done|]). split; [|done]. members. by rewrite Hs.
Qed.

Lemma strtoul_nonneg s : 0 <= strtoul s.
Proof.
  unfold strtoul. destruct (match skip_space s with [] => _ | _ => _ end) as [neg t]. cbv zeta.
  assert (D : forallb is_digit (take_digits t).1 = true).
  { clear. induction t as [|c t IH]; [done|]. cbn. destruct (is_digit c) eqn:E; [|done]. destruct (take_digits t) as [d r]. cbn in *. by rewrite E. }
  apply dec_value_nonneg in D. destruct (_ <? _); [lia|]. destruct neg; [|done]. apply wrap_range. lia.
Qed.

Lemma verdict_len head patched len : verdict w head = (true, patched, len) -> 0 <= len.
Proof.
  unfold verdict. destruct (w_keep w); [|done]. unfold relay_head_keepalive. destruct (relay_head_end head) as [[i s]|]; [|done].
  destruct (head_status head); [|done]. cbv zeta. destruct (chunked _); [done|]. destruct (_ && _); [done|]. intros [= _ <-]. destruct (bodyless _); [done|].
  destruct (head_lines head i) as [|st fs]; [done|]. destruct (keepalive_lines_of st fs) as (_ & _ & _ & ->). destruct (last _); [apply strtoul_nonneg|done].
Qed.

Lemma take_page_spec now b c x y : pending c x y b -> relay_head_done c = true -> relay_inject c = true -> wp (take_page cfg now b) flowed c.
Proof.
  intros (Hx & Hy & Hw & Hc & Hst & Hp) Hd Hi. destruct Hp as [| head p _ Hh Hpg Hr -> Ht Hk _ Hb Hins | | |]; try congruence.
  unfold take_page, clear_inject. wp_step. wp_step. wp_step. wp_step. members. rewrite Hb. apply (head_of_grow _ b) in Hh.
  destruct (max_page_transform_bytes cfg <? size (p ++ b)).
  - wp_step. apply wp_queue; [cbn [negb]; by wp_step|]. cbn [negb]. do 4 wp_step. members.
    apply (go_on now _ (relay_head_stream_close head ++ p ++ b) (y ++ b)); try done.
    + unfold given in *. members. by rewrite app_assoc, Hx, <- app_assoc.
    + apply (LongPage w _ _ _ head (p ++ b)); members; try done. rewrite Ht, (size_app (relay_head_stream_close head)). lia.
  - apply (go_on now _ (relay_head_stream_close head) (y ++ b)); try done. by eapply HoldingPage.
Qed.

Lemma take_all (b : text) : take (Z.to_nat (size b)) b = b.
Proof. unfold size. rewrite Nat2Z.id. apply firstn_all. Qed.

(** The octets go on as they came. *)
Lemma plain_round now b c x y : pending c x y b -> relay_keep c = false ->
  (forall c', relay_total c' = size b + relay_total c -> relay_keep c' = false -> relay_head_done c' = relay_head_done c -> relay_inject c' = relay_inject c ->
     relay_head c' = relay_head c -> phase w c' (x ++ b) (y ++ b)) ->
  wp (take_body cfg now b) flowed c.
Proof.
  intros (Hx & Hy & Hw & Hc & Hst & _) Hk Hp. unfold take_body. wp_step. wp_step. members. rewrite Hk. cbn [andb]. rewrite take_all.
  assert (Q : forall c', given c' = given c ++ b -> received (k_log c') = received (k_log c) -> relay_keep c' = false -> relay_state c' = Reading ->
    wants w c' -> close_after_flush c' = false -> relay_total c' = relay_total c -> relay_head_done c' = relay_head_done c -> relay_inject c' = relay_inject c -> relay_head c' = relay_head c ->
    wp (modify (fun c => c <| relay_total ::= Z.add (size b) |> <| relay_body_seen ::= Z.add (size b) |>) ;;
        c ← gets id;
        if relay_keep c && (relay_body_len c <=? relay_body_seen c) then ok ← relay_done; mret (Return ok)
        else progress cfg now ;; mret Continue) flowed c').
  { intros c' E1 E2 E3 E4 E5 E6 E7 E8 E9 E10. do 4 wp_step. members. rewrite E3. cbn [andb]. apply (go_on now _ (x ++ b) (y ++ b)); try done.
    - unfold given in *. members. by rewrite E1, Hx, <- app_assoc.
    - members. by rewrite E2.
    - apply Hp; members; try done. by rewrite E7. }
  wp_step. destruct (size b =? 0) eqn:B.
  - wp_step. cbn [negb]. apply Q; try done. apply Z.eqb_eq in B. destruct b; [by rewrite app_nil_r|unfold size in B; cbn in B; lia].
  - apply wp_queue; [cbn [negb]; by wp_step|]. cbn [negb]. apply Q; try done. apply given_queue.
Qed.

Lemma take_body_spec now b c x y : pending c x y b -> relay_head_done c = true -> relay_inject c = false -> wp (take_body cfg now b) flowed c.
Proof.
  intros Hpend Hd Hi. pose proof Hpend as (Hx & Hy & Hw & Hc & Hst & Hp).
  destruct Hp as [|head p _ Hh Hpg Hr -> Ht Hk Hi' Hb Hins|head p _ Hh Hpg Hr -> Ht Hk _|head p patched len _ Hh Hpg Hr Hv -> Ht Hk _ Hl Hs Hlt|head p _ Hh Hpg Hr Hv -> Ht Hk _]; try congruence;
    apply (head_of_grow _ b) in Hh as Hh'.
  - apply (plain_round now b c _ _ Hpend Hk). intros c' E1 E2 E3 E4 E5. apply (LongPage w _ _ _ head (p ++ b)); try congruence; [by rewrite app_assoc|].
    rewrite E1, Ht, (size_app (_ ++ _)). lia.
  - unfold take_body. wp_step. wp_step. members. rewrite Hk, Hl, Hs. cbn [andb]. pose proof (size_nonneg p).
    destruct (len <? size p + size b) eqn:L.
    + apply Z.ltb_lt in L. assert (N : (len - size p =? 0) = false) by (apply Z.eqb_neq; lia). rewrite N. wp_step. apply wp_queue; [cbn [negb]; by wp_step|]. cbn [negb].
      do 4 wp_step. members. rewrite Hk, Hl, Hs. assert (G : (len <=? len - size p + size p) = true) by (apply Z.leb_le; lia). rewrite G. cbn [andb].
      apply wp_return, relay_done_spec. exists (patched ++ p ++ take (Z.to_nat (len - size p)) b), (y ++ b). members.
      split; [unfold given in *; members; by rewrite app_assoc, Hx, <- !app_assoc|]. do 2 (split; [done|]).
      apply (WholeAnswer _ _ _ _ head patched (p ++ take (Z.to_nat (len - size p)) b) (drop (Z.to_nat (len - size p)) b)); try done; [by rewrite <- app_assoc, take_drop|].
      assert (T : size (take (Z.to_nat (len - size p)) b) = len - size p) by (unfold size in *; rewrite length_take; lia).
      rewrite Hv, size_app, T. do 2 f_equal. lia.
    + apply Z.ltb_ge in L. rewrite take_all.
      assert (Q : forall c', given c' = given c ++ b -> received (k_log c') = received (k_log c) -> relay_keep c' = true -> relay_state c' = Reading ->
        wants w c' -> close_after_flush c' = false -> relay_total c' = relay_total c -> relay_head_done c' = true -> relay_inject c' = false -> relay_head c' = [] ->
        relay_body_len c' = len -> relay_body_seen c' = size p ->
        wp (modify (fun c => c <| relay_total ::= Z.add (size b) |> <| relay_body_seen ::= Z.add (size b) |>) ;;
            c ← gets id;
            if relay_keep c && (relay_body_len c <=? relay_body_seen c) then ok ← relay_done; mret (Return ok)
            else progress cfg now ;; mret Continue) flowed c').
      { intros c' E1 E2 E3 E4 E5 E6 E7 E8 E9 E10 E11 E12. do 4 wp_step. members. rewrite E3, E11, E12. cbn [andb].
        assert (HX : given c' = D0 ++ patched ++ p ++ b) by (by rewrite E1, Hx, <- !app_assoc).
        destruct (len <=? size b + size p) eqn:G.
        - apply Z.leb_le in G. apply wp_return, relay_done_spec. exists (patched ++ p ++ b), (y ++ b). members. split; [exact HX|].
          split; [by rewrite E2|]. split; [done|]. apply (WholeAnswer _ _ _ _ head patched (p ++ b) []); try done; [by rewrite app_nil_r|].
          rewrite Hv, size_app. do 2 f_equal. lia.
        - apply Z.leb_gt in G. apply (go_on now _ (patched ++ p ++ b) (y ++ b)); try done; [members; by rewrite E2|].
          apply (KeptBody w _ _ _ head (p ++ b) patched len); members; try done; rewrite ?E7, ?E12, ?Ht, ?size_app; try lia. }
      wp_step. destruct (size b =? 0) eqn:B.
      * wp_step. cbn [negb]. apply Q; try done. apply Z.eqb_eq in B. destruct b; [by rewrite app_nil_r|unfold size in B; cbn in B; lia].
      * apply wp_queue; [cbn [negb]; by wp_step|]. cbn [negb]. apply Q; try done. apply given_queue.
  - apply (plain_round now b c _ _ Hpend Hk). intros c' E1 E2 E3 E4 E5. apply (PlainBody w _ _ _ head (p ++ b)); try congruence; [by rewrite app_assoc|].
    rewrite E1, Ht, (size_app (_ ++ _)). lia.
Qed.

(** Behind the head: what is left of the piece has gone out. *)
Lemma head_sent now c y head rest (keep : bool) patched len (r := if keep && (len <? size rest) then take (Z.to_nat len) rest else rest) (h := if keep then patched else head) :
  head_of y = Some (head, rest) -> is_page w head = false ->
  (keep = true -> verdict w head = (true, patched, len)) -> (keep = false -> (verdict w head).1.1 = false) ->
  given c = D0 ++ h ++ r -> received (k_log c) = U0 ++ y -> wants w c -> close_after_flush c = false -> relay_state c = Reading ->
  relay_head_done c = true -> relay_head c = [] -> relay_keep c = keep -> relay_body_len c = len -> relay_body_seen c = size r ->
  relay_total c = size h + size r -> relay_inject c = false ->
  wp (c ← gets id;
      if relay_keep c && (relay_body_len c <=? relay_body_seen c) then ok ← relay_done; mret (Return ok)
      else progress cfg now ;; mret Continue) flowed c.
Proof.
  intros Hh Hpg V1 V2 Hx Hy Hw Hc Hst Hd Hr Hk Hl Hs Ht Hi. do 2 wp_step. members. rewrite Hk, Hl, Hs. unfold r, h in *. clear r h. destruct keep; cbn [andb] in *.
  - specialize (V1 eq_refl). apply verdict_len in V1 as Hlen. destruct (len <? size rest) eqn:L.
    + apply Z.ltb_lt in L. assert (T : size (take (Z.to_nat len) rest) = len) by (unfold size in *; rewrite length_take; lia).
      rewrite T, Z.leb_refl. apply wp_return, relay_done_spec. exists (patched ++ take (Z.to_nat len) rest), y. rewrite Hk. do 3 (split; [done|]).
      apply (WholeAnswer _ _ _ _ head patched (take (Z.to_nat len) rest) (drop (Z.to_nat len) rest)); try done; [by rewrite take_drop|by rewrite T].
    + apply Z.ltb_ge in L. destruct (len <=? size rest) eqn:G.
      * apply Z.leb_le in G. apply wp_return, relay_done_spec. exists (patched ++ rest), y. rewrite Hk. do 3 (split; [done|]).
        apply (WholeAnswer _ _ _ _ head patched rest []); try done; [by rewrite app_nil_r|]. rewrite V1. do 2 f_equal. lia.
      * apply Z.leb_gt in G. apply (go_on now _ (patched ++ rest) y); try done. apply (KeptBody w _ _ _ head rest patched len); members; try done. by rewrite Ht, size_app.
  - apply (go_on now _ (head ++ rest) y); try done. apply (PlainBody w _ _ _ head rest); members; try done; [by apply V2|by rewrite Ht, size_app].
Qed.

Lemma take_head_spec now b c x y : pending c x y b -> relay_head_done c = false -> wp (take_head cfg now b) flowed c.
Proof.
  intros (Hx & Hy & Hw & Hc & Hst & Hp) Hd. destruct Hp as [_ -> <- Hn Ht Hk Hi Hs Hb Hins| | | |]; try congruence. pose proof Hw as (Hg & Hkw).
  unfold take_head. do 4 wp_step. members. destruct (relay_head_end (relay_head c ++ b)) as [[hend sep]|] eqn:He.
  2: { destruct (8192 <? _).
    - apply wp_return, relay_fail_spec. exists [], (relay_head c ++ b). do 4 (split; [done|]). split; [members; by rewrite Hst|]. by apply BeforeHead.
    - apply (go_on now _ [] (relay_head c ++ b)); try done. by apply BeforeHead. }
  assert (Hh : head_of (relay_head c ++ b) = Some (take (hend + sep) (relay_head c ++ b), drop (hend + sep) (relay_head c ++ b))) by (unfold head_of; by rewrite He).
  set (head := take (hend + sep) (relay_head c ++ b)) in *. set (rest := drop (hend + sep) (relay_head c ++ b)) in *. cbv zeta.
  do 2 wp_step. rewrite Hg. fold (is_page w head). destruct (is_page w head) eqn:Hpg.
  - wp_step. apply wp_queue; [cbn [negb]; by wp_step|]. cbn [negb]. do 2 wp_step. members.
    apply (go_on now _ (relay_head_stream_close head) (relay_head c ++ b)); try done.
    + unfold given in *. members. rewrite app_assoc, Hx. by rewrite app_nil_r.
    + apply (HoldingPage w _ _ _ head rest); members; try done. rewrite Ht. lia.
  - rewrite Hkw.
    assert (V : exists keep patched len, (if w_keep w then relay_head_keepalive head else (false, head, relay_body_len c)) = (keep, patched, len)
      /\ (keep = true -> verdict w head = (true, patched, len)) /\ (keep = false -> (verdict w head).1.1 = false)).
    { unfold verdict. destruct (w_keep w); [|by exists false, head, (relay_body_len c)]. destruct (relay_head_keepalive head) as [[k pt] l].
      exists k, pt, l. split; [done|]. split; intros ->; done. }
    members. destruct V as (keep & patched & len & -> & V1 & V2). do 2 wp_step. members. wp_step. apply wp_queue; [cbn [negb]; by wp_step|]. cbn [negb]. do 2 wp_step. members.
    set (h := if keep then patched else head) in *. clearbody head rest.
    assert (G : given c = D0) by (by rewrite Hx, app_nil_r). wp_step. destruct rest as [|r0 rs].
    + wp_step. cbn [negb]. apply (head_sent now _ (relay_head c ++ b) head [] keep patched len); try done; members; rewrite ?Hs, ?Ht, ?Hi, ?Hc, ?Hst; try done.
      * fold h. unfold given in *. members. rewrite app_assoc, G. f_equal. destruct (keep && _); by rewrite ?take_nil, app_nil_r.
      * destruct (keep && _); by rewrite ?take_nil.
      * fold h. destruct (keep && _); rewrite ?take_nil; change (size []) with 0; lia.
    + wp_step. apply wp_queue; [cbn [negb]; wp_step; cbn [negb]; by wp_step|]. cbn [negb]. do 3 wp_step. members. cbn [negb].
      apply (head_sent now _ (relay_head c ++ b) head (r0 :: rs) keep patched len); try done; members; rewrite ?Hs, ?Ht, ?Hi, ?Hc, ?Hst; try done.
      * fold h. unfold given in *. members. by rewrite <- G, <- !app_assoc.
      * lia.
      * fold h. lia.
Qed.

Lemma phase_log ev c x y : phase w c x y -> phase w (c <| k_log ::= cons ev |>) x y.
Proof. intros Hp. by destruct Hp; [eapply BeforeHead|eapply HoldingPage|eapply LongPage|eapply KeptBody|eapply PlainBody]. Qed.

Lemma read_round_spec now c : holds c -> relay_state c = Reading -> wp (read_round cfg now) flowed c.
Proof.
  intros (x & y & Hx & Hy & Hw & Hc & Hq & Hp) Hst. unfold read_round. wp_step. apply wp_kernel.
  assert (G : forall ev, (forall b n, ev <> SendDown b (Took n)) -> given (c <| k_log ::= cons ev |>) = D0 ++ x) by (intros ev N; by rewrite given_log).
  assert (Hq' : forall ev, relay_state (c <| k_log ::= cons ev |>) = Queued -> x = [] /\ y = []) by (intros ev; members; by rewrite Hst).
  destruct (k_recv_up (k_log c)) as [b| |].
  - destruct b as [|b0 bs].
    + apply wp_return, at_eof_spec. exists x, y. split; [by apply G|]. split; [members; unfold piece; by rewrite take_nil, app_nil_r|]. do 2 (split; [done|]).
      split; [apply Hq'|]. by apply phase_log.
    + cbv zeta. do 2 wp_step. fold (piece (b0 :: bs)). set (b := b0 :: bs) in *.
      assert (P : pending (c <| k_log ::= cons (RecvUp (Got b)) |>) x y (piece b)).
      { split; [by apply G|]. split; [members; by rewrite Hy, <- app_assoc|]. do 3 (split; [done|]).
        by apply phase_log. }
      members. destruct (negb (relay_file c) && _).
      * apply wp_return. apply (relay_fail_any _ _ _ x (y ++ piece b)); [by apply G|members; by rewrite Hy, <- app_assoc|].
        members. apply phase_total in Hp. destruct Hp as [(-> & _)|]; auto.
      * destruct (relay_head_done c) eqn:Hd; cbn [negb]; [|by apply (take_head_spec now _ _ x y)].
        destruct (relay_inject c) eqn:Hi; [by apply (take_page_spec now _ _ x y)|by apply (take_body_spec now _ _ x y)].
  - wp_step. intros _. left. split; [members; by rewrite Hst|]. exists x, y. split; [by apply G|]. do 3 (split; [done|]). split; [apply Hq'|].
    by apply phase_log.
  - apply wp_return, relay_fail_spec. exists x, y. split; [by apply G|]. do 3 (split; [done|]). split; [apply Hq'|].
    by apply phase_log.
Qed.

Lemma read_loop_spec now fuel : forall c, holds c -> relay_state c = Reading ->
  wp (read_loop cfg fuel now) (fun r c' => match r with Some ok => after ok c' | None => relay_state c' = Reading /\ holds c' end) c.
Proof.
  induction fuel as [|fuel IH]; intros c Hh Hst; cbn [read_loop]; [by wp_step|]. do 2 wp_step. members. destruct (max_out_buffer cfg <=? size (out c)).
  - unfold progress. do 3 wp_step. intros _. left. members. split; [by rewrite Hst|]. destruct Hh as (x & y & Hx & Hy & Hw & Hc & Hq & Hp).
    exists x, y. do 5 (split; [done|]). by destruct Hp; [eapply BeforeHead|eapply HoldingPage|eapply LongPage|eapply KeptBody|eapply PlainBody].
  - wp_step. eapply wp_mono; [by apply read_round_spec|]. intros [|ok] c' Hf; [destruct Hf as [Hs Hh']; by apply IH|by wp_step].
Qed.

Lemma pump_reading_spec now c : holds c -> relay_state c = Reading -> wp (pump_reading cfg now) after c.
Proof.
  intros Hh Hst. unfold pump_reading. wp_step. eapply wp_mono; [by apply read_loop_spec|]. intros [ok|] c' Hr; wp_step; [exact Hr|].
  intros _. left. destruct Hr as [Hs Hr]. by rewrite Hs.
Qed.

(** Members a reply does not look at. *)
Lemma holds_other c c' : holds c -> given c' = given c -> received (k_log c') = received (k_log c) ->
  relay_get c' = relay_get c -> keep_alive_wanted c' = keep_alive_wanted c -> close_after_flush c' = close_after_flush c -> (relay_state c' = Queued -> relay_state c = Queued) ->
  relay_head_done c' = relay_head_done c -> relay_head c' = relay_head c -> relay_total c' = relay_total c -> relay_keep c' = relay_keep c -> relay_inject c' = relay_inject c ->
  relay_body_seen c' = relay_body_seen c -> relay_body_len c' = relay_body_len c -> relay_inject_buf c' = relay_inject_buf c -> relay_inject_cards c' = relay_inject_cards c ->
  relay_inject_preview c' = relay_inject_preview c -> relay_preview_stream c' = relay_preview_stream c -> holds c'.
Proof.
  intros (x & y & Hx & Hy & [Hw1 Hw2] & Hc & Hq & Hp) E1 E2 E3 E4 E5 E6 E7 E8 E9 E10 E11 E12 E13 E14 E15 E16 E17.
  exists x, y. split; [by rewrite E1|]. split; [by rewrite E2|]. split; [split; congruence|]. split; [congruence|]. split; [by intros ?%E6%Hq|].
  assert (I : inserts w c -> inserts w c') by (unfold inserts; by rewrite E15, E16, E17).
  destruct Hp; [apply BeforeHead|eapply HoldingPage|eapply LongPage|eapply KeptBody|eapply PlainBody]; try congruence; eauto; congruence.
Qed.

Lemma request_write_spec now fuel : forall c, holds c -> relay_state c = Writing ->
  wp (write_loop cfg fuel now) (fun r c' => match r with Some ok => after ok c' | None => relay_state c' = Writing /\ holds c' end) c.
Proof.
  induction fuel as [|fuel IH]; intros c Hh Hst; cbn [write_loop]; [by wp_step|]. do 2 wp_step. members.
  destruct (length (relay_req c) <=? relay_off c)%nat; [by wp_step|]. cbv zeta. wp_step. apply wp_kernel.
  set (ev := SendUp _ _). assert (Hh' : holds (c <| k_log ::= cons ev |>)) by (eapply holds_other; [exact Hh| | | | | | | | | | | | | | | | |]; done).
  destruct (k_send_up _ _) as [[|n]| |].
  - wp_step. eapply wp_mono; [by apply relay_fail_spec|]. intros ok c' Ha. by wp_step.
  - unfold progress. do 4 wp_step. apply IH; [|done]. eapply holds_other; [exact Hh'| | | | | | | | | | | | | | | | |]; done.
  - wp_step. intros _. left. members. split; [by rewrite Hst|done].
  - wp_step. eapply wp_mono; [by apply relay_fail_spec|]. intros ok c' Ha. by wp_step.
Qed.

Lemma pump_writing_spec now c : holds c -> relay_state c = Writing \/ relay_state c = Reading -> wp (pump_writing cfg now) after c.
Proof.
  intros Hh Hst. unfold pump_writing. do 2 wp_step. members. wp_step.
  assert (K : forall c', holds c' -> wp (modify (fun c => c <| relay_state := Reading |>) ;; pump_reading cfg now) after c').
  { intros c' Hh'. do 2 wp_step. apply pump_reading_spec; [|done]. eapply holds_other; [exact Hh'| | | | | | | | | | | | | | | | |]; done. }
  destruct (bool_decide_reflect (relay_state c = Writing)) as [Hw|Hw].
  - eapply wp_mono; [by apply request_write_spec|]. intros [ok|] c' Hr; [by wp_step|]. apply K. by destruct Hr.
  - wp_step. by apply K.
Qed.

Lemma relay_open_spec now c x y : given c = D0 ++ x -> received (k_log c) = U0 ++ y -> x = [] -> y = [] -> wants w c -> close_after_flush c = false -> phase w c x y ->
  wp (relay_open cfg now) after c.
Proof.
  intros Hx Hy -> -> Hw Hc Hp. unfold relay_open, log_. wp_step. apply wp_kernel. set (c1 := c <| k_log ::= _ |>).
  assert (Hh : holds (c1 <| relay_state := Writing |>)).
  { exists [], []. split; [done|]. split; [done|]. split; [done|]. split; [done|]. split; [done|].
    by destruct Hp; [eapply BeforeHead|eapply HoldingPage|eapply LongPage|eapply KeptBody|eapply PlainBody]. }
  assert (R : forall s m c2, given c2 = given c -> received (k_log c2) = received (k_log c) ->
    wp (queue cfg (plain s m) 0 ;; modify (fun c => c <| close_after_flush := true |>) ;; mret true) after (c2 <| relay_state := RelayNone |>)).
  { intros s m c2 E1 E2. wp_step. apply wp_queue; do 3 wp_step; intros _; right; (split; [done|]).
    - exists [], []. split; [by rewrite <- Hx, <- E1|]. split; [members; by rewrite E2|]. by apply NoHead.
    - exists (plain s m), []. split; [|split; [members; by rewrite E2|by eapply Refusal]]. unfold given in *. members. by rewrite app_assoc, E1, Hx, app_nil_r. }
  assert (G : forall st d, st = Writing \/ st = Connecting -> after true (c1 <| relay_fd := true |> <| relay_state := st |> <| relay_idle_deadline_ms := d |>)).
  { intros st d Hst _. left. split; [by destruct Hst as [-> | ->]|]. eapply holds_other; [exact Hh| | | | | | | | | | | | | | | | |]; try done. by destruct Hst as [-> | ->]. }
  destruct (k_open (k_log c)); do 2 wp_step.
  - by apply (R _ _ c1).
  - do 2 wp_step. by apply (R _ _ (c1 <| k_log ::= cons Close |>)).
  - wp_step. apply G. by left.
  - wp_step. apply G. by right.
Qed.

Lemma pump_relay_spec re inflight now now2 c : holds c -> relay_state c <> RelayNone -> wp (pump_relay cfg re inflight now now2) after c.
Proof.
  intros Hh Hn. unfold pump_relay. do 2 wp_step. members. destruct (bool_decide_reflect (relay_state c = Queued)) as [Hqd|Hqd].
  - pose proof Hh as (x & y & Hx & Hy & Hw & Hc & Hq & Hp). destruct (Hq Hqd) as [-> ->]. destruct (relay_idle_deadline_ms c <=? now).
    + do 2 wp_step. apply wp_queue; [done|]. intros _. right. split; [done|]. exists (plain 503 (line_of "OpenIPC WebUI backend is busy")), [].
      split; [|split; [done|by eapply Refusal]]. unfold given in *. members. by rewrite app_assoc, Hx, app_nil_r.
    + destruct (_ <=? inflight)%nat; [wp_step; intros _; by left|]. by apply (relay_open_spec now2 c [] []).
  - destruct (nval re); [by apply relay_fail_spec|]. destruct (negb (relay_file c) && _); [by apply relay_fail_spec|].
    destruct (relay_idle_deadline_ms c <=? now); [by apply relay_fail_spec|]. destruct (bool_decide_reflect (relay_state c = Connecting)) as [Hcn|Hcn].
    + destruct (err_or_hup re); [by apply relay_fail_spec|]. destruct (writable re); cbn [negb]; [|wp_step; intros _; by left].
      wp_step. apply wp_kernel. assert (Hh' : holds (c <| k_log ::= cons (SoError (k_error (k_log c))) |>)) by (eapply holds_other; [exact Hh| | | | | | | | | | | | | | | | |]; done).
      destruct (k_error (k_log c)); [by apply relay_fail_spec|]. unfold progress. do 4 wp_step. apply pump_writing_spec; [|by left].
      eapply holds_other; [exact Hh'| | | | | | | | | | | | | | | | |]; done.
    + apply pump_writing_spec; [done|]. destruct (relay_state c); auto; congruence.
Qed.

(** A flush gives the browser what is in the buffer, and changes nothing else. *)
Lemma flush_loop_spec fuel : forall c, wp (flush_loop fuel) (fun _ c' => exists l o, c' = c <| k_log := l |> <| out := o |> /\ given c' = given c /\ received l = received (k_log c)) c.
Proof.
  assert (R : forall c, c = c <| k_log := k_log c |> <| out := out c |>) by (by intros []).
  induction fuel as [|fuel IH]; intros c; cbn [flush_loop]; [wp_step; exists (k_log c), (out c); by rewrite <- R|]. do 2 wp_step. members.
  destruct (out c) as [|o0 os] eqn:O; [wp_step; exists (k_log c), (out c); by rewrite <- R|]. rewrite <- O in *. wp_step. apply wp_kernel.
  destruct (k_send_down (k_log c) (out c)) as [[|n]| |]; try (wp_step; eexists _, (out c); split; [by destruct c|]; split; [|done]; unfold given; members; rewrite ?take_0, ?app_nil_r; done).
  do 2 wp_step. eapply wp_mono; [apply IH|]. intros _ c' (l & o & -> & E1 & E2). exists l, o. members. split; [done|]. split; [|done].
  rewrite E1. unfold given. members. by rewrite <- app_assoc, take_drop.
Qed.
End Reply.

(** ** Histories of a reply *)

Inductive op :=
| Pump (re : Revents) (inflight : nat) (now now2 : Z)
| Flush.

Definition step `{Kernel} (cfg : ServerConfig) (o : op) : ST Client bool :=
  match o with Pump re inflight now now2 => pump_relay cfg re inflight now now2 | Flush => flush end.

(** The client is dropped where a step returns false; the reply is over where there is no
    relay any more. *)
Fixpoint run `{Kernel} (cfg : ServerConfig) (ops : list op) (c : Client) : bool * Client :=
  match ops with
  | [] => (true, c)
  | o :: ops =>
      if bool_decide (relay_state c = RelayNone) then (true, c) else
      let '(ok, c') := step cfg o c in
      if ok then run cfg ops c' else (false, c')
  end.

Definition wants_of (req : Request) (preview sub : bool) : Wants :=
  let get := text_eqb (method req) (txt "GET") in
  {| w_get := get; w_keep := keep_alive req; w_cards := get && text_eqb (path req) (txt "/cgi-bin/network.cgi");
     w_preview := get && text_eqb (path req) (txt "/cgi-bin/dashboard.cgi") && preview; w_stream := if sub then 1 else 0 |}.

Section Histories.
Context `{Kernel} (cfg : ServerConfig).

Lemma relay_upstream_spec req preview sub inflight now c : close_after_flush c = false ->
  wp (relay_upstream cfg req preview sub inflight now) (after (wants_of req preview sub) (given c) (received (k_log c))) c.
Proof.
  intros Hc. unfold relay_upstream. do 6 wp_step. members. set (w := wants_of req preview sub).
  assert (E : text_eqb (method req) (txt "GET") && text_eqb (path req) (txt "/cgi-bin/dashboard.cgi") && preview = w_preview w) by done.
  rewrite E. wp_step.
  assert (K : forall c1, relay_inject_preview c1 = w_preview w -> (w_preview w = true -> relay_preview_stream c1 = w_stream w) ->
    relay_get c1 = w_get w -> relay_head_done c1 = false -> relay_head c1 = [] -> relay_total c1 = 0 -> relay_keep c1 = false -> relay_inject c1 = false ->
    relay_body_seen c1 = 0 -> relay_inject_buf c1 = [] -> relay_inject_cards c1 = w_cards w -> given c1 = given c -> k_log c1 = k_log c -> close_after_flush c1 = false ->
    wp (modify (fun c => c <| keep_alive_wanted := keep_alive req |>
          <| relay_idle_deadline_ms := now + relay_timeout_ms cfg |> <| relay_abs_deadline_ms := now + relay_max_ms cfg |>
          <| relay_what := method req ++ txt " " ++ path req |>) ;;
        if (max_relay_inflight cfg <=? inflight)%nat then modify (fun c => c <| relay_state := Queued |>) ;; mret true
        else relay_open cfg now) (after w (given c) (received (k_log c))) c1).
  { intros c1 E1 E2 E3 E4 E5 E6 E7 E8 E9 E10 E11 E12 E13 E14. do 2 wp_step.
    assert (P : forall c2, relay_head_done c2 = false -> relay_head c2 = [] -> relay_total c2 = 0 -> relay_keep c2 = false -> relay_inject c2 = false ->
      relay_body_seen c2 = 0 -> relay_inject_buf c2 = [] -> inserts w c2 -> phase w c2 [] []) by (intros; by apply BeforeHead).
    destruct (_ <=? inflight)%nat.
    - do 3 wp_step. intros _. left. split; [done|]. exists [], []. members. split; [by rewrite app_nil_r|]. split; [by rewrite app_nil_r, E13|].
      split; [done|]. split; [done|]. split; [done|]. by apply P.
    - apply (relay_open_spec _ _ _ _ _ _ [] []); members; try done; [by rewrite app_nil_r|by rewrite app_nil_r, E13|]. by apply P. }
  apply wp_when; intros Hprev.
  - wp_step. apply K; members; try done.
  - apply K; members; try done. by rewrite Hprev.
Qed.

Lemma run_spec w D0 U0 ops : forall c, holds w D0 U0 c -> relay_state c <> RelayNone ->
  let '(ok, c') := run cfg ops c in after w D0 U0 ok c'.
Proof.
  induction ops as [|o ops IH]; intros c Hh Hn; cbn [run]; [intros _; by left|].
  destruct (bool_decide_reflect (relay_state c = RelayNone)); [done|].
  assert (S : wp (step cfg o) (after w D0 U0) c).
  { destruct o as [re k now now2|]; cbn [step]; [by apply pump_relay_spec|]. unfold flush. do 2 wp_step.
    eapply wp_mono; [apply flush_loop_spec|]. intros ok c' (l & o & -> & E1 & E2) _. left. split; [done|].
    eapply holds_other; [exact Hh|exact E1|exact E2| | | | | | | | | | | | | | | ]; done. }
  unfold wp, result, exec in S. destruct (step cfg o c) as [[] c']; [|done]. cbn [fst snd] in S. destruct (S eq_refl) as [[Hn' Hh']|[Hs Ho]].
  - by apply IH.
  - assert (E : run cfg ops c' = (true, c')) by (destruct ops; cbn [run]; [done|]; by rewrite bool_decide_eq_true_2). rewrite E. intros _. by right.
Qed.

Lemma reply_shape `{Probe} req web_root preview sub inflight now ops c c1 c2 (fr := (file_get_rewrite req web_root).2) :
  close_after_flush c = false -> relay_request cfg req web_root preview sub inflight now c = (true, c1) -> run cfg ops c1 = (true, c2) ->
  exists x y, given c2 = given c ++ x /\ received (k_log c2) = received (k_log c) ++ y
    /\ (relay_state c2 <> RelayNone -> phase (wants_of fr preview sub) c2 x y)
    /\ (relay_state c2 = RelayNone -> ended (wants_of fr preview sub) (close_after_flush c2) x y).
Proof.
  intros Hc Hreq Hrun. unfold relay_request in Hreq. subst fr. destruct (file_get_rewrite req web_root) as [file fr]. cbn [snd].
  assert (A : after (wants_of fr preview sub) (given c) (received (k_log c)) true c1).
  { pose proof (relay_upstream_spec fr preview sub inflight now c Hc) as W. unfold wp, result, exec in W.
    unfold mbind, st_bind, modify, mret, st_ret in Hreq. destruct (relay_upstream cfg fr preview sub inflight now c) as [ok c0].
    injection Hreq as -> <-. intros _. destruct (W eq_refl) as [[Hn Hh]|[Hs (x & y & Ho)]]; [left|right]; (split; [done|]).
    - eapply holds_other; [exact Hh| | | | | | | | | | | | | | | | |]; done.
    - by exists x, y. }
  assert (F : after (wants_of fr preview sub) (given c) (received (k_log c)) true c2).
  { destruct (A eq_refl) as [[Hn Hh]|[Hs Ho]].
    - pose proof (run_spec _ _ _ ops c1 Hh Hn) as R. by rewrite Hrun in R.
    - assert (E : run cfg ops c1 = (true, c1)) by (destruct ops; cbn [run]; [done|]; by rewrite bool_decide_eq_true_2). rewrite E in Hrun. injection Hrun as <-. intros _. by right. }
  destruct (F eq_refl) as [[Hn (x & y & Hx & Hy & _ & _ & _ & Hp)]|[Hs (x & y & Hx & Hy & He)]]; exists x, y; do 2 (split; [done|]); split; done || congruence.
Qed.

End Histories.

(** A web interface that answers a style sheet in two pieces, and an octet too much. *)
Definition css_body : text := repeat "x"%char 512.

#[local] Instance css_upstream : Kernel := {
  k_open := fun _ => InProgress;
  k_error := fun _ => false;
  k_send_up := fun _ b => Took (length b);
  k_recv_up := fun l => match length (List.filter (fun e => match e with RecvUp _ => true | _ => false end) l) with
                        | O => Got (css_head ++ take 100 css_body) | 1%nat => RecvAgain | 2%nat => Got (drop 100 css_body ++ txt "!") | _ => Got [] end;
  k_send_down := fun _ _ => SendAgain
}.

#[local] Instance no_file : Probe := fun _ => -1.

Definition small_server : ServerConfig :=
  {| max_out_buffer := 1024; relay_timeout_ms := 1000; relay_max_ms := 5000; max_relay_inflight := 2; max_relay_bytes := 4096;
     max_page_transform_bytes := 1024; upstream_host := txt "127.0.0.1" |}.

Definition css_request : Request := Build_Request (txt "GET") (txt "/a.css") [] [] [] 0 true.
Definition ready : Revents := {| nval := false; err_or_hup := false; writable := true |}.
Definition css_ops : list op := [Pump ready 1 10 10; Flush; Pump ready 1 20 20].
Definition css_asked : Client := (relay_request small_server css_request [] false false 0 0 new_client).2.
Definition css_given : Client := (run small_server css_ops css_asked).2.



(** A web interface that ends within its head: the browser gets no octet and a closed
    connection, not the refusal [relay_fail] has for an answer that did not begin. *)
Definition head_cut_short : Kernel := {|
  k_open := fun _ => Connected; k_error := fun _ => false; k_send_up := fun _ b => Took (length b);
  k_recv_up := fun l => match l with RecvUp _ :: _ => Got [] | _ => Got (txt "HTTP/1.0 200 OK" ++ CRLF) end; k_send_down := fun _ _ => SendAgain
|}.

Example cut_head_is_silence :
  let c := (@run head_cut_short small_server [Pump ready 1 10 10] (@relay_request head_cut_short small_server no_file css_request [] false false 0 0 new_client).2).2 in
  relay_state c = RelayNone /\ close_after_flush c = true /\ given c = [].
Proof. by vm_compute. Qed.
