(* ===== verification/HttpRelayLife.v ===== *)
(** * The relay as a tenant: loops, buffers, sockets

    Whatever the two peers do: every loop ends by itself, the buffers of a client stay
    within what the limits say, a socket to the web interface is closed exactly once and
    there are never more than allowed, and a reply has an end in time. *)

From S2P Require Import Prelude Text HttpParse HttpHeadSpec HttpRelay HttpRelaySpec.

(** ** The loops end *)

Definition room (n : Z) (s : text) : Z := Z.max 0 (n - size s).

(** Rounds left to a reply. *)
Definition rounds (cfg : ServerConfig) (c : Client) : Z :=
  room (max_out_buffer cfg) (out c)
  + if relay_head_done c then (if relay_inject c then 1 + room (max_page_transform_bytes cfg + 1) (relay_inject_buf c) else 0)
    else max_page_transform_bytes cfg + 3 + room (buf_size + 1) (relay_head c).

Section Loops.
Context `{Kernel} (cfg : ServerConfig).
Hypothesis page_size : 0 <= max_page_transform_bytes cfg.

(** A round that goes on leaves fewer to come. *)
Definition fewer (n : Z) (f : Flow) (c : Client) : Prop := f = Continue -> rounds cfg c < n.

Lemma room_app n s t : t <> [] -> size s < n -> room n (s ++ t) < room n s.
Proof. intros Ht%nonempty_size Hs. unfold room. rewrite size_app. lia. Qed.

Lemma room_le n s t : room n (s ++ t) <= room n s.
Proof. pose proof (size_nonneg t). unfold room. rewrite size_app. lia. Qed.

Lemma room_at_most n s : 0 <= n -> 0 <= room n s <= n.
Proof. pose proof (size_nonneg s). unfold room. lia. Qed.

Lemma wp_whatever {A} (m : ST Client A) (Q : A -> Client -> Prop) c : (forall a c', Q a c') -> wp m Q c.
Proof. intros HQ. unfold wp. apply HQ. Qed.

Lemma fewer_return (m : ST Client bool) n c : wp (ok ← m; mret (Return ok)) (fewer n) c.
Proof. wp_step. apply wp_whatever. intros ok c'. wp_step. done. Qed.

Lemma done_or_on now n (b : Client -> bool) c : rounds cfg c < n ->
  wp (c ← gets id; if b c then ok ← relay_done; mret (Return ok) else progress cfg now ;; mret Continue) (fewer n) c.
Proof. intros Hc. do 3 wp_step; [by apply fewer_return|]. unfold progress. do 3 wp_step. intros _. exact Hc. Qed.

Lemma on now n c : rounds cfg c < n -> wp (progress cfg now ;; mret Continue) (fewer n) c.
Proof. intros Hc. unfold progress. do 3 wp_step. intros _. exact Hc. Qed.

(** A state is known by four members from here on. *)
Ltac forget_how P :=
  match goal with |- wp _ _ ?x => assert (F : P x) by done; generalize dependent x; intros c1 (F & F1 & F2 & F3) end.

Lemma take_head_fewer now b c : b <> [] -> relay_head_done c = false -> wp (take_head cfg now b) (fewer (rounds cfg c)) c.
Proof.
  intros Hb Hd. unfold take_head. do 4 wp_step. members. destruct (relay_head_end (relay_head c ++ b)) as [[hend sep]|] eqn:He; cbv zeta.
  - set (head := take _ _). set (rest := drop _ _). do 2 wp_step. wp_step.
    + wp_step. apply wp_queue; cbn [negb]; [by wp_step|]. do 2 wp_step. apply on. unfold rounds. members. rewrite Hd.
      pose proof (room_le (max_out_buffer cfg) (out c) (relay_head_stream_close head)). pose proof (room_at_most (max_page_transform_bytes cfg + 1) rest). unfold room in *. lia.
    + destruct (if keep_alive_wanted c then _ else _) as [[keep patched] len]. do 3 wp_step.
      set (sh := if keep then patched else _). set (n := rounds cfg c).
      assert (K : forall c' r, out c' = out c ++ r -> relay_head_done c' = true -> relay_inject c' = relay_inject c -> relay_inject_buf c' = relay_inject_buf c ->
        rounds cfg c' < n).
      { intros c' r Ho Hd' Hi Hi'. subst n. unfold rounds. rewrite Hd, Hd', Hi, Hi', Ho. pose proof (room_at_most (max_page_transform_bytes cfg + 1) (relay_inject_buf c)).
        pose proof (room_le (max_out_buffer cfg) (out c) r). destruct (relay_inject c); unfold room in *; lia. }
      clearbody n sh. apply wp_queue; cbn [negb]; [by wp_step|].
      forget_how (fun c' => out c' = out c ++ sh /\ relay_head_done c' = true /\ relay_inject c' = relay_inject c /\ relay_inject_buf c' = relay_inject_buf c).
      do 3 wp_step. destruct rest as [|r0 rs].
      * wp_step. cbn [negb]. apply (done_or_on _ _ (fun c => relay_keep c && _)). by apply (K _ sh).
      * wp_step. apply wp_queue; cbn [negb]; [wp_step; cbn [negb]; by wp_step|]. set (r := if _ : bool then _ else _). clearbody r. do 3 wp_step. cbn [negb].
        apply (done_or_on _ _ (fun c => relay_keep c && _)). apply (K _ (sh ++ r)); members; [by rewrite F, app_assoc|done..].
  - wp_step; [by apply fewer_return|]. apply Z.ltb_ge in E. apply on. unfold rounds. members. rewrite Hd.
    pose proof (nonempty_size b Hb). unfold room. rewrite size_app in *. change buf_size with 8192. lia.
Qed.

Lemma take_page_fewer now b c : b <> [] -> relay_head_done c = true -> relay_inject c = true -> wp (take_page cfg now b) (fewer (rounds cfg c)) c.
Proof.
  intros Hb Hd Hi. unfold take_page. do 5 wp_step; members.
  - wp_step. apply wp_queue; cbn [negb]; [by wp_step|]. unfold clear_inject. do 4 wp_step. apply on. unfold rounds. members. rewrite Hd, Hi.
    pose proof (room_le (max_out_buffer cfg) (out c) (relay_inject_buf c ++ b)). pose proof (room_at_most (max_page_transform_bytes cfg + 1) (relay_inject_buf c)). lia.
  - apply Z.ltb_ge in E. apply on. unfold rounds. members. rewrite Hd, Hi.
    pose proof (nonempty_size b Hb). unfold room. rewrite size_app in *. lia.
Qed.

Lemma take_body_fewer now b c : b <> [] -> relay_head_done c = true -> relay_inject c = false -> size (out c) < max_out_buffer cfg ->
  wp (take_body cfg now b) (fewer (rounds cfg c)) c.
Proof.
  intros Hb Hd Hi Ho. unfold take_body. do 2 wp_step. members. cbv zeta. set (t := if relay_keep c && _ then _ else _). pose proof (nonempty_size b Hb) as Hs.
  assert (G : forall c', relay_keep c' = relay_keep c -> relay_body_len c' = relay_body_len c -> relay_body_seen c' = relay_body_seen c -> relay_head_done c' = true -> relay_inject c' = false ->
      (t = size b -> room (max_out_buffer cfg) (out c') < room (max_out_buffer cfg) (out c)) ->
      wp (modify (fun c => c <| relay_total ::= Z.add t |> <| relay_body_seen ::= Z.add t |>) ;; c ← gets id;
        if relay_keep c && (relay_body_len c <=? relay_body_seen c) then ok ← relay_done; mret (Return ok) else progress cfg now ;; mret Continue) (fewer (rounds cfg c)) c').
  { intros c' E1 E2 E3 E4 E5 Hroom. do 5 wp_step; [by apply fewer_return|]. members. apply on. unfold rounds. members. rewrite Hd, Hi, E4, E5.
    enough (t = size b) by (specialize (Hroom ltac:(done)); lia). subst t. rewrite E1, E2, E3 in E. destruct (relay_keep c); [|done]. cbn [andb] in *.
    destruct (relay_body_len c <? relay_body_seen c + size b) eqn:L; [|done]. apply Z.leb_gt in E. lia. }
  do 2 wp_step.
  - wp_step. cbn [negb]. apply G; try done. intros Ht. apply Z.eqb_eq in E. lia.
  - apply wp_queue; cbn [negb]; [by wp_step|]. apply G; members; try done. intros ->. apply room_app; [|done].
    unfold size. rewrite Nat2Z.id, firstn_all. done.
Qed.

Lemma read_round_fewer now c : size (out c) < max_out_buffer cfg -> wp (read_round cfg now) (fewer (rounds cfg c)) c.
Proof.
  intros Ho. unfold read_round. wp_step. apply wp_kernel. destruct (k_recv_up (k_log c)) as [[|b0 bs]| |]; try apply fewer_return; [|by wp_step].
  set (ev := RecvUp _). set (b := take (Z.to_nat buf_size) (b0 :: bs)). assert (Hb : b <> []) by done. cbv zeta. do 2 wp_step. wp_step; [apply fewer_return|].
  change (rounds cfg c) with (rounds cfg (c <| k_log ::= cons ev |>)). wp_step; [apply negb_true_iff in E0; by apply take_head_fewer|].
  apply negb_false_iff in E0. wp_step; [by apply take_page_fewer|by apply take_body_fewer].
Qed.

Lemma read_loop_some now fuel : forall c, rounds cfg c < Z.of_nat fuel -> wp (read_loop cfg fuel now) (fun r _ => r <> None) c.
Proof.
  induction fuel as [|fuel IH]; intros c Hf.
  - exfalso. pose proof (room_at_most (max_page_transform_bytes cfg + 1) (relay_inject_buf c)). unfold rounds, room in *.
    destruct (relay_head_done c), (relay_inject c); lia.
  - cbn [read_loop]. do 3 wp_step; [unfold progress; wp_go; done|]. apply Z.leb_gt in E. wp_step. eapply wp_mono; [by apply read_round_fewer|].
    intros [|ok] c' Hc'; [apply IH; specialize (Hc' eq_refl); cbn [id] in *; lia|by wp_step].
Qed.

Lemma request_written now fuel : forall c, (length (relay_req c) - relay_off c < fuel)%nat ->
  wp (write_loop cfg fuel now) (fun r c' => r = None -> (length (relay_req c') <= relay_off c')%nat) c.
Proof.
  induction fuel as [|fuel IH]; intros c Hf; [lia|]. cbn [write_loop]. do 2 wp_step. members. wp_step; [wp_step; by apply Nat.leb_le in E|].
  apply Nat.leb_gt in E. cbv zeta. wp_step. apply wp_kernel. destruct (k_send_up _ _) as [[|n]| |]; try (by wp_step); try (wp_step; apply wp_whatever; intros; by wp_step).
  unfold progress. do 4 wp_step. apply IH. members. lia.
Qed.

Lemma flush_loop_done fuel : forall c, (length (out c) < fuel)%nat ->
  wp (flush_loop fuel) (fun ok c' => ok = true -> out c' = [] \/ exists b l, k_log c' = SendDown b SendAgain :: l) c.
Proof.
  induction fuel as [|fuel IH]; intros c Hf; [lia|]. cbn [flush_loop]. do 2 wp_step. members. destruct (out c) as [|o0 os] eqn:O; [wp_step; auto|]. rewrite <- O in *.
  wp_step. apply wp_kernel. destruct (k_send_down _ _) as [[|n]| |] eqn:K; wp_step; try done.
  - wp_step. apply IH. change (length (drop (S n) (out c)) < fuel)%nat. rewrite length_drop. rewrite O in Hf |- *. cbn [length] in *. lia.
  - intros _. right. members. eauto.
Qed.

End Loops.

(** ** Buffers, sockets and deadlines of a client *)

(** Sockets opened less sockets closed. *)
Fixpoint open_sockets (l : list Ev) : Z :=
  match l with
  | [] => 0
  | Open NoSocket :: l => open_sockets l
  | Open _ :: l => open_sockets l + 1
  | Close :: l => open_sockets l - 1
  | _ :: l => open_sockets l
  end.

(** The states with an upstream socket. *)
Definition live (r : Relay) : bool := match r with Connecting | Writing | Reading => true | _ => false end.

Section Life.
Context (cfg : ServerConfig).

(** [k] is how many reads a page may be over its limit. *)
Record sound (k : Z) (c : Client) : Prop := {
  s_live : relay_fd c = live (relay_state c);
  s_log : open_sockets (k_log c) = Z.b2z (relay_fd c);
  s_out : size (out c) <= page_cap cfg;
  s_head : size (relay_head c) <= (if live (relay_state c) && negb (relay_head_done c) then buf_size else 2 * buf_size);
  s_page : size (relay_inject_buf c) <= max_page_transform_bytes cfg + k * buf_size;
  s_queued : relay_state c = Queued -> relay_head c = []
}.

(** The ceiling of a reply, and how long it may queue. *)
Definition clocked (abs idle : Z) (file : bool) (c : Client) : Prop :=
  relay_abs_deadline_ms c = abs /\ relay_file c = file /\ (relay_state c = Queued -> relay_idle_deadline_ms c = idle).

Definition tenant (k abs idle : Z) (file : bool) (c : Client) : Prop := sound k c /\ clocked abs idle file c.

Hypothesis out_size : 0 <= max_out_buffer cfg.
Hypothesis page_size : 0 <= max_page_transform_bytes cfg.

Section Ops.
Context `{Kernel} (abs idle : Z) (file : bool).

(** What an operation leaves. *)
Definition left (ok : bool) (c : Client) : Prop := tenant (if ok then 2 else 3) abs idle file c.

Lemma left_more k c : k <= 3 -> tenant k abs idle file c -> left false c.
Proof. intros Hk [[] Hc]. split; [|done]. constructor; try done. unfold buf_size in *. lia. Qed.

Lemma wp_queue_fits data cap (Q : bool -> Client -> Prop) c : cap <= page_cap cfg ->
  Q false c -> (size (out c ++ data) <= page_cap cfg -> Q true (c <| out ::= fun o => o ++ data |>)) -> wp (queue cfg data cap) Q c.
Proof.
  intros Hcap Hf Ht. unfold queue. wp_go; [done|]. apply Ht. apply Z.ltb_ge in E. cbn [id] in *. rewrite size_app.
  unfold page_cap in *. change buf_size with 8192 in *. destruct (cap =? 0); lia.
Qed.

Lemma caps : 0 <= page_cap cfg /\ out_cap cfg <= page_cap cfg.
Proof. unfold page_cap, out_cap, buf_size. lia. Qed.


Lemma hang_up_tenant k c : tenant k abs idle file c -> live (relay_state c) = true -> wp hang_up (fun _ c' => tenant k abs idle file c' /\ relay_state c' = RelayNone) c.
Proof.
  intros Hs Hl. unfold hang_up, log_. do 3 wp_step. split; [|done]. destruct Hs as [[H1 H2 H3 H4 H5] (C1 & C2 & C3)]. rewrite Hl in *. split; [constructor|split; [done|split; [done|discriminate]]]; members; try done.
  - change (open_sockets (k_log c) - 1 = 0). by rewrite H2, H1.
  - unfold buf_size in *. destruct (negb (relay_head_done c)); cbn in *; lia.
Qed.

Lemma relay_fail_tenant status msg k c : k <= 3 -> tenant k abs idle file c -> live (relay_state c) = true ->
  wp (relay_fail cfg status msg) (fun ok c' => tenant k abs idle file c' /\ relay_state c' = RelayNone) c.
Proof.
  intros Hk Hs Hl. unfold relay_fail. wp_step. eapply wp_mono; [by apply hang_up_tenant|]. intros _ c1 [Hs1 Hn]. do 2 wp_step. wp_step.
  - do 2 wp_step. wp_step. split; [|done]. destruct Hs1 as [[] C]. split; [constructor|]; members; try done. change (size []) with 0. apply caps.
  - do 2 wp_step. destruct Hs1 as [[] C]. apply wp_queue_fits; [apply caps| |intros Ho]; (split; [|done]); (split; [constructor|]; members; done).
Qed.

Lemma relay_done_tenant k c : tenant k abs idle file c -> live (relay_state c) = true -> k <= 2 ->
  wp relay_done (fun ok c' => left ok c' /\ relay_state c' = RelayNone) c.
Proof.
  intros Hs Hl Hk. unfold relay_done. wp_step. eapply wp_mono; [by apply hang_up_tenant|]. intros _ c1 [Hs1 Hn]. destruct Hs1 as [[] C].
  do 2 wp_step. wp_step; do 3 wp_step; (split; [|done]); (split; [constructor|]; members; try done); rewrite ?Hn in *; cbn [live andb] in *;
    change (size []) with 0; unfold buf_size in *; cbn [Z.b2z] in *; try lia.
Qed.

(** In the middle of reading. *)
Definition reading (k : Z) (c : Client) : Prop := tenant k abs idle file c /\ relay_state c = Reading.

Definition flows (f : Flow) (c : Client) : Prop := match f with Continue => reading 2 c | Return ok => left ok c end.

Lemma reading_live k c : reading k c -> live (relay_state c) = true.
Proof. by intros [_ ->]. Qed.

Lemma tenant_le k k' c : k <= k' -> tenant k abs idle file c -> tenant k' abs idle file c.
Proof. intros Hk [[] Hc]. split; [|done]. constructor; try done. unfold buf_size in *. lia. Qed.

Lemma returned (m : ST Client bool) c : wp m left c -> wp (ok ← m; mret (Return ok)) flows c.
Proof. intros Hm. wp_step. eapply wp_mono; [exact Hm|]. intros ok c' Hc'. by wp_step. Qed.

Lemma failed status msg k c : k <= 2 -> reading k c -> wp (relay_fail cfg status msg) left c.
Proof.
  intros Hk Hr. eapply wp_mono; [apply (relay_fail_tenant status msg k); [lia|by destruct Hr|by eapply reading_live]|]. intros ok c' [Hc' _].
  apply (tenant_le k); [destruct ok; lia|done].
Qed.

Lemma went_on now c : reading 2 c -> wp (progress cfg now ;; mret Continue) flows c.
Proof.
  intros [[[] (C1 & C2 & C3)] Hst]. unfold progress. do 3 wp_step. split; [|done]. split; [constructor; done|split; [done|split; [done|]]]. members. by rewrite Hst.
Qed.

Lemma done_or_went_on now (b : Client -> bool) c : reading 2 c ->
  wp (c ← gets id; if b c then ok ← relay_done; mret (Return ok) else progress cfg now ;; mret Continue) flows c.
Proof.
  intros Hr. do 3 wp_step; [|by apply went_on]. apply returned. eapply wp_mono; [apply (relay_done_tenant 2); [by destruct Hr|by eapply reading_live|done]|]. by intros ok c' [].
Qed.

(** Members that are of no weight may change. *)
Lemma reading_other k c c' : reading k c -> relay_fd c' = relay_fd c -> relay_state c' = relay_state c -> k_log c' = k_log c -> size (out c') <= page_cap cfg ->
  relay_head_done c' = relay_head_done c -> relay_head c' = relay_head c -> size (relay_inject_buf c') <= max_page_transform_bytes cfg + k * buf_size ->
  relay_abs_deadline_ms c' = relay_abs_deadline_ms c -> relay_file c' = relay_file c -> reading k c'.
Proof.
  intros [[[] (C1 & C2 & C3)] Hst] E1 E2 E3 E4 E5 E6 E7 E8 E9. split; [|congruence].
  split; [constructor; rewrite ?E1, ?E2, ?E3, ?E5, ?E6; done|]. split; [congruence|]. split; [congruence|]. rewrite E2, Hst. done.
Qed.

(** Octets go out, and the reply goes on. *)
Lemma queued {A} data cap (f : bool -> ST Client A) (Q : A -> Client -> Prop) c : cap <= page_cap cfg -> reading 2 c -> wp (f false) Q c ->
  (forall c', reading 2 c' -> relay_inject_buf c' = relay_inject_buf c -> wp (f true) Q c') -> wp (q ← queue cfg data cap; f q) Q c.
Proof.
  intros Hcap Hr Hf Ht. wp_step. apply wp_queue_fits; [done|done|]. intros Ho. apply Ht; [|done].
  eapply reading_other; [exact Hr|done..|exact Ho|done|done| |done|done]. destruct Hr as [[[] _] _]. done.
Qed.

Lemma reading_page k c : reading k c -> size (relay_inject_buf c) <= max_page_transform_bytes cfg + k * buf_size.
Proof. by intros [[[] _] _]. Qed.

Lemma reading_out k c : reading k c -> size (out c) <= page_cap cfg.
Proof. by intros [[[] _] _]. Qed.

Lemma take_body_tenant now b c : reading 2 c -> wp (take_body cfg now b) flows c.
Proof.
  intros Hr. unfold take_body. do 2 wp_step. members. cbv zeta. set (t := if relay_keep c && _ then _ else _). clearbody t.
  assert (G : forall c', reading 2 c' ->
      wp (modify (fun c => c <| relay_total ::= Z.add t |> <| relay_body_seen ::= Z.add t |>) ;; c ← gets id;
        if relay_keep c && (relay_body_len c <=? relay_body_seen c) then ok ← relay_done; mret (Return ok) else progress cfg now ;; mret Continue) flows c').
  { intros c' Hc'. do 2 wp_step. apply (done_or_went_on now (fun c => relay_keep c && _)).
    eapply reading_other; [exact Hc'|done..|exact (reading_out 2 _ Hc')|done|done|exact (reading_page 2 _ Hc')|done|done]. }
  destruct (t =? 0); [do 2 wp_step; by apply G|]. apply queued; [apply caps|done|cbn [negb]; wp_step; by apply (left_more 2), Hr|]. intros c' Hc' _. cbn [negb]. by apply G.
Qed.

Lemma clear_tenant {A} (m : ST Client A) Q k c : reading k c -> (forall c', reading 2 c' -> wp m Q c') -> wp (clear_inject ;; m) Q c.
Proof.
  intros Hr Hm. unfold clear_inject. do 2 wp_step. apply Hm. destruct Hr as [[[] C] Hst]. split; [|done]. split; [|done]. constructor; members; try done.
  change (size []) with 0. unfold buf_size. lia.
Qed.

Lemma take_page_tenant now b c : reading 2 c -> size b <= buf_size -> wp (take_page cfg now b) flows c.
Proof.
  intros Hr Hb. unfold take_page. do 4 wp_step. members.
  match goal with |- wp _ _ ?x => assert (R3 : reading 3 x) end.
  { destruct Hr as [[[] C] Hst]. split; [|done]. split; [|done]. constructor; members; try done. rewrite size_app. lia. }
  wp_step.
  - wp_step. apply wp_queue_fits; [unfold page_cap; lia| |]; cbn [negb]; [wp_step; apply R3|]. intros Ho. do 2 wp_step. apply (clear_tenant _ _ 3); [|intros; by apply went_on].
    eapply reading_other; [exact R3|done..|exact Ho|done|done|exact (reading_page 3 _ R3)|done|done].
  - apply Z.ltb_ge in E. apply went_on. destruct R3 as [[[] C] Hst]. split; [|done]. split; [|done]. constructor; members; try done. unfold buf_size in *. lia.
Qed.

Lemma at_eof_tenant c : reading 2 c -> wp (at_eof cfg) left c.
Proof.
  intros Hr. unfold at_eof. do 2 wp_step. members.
  assert (G : forall c', reading 2 c' -> wp (modify (fun c => if relay_keep c && (relay_body_seen c <? relay_body_len c) then c <| relay_keep := false |> else c) ;; relay_done) left c').
  { intros c' Hc'. do 2 wp_step. match goal with |- wp _ _ ?x => assert (R : reading 2 x) end.
    { destruct (_ && _); [|done]. eapply reading_other; [exact Hc'|done..|exact (reading_out 2 _ Hc')|done|done|exact (reading_page 2 _ Hc')|done|done]. }
    eapply wp_mono; [apply (relay_done_tenant 2); [apply R|by eapply reading_live|done]|by intros ok c'' []]. }
  destruct (relay_inject c); [|do 2 wp_step; by apply G]. cbv zeta. set (emit := page_of c _). clearbody emit. do 2 wp_step.
  assert (S : forall c', reading 2 c' -> wp (modify (fun c => c <| relay_total ::= Z.add (size emit) |>) ;; clear_inject ;; mret true)
     (fun ok c0 => wp (if negb ok then mret false else modify (fun c => if relay_keep c && (relay_body_seen c <? relay_body_len c) then c <| relay_keep := false |> else c) ;; relay_done) left c0) c').
  { intros c' Hc'. do 2 wp_step. apply (clear_tenant _ _ 2); [|intros c2 Hc2; wp_step; by apply G].
    eapply reading_other; [exact Hc'|done..|exact (reading_out 2 _ Hc')|done|done|exact (reading_page 2 _ Hc')|done|done]. }
  destruct emit as [|e0 es]; [wp_step; by apply S|]. apply wp_queue_fits; [unfold page_cap; lia|cbn [negb]; wp_step; cbn [negb]; wp_step; by apply (left_more 2), Hr|].
  intros Ho. apply S. eapply reading_other; [exact Hr|done..|exact Ho|done|done|exact (reading_page 2 _ Hr)|done|done].
Qed.

Lemma reading_head k c : reading k c -> relay_head_done c = false -> size (relay_head c) <= buf_size.
Proof. intros [[[_ _ _ Hh _] _] Hst] Hd. by rewrite Hst, Hd in Hh. Qed.

(** What is whole of a head goes out or is held; the rest of it is short. *)
Lemma take_head_tenant now b c : reading 2 c -> relay_head_done c = false -> size b <= buf_size -> wp (take_head cfg now b) flows c.
Proof.
  intros Hr Hd Hb. unfold take_head. do 4 wp_step. members.
  assert (L : size (relay_head c ++ b) <= 2 * buf_size). { pose proof (reading_head _ _ Hr Hd). rewrite size_app. lia. }
  destruct (relay_head_end (relay_head c ++ b)) as [[hend sep]|]; cbv zeta.
  - set (head := take _ _). assert (R : size (drop (hend + sep) (relay_head c ++ b)) <= 2 * buf_size).
    { unfold size in *. rewrite length_drop. lia. }
    set (rest := drop _ _) in *. clearbody rest head. do 2 wp_step.
    match goal with |- wp _ _ ?x => assert (R2 : reading 2 x); [|generalize dependent x; intros c1 R2] end.
    { destruct Hr as [[[] C] Hst]. split; [|done]. split; [|done]. constructor; members; try done. rewrite Hst. by vm_compute. }
    destruct (relay_get c && relay_head_is_html head).
    + apply queued; [apply caps|done|cbn [negb]; wp_step; by apply (left_more 2), R2|]. intros c2 H2 _. cbn [negb]. do 2 wp_step. apply went_on.
      eapply reading_other; [exact H2|done..|exact (reading_out 2 _ H2)|done|done|members; lia|done|done].
    + destruct (if keep_alive_wanted c then _ else _) as [[keep patched] len]. do 2 wp_step. apply queued; [apply caps| | |].
      * eapply reading_other; [exact R2|done..|exact (reading_out 2 _ R2)|done|done|exact (reading_page 2 _ R2)|done|done].
      * cbn [negb]. wp_step. apply (left_more 2); [lia|]. eapply reading_other; [exact R2|done..|exact (reading_out 2 _ R2)|done|done|exact (reading_page 2 _ R2)|done|done].
      * intros c2 H2 _. cbn [negb]. do 3 wp_step. match goal with |- wp _ _ ?x => assert (R3 : reading 2 x); [|generalize dependent x; intros c3 R3] end.
        { eapply reading_other; [exact H2|done..|exact (reading_out 2 _ H2)|done|done|exact (reading_page 2 _ H2)|done|done]. }
        destruct rest as [|r0 rs]; [wp_step; cbn [negb]; by apply (done_or_went_on now (fun c => relay_keep c && _))|].
        set (r := if _ : bool then _ else _). clearbody r. wp_step.
        apply wp_queue_fits; [apply caps|cbn [negb]; wp_step; cbn [negb]; wp_step; by apply (left_more 2), R3|]. intros Ho. cbn [negb]. do 3 wp_step. cbn [negb].
        apply (done_or_went_on now (fun c => relay_keep c && _)). eapply reading_other; [exact R3|done..|exact Ho|done|done|exact (reading_page 2 _ R3)|done|done].
  - assert (T : tenant 2 abs idle file (c <| relay_head ::= fun h => h ++ b |> <| relay_head_done := true |>)).
    { destruct Hr as [[[] C] Hst]. split; [|done]. constructor; members; try done; rewrite Hst; [exact L|done]. }
    wp_step.
    + apply returned. unfold relay_fail, hang_up, log_. destruct T as [[T1 T2 T3 T4 T5 T6] (C1 & C2 & C3)]. destruct Hr as [_ Hst]. members.
      assert (F : relay_fd c = true) by (by rewrite T1, Hst). do 6 wp_step. wp_step; members; [do 3 wp_step|do 2 wp_step; apply wp_queue_fits; [apply caps| |intros Ho]];
        (split; [constructor|]; members; try done); try (change (open_sockets (k_log c) - 1 = 0); by rewrite T2, F); unfold buf_size in *; try lia; try apply caps.
    + apply Z.ltb_ge in E. apply went_on. destruct Hr as [[[] C] Hst]. split; [|done]. split; [|done]. constructor; members; try done; rewrite Hst; [rewrite Hd; unfold buf_size in *; cbn; lia|done].
Qed.

Lemma read_round_tenant now c : reading 2 c -> wp (read_round cfg now) flows c.
Proof.
  intros Hr. unfold read_round. wp_step. apply wp_kernel. set (c1 := c <| k_log ::= _ |>). assert (R : reading 2 c1).
  { destruct Hr as [[[] C] Hst]. split; [|done]. split; [|done]. by constructor. }
  clearbody c1. destruct (k_recv_up (k_log c)) as [[|b0 bs]| |].
  - by apply returned, at_eof_tenant.
  - set (b := take _ _). assert (Hb : size b <= buf_size). { unfold size, b. rewrite length_take. change buf_size with 8192. lia. }
    clearbody b. cbv zeta. do 2 wp_step. destruct (_ && _); [by apply returned, (failed _ _ 2)|]. cbn [id]. destruct (relay_head_done c1) eqn:Hd; cbn [negb]; [|by apply take_head_tenant].
    destruct (relay_inject c1); [by apply take_page_tenant|by apply take_body_tenant].
  - wp_step. apply R.
  - by apply returned, (failed _ _ 2).
Qed.

Lemma read_loop_tenant now fuel : forall c, reading 2 c -> wp (read_loop cfg fuel now) (fun r c' => left (default true r) c') c.
Proof.
  induction fuel as [|fuel IH]; intros c Hr; cbn [read_loop]; [wp_step; apply Hr|]. do 3 wp_step.
  - unfold progress. do 3 wp_step. destruct Hr as [[[] (C1 & C2 & C3)] Hst]. split; [by constructor|]. split; [done|]. split; [done|]. members. by rewrite Hst.
  - wp_step. eapply wp_mono; [by apply read_round_tenant|]. intros [|ok] c' Hc'; [by apply IH|by wp_step].
Qed.

Lemma pump_reading_tenant now c : reading 2 c -> wp (pump_reading cfg now) left c.
Proof. intros Hr. unfold pump_reading. wp_step. eapply wp_mono; [by apply read_loop_tenant|]. intros r c' Hc'. by wp_step. Qed.

Lemma tenant_other k c c' : tenant k abs idle file c -> relay_fd c' = relay_fd c -> live (relay_state c') = live (relay_state c) ->
  open_sockets (k_log c') = open_sockets (k_log c) -> size (out c') <= page_cap cfg -> relay_head_done c' = relay_head_done c -> relay_head c' = relay_head c ->
  relay_inject_buf c' = relay_inject_buf c -> relay_abs_deadline_ms c' = relay_abs_deadline_ms c -> relay_file c' = relay_file c ->
  (relay_state c' = Queued -> relay_state c = Queued /\ relay_idle_deadline_ms c' = relay_idle_deadline_ms c) -> tenant k abs idle file c'.
Proof.
  intros [[] (C1 & C2 & C3)] E1 E2 E3 E4 E5 E6 E7 E8 E9 E10. split; [constructor; rewrite ?E1, ?E2, ?E3, ?E5, ?E6, ?E7; try done; intros [Hq _]%E10; auto|]. split; [congruence|]. split; [congruence|].
  intros [Hq ->]%E10. by apply C3.
Qed.

Lemma tenant_out k c : tenant k abs idle file c -> size (out c) <= page_cap cfg.
Proof. by intros [[] _]. Qed.

Lemma write_loop_tenant now fuel : forall c, tenant 2 abs idle file c -> relay_state c = Writing ->
  wp (write_loop cfg fuel now) (fun r c' => match r with Some ok => left ok c' | None => tenant 2 abs idle file c' /\ relay_state c' = Writing end) c.
Proof.
  induction fuel as [|fuel IH]; intros c Hs Hst; cbn [write_loop]; [by wp_step|]. do 2 wp_step. members. wp_step; [by wp_step|]. cbv zeta. wp_step. apply wp_kernel.
  set (c1 := c <| k_log ::= _ |>). assert (H1 : tenant 2 abs idle file c1) by (eapply tenant_other; [exact Hs|done..|exact (tenant_out _ _ Hs)|done|done|done|done|done|done]).
  assert (F : wp (ok ← relay_fail cfg 502 (txt "upstream write failed"); mret (Some ok)) (fun r c' => match r with Some ok => left ok c' | None => tenant 2 abs idle file c' /\ relay_state c' = Writing end) c1).
  { wp_step. eapply wp_mono; [apply (relay_fail_tenant _ _ 2); [done|done|]; change (live (relay_state c) = true); by rewrite Hst|]. intros ok c' [Hc' _]. wp_step. apply (tenant_le 2); [destruct ok; lia|done]. }
  destruct (k_send_up _ _) as [[|n]| |]; [done| |by wp_step|done]. unfold progress. do 4 wp_step. apply IH; [|done].
  eapply tenant_other; [exact H1|done..|exact (tenant_out _ _ H1)|done|done|done|done|done|]. change (relay_state c = Queued -> relay_state c = Queued /\ now + relay_timeout_ms cfg = relay_idle_deadline_ms c). by rewrite Hst.
Qed.

Lemma pump_writing_tenant now c : tenant 2 abs idle file c -> relay_state c = Writing \/ relay_state c = Reading -> wp (pump_writing cfg now) left c.
Proof.
  intros Hs Hst. unfold pump_writing. do 2 wp_step. members. wp_step.
  assert (K : forall c', tenant 2 abs idle file c' -> relay_state c' = Writing \/ relay_state c' = Reading -> wp (modify (fun c => c <| relay_state := Reading |>) ;; pump_reading cfg now) left c').
  { intros c' Hc' Hl. do 2 wp_step. apply pump_reading_tenant. split; [|done]. eapply tenant_other; [exact Hc'|done| |done|exact (tenant_out _ _ Hc')|done|done|done|done|done|done]. by destruct Hl as [-> | ->]. }
  destruct (bool_decide_reflect (relay_state c = Writing)).
  - eapply wp_mono; [by apply write_loop_tenant|]. intros [ok|] c' Hr; [by wp_step|]. destruct Hr. apply K; auto.
  - wp_step. by apply K.
Qed.

(** A socket is asked for only where there is none. *)
Lemma relay_open_tenant now c : tenant 2 abs idle file c -> relay_fd c = false -> relay_head c = [] -> wp (relay_open cfg now) left c.
Proof.
  intros Hs Hfd Hh. pose proof Hs as [[L1 L2 L3 L4 L5 L6] (C1 & C2 & C3)]. rewrite Hfd in *.
  unfold relay_open, log_. wp_step. apply wp_kernel.
  assert (T : forall l fd st d, open_sockets l = Z.b2z fd -> live st = fd -> st <> Queued ->
    tenant 2 abs idle file (c <| k_log := l |> <| relay_fd := fd |> <| relay_state := st |> <| relay_idle_deadline_ms := d |>)).
  { intros l fd st d E1 E2 E3. split; [constructor|split; [done|split; [done|done]]]; members; try done. rewrite Hh. change (size []) with 0; unfold buf_size; destruct (live st && _); lia. }
  assert (R : forall p c', tenant 2 abs idle file c' -> relay_state c' = RelayNone ->
    wp (queue cfg p 0 ;; modify (fun c => c <| close_after_flush := true |>) ;; mret true) left c').
  { intros p c' Hc' Hn. wp_step. apply wp_queue_fits; [apply caps| |intros Ho]; do 3 wp_step;
      (eapply tenant_other; [exact Hc'|done|done|done| |done|done|done|done|done|members; by rewrite Hn]); [exact (tenant_out _ _ Hc')|exact Ho]. }
  assert (N : forall l, open_sockets l = 0 -> tenant 2 abs idle file (c <| k_log := l |> <| relay_state := RelayNone |>)).
  { intros l E. split; [constructor|split; [done|split; [done|done]]]; members; rewrite ?E, ?Hfd, ?Hh; try done; by vm_compute. }
  destruct (k_open (k_log c)) eqn:K; do 2 wp_step.
  - apply R; [|done]. by apply (N (Open NoSocket :: k_log c)).
  - do 2 wp_step. apply R; [|done]. apply (N (Close :: Open Refused :: k_log c)). change (open_sockets (k_log c) + 1 - 1 = 0). rewrite L2. done.
  - wp_step. apply (T (Open Connected :: k_log c) true); [|done|done]. change (open_sockets (k_log c) + 1 = 1). by rewrite L2.
  - wp_step. apply (T (Open InProgress :: k_log c) true); [|done|done]. change (open_sockets (k_log c) + 1 = 1). by rewrite L2.
Qed.

Lemma pump_relay_tenant re inflight now now2 c : tenant 2 abs idle file c -> relay_state c <> RelayNone -> wp (pump_relay cfg re inflight now now2) left c.
Proof.
  intros Hs Hn. pose proof Hs as [[L1 L2 L3 L4 L5 L6] (C1 & C2 & C3)]. unfold pump_relay. do 2 wp_step. members.
  destruct (bool_decide_reflect (relay_state c = Queued)) as [Hq|Hq].
  - rewrite Hq in *. destruct (_ <=? now).
    + do 2 wp_step. assert (T : tenant 2 abs idle file (c <| relay_state := RelayNone |> <| relay_req := [] |> <| close_after_flush := true |>)) by (split; [constructor|split; [done|split; [done|done]]]; members; done).
      apply wp_queue_fits; [apply caps|by apply (left_more 2)|]. intros Ho. eapply tenant_other; [exact T|done|done|done|exact Ho|done..].
    + destruct (_ <=? inflight)%nat; [by wp_step|]. apply relay_open_tenant; auto.
  - assert (Hl : live (relay_state c) = true) by (destruct (relay_state c); done).
    assert (Fl : forall c' s m, tenant 2 abs idle file c' -> live (relay_state c') = true -> wp (relay_fail cfg s m) left c').
    { intros c' s m Hc' Hl'. eapply wp_mono; [by apply (relay_fail_tenant s m 2)|]. intros ok c2 [H2 _]. apply (tenant_le 2); [destruct ok; lia|done]. }
    destruct (nval re); [by apply Fl|]. destruct (negb (relay_file c) && _); [by apply Fl|]. destruct (relay_idle_deadline_ms c <=? now); [by apply Fl|].
    destruct (bool_decide_reflect (relay_state c = Connecting)) as [Hcn|Hcn].
    + destruct (err_or_hup re); [by apply Fl|]. destruct (writable re); cbn [negb]; [|by wp_step]. wp_step. apply wp_kernel. set (c1 := c <| k_log ::= _ |>).
      assert (H1 : tenant 2 abs idle file c1) by (eapply tenant_other; [exact Hs|done|done|done|exact (tenant_out _ _ Hs)|done..]).
      destruct (k_error (k_log c)); [by apply Fl|]. unfold progress. do 4 wp_step. apply pump_writing_tenant; [|by left].
      eapply tenant_other; [exact H1|done| |done|exact (tenant_out _ _ H1)|done..]. change (live Writing = live (relay_state c)). by rewrite Hcn.
    + apply pump_writing_tenant; [done|]. destruct (relay_state c); auto; done.
Qed.

Lemma flush_tenant k c : tenant k abs idle file c -> wp flush (fun _ c' => tenant k abs idle file c' /\ relay_state c' = relay_state c) c.
Proof.
  unfold flush. intros Hs. do 2 wp_step. generalize (length (out (id c)) + 1)%nat. intros fuel. revert c Hs.
  induction fuel as [|fuel IH]; intros c Hs; cbn [flush_loop]; [by wp_step|]. do 2 wp_step. members. destruct (out c) as [|o0 os] eqn:O; [by wp_step|]. rewrite <- O in *.
  wp_step. apply wp_kernel. set (c1 := c <| k_log ::= _ |>). assert (H1 : tenant k abs idle file c1) by (eapply tenant_other; [exact Hs|done|done|done|exact (tenant_out _ _ Hs)|done..]).
  destruct (k_send_down _ _) as [[|n]| |]; try by wp_step. do 2 wp_step. eapply wp_mono; [apply IH|done]. eapply tenant_other; [exact H1|done|done|done| |done..].
  change (size (drop (S n) (out c)) <= page_cap cfg). pose proof (tenant_out _ _ Hs). unfold size in *. rewrite length_drop. lia.
Qed.

Lemma pump_waits re inflight now now2 c : tenant 2 abs idle file c -> relay_state c <> RelayNone -> relay_fd c = false -> (max_relay_inflight cfg <= inflight)%nat ->
  wp (pump_relay cfg re inflight now now2) (fun _ c' => relay_fd c' = false) c.
Proof.
  intros [[L1 _ _ _ _ _] _] Hn Hfd Hm. unfold pump_relay. do 2 wp_step. members. rewrite L1 in Hfd.
  rewrite bool_decide_eq_true_2 by (destruct (relay_state c); done). apply Nat.leb_le in Hm. rewrite Hm. destruct (_ <=? now).
  - do 2 wp_step. apply wp_queue; members; by rewrite L1.
  - wp_step. by rewrite L1.
Qed.

(** A pump at the end of its time leaves no relay. *)
Lemma late_pump re inflight now now2 c : tenant 2 abs idle file c -> relay_state c <> RelayNone ->
  (if bool_decide (relay_state c = Queued) then relay_idle_deadline_ms c <= now else file = false /\ abs <= now \/ relay_idle_deadline_ms c <= now) ->
  wp (pump_relay cfg re inflight now now2) (fun _ c' => relay_state c' = RelayNone) c.
Proof.
  intros Hs Hn Ht. pose proof Hs as [[L1 _ _ _ _ _] (C1 & C2 & C3)]. unfold pump_relay. do 2 wp_step. members. destruct (bool_decide_reflect (relay_state c = Queued)) as [Hq|Hq].
  - apply Z.leb_le in Ht. rewrite Ht. do 2 wp_step. by apply wp_queue.
  - assert (Fl : forall s m, wp (relay_fail cfg s m) (fun _ c' => relay_state c' = RelayNone) c).
    { intros s m. eapply wp_mono; [apply (relay_fail_tenant s m 2); [done|done|]; destruct (relay_state c); done|]. by intros ok c' []. }
    destruct (nval re); [apply Fl|]. destruct (negb (relay_file c) && _) eqn:A; [apply Fl|]. destruct (relay_idle_deadline_ms c <=? now) eqn:I; [apply Fl|]. exfalso. apply Z.leb_gt in I.
    destruct Ht as [[-> Ha]|]; [|lia]. rewrite C2, C1 in A. apply Z.leb_gt in A. lia.
Qed.
End Ops.
End Life.

(** ** The end of a reply in time *)

Section Ends.
Context `{Kernel} (cfg : ServerConfig).
Hypothesis out_size : 0 <= max_out_buffer cfg.
Hypothesis page_size : 0 <= max_page_transform_bytes cfg.

Lemma relay_upstream_tenant req preview sub inflight now c : sound cfg 2 c -> relay_state c = RelayNone ->
  wp (relay_upstream cfg req preview sub inflight now)
     (fun ok c' => left cfg (now + relay_max_ms cfg) (now + relay_timeout_ms cfg) false ok c' /\ (relay_fd c' = true -> (inflight < max_relay_inflight cfg)%nat)) c.
Proof.
  intros [L1 L2 L3 L4 L5 L6] Hst. rewrite Hst in *. unfold relay_upstream. do 6 wp_step. members.
  assert (K : forall c1, relay_fd c1 = false -> relay_state c1 = RelayNone -> open_sockets (k_log c1) = 0 -> size (out c1) <= page_cap cfg -> relay_head c1 = [] -> relay_inject_buf c1 = [] ->
    relay_file c1 = false ->
    wp (modify (fun c => c <| keep_alive_wanted := keep_alive req |>
          <| relay_idle_deadline_ms := now + relay_timeout_ms cfg |> <| relay_abs_deadline_ms := now + relay_max_ms cfg |>
          <| relay_what := method req ++ txt " " ++ path req |>) ;;
        if (max_relay_inflight cfg <=? inflight)%nat then modify (fun c => c <| relay_state := Queued |>) ;; mret true
        else relay_open cfg now)
      (fun ok c' => left cfg (now + relay_max_ms cfg) (now + relay_timeout_ms cfg) false ok c' /\ (relay_fd c' = true -> (inflight < max_relay_inflight cfg)%nat)) c1).
  { intros c1 E1 E2 E3 E4 E5 E6 E7. do 2 wp_step.
    assert (T : forall st, live st = false -> tenant cfg 2 (now + relay_max_ms cfg) (now + relay_timeout_ms cfg) false
      (c1 <| keep_alive_wanted := keep_alive req |> <| relay_idle_deadline_ms := now + relay_timeout_ms cfg |>
        <| relay_abs_deadline_ms := now + relay_max_ms cfg |> <| relay_what := method req ++ txt " " ++ path req |> <| relay_state := st |>)).
    { intros st Hl. split; [constructor|by split]; members; rewrite ?E1, ?E3, ?E5, ?E6, ?Hl; try done; change (size []) with 0; unfold buf_size; lia. }
    destruct (max_relay_inflight cfg <=? inflight)%nat eqn:M.
    - do 3 wp_step. split; [by apply (T Queued)|]. members. by rewrite E1.
    - apply Nat.leb_gt in M. eapply wp_mono; [apply (relay_open_tenant cfg out_size page_size (now + relay_max_ms cfg) (now + relay_timeout_ms cfg) false)|].
      + eapply tenant_other; [exact (T RelayNone eq_refl)|done|by members; rewrite E2|done|exact (tenant_out _ _ _ _ _ _ (T RelayNone eq_refl))|done..|members; by rewrite E2].
      + done.
      + done.
      + intros ok c' Hc'. split; [exact Hc'|auto]. }
  wp_step. apply wp_when; intros Hprev; [wp_step|]; apply K; members; try done; by rewrite ?L2, L1.
Qed.

Lemma relay_request_tenant `{Probe} req web_root preview sub inflight now c : sound cfg 2 c -> relay_state c = RelayNone ->
  wp (relay_request cfg req web_root preview sub inflight now)
     (fun ok c' => left cfg (now + relay_max_ms cfg) (now + relay_timeout_ms cfg) (file_get_rewrite req web_root).1 ok c'
        /\ (relay_fd c' = true -> (inflight < max_relay_inflight cfg)%nat)) c.
Proof.
  intros Hs Hst. unfold relay_request. destruct (file_get_rewrite req web_root) as [file fr]. wp_step. eapply wp_mono; [by apply relay_upstream_tenant|].
  intros ok c' [[[] (C1 & C2 & C3)] Hi]. do 3 wp_step. split; [|exact Hi]. split; [by constructor|]. by split.
Qed.

Lemma run_tenant abs idle file ops : forall c, tenant cfg 2 abs idle file c -> let '(ok, c') := run cfg ops c in left cfg abs idle file ok c'.
Proof.
  induction ops as [|o ops IH]; intros c Hs; cbn [run]; [exact Hs|]. destruct (bool_decide_reflect (relay_state c = RelayNone)); [exact Hs|].
  assert (S : wp (step cfg o) (left cfg abs idle file) c).
  { destruct o as [re k now now2|]; cbn [step]; [by apply pump_relay_tenant|]. eapply wp_mono; [by apply flush_tenant|]. intros ok c' [Hc' _].
    eapply tenant_le; [|exact Hc']. destruct ok; lia. }
  unfold wp, result, exec in S. destruct (step cfg o c) as [[] c']; [by apply IH|exact S].
Qed.

(** C32. A relayed reply has an end.  However slowly either peer drips, a relay that is no
    download of a file is let go of by the first pump that comes when both bounds have
    passed since the request; a download as every other relay by the first that comes when
    its deadline of inactivity has.  The socket is closed then, and the connection is
    dropped or marked for closing or free for the next request. *)
Theorem relay_ends `{Probe} req web_root preview sub inflight now0 ops c c1 c2 re k now now2 :
  sound cfg 2 c -> relay_state c = RelayNone -> relay_request cfg req web_root preview sub inflight now0 c = (true, c1) -> run cfg ops c1 = (true, c2) ->
  (file_get_rewrite req web_root).1 = false /\ now0 + Z.max (relay_timeout_ms cfg) (relay_max_ms cfg) <= now
    \/ relay_idle_deadline_ms c2 <= now ->
  let '(ok, c3) := run cfg [Pump re k now now2] c2 in
  relay_state c3 = RelayNone /\ relay_fd c3 = false /\ open_sockets (k_log c3) = 0.
Proof.
  intros Hs Hst Hreq Hrun Ht. pose proof (relay_request_tenant req web_root preview sub inflight now0 c Hs Hst) as W. unfold wp, result, exec in W. rewrite Hreq in W. destruct W as [W _].
  pose proof (run_tenant _ _ _ ops c1 W) as R. rewrite Hrun in R. cbn [run].
  assert (F : forall ok c3, left cfg (now0 + relay_max_ms cfg) (now0 + relay_timeout_ms cfg) (file_get_rewrite req web_root).1 ok c3 -> relay_state c3 = RelayNone ->
    relay_state c3 = RelayNone /\ relay_fd c3 = false /\ open_sockets (k_log c3) = 0).
  { intros ok c3 [[L1 L2 _ _ _ _] _] E. rewrite E in L1. rewrite L1 in L2. done. }
  destruct (bool_decide_reflect (relay_state c2 = RelayNone)) as [Hn|Hn]; [by apply (F true)|]. cbn [step].
  change (tenant cfg 2 (now0 + relay_max_ms cfg) (now0 + relay_timeout_ms cfg) (file_get_rewrite req web_root).1 c2) in R.
  pose proof (late_pump cfg out_size page_size _ _ _ re k now now2 c2 R Hn) as L. pose proof (pump_relay_tenant cfg out_size page_size _ _ _ re k now now2 c2 R Hn) as P.
  unfold wp, result, exec in L, P. destruct (pump_relay cfg re k now now2 c2) as [[] c3]; (apply (F true) + apply (F false)); try exact P; apply L; clear L P;
    (destruct R as [_ (C1 & C2 & C3)]; destruct (bool_decide_reflect (relay_state c2 = Queued)) as [Hq|Hq]; [rewrite (C3 Hq) in *; destruct Ht as [[]|]; lia|destruct Ht as [[]|]; [left; split; [done|lia]|by right]]).
Qed.
End Ends.

(** ** All clients of the server *)

(** [release_client], the upstream socket of it. *)
Definition release_client (c : Client) : Client :=
  if relay_fd c then c <| k_log ::= cons Close |> <| relay_fd := false |> else c.

(** The clients that are here, and those that were released. *)
Record Server := { clients : list Client; gone : list Client }.

Inductive act :=
| Arrive
| Ask (P : Probe) (req : Request) (web_root : text) (preview sub : bool) (now : Z)
| Pumped (re : Revents) (now now2 : Z)
| Flushed
| Leave.

(** The clients with an upstream socket. *)
Definition relays_inflight (cs : list Client) : nat := length (List.filter relay_fd cs).

(** What the poll loop does with a client: a request is looked at only where no reply is
    under way, the pump is called only where one is; false releases the client. *)
Definition act_on (cfg : ServerConfig) (K : Kernel) (inflight : nat) (a : act) (c : Client) : bool * Client :=
  match a with
  | Arrive => (true, c)
  | Ask P req web_root preview sub now =>
      if bool_decide (relay_state c = RelayNone) && negb (close_after_flush c) then relay_request cfg req web_root preview sub inflight now c else (true, c)
  | Pumped re now now2 => if bool_decide (relay_state c = RelayNone) then (true, c) else pump_relay cfg re inflight now now2 c
  | Flushed => flush c
  | Leave => (false, c)
  end.

(** A step of the loop for client [i]; [K] is what the kernel answers to it. *)
Definition serve (cfg : ServerConfig) (i : nat) (K : Kernel) (a : act) (s : Server) : Server :=
  match a, clients s !! i with
  | Arrive, _ => {| clients := clients s ++ [new_client]; gone := gone s |}
  | _, None => s
  | _, Some c =>
      let '(ok, c') := act_on cfg K (relays_inflight (clients s)) a c in
      if ok then {| clients := <[i := c']> (clients s); gone := gone s |}
      else {| clients := delete i (clients s); gone := release_client c' :: gone s |}
  end.

Definition service (cfg : ServerConfig) (h : list (nat * Kernel * act)) : Server :=
  fold_left (fun s '(i, K, a) => serve cfg i K a s) h {| clients := []; gone := [] |}.

Section Tenants.
Context (cfg : ServerConfig).
Hypothesis out_size : 0 <= max_out_buffer cfg.
Hypothesis page_size : 0 <= max_page_transform_bytes cfg.

Lemma clocked_self c : clocked (relay_abs_deadline_ms c) (relay_idle_deadline_ms c) (relay_file c) c.
Proof. by split. Qed.

(** A client keeps what it has, or finds a place. *)
Lemma act_on_sound K n a c : sound cfg 2 c -> let '(ok, c') := act_on cfg K n a c in
  sound cfg (if ok then 2 else 3) c' /\ (relay_fd c' = true -> relay_fd c = true \/ (n < max_relay_inflight cfg)%nat).
Proof.
  intros Hs. assert (W : forall m : ST Client bool, wp m (fun ok c' => sound cfg (if ok : bool then 2 else 3) c' /\ (relay_fd c' = true -> relay_fd c = true \/ (n < max_relay_inflight cfg)%nat)) c ->
    let '(ok, c') := m c in sound cfg (if ok : bool then 2 else 3) c' /\ (relay_fd c' = true -> relay_fd c = true \/ (n < max_relay_inflight cfg)%nat)).
  { intros m Hm. unfold wp, result, exec in Hm. by destruct (m c). }
  assert (T : tenant cfg 2 _ _ _ c) by (split; [exact Hs|apply clocked_self]). assert (S3 : sound cfg 3 c) by (destruct Hs; constructor; try done; unfold buf_size in *; lia).
  destruct a as [|P req web_root preview sub now|re now now2| |]; cbn [act_on]; auto.
  - destruct (bool_decide_reflect (relay_state c = RelayNone)); cbn [andb]; [|by auto]. destruct (close_after_flush c); cbn [negb]; [by auto|]. apply W.
    eapply wp_mono; [by apply (relay_request_tenant cfg out_size page_size)|]. intros ok c' [[H _] Hi]. auto.
  - destruct (bool_decide_reflect (relay_state c = RelayNone)); [by auto|]. apply W. destruct (relay_fd c) eqn:Hfd.
    + eapply wp_mono; [by eapply (pump_relay_tenant cfg out_size page_size)|]. intros ok c' [H _]. auto.
    + destruct (decide (max_relay_inflight cfg <= n)%nat) as [Hm|Hm].
      * eapply wp_mono; [apply wp_conj; [by eapply (pump_relay_tenant cfg out_size page_size)|by eapply (pump_waits cfg)]|]. intros ok c' [[H _] ->]. by split.
      * eapply wp_mono; [by eapply (pump_relay_tenant cfg out_size page_size)|]. intros ok c' [H _]. split; [exact H|]. right. lia.
  - apply W. eapply wp_mono; [by eapply flush_tenant|]. intros ok c' [[H _] Hst]. split; [destruct ok; [done|destruct H; constructor; try done; unfold buf_size in *; lia]|].
    destruct H as [-> _ _ _ _ _], Hs as [-> _ _ _ _ _]. rewrite Hst. auto.
Qed.
Lemma inflight_split cs i c : cs !! i = Some c -> relays_inflight cs = (Nat.b2n (relay_fd c) + relays_inflight (delete i cs))%nat.
Proof.
  intros Hi. unfold relays_inflight. rewrite <- (take_drop_middle cs i c Hi) at 1. rewrite delete_take_drop, !List.filter_app, !length_app. cbn [List.filter].
  destruct (relay_fd c); cbn [length Nat.b2n]; lia.
Qed.

Lemma inflight_put cs i c c' : cs !! i = Some c -> relays_inflight (<[i := c']> cs) = (Nat.b2n (relay_fd c') + relays_inflight (delete i cs))%nat.
Proof.
  intros Hi. rewrite (inflight_split (<[i := c']> cs) i c') by (apply list_lookup_insert_eq; by eapply lookup_lt_Some). f_equal. f_equal.
  rewrite !delete_take_drop, take_insert_ge, drop_insert_lt by lia. done.
Qed.

Lemma released c k : sound cfg k c -> open_sockets (k_log (release_client c)) = 0.
Proof.
  intros [_ L _ _ _ _]. unfold release_client. destruct (relay_fd c); [|done]. change (open_sockets (k_log c) - 1 = 0). by rewrite L.
Qed.

Definition in_order (s : Server) : Prop :=
  Forall (sound cfg 2) (clients s) /\ (relays_inflight (clients s) <= max_relay_inflight cfg)%nat /\ Forall (fun c => open_sockets (k_log c) = 0) (gone s).

Lemma new_client_sound : sound cfg 2 new_client.
Proof. constructor; try done; change (size _) with 0; unfold page_cap, buf_size in *; cbn; lia. Qed.

Lemma serve_in_order i K a s : in_order s -> in_order (serve cfg i K a s).
Proof.
  intros (Hs & Hn & Hg). unfold serve. assert (N : in_order s) by done.
  assert (A : in_order {| clients := clients s ++ [new_client]; gone := gone s |}).
  { split; [apply Forall_app; split; [done|constructor; [apply new_client_sound|constructor]]|]. split; [|done]. unfold relays_inflight in *. cbn [clients].
    rewrite List.filter_app, length_app. cbn [List.filter relay_fd new_client length]. lia. }
  destruct (clients s !! i) as [c|] eqn:Hi; [|by destruct a]. pose proof (proj1 (Forall_lookup _ _) Hs _ _ Hi) as Hc.
  pose proof (act_on_sound K (relays_inflight (clients s)) a c Hc) as Ha.
  assert (G : in_order (let '(ok, c') := act_on cfg K (relays_inflight (clients s)) a c in
      if ok : bool then {| clients := <[i := c']> (clients s); gone := gone s |} else {| clients := delete i (clients s); gone := release_client c' :: gone s |})).
  { destruct (act_on cfg K _ a c) as [ok c']. destruct Ha as [Hc' Hf]. rewrite (inflight_split _ i c Hi) in *. destruct ok.
    - split; [by apply Forall_insert|]. split; [|done]. cbn [clients]. rewrite (inflight_put _ i c) by done.
      destruct (relay_fd c'); cbn [Nat.b2n]; [|lia]. destruct (Hf eq_refl) as [E|E]; [rewrite E in *; cbn [Nat.b2n] in *|]; lia.
    - split; [by apply Forall_delete|]. split; [cbn [clients]; lia|]. constructor; [by eapply released|done]. }
  destruct a; done.
Qed.

Lemma service_in_order h : in_order (service cfg h).
Proof.
  unfold service. assert (I : in_order {| clients := []; gone := [] |}) by (split; [constructor|]; split; [cbn; lia|constructor]).
  revert I. generalize {| clients := []; gone := [] |}. induction h as [|[[i K] a] h IH]; intros s Hs; [done|]. cbn [fold_left]. by apply IH, serve_in_order.
Qed.

End Tenants.

(** ** The bounds on a small server *)


Definition silent_upstream : Kernel := {|
  k_open := fun _ => InProgress; k_error := fun _ => false; k_send_up := fun _ b => Took (length b); k_recv_up := fun _ => RecvAgain; k_send_down := fun _ _ => SendAgain
|}.

(** A web interface that says nothing: the request is sent, and given up five seconds
    later. *)
Lemma relay_ends_witness :
  let c1 := (@relay_request silent_upstream small_server no_file css_request [] false false 0 0 new_client).2 in
  let c2 := (@run silent_upstream small_server [Pump ready 1 10 10] c1).2 in
  relay_fd c2 = true /\ let '(ok, c3) := @run silent_upstream small_server [Pump ready 1 5000 5000] c2 in relay_state c3 = RelayNone /\ relay_fd c3 = false /\ open_sockets (k_log c3) = 0.
Proof.
  intros c1 c2. split; [by vm_compute|].
  apply (@relay_ends silent_upstream small_server ltac:(by vm_compute) ltac:(by vm_compute) no_file css_request [] false false 0 0 [Pump ready 1 10 10] new_client c1 c2).
  - apply new_client_sound; by vm_compute.
  - reflexivity.
  - by vm_compute.
  - by vm_compute.
  - left. split; by vm_compute.
Defined.

(** Three browsers and two places: the third waits. *)
Definition crowd : list (nat * Kernel * act) :=
  let ask i := (i, silent_upstream, Ask no_file css_request [] false false 0) in
  [(O, silent_upstream, Arrive); (O, silent_upstream, Arrive); (O, silent_upstream, Arrive); ask 0%nat; ask 1%nat; ask 2%nat; (1%nat, silent_upstream, Leave);
   (1%nat, silent_upstream, Pumped ready 10 10)].

