(* ===== verification/Sdp.v ===== *)
(** * The offer of a browser and the answer of the camera

    [app/webrtc/sdp.{hpp,cpp}].  A payload type is [Z], an index into the media
    sections is [Z] with -1 for none, as in the source; [std::map] is walked in
    the order of its keys. *)

From S2P Require Import Prelude Text.

(** [Lines::next], for all lines: they end with a newline, and one carriage
    return before it is not part of them. *)
Definition strip_cr (l : text) : text :=
  match last l with
  | Some c => if Ascii.eqb c "013" then take (length l - 1) l else l
  | None => l
  end.

Fixpoint lines_from (s cur : text) : list text :=
  match s with
  | [] => match cur with [] => [] | _ => [strip_cr cur] end
  | c :: s' => if Ascii.eqb c NL then strip_cr cur :: lines_from s' [] else lines_from s' (cur ++ [c])
  end.
Definition lines (s : text) : list text := lines_from s [].

(** [starts(l, p)]. *)
Definition starts (p : string) (l : text) : bool := has_prefix (txt p) l.

(** [ieq]. *)
Definition ieq (a : text) (b : string) : bool := text_eqb (lowercase a) (lowercase (txt b)).

Fixpoint strip_spaces (s : text) : text :=
  match s with
  | c :: s' => if Ascii.eqb c " " then strip_spaces s' else s
  | [] => []
  end.

(** [fmtp_value]: the value of the first parameter with that name. *)
Fixpoint fmtp_find (parts : list text) (k : text) : text :=
  match parts with
  | [] => []
  | part :: parts =>
      let part := strip_spaces part in
      if (length k <? length part)%nat && text_eqb (lowercase (take (length k) part)) (lowercase k)
      then drop (length k) part
      else fmtp_find parts k
  end.
Definition fmtp_value (params : text) (key : string) : text := fmtp_find (split_on ";" params) (txt key ++ txt "=").

(** [profile_of]. *)
Definition profile_of (plid : text) : text := if (length plid <? 6)%nat then [] else lowercase (take 4 plid).

Record OfferMedia := {
  kind : text;
  mid : text;
  pts : list Z;
  h264_pt : Z;
  h264_profile : text;
  pcma_pt : Z;
  pcmu_pt : Z;
  direction : text;
}.
#[export] Instance eta_OfferMedia : Settable OfferMedia := fun m =>
  Build_OfferMedia (kind m) (mid m) (pts m) (h264_pt m) (h264_profile m) (pcma_pt m) (pcmu_pt m) (direction m).

Definition OfferMedia_new (k : text) (l : list Z) : OfferMedia :=
  {| kind := k; mid := []; pts := l; h264_pt := -1; h264_profile := []; pcma_pt := -1; pcmu_pt := -1; direction := txt "sendrecv" |}.

Record Offer := {
  o_ok : bool;
  error : text;
  ice_ufrag : text;
  ice_pwd : text;
  fingerprint_alg : text;
  fingerprint : text;
  media : list OfferMedia;
  video_index : Z;
  audio_index : Z;
}.
#[export] Instance eta_Offer : Settable Offer := fun o =>
  Build_Offer (o_ok o) (error o) (ice_ufrag o) (ice_pwd o) (fingerprint_alg o) (fingerprint o) (media o) (video_index o) (audio_index o).

Definition Offer_new : Offer :=
  {| o_ok := false; error := []; ice_ufrag := []; ice_pwd := []; fingerprint_alg := []; fingerprint := [];
     media := []; video_index := -1; audio_index := -1 |}.

(** The variables of [parse_offer] around its loop. *)
Record Parsing := {
  o : Offer;
  cur : Z;
  h264 : list Z;                       (* std::map<int, bool>, all true: its keys *)
  fmtp : gmap Z text;
  offered_video : list text;
  saw_h264_any_mode : bool;
}.
#[export] Instance eta_Parsing : Settable Parsing := fun s =>
  Build_Parsing (o s) (cur s) (h264 s) (fmtp s) (offered_video s) (saw_h264_any_mode s).

(** [h264_pt[pt] = true] in a sorted map. *)
Fixpoint insert_key (pt : Z) (l : list Z) : list Z :=
  match l with
  | [] => [pt]
  | x :: l' => if pt <? x then pt :: l else if pt =? x then l else x :: insert_key pt l'
  end.

(** [o.media[idx]] for an index the code has checked, and its update. *)
Definition media_at (i : Z) (s : Offer) : option OfferMedia := if i <? 0 then None else media s !! Z.to_nat i.
Definition on_media (i : Z) (f : OfferMedia -> OfferMedia) (s : Parsing) : Parsing :=
  if i <? 0 then s else s <| o ::= fun x => x <| media ::= alter f (Z.to_nat i) |> |>.

Definition params_of (s : Parsing) (pt : Z) : text := default [] (fmtp s !! pt).
Definition mode1 (s : Parsing) (pt : Z) : bool := text_eqb (fmtp_value (params_of s pt) "packetization-mode") (txt "1").
Definition profile_level (s : Parsing) (pt : Z) : text := fmtp_value (params_of s pt) "profile-level-id".

(** What [settle_video] found: an exact match, or the first usable payload. *)
Inductive Weighed := Exact (pt : Z) | FirstUsable (pt : option Z).

(** Its loop over the payloads of the m-line, in their order. *)
Fixpoint weigh_listed (s : Parsing) (want : text) (l : list Z) (first : option Z) (saw : bool) : Weighed * bool :=
  match l with
  | [] => (FirstUsable first, saw)
  | pt :: l =>
      if negb (bool_decide (pt ∈ h264 s)) then weigh_listed s want l first saw
      else if negb (mode1 s pt) then weigh_listed s want l first true
      else if negb (bool_decide (want = [])) && text_eqb (profile_of (profile_level s pt)) want then (Exact pt, true)
      else weigh_listed s want l (match first with Some _ => first | None => Some pt end) true
  end.

(** Its loop over what was described but not listed, in numeric order. *)
Fixpoint weigh_unlisted (s : Parsing) (listed keys : list Z) (saw : bool) : option Z * bool :=
  match keys with
  | [] => (None, saw)
  | pt :: keys =>
      if bool_decide (pt ∈ listed) then weigh_unlisted s listed keys saw
      else if negb (mode1 s pt) then weigh_unlisted s listed keys true
      else (Some pt, true)
  end.

(** [settle_video(idx)]. *)
Definition choose_payload (idx pt : Z) (s : Parsing) : Parsing :=
  let plid := profile_level s pt in
  let s := on_media idx (fun m => m <| h264_pt := pt |> <| h264_profile := plid |>) s in
  if video_index (o s) <? 0 then s <| o ::= fun x => x <| video_index := idx |> |> else s.

Definition settle_video (want : text) (idx : Z) (s : Parsing) : Parsing :=
  match media_at idx (o s) with
  | None => s
  | Some m =>
      if negb (text_eqb (kind m) (txt "video")) then s else
      let '(w, saw) := weigh_listed s want (pts m) None (saw_h264_any_mode s) in
      let s := s <| saw_h264_any_mode := saw |> in
      match w with
      | Exact pt => choose_payload idx pt s
      | FirstUsable (Some pt) => choose_payload idx pt s
      | FirstUsable None =>
          let '(r, saw) := weigh_unlisted s (pts m) (h264 s) saw in
          let s := s <| saw_h264_any_mode := saw |> in
          match r with Some pt => choose_payload idx pt s | None => s end
      end
  end.

(** The payload list of an m-line: from the third field on, digits only, 0 to
    127, at most 64 of them. *)
Definition payload_field (acc : list Z) (field : text) : list Z :=
  match field with
  | [] => acc
  | _ =>
      if (length acc <? 64)%nat && forallb is_digit field then
        let pt := dec_value field in if pt <? 128 then acc ++ [pt] else acc
      else acc
  end.

Definition m_line (l : text) : OfferMedia :=
  match index_of " " l with
  | None => OfferMedia_new (drop 2 l) []
  | Some sp => OfferMedia_new (take (sp - 2) (drop 2 l)) (foldl payload_field [] (drop 2 (split_on " " (drop (S sp) l))))
  end.

(** [sscanf(l.c_str() + 9, "%d %63[^/]", &pt, codec)]. *)
Fixpoint take_codec (n : nat) (s : text) : text :=
  match n, s with
  | S n, c :: s' => if Ascii.eqb c "/" then [] else c :: take_codec n s'
  | _, _ => []
  end.
Definition scan_rtpmap (s : text) : option (Z * text) :=
  '(pt, rest) ← scan_int (c_str s);
  match take_codec 63 (skip_space rest) with
  | [] => None
  | codec => if pt <? 0 then None else Some (pt, codec)
  end.

Definition housekeeping (name : text) : bool := ieq name "rtx" || ieq name "red" || ieq name "ulpfec" || ieq name "flexfec-03".

(** The branch of [a=rtpmap:]. *)
Definition on_rtpmap (l : text) (s : Parsing) : Parsing :=
  match scan_rtpmap (drop 9 l) with
  | None => s
  | Some (pt, name) =>
      let s := if ieq name "H264" then s <| h264 ::= insert_key pt |> else s in
      match media_at (cur s) (o s) with
      | None => s
      | Some m =>
          let s := if text_eqb (kind m) (txt "audio") && occurs (txt "/8000") (c_str l) then
                     let s := if ieq name "PCMA" && (pcma_pt m <? 0) then on_media (cur s) (fun m => m <| pcma_pt := pt |>) s else s in
                     if ieq name "PCMU" && (pcmu_pt m <? 0) then on_media (cur s) (fun m => m <| pcmu_pt := pt |>) s else s
                   else s in
          if text_eqb (kind m) (txt "video") && (length (offered_video s) <? 12)%nat && negb (housekeeping name)
             && negb (bool_decide (name ∈ offered_video s))
          then s <| offered_video ::= fun l => l ++ [name] |> else s
      end
  end.

(** The branch of [a=fmtp:]; ["%d %n"] gives the number and where the text after
    the blanks begins. *)
Definition on_fmtp (l : text) (s : Parsing) : Parsing :=
  match scan_int (c_str (drop 7 l)) with
  | None => s
  | Some (pt, rest) =>
      if pt <? 0 then s else
      let off := (length (c_str (drop 7 l)) - length (skip_space rest))%nat in
      s <| fmtp ::= <[pt := drop (7 + off) l]> |>
  end.

Definition is_direction (l : text) : bool :=
  text_eqb l (txt "a=sendrecv") || text_eqb l (txt "a=sendonly") || text_eqb l (txt "a=recvonly") || text_eqb l (txt "a=inactive").

(** The body of the loop over the lines. *)
Definition on_line (want : text) (s : Parsing) (l : text) : Parsing :=
  if starts "m=" l then
    let s := settle_video want (cur s) s in
    let s := s <| h264 := [] |> <| fmtp := ∅ |> <| o ::= fun x => x <| media ::= fun ms => ms ++ [m_line l] |> |> in
    s <| cur := Z.of_nat (length (media (o s))) - 1 |>
  else if starts "a=mid:" l then on_media (cur s) (fun m => m <| mid := drop 6 l |>) s
  else if is_direction l then on_media (cur s) (fun m => m <| direction := drop 2 l |>) s
  else if starts "a=ice-ufrag:" l then
    if bool_decide (ice_ufrag (o s) = []) then s <| o ::= fun x => x <| ice_ufrag := drop 12 l |> |> else s
  else if starts "a=ice-pwd:" l then
    if bool_decide (ice_pwd (o s) = []) then s <| o ::= fun x => x <| ice_pwd := drop 10 l |> |> else s
  else if starts "a=fingerprint:" l then
    if bool_decide (fingerprint (o s) = []) then
      let v := drop 14 l in
      match index_of " " v with
      | None => s
      | Some sp => s <| o ::= fun x => x <| fingerprint_alg := take sp v |> <| fingerprint := drop (S sp) v |> |>
      end
    else s
  else if starts "a=rtpmap:" l then on_rtpmap l s
  else if starts "a=fmtp:" l then on_fmtp l s
  else s.

Definition Parsing_new : Parsing :=
  {| o := Offer_new; cur := -1; h264 := []; fmtp := ∅; offered_video := []; saw_h264_any_mode := false |}.

(** The first audio section with a G.711 payload. *)
Fixpoint audio_from (i : Z) (ms : list OfferMedia) : Z :=
  match ms with
  | [] => -1
  | m :: ms => if text_eqb (kind m) (txt "audio") && ((0 <=? pcma_pt m) || (0 <=? pcmu_pt m)) then i else audio_from (i + 1) ms
  end.

Fixpoint comma_join (l : list text) : text :=
  match l with
  | [] => []
  | [x] => x
  | x :: l => x ++ txt "," ++ comma_join l
  end.

Definition refusal (s : Parsing) : text :=
  let what := comma_join (offered_video s) in
  txt "no H264 packetization-mode=1 video (offered: " ++ (match what with [] => txt "nothing" | _ => what end) ++ txt ")"
  ++ (if saw_h264_any_mode s then txt " - H264 was offered, but not in mode 1" else []).

(** [parse_offer]. *)
Definition parse_offer (sdp prefer_profile : text) : Offer :=
  let want := profile_of prefer_profile in
  let s := foldl (on_line want) Parsing_new (lines sdp) in
  let s := settle_video want (cur s) s in
  let x := o s <| audio_index := audio_from 0 (media (o s)) |> in
  if video_index x <? 0 then x <| error := refusal s |>
  else if bool_decide (ice_ufrag x = []) || bool_decide (ice_pwd x = []) then x <| error := txt "missing ice credentials" |>
  else if bool_decide (fingerprint x = []) then x <| error := txt "missing DTLS fingerprint" |>
  else x <| o_ok := true |>.

(** [AudioPlan] and [plan_audio]. *)
Record AudioPlan := { pt : Z; send : bool; recv : bool }.
Definition no_audio : AudioPlan := {| pt := -1; send := false; recv := false |}.

Definition plan_audio (offer : Offer) (camera_can_send camera_can_recv : bool) : AudioPlan :=
  match media_at (audio_index offer) offer with
  | None => no_audio
  | Some m =>
      let browser_recv := text_eqb (direction m) (txt "sendrecv") || text_eqb (direction m) (txt "recvonly") in
      let browser_send := text_eqb (direction m) (txt "sendrecv") || text_eqb (direction m) (txt "sendonly") in
      let s := camera_can_send && browser_recv in
      let r := camera_can_recv && browser_send in
      if negb s && negb r then no_audio
      else {| pt := if 0 <=? pcma_pt m then pcma_pt m else pcmu_pt m; send := s; recv := r |}
  end.

Record AnswerParams := {
  p_ice_ufrag : text;
  p_ice_pwd : text;
  p_fingerprint : text;
  host_ip : text;
  port : Z;
  ssrc : Z;
  cname : text;
  audio_pt : Z;
  audio_send : bool;
  audio_recv : bool;
  audio_ssrc : Z;
}.

(** [snprintf(buf, sizeof buf, ...); s += buf] with a buffer of 256. *)
Definition printed (s : text) : text := take 255 s.

(** A line of the answer. *)
Definition ln (l : list text) : text := concat l ++ CRLF.

Definition candidate_line (p : AnswerParams) : text :=
  printed (ln [txt "a=candidate:1 1 udp 2130706431 "; c_str (host_ip p); txt " "; print_dec (port p); txt " typ host"]).

Definition transport_lines (p : AnswerParams) : text :=
  ln [txt "a=ice-ufrag:"; p_ice_ufrag p] ++ ln [txt "a=ice-pwd:"; p_ice_pwd p]
  ++ ln [txt "a=fingerprint:sha-256 "; p_fingerprint p] ++ ln [txt "a=setup:passive"].

Definition mid_line (m : OfferMedia) : text := match mid m with [] => [] | _ => ln [txt "a=mid:"; mid m] end.

Definition audio_section (p : AnswerParams) (m : OfferMedia) : text :=
  printed (ln [txt "m=audio "; print_dec (port p); txt " UDP/TLS/RTP/SAVPF "; print_int (audio_pt p)])
  ++ ln [txt "c=IN IP4 "; host_ip p] ++ mid_line m ++ transport_lines p
  ++ ln [if audio_send p && audio_recv p then txt "a=sendrecv" else if audio_send p then txt "a=sendonly" else txt "a=recvonly"]
  ++ ln [txt "a=rtcp-mux"]
  ++ printed (ln [txt "a=rtpmap:"; print_int (audio_pt p); txt " "; if audio_pt p =? pcma_pt m then txt "PCMA" else txt "PCMU"; txt "/8000"])
  ++ (if audio_send p then printed (ln [txt "a=ssrc:"; print_dec (audio_ssrc p); txt " cname:"; c_str (cname p)]) else [])
  ++ candidate_line p ++ ln [txt "a=end-of-candidates"].

Definition section_head (p : AnswerParams) (m : OfferMedia) (take : bool) : text :=
  printed (ln [txt "m="; c_str (kind m); txt " "; print_dec (if take then port p else 0); txt " UDP/TLS/RTP/SAVPF ";
               print_int (if take then h264_pt m else 0)])
  ++ ln [txt "c=IN IP4 "; if take then host_ip p else txt "0.0.0.0"] ++ mid_line m.

Definition video_section (p : AnswerParams) (m : OfferMedia) : text :=
  let pt := print_int (h264_pt m) in
  section_head p m true ++ transport_lines p ++ ln [txt "a=sendonly"] ++ ln [txt "a=rtcp-mux"]
  ++ printed (ln [txt "a=rtpmap:"; pt; txt " H264/90000"])
  ++ printed (txt "a=fmtp:" ++ pt ++ txt " level-asymmetry-allowed=1;packetization-mode=1")
  ++ (match h264_profile m with [] => [] | _ => txt ";profile-level-id=" ++ h264_profile m end) ++ CRLF
  ++ printed (ln [txt "a=rtcp-fb:"; pt; txt " nack"]) ++ printed (ln [txt "a=rtcp-fb:"; pt; txt " nack pli"])
  ++ printed (ln [txt "a=ssrc:"; print_dec (ssrc p); txt " cname:"; c_str (cname p)])
  ++ candidate_line p ++ ln [txt "a=end-of-candidates"].

Definition declined_section (p : AnswerParams) (m : OfferMedia) : text := section_head p m false ++ ln [txt "a=inactive"].

(** [build_answer]. *)
Definition with_audio (offer : Offer) (p : AnswerParams) : bool :=
  (0 <=? audio_pt p) && (0 <=? audio_index offer) && (audio_send p || audio_recv p).

Definition media_section (offer : Offer) (p : AnswerParams) (i : nat) (m : OfferMedia) : text :=
  if with_audio offer p && (Z.of_nat i =? audio_index offer) then audio_section p m
  else if Z.of_nat i =? video_index offer then video_section p m
  else declined_section p m.

Definition bundle_group (offer : Offer) (p : AnswerParams) : text :=
  let group := concat (imap (fun i m =>
    if ((Z.of_nat i =? video_index offer) || (with_audio offer p && (Z.of_nat i =? audio_index offer)))
       && negb (bool_decide (mid m = [])) then txt " " ++ mid m else []) (media offer)) in
  match group with [] => [] | _ => ln [txt "a=group:BUNDLE"; group] end.

Definition build_answer (offer : Offer) (p : AnswerParams) : text :=
  if negb (o_ok offer) || (video_index offer <? 0) then [] else
  ln [txt "v=0"] ++ ln [txt "o=- 1 2 IN IP4 127.0.0.1"] ++ ln [txt "s=-"] ++ ln [txt "t=0 0"] ++ ln [txt "a=ice-lite"]
  ++ bundle_group offer p ++ ln [txt "a=msid-semantic: WMS *"]
  ++ concat (imap (media_section offer p) (media offer)).
