(* ===== verification/SdpSpec.v ===== *)
(** * The answer of the camera, read back

    What [parse_offer] of [Sdp] takes out of any text, and that a reader with the
    same grammar takes out of the answer what the camera decided. *)

From S2P Require Import Prelude Text Sdp.

(** ** Texts without a character *)

Definition free (c : ascii) (s : text) : Prop := Forall (fun x => x <> c) s.

Lemma free_notin c s : free c s <-> c ∉ s.
Proof.
  unfold free. rewrite Forall_forall. split; [intros Hf Hc; by apply (Hf c)|]. intros Hc x Hx ->. done.
Qed.

Lemma free_app c a b : free c a -> free c b -> free c (a ++ b).
Proof. intros Ha Hb. by apply Forall_app. Qed.

(** Decided for a literal. *)
Definition freeb (c : ascii) (s : text) : bool := forallb (fun x => negb (Ascii.eqb x c)) s.
Lemma free_lit c s : freeb c s = true -> free c s.
Proof.
  intros H. apply Forall_forall. intros x Hx%list_elem_of_In -> . unfold freeb in H. rewrite forallb_forall in H.
  apply H in Hx. by rewrite Ascii.eqb_refl in Hx.
Qed.

Lemma free_digits c s : is_digit c = false -> forallb is_digit s = true -> free c s.
Proof.
  intros Hc H. apply Forall_forall. intros x Hx%list_elem_of_In ->. rewrite forallb_forall in H. apply H in Hx. congruence.
Qed.

Lemma free_take c n s : free c s -> free c (take n s).
Proof. apply Forall_take. Qed.
Lemma free_drop c n s : free c s -> free c (drop n s).
Proof. apply Forall_drop. Qed.

Lemma c_str_free s : free "000" s -> c_str s = s.
Proof.
  induction 1 as [|x s Hx _ IH]; [done|]. cbn. destruct (Ascii.eqb_spec x "000"); [done|]. by rewrite IH.
Qed.

Create HintDb sdp.
#[export] Hint Resolve free_app free_take free_drop Forall_nil_2 : sdp.
#[export] Hint Extern 1 (free _ (txt _)) => apply free_lit; reflexivity : sdp.

(** ** Lines *)

Definition unlines (l : list text) : text := concat (map (fun x => x ++ CRLF) l).

Lemma unlines_app a b : unlines (a ++ b) = unlines a ++ unlines b.
Proof. unfold unlines. by rewrite map_app, concat_app. Qed.

Lemma lines_from_skip a : forall s cur, free NL a -> lines_from (a ++ s) cur = lines_from s (cur ++ a).
Proof.
  induction a as [|c a IH]; intros s cur Ha; [by rewrite app_nil_r|]. apply Forall_cons in Ha as [Hc Ha].
  cbn [app lines_from]. destruct (Ascii.eqb_spec c NL); [done|]. rewrite IH by done. by rewrite <- app_assoc.
Qed.

Lemma strip_cr_snoc l : strip_cr (l ++ ["013"%char]) = l.
Proof.
  unfold strip_cr. rewrite last_snoc, Ascii.eqb_refl, length_app. cbn. by rewrite Nat.add_sub, take_app_length.
Qed.

Lemma lines_unlines l : Forall (free NL) l -> lines (unlines l) = l.
Proof.
  induction 1 as [|x l Hx _ IH]; [done|]. unfold lines, unlines in *. cbn [map concat]. rewrite <- !app_assoc.
  rewrite lines_from_skip by done. cbn [app CRLF lines_from]. change (Ascii.eqb "013" NL) with false.
  change (Ascii.eqb "010" NL) with true. cbn [app]. by rewrite strip_cr_snoc, IH.
Qed.

Lemma lines_from_free s : forall cur, free NL cur -> Forall (free NL) (lines_from s cur).
Proof.
  assert (S : forall l, free NL l -> free NL (strip_cr l)).
  { intros l Hl. unfold strip_cr. destruct (last l) as [c|]; [destruct (Ascii.eqb c "013")|]; auto with sdp. }
  induction s as [|c s IH]; intros cur Hc; cbn [lines_from].
  - destruct cur; constructor; auto.
  - destruct (Ascii.eqb_spec c NL) as [|Hne]; [constructor; [by apply S|apply IH; constructor]|].
    apply IH, free_app; [done|]. by repeat constructor.
Qed.

Lemma lines_free s : Forall (free NL) (lines s).
Proof. apply lines_from_free. constructor. Qed.

(** ** Numbers *)

Lemma print_dec_head n : 0 <= n -> exists c s, print_dec n = c :: s /\ is_digit c = true.
Proof.
  intros Hn. pose proof (print_dec_nonempty n) as He. pose proof (print_dec_digits n Hn) as Hd. destruct (print_dec n) as [|c s]; [done|].
  apply andb_true_iff in Hd as [Hc _]. eauto.
Qed.

Lemma digit_plain c : is_digit c = true -> is_space c = false /\ Ascii.eqb c "-" = false /\ Ascii.eqb c "+" = false.
Proof.
  unfold is_digit, is_space. intros Hc. repeat split.
  - lia.
  - destruct (Ascii.eqb_spec c "-") as [->|]; [by cbv in Hc|done].
  - destruct (Ascii.eqb_spec c "+") as [->|]; [by cbv in Hc|done].
Qed.

Lemma scan_int_print n rest : 0 <= n < 2 ^ 31 -> match rest with [] => True | c :: _ => is_digit c = false end ->
  scan_int (print_dec n ++ rest) = Some (n, rest).
Proof.
  intros Hn Hr. destruct (print_dec_head n ltac:(lia)) as (c & s & E & Hc). destruct (digit_plain c Hc) as (H1 & H2 & H3).
  unfold scan_int. assert (K : skip_space (print_dec n ++ rest) = print_dec n ++ rest) by (rewrite E; cbn; by rewrite H1).
  rewrite K. pose proof (take_digits_app (print_dec n) rest (print_dec_digits n ltac:(lia)) Hr) as T.
  pose proof (print_dec_value n ltac:(lia)) as V. rewrite E in T, V |- *. cbn [app] in T |- *. rewrite H2, H3, T, V.
  by rewrite swrap_small by lia.
Qed.

(** ** What is taken out of an offer *)

Definition number (pt : Z) : Prop := -1 <= pt < 2 ^ 31.

Record good_media (m : OfferMedia) : Prop := {
  g_kind : free NL (kind m) /\ free " " (kind m);
  g_mid : free NL (mid m);
  g_profile : free NL (h264_profile m) /\ free ";" (h264_profile m);
  g_numbers : number (h264_pt m) /\ number (pcma_pt m) /\ number (pcmu_pt m);
}.

Definition video_found (x : Offer) : Prop :=
  video_index x = -1 \/ exists m, media_at (video_index x) x = Some m /\ kind m = txt "video" /\ 0 <= h264_pt m.

Record good (s : Parsing) : Prop := {
  good_all : Forall good_media (media (o s));
  good_fmtp : forall pt t, fmtp s !! pt = Some t -> free NL t;
  good_h264 : Forall (fun pt => 0 <= pt < 2 ^ 31) (h264 s);
  good_video : video_found (o s);
  good_ok : o_ok (o s) = false;
}.

Lemma media_at_in i x m : media_at i x = Some m -> 0 <= i /\ media x !! Z.to_nat i = Some m.
Proof. unfold media_at. destruct (Z.ltb_spec i 0); [done|]. by split. Qed.

Lemma on_media_at i f s j m : media_at j (o s) = Some m ->
  media_at j (o (on_media i f s)) = Some (if j =? i then f m else m).
Proof.
  intros [Hj Hm]%media_at_in. unfold media_at, on_media. destruct (Z.ltb_spec j 0); [lia|].
  destruct (Z.ltb_spec i 0); [destruct (Z.eqb_spec j i); [lia|done]|]. cbn. destruct (Z.eqb_spec j i) as [->|].
  - by rewrite list_lookup_alter_eq, Hm.
  - by rewrite list_lookup_alter_ne by lia.
Qed.

(** A change of one section that keeps it good, and a payload once there is one. *)
Definition refines (f : OfferMedia -> OfferMedia) (m : OfferMedia) : Prop :=
  (good_media m -> good_media (f m)) /\ kind (f m) = kind m /\ (0 <= h264_pt m -> 0 <= h264_pt (f m)).

Lemma good_on_media i f s : (forall m, media_at i (o s) = Some m -> refines f m) -> good s -> good (on_media i f s).
Proof.
  intros Hf [A1 A2 A3 A4 A5]. split.
  - unfold on_media. destruct (Z.ltb_spec i 0); [done|]. cbn. apply Forall_alter; [done|]. intros m Hm. apply Hf.
    unfold media_at. destruct (Z.ltb_spec i 0); [lia|done].
  - unfold on_media. by destruct (i <? 0).
  - unfold on_media. by destruct (i <? 0).
  - assert (E : video_index (o (on_media i f s)) = video_index (o s)) by (unfold on_media; by destruct (i <? 0)).
    destruct A4 as [Hn|(m & Hm & Hk & Hp)]; [left; congruence|]. right. rewrite E. eexists. split; [by apply on_media_at|].
    destruct (Z.eqb_spec (video_index (o s)) i) as [Ei|]; [|done]. rewrite <- Ei in Hf. destruct (Hf m Hm) as (_ & Hk' & Hp').
    split; [congruence|auto].
  - unfold on_media. by destruct (i <? 0).
Qed.

Lemma free_split_on c sep s cur : free c cur -> free c s -> Forall (free c) (split_at sep s cur).
Proof.
  intros Hc Hs. revert cur Hc. induction Hs as [|x s Hx Hs IH]; intros cur Hc; cbn [split_at]; [by repeat constructor|].
  destruct (Ascii.eqb x sep); [constructor; [done|]; by apply IH, Forall_nil_2|]. apply IH, free_app; [done|]. by repeat constructor.
Qed.

Lemma free_parts sep s cur : free sep cur -> Forall (free sep) (split_at sep s cur).
Proof.
  revert cur. induction s as [|x s IH]; intros cur Hc; cbn [split_at]; [by repeat constructor|].
  destruct (Ascii.eqb_spec x sep); [constructor; [done|]; by apply IH, Forall_nil_2|]. apply IH, free_app; [done|]. by repeat constructor.
Qed.

Lemma free_strip_spaces c s : free c s -> free c (strip_spaces s).
Proof.
  intros Hs. induction Hs as [|x s Hx Hs IH]; [constructor|]. cbn. destruct (Ascii.eqb x " "); [done|]. by constructor.
Qed.

Lemma free_fmtp_find c parts k : Forall (free c) parts -> free c (fmtp_find parts k).
Proof.
  induction 1 as [|p parts Hp _ IH]; [constructor|]. cbn [fmtp_find]. destruct (_ && _); [|done].
  by apply free_drop, free_strip_spaces.
Qed.

Lemma fmtp_value_free params key : free NL params -> free NL (fmtp_value params key) /\ free ";" (fmtp_value params key).
Proof.
  intros Hp. split; apply free_fmtp_find; [apply free_split_on|apply free_parts]; auto with sdp; constructor.
Qed.

Lemma params_free s pt : good s -> free NL (params_of s pt).
Proof.
  intros Hs. unfold params_of. destruct (fmtp s !! pt) as [t|] eqn:E; [by apply (good_fmtp s Hs pt)|constructor].
Qed.

Definition weighed (w : Weighed) : option Z := match w with Exact pt => Some pt | FirstUsable r => r end.

Lemma weigh_listed_in s want l : forall first saw, (forall pt, first = Some pt -> pt ∈ h264 s) ->
  forall pt, weighed (weigh_listed s want l first saw).1 = Some pt -> pt ∈ h264 s.
Proof.
  induction l as [|x l IH]; intros first saw Hf pt; [apply Hf|]. cbn [weigh_listed].
  destruct (bool_decide_reflect (x ∈ h264 s)) as [Hx|]; cbn [negb]; [|by apply IH].
  destruct (negb (mode1 s x)); [by apply IH|]. destruct (_ && _); [by intros [= <-]|]. apply IH. intros y. destruct first; [apply Hf|by intros [= <-]].
Qed.

Lemma weigh_unlisted_in s listed keys : forall saw pt, (weigh_unlisted s listed keys saw).1 = Some pt -> pt ∈ keys.
Proof.
  induction keys as [|x keys IH]; intros saw pt; [done|]. cbn [weigh_unlisted].
  destruct (bool_decide _); [intros H; right; by apply IH in H|]. destruct (negb _); [intros H; right; by apply IH in H|].
  intros [= <-]. left.
Qed.

Lemma good_choose idx pt s : (exists m, media_at idx (o s) = Some m /\ kind m = txt "video") -> pt ∈ h264 s -> good s ->
  good (choose_payload idx pt s).
Proof.
  intros (m & Hm & Hk) Hpt Hs. pose proof (good_h264 s Hs) as Hr. rewrite Forall_forall in Hr. specialize (Hr pt Hpt).
  pose proof (fmtp_value_free (params_of s pt) "profile-level-id" (params_free s pt Hs)) as Hp.
  unfold choose_payload. set (f := fun m => m <| h264_pt := pt |> <| h264_profile := profile_level s pt |>).
  assert (G : good (on_media idx f s)).
  { apply good_on_media; [|done]. intros x _. split; [|split; [done|cbn; lia]]. intros [B1 B2 B3 (B4 & B5 & B6)]. split; try done.
    cbn. unfold number in *. split; [lia|done]. }
  destruct (Z.ltb_spec (video_index (o (on_media idx f s))) 0); [|done]. destruct G as [A1 A2 A3 _ A5]. split; try done. right. cbn.
  exists (f m). pose proof (on_media_at idx f s idx m Hm) as E. rewrite Z.eqb_refl in E.
  split; [exact E|]. split; [done|]. cbn. lia.
Qed.

Lemma good_saw s b : good s -> good (s <| saw_h264_any_mode := b |>).
Proof. by intros [A1 A2 A3 A4 A5]. Qed.

Lemma good_settle want idx s : good s -> good (settle_video want idx s).
Proof.
  intros Hs. unfold settle_video. destruct (media_at idx (o s)) as [m|] eqn:Em; [|done].
  unfold text_eqb. destruct (bool_decide_reflect (kind m = txt "video")) as [Hk|]; cbn [negb]; [|done].
  pose proof (weigh_listed_in s want (pts m) None (saw_h264_any_mode s) ltac:(done)) as Hl.
  destruct (weigh_listed _ _ _ _ _) as [w saw]. assert (G : good (s <| saw_h264_any_mode := saw |>)) by by apply good_saw.
  assert (X : exists m0, media_at idx (o (s <| saw_h264_any_mode := saw |>)) = Some m0 /\ kind m0 = txt "video") by by exists m.
  destruct w as [pt|[pt|]]; [by apply good_choose; [|apply Hl|]..|].
  pose proof (weigh_unlisted_in (s <| saw_h264_any_mode := saw |>) (pts m) (h264 s) saw) as Hu. cbn [h264] in *.
  change (h264 (s <| saw_h264_any_mode := saw |>)) with (h264 s).
  destruct (weigh_unlisted _ _ _ _) as [[pt|] saw']; [|by apply good_saw].
  apply good_choose; [done|by apply Hu|by apply good_saw].
Qed.

Lemma scan_int_number s pt rest : scan_int s = Some (pt, rest) -> pt < 2 ^ 31.
Proof.
  unfold scan_int. destruct (match skip_space s with [] => _ | _ => _ end) as [neg x]. destruct (take_digits x) as [[|] r]; [done|].
  intros [= <- _]. apply swrap_range. lia.
Qed.

Lemma good_new k l : free NL k -> free " " k -> good_media (OfferMedia_new k l).
Proof.
  intros H1 H2. split; cbn; [done|apply Forall_nil_2|by split; apply Forall_nil_2|]. unfold number. lia.
Qed.

Lemma index_of_free c l sp : index_of c l = Some sp -> free c (take sp l).
Proof.
  revert sp. induction l as [|x l IH]; intros sp; cbn; [done|]. destruct (Ascii.eqb_spec x c); [intros [= <-]; constructor|].
  destruct (index_of c l) as [i|]; [|done]. intros [= <-]. constructor; [done|]. by apply IH.
Qed.

Lemma index_of_free_all c l : index_of c l = None -> free c l.
Proof.
  induction l as [|x l IH]; cbn; [constructor|]. destruct (Ascii.eqb_spec x c); [done|].
  destruct (index_of c l) as [i|]; [done|]. constructor; [done|by apply IH].
Qed.

Lemma good_m_line l : free NL l -> good_media (m_line l).
Proof.
  intros Hl. unfold m_line. destruct (index_of " " l) as [sp|] eqn:E; apply good_new; auto with sdp.
  - destruct (decide (2 <= sp)%nat); [|by replace (sp - 2)%nat with O by lia; apply Forall_nil_2].
    rewrite take_drop_commute. apply free_drop. replace (2 + (sp - 2))%nat with sp by lia. by apply index_of_free.
  - apply free_drop. by apply index_of_free_all.
Qed.

Lemma good_offer f s : media (f (o s)) = media (o s) -> video_index (f (o s)) = video_index (o s) -> o_ok (f (o s)) = o_ok (o s) -> good s -> good (s <| o ::= f |>).
Proof.
  intros E1 E2 E3 [A1 A2 A3 A4 A5]. split; cbn; try done; [by rewrite E1| |congruence]. unfold video_found, media_at in *. by rewrite E1, E2.
Qed.

Lemma good_rtpmap l s : good s -> good (on_rtpmap l s).
Proof.
  intros Hs. unfold on_rtpmap, scan_rtpmap. destruct (scan_int _) as [[pt rest]|] eqn:E; [|done]. cbn [mbind option_bind]. apply scan_int_number in E.
  destruct (take_codec _ _) as [|c0 codec]; [done|]. destruct (Z.ltb_spec pt 0) as [|Hpt]; [done|].
  set (s1 := if ieq _ "H264" then _ else _). assert (H1 : good s1).
  { unfold s1. destruct (ieq _ _); [|done]. destruct Hs as [A1 A2 A3 A4 A5]. split; try done. cbn. clear -A3 E Hpt.
    induction A3 as [|x l Hx Hl IH]; cbn; [constructor; [lia|constructor]|]. destruct (pt <? x); [constructor; [lia|by constructor]|].
    destruct (pt =? x); by constructor. }
  clearbody s1. destruct (media_at _ _) as [m|]; [|done].
  assert (N : forall b i g s0, (forall m, refines g m) -> good s0 -> good (if b : bool then on_media i g s0 else s0)).
  { intros [] i g s0 Hg Hs0; [by apply good_on_media|done]. }
  set (s2 := if _ && _ then _ else s1). assert (H2 : good s2).
  { unfold s2. destruct (_ && _); [|done]. apply N; [|apply N; [|done]]; intros x; (split; [|split; [done|done]]);
      intros [B1 B2 B3 (B4 & B5 & B6)]; split; try done; cbn; unfold number in *; (split; [done|split; lia]). }
  clearbody s2. match goal with |- good (if ?b then _ else _) => destruct b end; [|done]. destruct H2. by split.
Qed.

Lemma good_line want s l : free NL l -> good s -> good (on_line want s l).
Proof.
  intros Hl Hs. unfold on_line. destruct (starts "m=" l).
  - apply (good_settle want (cur s)) in Hs. destruct Hs as [A1 A2 A3 A4 A5]. split; cbn.
    + apply Forall_app. split; [done|]. constructor; [by apply good_m_line|constructor].
    + intros pt t H. by rewrite lookup_empty in H.
    + constructor.
    + destruct A4 as [A4|(m & Hm & Hk)]; [by left|]. right. exists m. split; [|done]. apply media_at_in in Hm as [Hi Hm].
      unfold media_at. cbn. destruct (Z.ltb_spec (video_index (o (settle_video want (cur s) s))) 0); [lia|].
      by apply lookup_app_l_Some.
    + done.
  - destruct (starts "a=mid:" l).
    { apply good_on_media; [|done]. intros m _. split; [|done]. intros [B1 B2 B3 B4]. split; try done. cbn. auto with sdp. }
    destruct (is_direction l); [apply good_on_media; [|done]; intros m _; split; [by intros []|done]|].
    destruct (starts "a=ice-ufrag:" l); [destruct (bool_decide _); [by apply good_offer|done]|].
    destruct (starts "a=ice-pwd:" l); [destruct (bool_decide _); [by apply good_offer|done]|].
    destruct (starts "a=fingerprint:" l); [destruct (bool_decide _); [destruct (index_of _ _)|]; try done; by apply good_offer|].
    destruct (starts "a=rtpmap:" l); [by apply good_rtpmap|]. destruct (starts "a=fmtp:" l); [|done].
    unfold on_fmtp. destruct (scan_int _) as [[pt rest]|]; [|done]. destruct (pt <? 0); [done|]. destruct Hs as [A1 A2 A3 A4 A5].
    split; try done. cbn. intros k t. destruct (decide (pt = k)) as [->|]; [rewrite lookup_insert_eq; intros [= <-]; auto with sdp|].
    rewrite lookup_insert_ne by done. apply A2.
Qed.

Lemma good_lines want l : forall s, Forall (free NL) l -> good s -> good (foldl (on_line want) s l).
Proof. induction l as [|x l IH]; intros s [Hx Hl]%Forall_cons Hs || intros s _ Hs; [done|]. by apply IH, good_line. Qed.

(** The audio section that is found, and the first one. *)
Definition speaks (m : OfferMedia) : bool := text_eqb (kind m) (txt "audio") && ((0 <=? pcma_pt m) || (0 <=? pcmu_pt m)).

Definition audio_found (x : Offer) : Prop :=
  audio_index x = -1 \/ exists m, media_at (audio_index x) x = Some m /\ kind m = txt "audio".

Lemma audio_from_at ms : forall i, 0 <= i ->
  audio_from i ms = -1 \/ exists k m, audio_from i ms = i + Z.of_nat k /\ ms !! k = Some m /\ speaks m = true.
Proof.
  induction ms as [|m ms IH]; intros i Hi; [by left|]. cbn [audio_from]. fold (speaks m). destruct (speaks m) eqn:E.
  - right. exists 0%nat, m. split; [lia|done].
  - destruct (IH (i + 1) ltac:(lia)) as [->|(k & m' & -> & Hk & Hm)]; [by left|]. right. exists (S k), m'. split; [lia|done].
Qed.

(** Of any text: the sections are good, and an index that is given is one of a
    video section with a payload, or of an audio section. *)
Lemma parse_offer_good sdp want : let x := parse_offer sdp want in Forall good_media (media x) /\ video_found x /\ audio_found x /\ (0 <= video_index x \/ o_ok x = false).
Proof.
  cbv zeta. unfold parse_offer. set (s := settle_video _ _ _). assert (G : good s).
  { apply good_settle, good_lines; [apply lines_free|]. split; [apply Forall_nil_2|by intros pt t; cbn; rewrite lookup_empty|apply Forall_nil_2|by left|done]. }
  clearbody s. cbv zeta. set (x := o s <| audio_index := _ |>).
  assert (A : Forall good_media (media x) /\ video_found x /\ audio_found x /\ (0 <= video_index x \/ o_ok x = false)).
  { destruct G as [A1 _ _ A4 A5]. split; [done|]. split; [exact A4|]. split; [|by right]. unfold audio_found. cbn.
    destruct (audio_from_at (media (o s)) 0 ltac:(lia)) as [->|(k & m & -> & Hk & Hm)]; [by left|]. right. exists m.
    unfold media_at. destruct (Z.ltb_spec (0 + Z.of_nat k) 0); [lia|]. cbn. replace (Z.to_nat (0 + Z.of_nat k)) with k by lia. split; [done|].
    unfold speaks in Hm. apply andb_true_iff in Hm as [Hm _]. by apply bool_decide_eq_true in Hm. }
  destruct (Z.ltb_spec (video_index x) 0); [exact A|]. destruct (_ || _); [exact A|]. destruct (bool_decide _); [exact A|].
  destruct A as (A1 & A2 & A3 & _). split; [done|]. split; [done|]. split; [done|]. by left.
Qed.

(** What [Peer.on_offer] relies on. *)
Lemma video_index_valid sdp want : o_ok (parse_offer sdp want) = true ->
  exists m, media_at (video_index (parse_offer sdp want)) (parse_offer sdp want) = Some m /\ kind m = txt "video" /\ 0 <= h264_pt m.
Proof.
  intros Hok. destruct (parse_offer_good sdp want) as (_ & [Hv|Hv] & _ & [H|H]); try done; [lia|congruence].
Qed.

(** ** The answer as lines *)

(** What the camera puts into an answer: its own texts and numbers. *)
Record sane (p : AnswerParams) : Prop := {
  s_ufrag : p_ice_ufrag p <> [] /\ free NL (p_ice_ufrag p);
  s_pwd : p_ice_pwd p <> [] /\ free NL (p_ice_pwd p);
  s_fingerprint : p_fingerprint p <> [] /\ free NL (p_fingerprint p);
  s_host : (length (host_ip p) <= 64)%nat /\ free NL (host_ip p) /\ free "000" (host_ip p);
  s_cname : (length (cname p) <= 64)%nat /\ free NL (cname p) /\ free "000" (cname p);
  s_numbers : 0 <= port p /\ 0 <= ssrc p /\ 0 <= audio_ssrc p /\ number (audio_pt p);
}.

(** A section whose kind the buffer of the m-line holds. *)
Definition short (m : OfferMedia) : Prop := (length (kind m) <= 128)%nat /\ free "000" (kind m).

Definition head_line (k : text) (port : Z) (pt : Z) : text :=
  txt "m=" ++ k ++ txt " " ++ print_dec port ++ txt " UDP/TLS/RTP/SAVPF " ++ print_dec pt.
Definition mid_lines (m : OfferMedia) : list text := match mid m with [] => [] | _ => [txt "a=mid:" ++ mid m] end.
Definition transport (p : AnswerParams) : list text :=
  [txt "a=ice-ufrag:" ++ p_ice_ufrag p; txt "a=ice-pwd:" ++ p_ice_pwd p; txt "a=fingerprint:sha-256 " ++ p_fingerprint p; txt "a=setup:passive"].
Definition last_lines (p : AnswerParams) : list text :=
  [txt "a=candidate:1 1 udp 2130706431 " ++ host_ip p ++ txt " " ++ print_dec (port p) ++ txt " typ host"; txt "a=end-of-candidates"].
Definition source_line (n : Z) (p : AnswerParams) : text := txt "a=ssrc:" ++ print_dec n ++ txt " cname:" ++ cname p.

Definition video_lines (p : AnswerParams) (m : OfferMedia) : list text :=
  let pt := print_dec (h264_pt m) in
  ([head_line (kind m) (port p) (h264_pt m); txt "c=IN IP4 " ++ host_ip p] ++ mid_lines m) ++ transport p
  ++ [txt "a=sendonly"; txt "a=rtcp-mux"; txt "a=rtpmap:" ++ pt ++ txt " H264/90000";
      txt "a=fmtp:" ++ pt ++ txt " level-asymmetry-allowed=1;packetization-mode=1"
      ++ (match h264_profile m with [] => [] | _ => txt ";profile-level-id=" ++ h264_profile m end);
      txt "a=rtcp-fb:" ++ pt ++ txt " nack"; txt "a=rtcp-fb:" ++ pt ++ txt " nack pli"; source_line (ssrc p) p] ++ last_lines p.

Definition direction_line (p : AnswerParams) : text :=
  if audio_send p && audio_recv p then txt "a=sendrecv" else if audio_send p then txt "a=sendonly" else txt "a=recvonly".

Definition audio_lines (p : AnswerParams) (m : OfferMedia) : list text :=
  ([head_line (txt "audio") (port p) (audio_pt p); txt "c=IN IP4 " ++ host_ip p] ++ mid_lines m) ++ transport p
  ++ [direction_line p; txt "a=rtcp-mux";
      txt "a=rtpmap:" ++ print_dec (audio_pt p) ++ txt " " ++ (if audio_pt p =? pcma_pt m then txt "PCMA" else txt "PCMU") ++ txt "/8000"]
  ++ (if audio_send p then [source_line (audio_ssrc p) p] else []) ++ last_lines p.

Definition declined_lines (m : OfferMedia) : list text :=
  ([head_line (kind m) 0 0; txt "c=IN IP4 0.0.0.0"] ++ mid_lines m) ++ [txt "a=inactive"].

Lemma length_print_dec n : (length (print_dec n) <= 20)%nat.
Proof. pose proof (print_digits_size 20 n) as H. unfold size, print_dec in *. lia. Qed.

Lemma printed_short s : (length s <= 255)%nat -> printed s = s.
Proof. apply take_ge. Qed.

Lemma print_int_dec n : 0 <= n -> print_int n = print_dec n.
Proof. intros Hn. unfold print_int. by destruct (Z.ltb_spec n 0); [lia|]. Qed.

(** A line that fits into the buffer. *)
Ltac fits :=
  unfold ln; cbn [concat]; rewrite ?length_app;
  repeat match goal with |- context [length (print_dec ?n)] =>
    lazymatch goal with
    | H : (length (print_dec n) <= 20)%nat |- _ => fail
    | _ => pose proof (length_print_dec n)
    end
  end;
  repeat match goal with |- context [length (txt ?s)] => let k := eval vm_compute in (length (txt s)) in change (length (txt s)) with k end;
  change (length CRLF) with 2%nat; change (length (@nil ascii)) with 0%nat; lia.

Lemma one_line l x : concat l = x -> ln l = unlines [x].
Proof. intros <-. unfold unlines, ln. cbn [map concat]. by rewrite app_nil_r. Qed.

Lemma lines_cons l x s L : concat l = x -> s = unlines L -> ln l ++ s = unlines (x :: L).
Proof. intros <- ->. done. Qed.

(** A chain of lines, one by one. *)
Ltac join := cbn [concat]; rewrite ?app_nil_r, <- ?app_assoc; reflexivity.

Lemma mid_line_lines m : mid_line m = unlines (mid_lines m).
Proof. unfold mid_line, mid_lines. destruct (mid m) as [|c s]; [done|]. apply one_line. join. Qed.

Lemma transport_lines_lines p : transport_lines p = unlines (transport p).
Proof. unfold transport_lines, transport. repeat (apply lines_cons; [join|]). apply one_line. join. Qed.

Lemma last_lines_lines p : sane p -> candidate_line p ++ ln [txt "a=end-of-candidates"] = unlines (last_lines p).
Proof.
  intros [_ _ _ (H1 & H2 & H3) _ _]. unfold candidate_line. rewrite c_str_free by done. rewrite printed_short by fits.
  unfold last_lines. apply lines_cons; [join|]. apply one_line. join.
Qed.

Lemma source_line_line n p : sane p -> printed (ln [txt "a=ssrc:"; print_dec n; txt " cname:"; c_str (cname p)]) = unlines [source_line n p].
Proof.
  intros [_ _ _ _ (H1 & H2 & H3) _]. rewrite c_str_free by done. rewrite printed_short by fits.
  apply one_line. join.
Qed.

Lemma head_lines k s m P h : (length k <= 128)%nat -> free "000" k -> concat h = txt "c=IN IP4 " ++ s -> 0 <= P ->
  forall n, 0 <= n ->
  printed (ln [txt "m="; c_str k; txt " "; print_dec P; txt " UDP/TLS/RTP/SAVPF "; print_int n]) ++ ln h ++ mid_line m
  = unlines ([head_line k P n; txt "c=IN IP4 " ++ s] ++ mid_lines m).
Proof.
  intros Hk Hk0 Hh HP n Hn. rewrite c_str_free, print_int_dec by done. rewrite printed_short by fits. cbn [app].
  apply lines_cons; [join|]. apply lines_cons; [done|]. apply mid_line_lines.
Qed.

Lemma section_head_video p m : sane p -> short m -> 0 <= h264_pt m ->
  section_head p m true = unlines ([head_line (kind m) (port p) (h264_pt m); txt "c=IN IP4 " ++ host_ip p] ++ mid_lines m).
Proof.
  intros Hp [H1 H2] Hn. unfold section_head. apply head_lines; try done; [join|]. apply (s_numbers p Hp).
Qed.

Lemma declined_section_lines p m : short m -> declined_section p m = unlines (declined_lines m).
Proof.
  intros [H1 H2]. unfold declined_section, declined_lines. rewrite unlines_app. f_equal.
  unfold section_head. by apply (head_lines (kind m) (txt "0.0.0.0")).
Qed.

Lemma unlines_cons x l : unlines (x :: l) = unlines [x] ++ unlines l.
Proof. apply (unlines_app [x]). Qed.

Lemma printed_line l x s L : concat l = x -> (length x <= 253)%nat -> s = unlines L -> printed (ln l) ++ s = unlines (x :: L).
Proof.
  intros <- Hl ->. rewrite printed_short; [done|]. unfold ln. rewrite length_app. cbn. lia.
Qed.

Lemma video_section_lines p m : sane p -> short m -> 0 <= h264_pt m -> video_section p m = unlines (video_lines p m).
Proof.
  intros Hp Hm Hn. unfold video_section, video_lines. rewrite section_head_video by done. rewrite (unlines_app (_ ++ mid_lines m)), (unlines_app (transport p)).
  f_equal. f_equal; [apply transport_lines_lines|]. rewrite print_int_dec by done.
  do 2 (apply lines_cons; [join|]). apply printed_line; [join|fits|]. rewrite unlines_cons, printed_short by fits.
  rewrite (app_assoc (match h264_profile m with [] => [] | _ => _ end) CRLF), (app_assoc (txt "a=fmtp:" ++ _)). f_equal.
  - unfold unlines. cbn [map concat]. by rewrite app_nil_r, <- !app_assoc.
  - do 2 (apply printed_line; [join|fits|]). by rewrite source_line_line, last_lines_lines, <- unlines_app by done.
Qed.

Lemma audio_section_lines p m : sane p -> 0 <= audio_pt p -> audio_section p m = unlines (audio_lines p m).
Proof.
  intros Hp Hn. pose proof (s_numbers p Hp) as (HP & _ & HS & _). unfold audio_section, audio_lines.
  rewrite (unlines_app (_ ++ mid_lines m)), (unlines_app (transport p)). rewrite <- (head_lines _ _ _ _ [txt "c=IN IP4 "; host_ip p]); try done; [|cbn; lia|by apply free_lit|join].
  rewrite <- !app_assoc. do 3 f_equal. f_equal; [apply transport_lines_lines|]. rewrite print_int_dec by done.
  do 2 (apply lines_cons; [unfold direction_line; join|]). apply printed_line; [destruct (_ =? _); join|destruct (_ =? _); fits|].
  rewrite last_lines_lines by done. destruct (audio_send p); [|done]. by rewrite source_line_line, <- unlines_app by done.
Qed.

Definition section_lines (offer : Offer) (p : AnswerParams) (i : nat) (m : OfferMedia) : list text :=
  if with_audio offer p && (Z.of_nat i =? audio_index offer) then audio_lines p m
  else if Z.of_nat i =? video_index offer then video_lines p m
  else declined_lines m.

Definition group (offer : Offer) (p : AnswerParams) : text := concat (imap (fun i m =>
    if ((Z.of_nat i =? video_index offer) || (with_audio offer p && (Z.of_nat i =? audio_index offer)))
       && negb (bool_decide (mid m = [])) then txt " " ++ mid m else []) (media offer)).

Definition session_lines (offer : Offer) (p : AnswerParams) : list text :=
  [txt "v=0"; txt "o=- 1 2 IN IP4 127.0.0.1"; txt "s=-"; txt "t=0 0"; txt "a=ice-lite"]
  ++ (match group offer p with [] => [] | _ => [txt "a=group:BUNDLE" ++ group offer p] end) ++ [txt "a=msid-semantic: WMS *"].

Definition answer_lines (offer : Offer) (p : AnswerParams) : list text :=
  session_lines offer p ++ concat (imap (section_lines offer p) (media offer)).

Lemma unlines_concat L : unlines (concat L) = concat (map unlines L).
Proof. induction L as [|l L IH]; [done|]. cbn [concat map]. by rewrite unlines_app, IH. Qed.

(** An offer that can be answered: what [parse_offer_good] says, and kinds that fit. *)
Record answerable (x : Offer) : Prop := {
  a_good : Forall good_media (media x);
  a_short : Forall short (media x);
  a_video : exists m, media_at (video_index x) x = Some m /\ kind m = txt "video" /\ 0 <= h264_pt m;
  a_audio : audio_found x;
}.

Lemma media_at_lookup i k x m m' : Z.of_nat k = i -> media_at i x = Some m -> media x !! k = Some m' -> m' = m.
Proof. intros <- [_ E]%media_at_in. rewrite Nat2Z.id in E. congruence. Qed.

Lemma with_audio_payload x p : with_audio x p = true -> 0 <= audio_pt p.
Proof. unfold with_audio. intros [[H _]%andb_true_iff _]%andb_true_iff. lia. Qed.

Lemma build_answer_lines x p : o_ok x = true -> answerable x -> sane p -> build_answer x p = unlines (answer_lines x p).
Proof.
  intros Hok [A1 A2 (v & Hv & Hvk & Hvp) A4] Hp. assert (Hi : 0 <= video_index x) by (apply media_at_in in Hv; lia).
  unfold build_answer. rewrite Hok. destruct (Z.ltb_spec (video_index x) 0); [lia|]. cbn [negb orb].
  unfold answer_lines, session_lines. rewrite <- !app_assoc. cbn [app]. do 5 (apply lines_cons; [join|]).
  change (bundle_group x p) with (match group x p with [] => [] | _ => ln [txt "a=group:BUNDLE"; group x p] end).
  assert (E : concat (imap (media_section x p) (media x)) = unlines (concat (imap (section_lines x p) (media x)))).
  { rewrite unlines_concat. f_equal. rewrite fmap_imap. apply imap_ext. intros i m Hm. unfold media_section, section_lines. cbn [compose].
    rewrite Forall_forall in A2. pose proof (A2 m (list_elem_of_lookup_2 _ _ _ Hm)) as Hs.
    destruct (with_audio x p) eqn:Ea; cbn [andb]; [destruct (Z.eqb_spec (Z.of_nat i) (audio_index x)); [by apply audio_section_lines, (with_audio_payload x)|]|];
      (destruct (Z.eqb_spec (Z.of_nat i) (video_index x)) as [Ei|]; [|by apply declined_section_lines]);
      rewrite (media_at_lookup _ _ _ _ _ Ei Hv Hm) in *; by apply video_section_lines. }
  destruct (group x p) as [|c g]; cbn [app]; [|apply lines_cons; [join|]]; by apply lines_cons; [join|].
Qed.

Lemma free_print c n : is_digit c = false -> 0 <= n -> free c (print_dec n).
Proof. intros Hc Hn. by apply free_digits, print_dec_digits. Qed.

(** No line of the answer holds a line end. *)
Ltac freed := repeat first [assumption | lazymatch goal with
  | |- Forall _ [] => apply Forall_nil_2
  | |- Forall _ (_ :: _) => apply Forall_cons; split
  | |- free _ [] => apply Forall_nil_2
  | |- free _ (_ ++ _) => apply free_app
  | |- free _ (txt _) => apply free_lit; reflexivity
  | |- free _ (print_dec _) => apply free_print; [reflexivity|lia]
  end].

Lemma free_mid_lines m : good_media m -> Forall (free NL) (mid_lines m).
Proof. intros Hm. pose proof (g_mid m Hm) as H. unfold mid_lines. destruct (mid m); freed. Qed.

Lemma free_video_lines p m : sane p -> good_media m -> 0 <= h264_pt m -> Forall (free NL) (video_lines p m).
Proof.
  intros [(_ & H1) (_ & H2) (_ & H3) (_ & H4 & _) (_ & H5 & _) H6] Hm Hn. pose proof (g_kind m Hm) as [Hk _]. pose proof (g_profile m Hm) as [Hf _].
  unfold video_lines, head_line, transport, last_lines, source_line.
  repeat apply Forall_app_2; try (by apply free_mid_lines); destruct (h264_profile m) eqn:E; freed.
Qed.

Lemma free_audio_lines p m : sane p -> good_media m -> 0 <= audio_pt p -> Forall (free NL) (audio_lines p m).
Proof.
  intros [(_ & H1) (_ & H2) (_ & H3) (_ & H4 & _) (_ & H5 & _) H6] Hm Hn. unfold audio_lines, head_line, transport, last_lines, source_line, direction_line.
  repeat apply Forall_app_2; try (by apply free_mid_lines); destruct (audio_send p), (audio_recv p), (audio_pt p =? pcma_pt m); cbn [andb]; freed.
Qed.

Lemma free_declined_lines m : good_media m -> Forall (free NL) (declined_lines m).
Proof.
  intros Hm. pose proof (g_kind m Hm) as [Hk _]. unfold declined_lines, head_line.
  repeat apply Forall_app_2; try (by apply free_mid_lines); freed.
Qed.

Lemma free_concat c l : Forall (free c) l -> free c (concat l).
Proof. induction 1 as [|x l Hx _ IH]; [apply Forall_nil_2|]. by apply free_app. Qed.

Lemma free_answer x p : answerable x -> sane p -> Forall (free NL) (answer_lines x p).
Proof.
  intros [A1 _ (v & Hv & _ & Hvp) _] Hp. rewrite Forall_forall in A1. unfold answer_lines, session_lines.
  assert (G : free NL (group x p)).
  { apply free_concat, Forall_forall. intros t (i & m & -> & Hm)%elem_of_lookup_imap. apply list_elem_of_lookup_2, A1 in Hm.
    destruct (_ && _); [apply free_app; [by apply free_lit|apply (g_mid m Hm)]|apply Forall_nil_2]. }
  apply Forall_app_2; [destruct (group x p); repeat apply Forall_app_2; freed|].
  apply Forall_concat, Forall_forall. intros t (i & m & -> & Hm)%elem_of_lookup_imap. pose proof (A1 m (list_elem_of_lookup_2 _ _ _ Hm)) as Hg.
  unfold section_lines. destruct (with_audio x p) eqn:Ea; cbn [andb].
  - destruct (_ =? audio_index x); [by apply free_audio_lines, (with_audio_payload x)|].
    destruct (Z.eqb_spec (Z.of_nat i) (video_index x)) as [Ei|]; [|by apply free_declined_lines].
    rewrite (media_at_lookup _ _ _ _ _ Ei Hv Hm) in *. by apply free_video_lines.
  - destruct (Z.eqb_spec (Z.of_nat i) (video_index x)) as [Ei|]; [|by apply free_declined_lines].
    rewrite (media_at_lookup _ _ _ _ _ Ei Hv Hm) in *. by apply free_video_lines.
Qed.

(** ** A reader of the answer *)

Section Reader.
Variable want : text.

(** The state inside a section: [m] so far, with what was said about payloads. *)
Definition at_media (x : Offer) (m : OfferMedia) (h : list Z) (f : gmap Z text) (ov : list text) (saw : bool) : Parsing :=
  {| o := x <| media := media x ++ [m] |>; cur := Z.of_nat (length (media x)); h264 := h; fmtp := f; offered_video := ov; saw_h264_any_mode := saw |}.

Definition one (n : Z) : list Z := if n <? 128 then [n] else [].

Lemma m_line_head k P n : free " " k -> 0 <= P -> 0 <= n < 2 ^ 31 -> m_line (head_line k P n) = OfferMedia_new k (one n).
Proof.
  intros Hk HP Hn. unfold m_line, head_line. set (rest := print_dec P ++ txt " UDP/TLS/RTP/SAVPF " ++ print_dec n).
  change (txt "m=" ++ k ++ txt " " ++ rest) with ("m"%char :: "="%char :: k ++ " "%char :: rest).
  change ("m"%char :: "="%char :: k ++ " "%char :: rest) with ((txt "m=" ++ k) ++ " "%char :: rest).
  rewrite index_of_app by (apply free_notin, free_app; [by apply free_lit|done]).
  rewrite length_app. change (length (txt "m=")) with 2%nat. replace (2 + length k - 2)%nat with (length k) by lia.
  rewrite <- app_assoc. change (drop 2 (txt "m=" ++ k ++ " "%char :: rest)) with (k ++ " "%char :: rest). rewrite take_app_length.
  assert (D : drop (S (2 + length k)) (txt "m=" ++ k ++ " "%char :: rest) = rest).
  { change (drop (S (length k)) (k ++ " "%char :: rest) = rest). replace (S (length k)) with (length (k ++ [" "%char])) by (rewrite length_app; cbn; lia).
    change (k ++ " "%char :: rest) with (k ++ [" "%char] ++ rest). rewrite app_assoc. apply drop_app_length. }
  rewrite D. unfold rest. assert (F : forall n, 0 <= n -> " "%char ∉ print_dec n) by (intros z Hz; by apply free_notin, free_print).
  change (print_dec P ++ txt " UDP/TLS/RTP/SAVPF " ++ print_dec n) with (print_dec P ++ " "%char :: txt "UDP/TLS/RTP/SAVPF" ++ " "%char :: print_dec n).
  unfold split_on. rewrite split_at_app by auto. rewrite split_at_app by (by apply free_notin, free_lit). rewrite split_at_end by (apply F; lia).
  cbn [app drop foldl]. f_equal. unfold payload_field. rewrite print_dec_digits, print_dec_value by lia. cbn [length Nat.ltb Nat.leb andb app].
  destruct (print_dec_head n ltac:(lia)) as (c & s & -> & _). done.
Qed.

Lemma read_head s k P n : free " " k -> 0 <= P -> 0 <= n < 2 ^ 31 ->
  on_line want s (head_line k P n)
  = at_media (o (settle_video want (cur s) s)) (OfferMedia_new k (one n)) [] ∅ (offered_video (settle_video want (cur s) s))
      (saw_h264_any_mode (settle_video want (cur s) s)).
Proof.
  intros Hk HP Hn. unfold on_line. change (starts "m=" (head_line k P n)) with true. cbv iota zeta.
  rewrite m_line_head by done. set (s1 := settle_video want (cur s) s). destruct s1 as [x cu h f ov saw]. unfold at_media. cbn.
  f_equal. rewrite length_app. cbn. lia.
Qed.

Lemma on_media_last x m h f ov saw g :
  on_media (Z.of_nat (length (media x))) g (at_media x m h f ov saw) = at_media x (g m) h f ov saw.
Proof.
  unfold on_media, at_media. destruct (Z.ltb_spec (Z.of_nat (length (media x))) 0); [lia|]. cbn. by rewrite Nat2Z.id, alter_app_r_alt, Nat.sub_diag by lia.
Qed.

Lemma media_at_last x m : media_at (Z.of_nat (length (media x))) (x <| media := media x ++ [m] |>) = Some m.
Proof.
  unfold media_at. destruct (Z.ltb_spec (Z.of_nat (length (media x))) 0); [lia|]. cbn. rewrite Nat2Z.id. by rewrite list_lookup_middle.
Qed.

Definition first_wins (old new : text) : text := if bool_decide (old = []) then new else old.

Lemma read_mid x m h f ov saw t : on_line want (at_media x m h f ov saw) (txt "a=mid:" ++ t) = at_media x (m <| mid := t |>) h f ov saw.
Proof. exact (on_media_last x m h f ov saw (fun m => m <| mid := t |>)). Qed.

Lemma read_ufrag x m h f ov saw t :
  on_line want (at_media x m h f ov saw) (txt "a=ice-ufrag:" ++ t) = at_media (x <| ice_ufrag := first_wins (ice_ufrag x) t |>) m h f ov saw.
Proof.
  transitivity (if bool_decide (ice_ufrag x = []) then (at_media x m h f ov saw) <| o ::= fun x => x <| ice_ufrag := t |> |> else at_media x m h f ov saw); [reflexivity|].
  unfold first_wins. destruct x. cbn. by destruct (bool_decide _).
Qed.

Lemma read_pwd x m h f ov saw t :
  on_line want (at_media x m h f ov saw) (txt "a=ice-pwd:" ++ t) = at_media (x <| ice_pwd := first_wins (ice_pwd x) t |>) m h f ov saw.
Proof.
  transitivity (if bool_decide (ice_pwd x = []) then (at_media x m h f ov saw) <| o ::= fun x => x <| ice_pwd := t |> |> else at_media x m h f ov saw); [reflexivity|].
  unfold first_wins. destruct x. cbn. by destruct (bool_decide _).
Qed.

Lemma read_fingerprint x m h f ov saw t :
  on_line want (at_media x m h f ov saw) (txt "a=fingerprint:sha-256 " ++ t)
  = at_media (x <| fingerprint_alg := if bool_decide (fingerprint x = []) then txt "sha-256" else fingerprint_alg x |>
                <| fingerprint := first_wins (fingerprint x) t |>) m h f ov saw.
Proof.
  transitivity (if bool_decide (fingerprint x = []) then (at_media x m h f ov saw) <| o ::= fun x => x <| fingerprint_alg := txt "sha-256" |> <| fingerprint := t |> |>
                else at_media x m h f ov saw); [reflexivity|].
  unfold first_wins. destruct x. cbn. by destruct (bool_decide _).
Qed.

Lemma read_direction x m h f ov saw d : d ∈ [txt "sendrecv"; txt "sendonly"; txt "recvonly"; txt "inactive"] ->
  on_line want (at_media x m h f ov saw) (txt "a=" ++ d) = at_media x (m <| direction := d |>) h f ov saw.
Proof.
  intros Hd. rewrite <- (on_media_last x m h f ov saw (fun m => m <| direction := d |>)).
  repeat (apply elem_of_cons in Hd as [->|Hd]; [reflexivity|]). by apply elem_of_nil in Hd.
Qed.

Lemma c_str_app a b : free "000" a -> c_str (a ++ b) = a ++ c_str b.
Proof. induction 1 as [|c a Hc _ IH]; [done|]. cbn. destruct (Ascii.eqb_spec c "000"); [done|]. by rewrite IH. Qed.

Lemma occurs_end p a : occurs p (a ++ p) = true.
Proof.
  induction a as [|c a IH]; cbn [app].
  - destruct p as [|c p]; [done|]. cbn [occurs]. pose proof (has_prefix_app (c :: p) []) as E. rewrite app_nil_r in E. by rewrite E.
  - cbn [occurs]. rewrite IH. apply orb_true_r.
Qed.

Lemma at_media_last x m h f ov saw g : (forall y, cur (g y) = cur y) -> (forall y, o (g y) = o y) ->
  media_at (cur (g (at_media x m h f ov saw))) (o (g (at_media x m h f ov saw))) = Some m.
Proof. intros E1 E2. rewrite E1, E2. apply media_at_last. Qed.

Lemma scan_rtpmap_line n (codec : string) (rate : string) : 0 <= n < 2 ^ 31 ->
  free "000" (txt " " ++ txt codec ++ txt rate) -> take_codec 63 (skip_space (txt " " ++ txt codec ++ txt rate)) = txt codec -> txt codec <> [] ->
  scan_rtpmap (print_dec n ++ txt " " ++ txt codec ++ txt rate) = Some (n, txt codec).
Proof.
  intros Hn Hf Ht He. unfold scan_rtpmap. rewrite c_str_free by (apply free_app; [apply free_print; [done|lia]|done]).
  rewrite scan_int_print by (try done; lia). cbn [mbind option_bind]. rewrite Ht. destruct (txt codec) as [|c l]; [done|].
  by destruct (Z.ltb_spec n 0); [lia|].
Qed.

Lemma read_rtpmap_video x m h f ov saw n : 0 <= n < 2 ^ 31 -> kind m = txt "video" ->
  exists ov', on_line want (at_media x m h f ov saw) (txt "a=rtpmap:" ++ print_dec n ++ txt " H264/90000") = at_media x m (insert_key n h) f ov' saw.
Proof.
  intros Hn Hk. set (l := txt "a=rtpmap:" ++ print_dec n ++ txt " H264/90000").
  change (on_line want (at_media x m h f ov saw) l) with (on_rtpmap l (at_media x m h f ov saw)). unfold on_rtpmap.
  assert (E : scan_rtpmap (drop 9 l) = Some (n, txt "H264")).
  { change (drop 9 l) with (print_dec n ++ txt " " ++ txt "H264" ++ txt "/90000"). by apply scan_rtpmap_line; [| apply free_lit| |]. }
  rewrite E. change (ieq (txt "H264") "H264") with true. cbv iota zeta.
  rewrite (at_media_last x m h f ov saw (fun s => s <| h264 ::= insert_key n |>)) by done.
  rewrite Hk. change (text_eqb (txt "video") (txt "audio")) with false. cbn [andb].
  match goal with |- exists _, (if ?b then _ else _) = _ => destruct b end; eexists; reflexivity.
Qed.

Lemma read_rtpmap_audio x m h f ov saw n (a : bool) : 0 <= n < 2 ^ 31 -> kind m = txt "audio" -> pcma_pt m = -1 -> pcmu_pt m = -1 ->
  on_line want (at_media x m h f ov saw) (txt "a=rtpmap:" ++ print_dec n ++ txt " " ++ (if a then txt "PCMA" else txt "PCMU") ++ txt "/8000")
  = at_media x (if a then m <| pcma_pt := n |> else m <| pcmu_pt := n |>) h f ov saw.
Proof.
  intros Hn Hk H1 H2. set (name := if a then txt "PCMA" else txt "PCMU"). set (l := txt "a=rtpmap:" ++ print_dec n ++ txt " " ++ name ++ txt "/8000").
  change (on_line want (at_media x m h f ov saw) l) with (on_rtpmap l (at_media x m h f ov saw)). unfold on_rtpmap.
  assert (E : scan_rtpmap (drop 9 l) = Some (n, name)).
  { change (drop 9 l) with (print_dec n ++ txt " " ++ name ++ txt "/8000").
    unfold name. destruct a; (apply scan_rtpmap_line; [done|by apply free_lit|done|done]). }
  assert (F : occurs (txt "/8000") (c_str l) = true).
  { assert (L : l = (txt "a=rtpmap:" ++ print_dec n ++ txt " " ++ name) ++ txt "/8000") by (unfold l; by rewrite <- !app_assoc).
    rewrite c_str_free; [rewrite L; apply occurs_end|]. unfold l, name. destruct a; freed. }
  rewrite E. cbv zeta. replace (if ieq name "H264" then _ else at_media x m h f ov saw) with (at_media x m h f ov saw) by by unfold name; destruct a.
  rewrite (at_media_last x m h f ov saw (fun s => s)) by done. rewrite Hk, F, H1, H2.
  change (text_eqb (txt "audio") (txt "audio")) with true. change (text_eqb (txt "audio") (txt "video")) with false. cbn [andb].
  pose proof (on_media_last x m h f ov saw (fun m => m <| pcma_pt := n |>)) as M1.
  pose proof (on_media_last x m h f ov saw (fun m => m <| pcmu_pt := n |>)) as M2. unfold name. by destruct a.
Qed.

Definition stated (profile : text) : text :=
  txt "level-asymmetry-allowed=1;packetization-mode=1" ++ (match profile with [] => [] | _ => txt ";profile-level-id=" ++ profile end).

Lemma read_fmtp x m h f ov saw n profile : 0 <= n < 2 ^ 31 ->
  on_line want (at_media x m h f ov saw)
    (txt "a=fmtp:" ++ print_dec n ++ txt " level-asymmetry-allowed=1;packetization-mode=1"
     ++ (match profile with [] => [] | _ => txt ";profile-level-id=" ++ profile end))
  = at_media x m h (<[n := stated profile]> f) ov saw.
Proof.
  intros Hn. set (tail := match profile with [] => [] | _ => _ end).
  set (l := txt "a=fmtp:" ++ print_dec n ++ txt " level-asymmetry-allowed=1;packetization-mode=1" ++ tail).
  change (on_line want (at_media x m h f ov saw) l) with (on_fmtp l (at_media x m h f ov saw)). unfold on_fmtp.
  set (body := txt "level-asymmetry-allowed=1;packetization-mode=1").
  change (drop 7 l) with (print_dec n ++ " "%char :: body ++ tail).
  assert (E : c_str (print_dec n ++ " "%char :: body ++ tail) = print_dec n ++ " "%char :: body ++ c_str tail).
  { rewrite c_str_app by (apply free_print; [done|lia]). done. }
  rewrite E, scan_int_print by done. destruct (Z.ltb_spec n 0); [lia|].
  change (skip_space (" "%char :: body ++ c_str tail)) with (body ++ c_str tail).
  replace (length (print_dec n ++ " "%char :: body ++ c_str tail) - length (body ++ c_str tail))%nat with (S (length (print_dec n)))
    by (rewrite length_app; cbn [length]; lia).
  assert (D : drop (7 + S (length (print_dec n))) l = body ++ tail).
  { change (drop (S (length (print_dec n))) (print_dec n ++ [" "%char] ++ body ++ tail) = body ++ tail). rewrite app_assoc.
    replace (S (length (print_dec n))) with (length (print_dec n ++ [" "%char])) by (rewrite length_app; cbn; lia). apply drop_app_length. }
  rewrite D. done.
Qed.

Lemma stated_mode profile : free ";" profile -> fmtp_value (stated profile) "packetization-mode" = txt "1".
Proof.
  intros Hf. unfold fmtp_value, stated, split_on. destruct profile as [|c profile]; [reflexivity|].
  change (txt "level-asymmetry-allowed=1;packetization-mode=1" ++ txt ";profile-level-id=" ++ c :: profile)
    with (txt "level-asymmetry-allowed=1" ++ ";"%char :: txt "packetization-mode=1" ++ ";"%char :: txt "profile-level-id=" ++ c :: profile).
  rewrite !split_at_app by (by apply free_notin, free_lit). reflexivity.
Qed.

Lemma stated_profile profile : free ";" profile -> fmtp_value (stated profile) "profile-level-id" = profile.
Proof.
  intros Hf. unfold fmtp_value, stated, split_on. destruct profile as [|c profile]; [reflexivity|].
  change (txt "level-asymmetry-allowed=1;packetization-mode=1" ++ txt ";profile-level-id=" ++ c :: profile)
    with (txt "level-asymmetry-allowed=1" ++ ";"%char :: txt "packetization-mode=1" ++ ";"%char :: txt "profile-level-id=" ++ c :: profile).
  rewrite !split_at_app by (by apply free_notin, free_lit).
  rewrite split_at_end by (apply free_notin; by apply (free_app ";" (txt "profile-level-id=")); [apply free_lit|]). reflexivity.
Qed.

(** The end of a section. *)
Definition settled (s : Parsing) : Parsing := settle_video want (cur s) s.

Lemma settled_nothing x m f ov saw : o (settled (at_media x m [] f ov saw)) = x <| media ::= fun ms => ms ++ [m] |>.
Proof.
  unfold settled, settle_video. rewrite (at_media_last x m [] f ov saw (fun s => s)) by done. destruct (negb _); [by destruct x|].
  set (s := at_media _ _ _ _ _ _). assert (W : forall l first, (weigh_listed s want l first saw) = (FirstUsable first, saw)).
  { induction l as [|pt l IH]; intros first; [done|]. cbn [weigh_listed]. rewrite bool_decide_eq_false_2 by apply not_elem_of_nil. apply IH. }
  change (saw_h264_any_mode s) with saw. rewrite W. cbn. by destruct x.
Qed.

Lemma settled_video x m ov saw n profile : free ";" profile -> kind m = txt "video" -> pts m = one n -> 0 <= n ->
  o (settled (at_media x m [n] {[n := stated profile]} ov saw))
  = x <| media ::= fun ms => ms ++ [m <| h264_pt := n |> <| h264_profile := profile |>] |>
      <| video_index ::= fun i => if i <? 0 then Z.of_nat (length (media x)) else i |>.
Proof.
  intros Hf Hk Hp Hn. set (s := at_media x m [n] {[n := stated profile]} ov saw).
  assert (M : forall s', h264 s' = h264 s -> fmtp s' = fmtp s -> params_of s' n = stated profile).
  { intros s' _ E. unfold params_of. rewrite E. cbn. by rewrite lookup_singleton_eq. }
  assert (C : forall b, o (choose_payload (cur s) n (s <| saw_h264_any_mode := b |>))
    = x <| media ::= fun ms => ms ++ [m <| h264_pt := n |> <| h264_profile := profile |>] |>
        <| video_index ::= fun i => if i <? 0 then Z.of_nat (length (media x)) else i |>).
  { intros b. change (s <| saw_h264_any_mode := b |>) with (at_media x m [n] {[n := stated profile]} ov b).
    change (cur s) with (Z.of_nat (length (media x))). unfold choose_payload.
    replace (profile_level (at_media x m [n] {[n := stated profile]} ov b) n) with profile
      by (unfold profile_level; rewrite M by done; by rewrite stated_profile).
    rewrite (on_media_last x m [n] {[n := stated profile]} ov b). cbn. destruct x. cbn. by destruct (_ <? 0). }
  assert (P : mode1 s n = true) by (unfold mode1; rewrite M by done; by rewrite stated_mode).
  assert (A : media_at (cur s) (o s) = Some m) by exact (media_at_last x m).
  unfold settled, settle_video. rewrite A, Hk, Hp.
  change (text_eqb (txt "video") (txt "video")) with true. cbn [negb]. change (saw_h264_any_mode s) with saw. unfold one. destruct (n <? 128).
  - cbn [weigh_listed]. rewrite bool_decide_eq_true_2 by (change (h264 s) with [n]; left). rewrite P. cbn [negb]. destruct (_ && _); apply C.
  - cbn [weigh_listed]. change (h264 (s <| saw_h264_any_mode := saw |>)) with [n]. cbn [weigh_unlisted]. rewrite bool_decide_eq_false_2 by apply not_elem_of_nil.
    unfold mode1. rewrite M by done. rewrite stated_mode by done. apply (C true).
Qed.

(** ** A section of the answer *)

Definition heard (p : AnswerParams) (x : Offer) : Offer :=
  x <| ice_ufrag := first_wins (ice_ufrag x) (p_ice_ufrag p) |> <| ice_pwd := first_wins (ice_pwd x) (p_ice_pwd p) |>
    <| fingerprint_alg := if bool_decide (fingerprint x = []) then txt "sha-256" else fingerprint_alg x |>
    <| fingerprint := first_wins (fingerprint x) (p_fingerprint p) |>.

Definition adds (x : Offer) (m : OfferMedia) : Offer := x <| media ::= fun ms => ms ++ [m] |>.

(** What is said of the direction of the audio. *)
Definition audio_direction (p : AnswerParams) : text :=
  if audio_send p && audio_recv p then txt "sendrecv" else if audio_send p then txt "sendonly" else txt "recvonly".

Definition declined_answer (m : OfferMedia) : OfferMedia :=
  {| kind := kind m; mid := mid m; pts := [0]; h264_pt := -1; h264_profile := []; pcma_pt := -1; pcmu_pt := -1; direction := txt "inactive" |}.
Definition video_answer (m : OfferMedia) : OfferMedia :=
  {| kind := kind m; mid := mid m; pts := one (h264_pt m); h264_pt := h264_pt m; h264_profile := h264_profile m;
     pcma_pt := -1; pcmu_pt := -1; direction := txt "sendonly" |}.
Definition audio_answer (p : AnswerParams) (m : OfferMedia) : OfferMedia :=
  let a := audio_pt p =? pcma_pt m in
  {| kind := txt "audio"; mid := mid m; pts := one (audio_pt p); h264_pt := -1; h264_profile := [];
     pcma_pt := if a then audio_pt p else -1; pcmu_pt := if a then -1 else audio_pt p; direction := audio_direction p |}.

Lemma read_mid_lines x m n h f ov saw : mid m = [] ->
  foldl (on_line want) (at_media x m h f ov saw) (mid_lines n) = at_media x (m <| mid := mid n |>) h f ov saw.
Proof.
  intros Hm. unfold mid_lines. destruct (mid n) as [|c t] eqn:E; cbn [foldl]; [destruct m; by cbn in *; subst|]. by rewrite read_mid.
Qed.

Lemma read_transport p x m h f ov saw :
  foldl (on_line want) (at_media x m h f ov saw) (transport p) = at_media (heard p x) m h f ov saw.
Proof.
  unfold transport. cbn [foldl]. rewrite read_ufrag, read_pwd, read_fingerprint. destruct x. reflexivity.
Qed.

(** Lines that say nothing to this reader. *)
Lemma read_address x m h f ov saw t : on_line want (at_media x m h f ov saw) (txt "c=IN IP4 " ++ t) = at_media x m h f ov saw.
Proof. reflexivity. Qed.
Lemma read_feedback x m h f ov saw t : on_line want (at_media x m h f ov saw) (txt "a=rtcp-fb:" ++ t) = at_media x m h f ov saw.
Proof. reflexivity. Qed.
Lemma read_source x m h f ov saw n p : on_line want (at_media x m h f ov saw) (source_line n p) = at_media x m h f ov saw.
Proof. reflexivity. Qed.
Lemma read_last p x m h f ov saw : foldl (on_line want) (at_media x m h f ov saw) (last_lines p) = at_media x m h f ov saw.
Proof. reflexivity. Qed.

Lemma read_declined s m : good_media m ->
  o (settled (foldl (on_line want) s (declined_lines m))) = adds (o (settled s)) (declined_answer m).
Proof.
  intros Hm. unfold declined_lines. rewrite !foldl_app. cbn [foldl]. rewrite read_head by (try lia; apply (g_kind m Hm)).
  change (txt "c=IN IP4 0.0.0.0") with (txt "c=IN IP4 " ++ txt "0.0.0.0"). change (txt "a=inactive") with (txt "a=" ++ txt "inactive").
  rewrite read_address, read_mid_lines by done. rewrite read_direction by (do 3 right; left).
  by rewrite settled_nothing.
Qed.

Lemma read_video s p m : sane p -> good_media m -> kind m = txt "video" -> 0 <= h264_pt m ->
  let x := heard p (o (settled s)) in
  o (settled (foldl (on_line want) s (video_lines p m)))
  = adds x (video_answer m) <| video_index ::= fun i => if i <? 0 then Z.of_nat (length (media x)) else i |>.
Proof.
  intros Hp Hm Hk Hn. cbv zeta. assert (Hb : 0 <= h264_pt m < 2 ^ 31) by (destruct (g_numbers m Hm) as ([_ H] & _); lia).
  unfold video_lines. rewrite !foldl_app. cbn [foldl]. rewrite read_head by first [done|apply (g_kind m Hm)|apply (s_numbers p Hp)].
  rewrite read_address, read_mid_lines, read_transport by done.
  change (txt "a=sendonly") with (txt "a=" ++ txt "sendonly"). rewrite read_direction by (right; left).
  match goal with |- context [on_line want ?s (txt "a=rtcp-mux")] => change (on_line want s (txt "a=rtcp-mux")) with s end.
  edestruct read_rtpmap_video as [ov' ->]; [done|exact Hk|]. rewrite read_fmtp, !read_feedback, read_source, read_last by done.
  cbn [insert_key]. rewrite insert_empty. unfold settled at 1.
  match goal with |- o (settle_video want (cur ?s) ?s) = _ => change (settle_video want (cur s) s) with (settled s) end.
  rewrite settled_video; [done|apply (g_profile m Hm)|exact Hk|done|done].
Qed.

Lemma read_audio s p m : sane p -> 0 <= audio_pt p ->
  o (settled (foldl (on_line want) s (audio_lines p m))) = adds (heard p (o (settled s))) (audio_answer p m).
Proof.
  intros Hp Hn. assert (Hb : 0 <= audio_pt p < 2 ^ 31) by (destruct (s_numbers p Hp) as (_ & _ & _ & _ & H); lia).
  unfold audio_lines. rewrite !foldl_app. cbn [foldl]. rewrite read_head by first [done|by apply free_lit|apply (s_numbers p Hp)].
  rewrite read_address, read_mid_lines, read_transport by done.
  change (direction_line p) with (if audio_send p && audio_recv p then txt "a=" ++ txt "sendrecv" else if audio_send p then txt "a=" ++ txt "sendonly" else txt "a=" ++ txt "recvonly").
  replace (if audio_send p && audio_recv p then _ else _) with (txt "a=" ++ audio_direction p) by (unfold audio_direction; by destruct (audio_send p), (audio_recv p)).
  rewrite read_direction by (unfold audio_direction; destruct (audio_send p), (audio_recv p); cbn [andb]; set_solver).
  match goal with |- context [on_line want ?s (txt "a=rtcp-mux")] => change (on_line want s (txt "a=rtcp-mux")) with s end.
  rewrite read_rtpmap_audio by done.
  assert (E : forall x m h f ov saw, foldl (on_line want) (at_media x m h f ov saw) (if audio_send p then [source_line (audio_ssrc p) p] else []) = at_media x m h f ov saw)
    by (intros; destruct (audio_send p); reflexivity).
  rewrite E, read_last, settled_nothing. unfold audio_answer. by destruct (audio_pt p =? pcma_pt m).
Qed.

(** ** All sections *)

Definition answered (x : Offer) (p : AnswerParams) (i : nat) (m : OfferMedia) : OfferMedia :=
  if with_audio x p && (Z.of_nat i =? audio_index x) then audio_answer p m
  else if Z.of_nat i =? video_index x then video_answer m
  else declined_answer m.

Definition told (p : AnswerParams) (y : Offer) : Prop :=
  ice_ufrag y = p_ice_ufrag p /\ ice_pwd y = p_ice_pwd p /\ fingerprint_alg y = txt "sha-256" /\ fingerprint y = p_fingerprint p.
Definition untold (y : Offer) : Prop := ice_ufrag y = [] /\ ice_pwd y = [] /\ fingerprint y = [].

Lemma heard_told p y : sane p -> told p y \/ untold y -> told p (heard p y).
Proof.
  intros [(H1 & _) (H2 & _) (H3 & _) _ _ _] [(E1 & E2 & E3 & E4)|(E1 & E2 & E3)]; unfold told, heard, first_wins; cbn; rewrite ?E1, ?E2, ?E3, ?E4; [|done].
  by rewrite !bool_decide_eq_false_2.
Qed.

Variable x : Offer.
Variable p : AnswerParams.
Hypothesis Hx : answerable x.
Hypothesis Hp : sane p.

(** What the reader knows before section [i]. *)
Record upto (i : nat) (y : Offer) : Prop := {
  u_media : media y = imap (answered x p) (take i (media x));
  u_video : video_index y = if video_index x <? Z.of_nat i then video_index x else -1;
  u_told : told p y \/ untold y /\ Z.of_nat i <= video_index x;
}.

Lemma read_section i m s : media x !! i = Some m -> upto i (o (settled s)) ->
  upto (S i) (o (settled (foldl (on_line want) s (section_lines x p i m)))).
Proof.
  intros Hm [U1 U2 U3]. destruct Hx as [A1 _ (v & Hv & Hvk & Hvp) A4]. rewrite Forall_forall in A1.
  pose proof (A1 m (list_elem_of_lookup_2 _ _ _ Hm)) as Hg.
  assert (Hl : length (media (o (settled s))) = i) by (rewrite U1, length_imap, length_take; apply lookup_lt_Some in Hm; lia).
  assert (Ht : told p (o (settled s)) \/ untold (o (settled s))) by tauto.
  assert (E : forall y m', media y = media (o (settled s)) -> m' = answered x p i m -> media (adds y m') = imap (answered x p) (take (S i) (media x))).
  { intros y m' Ey ->. cbn. rewrite Ey, U1, (take_S_r _ _ _ Hm), imap_app. cbn. rewrite length_take_le by (apply lookup_lt_Some in Hm; lia). by rewrite Nat.add_0_r. }
  unfold section_lines. destruct (with_audio x p && (Z.of_nat i =? audio_index x)) eqn:Ea.
  - apply andb_true_iff in Ea as [Hw Ea]. apply Z.eqb_eq in Ea. rewrite read_audio by (try done; by apply (with_audio_payload x)).
    assert (Hne : Z.of_nat i <> video_index x).
    { intros Ei. rewrite (media_at_lookup _ _ _ _ _ Ei Hv Hm) in *. destruct A4 as [A4|(a & Ha & Hak)]; [lia|].
      rewrite <- Ea, Ei, Hv in Ha. injection Ha as <-. rewrite Hvk in Hak. done. }
    split; [apply E; [done|unfold answered; by rewrite Hw, (proj2 (Z.eqb_eq _ _) Ea)]| |left; by apply heard_told]. cbn. rewrite U2. destruct (Z.ltb_spec (video_index x) (Z.of_nat i)), (Z.ltb_spec (video_index x) (Z.of_nat (S i))); lia.
  - destruct (Z.eqb_spec (Z.of_nat i) (video_index x)) as [Ei|Hne].
    + rewrite (media_at_lookup _ _ _ _ _ Ei Hv Hm) in *. rewrite read_video by done. split.
      * apply E; [done|]. unfold answered. by rewrite Ea, (proj2 (Z.eqb_eq _ _) Ei).
      * cbn. rewrite U2, Hl, <- Ei. destruct (Z.ltb_spec (Z.of_nat i) (Z.of_nat i)), (Z.ltb_spec (Z.of_nat i) (Z.of_nat (S i))); cbn; lia.
      * left. by apply heard_told.
    + rewrite read_declined by done. split; [apply E; [done|]; unfold answered; by rewrite Ea, (proj2 (Z.eqb_neq _ _) Hne)| |].
      * cbn. rewrite U2. destruct (Z.ltb_spec (video_index x) (Z.of_nat i)), (Z.ltb_spec (video_index x) (Z.of_nat (S i))); lia.
      * destruct U3 as [U3|[U3 U4]]; [by left|]. right. split; [exact U3|lia].
Qed.

Lemma read_sections ms : forall i s, drop i (media x) = ms -> (i <= length (media x))%nat -> upto i (o (settled s)) ->
  upto (length (media x)) (o (settled (foldl (on_line want) s (concat (imap (fun k => section_lines x p (i + k)) ms))))).
Proof.
  induction ms as [|m ms IH]; intros i s Hd Hi Hu.
  - replace (length (media x)) with i; [done|]. apply (f_equal length) in Hd. rewrite length_drop in Hd. cbn in Hd. lia.
  - assert (Hm : media x !! i = Some m) by (rewrite <- (Nat.add_0_r i), <- lookup_drop, Hd; done).
    cbn [imap]. rewrite Nat.add_0_r. cbn [concat]. rewrite foldl_app.
    pose proof (read_section i m s Hm Hu) as Hu'. apply (IH (S i)) in Hu'.
    + replace (imap ((fun k => section_lines x p (i + k)) ∘ S) ms) with (imap (fun k => section_lines x p (S i + k)) ms); [exact Hu'|].
      apply imap_ext. intros k y _. cbn [compose]. by replace (i + S k)%nat with (S i + k)%nat by lia.
    + rewrite (drop_S _ m i Hm) in Hd. by injection Hd.
    + apply lookup_lt_Some in Hm. lia.
Qed.
End Reader.

(** ** The answer *)

Lemma read_session want x p s : foldl (on_line want) s (session_lines x p) = s.
Proof. unfold session_lines. by destruct (group x p). Qed.

Lemma audio_from_first ms k : forall i, (exists m, ms !! k = Some m /\ speaks m = true) ->
  (forall j m, (j < k)%nat -> ms !! j = Some m -> speaks m = false) -> audio_from i ms = i + Z.of_nat k.
Proof.
  revert k. induction ms as [|m ms IH]; intros k i (v & Hv & Hs) Hb; [done|]. cbn [audio_from]. fold (speaks m). destruct k as [|k].
  - injection Hv as ->. rewrite Hs. lia.
  - rewrite (Hb 0%nat m) by (done || lia). rewrite (IH k); [lia|by exists v|]. intros j y Hj Hy. apply (Hb (S j)); [lia|done].
Qed.

Lemma audio_from_none ms : forall i, (forall m, m ∈ ms -> speaks m = false) -> audio_from i ms = -1.
Proof.
  induction ms as [|m ms IH]; intros i Hb; [done|]. cbn [audio_from]. fold (speaks m). rewrite Hb by left. apply IH. intros y Hy. apply Hb. by right.
Qed.

Lemma speaks_answered x p i m : speaks (answered x p i m) = with_audio x p && (Z.of_nat i =? audio_index x).
Proof.
  unfold answered. destruct (with_audio x p && _) eqn:E.
  - apply andb_true_iff in E as [E _]. apply with_audio_payload in E. unfold speaks, audio_answer. cbn. change (text_eqb (txt "audio") (txt "audio")) with true.
    destruct (_ =? _); cbn; destruct (Z.leb_spec 0 (audio_pt p)); (done || lia).
  - unfold speaks. destruct (_ =? video_index x); cbn; apply andb_false_r.
Qed.

Lemma answered_audio x p : answerable x ->
  audio_from 0 (imap (answered x p) (media x)) = if with_audio x p then audio_index x else -1.
Proof.
  intros [_ _ _ A4]. destruct (with_audio x p) eqn:Ew.
  - assert (H0 : 0 <= audio_index x) by (revert Ew; unfold with_audio; lia). destruct A4 as [A4|(m & Hm & _)]; [lia|].
    apply media_at_in in Hm as [_ Hm]. rewrite (audio_from_first _ (Z.to_nat (audio_index x))); [lia| |].
    + eexists. rewrite list_lookup_imap, Hm. split; [done|]. rewrite speaks_answered, Ew, Z2Nat.id by lia. apply Z.eqb_refl.
    + intros j y Hj. rewrite list_lookup_imap. destruct (media x !! j); [|done]. intros [= <-]. rewrite speaks_answered, Ew. apply Z.eqb_neq. lia.
  - apply audio_from_none. intros y (i & m & -> & _)%elem_of_lookup_imap. by rewrite speaks_answered, Ew.
Qed.


(** ** At a concrete offer *)

(** The offer of a browser: Opus and G.711, and three H.264 payloads of which the
    first cannot carry fragments. *)
Definition an_offer : text := concat (map (fun l => txt l ++ CRLF)
  ["v=0"; "o=- 1 1 IN IP4 127.0.0.1"; "s=-"; "t=0 0"; "a=ice-ufrag:abcd"; "a=ice-pwd:efgh"; "a=fingerprint:sha-256 AA:BB";
   "m=audio 9 UDP/TLS/RTP/SAVPF 111 8 0"; "a=mid:0"; "a=sendrecv"; "a=rtpmap:111 opus/48000/2"; "a=rtpmap:8 PCMA/8000";
   "a=rtpmap:0 PCMU/8000"; "m=video 9 UDP/TLS/RTP/SAVPF 41 102 103"; "a=mid:1"; "a=recvonly"; "a=rtpmap:41 H264/90000";
   "a=fmtp:41 packetization-mode=0;profile-level-id=42001f"; "a=rtpmap:102 h264/90000";
   "a=fmtp:102 level-asymmetry-allowed=1;packetization-mode=1;profile-level-id=42e01f"; "a=rtpmap:103 H264/90000";
   "a=fmtp:103 packetization-mode=1;profile-level-id=64001f"]%string).

Definition our_params : AnswerParams :=
  {| p_ice_ufrag := txt "user"; p_ice_pwd := txt "secret"; p_fingerprint := txt "11:22"; host_ip := txt "10.0.0.1"; port := 5000; ssrc := 7;
     cname := txt "machino"; audio_pt := 8; audio_send := true; audio_recv := false; audio_ssrc := 9 |}.

