(* ===== verification/Dtls.v ===== *)
(** * The DTLS transport

    [app/webrtc/dtls.{hpp,cpp}]: the queues around the handshake of the TLS
    library, and the order in which its key material is handed out.  The library
    is not in the sources; the class [Tls] is what the transport calls of it. *)

From S2P Require Import Prelude Bytes Srtp.

(** What [mbedtls_ssl_handshake] returns, as far as [step] tells it apart. *)
Inductive Handshake :=
  | HandshakeOver
  | WantReadOrWrite
  | HelloVerifyRequired
  | HandshakeError.

(** The library: its context; the handshake, which sees the datagrams waiting and
    tells how many it received through [bio_recv] and what it sent through
    [bio_send]; the two calls that set it up for a peer; and, once there is a
    master secret, 60 octets of [mbedtls_ssl_tls_prf] if the profile was agreed on
    and the function succeeds. *)
Class Tls := {
  ssl : Type;
  ssl_handshake : ssl -> list bytes -> Handshake * ssl * nat * list bytes;
  ssl_session_reset : ssl -> ssl;
  ssl_set_client_transport_id : bytes -> ssl -> ssl;
  srtp_key_material : ssl -> option bytes;
}.

Section Transport.
Context `{Tls}.

(** [DtlsTransport::Impl]. *)
Record Dtls := {
  engine : ssl;
  cli_id : option bytes;
  inq : list bytes;
  outq : list bytes;
  dtls_ok : bool;
  dtls_done : bool;
  fatal : bool;
}.
#[export] Instance eta_Dtls : Settable Dtls := fun d =>
  Build_Dtls (engine d) (cli_id d) (inq d) (outq d) (dtls_ok d) (dtls_done d) (fatal d).

(** The constructor, with the context the library was set up with and whether
    that worked. *)
Definition make_dtls (c : ssl) (good : bool) : Dtls :=
  {| engine := c; cli_id := None; inq := []; outq := []; dtls_ok := good; dtls_done := false; fatal := false |}.

Definition handshake_done (d : Dtls) : bool := dtls_done d.

(** [set_peer]: address and port. *)
Definition set_peer (ip port : Z) (d : Dtls) : Dtls :=
  let id := be32 ip ++ be16 port in
  d <| cli_id := Some id |> <| engine ::= ssl_set_client_transport_id id |>.

(** [feed]. *)
Definition feed (p : bytes) (d : Dtls) : Dtls := match p with [] => d | _ => d <| inq ::= fun q => q ++ [p] |> end.

(** [step]. *)
Definition dtls_step (d : Dtls) : bool * Dtls :=
  if negb (dtls_ok d) || fatal d then (false, d) else
  if dtls_done d then (true, d) else
  let '(rc, e, n, out) := ssl_handshake (engine d) (inq d) in
  let d := d <| engine := e |> <| inq ::= drop n |> <| outq ::= fun q => q ++ out |> in
  match rc with
  | HandshakeOver => (true, d <| dtls_done := true |>)
  | WantReadOrWrite => (true, d)
  | HelloVerifyRequired =>
      let d := d <| engine ::= ssl_session_reset |> in
      (true, match cli_id d with Some id => d <| engine ::= ssl_set_client_transport_id id |> | None => d end)
  | HandshakeError => (false, d <| fatal := true |>)
  end.

(** [take_out]. *)
Definition take_out (d : Dtls) : option bytes * Dtls :=
  match outq d with
  | [] => (None, d)
  | x :: q => (Some x, d <| outq := q |>)
  end.

(** [export_srtp]: [our_send] and [their_send].  Client first, keys before salts;
    the camera is the server. *)
Definition export_srtp (d : Dtls) : option (SrtpKey * SrtpKey) :=
  if negb (dtls_done d) then None else
  match srtp_key_material (engine d) with
  | None => None
  | Some km =>
      let client := {| master_key := take 16 km; master_salt := take 14 (drop 32 km) |} in
      let server := {| master_key := take 16 (drop 16 km); master_salt := take 14 (drop 46 km) |} in
      Some (server, client)
  end.
End Transport.
