(* ===== verification/Peer.v ===== *)
(** * One WebRTC session

    [app/webrtc/peer.{hpp,cpp}]: [PeerSession], over the models of STUN, DTLS,
    SRTP, SDP and the packetizer.  Every call runs in the poll loop, one after
    the other.  What the socket answers to a [sendto] is a function of the log;
    the random octets of the constructor are its arguments.  The counters that
    are only logged are left out. *)

From S2P Require Import Prelude Text Bytes G711 Rtp H264 Packetize Srtp Stun Sdp Dtls.

Inductive Errno := EINVAL | EADDRNOTAVAIL | ENETUNREACH | EHOSTUNREACH | ENETDOWN | ENODEV | ENOTCONN | EAGAIN | Other (n : Z).
#[export] Instance Errno_eq : EqDecision Errno.
Proof. solve_decision. Defined.

(** An address: IP and port, in host order. *)
Abbreviation address := (Z * Z)%type.

(** Which call sent a datagram. *)
Inductive Kind := Answer | Handshaking | Video | Audio.
#[export] Instance Kind_eq : EqDecision Kind.
Proof. solve_decision. Defined.

(** What happens on the socket, newest first; a failed send has its [errno]. *)
Inductive Event :=
  | Received (from : address) (d : bytes)
  | SrtpLive (ours theirs : SrtpKey)
  | Sent (k : Kind) (to : address) (d : bytes) (err : option Errno).

(** [sendto]: [None] when the whole datagram was taken. *)
Class Socket := sendto : list Event -> address -> bytes -> option Errno.

Section Session.
Context `{Tls, Socket}.

Record Peer := {
  ufrag_ : text;
  pwd_ : text;
  local_ : option (text * Z);        (* getsockname: the bound address, printed, and port *)
  sock_ok : bool;                    (* sock_ >= 0 *)
  dtls_ : Dtls;
  srtp_ : option SrtpSession;
  rtp_ : RtpParams;
  seq_ : Z;
  audio_ : AudioPlan;
  audio_pcma_ : bool;
  audio_ssrc_ : Z;
  audio_seq_ : Z;
  audio_ts_ : Z;
  audio_in_ : list Z;
  await_key_ : bool;
  pli_ : bool;
  offered_ : bool;
  peer_ : address;                   (* peer_ip_, peer_port_ *)
  have_peer_ : bool;
  dtls_logged_ : bool;
  fatal_send_streak_ : Z;
  log : list Event;
}.
#[export] Instance eta_Peer : Settable Peer := fun s =>
  Build_Peer (ufrag_ s) (pwd_ s) (local_ s) (sock_ok s) (dtls_ s) (srtp_ s) (rtp_ s) (seq_ s) (audio_ s) (audio_pcma_ s)
    (audio_ssrc_ s) (audio_seq_ s) (audio_ts_ s) (audio_in_ s) (await_key_ s) (pli_ s) (offered_ s) (peer_ s) (have_peer_ s)
    (dtls_logged_ s) (fatal_send_streak_ s) (log s).

Definition with_payload_type (pt : Z) (r : RtpParams) : RtpParams :=
  {| payload_type := pt; p_ssrc := p_ssrc r; max_payload := max_payload r |}.

(** The constructor, with what the random source, the socket calls and the DTLS
    set-up gave. *)
Definition make_peer (ufrag pwd : text) (r : Z) (sock : bool) (local : option (text * Z)) (d : Dtls) : Peer :=
  let ssrc := if u32 r =? 0 then 0x4d414348 else u32 r in
  let audio_ssrc := Z.lxor ssrc 0x41554449 in
  {| ufrag_ := ufrag; pwd_ := pwd; local_ := local; sock_ok := sock; dtls_ := d; srtp_ := None;
     rtp_ := {| payload_type := 102; p_ssrc := ssrc; max_payload := 1200 |};
     seq_ := u16 (Z.shiftr ssrc 8); audio_ := no_audio; audio_pcma_ := true; audio_ssrc_ := audio_ssrc;
     audio_seq_ := u16 (Z.shiftr audio_ssrc 4); audio_ts_ := 0; audio_in_ := []; await_key_ := true; pli_ := false;
     offered_ := false; peer_ := (0, 0); have_peer_ := false; dtls_logged_ := false; fatal_send_streak_ := 0; log := [] |}.

(** [on_offer]: the error, or the answer. *)
Definition on_offer (offer_sdp local_profile our_fingerprint : text) (can_send can_recv : bool) : ST Peer (text + text) :=
  good ← gets (fun s => sock_ok s && dtls_ok (dtls_ s));
  already ← gets offered_;
  if negb good then mret (inl (txt "session setup failed")) else
  if (already : bool) then mret (inl (txt "already offered")) else
  let offer := parse_offer offer_sdp local_profile in
  if negb (o_ok offer) then mret (inl (error offer)) else
  s ← gets id;
  match local_ s, media_at (video_index offer) offer with
  | None, _ => mret (inl (txt "getsockname failed"))
  | _, None => mret (inl [])                     (* no index of parse_offer: Sdp.video_index_valid *)
  | Some (ip, port_), Some video =>
      modify (fun s => s <| rtp_ ::= with_payload_type (u8 (h264_pt video)) |>) ;;
      let plan := plan_audio offer can_send can_recv in
      modify (fun s => s <| audio_ := plan |>) ;;
      let p := {| p_ice_ufrag := ufrag_ s; p_ice_pwd := pwd_ s; p_fingerprint := our_fingerprint; host_ip := ip;
                  port := port_; ssrc := p_ssrc (rtp_ s); cname := txt "machino"; audio_pt := -1; audio_send := false;
                  audio_recv := false; audio_ssrc := 0 |} in
      if 0 <=? pt plan then
        let pcma := match media_at (audio_index offer) offer with Some m => pcma_pt m | None => -1 end in
        modify (fun s => s <| audio_pcma_ := (pt plan =? pcma) |> <| offered_ := true |>) ;;
        mret (inr (build_answer offer
          {| p_ice_ufrag := p_ice_ufrag p; p_ice_pwd := p_ice_pwd p; p_fingerprint := p_fingerprint p; host_ip := host_ip p;
             port := port p; ssrc := ssrc p; cname := cname p; audio_pt := pt plan; audio_send := send plan;
             audio_recv := recv plan; audio_ssrc := audio_ssrc_ s |}))
      else
        modify (fun s => s <| offered_ := true |>) ;;
        mret (inr (build_answer offer p))
  end.

(** [is_fatal_send_errno]. *)
Definition is_fatal_send_errno (e : Errno) : bool :=
  match e with
  | EINVAL | EADDRNOTAVAIL | ENETUNREACH | EHOSTUNREACH | ENETDOWN | ENODEV => true
  | _ => false
  end.

Definition kStrandedAfter : Z := 25.
Definition stranded (s : Peer) : bool := kStrandedAfter <=? fatal_send_streak_ s.

(** [send_udp]: [None], or the [errno] it leaves. *)
Definition send_udp (k : Kind) (p : bytes) : ST Peer (option Errno) :=
  s ← gets id;
  if negb (have_peer_ s) then mret (Some ENOTCONN) else
  let e := sendto (log s) (peer_ s) p in
  modify (fun s => s <| log ::= cons (Sent k (peer_ s) p e) |>) ;;
  mret e.

(** [flush_dtls]: as many rounds as datagrams wait. *)
Fixpoint flush_loop (fuel : nat) : ST Peer unit :=
  match fuel with
  | O => skip
  | S fuel =>
      r ← gets (fun s => take_out (dtls_ s));
      let '(x, d) := r in
      modify (fun s => s <| dtls_ := d |>) ;;
      match x with
      | None => skip
      | Some p => send_udp Handshaking p ;; flush_loop fuel
      end
  end.
Definition flush_dtls : ST Peer unit := n ← gets (fun s => length (outq (dtls_ s))); flush_loop n.

(** The three branches of the demultiplexer. *)
Definition on_stun (from : address) (buf : bytes) : ST Peer unit :=
  pwd ← gets (fun s => octets_of (pwd_ s));
  let req := default no_request (parse_binding_request buf pwd) in
  if negb (ok req) || negb (integrity_ok req) then skip else
  modify (fun s => s <| peer_ := from |>) ;;
  have ← gets have_peer_;
  when (negb have) (modify (fun s => s <| dtls_ ::= set_peer from.1 from.2 |>)) ;;
  modify (fun s => s <| have_peer_ := true |>) ;;
  send_udp Answer (binding_response (tid req) from.1 from.2 pwd) ;;
  skip.

Definition srtp_keys : ST Peer unit :=
  d ← gets dtls_;
  match export_srtp d with
  | None => skip
  | Some (ours, theirs) =>
      modify (fun s => s <| log ::= cons (SrtpLive ours theirs) |>) ;;
      modify (fun s => s <| srtp_ := Some (make_session ours theirs) |> <| await_key_ := true |> <| pli_ := true |>)
  end.

Definition on_dtls (buf : bytes) : ST Peer bool :=
  modify (fun s => s <| dtls_ ::= feed buf |>) ;;
  r ← gets (fun s => dtls_step (dtls_ s));
  let '(alive, d) := r in
  modify (fun s => s <| dtls_ := d |>) ;;
  if negb alive then mret false else
  flush_dtls ;;
  s ← gets id;
  when (handshake_done (dtls_ s) && negb (dtls_logged_ s))
    (modify (fun s => s <| dtls_logged_ := true |>) ;; srtp_keys) ;;
  mret true.

Definition on_rtcp (buf : bytes) (ses : SrtpSession) : ST Peer unit :=
  let '(r, ses) := unprotect_rtcp buf ses in
  modify (fun s => s <| srtp_ := Some ses |>) ;;
  match r with
  | None => skip
  | Some pkt => when (pli (default (Build_RtcpInfo false false) (parse_rtcp pkt))) (modify (fun s => s <| pli_ := true |>))
  end.

Definition on_talkback (buf : bytes) (ses : SrtpSession) : ST Peer unit :=
  let '(r, ses) := unprotect_rtp buf ses in
  modify (fun s => s <| srtp_ := Some ses |>) ;;
  match r with
  | None => skip
  | Some (pkt, at_) =>
      s ← gets id;
      if negb (Z.land (octet_at pkt 1) 0x7f =? pt (audio_ s)) then skip else
      let len := (length pkt - at_)%nat in
      if 8000 <? Z.of_nat (length (audio_in_ s) + len) then skip else
      modify (fun s => s <| audio_in_ ::= fun pcm =>
        default pcm (decode_g711 (if audio_pcma_ s then kPayloadPcma else kPayloadPcmu) (drop at_ pkt) pcm) |>)
  end.

Definition on_media (buf : bytes) : ST Peer unit :=
  s ← gets id;
  match srtp_ s with
  | None => skip
  | Some ses =>
      if default false (is_rtcp buf) then on_rtcp buf ses
      else if recv (audio_ s) then on_talkback buf ses else skip
  end.

(** One round of the loop of [on_readable]: whether to read on. *)
Definition on_datagram (from : address) (d : bytes) : ST Peer bool :=
  match take 2048 d with
  | [] => mret false
  | b0 :: rest =>
      let buf := b0 :: rest in
      modify (fun s => s <| log ::= cons (Received from buf) |>) ;;
      if default false (is_stun buf) then on_stun from buf ;; mret true
      else if (20 <=? b0) && (b0 <=? 63) then on_dtls buf
      else if (128 <=? b0) && (b0 <=? 191) then on_media buf ;; mret true
      else mret true
  end.

(** [on_readable], with what waits in the socket; it gives back what it leaves
    there. *)
Fixpoint on_readable (inbox : list (address * bytes)) : ST Peer (list (address * bytes)) :=
  match inbox with
  | [] => mret []
  | (from, d) :: inbox => go ← on_datagram from d; if (go : bool) then on_readable inbox else mret inbox
  end.

(** [tick]. *)
Definition tick : ST Peer unit :=
  d ← gets dtls_;
  if handshake_done d then skip else
  modify (fun s => s <| dtls_ := (dtls_step d).2 |>) ;;
  flush_dtls.

(** [protect_rtp] of the session's [srtp_]. *)
Definition protect (pkt : bytes) (ses : SrtpSession) : ST Peer (option bytes) :=
  let '(r, ses) := protect_rtp pkt ses in
  modify (fun s => s <| srtp_ := Some ses |>) ;;
  mret r.

(** The loop of [send_au]: whether every packet went out. *)
Definition count_failure (e : Errno) : ST Peer unit :=
  modify (fun s => s <| fatal_send_streak_ := if is_fatal_send_errno e then u32 (fatal_send_streak_ s + 1) else 0 |>) ;;
  modify (fun s => s <| await_key_ := true |>).

Fixpoint send_packets (pkts : list bytes) : ST Peer bool :=
  match pkts with
  | [] => mret true
  | pkt :: pkts =>
      ses ← gets srtp_;
      match ses with
      | None => mret false
      | Some ses =>
          r ← protect pkt ses;
          match r with
          | None => mret false
          | Some p =>
              e ← send_udp Video p;
              match e with
              | None => modify (fun s => s <| fatal_send_streak_ := 0 |>) ;; send_packets pkts
              | Some e => count_failure e ;; mret false
              end
          end
      end
  end.

(** Microseconds to the clock of the stream. *)
Definition ts90k (pts_us : Z) : Z := u32 (u64 (u64 pts_us * 9) / 100).

(** [send_au]. *)
Definition send_au (p : bytes) (pts_us : Z) (key : bool) : ST Peer unit :=
  s ← gets id;
  match srtp_ s with
  | None => skip
  | Some _ =>
      if negb (have_peer_ s) then skip else
      if await_key_ s && negb key then skip else
      let '(pkts, seq) := packetize_h264 p (ts90k pts_us) (seq_ s) (rtp_ s) in
      modify (fun s => s <| seq_ := seq |>) ;;
      all ← send_packets pkts;
      when all (modify (fun s => s <| await_key_ := false |>))
  end.

(** The loop of [send_audio], over what is left of the chunk. *)
Fixpoint send_chunks (fuel : nat) (g711 : bytes) : ST Peer unit :=
  match fuel, g711 with
  | S fuel, _ :: _ =>
      let len := if (length g711 <? 1000)%nat then length g711 else 1000%nat in
      s ← gets id;
      match srtp_ s with
      | None => skip
      | Some ses =>
          let pkt := write_header (u8 (pt (audio_ s))) false (audio_seq_ s) (audio_ts_ s) (audio_ssrc_ s) ++ take len g711 in
          modify (fun s => s <| audio_seq_ := u16 (audio_seq_ s + 1) |> <| audio_ts_ := u32 (audio_ts_ s + Z.of_nat len) |>) ;;
          r ← protect pkt ses;
          match r with
          | None => skip
          | Some p =>
              e ← send_udp Audio p;
              match e with None => send_chunks fuel (drop len g711) | Some _ => skip end
          end
      end
  | _, _ => skip
  end.

(** [send_audio]. *)
Definition send_audio (g711 : bytes) (skip_samples : Z) : ST Peer unit :=
  s ← gets id;
  if bool_decide (srtp_ s = None) || negb (have_peer_ s) || negb (send (audio_ s)) || (length g711 =? 0)%nat then skip else
  modify (fun s => s <| audio_ts_ := u32 (audio_ts_ s + skip_samples) |>) ;;
  send_chunks (length g711) g711.

(** [take_audio_in]. *)
Definition take_audio_in : ST Peer (option (list Z)) :=
  pcm ← gets audio_in_;
  match pcm with
  | [] => mret None
  | _ => modify (fun s => s <| audio_in_ := [] |>) ;; mret (Some pcm)
  end.

(** [take_pli]. *)
Definition take_pli : ST Peer bool :=
  p ← gets pli_;
  modify (fun s => s <| pli_ := false |>) ;;
  mret p.

(** [media_ready]. *)
Definition media_ready (s : Peer) : bool := match srtp_ s with Some _ => true | None => false end.

(** Everything the poll loop calls on a session. *)
Inductive Op :=
  | OnOffer (sdp profile fp : text) (can_send can_recv : bool)
  | OnReadable (inbox : list (address * bytes))
  | Tick
  | SendAu (p : bytes) (pts_us : Z) (key : bool)
  | SendAudio (g711 : bytes) (skip_samples : Z)
  | TakeAudioIn
  | TakePli.

Definition call (op : Op) : ST Peer unit :=
  match op with
  | OnOffer sdp profile fp cs cr => on_offer sdp profile fp cs cr ;; skip
  | OnReadable inbox => on_readable inbox ;; skip
  | Tick => tick
  | SendAu p pts key => send_au p pts key
  | SendAudio g skip => send_audio g skip
  | TakeAudioIn => take_audio_in ;; skip
  | TakePli => take_pli ;; skip
  end.

Definition run (ops : list Op) : ST Peer unit := for_each ops call.
End Session.
