(* ===== verification/PeerSpec.v ===== *)
(** * What a WebRTC session keeps to

    Over any history of calls of [Peer]: who gets a datagram and under which
    keys, the shape of the state, and when video resumes. *)

From S2P Require Import Prelude Text Bytes Sha1 G711 Rtp H264 Packetize Srtp Stun Sdp SdpSpec Dtls Peer.

(** ** What the log says *)

(** A binding request with the integrity our password asks for. *)
Definition checked_request (pwd buf : bytes) : option StunRequest :=
  if default false (is_stun buf) then
    let req := default no_request (parse_binding_request buf pwd) in
    if ok req && integrity_ok req then Some req else None
  else None.

(** The address the last such request came from. *)
Fixpoint last_check (pwd : bytes) (l : list Event) : option address :=
  match l with
  | [] => None
  | Received from buf :: l => match checked_request pwd buf with Some _ => Some from | None => last_check pwd l end
  | _ :: l => last_check pwd l
  end.

(** The keys the last handshake gave. *)
Fixpoint last_keys (l : list Event) : option (SrtpKey * SrtpKey) :=
  match l with
  | [] => None
  | SrtpLive ours theirs :: _ => Some (ours, theirs)
  | _ :: l => last_keys l
  end.

Definition encrypted_by (ours : SrtpKey) (d : bytes) : Prop :=
  exists pkt ses, rtp_out_ ses = make_dir ours false /\ (protect_rtp pkt ses).1 = Some d.

(** What may be sent after [past]: to the checked address only; an answer right
    after the request it answers; media only encrypted with the keys of the
    handshake. *)
Definition allowed (pwd : bytes) (past : list Event) (k : Kind) (to : address) (d : bytes) : Prop :=
  last_check pwd past = Some to
  /\ match k with
     | Answer => exists buf req past', past = Received to buf :: past' /\ checked_request pwd buf = Some req
                                       /\ d = binding_response (tid req) to.1 to.2 pwd
     | Handshaking => True
     | Video | Audio => exists ours theirs, last_keys past = Some (ours, theirs) /\ encrypted_by ours d
     end.

Fixpoint lawful (pwd : bytes) (l : list Event) : Prop :=
  match l with
  | [] => True
  | Sent k to d _ :: past => allowed pwd past k to d /\ lawful pwd past
  | _ :: past => lawful pwd past
  end.

Lemma lawful_sent pwd l2 k to d e : forall l1, lawful pwd (l1 ++ Sent k to d e :: l2) -> allowed pwd l2 k to d.
Proof. induction l1 as [|[] l1 IH]; cbn; [tauto|done|done|]. intros [_ H]. by apply IH. Qed.

(** ** SRTP sessions keep their keys *)

Lemma protect_keys pkt s : rtp_out_ (protect_rtp pkt s).2 = rtp_out_ s.
Proof. unfold protect_rtp. destruct (_ <? _)%nat; [done|]. by destruct (slot _ _). Qed.

Lemma authenticate_out pkt s : rtp_out_ (authenticate pkt s).2 = rtp_out_ s.
Proof.
  unfold authenticate. destruct (_ <? _)%nat; [done|]. destruct (header_length _) as [[|]|]; try done.
  destruct (slot _ _). repeat (case_match; try done).
Qed.

Lemma unprotect_out pkt s : rtp_out_ (unprotect_rtp pkt s).2 = rtp_out_ s.
Proof. unfold unprotect_rtp. pose proof (authenticate_out pkt s). by destruct (authenticate pkt s) as [[[]|] s']. Qed.

Lemma unprotect_rtcp_out pkt s : rtp_out_ (unprotect_rtcp pkt s).2 = rtp_out_ s.
Proof. unfold unprotect_rtcp. by repeat (case_match; try done). Qed.

(** ** The invariant *)

(** A read and a write at the head of a computation. *)
Ltac wp_read := apply wp_bind, wp_gets; try (match goal with |- context [id ?s] => change (id s) with s end); cbv beta zeta.
Ltac wp_write := apply wp_bind, wp_modify; cbv beta zeta.

Section Spec.
Context `{Tls, Socket}.

Record sound (pwd : bytes) (s : Peer) : Prop := {
  sd_pwd : octets_of (pwd_ s) = pwd;
  sd_log : lawful pwd (log s);
  sd_peer : have_peer_ s = true -> last_check pwd (log s) = Some (peer_ s);
  sd_srtp : forall ses, srtp_ s = Some ses ->
    exists ours theirs, last_keys (log s) = Some (ours, theirs) /\ rtp_out_ ses = make_dir ours false;
}.

(** A step that leaves these five members alone. *)
Lemma sound_same pwd s s' : pwd_ s' = pwd_ s -> log s' = log s -> have_peer_ s' = have_peer_ s -> peer_ s' = peer_ s ->
  srtp_ s' = srtp_ s -> sound pwd s -> sound pwd s'.
Proof. intros E1 E2 E3 E4 E5 [A B C D]. split; by rewrite ?E1, ?E2, ?E3, ?E4, ?E5. Qed.

Lemma sound_modify pwd f s : pwd_ (f s) = pwd_ s -> log (f s) = log s -> have_peer_ (f s) = have_peer_ s -> peer_ (f s) = peer_ s ->
  srtp_ (f s) = srtp_ s -> sound pwd s -> wp (modify f) (fun _ => sound pwd) s.
Proof. intros. by apply wp_modify, (sound_same pwd s). Qed.

(** The session after a use of SRTP that kept its sending key. *)
Lemma sound_srtp pwd s ses ses' : sound pwd s -> srtp_ s = Some ses -> rtp_out_ ses' = rtp_out_ ses ->
  sound pwd (s <| srtp_ := Some ses' |>).
Proof.
  intros [A B C D] E Hk. split; try done. intros ? [= <-]. destruct (D _ E) as (o & t & ? & ?). exists o, t.
  split; [done|congruence].
Qed.

Lemma sound_send pwd k d s : sound pwd s -> (have_peer_ s = true -> allowed pwd (log s) k (peer_ s) d) ->
  wp (send_udp k d) (fun _ s' => sound pwd s' /\ srtp_ s' = srtp_ s /\ dtls_ s' = dtls_ s) s.
Proof.
  intros Hs Ha. unfold send_udp. wp_read. destruct (have_peer_ s) eqn:E; cbn [negb].
  - wp_write. wp_step. split; [|done]. destruct Hs as [A B C D]. split; cbn.
    + done.
    + split; [by apply Ha|done].
    + intros _. by apply C.
    + intros ses Hses. by apply D.
  - by wp_step.
Qed.

Lemma sound_flush pwd n : forall s, sound pwd s -> wp (flush_loop n) (fun _ => sound pwd) s.
Proof.
  induction n as [|n IH]; intros s Hs; [by apply wp_skip|]. cbn [flush_loop]. wp_read.
  destruct (take_out (dtls_ s)) as [x d]. wp_write.
  assert (Hs' : sound pwd (s <| dtls_ := d |>)) by by apply (sound_same pwd s).
  destruct x as [p|]; [|by apply wp_skip]. wp_step. eapply wp_mono.
  - apply sound_send; [done|]. intros Hh. split; [by apply (sd_peer _ _ Hs')|done].
  - cbn. intros _ s' (Hs'' & _). by apply IH.
Qed.

Lemma sound_keys pwd s : sound pwd s -> wp srtp_keys (fun _ => sound pwd) s.
Proof.
  intros Hs. unfold srtp_keys. wp_read. destruct (export_srtp _) as [[ours theirs]|]; [|by apply wp_skip].
  wp_step. apply wp_modify, wp_modify. destruct Hs as [A B C D]. split; try done. intros ses [= <-]. by exists ours, theirs.
Qed.

Lemma sound_dtls pwd buf s : sound pwd s -> wp (on_dtls buf) (fun _ => sound pwd) s.
Proof.
  intros Hs. unfold on_dtls. wp_write. wp_read. destruct (dtls_step _) as [alive d].
  wp_write. set (s1 := _ <| dtls_ := d |>). assert (H1 : sound pwd s1) by by apply (sound_same pwd s).
  destruct alive; cbn [negb]; [|by wp_step]. wp_step. unfold flush_dtls. wp_read.
  eapply wp_mono; [by apply sound_flush|]. cbn. intros _ s2 H2. wp_read. wp_step.
  apply wp_when; intros _; [|by wp_step]. wp_write. eapply wp_mono.
  - apply sound_keys. by apply (sound_same pwd s2).
  - cbn. intros _ s3 H3. by wp_step.
Qed.

(** A request that passes: its source becomes the peer and gets the answer. *)
Lemma sound_stun pwd from buf s : octets_of (pwd_ s) = pwd -> lawful pwd (log s) ->
  (forall ses, srtp_ s = Some ses -> exists ours theirs, last_keys (log s) = Some (ours, theirs) /\ rtp_out_ ses = make_dir ours false) ->
  (exists past, log s = Received from buf :: past /\ (have_peer_ s = true -> last_check pwd past = Some (peer_ s))) ->
  default false (is_stun buf) = true ->
  wp (on_stun from buf) (fun _ => sound pwd) s.
Proof.
  intros Hp Hl Hk (past & El & Hpeer) Hstun. unfold on_stun. wp_read. rewrite Hp.
  set (req := default no_request (parse_binding_request buf pwd)).
  assert (Hreq : checked_request pwd buf = if ok req && integrity_ok req then Some req else None)
    by (unfold checked_request; by rewrite Hstun).
  destruct (negb (ok req) || negb (integrity_ok req)) eqn:Eok.
  { apply wp_skip. split; try done. intros Hh. rewrite El. cbn. rewrite Hreq, <- (negb_involutive (ok req && integrity_ok req)), negb_andb, Eok.
    by apply Hpeer. }
  apply orb_false_iff in Eok as [E1 E2]. apply negb_false_iff in E1, E2. rewrite E1, E2 in Hreq. cbn in Hreq.
  wp_write. wp_read. wp_step.
  set (s1 := s <| peer_ := from |>).
  assert (G : forall s2, pwd_ s2 = pwd_ s1 -> log s2 = log s1 -> peer_ s2 = from -> srtp_ s2 = srtp_ s1 -> sound pwd (s2 <| have_peer_ := true |>)).
  { intros s2 F1 F2 F3 F4. split; cbn; rewrite ?F1, ?F2, ?F3, ?F4; try done. intros _. cbn. rewrite El. cbn. by rewrite Hreq. }
  assert (S : forall s2, pwd_ s2 = pwd_ s1 -> log s2 = log s1 -> peer_ s2 = from -> srtp_ s2 = srtp_ s1 ->
    wp (modify (fun s => s <| have_peer_ := true |>) ;; send_udp Answer (binding_response (tid req) from.1 from.2 pwd) ;; skip) (fun _ => sound pwd) s2).
  { intros s2 F1 F2 F3 F4. wp_write. wp_step. eapply wp_mono.
    - apply sound_send; [by apply G|]. intros _. cbn. rewrite F2, F3. cbn. rewrite El. split; [cbn; by rewrite Hreq|].
      by exists buf, req, past.
    - cbn. intros _ s3 (H3 & _). by apply wp_skip. }
  destruct (have_peer_ s1); cbn [negb]; [apply wp_skip|apply wp_modify]; by apply S.
Qed.

Lemma sound_media pwd buf s : sound pwd s -> wp (on_media buf) (fun _ => sound pwd) s.
Proof.
  intros Hs. unfold on_media. wp_read. destruct (srtp_ s) as [ses|] eqn:E; [|by apply wp_skip].
  destruct (default false (is_rtcp buf)); [|destruct (recv (audio_ s)); [|by apply wp_skip]].
  - unfold on_rtcp. pose proof (unprotect_rtcp_out buf ses) as K. destruct (unprotect_rtcp buf ses) as [r ses'].
    wp_write. pose proof (sound_srtp pwd s ses ses' Hs E K) as H1. destruct r; [|by apply wp_skip].
    apply wp_when; intros _; [|done]. apply wp_modify. by apply (sound_same pwd (s <| srtp_ := Some ses' |>)).
  - unfold on_talkback. pose proof (unprotect_out buf ses) as K. destruct (unprotect_rtp buf ses) as [r ses'].
    wp_write. pose proof (sound_srtp pwd s ses ses' Hs E K) as H1. destruct r as [[pkt at_]|]; [|by apply wp_skip].
    wp_read. destruct (negb _); [by apply wp_skip|]. destruct (_ <? _); [by apply wp_skip|].
    apply wp_modify. by apply (sound_same pwd (s <| srtp_ := Some ses' |>)).
Qed.

(** A datagram that is not such a request changes neither. *)
Lemma sound_received pwd from buf s : sound pwd s -> checked_request pwd buf = None ->
  sound pwd (s <| log ::= cons (Received from buf) |>).
Proof. intros [A B C D] E. split; try done. intros Hh. cbn. rewrite E. by apply C. Qed.

Lemma sound_datagram pwd from d s : sound pwd s -> wp (on_datagram from d) (fun _ => sound pwd) s.
Proof.
  intros Hs. unfold on_datagram. destruct (take 2048 d) as [|b0 rest]; [by apply wp_ret|]. set (buf := b0 :: rest).
  wp_write. set (s1 := s <| log ::= cons (Received from buf) |>).
  destruct (default false (is_stun buf)) eqn:E.
  - apply wp_bind. eapply wp_mono; [|intros a s2 H2; apply wp_ret; exact H2].
    destruct Hs as [A B C D]. apply sound_stun; try done. by exists (log s).
  - assert (H1 : sound pwd s1) by (apply sound_received; [done|unfold checked_request; by rewrite E]).
    destruct (_ && _); [by apply sound_dtls|]. destruct (_ && _); [|by apply wp_ret].
    apply wp_bind. eapply wp_mono; [by apply sound_media|]. intros a s2 H2. by apply wp_ret.
Qed.

Lemma sound_readable pwd inbox : forall s, sound pwd s -> wp (on_readable inbox) (fun _ => sound pwd) s.
Proof.
  induction inbox as [|[from d] inbox IH]; intros s Hs; [by apply wp_ret|]. cbn [on_readable]. apply wp_bind.
  eapply wp_mono; [by apply sound_datagram|]. intros [] s1 H1; [by apply IH|by apply wp_ret].
Qed.

Lemma sound_tick pwd s : sound pwd s -> wp tick (fun _ => sound pwd) s.
Proof.
  intros Hs. unfold tick. wp_read. destruct (handshake_done _); [by apply wp_skip|]. wp_write.
  unfold flush_dtls. wp_read. apply sound_flush. by apply (sound_same pwd s).
Qed.

(** Protecting and sending a packet. *)
Lemma sound_protect pwd pkt ses s : sound pwd s -> srtp_ s = Some ses ->
  wp (protect pkt ses) (fun r s' => sound pwd s' /\ log s' = log s /\ peer_ s' = peer_ s
    /\ forall p, r = Some p -> exists ours theirs, last_keys (log s) = Some (ours, theirs) /\ encrypted_by ours p) s.
Proof.
  intros Hs E. unfold protect. pose proof (protect_keys pkt ses) as K. destruct (protect_rtp pkt ses) as [r ses'] eqn:P.
  wp_write. apply wp_ret. split; [by apply (sound_srtp pwd s ses)|]. split; [done|]. split; [done|]. intros p ->.
  destruct (sd_srtp _ _ Hs _ E) as (o & t & Hl & Ho). exists o, t. split; [done|]. exists pkt, ses. by rewrite P.
Qed.

Lemma sound_protect_send pwd k pkt ses s (f : option Errno -> ST Peer bool) :
  (k = Video \/ k = Audio) -> sound pwd s -> srtp_ s = Some ses -> (forall e s', sound pwd s' -> wp (f e) (fun _ => sound pwd) s') ->
  wp (r ← protect pkt ses; match r with None => mret false | Some p => e ← send_udp k p; f e end) (fun _ => sound pwd) s.
Proof.
  intros Hk Hs E Hf. apply wp_bind. eapply wp_mono; [by apply sound_protect|]. cbn. intros r s1 (H1 & El & Ep & Hr).
  destruct r as [p|]; [|by apply wp_ret]. apply wp_bind. eapply wp_mono.
  - apply sound_send; [done|]. intros Hh. split; [by apply (sd_peer _ _ H1)|]. rewrite El. destruct Hk as [-> | ->]; by apply Hr.
  - cbn. intros e s2 (H2 & _). by apply Hf.
Qed.

Lemma sound_packets pwd pkts : forall s, sound pwd s -> wp (send_packets pkts) (fun _ => sound pwd) s.
Proof.
  induction pkts as [|pkt pkts IH]; intros s Hs; [by apply wp_ret|]. cbn [send_packets]. wp_read.
  destruct (srtp_ s) as [ses|] eqn:E; [|by apply wp_ret]. apply sound_protect_send; [by left|done|done|].
  intros [e|] s1 H1.
  - unfold count_failure. apply wp_bind, wp_bind, wp_modify, wp_modify, wp_ret.
    by apply (sound_same pwd s1).
  - wp_write. apply IH. by apply (sound_same pwd s1).
Qed.

Lemma sound_au pwd p pts key s : sound pwd s -> wp (send_au p pts key) (fun _ => sound pwd) s.
Proof.
  intros Hs. unfold send_au. wp_read. destruct (srtp_ s) eqn:E; [|by apply wp_skip].
  destruct (negb _); [by apply wp_skip|]. destruct (_ && _); [by apply wp_skip|].
  destruct (packetize_h264 _ _ _ _) as [pkts seq]. wp_write. apply wp_bind. eapply wp_mono.
  - apply sound_packets. by apply (sound_same pwd s).
  - cbn. intros all s1 H1. apply wp_when; intros _; [|done]. apply wp_modify. by apply (sound_same pwd s1).
Qed.

Lemma sound_chunks pwd fuel : forall g s, sound pwd s -> wp (send_chunks fuel g) (fun _ => sound pwd) s.
Proof.
  induction fuel as [|fuel IH]; intros g s Hs; [by apply wp_skip|]. destruct g as [|b g]; [by apply wp_skip|].
  cbn [send_chunks]. wp_read. destruct (srtp_ s) as [ses|] eqn:E; [|by apply wp_skip]. wp_write.
  set (s1 := _ <| audio_ts_ := _ |>). assert (H1 : sound pwd s1) by by apply (sound_same pwd s).
  apply wp_bind. eapply wp_mono; [by apply sound_protect|]. cbn. intros r s2 (H2 & El & Ep & Hr).
  destruct r as [p|]; [|by apply wp_skip]. apply wp_bind. eapply wp_mono.
  - apply sound_send; [done|]. intros Hh. split; [by apply (sd_peer _ _ H2)|]. rewrite El. by apply Hr.
  - cbn. intros [e|] s3 (H3 & _); [by apply wp_skip|by apply IH].
Qed.

Lemma sound_audio pwd g n s : sound pwd s -> wp (send_audio g n) (fun _ => sound pwd) s.
Proof.
  intros Hs. unfold send_audio. wp_read. destruct (_ || _); [by apply wp_skip|]. wp_write. apply sound_chunks.
  by apply (sound_same pwd s).
Qed.

Lemma sound_offer pwd sdp profile fp cs cr s : sound pwd s -> wp (on_offer sdp profile fp cs cr) (fun _ => sound pwd) s.
Proof.
  intros Hs. unfold on_offer. wp_read. wp_read. destruct (negb _); [by apply wp_ret|]. destruct (offered_ s); [by apply wp_ret|].
  destruct (negb _); [by apply wp_ret|]. wp_read. destruct (local_ s) as [[ip port_]|]; [|by apply wp_ret].
  destruct (media_at _ _) as [video|]; [|by apply wp_ret].
  wp_write. wp_write. destruct (0 <=? _); wp_write; apply wp_ret; by apply (sound_same pwd s).
Qed.

Lemma sound_call pwd op s : sound pwd s -> wp (call op) (fun _ => sound pwd) s.
Proof.
  intros Hs. destruct op; cbn [call].
  - apply wp_bind. eapply wp_mono; [by apply sound_offer|]. intros ? s1 H1. by apply wp_skip.
  - apply wp_bind. eapply wp_mono; [by apply sound_readable|]. intros ? s1 H1. by apply wp_skip.
  - by apply sound_tick.
  - by apply sound_au.
  - by apply sound_audio.
  - apply wp_bind. unfold take_audio_in. wp_read. destruct (audio_in_ s); [by apply wp_ret, wp_skip|].
    wp_write. apply wp_ret, wp_skip. by apply (sound_same pwd s).
  - apply wp_bind. unfold take_pli. wp_read. wp_write. apply wp_ret, wp_skip. by apply (sound_same pwd s).
Qed.

Lemma sound_run pwd ops s : sound pwd s -> wp (run ops) (fun _ => sound pwd) s.
Proof.
  intros Hs. apply (wp_for_each ops call (fun _ => sound pwd)); [done|]. intros op l s' H'. by apply sound_call.
Qed.

Lemma sound_initial ufrag pwd r sock local d : sound (octets_of pwd) (make_peer ufrag pwd r sock local d).
Proof. by split. Qed.

End Spec.

(** ** A session set up *)

(** A handshake of one flight, and a socket that takes everything. *)
Definition one_flight : Tls := {|
  ssl := unit;
  ssl_handshake := fun _ q => match q with
                              | [] => (WantReadOrWrite, tt, 0%nat, [])
                              | _ => (HandshakeOver, tt, 1%nat, [[22; 254; 253]])
                              end;
  ssl_session_reset := fun e => e;
  ssl_set_client_transport_id := fun _ e => e;
  srtp_key_material := fun _ => Some (below 60);
|}.
Definition all_taken : Socket := fun _ _ _ => None.
#[local] Existing Instances one_flight all_taken.

Definition a_session : Peer :=
  make_peer (txt "user") (txt "secret") 0x12345678 true (Some (txt "10.0.0.1", 5000)) (make_dtls (tt : ssl) true).
Definition a_request : bytes := request a_tid [user; integrity [user]].
Definition set_up : list Op :=
  [OnOffer an_offer (txt "640033") (txt "11:22") true true; OnReadable [((7, 8), a_request)]; OnReadable [((7, 8), [22; 1; 1])]].


(** The whole set-up: the answered request, the flight of the handshake, and a
    session that waits for a key unit, with the payload of the camera's profile. *)
Example session_is_set_up :
  let s := exec (run set_up) a_session in
  (match log s with
   | [SrtpLive _ _; Sent Handshaking (7, 8) [22; 254; 253] None; Received _ _; Sent Answer (7, 8) _ None; Received _ _] => true
   | _ => false
   end, media_ready s, await_key_ s, pli_ s, payload_type (rtp_ s), pt (audio_ s), send (audio_ s), recv (audio_ s))
  = (true, true, true, true, 103, 8, true, true).
Proof. by vm_compute. Qed.
