(* ===== verification/PeerVideo.v ===== *)
(** * From the hub to the browser

    What a session sends when its socket takes everything, decrypted, sorted and
    put together again on the other side: [send_au] and [send_audio] of [Peer]
    against the receivers of [SrtpSpec] and [Packetize]. *)

From S2P Require Import Prelude Text Bytes G711 Rtp H264 Packetize Srtp SrtpFacts SrtpSpec Stun Sdp Dtls Peer PeerSpec.

(** ** Consecutive packets *)

(** The index a stream continues with, or starts at. *)
Definition next_ok (prev : list Outgoing) (x i : Z) : Prop :=
  match last_index x prev with None => 0 <= i < 65536 | Some j => i = j + 1 end.

Fixpoint consecutive (prev gs : list Outgoing) : Prop :=
  match gs with
  | [] => True
  | g :: gs => next_ok prev (g_ssrc g) (g_index g) /\ consecutive (g :: prev) gs
  end.

Lemma consecutive_in_order gs : forall prev, consecutive prev gs -> in_order prev gs.
Proof.
  induction gs as [|g gs IH]; intros prev; [done|]. intros [H1 H2]. split; [|by apply IH].
  unfold follows, next_ok in *. destruct (last_index _ _); lia.
Qed.

Lemma last_index_cons x g prev : last_index x (g :: prev) = if g_ssrc g =? x then Some (g_index g) else last_index x prev.
Proof. unfold last_index. cbn [List.find]. by destruct (g_ssrc g =? x). Qed.

Definition seen_by (g : Outgoing) : event := (g_ssrc g, g_index g).

(** No index of a stream is above its last one. *)
Definition ordered (prev : list Outgoing) : Prop :=
  forall x, match last_index x prev with
            | None => indices x (map seen_by prev) = []
            | Some top => top ∈ indices x (map seen_by prev) /\ forall i, i ∈ indices x (map seen_by prev) -> i <= top
            end.

Lemma ordered_cons g prev : ordered prev -> next_ok prev (g_ssrc g) (g_index g) -> ordered (g :: prev).
Proof.
  intros Ho Hn x. rewrite last_index_cons.
  change (map seen_by (g :: prev)) with ((g_ssrc g, g_index g) :: map seen_by prev). rewrite indices_cons. specialize (Ho x).
  destruct (Z.eqb_spec (g_ssrc g) x) as [<-|]; [|done]. split; [apply elem_of_cons; by left|].
  intros i [->|Hi]%elem_of_cons; [done|]. unfold next_ok in Hn. destruct (last_index _ _) as [top|].
  - destruct Ho as [_ Ho]. specialize (Ho i Hi). lia.
  - rewrite Ho in Hi. by apply elem_of_nil in Hi.
Qed.

Lemma consecutive_deliverable gs : forall prev, ordered prev -> consecutive prev gs -> all_deliverable (map seen_by prev) gs.
Proof.
  induction gs as [|g gs IH]; intros prev Ho; [done|]. intros [H1 H2]. split; [|apply (IH (g :: prev)); [by apply ordered_cons|done]].
  unfold deliverable, next_ok in *. specialize (Ho (g_ssrc g)). destruct (last_index _ _) as [top|].
  - right. destruct Ho as [Hin Hle]. split; [intros Hi; specialize (Hle _ Hi); lia|]. exists top. split; [done|]. split; [done|lia].
  - left. split; [done|lia].
Qed.

Lemma consecutive_app gs1 : forall prev gs2, consecutive prev (gs1 ++ gs2) <-> consecutive prev gs1 /\ consecutive (rev gs1 ++ prev) gs2.
Proof.
  induction gs1 as [|g gs1 IH]; intros prev gs2; cbn [app consecutive rev]; [tauto|]. rewrite IH, <- app_assoc. cbn [app]. tauto.
Qed.

(** ** The packets of one stream, numbered from [i] *)

Fixpoint numbered (pt ts x i : Z) (l : list (bool * bytes)) : list Outgoing :=
  match l with
  | [] => []
  | (m, pl) :: l => {| g_pt := pt; g_marker := m; g_ts := ts; g_ssrc := x; g_index := i; g_payload := pl |} :: numbered pt ts x (i + 1) l
  end.

Lemma numbered_payloads pt ts x l : forall i, map g_payload (numbered pt ts x i l) = map snd l.
Proof. induction l as [|[m pl] l IH]; intros i; [done|]. cbn. by rewrite IH. Qed.

Lemma length_numbered pt ts x l : forall i, length (numbered pt ts x i l) = length l.
Proof. induction l as [|[m pl] l IH]; intros i; [done|]. cbn. by rewrite IH. Qed.

Lemma numbered_ssrc pt ts x l : forall i g, g ∈ numbered pt ts x i l -> g_ssrc g = x.
Proof.
  induction l as [|[m pl] l IH]; intros i g; cbn [numbered]; [by intros ?%elem_of_nil|].
  intros [->|Hg]%elem_of_cons; [done|by apply (IH (i + 1))].
Qed.

Lemma stamp_numbered p ts l : forall i, 0 <= i ->
  stamp p ts (i mod 65536) l = map packet (numbered (payload_type p) ts (p_ssrc p) i l).
Proof.
  induction l as [|[m pl] l IH]; intros i Hi; [done|]. cbn [stamp numbered map]. f_equal.
  rewrite <- (IH (i + 1)) by lia. f_equal. unfold wrap. change (2 ^ 16) with 65536. by rewrite Zplus_mod_idemp_l.
Qed.

Lemma numbered_ok pt ts x l : forall i, word 32 x -> 0 <= i -> i + Z.of_nat (length l) <= 2 ^ 48 -> Forall octets (map snd l) ->
  forall g, g ∈ numbered pt ts x i l -> outgoing_ok g.
Proof.
  induction l as [|[m pl] l IH]; intros i Hx Hi Hb Ho g; cbn [numbered]; [by intros ?%elem_of_nil|].
  cbn [map] in Ho. apply Forall_cons in Ho as [Ho Hos]. cbn [length] in Hb.
  intros [->|Hg]%elem_of_cons; [split; [done|split; [cbn; lia|done]]|]. apply (IH (i + 1)); try done; lia.
Qed.

Lemma numbered_consecutive pt ts x l : forall i prev, next_ok prev x i -> consecutive prev (numbered pt ts x i l).
Proof.
  induction l as [|[m pl] l IH]; intros i prev Hn; [done|]. cbn [numbered consecutive]. split; [done|].
  apply IH. unfold next_ok. rewrite last_index_cons. cbn. by rewrite Z.eqb_refl.
Qed.

Lemma next_ok_numbered pt ts x l : forall i prev, next_ok prev x i ->
  next_ok (rev (numbered pt ts x i l) ++ prev) x (i + Z.of_nat (length l)).
Proof.
  induction l as [|[m pl] l IH]; intros i prev Hn; [by rewrite Z.add_0_r|]. cbn [numbered rev length].
  rewrite <- app_assoc. cbn [app]. replace (i + Z.of_nat (S (length l))) with (i + 1 + Z.of_nat (length l)) by lia.
  apply IH. unfold next_ok. rewrite last_index_cons. cbn. by rewrite Z.eqb_refl.
Qed.

Lemma next_ok_other pt ts x y j l : x <> y -> forall i prev, next_ok prev y j -> next_ok (rev (numbered pt ts x i l) ++ prev) y j.
Proof.
  intros Hxy. induction l as [|[m pl] l IH]; intros i prev Hn; [done|]. cbn [numbered rev]. rewrite <- app_assoc. cbn [app].
  apply IH. unfold next_ok. rewrite last_index_cons. cbn. by destruct (Z.eqb_spec x y).
Qed.

(** ** Sending, on a socket that takes everything *)

Section Sending.
Context `{Tls, Socket}.
Hypothesis takes : forall l a p, sendto l a p = None.
Context (d : Dir) (rp : RtpParams) (ax : Z) (plan : AudioPlan) (to : address).
Hypothesis Hpt : word 7 (payload_type rp).
Hypothesis Hvx : word 32 (p_ssrc rp).
Hypothesis Hax : word 32 ax.
Hypothesis Hne : p_ssrc rp <> ax.
Hypothesis Hmax : (3 <= max_payload rp)%nat.
Hypothesis Hmax64 : Z.of_nat (max_payload rp) < 2 ^ 64.

Let K : list Z := [p_ssrc rp; ax].

Definition kind_of (g : Outgoing) : Kind := if g_ssrc g =? p_ssrc rp then Video else Audio.
Definition sent_as (g : Outgoing) : Event := Sent (kind_of g) to (seal d g) None.

(** The session can send, after the packets of [prev]. *)
Definition linked (s : Peer) (prev : list Outgoing) : Prop :=
  have_peer_ s = true /\ peer_ s = to
  /\ exists ses L, srtp_ s = Some ses /\ tx_ok ses L prev /\ rtp_out_ ses = d /\ (forall y, y ∈ L -> y ∈ K).

Definition sendable_as (prev : list Outgoing) (g : Outgoing) : Prop := outgoing_ok g /\ g_ssrc g ∈ K /\ next_ok prev (g_ssrc g) (g_index g).

Lemma protect_linked g s prev ses : linked s prev -> srtp_ s = Some ses -> sendable_as prev g ->
  exists ses', protect (packet g) ses s = (Some (seal d g), s <| srtp_ := Some ses' |>)
               /\ linked (s <| srtp_ := Some ses' |>) (g :: prev).
Proof.
  intros (Hh & Ht & ses0 & L & E & Htx & Hd & HL) E' (Hg & Hx & Hn). rewrite E' in E. injection E as <-.
  assert (Hf : follows prev g) by (unfold follows, next_ok in *; destruct (last_index _ _); lia).
  destruct (protect_spec g ses L prev Htx Hg Hf) as (ses' & P & Htx' & _ & Ho & _).
  { apply (room_for (out_ ses) L K); [apply (tk_slots _ _ _ Htx)|unfold kStreams; cbn; lia|done|done]. }
  exists ses'. unfold protect. rewrite P, Hd. split; [done|]. split; [done|]. split; [done|].
  exists ses', (streams_after (g_ssrc g) L). split; [done|]. split; [done|]. split; [congruence|].
  by apply streams_after_incl.
Qed.

Lemma send_linked k p s prev : linked s prev ->
  exists s', send_udp k p s = (None, s') /\ s' = s <| log ::= cons (Sent k to p None) |> /\ linked s' prev.
Proof.
  intros (Hh & <- & Hs). unfold send_udp, gets, modify, mbind, st_bind, id. rewrite Hh. cbn [negb]. rewrite takes.
  eexists. split; [done|]. split; [done|]. done.
Qed.

(** The members a video packet leaves alone. *)
Definition same_rest (s s' : Peer) : Prop :=
  rtp_ s' = rtp_ s /\ seq_ s' = seq_ s /\ audio_ s' = audio_ s /\ audio_ssrc_ s' = audio_ssrc_ s
  /\ audio_seq_ s' = audio_seq_ s /\ audio_ts_ s' = audio_ts_ s /\ await_key_ s' = await_key_ s.

Lemma send_packets_all gs : forall s prev, linked s prev -> consecutive prev gs ->
  (forall g, g ∈ gs -> outgoing_ok g /\ g_ssrc g = p_ssrc rp) ->
  wp (send_packets (map packet gs)) (fun all s' => all = true /\ linked s' (rev gs ++ prev)
    /\ log s' = rev (map sent_as gs) ++ log s /\ same_rest s s') s.
Proof.
  induction gs as [|g gs IH]; intros s prev Hs Hc Hgs; [by apply wp_ret|]. destruct Hc as [Hn Hc].
  destruct (Hgs g) as [Hg Hx]; [apply elem_of_cons; by left|]. cbn [map send_packets].
  pose proof Hs as (_ & _ & ses & L & E & _). wp_read. rewrite E.
  destruct (protect_linked g s prev ses Hs E) as (ses' & P & H1).
  { split; [done|]. split; [apply elem_of_cons; by left|done]. }
  destruct (send_linked Video (seal d g) _ _ H1) as (s2 & P2 & E2 & H2).
  unfold wp, result, exec, mbind, st_bind. rewrite P, P2. unfold modify.
  set (s3 := s2 <| fatal_send_streak_ := 0 |>).
  assert (H3 : linked s3 (g :: prev)) by exact H2.
  specialize (IH s3 (g :: prev) H3 Hc ltac:(intros g' Hg'; apply Hgs, elem_of_cons; by right)).
  unfold wp, result, exec in IH. cbn [rev map]. rewrite <- !app_assoc. cbn [app].
  assert (El : log s3 = sent_as g :: log s).
  { unfold s3. rewrite E2. unfold sent_as, kind_of. cbn. by rewrite Hx, Z.eqb_refl. }
  destruct IH as (I1 & I2 & I3 & I4). split; [done|]. split; [done|]. split; [by rewrite I3, El|].
  subst s3 s2. exact I4.
Qed.

(** What is played, and what is to be seen and heard of it. *)
Inductive Media :=
  | VideoUnit (au : list (nat * bytes)) (pts_us : Z) (key : bool)
  | AudioChunk (g711 : bytes) (skip_samples : Z).

Definition op_of (m : Media) : Op :=
  match m with
  | VideoUnit au pts key => SendAu (annexb au) pts key
  | AudioChunk g skip => SendAudio g skip
  end.

Definition media_ok (m : Media) : Prop :=
  match m with
  | VideoUnit au _ _ => forallb sendable (map snd au) = true /\ (length au <= 64)%nat
  | AudioChunk g _ => octets g
  end.

Definition media_size (m : Media) : Z :=
  match m with
  | VideoUnit au _ _ => Z.of_nat (length (concat (map snd au)))
  | AudioChunk g _ => Z.of_nat (length g)
  end.

(** The units from the first key unit on, without delimiters. *)
Fixpoint shown (waiting : bool) (ms : list Media) : list bytes :=
  match ms with
  | [] => []
  | VideoUnit au _ key :: ms =>
      if waiting && negb key then shown waiting ms else sent_units (map snd au) ++ shown false ms
  | AudioChunk _ _ :: ms => shown waiting ms
  end.

Fixpoint heard (ms : list Media) : bytes :=
  match ms with
  | [] => []
  | AudioChunk g _ :: ms => (if send plan then g else []) ++ heard ms
  | VideoUnit _ _ _ :: ms => heard ms
  end.

Record playing (s : Peer) (prev : list Outgoing) (vi ai : Z) (waiting : bool) : Prop := {
  pl_linked : linked s prev;
  pl_rtp : rtp_ s = rp;
  pl_audio : audio_ s = plan;
  pl_ssrc : audio_ssrc_ s = ax;
  pl_vi : next_ok prev (p_ssrc rp) vi /\ 0 <= vi;
  pl_ai : next_ok prev ax ai /\ 0 <= ai;
  pl_seq : seq_ s = vi mod 65536;
  pl_aseq : audio_seq_ s = ai mod 65536;
  pl_wait : await_key_ s = waiting;
}.

(** What one call adds: its packets, numbered on. *)
Definition adds (x : Z) (s s' : Peer) (prev gs : list Outgoing) : Prop :=
  log s' = rev (map sent_as gs) ++ log s /\ consecutive prev gs /\ (forall g, g ∈ gs -> outgoing_ok g /\ g_ssrc g = x).

Lemma adds_nothing x s prev : adds x s s prev [].
Proof. split; [done|]. split; [done|]. by intros g ?%elem_of_nil. Qed.

Lemma play_video au pts key s prev vi ai waiting : playing s prev vi ai waiting ->
  media_ok (VideoUnit au pts key) -> vi + media_size (VideoUnit au pts key) <= 2 ^ 48 ->
  wp (send_au (annexb au) pts key) (fun _ s' => exists gs vi',
    playing s' (rev gs ++ prev) vi' ai (waiting && negb key) /\ vi' <= vi + media_size (VideoUnit au pts key)
    /\ adds (p_ssrc rp) s s' prev gs
    /\ forall us, fold_left receive (map g_payload gs) {| partial := None; units := us |}
                  = {| partial := None; units := us ++ if waiting && negb key then [] else sent_units (map snd au) |}) s.
Proof.
  intros Hp [Hn Hlen] Hb. pose proof Hp as [Hl Er Ea Ex [Hvi Hvi0] Hai Es Eas Ew]. unfold send_au. wp_read.
  pose proof Hl as (Hh & _ & ses & L & E & _). rewrite E, Hh, Ew. cbn [negb]. destruct (waiting && negb key) eqn:Ewk.
  { apply wp_skip. exists [], vi. apply andb_true_iff in Ewk as [-> _]. split; [done|]. cbn [media_size]. split; [lia|].
    split; [apply adds_nothing|]. intros us. by rewrite app_nil_r. }
  rewrite Er, Es. assert (Hw : word 16 (vi mod 65536)) by (apply Z.mod_pos_bound; lia).
  destruct (packetize_stamped rp (ts90k pts) (vi mod 65536) au Hw Hmax Hmax64 Hn Hlen) as (l & -> & _ & _ & Ho & Hsz & Hr).
  rewrite stamp_numbered by done. set (gs := numbered (payload_type rp) (ts90k pts) (p_ssrc rp) vi l). cbn [media_size] in *.
  wp_write. set (s1 := s <| seq_ := _ |>). assert (H1 : linked s1 prev) by exact Hl.
  assert (Hc : consecutive prev gs) by by apply numbered_consecutive.
  assert (Hgs : forall g, g ∈ gs -> outgoing_ok g /\ g_ssrc g = p_ssrc rp).
  { intros g Hg. split; [|by eapply numbered_ssrc]. eapply numbered_ok; [exact Hvx|exact Hvi0| |exact Ho|exact Hg]. lia. }
  apply wp_bind. eapply wp_mono; [by apply (send_packets_all gs s1 prev)|].
  cbn. intros all s2 (-> & H2 & El & F1 & F2 & F3 & F4 & F5 & F6 & F7). apply wp_modify.
  exists gs, (vi + Z.of_nat (length l)). split; [|split; [lia|split; [done|]]].
  - split; cbn; rewrite ?F1, ?F2, ?F3, ?F4, ?F5; try done.
    + split; [by apply next_ok_numbered|lia].
    + destruct Hai. split; [by apply next_ok_other|done].
    + cbn. unfold advance, wrap. change (2 ^ 16) with 65536. by rewrite Zplus_mod_idemp_l.
  - intros us. unfold gs. by rewrite numbered_payloads, Hr.
Qed.

Lemma play_chunk len g s prev vi ai waiting ses : playing s prev vi ai waiting -> srtp_ s = Some ses -> octets g -> ai + 1 <= 2 ^ 48 ->
  let out := {| g_pt := u8 (pt plan); g_marker := false; g_ts := audio_ts_ s; g_ssrc := ax; g_index := ai; g_payload := take len g |} in
  let s1 := s <| audio_seq_ := u16 (audio_seq_ s + 1) |> <| audio_ts_ := u32 (audio_ts_ s + Z.of_nat len) |> in
  exists s3, (r ← protect (write_header (u8 (pt (audio_ s))) false (audio_seq_ s) (audio_ts_ s) (audio_ssrc_ s) ++ take len g) ses;
              match r with None => mret None | Some p => e ← send_udp Audio p; mret (Some e) end) s1 = (Some None, s3)
    /\ playing s3 (out :: prev) vi (ai + 1) waiting /\ log s3 = sent_as out :: log s /\ sendable_as prev out.
Proof.
  intros Hp E Ho Hb out s1. pose proof Hp as [Hl Er Ea Ex Hvi [Hai Hai0] Es Eas Ew].
  assert (Hout : sendable_as prev out).
  { split; [split; [done|split; [cbn; lia|by apply octets_take]]|]. split; [apply elem_of_cons; right; apply elem_of_cons; by left|done]. }
  assert (Epkt : write_header (u8 (pt (audio_ s))) false (audio_seq_ s) (audio_ts_ s) (audio_ssrc_ s) ++ take len g = packet out).
  { unfold packet. cbn [g_pt g_marker g_index g_ts g_ssrc g_payload out]. by rewrite Ea, Eas, Ex. }
  rewrite Epkt. assert (H1 : linked s1 prev) by exact Hl.
  destruct (protect_linked out s1 prev ses H1 E Hout) as (ses' & P & H2).
  destruct (send_linked Audio (seal d out) _ _ H2) as (s3 & P2 & E3 & H3).
  unfold mbind, st_bind. rewrite P, P2. exists s3. split; [done|].
  assert (Ek : kind_of out = Audio) by (unfold kind_of; cbn; by destruct (Z.eqb_spec ax (p_ssrc rp))).
  subst s3. split; [|split; [unfold sent_as; by rewrite Ek|done]]. split; cbn; try done.
  - destruct Hvi as [Hvi ?]. split; [|done]. unfold next_ok. rewrite last_index_cons. cbn. by destruct (Z.eqb_spec ax (p_ssrc rp)).
  - split; [|lia]. unfold next_ok. rewrite last_index_cons. cbn. by rewrite Z.eqb_refl.
  - cbn. rewrite Eas. unfold wrap. change (2 ^ 16) with 65536. by rewrite Zplus_mod_idemp_l.
Qed.

Lemma play_chunks fuel : forall g s prev vi ai waiting, playing s prev vi ai waiting -> octets g -> (length g <= fuel)%nat ->
  ai + Z.of_nat (length g) <= 2 ^ 48 ->
  wp (send_chunks fuel g) (fun _ s' => exists gs ai', playing s' (rev gs ++ prev) vi ai' waiting
    /\ ai' <= ai + Z.of_nat (length g) /\ adds ax s s' prev gs /\ concat (map g_payload gs) = g) s.
Proof.
  induction fuel as [|fuel IH]; intros g s prev vi ai waiting Hp Ho Hf Hb.
  { destruct g; [|cbn in Hf; lia]. apply wp_skip. exists [], ai. split; [done|]. split; [lia|]. split; [apply adds_nothing|done]. }
  destruct g as [|b g]; [apply wp_skip; exists [], ai; split; [done|split; [lia|split; [apply adds_nothing|done]]]|].
  cbn [send_chunks]. set (g0 := b :: g) in *. set (len := if (length g0 <? 1000)%nat then length g0 else 1000%nat).
  assert (Hlen : (1 <= len <= length g0)%nat).
  { unfold len. destruct (Nat.ltb_spec (length g0) 1000); [cbn; lia|lia]. }
  wp_read. pose proof (pl_linked _ _ _ _ _ Hp) as (_ & _ & ses & L & E & _). rewrite E.
  destruct (play_chunk len g0 s prev vi ai waiting ses Hp E Ho ltac:(lia)) as (s3 & P & H3 & El & Hs).
  set (out := {| g_pt := _ |}) in *. wp_write.
  unfold wp, result, exec, mbind, st_bind in *. destruct (protect _ ses _) as [[p|] s2] eqn:P1; [|done].
  destruct (send_udp Audio p s2) as [e s2'] eqn:P2. injection P as -> ->.
  specialize (IH (drop len g0) s3 (out :: prev) vi (ai + 1) waiting H3). rewrite length_drop in IH.
  destruct IH as (gs & ai' & I1 & I2 & (I3 & I4 & I5) & I6); [by apply octets_drop|lia|lia|].
  exists (out :: gs), ai'. cbn [rev map concat]. rewrite <- !app_assoc. cbn [app]. split; [done|]. split; [lia|]. split; [split|].
  - cbn [map rev]. by rewrite I3, El, <- app_assoc.
  - destruct Hs as (Hg & _ & Hn). split; [by split|]. intros x [->|Hx]%elem_of_cons; [done|by apply I5].
  - rewrite I6. cbn [g_payload out]. apply take_drop.
Qed.

Lemma play_audio g skip s prev vi ai waiting : playing s prev vi ai waiting -> octets g -> ai + Z.of_nat (length g) <= 2 ^ 48 ->
  wp (send_audio g skip) (fun _ s' => exists gs ai', playing s' (rev gs ++ prev) vi ai' waiting
    /\ ai' <= ai + Z.of_nat (length g) /\ adds ax s s' prev gs /\ concat (map g_payload gs) = if send plan then g else []) s.
Proof.
  intros Hp Ho Hb. unfold send_audio. wp_read. pose proof Hp as [(Hh & _ & ses & L & E & _) _ Ea _ _ _ _ _ _].
  rewrite E, Hh, Ea, bool_decide_false by done. cbn [orb negb].
  destruct (send plan); cbn [negb orb].
  - destruct (Nat.eqb_spec (length g) 0) as [Eg|_].
    + destruct g; [|done]. apply wp_skip. exists [], ai. split; [done|]. split; [cbn; lia|]. split; [apply adds_nothing|done].
    + wp_write. set (s1 := _ <| audio_ts_ := _ |>). assert (H1 : playing s1 prev vi ai waiting).
      { destruct Hp. by split. }
      eapply wp_mono; [by apply (play_chunks (length g) g s1 prev vi ai waiting)|]. done.
  - apply wp_skip. exists [], ai. split; [done|]. split; [lia|]. split; [apply adds_nothing|done].
Qed.

(** ** A whole history *)

Definition of_source (x : Z) (gs : list Outgoing) : list Outgoing := List.filter (fun g => g_ssrc g =? x) gs.

Lemma of_source_same x gs : (forall g, g ∈ gs -> g_ssrc g = x) -> of_source x gs = gs.
Proof.
  induction gs as [|g gs IH]; intros Hg; [done|]. cbn. rewrite (Hg g), Z.eqb_refl by (apply elem_of_cons; by left).
  f_equal. apply IH. intros. apply Hg, elem_of_cons. by right.
Qed.
Lemma of_source_other x y gs : x <> y -> (forall g, g ∈ gs -> g_ssrc g = x) -> of_source y gs = [].
Proof.
  intros Hxy. induction gs as [|g gs IH]; intros Hg; [done|]. cbn. rewrite (Hg g) by (apply elem_of_cons; by left).
  destruct (Z.eqb_spec x y); [done|]. apply IH. intros. apply Hg, elem_of_cons. by right.
Qed.
Lemma of_source_app x a b : of_source x (a ++ b) = of_source x a ++ of_source x b.
Proof. apply List.filter_app. Qed.

Definition total (ms : list Media) : Z := fold_right (fun m n => media_size m + n) 0 ms.

Lemma total_nonneg ms : 0 <= total ms.
Proof. induction ms as [|[] ms IH]; cbn [total fold_right media_size]; [lia|unfold total in IH; lia..]. Qed.

Lemma play_all ms : forall s prev vi ai waiting, playing s prev vi ai waiting -> Forall media_ok ms ->
  vi + total ms <= 2 ^ 48 -> ai + total ms <= 2 ^ 48 ->
  wp (run (map op_of ms)) (fun _ s' => exists gs, log s' = rev (map sent_as gs) ++ log s /\ consecutive prev gs
    /\ (forall g, g ∈ gs -> outgoing_ok g /\ g_ssrc g ∈ K)
    /\ (forall us, fold_left receive (map g_payload (of_source (p_ssrc rp) gs)) {| partial := None; units := us |}
                   = {| partial := None; units := us ++ shown waiting ms |})
    /\ concat (map g_payload (of_source ax gs)) = heard ms) s.
Proof.
  induction ms as [|m ms IH]; intros s prev vi ai waiting Hp Hms Hv Ha.
  { apply wp_skip. exists []. split; [done|]. split; [done|]. split; [by intros g ?%elem_of_nil|]. split; [|done].
    intros us. cbn. by rewrite app_nil_r. }
  apply Forall_cons in Hms as [Hm Hms]. cbn [total fold_right] in Hv, Ha. fold (total ms) in Hv, Ha. pose proof (total_nonneg ms) as Hnn.
  cbn [map run for_each]. apply wp_bind. destruct m as [au pts key|g skip]; cbn [op_of call media_size] in *.
  - eapply wp_mono; [apply (play_video au pts key s prev vi ai waiting Hp Hm); cbn; lia|].
    cbn. intros _ s1 (gs1 & vi' & P1 & Hvi & (El & Hc & Hg) & Hr). eapply wp_mono; [by apply (IH s1 _ vi' ai _ P1); [|lia|lia]|].
    cbn. intros _ s2 (gs2 & El2 & Hc2 & Hg2 & Hr2 & Hh2). exists (gs1 ++ gs2).
    rewrite map_app, rev_app_distr, <- app_assoc, <- El. split; [done|]. split; [by apply consecutive_app|]. split; [|split].
    + intros g [Hin|Hin]%elem_of_app; [|by apply Hg2]. destruct (Hg g Hin) as [? ->]. split; [done|apply elem_of_cons; by left].
    + intros us. rewrite of_source_app, map_app, fold_left_app, (of_source_same _ gs1) by (intros; by apply Hg). rewrite Hr, Hr2, <- app_assoc.
      f_equal. f_equal. by destruct waiting, key.
    + rewrite of_source_app, (of_source_other (p_ssrc rp) ax) by (done || (intros; by apply Hg)). exact Hh2.
  - eapply wp_mono; [apply (play_audio g skip s prev vi ai waiting Hp Hm); lia|].
    cbn. intros _ s1 (gs1 & ai' & P1 & Hai & (El & Hc & Hg) & Hr). eapply wp_mono; [by apply (IH s1 _ vi ai' _ P1); [|lia|lia]|].
    cbn. intros _ s2 (gs2 & El2 & Hc2 & Hg2 & Hr2 & Hh2). exists (gs1 ++ gs2).
    rewrite map_app, rev_app_distr, <- app_assoc, <- El. split; [done|]. split; [by apply consecutive_app|]. split; [|split].
    + intros x [Hin|Hin]%elem_of_app; [|by apply Hg2]. destruct (Hg x Hin) as [? ->].
      split; [done|apply elem_of_cons; right; apply elem_of_cons; by left].
    + intros us. rewrite of_source_app, (of_source_other ax (p_ssrc rp)) by (congruence || (intros; by apply Hg)). apply Hr2.
    + rewrite of_source_app, map_app, concat_app, (of_source_same _ gs1) by (intros; by apply Hg). by rewrite Hr, Hh2.
Qed.
End Sending.

(** ** The browser *)

(** The datagrams of a piece of the log, oldest first. *)
Definition datagrams (l : list Event) : list bytes :=
  rev (flat_map (fun e => match e with Sent _ _ p _ => [p] | _ => [] end) l).

(** The payloads of one source among what was decrypted. *)
Definition received (x : Z) (rs : list (option (bytes * nat))) : list bytes :=
  flat_map (fun r => match r with Some (p, at_) => if rd32 p 8 =? x then [drop at_ p] else [] | None => [] end) rs.

Definition assemble (payloads : list bytes) : list bytes := units (fold_left receive payloads {| partial := None; units := [] |}).

Lemma datagrams_sent rp to d gs : datagrams (rev (map (sent_as d rp to) gs)) = map (seal d) gs.
Proof.
  unfold datagrams. rewrite <- (rev_involutive (map (seal d) gs)). f_equal. rewrite <- map_rev. rewrite <- map_rev.
  induction (rev gs) as [|g l IH]; [done|]. cbn. by rewrite IH.
Qed.

Lemma received_packets x gs : (forall g, g ∈ gs -> outgoing_ok g) ->
  received x (map (fun g => Some (packet g, 12%nat)) gs) = map g_payload (of_source x gs).
Proof.
  induction gs as [|g gs IH]; intros Hg; [done|]. cbn [map received flat_map of_source List.filter].
  destruct (packet_fields g (drop 12 (packet g)) (Hg g ltac:(apply elem_of_cons; by left))) as (_ & Hx & _ & Hd).
  rewrite take_drop in Hx. rewrite Hx, Hd.
  assert (E : received x (map (fun g => Some (packet g, 12%nat)) gs) = map g_payload (of_source x gs))
    by (apply IH; intros; apply Hg, elem_of_cons; by right).
  unfold received, of_source in E. rewrite E. by destruct (g_ssrc g =? x).
Qed.

Section Browser.
Context `{Tls, Socket}.

Definition fresh_session (s : Peer) (ours theirs : SrtpKey) : Prop :=
  srtp_ s = Some (make_session ours theirs) /\ have_peer_ s = true /\ await_key_ s = true
  /\ (word 7 (payload_type (rtp_ s)) /\ word 32 (p_ssrc (rtp_ s)) /\ (3 <= max_payload (rtp_ s))%nat /\ Z.of_nat (max_payload (rtp_ s)) < 2 ^ 64)
  /\ (word 32 (audio_ssrc_ s) /\ p_ssrc (rtp_ s) <> audio_ssrc_ s) /\ word 16 (seq_ s) /\ word 16 (audio_seq_ s).

(** C20. The browser sees and hears what the camera sent.  A session whose handshake
    is over plays video units (of up to 64 well-formed NAL units) and chunks of
    G.711 in any order, on a socket that takes everything, for less than 2^47
    octets.  A browser with the same key decrypts every datagram; sorted by
    source, the video puts together exactly the NAL units from the first key unit
    on, without delimiters, in order, and the audio is exactly what was sent, or
    nothing when the answer did not promise any.  Sequence numbers may wrap on
    both streams any number of times. *)
Theorem video_reaches_browser (s : Peer) (ours theirs kb : SrtpKey) (ms : list Media) :
  (forall l a p, sendto l a p = None) -> key_material ours -> fresh_session s ours theirs ->
  Forall media_ok ms -> total ms < 2 ^ 47 ->
  exists new, log (exec (run (map op_of ms)) s) = new ++ log s
    /\ (forall ev, ev ∈ new -> exists k p, ev = Sent k (peer_ s) p None)
    /\ let rs := unprotect_all (datagrams new) (make_session kb ours) in
       assemble (received (p_ssrc (rtp_ s)) rs) = shown true ms
       /\ concat (received (audio_ssrc_ s) rs) = heard (audio_ s) ms.
Proof.
  intros Htakes Hkey (E & Hh & Hw & (Hpt & Hvx & Hmax & Hmax64) & (Hax & Hne) & Hsq & Haq) Hms Hb.
  set (d := make_dir ours false).
  assert (Hp : playing d (rtp_ s) (audio_ssrc_ s) (audio_ s) (peer_ s) s [] (seq_ s) (audio_seq_ s) true).
  { split; try done.
    - split; [done|]. split; [done|]. exists (make_session ours theirs), []. split; [done|]. split; [apply tx_initial|].
      split; [done|]. by intros y ?%elem_of_nil.
    - destruct Hsq. split; [by split|done].
    - destruct Haq. split; [by split|done].
    - symmetry. by apply Z.mod_small.
    - symmetry. by apply Z.mod_small. }
  destruct Hsq as [_ Hsq], Haq as [_ Haq]. change (2 ^ 16) with 65536 in *.
  destruct (play_all Htakes d (rtp_ s) (audio_ssrc_ s) (audio_ s) (peer_ s) Hvx Hax Hne Hmax Hmax64 ms s [] _ _ true Hp Hms)
    as (gs & El & Hc & Hg & Hr & Ha); [lia|lia|].
  eexists. split; [exact El|]. split.
  { intros ev Hev. apply list_elem_of_In, in_rev, in_map_iff in Hev as (g & <- & _). by do 2 eexists. }
  cbv zeta. rewrite datagrams_sent.
  rewrite (unprotect_all_spec d [p_ssrc (rtp_ s); audio_ssrc_ s] gs (make_session kb ours) [] []).
  - rewrite !received_packets by (intros; by apply Hg). unfold assemble. by rewrite Hr.
  - apply rx_initial.
  - done.
  - by apply make_dir_ok.
  - unfold kStreams. cbn. lia.
  - by intros y ?%elem_of_nil.
  - done.
  - apply (consecutive_deliverable gs []); [by intros x|done].
Qed.
End Browser.

(** ** At a concrete input *)

#[local] Existing Instances one_flight all_taken.

Definition up : Peer := exec (run set_up) a_session.
Definition camera_key : SrtpKey := {| master_key := take 16 (drop 16 (below 60)); master_salt := drop 46 (below 60) |}.
Definition browser_key : SrtpKey := {| master_key := take 16 (below 60); master_salt := take 14 (drop 32 (below 60)) |}.

(** A delta unit nobody can decode yet, audio, a key unit. *)
Definition a_program : list Media :=
  [VideoUnit [(1%nat, [0x41; 9; 9])] 0 false; AudioChunk [1; 2; 3] 0; VideoUnit small_unit 40000 true].

Lemma video_reaches_browser_witness :
  exists new, let rs := unprotect_all (datagrams new) (make_session browser_key camera_key) in
    assemble (received (p_ssrc (rtp_ up)) rs) = [[0x67; 0x42; 0x1f]; [0x65; 1; 2; 3; 4; 5; 6]]
    /\ concat (received (audio_ssrc_ up) rs) = [1; 2; 3].
Proof.
  assert (Hkey : key_material camera_key) by (apply (bool_decide_unpack _); by vm_compute).
  assert (N : (word 7 103 /\ word 32 0x12345678 /\ (3 <= 1200)%nat /\ Z.of_nat 1200 < 2 ^ 64)
              /\ (word 32 1398870577 /\ 0x12345678 <> 1398870577) /\ word 16 13398 /\ word 16 4387).
  { unfold word. repeat split; lia. }
  assert (F : srtp_ up = Some (make_session camera_key browser_key) /\ have_peer_ up = true /\ await_key_ up = true
              /\ rtp_ up = {| payload_type := 103; p_ssrc := 0x12345678; max_payload := 1200 |}
              /\ audio_ssrc_ up = 1398870577 /\ seq_ up = 13398 /\ audio_seq_ up = 4387 /\ send (audio_ up) = true).
  { repeat match goal with |- _ /\ _ => split end; vm_compute; reflexivity. }
  destruct F as (F1 & F2 & F3 & F4 & F5 & F6 & F7 & F8).
  assert (Hs : fresh_session up camera_key browser_key).
  { unfold fresh_session. rewrite F4, F5, F6, F7. exact (conj F1 (conj F2 (conj F3 N))). }
  assert (Hm : Forall media_ok a_program).
  { apply Forall_cons; split; [split; [by vm_compute|apply Nat.leb_le; by vm_compute]|].
    apply Forall_cons; split; [repeat (apply Forall_cons; split; [split; [by vm_compute|by vm_compute]|]); by apply Forall_nil|].
    apply Forall_cons; split; [split; [by vm_compute|apply Nat.leb_le; by vm_compute]|]. by apply Forall_nil. }
  assert (Ht : total a_program < 2 ^ 47) by by vm_compute.
  destruct (video_reaches_browser up camera_key browser_key browser_key a_program (fun _ _ _ => eq_refl) Hkey Hs Hm Ht)
    as (new & _ & _ & Hv & Ha).
  exists new. split; [rewrite Hv; vm_compute; reflexivity|]. rewrite Ha. unfold heard, a_program. by rewrite F8.
Defined.
