(* ===== verification/PeerState.v ===== *)
(** * The state of a WebRTC session

    Every call of [Peer] is a sequence of small changes of the state, one member
    each; what holds of each change holds over any history. *)

From S2P Require Import Prelude Text Bytes G711 Rtp H264 Packetize Srtp Stun Sdp Dtls Peer PeerSpec.

Section State.
Context `{Tls, Socket}.

Definition sample (x : Z) : Prop := - 32768 <= x < 32768.

(** One change; [await_key_] only becomes true. *)
Inductive change (s : Peer) : Peer -> Prop :=
  | c_dtls d : change s (s <| dtls_ := d |>)
  | c_log e : change s (s <| log ::= cons e |>)
  | c_peer a : change s (s <| peer_ := a |>)
  | c_have : change s (s <| have_peer_ := true |>)
  | c_srtp ses : change s (s <| srtp_ := ses |>)
  | c_await : change s (s <| await_key_ := true |>)
  | c_pli b : change s (s <| pli_ := b |>)
  | c_logged : change s (s <| dtls_logged_ := true |>)
  | c_streak n : word 32 n -> change s (s <| fatal_send_streak_ := n |>)
  | c_seq au ts : change s (s <| seq_ := (packetize_h264 au ts (seq_ s) (rtp_ s)).2 |>)
  | c_audio_seq n : word 16 n -> change s (s <| audio_seq_ := n |>)
  | c_audio_ts n : word 32 n -> change s (s <| audio_ts_ := n |>)
  | c_audio_in l : Z.of_nat (length l) <= 8000 -> Forall sample l -> change s (s <| audio_in_ := l |>)
  | c_talk l : Z.of_nat (length (audio_in_ s ++ l)) <= 8000 -> Forall sample l -> change s (s <| audio_in_ ::= fun pcm => pcm ++ l |>)
  | c_payload pt : word 8 pt -> change s (s <| rtp_ ::= with_payload_type pt |>)
  | c_plan a : change s (s <| audio_ := a |>)
  | c_pcma b : change s (s <| audio_pcma_ := b |>)
  | c_offered : change s (s <| offered_ := true |>).

Definition keeps (m : ST Peer unit) : Prop := forall s0, preserves (rtc change s0) m.

Lemma change_step s0 s s' : rtc change s0 s -> change s s' -> rtc change s0 s'.
Proof. apply rtc_r. Qed.

(** A change under way, and a write that is one. *)
Ltac changed := eapply change_step; [eassumption|constructor].

Lemma wp_change {A} (s0 s : Peer) (f : Peer -> Peer) (k : unit -> ST Peer A) Q :
  rtc change s0 s -> change s (f s) -> (forall s', rtc change s0 s' -> s' = f s -> wp (k tt) Q s') -> wp (modify f ≫= k) Q s.
Proof. intros Hs Hc Hk. apply wp_bind, wp_modify. apply Hk; [by eapply change_step|done]. Qed.

Lemma changes_send s0 k p s : rtc change s0 s -> wp (send_udp k p) (fun _ s' => rtc change s0 s') s.
Proof. intros Hs. unfold send_udp. wp_read. destruct (negb _); [by apply wp_ret|]. wp_write. apply wp_ret. changed. Qed.

Lemma changes_flush s0 n : forall s, rtc change s0 s -> wp (flush_loop n) (fun _ => rtc change s0) s.
Proof.
  induction n as [|n IH]; intros s Hs; [by apply wp_skip|]. cbn [flush_loop]. wp_read. destruct (take_out _) as [x d].
  wp_write. assert (rtc change s0 (s <| dtls_ := d |>)) by changed. destruct x; [|by apply wp_skip].
  apply wp_bind. eapply wp_mono; [by apply changes_send|]. intros ? s1 H1'. by apply IH.
Qed.

Lemma changes_stun from buf : keeps (on_stun from buf).
Proof.
  intros s0 s Hs. unfold on_stun. wp_read. destruct (_ || _); [by apply wp_skip|].
  eapply (wp_change s0); [done|constructor|]. intros s1 H1' _. wp_read. apply wp_bind, (wp_mono _ (fun _ => rtc change s0)).
  - apply wp_when; intros _; [apply wp_modify; changed|done].
  - intros ? s2 H2. eapply (wp_change s0); [done|constructor|]. intros s3 H3 _. apply wp_bind.
    eapply wp_mono; [by apply changes_send|]. intros ? s4 H4. by apply wp_skip.
Qed.

Lemma changes_dtls s0 buf s : rtc change s0 s -> wp (on_dtls buf) (fun _ => rtc change s0) s.
Proof.
  intros Hs. unfold on_dtls. eapply (wp_change s0); [done|apply (c_dtls s (feed buf (dtls_ s)))|]. intros s1 H1' _. wp_read.
  destruct (dtls_step _) as [alive d]. eapply (wp_change s0); [done|constructor|]. intros s2 H2 _.
  destruct alive; cbn [negb]; [|by apply wp_ret]. apply wp_bind. unfold flush_dtls. wp_read.
  eapply wp_mono; [by apply changes_flush|]. intros ? s3 H3. wp_read. apply wp_bind, (wp_mono _ (fun _ => rtc change s0)).
  - apply wp_when; intros _; [|done]. eapply (wp_change s0); [done|constructor|]. intros s4 H4 _. unfold srtp_keys. wp_read.
    destruct (export_srtp _) as [[o t]|]; [|by apply wp_skip]. wp_write. apply wp_modify.
    assert (H5 : rtc change s0 (s4 <| log ::= cons (SrtpLive o t) |>)) by changed.
    assert (H6 : rtc change s0 (s4 <| log ::= cons (SrtpLive o t) |> <| srtp_ := Some (make_session o t) |>)) by changed.
    assert (H7 : rtc change s0 (s4 <| log ::= cons (SrtpLive o t) |> <| srtp_ := Some (make_session o t) |> <| await_key_ := true |>)) by changed.
    changed.
  - intros ? s4 H4. by apply wp_ret.
Qed.

Lemma decode_samples pt p out out' : Forall sample out -> decode_g711 pt p out = Some out' ->
  exists l, out' = out ++ l /\ length l = length p /\ Forall sample l.
Proof.
  unfold decode_g711. intros Ho. destruct (_ && _); [done|]. intros [= <-]. eexists. split; [done|].
  assert (forall z, sample (i16 z)) by (intros z; apply (swrap_range 16 z); lia).
  destruct (pt =? kPayloadPcma); unfold alaw_decode_all, ulaw_decode_all; rewrite length_map; (split; [done|]);
    apply Forall_map, Forall_forall; intros x _; apply H1.
Qed.

Lemma changes_media buf : keeps (on_media buf).
Proof.
  intros s0 s Hs. unfold on_media. wp_read. destruct (srtp_ s) as [ses|]; [|by apply wp_skip].
  destruct (default false _); [|destruct (recv _); [|by apply wp_skip]].
  - unfold on_rtcp. destruct (unprotect_rtcp buf ses) as [r ses']. eapply (wp_change s0); [done|constructor|]. intros s1 H1' _.
    destruct r; [|by apply wp_skip]. apply wp_when; intros _; [|done]. apply wp_modify. changed.
  - unfold on_talkback. destruct (unprotect_rtp buf ses) as [r ses']. eapply (wp_change s0); [done|constructor|]. intros s1 H1' _.
    destruct r as [[pkt at_]|]; [|by apply wp_skip]. wp_read. destruct (negb _); [by apply wp_skip|].
    destruct (Z.ltb_spec 8000 (Z.of_nat (length (audio_in_ s1) + (length pkt - at_)))) as [|Hle]; [by apply wp_skip|]. apply wp_modify.
    destruct (decode_g711 (if audio_pcma_ s1 then kPayloadPcma else kPayloadPcmu) (drop at_ pkt) []) as [l|] eqn:E.
    + assert (D : forall pcm, default pcm (decode_g711 (if audio_pcma_ s1 then kPayloadPcma else kPayloadPcmu) (drop at_ pkt) pcm) = pcm ++ l).
      { intros pcm. revert E. unfold decode_g711. destruct (_ && _); [done|]. by intros [= <-]. }
      destruct (decode_samples _ _ [] l (Forall_nil_2 _) E) as (l' & -> & Hl & Hsm).
      eapply change_step; [exact H1'|].
      assert (Ef : s1 <| audio_in_ ::= fun pcm => default pcm (decode_g711 (if audio_pcma_ s1 then kPayloadPcma else kPayloadPcmu) (drop at_ pkt) pcm) |>
                   = s1 <| audio_in_ ::= fun pcm => pcm ++ l' |>) by (cbn; by rewrite D).
      rewrite Ef. constructor; [|done]. rewrite length_app, Hl, length_drop. exact Hle.
    + assert (Ef : s1 <| audio_in_ ::= fun pcm => default pcm (decode_g711 (if audio_pcma_ s1 then kPayloadPcma else kPayloadPcmu) (drop at_ pkt) pcm) |> = s1).
      { revert E. unfold decode_g711. by destruct (audio_pcma_ s1). }
      by rewrite Ef.
Qed.

Lemma changes_readable s0 inbox : forall s, rtc change s0 s -> wp (on_readable inbox) (fun _ => rtc change s0) s.
Proof.
  induction inbox as [|[from d] inbox IH]; intros s Hs; [by apply wp_ret|]. cbn [on_readable]. apply wp_bind, (wp_mono _ (fun _ => rtc change s0)).
  - unfold on_datagram. destruct (take 2048 d) as [|b0 rest]; [by apply wp_ret|]. eapply (wp_change s0); [done|constructor|]. intros s1 H1' _.
    destruct (default false _); [apply wp_bind; eapply wp_mono; [by apply changes_stun|by intros a s2 H2; apply wp_ret]|].
    destruct (_ && _); [by apply changes_dtls|]. destruct (_ && _); [|by apply wp_ret].
    apply wp_bind. eapply wp_mono; [by apply changes_media|]. by intros a s2 H2; apply wp_ret.
  - intros [] s1 H1'; [by apply IH|by apply wp_ret].
Qed.

Lemma changes_tick : keeps tick.
Proof.
  intros s0 s Hs. unfold tick. wp_read. destruct (handshake_done _); [by apply wp_skip|].
  eapply (wp_change s0); [done|apply c_dtls|]. intros s1 H1' _. unfold flush_dtls. wp_read. by apply changes_flush.
Qed.

Lemma changes_protect s0 pkt ses s : rtc change s0 s -> wp (protect pkt ses) (fun _ => rtc change s0) s.
Proof. intros Hs. unfold protect. destruct (protect_rtp pkt ses). wp_write. apply wp_ret. changed. Qed.

Lemma changes_packets s0 pkts : forall s, rtc change s0 s -> wp (send_packets pkts) (fun _ => rtc change s0) s.
Proof.
  induction pkts as [|pkt pkts IH]; intros s Hs; [by apply wp_ret|]. cbn [send_packets]. wp_read. destruct (srtp_ s) as [ses|]; [|by apply wp_ret].
  apply wp_bind. eapply wp_mono; [by apply changes_protect|]. intros [p|] s1 H1'; [|by apply wp_ret].
  apply wp_bind. eapply wp_mono; [by apply changes_send|]. intros [e|] s2 H2.
  - unfold count_failure. apply wp_bind. eapply (wp_change s0); [done| |].
    + constructor. destruct (is_fatal_send_errno e); [by apply word_wrap|done].
    + intros s3 H3 _. apply wp_modify, wp_ret. changed.
  - eapply (wp_change s0); [done|by constructor|]. intros s3 H3 _. by apply IH.
Qed.

Lemma changes_chunks fuel : forall g, keeps (send_chunks fuel g).
Proof.
  induction fuel as [|fuel IH]; intros g s0 s Hs; [by apply wp_skip|]. destruct g as [|b g]; [by apply wp_skip|].
  cbn [send_chunks]. wp_read. destruct (srtp_ s) as [ses|]; [|by apply wp_skip]. wp_write. set (s2 := _ <| audio_ts_ := _ |>).
  assert (H1' : rtc change s0 (s <| audio_seq_ := u16 (audio_seq_ s + 1) |>)).
  { eapply change_step; [done|]. constructor. by apply word_wrap. }
  assert (H2 : rtc change s0 s2) by (eapply change_step; [exact H1'|]; constructor; by apply word_wrap).
  apply wp_bind. eapply wp_mono; [by apply changes_protect|]. intros [p|] s3 H3; [|by apply wp_skip].
  apply wp_bind. eapply wp_mono; [by apply changes_send|]. intros [e|] s4 H4; [by apply wp_skip|by apply IH].
Qed.

Lemma changes_audio g n : keeps (send_audio g n).
Proof.
  intros s0 s Hs. unfold send_audio. wp_read. destruct (_ || _); [by apply wp_skip|].
  eapply (wp_change s0); [done|constructor; by apply word_wrap|]. intros s1 H1' _. by apply changes_chunks.
Qed.

Lemma changes_offer s0 sdp profile fp cs cr s : rtc change s0 s -> wp (on_offer sdp profile fp cs cr) (fun _ => rtc change s0) s.
Proof.
  intros Hs. unfold on_offer. wp_read. wp_read. destruct (negb _); [by apply wp_ret|]. destruct (offered_ s); [by apply wp_ret|].
  destruct (negb _); [by apply wp_ret|]. wp_read. destruct (local_ s) as [[ip port_]|]; [|by apply wp_ret].
  destruct (media_at _ _); [|by apply wp_ret].
  eapply (wp_change s0); [done|constructor; by apply word_wrap|]. intros s1 H1' _.
  eapply (wp_change s0); [done|constructor|]. intros s2 H2 _. destruct (0 <=? _).
  - wp_write. apply wp_ret. set (s3 := s2 <| audio_pcma_ := _ |>). assert (rtc change s0 s3) by changed. changed.
  - wp_write. apply wp_ret. changed.
Qed.

(** Sending a unit: the only place where [await_key_] becomes false, after
    every packet went out. *)
Lemma changes_au s0 p pts key s : rtc change s0 s ->
  wp (send_au p pts key) (fun _ s' => exists s1, rtc change s0 s1 /\ (s' = s1 \/ s' = s1 <| await_key_ := false |>)) s.
Proof.
  intros Hs. assert (Hid : exists s1, rtc change s0 s1 /\ (s = s1 \/ s = s1 <| await_key_ := false |>)) by (exists s; auto).
  unfold send_au. wp_read. destruct (srtp_ s) as [ses|]; [|by apply wp_skip]. destruct (negb _); [by apply wp_skip|].
  destruct (_ && _); [by apply wp_skip|]. pose proof (c_seq s p (ts90k pts)) as C.
  destruct (packetize_h264 _ _ _ _) as [pkts seq]. eapply (wp_change s0); [done|exact C|]. intros s1 H1' _.
  apply wp_bind. eapply wp_mono; [by apply changes_packets|]. intros all s2 H2.
  apply wp_when; intros _; [apply wp_modify|]; exists s2; auto.
Qed.

(** ** The shape of the state *)

Record well_formed (s : Peer) : Prop := {
  wf_seq : word 16 (seq_ s);
  wf_audio_seq : word 16 (audio_seq_ s);
  wf_audio_ts : word 32 (audio_ts_ s);
  wf_streak : word 32 (fatal_send_streak_ s);
  wf_payload : word 8 (payload_type (rtp_ s)) /\ max_payload (rtp_ s) = 1200%nat;
  wf_sources : word 32 (p_ssrc (rtp_ s)) /\ p_ssrc (rtp_ s) <> 0 /\ word 32 (audio_ssrc_ s) /\ p_ssrc (rtp_ s) <> audio_ssrc_ s;
  wf_audio_in : Z.of_nat (length (audio_in_ s)) <= 8000 /\ Forall sample (audio_in_ s);
}.

Lemma word_fragments fuel p nal ts last : forall off seq, word 16 seq -> word 16 (fragments fuel p nal ts last off seq).2.
Proof.
  induction fuel as [|fuel IH]; intros off seq Hs; [done|]. cbn [fragments]. destruct (_ <? _)%nat; [|done].
  match goal with |- context [fragments fuel p nal ts last ?o ?q] => specialize (IH o q ltac:(by apply word_wrap)); destruct (fragments fuel p nal ts last o q) end.
  done.
Qed.

Lemma word_send_nals p ts last nals : forall i seq, word 16 seq -> word 16 (send_nals p nals ts last i seq).2.
Proof.
  induction nals as [|nal nals IH]; intros i seq Hs; [done|]. cbn [send_nals].
  assert (N : word 16 (send_nal p nal ts (i =? last)%nat seq).2).
  { unfold send_nal. destruct (_ || _); [done|]. destruct (_ <=? _)%nat; [by apply word_wrap|by apply word_fragments]. }
  destruct (send_nal _ _ _ _ _) as [o q]. specialize (IH (S i) q N). by destruct (send_nals _ _ _ _ _ _).
Qed.

Lemma well_formed_change s s' : change s s' -> well_formed s -> well_formed s'.
Proof.
  intros C [A1 A2 A3 A4 A5 A6 A7]. destruct C; split; try done; cbn.
  - by apply word_send_nals.
  - cbn in *. destruct A7. split; [done|by apply Forall_app].
  - by destruct A5.
Qed.

Lemma well_formed_changes s s' : rtc change s s' -> well_formed s -> well_formed s'.
Proof. induction 1 as [|s s1 s2 C _ IH]; [done|]. intros Hw. by apply IH, (well_formed_change s). Qed.

Lemma changes_call op s : exists s1, rtc change s s1 /\ (exec (call op) s = s1 \/ exec (call op) s = s1 <| await_key_ := false |>).
Proof.
  assert (G : forall m : ST Peer unit, wp m (fun _ => rtc change s) s ->
    exists s1, rtc change s s1 /\ (exec m s = s1 \/ exec m s = s1 <| await_key_ := false |>)) by (intros m Hm; exists (exec m s); auto).
  destruct op; cbn [call].
  - apply G, wp_bind. eapply wp_mono; [by apply changes_offer|]. intros ? s1 H1'. by apply wp_skip.
  - apply G, wp_bind. eapply wp_mono; [by apply changes_readable|]. intros ? s1 H1'. by apply wp_skip.
  - by apply G, changes_tick.
  - by apply (changes_au s).
  - by apply G, changes_audio.
  - apply G, wp_bind. unfold take_audio_in. wp_read. destruct (audio_in_ s); [by apply wp_ret, wp_skip|].
    wp_write. apply wp_ret, wp_skip. eapply change_step; [done|by constructor].
  - apply G, wp_bind. unfold take_pli. wp_read. wp_write. apply wp_ret, wp_skip. eapply change_step; [done|constructor].
Qed.

Lemma well_formed_call op s : well_formed s -> well_formed (exec (call op) s).
Proof.
  intros Hw. destruct (changes_call op s) as (s1 & Hc & [-> | ->]); [by apply (well_formed_changes s)|].
  pose proof (well_formed_changes s s1 Hc Hw) as []. by split.
Qed.

Lemma exec_run op ops s : exec (run (op :: ops)) s = exec (run ops) (exec (call op) s).
Proof. unfold exec, run. cbn [for_each]. unfold mbind, st_bind. by destruct (call op s). Qed.

(** C21. The members of a session keep their types.  In any history, whatever arrives:
    sequence numbers, time stamps and counters stay in their widths; the two
    sources are 32-bit words, not zero, and different; the payload type is an
    octet and the budget 1200; the talkback that waits is at most one second of
    16-bit samples. *)
Theorem peer_well_formed (ufrag pwd : text) (r : Z) (sock : bool) (local : option (text * Z)) (d : Dtls) (ops : list Op) :
  well_formed (exec (run ops) (make_peer ufrag pwd r sock local d)).
Proof.
  assert (W : well_formed (make_peer ufrag pwd r sock local d)).
  { unfold make_peer. set (x := if u32 r =? 0 then 0x4d414348 else u32 r).
    assert (Hx : word 32 x /\ x <> 0).
    { unfold x. destruct (Z.eqb_spec (u32 r) 0); [by vm_compute|]. split; [by apply word_wrap|done]. }
    destruct Hx as [Hx Hx0]. assert (Ha : word 32 (Z.lxor x 0x41554449)) by (apply word_lxor; [done|done|by vm_compute]).
    assert (Hne : x <> Z.lxor x 0x41554449).
    { intros E. apply (f_equal (Z.lxor x)) in E. rewrite Z.lxor_nilpotent, <- Z.lxor_assoc, Z.lxor_nilpotent, Z.lxor_0_l in E. done. }
    split; cbn; try done; by apply word_wrap. }
  revert W. generalize (make_peer ufrag pwd r sock local d). induction ops as [|op ops IH]; intros s Hs; [done|].
  rewrite exec_run. by apply IH, well_formed_call.
Qed.

(** ** Video that resumes *)

Definition video_taken (l : list Event) : nat :=
  length (List.filter (fun e => match e with Sent Video _ _ None => true | _ => false end) l).

(** The unit a call puts on the wire, if any: whether it is a key unit, and
    whether the socket took all of its packets. *)
Definition attempt (op : Op) (s : Peer) : list (bool * bool) :=
  match op with
  | SendAu p pts key =>
      if media_ready s && have_peer_ s && negb (await_key_ s && negb key) then
        [(key, (video_taken (log (exec (call op) s))
                =? video_taken (log s) + length (packetize_h264 p (ts90k pts) (seq_ s) (rtp_ s)).1)%nat)]
      else []
  | _ => []
  end.

Fixpoint attempts (ops : list Op) (s : Peer) : list (bool * bool) :=
  match ops with
  | [] => []
  | op :: ops => attempt op s ++ attempts ops (exec (call op) s)
  end.

(** A unit follows one that went out whole, or it is a key unit. *)
Fixpoint resumes (whole : bool) (l : list (bool * bool)) : Prop :=
  match l with
  | [] => True
  | (key, all) :: l => (whole = true \/ key = true) /\ resumes all l
  end.

Lemma await_changes s s' : rtc change s s' -> await_key_ s = true -> await_key_ s' = true.
Proof. induction 1 as [|s s1 s2 C _ IH]; [done|]. intros Hw. apply IH. by destruct C. Qed.

Lemma protect_long pkt s : (12 <= length pkt)%nat -> (protect_rtp pkt s).1 <> None.
Proof. intros Hl. unfold protect_rtp. destruct (Nat.ltb_spec (length pkt) 12); [lia|]. by destruct (slot _ _). Qed.

Lemma send_packets_outcome pkts : forall s, srtp_ s <> None -> Forall (fun p => 12 <= length p)%nat pkts ->
  wp (send_packets pkts) (fun all s' => if all : bool then video_taken (log s') = (video_taken (log s) + length pkts)%nat
                                        else await_key_ s' = true) s.
Proof.
  induction pkts as [|pkt pkts IH]; intros s Hs Hp; [apply wp_ret; cbn [length]; lia|]. apply Forall_cons in Hp as [Hp Hps].
  cbn [send_packets]. wp_read. destruct (srtp_ s) as [ses|] eqn:E; [|done]. apply wp_bind. unfold protect.
  pose proof (protect_long pkt ses Hp) as Hl. destruct (protect_rtp pkt ses) as [[p|] ses']; [|done]. wp_write. apply wp_ret.
  apply wp_bind. unfold send_udp. wp_read. set (s1 := s <| srtp_ := Some ses' |>).
  assert (F : forall (Q : Peer -> Prop) e s2, wp (count_failure e ;; mret false) (fun (all : bool) s' => if all then Q s' else await_key_ s' = true) s2).
  { intros Q e s2. unfold count_failure. by apply wp_bind, wp_bind, wp_modify, wp_modify, wp_ret. }
  destruct (have_peer_ s1); cbn [negb]; [|apply wp_ret, (F (fun s' => video_taken (log s') = _))]. wp_write. apply wp_ret.
  destruct (sendto (log s1) (peer_ s1) p) as [e|] eqn:Es; [apply (F (fun s' => video_taken (log s') = _))|]. wp_write.
  eapply wp_mono; [by apply IH|]. cbn. intros [] s3; [|done]. intros ->. cbn. unfold video_taken. cbn. rewrite ?Es. cbn. lia.
Qed.

Lemma stamp_long p ts seq au : Forall (fun pkt => 12 <= length pkt)%nat (packetize_h264 au ts seq p).1.
Proof.
  assert (F : forall fuel nal last off q, Forall (fun pkt => 12 <= length pkt)%nat (fragments fuel p nal ts last off q).1).
  { induction fuel as [|fuel IH]; intros nal last off q; [constructor|]. cbn [fragments]. destruct (_ <? _)%nat; [|constructor].
    match goal with |- context [fragments fuel p nal ts last ?o ?q] => specialize (IH nal last o q); destruct (fragments fuel p nal ts last o q) end.
    constructor; [|done]. rewrite length_app. change (length (header _ _ _ _)) with 12%nat. lia. }
  unfold packetize_h264. generalize (split au 64). intros nals. generalize (last_sent nals (length nals) (length nals)). intros last.
  enough (G : forall i seq, Forall (fun pkt => 12 <= length pkt)%nat (send_nals p nals ts last i seq).1) by apply G.
  clear seq. induction nals as [|nal nals IH]; intros i seq; [constructor|]. cbn [send_nals].
  assert (N : Forall (fun pkt => 12 <= length pkt)%nat (send_nal p nal ts (i =? last)%nat seq).1).
  { unfold send_nal. destruct (_ || _); [constructor|]. destruct (_ <=? _)%nat; [|apply F]. constructor; [|constructor].
    rewrite length_app. change (length (header _ _ _ _)) with 12%nat. lia. }
  destruct (send_nal _ _ _ _ _) as [o q]. specialize (IH (S i) q). destruct (send_nals _ _ _ _ _ _). apply Forall_app. split; [exact N|exact IH].
Qed.

Lemma attempt_outcome op s whole : (await_key_ s = false -> whole = true) ->
  resumes whole (attempt op s) /\ (await_key_ (exec (call op) s) = false -> match attempt op s with [(_, all)] => all = true | _ => whole = true end).
Proof.
  intros Hw. assert (O : (match op with SendAu _ _ _ => False | _ => True end) -> await_key_ (exec (call op) s) = false -> whole = true).
  { intros Hop Ha. apply Hw. destruct (await_key_ s) eqn:E; [|done]. rewrite <- Ha. symmetry.
    assert (G : forall m : ST Peer unit, keeps m -> await_key_ (exec m s) = true).
    { intros m Hm. apply (await_changes s); [|done]. by apply Hm. }
    destruct op; [| | |done| | |]; cbn [call].
    - apply G. intros s0 s1 H1'. apply wp_bind. eapply wp_mono; [by apply changes_offer|]. intros ? s2 H2. by apply wp_skip.
    - apply G. intros s0 s1 H1'. apply wp_bind. eapply wp_mono; [by apply changes_readable|]. intros ? s2 H2. by apply wp_skip.
    - by apply G, changes_tick.
    - by apply G, changes_audio.
    - apply G. intros s0 s1 H1'. apply wp_bind. unfold take_audio_in. wp_read. destruct (audio_in_ s1); [by apply wp_ret, wp_skip|].
      wp_write. apply wp_ret, wp_skip. eapply change_step; [done|by constructor].
    - apply G. intros s0 s1 H1'. apply wp_bind. unfold take_pli. wp_read. wp_write. apply wp_ret, wp_skip. eapply change_step; [done|constructor]. }
  destruct op as [| | |p pts key| | |]; try (split; [done|by apply O]). clear O. unfold attempt.
  assert (S : wp (send_au p pts key) (fun _ s' =>
    if media_ready s && have_peer_ s && negb (await_key_ s && negb key) then
      await_key_ s' = false -> video_taken (log s') = (video_taken (log s) + length (packetize_h264 p (ts90k pts) (seq_ s) (rtp_ s)).1)%nat
    else s' = s) s).
  { unfold send_au, media_ready. wp_read. destruct (srtp_ s) as [ses|] eqn:E; [|by apply wp_skip]. destruct (have_peer_ s); [|by apply wp_skip].
    cbn [negb andb]. destruct (await_key_ s && negb key); [by apply wp_skip|]. cbn [negb].
    pose proof (stamp_long (rtp_ s) (ts90k pts) (seq_ s) p) as Hl.
    destruct (packetize_h264 _ _ _ _) as [pkts seq]. wp_write. apply wp_bind. eapply wp_mono.
    - apply send_packets_outcome; [cbn; by rewrite E|exact Hl].
    - cbn. intros [] s2; cbn; [intros E2; by apply wp_modify|].
      intros E2. apply wp_skip. rewrite E2. done. }
  unfold wp in S. cbn [call] in *. destruct (media_ready s && have_peer_ s && negb (await_key_ s && negb key)) eqn:Eg.
  - split; [|intros Ha; apply Nat.eqb_eq; by apply S]. cbn. split; [|done]. apply andb_true_iff in Eg as [_ Eg].
    destruct (await_key_ s), key; auto.
  - rewrite S. by split.
Qed.

Lemma resumes_app whole a l : resumes whole a -> (length a <= 1)%nat -> resumes (match a with [(_, all)] => all | _ => whole end) l ->
  resumes whole (a ++ l).
Proof. destruct a as [|[k x] [|]]; cbn; [done|tauto|lia]. Qed.

(** Video resumes with a key unit.  In any history, whatever the socket takes or
    refuses and whatever arrives in between: the first unit of a session is a key
    unit, and after a unit of which any packet was lost so is the next. *)
Theorem video_resumes_at_key (ufrag pwd : text) (r : Z) (sock : bool) (local : option (text * Z)) (d : Dtls) (ops : list Op) :
  resumes false (attempts ops (make_peer ufrag pwd r sock local d)).
Proof.
  enough (G : forall s whole, (await_key_ s = false -> whole = true) -> resumes whole (attempts ops s)) by by apply G.
  induction ops as [|op ops IH]; intros s whole Hw; [done|].
  cbn [attempts]. destruct (attempt_outcome op s whole Hw) as [R1 R2]. apply resumes_app; [done| |].
  - unfold attempt. destruct op; cbn; try lia. destruct (_ && _); cbn; lia.
  - apply IH. intros Ha. specialize (R2 Ha). by destruct (attempt op s) as [|[k x] [|]].
Qed.
End State.
