(* ===== verification/RtpJpeg.v ===== *)
(** * Stills as RTP packets

    [app/rtsp/rtp_jpeg.{hpp,cpp}]: what of a JPEG file RFC 2435 can carry, its payloads,
    and the receiver of that RFC, which puts the picture together again.  A read past the
    end, as the end of the fuel, is [None]. *)

From S2P Require Import Prelude Text Bytes.

Record JpegFrame := { width : Z; height : Z; type : Z; restart_interval : Z; qtables : bytes; scan : bytes }.

(** What the segments said so far. *)
Record Tables := { qt : list (option bytes); comp_q : list Z; samp0 : Z; sof : bool; t_width : Z; t_height : Z; t_restart : Z }.

#[export] Instance Tables_settable : Settable Tables :=
  fun t => Build_Tables (qt t) (comp_q t) (samp0 t) (sof t) (t_width t) (t_height t) (t_restart t).

(** A computation that reads; refused with a reason or done. *)
Abbreviation reading A := (option (string + A)).

Definition slice (p : bytes) (i n : nat) : option bytes := if (i + n <=? length p)%nat then Some (take n (drop i p)) else None.

(** The tables of a DQT segment of [sl] octets at [base]. *)
Fixpoint dqt_loop (fuel : nat) (p : bytes) (base sl k : nat) (q : list (option bytes)) : reading (list (option bytes)) :=
  match fuel with
  | O => None
  | S fuel =>
      if (k <? sl)%nat then
        b ← p !! (base + k)%nat;
        let tq := Z.land b 0x0f in
        if negb (Z.shiftr b 4 =? 0) then Some (inl "16-bit quantisation tables"%string)
        else if (3 <? tq) || (sl <? k + 65)%nat then Some (inl "bad DQT"%string)
        else t ← slice p (base + k + 1) 64; dqt_loop fuel p base sl (k + 65) (<[Z.to_nat tq := Some t]> q)
      else Some (inr q)
  end.

(** Baseline start of frame. *)
Definition read_sof (p : bytes) (s sl : nat) (t : Tables) : reading Tables :=
  if (sl <? 15)%nat then Some (inl "not 8-bit"%string) else
  s0 ← p !! s;
  if negb (s0 =? 8) then Some (inl "not 8-bit"%string) else
  h ← get16 p (s + 1); w ← get16 p (s + 3); comps ← p !! (s + 5)%nat;
  if negb (comps =? 3) then Some (inl "not 3-component YCbCr"%string) else
  samp ← p !! (s + 7)%nat;
  q0 ← p !! (s + 8)%nat; q1 ← p !! (s + 11)%nat; q2 ← p !! (s + 14)%nat;
  if (3 <? q0) || (3 <? q1) || (3 <? q2) then Some (inl "bad quantisation table selector"%string) else
  c1 ← p !! (s + 10)%nat; c2 ← p !! (s + 13)%nat;
  if negb (c1 =? 0x11) || negb (c2 =? 0x11) then Some (inl "unsupported chroma sampling"%string) else
  Some (inr (t <| t_height := h |> <| t_width := w |> <| samp0 := samp |> <| comp_q := [q0; q1; q2] |> <| sof := true |>)).

(** Start of the scan. *)
Definition read_sos (p : bytes) (start : nat) (t : Tables) : reading JpegFrame :=
  let n := length p in
  if negb (sof t) then Some (inl "SOS before SOF"%string) else
  end_ ← (if (start + 2 <=? n)%nat then e0 ← p !! (n - 2)%nat; e1 ← p !! (n - 1)%nat; Some (if (e0 =? 0xff) && (e1 =? 0xd9) then (n - 2)%nat else n) else Some n);
  let scan_len := (end_ - start)%nat in
  if negb (samp0 t =? 0x21) && negb (samp0 t =? 0x22) then Some (inl "unsupported luma sampling"%string) else
  let type := (if samp0 t =? 0x21 then 0 else 1) + (if t_restart t =? 0 then 0 else 64) in
  if (t_width t <=? 0) || (t_height t <=? 0) || (2040 <? t_width t) || (2040 <? t_height t) then Some (inl "over 2040 pixels (RFC 2435 limit)"%string) else
  q0 ← comp_q t !! 0%nat; q1 ← comp_q t !! 1%nat; t0 ← qt t !! Z.to_nat q0; t1 ← qt t !! Z.to_nat q1;
  match t0, t1 with
  | Some t0, Some t1 =>
      if (scan_len =? 0)%nat then Some (inl "empty scan"%string) else
      data ← slice p start scan_len;
      Some (inr {| width := t_width t; height := t_height t; type := type; restart_interval := t_restart t; qtables := t0 ++ t1; scan := data |})
  | _, _ => Some (inl "missing quantisation table"%string)
  end.

Definition not_baseline (m : Z) : bool := (0xc1 <=? m) && (m <=? 0xcf) && negb (m =? 0xc4) && negb (m =? 0xc8) && negb (m =? 0xcc).

(** The markers; each round moves on by at least an octet. *)
Fixpoint marker_loop (fuel : nat) (p : bytes) (i : nat) (t : Tables) : reading JpegFrame :=
  match fuel with
  | O => None
  | S fuel =>
      if negb (i + 4 <=? length p)%nat then Some (inl "no SOS"%string) else
      b ← p !! i;
      if negb (b =? 0xff) then Some (inl "corrupt marker sequence"%string) else
      m ← p !! (i + 1)%nat;
      if m =? 0xff then marker_loop fuel p (i + 1) t else
      len ← get16 p (i + 2);
      let len := Z.to_nat len in
      if (len <? 2)%nat || (length p <? i + 2 + len)%nat then Some (inl "truncated segment"%string) else
      let s := (i + 4)%nat in let sl := (len - 2)%nat in let next := (i + (2 + len))%nat in
      if m =? 0xdb then
        r ← dqt_loop (sl + 1) p s sl 0 (qt t);
        match r with inl why => Some (inl why) | inr q => marker_loop fuel p next (t <| qt := q |>) end
      else if m =? 0xc0 then
        r ← read_sof p s sl t;
        match r with inl why => Some (inl why) | inr t => marker_loop fuel p next t end
      else if not_baseline m then Some (inl "not baseline JPEG"%string)
      else if m =? 0xdd then
        if (sl <? 2)%nat then Some (inl "bad DRI"%string) else r ← get16 p s; marker_loop fuel p next (t <| t_restart := r |>)
      else if m =? 0xda then read_sos p next t
      else marker_loop fuel p next t
  end.

Definition no_tables : Tables := {| qt := [None; None; None; None]; comp_q := [0; 0; 0]; samp0 := 0; sof := false; t_width := 0; t_height := 0; t_restart := 0 |}.

Definition parse_jpeg (p : bytes) : reading JpegFrame :=
  if (length p <? 4)%nat then Some (inl "not a JPEG (no SOI)"%string) else
  a ← p !! 0%nat; b ← p !! 1%nat;
  if negb (a =? 0xff) || negb (b =? 0xd8) then Some (inl "not a JPEG (no SOI)"%string) else
  marker_loop (length p + 1) p 2 no_tables.

(** The headers of the payload at [off]. *)
Definition payload_header (f : JpegFrame) (off : nat) : bytes :=
  [0; u8 (Z.shiftr (Z.of_nat off) 16); u8 (Z.shiftr (Z.of_nat off) 8); u8 (Z.of_nat off); type f; 255; u8 (width f / 8); u8 (height f / 8)]
  ++ (if 64 <=? type f then be16 (restart_interval f) ++ [0xff; 0xff] else [])
  ++ (if (off =? 0)%nat then [0; 0] ++ be16 (Z.of_nat (length (qtables f))) ++ qtables f else []).

Fixpoint payload_loop (fuel : nat) (f : JpegFrame) (mtu off : nat) : list bytes :=
  match fuel with
  | O => []
  | S fuel =>
      let pk := payload_header f off in
      let room := (mtu - length pk)%nat in
      let take_ := Nat.min room (length (scan f) - off) in
      let pk := pk ++ take take_ (drop off (scan f)) in
      if (take_ =? 0)%nat then [pk]
      else if (off + take_ <? length (scan f))%nat then pk :: payload_loop fuel f mtu (off + take_) else [pk]
  end.
Definition jpeg_rtp_payloads (f : JpegFrame) (mtu : nat) : list bytes := payload_loop (length (scan f) + 1) f mtu 0.

Definition kPayloadJpeg : Z := 26.
Definition sdp_jpeg_section : text := txt "m=video 0 RTP/AVP 26" ++ CRLF ++ txt "c=IN IP4 0.0.0.0" ++ CRLF ++ txt "a=rtpmap:26 JPEG/90000" ++ CRLF ++ txt "a=control:trackID=0" ++ CRLF.

(** ** A receiver (RFC 2435) *)

(** What the first payload says of the picture. *)
Record Picture := { p_type : Z; p_width8 : Z; p_height8 : Z; p_restart : Z; p_qtables : bytes }.

(** A payload taken apart: offset, picture (tables only at offset 0), data. *)
Definition take_apart (pk : bytes) : option (nat * Picture * bytes) :=
  match pk with
  | _ :: o2 :: o1 :: o0 :: ty :: q :: w :: h :: rest =>
      let off := Z.to_nat (be_value [o2; o1; o0]) in
      ri ← (if 64 <=? ty then match rest with a :: b :: _ :: _ :: rest => Some (be_value [a; b], rest) | _ => None end else Some (0, rest));
      let '(restart, rest) := ri in
      tb ← (if (off =? 0)%nat && (128 <=? q) then match rest with
             | _ :: _ :: l1 :: l0 :: rest => let len := Z.to_nat (be_value [l1; l0]) in if (len <=? length rest)%nat then Some (take len rest, drop len rest) else None
             | _ => None end else Some ([], rest));
      Some (off, {| p_type := ty; p_width8 := w; p_height8 := h; p_restart := restart; p_qtables := tb.1 |}, tb.2)
  | _ => None
  end.

(** The following payloads, each where the one before ended. *)
Fixpoint join_payloads (have : bytes) (l : list bytes) : option bytes :=
  match l with
  | [] => Some have
  | pk :: l => x ← take_apart pk; if (x.1.1 =? length have)%nat then join_payloads (have ++ x.2) l else None
  end.

Definition receive (l : list bytes) : option (Picture * bytes) :=
  match l with
  | [] => None
  | pk :: l' => x ← take_apart pk; data ← join_payloads [] l; Some (x.1.2, data)
  end.

(** ** Hostile files *)

Definition table_ok (o : option bytes) : Prop := match o with Some l => length l = 64%nat /\ octets l | None => True end.

Record tables_ok (t : Tables) : Prop := {
  k_qt : length (qt t) = 4%nat; k_tables : Forall table_ok (qt t); k_comps : length (comp_q t) = 3%nat; k_sel : Forall (fun q => 0 <= q <= 3) (comp_q t);
  k_restart : word 16 (t_restart t)
}.

(** What RFC 2435 needs of a frame. *)
Record frame_ok (f : JpegFrame) : Prop := {
  k_width : 0 < width f <= 2040; k_height : 0 < height f <= 2040; k_type : type f = (if restart_interval f =? 0 then 0 else 64) \/ type f = (if restart_interval f =? 0 then 1 else 65);
  k_interval : word 16 (restart_interval f); k_two : length (qtables f) = 128%nat; k_octets : octets (qtables f); k_scan : scan f <> []
}.

(** In bounds and done; what is accepted has [P]. *)
Definition reads {A} (P : A -> Prop) (r : reading A) : Prop := exists x, r = Some x /\ match x with inl _ => True | inr a => P a end.

Lemma reads_refused {A} (P : A -> Prop) why : reads P (Some (inl why)).
Proof. by exists (inl why). Qed.

Lemma reads_done {A} (P : A -> Prop) a : P a -> reads P (Some (inr a)).
Proof. by exists (inr a). Qed.

Lemma reads_then {A B} (P : A -> Prop) (Q : B -> Prop) (m : reading A) (k : A -> reading B) : reads P m -> (forall a, P a -> reads Q (k a)) ->
  reads Q (r ← m; match r with inl why => Some (inl why) | inr a => k a end).
Proof. intros (x & -> & Hx) Hk. cbn [mbind option_bind]. destruct x; [by apply reads_refused|by apply Hk]. Qed.

Lemma slice_in p i n : (i + n <= length p)%nat -> slice p i n = Some (take n (drop i p)).
Proof. intros L. unfold slice. apply Nat.leb_le in L. by rewrite L. Qed.

Lemma low_nibble b : octet b -> 0 <= Z.land b 0x0f.
Proof. intros [H _]. apply Z.land_nonneg. by left. Qed.

Section Hostile.
Context (p : bytes) (O : octets p).

Lemma dqt_reads fuel base sl : forall k q, (sl - k < fuel)%nat -> (base + sl <= length p)%nat -> length q = 4%nat -> Forall table_ok q ->
  reads (fun q => length q = 4%nat /\ Forall table_ok q) (dqt_loop fuel p base sl k q).
Proof.
  induction fuel as [|fuel IH]; intros k q Hf Hb Hq Ht; [lia|]. cbn [dqt_loop]. destruct (Nat.ltb_spec k sl); [|by apply reads_done].
  rewrite get_in by lia. cbn [mbind option_bind]. set (b := octet_at p _). pose proof (low_nibble b (octets_at p _ O)) as N. destruct (negb _); [apply reads_refused|].
  destruct ((3 <? Z.land b 0x0f) || (sl <? k + 65)%nat) eqn:E; [apply reads_refused|]. apply orb_false_iff in E as [E1%Z.ltb_ge E2%Nat.ltb_ge].
  rewrite slice_in by lia. cbn [mbind option_bind]. apply IH; [lia|done|by rewrite length_insert|]. apply Forall_insert; [done|]. split; [rewrite length_take, length_drop; lia|].
  by apply octets_take, octets_drop.
Qed.

Lemma sof_reads s sl t : (s + sl <= length p)%nat -> tables_ok t -> reads tables_ok (read_sof p s sl t).
Proof.
  intros Hb [T1 T2 T3 T4 T5]. unfold read_sof. destruct (Nat.ltb_spec sl 15); [apply reads_refused|]. reads_by lia. destruct (negb _); [apply reads_refused|].
  reads_by lia. destruct (negb _); [apply reads_refused|]. reads_by lia.
  destruct ((3 <? octet_at p (s + 8)) || (3 <? octet_at p (s + 11)) || (3 <? octet_at p (s + 14))) eqn:E; [apply reads_refused|].
  reads_by lia. destruct (negb (octet_at p (s + 10) =? 0x11) || _); [apply reads_refused|]. apply reads_done. apply orb_false_iff in E as [[E1%Z.ltb_ge E2%Z.ltb_ge]%orb_false_iff E3%Z.ltb_ge].
  constructor; cbn; try done. repeat constructor; try done; by apply octets_at.
Qed.

Lemma sos_reads start t : (start <= length p)%nat -> (2 <= length p)%nat -> tables_ok t -> reads frame_ok (read_sos p start t).
Proof.
  intros Hs Hp [T1 T2 T3 T4 T5]. unfold read_sos. destruct (negb (sof t)); [apply reads_refused|].
  assert (E : exists e, (e <= length p)%nat /\ (if (start + 2 <=? length p)%nat then e0 ← p !! (length p - 2)%nat; e1 ← p !! (length p - 1)%nat;
     Some (if (e0 =? 0xff) && (e1 =? 0xd9) then (length p - 2)%nat else length p) else Some (length p)) = Some e).
  { destruct (_ <=? _)%nat; [|by exists (length p)]. reads_by lia. eexists. split; [|done]. destruct (_ && _); lia. }
  destruct E as (e & He & ->). cbn [mbind option_bind]. destruct (negb (samp0 t =? 0x21) && _); [apply reads_refused|].
  destruct ((t_width t <=? 0) || (t_height t <=? 0) || (2040 <? t_width t) || (2040 <? t_height t)) eqn:D; [apply reads_refused|].
  apply orb_false_iff in D as [[[D1%Z.leb_gt D2%Z.leb_gt]%orb_false_iff D3%Z.ltb_ge]%orb_false_iff D4%Z.ltb_ge].
  destruct (comp_q t) as [|q0 [|q1 ?]] eqn:C; try done. cbn [lookup list_lookup mbind option_bind]. apply Forall_cons in T4 as [Q0 T4]. apply Forall_cons in T4 as [Q1 _].
  destruct (lookup_lt_is_Some_2 (qt t) (Z.to_nat q0)) as [t0 H0]; [lia|]. destruct (lookup_lt_is_Some_2 (qt t) (Z.to_nat q1)) as [t1 H1]; [lia|]. rewrite H0, H1. cbn [mbind option_bind].
  pose proof (proj1 (Forall_lookup _ _) T2 _ _ H0) as K0. pose proof (proj1 (Forall_lookup _ _) T2 _ _ H1) as K1. destruct t0 as [t0|]; [|apply reads_refused]. destruct t1 as [t1|]; [|apply reads_refused].
  destruct K0 as [L0 O0], K1 as [L1 O1]. destruct (Nat.eqb_spec (e - start) 0); [apply reads_refused|]. rewrite slice_in by lia. cbn [mbind option_bind]. apply reads_done.
  constructor; cbn [width height type restart_interval qtables scan]; try done.
  - destruct (samp0 t =? 0x21), (t_restart t =? 0); auto.
  - rewrite length_app. lia.
  - by apply octets_app.
  - intros N. apply (f_equal length) in N. rewrite length_take, length_drop in N. cbn in N. lia.
Qed.

Lemma markers_read fuel : forall i t, (length p - i < fuel)%nat -> tables_ok t -> reads frame_ok (marker_loop fuel p i t).
Proof.
  induction fuel as [|fuel IH]; intros i t Hf T; [lia|]. cbn [marker_loop]. destruct (Nat.leb_spec (i + 4) (length p)); cbn [negb]; [|apply reads_refused].
  reads_by lia. destruct (negb _); [apply reads_refused|]. reads_by lia. set (m := octet_at p (i + 1)). destruct (m =? 0xff); [apply IH; [lia|done]|]. rewrite (get16_in p (i + 2)) by lia. cbn [mbind option_bind].
  set (len := Z.to_nat _). destruct ((len <? 2)%nat || (length p <? i + 2 + len)%nat) eqn:E; [apply reads_refused|]. apply orb_false_iff in E as [E1%Nat.ltb_ge E2%Nat.ltb_ge].
  cbv zeta. pose proof T as [T1 T2 T3 T4 T5].
  destruct (m =? 0xdb). { eapply reads_then; [apply dqt_reads; [lia|lia|done|done]|]. intros q [Q1 Q2]. apply IH; [lia|]. by constructor. }
  destruct (m =? 0xc0). { eapply reads_then; [apply sof_reads; [lia|done]|]. intros t' T'. apply IH; [lia|done]. }
  destruct (not_baseline m); [apply reads_refused|].
  destruct (m =? 0xdd). { destruct (Nat.ltb_spec (len - 2) 2); [apply reads_refused|]. reads_by lia. apply IH; [lia|]. constructor; try done. by apply rd16_word. }
  destruct (m =? 0xda); [apply sos_reads; [lia|lia|done]|]. apply IH; [lia|done].
Qed.

Lemma parse_reads : reads frame_ok (parse_jpeg p).
Proof.
  unfold parse_jpeg. destruct (Nat.ltb_spec (length p) 4); [apply reads_refused|]. reads_by lia. destruct (_ || _); [apply reads_refused|].
  apply markers_read; [lia|]. constructor; try done; by repeat constructor.
Qed.
End Hostile.

(** ** The picture arrives *)

Definition picture (f : JpegFrame) (tables : bytes) : Picture :=
  {| p_type := type f; p_width8 := width f / 8; p_height8 := height f / 8; p_restart := restart_interval f; p_qtables := tables |}.

Lemma three_octets v : word 24 v -> be_value [u8 (Z.shiftr v 16); u8 (Z.shiftr v 8); u8 v] = v.
Proof. intros W. rewrite <- (be_value_be 3 v W) at 4. cbn [be Z.of_nat Z.mul Pos.mul]. by rewrite Z.shiftr_0_r. Qed.

Lemma two_octets v : word 16 v -> be_value (be16 v) = v.
Proof. intros W. rewrite <- (be_value_be 2 v W) at 2. cbn [be Z.of_nat Z.mul Pos.mul]. by rewrite Z.shiftr_0_r. Qed.

Section Delivery.
Context (f : JpegFrame) (F : frame_ok f).

Lemma type_cases : (64 <=? type f) = negb (restart_interval f =? 0).
Proof. destruct (k_type f F) as [-> | ->]; by destruct (restart_interval f =? 0). Qed.

Lemma eighth n : 0 < n <= 2040 -> u8 (n / 8) = n / 8.
Proof. intros H. apply Z.mod_small. split; [apply Z.div_pos; lia|]. change (2 ^ 8) with 256. pose proof (Z.div_le_upper_bound n 8 255). lia. Qed.

Lemma payload_read off data : word 24 (Z.of_nat off) ->
  take_apart (payload_header f off ++ data) = Some (off, picture f (if (off =? 0)%nat then qtables f else []), data).
Proof.
  intros W. destruct F as [F1 F2 _ F4 F5 _ _]. unfold payload_header, take_apart. cbn [app]. rewrite three_octets, Nat2Z.id, !eighth, type_cases by done. cbv zeta.
  assert (T : forall rest, (if (off =? 0)%nat && (128 <=? 255) then match (if (off =? 0)%nat then [0; 0] ++ be16 (Z.of_nat (length (qtables f))) ++ qtables f else []) ++ rest with
         | _ :: _ :: l1 :: l0 :: rest => let len := Z.to_nat (be_value [l1; l0]) in if (len <=? length rest)%nat then Some (take len rest, drop len rest) else None
         | _ => None end else Some ([], (if (off =? 0)%nat then [0; 0] ++ be16 (Z.of_nat (length (qtables f))) ++ qtables f else []) ++ rest))
       = Some (if (off =? 0)%nat then qtables f else [], rest)).
  { intros rest. destruct (off =? 0)%nat; [|done]. cbn [andb Z.leb]. change (128 <=? 255) with true. cbv iota. rewrite F5. change (be16 (Z.of_nat 128)) with [0; 128]. cbn [app].
    change (Z.to_nat (be_value [0; 128])) with 128%nat. cbv zeta. rewrite <- F5 at 1. rewrite length_app. rewrite (proj2 (Nat.leb_le _ _)) by lia. rewrite <- F5.
    by rewrite take_app_length, drop_app_length. }
  unfold picture. destruct (Z.eqb_spec (restart_interval f) 0) as [E|N]; cbn [negb].
  - cbn [app mbind option_bind]. rewrite T. cbn [mbind option_bind fst snd]. by rewrite E.
  - change (be16 (restart_interval f)) with [u8 (Z.shiftr (restart_interval f) 8); u8 (restart_interval f)]. cbn [app mbind option_bind].
    change (be_value [u8 (Z.shiftr (restart_interval f) 8); u8 (restart_interval f)]) with (be_value (be16 (restart_interval f))). rewrite two_octets by done.
    cbn [app mbind option_bind]. rewrite T. done.
Qed.

Lemma header_length_at off : (length (payload_header f off) <= 144)%nat.
Proof.
  unfold payload_header. rewrite !length_app. destruct (64 <=? type f), (off =? 0)%nat; cbn [length app]; rewrite ?(k_two f F); unfold be16; cbn [length app]; rewrite ?(k_two f F); lia.
Qed.

Lemma payloads_join mtu fuel : forall off, word 24 (Z.of_nat (length (scan f))) -> (145 <= mtu)%nat -> (length (scan f) - off < fuel)%nat -> (off < length (scan f))%nat ->
  join_payloads (take off (scan f)) (payload_loop fuel f mtu off) = Some (scan f) /\ Forall (fun pk => (length pk <= mtu)%nat) (payload_loop fuel f mtu off)
  /\ exists pk l, payload_loop fuel f mtu off = pk :: l /\ exists data, pk = payload_header f off ++ data.
Proof.
  induction fuel as [|fuel IH]; intros off W Hm Hf Ho; [lia|]. cbn [payload_loop]. cbv zeta. pose proof (header_length_at off) as H.
  set (n := Nat.min _ _). assert (Hn : (0 < n)%nat /\ (off + n <= length (scan f))%nat /\ (length (payload_header f off) + n <= mtu)%nat) by (subst n; lia). clearbody n. destruct Hn as (Hn & Hn2 & Hn3).
  rewrite (proj2 (Nat.eqb_neq n 0)) by lia. set (data := take n (drop off (scan f))).
  assert (Ld : length data = n) by (unfold data; rewrite length_take, length_drop; lia).
  assert (L : (length (payload_header f off ++ data) <= mtu)%nat) by (rewrite length_app; lia).
  assert (J : take off (scan f) ++ data = take (off + n) (scan f)). { unfold data. rewrite take_take_drop. done. }
  assert (A : forall l, join_payloads (take off (scan f)) ((payload_header f off ++ data) :: l) = join_payloads (take (off + n) (scan f)) l).
  { intros l. cbn [join_payloads]. rewrite payload_read by (unfold word in *; lia). cbn [mbind option_bind fst snd]. rewrite length_take, Nat.min_l, Nat.eqb_refl by lia. by rewrite J. }
  destruct (Nat.ltb_spec (off + n) (length (scan f))) as [Hl|Hl].
  - destruct (IH (off + n)%nat W Hm ltac:(lia) Hl) as (I1 & I2 & _). rewrite A. split; [done|]. split; [by constructor|]. eexists _, _. split; [done|]. by exists data.
  - rewrite A. cbn [join_payloads]. rewrite take_ge by lia. split; [done|]. split; [by repeat constructor|]. eexists _, _. split; [done|]. by exists data.
Qed.
End Delivery.


(** A picture of 16 by 8, one table for both. *)
Definition small_jpeg : bytes :=
  [0xff; 0xd8; 0xff; 0xdb; 0; 67; 0] ++ repeat 16 64 ++ [0xff; 0xc0; 0; 17; 8; 0; 8; 0; 16; 3; 1; 0x21; 0; 2; 0x11; 0; 3; 0x11; 0]
  ++ [0xff; 0xdd; 0; 4; 0; 5] ++ [0xff; 0xda; 0; 12; 3; 1; 0; 2; 0x11; 3; 0x11; 0; 63; 0] ++ repeat 0x5a 300 ++ [0xff; 0xd9].


(** A picture that is less than a block wide is announced with no width. *)
Definition narrow_jpeg : bytes := <[79%nat := 4]> small_jpeg.
Example narrow_is_no_width : match parse_jpeg narrow_jpeg with Some (inr f) => width f = 4 /\ (p_width8 <$> (fst <$> receive (jpeg_rtp_payloads f 200))) = Some 0 | _ => False end.
Proof. by vm_compute. Qed.
