(* ===== verification/RtspGate.v ===== *)
(** * Who may watch over RTSP

    [app/rtsp/rtsp_auth.{hpp,cpp}].  The account of the system, the stored secrets and MD5
    (of the TLS library) are the class [Accounts]; random octets are arguments. *)

From S2P Require Import Prelude Text Bytes Base64.

Record RtspAuthConfig := { auth_enabled : bool; offer_basic : bool; offer_digest : bool; realm : text; nonce_lifetime_s : Z }.

(** Per connection. *)
Record Ctx := { nonce : text; issued_ms : Z; authed : bool }.

Inductive Verdict := Ok | Missing | Bad | Stale.

#[export] Instance Verdict_eq : EqDecision Verdict.
Proof. solve_decision. Defined.

(** [None] is an empty [std::function]. *)
Class Accounts := {
  check_ : option (text -> text -> bool);
  ha1_ : option (text -> text -> text);
  md5 : text -> bytes;
  unsafe_ : bool
}.

Definition QUOTE : ascii := "034".

(** [%02x] *)
Definition lower_hex (n : Z) : ascii := nth (Z.to_nat n) (txt "0123456789abcdef") "0"%char.
Definition hex_octet (b : Z) : text := [lower_hex (Z.shiftr b 4); lower_hex (Z.land b 15)].
Definition to_hex (l : bytes) : text := flat_map hex_octet l.

Definition starts_ci (p s : text) : bool := (length p <=? length s)%nat && text_eqb (lowercase (take (length p) s)) (lowercase p).

(** [same]: every octet is looked at, whatever came before. *)
Definition same (a b : text) : bool :=
  if negb (Nat.eqb (length a) (length b)) then false
  else foldl Z.lor 0 (zip_with (fun x y => Z.lxor (char_code x) (char_code y)) a b) =? 0.

(** [find_first_of(', \t\r\n')]: the octets before. *)
Definition ends_value (c : ascii) : bool := existsb (Ascii.eqb c) [","; " "; "009"; "013"; "010"]%char.
Fixpoint unquoted (s : text) : text := match s with [] => [] | c :: s => if ends_value c then [] else c :: unquoted s end.

(** The value behind [name=]. *)
Definition value_at (s : text) : text :=
  match s with
  | c :: s' => if Ascii.eqb c QUOTE then match index_of QUOTE s' with None => [] | Some e => take e s' end else unquoted s
  | [] => []
  end.

Definition is_boundary (c : ascii) : bool := Ascii.eqb c "," || Ascii.eqb c " ".

Fixpoint param_loop (fuel : nat) (header key : text) (at_ : nat) : text :=
  match fuel with
  | O => []
  | S fuel =>
      match find_from key header at_ with
      | None => []
      | Some p =>
          let boundary := match p with O => true | S q => is_boundary (nth q header "000"%char) end in
          let at_ := (p + length key)%nat in
          if boundary : bool then value_at (drop at_ header) else param_loop fuel header key at_
      end
  end.
Definition auth_param (header : text) (name : string) : text := param_loop (length header + 1) header (txt name ++ txt "=") 0.

Section Auth.
Context `{Accounts} (cfg_ : RtspAuthConfig).

Definition md5_hex (s : text) : text := to_hex (md5 s).

Definition colon : text := txt ":".

Definition ha1_hex (user realm password : text) : text := md5_hex (user ++ colon ++ realm ++ colon ++ password).

(** The response to a challenge, from the secret. *)
Definition response_from (ha1 nonce method uri nc cnonce qop : text) : text :=
  let ha2 := md5_hex (method ++ colon ++ uri) in
  match qop with
  | [] => md5_hex (ha1 ++ colon ++ nonce ++ colon ++ ha2)
  | _ => md5_hex (ha1 ++ colon ++ nonce ++ colon ++ nc ++ colon ++ cnonce ++ colon ++ qop ++ colon ++ ha2)
  end.

Definition digest_response (user pass realm nonce method uri nc cnonce qop : text) : text :=
  response_from (ha1_hex user realm pass) nonce method uri nc cnonce qop.

Definition digest_usable : bool := offer_digest cfg_ && match ha1_ with Some _ => true | None => false end.

Definition required (claimed : bool) : bool :=
  if unsafe_ then false
  else if negb claimed then true
  else auth_enabled cfg_ && (digest_usable || offer_basic cfg_).

(** [new_nonce]: [None] where there is no randomness. *)
Definition new_nonce (random : option bytes) : text := match random with Some l => to_hex l | None => [] end.

Definition in_quotes (s : text) : text := QUOTE :: s ++ [QUOTE].

Definition challenge (ctx : Ctx) (random : option bytes) (now_ms : Z) (stale : bool) : Ctx * text :=
  let ctx := {| nonce := new_nonce random; issued_ms := now_ms; authed := authed ctx |} in
  let digest := if digest_usable then txt "Digest realm=" ++ in_quotes (realm cfg_) ++ txt ", nonce=" ++ in_quotes (nonce ctx) ++ txt ", qop=" ++ in_quotes (txt "auth")
                  ++ (if stale then txt ", stale=true" else []) else [] in
  let out := if offer_basic cfg_ then digest ++ (match digest with [] => [] | _ => [NL] end) ++ txt "Basic realm=" ++ in_quotes (realm cfg_) else digest in
  (ctx, out).

Definition allow (ctx : Ctx) : Ctx := {| nonce := nonce ctx; issued_ms := issued_ms ctx; authed := true |}.

Definition check_basic (f : text -> text -> bool) (ctx : Ctx) (authz : text) : Ctx * Verdict :=
  match RtspAuth.b64_decode (drop 6 authz) with
  | None => (ctx, Bad)
  | Some dec =>
      let dec := map chr dec in
      match index_of ":" dec with
      | None => (ctx, Bad)
      | Some c => if f (take c dec) (drop (c + 1) dec) then (allow ctx, Ok) else (ctx, Bad)
      end
  end.

Definition no_text (s : text) : bool := match s with [] => true | _ => false end.

Definition check_digest (h : text -> text -> text) (ctx : Ctx) (method uri authz : text) (now_ms : Z) : Ctx * Verdict :=
  let user := auth_param authz "username" in
  let n := auth_param authz "nonce" in
  let resp := auth_param authz "response" in
  let uri_p := auth_param authz "uri" in
  let qop := auth_param authz "qop" in
  let nc := auth_param authz "nc" in
  let cn := auth_param authz "cnonce" in
  if no_text user || no_text n || no_text resp then (ctx, Bad)
  else if no_text (nonce ctx) || negb (text_eqb n (nonce ctx)) then (ctx, Stale)
  else if (0 <? nonce_lifetime_s cfg_) && (nonce_lifetime_s cfg_ * 1000 <? now_ms - issued_ms ctx) then (ctx, Stale)
  else
    let ha1 := h user (realm cfg_) in
    if no_text ha1 then (ctx, Bad) else
    if same (response_from ha1 n method (if no_text uri_p then uri else uri_p) nc cn qop) resp then (allow ctx, Ok) else (ctx, Bad).

Definition check (claimed : bool) (ctx : Ctx) (method uri authz : text) (now_ms : Z) : Ctx * Verdict :=
  if negb (required claimed) then (ctx, Ok)
  else if negb claimed then (ctx, Bad)
  else if no_text authz then (ctx, Missing)
  else match check_ with
  | None => (ctx, Bad)
  | Some f =>
      if offer_basic cfg_ && starts_ci (txt "Basic ") authz then check_basic f ctx authz
      else match ha1_ with
      | Some h => if offer_digest cfg_ && starts_ci (txt "Digest ") authz then check_digest h ctx method uri authz now_ms else (ctx, Bad)
      | None => (ctx, Bad)
      end
  end.
End Auth.

(** ** The comparison *)

Lemma char_code_inj a b : char_code a = char_code b -> a = b.
Proof. unfold char_code. intros E%Nat2Z.inj. by rewrite <- (ascii_nat_embedding a), <- (ascii_nat_embedding b), E. Qed.

Lemma lor_zero l : forall d, foldl Z.lor d l = 0 <-> d = 0 /\ Forall (fun x => x = 0) l.
Proof.
  induction l as [|x l IH]; intros d; cbn [foldl]; [by split; [|intros []]|]. rewrite IH, Z.lor_eq_0_iff, Forall_cons. tauto.
Qed.

Lemma xors_zero a : forall b, length a = length b -> Forall (fun x => x = 0) (zip_with (fun x y => Z.lxor (char_code x) (char_code y)) a b) <-> a = b.
Proof.
  induction a as [|x a IH]; intros [|y b] E; cbn in E; try done. cbn [zip_with]. rewrite Forall_cons, IH by lia. split.
  - intros [->%Z.lxor_eq%char_code_inj ->]. done.
  - intros [= -> ->]. by rewrite Z.lxor_nilpotent.
Qed.

(** The comparison that looks at every octet is equality. *)
Lemma same_spec a b : same a b = true <-> a = b.
Proof.
  unfold same. destruct (Nat.eqb_spec (length a) (length b)) as [E|N]; cbn [negb].
  - rewrite Z.eqb_eq, lor_zero, xors_zero by done. tauto.
  - split; [done|]. by intros ->.
Qed.

(** ** Reading a field of the header *)

(** The first place behind a comma or a blank where [key] stands. *)
Fixpoint first_param (key : text) (b : bool) (s : text) : text :=
  match s with
  | [] => []
  | c :: s' => if b && has_prefix key s then value_at (drop (length key) s) else first_param key (is_boundary c) s'
  end.

Definition edge (b : bool) (a : text) : bool := match last a with Some c => is_boundary c | None => b end.

Lemma edge_cons b c a : edge b (c :: a) = edge (is_boundary c) a.
Proof. destruct a as [|x a]; [done|]. unfold edge. change (last (c :: x :: a)) with (last (x :: a)). destruct (last (x :: a)) eqn:E; [done|]. by apply last_None in E. Qed.

Lemma first_param_skip key a : forall b s, (forall j, (j < length a)%nat -> has_prefix key (drop j (a ++ s)) = false) ->
  first_param key b (a ++ s) = first_param key (edge b a) s.
Proof.
  induction a as [|c a IH]; intros b s Hn; [done|]. pose proof (Hn 0%nat ltac:(cbn; lia)) as H0. change (has_prefix key (c :: a ++ s) = false) in H0. cbn [first_param app]. rewrite H0, andb_false_r, edge_cons. apply IH.
  intros j Hj. apply (Hn (S j)). cbn. lia.
Qed.

Definition clean (s : text) : bool := forallb (fun c => negb (is_boundary c)) s.

Lemma first_param_inside key a : forall s, clean a = true -> first_param key false (a ++ s) = first_param key false s.
Proof.
  induction a as [|c a IH]; intros s Hc; [done|]. cbn [clean forallb] in Hc. apply andb_true_iff in Hc as [H1%negb_true_iff H2]. cbn [first_param app andb]. rewrite H1. by apply IH.
Qed.

Lemma first_param_none key s : forall b, key <> [] -> (forall j, (j <= length s)%nat -> has_prefix key (drop j s) = false) -> first_param key b s = [].
Proof.
  induction s as [|c s IH]; intros b Hk Hn; [done|]. pose proof (Hn 0%nat ltac:(lia)) as H0. change (has_prefix key (c :: s) = false) in H0. cbn [first_param]. rewrite H0, andb_false_r. apply IH; [done|].
  intros j Hj. apply (Hn (S j)). cbn. lia.
Qed.

Lemma param_loop_first key header fuel : forall at_, key <> [] -> clean key = true -> (at_ <= length header)%nat -> (length header - at_ < fuel)%nat ->
  param_loop fuel header key at_ = first_param key (match at_ with O => true | S q => is_boundary (nth q header "000"%char) end) (drop at_ header).
Proof.
  induction fuel as [|fuel IH]; intros at_ Hk Hc Ha Hf; [lia|]. cbn [param_loop]. unfold find_from.
  destruct (find_text key (drop at_ header)) as [i|] eqn:F; cbn [fmap option_fmap option_map].
  - apply find_text_some in F as (P & L & B). apply has_prefix_spec in P as [r P]. rewrite length_drop in L.
    assert (E : drop at_ header = take i (drop at_ header) ++ drop i (drop at_ header)) by (by rewrite take_drop).
    assert (Li : length (take i (drop at_ header)) = i) by (rewrite length_take, length_drop; lia).
    rewrite E at 1. rewrite first_param_skip.
    2: { rewrite Li, <- E. intros j Hj. by apply B. }
    set (b := edge _ _). assert (Eb : b = match (at_ + i)%nat with O => true | S q => is_boundary (nth q header "000"%char) end).
    { subst b. unfold edge. destruct i as [|i].
      - cbn [take last]. rewrite Nat.add_0_r. done.
      - rewrite last_lookup, Li. cbn [pred]. rewrite lookup_take_lt, lookup_drop by lia. replace (at_ + S i)%nat with (S (at_ + i)) by lia.
        destruct (lookup_lt_is_Some_2 header (at_ + i)) as [c Hl]; [lia|]. rewrite Hl. f_equal. symmetry. by apply nth_lookup_Some. }
    rewrite <- Eb. rewrite P. destruct b.
    + destruct key as [|k ks]; [done|]. cbn [app first_param andb]. rewrite (has_prefix_app (k :: ks) r : has_prefix (k :: ks) (k :: ks ++ r) = true).
      f_equal. rewrite <- drop_drop, <- drop_drop, P. f_equal.
    + rewrite first_param_inside by done. rewrite IH; [|done|done| |].
      * replace (drop (at_ + i + length key) header) with r. 2: { rewrite <- !drop_drop, P. by rewrite drop_app_length. }
        f_equal. destruct (exists_last Hk) as (ks & k & ->). rewrite length_app. cbn [length]. replace (at_ + i + (length ks + 1))%nat with (S (at_ + i + length ks)) by lia.
        assert (N : nth (at_ + i + length ks) header "000"%char = k).
        { apply nth_lookup_Some. rewrite <- lookup_drop, <- drop_drop, P, <- app_assoc. by rewrite lookup_app_r, Nat.sub_diag by lia. }
        rewrite N. unfold clean in Hc. rewrite forallb_app in Hc. apply andb_true_iff in Hc as [_ Hc]. cbn in Hc. by destruct (is_boundary k).
      * apply (f_equal length) in P. rewrite !length_drop, length_app in P. lia.
      * apply (f_equal length) in P. rewrite !length_drop, length_app in P. destruct key; [done|]. cbn [length] in *. lia.
  - symmetry. apply first_param_none; [done|]. by apply find_text_none.
Qed.

Lemma auth_param_first header name : txt name <> [] -> clean (txt name) = true -> auth_param header name = first_param (txt name ++ txt "=") true header.
Proof.
  intros Hn Hc. unfold auth_param. rewrite param_loop_first; [done| | |lia|lia].
  - by destruct (txt name).
  - unfold clean in *. rewrite forallb_app, Hc. done.
Qed.

(** ** Fields in a row *)

(** A field of a header: name, value, in quotes or not. *)
Record Field := { f_name : string; f_value : text; f_quoted : bool }.

Definition write_field (f : Field) : text := txt (f_name f) ++ txt "=" ++ (if f_quoted f then in_quotes (f_value f) else f_value f).

Fixpoint write_fields (l : list Field) : text :=
  match l with
  | [] => []
  | [f] => write_field f
  | f :: l => write_field f ++ txt ", " ++ write_fields l
  end.

(** Text that cannot be taken for anything else. *)
Definition token (s : text) : bool := forallb (fun c => negb (ends_value c) && negb (Ascii.eqb c QUOTE)) s.

Definition field_ok (f : Field) : Prop := txt (f_name f) <> [] /\ token (txt (f_name f)) = true /\ ("="%char ∉ txt (f_name f)) /\ token (f_value f) = true.

Lemma token_clean s : token s = true -> clean s = true.
Proof.
  unfold token, clean. rewrite !forallb_forall. intros Ht c Hc. apply Ht in Hc. apply andb_true_iff in Hc as [Hc _]. unfold ends_value in Hc. cbn [existsb] in Hc.
  unfold is_boundary. by destruct (Ascii.eqb c ","), (Ascii.eqb c " ").
Qed.

Lemma token_quote s : token s = true -> QUOTE ∉ s.
Proof.
  unfold token. rewrite forallb_forall. intros Ht Hq. apply list_elem_of_In, Ht in Hq. rewrite Ascii.eqb_refl in Hq. by destruct (ends_value QUOTE).
Qed.

Lemma unquoted_token v rest : token v = true -> (rest = [] \/ exists r, rest = ","%char :: r) -> unquoted (v ++ rest) = v.
Proof.
  intros Ht Hr. induction v as [|c v IH]; cbn [app unquoted].
  - destruct Hr as [->|[r ->]]; done.
  - cbn [token forallb] in Ht. apply andb_true_iff in Ht as [Hc Ht]. apply andb_true_iff in Hc as [Hc%negb_true_iff _]. rewrite Hc. f_equal. by apply IH.
Qed.

Lemma value_read f rest : token (f_value f) = true -> (f_quoted f = false -> rest = [] \/ exists r, rest = ","%char :: r) ->
  value_at ((if f_quoted f then in_quotes (f_value f) else f_value f) ++ rest) = f_value f.
Proof.
  intros Ht Hr. destruct (f_quoted f).
  - unfold in_quotes, value_at. cbn [app]. rewrite Ascii.eqb_refl, <- app_assoc. cbn [app]. rewrite index_of_app by (by apply token_quote). by rewrite take_app_length.
  - pose proof (unquoted_token (f_value f) rest Ht (Hr eq_refl)) as U. unfold value_at. destruct (f_value f ++ rest) as [|c s] eqn:E.
    + by destruct (f_value f).
    + destruct (Ascii.eqb_spec c QUOTE) as [->|]; [|exact U]. exfalso. destruct (f_value f) as [|d v]; cbn [app] in E.
      * destruct (Hr eq_refl) as [->|[r ->]]; done.
      * injection E as -> _. cbn [token forallb] in Ht. rewrite Ascii.eqb_refl in Ht. by destruct (ends_value QUOTE).
Qed.

(** A key stands at the front of a field exactly when it is its name. *)
Lemma key_here k f rest : ("="%char ∉ txt k) -> ("="%char ∉ txt (f_name f)) ->
  has_prefix (txt k ++ txt "=") (write_field f ++ rest) = text_eqb (txt k) (txt (f_name f)).
Proof.
  intros Hk Hf. unfold write_field. rewrite <- !app_assoc. destruct (text_eqb_spec (txt k) (txt (f_name f))) as [->|N].
  - rewrite !app_assoc. rewrite <- app_assoc. apply has_prefix_app.
  - apply not_true_iff_false. rewrite has_prefix_spec. intros [r E]. apply N. rewrite <- app_assoc in E.
    apply (f_equal (index_of "=")) in E as I. change (txt "=") with ["="%char] in *. cbn [app] in I, E. rewrite !index_of_app in I by done. injection I as I.
    apply (f_equal (take (length (txt (f_name f))))) in E. rewrite take_app_length in E. rewrite I in E. by rewrite take_app_length in E.
Qed.

Lemma first_param_field k f rest b : ("="%char ∉ txt k) -> txt k <> [] -> field_ok f -> (f_quoted f = false -> rest = [] \/ exists r, rest = ","%char :: r) ->
  first_param (txt k ++ txt "=") b (write_field f ++ rest) = if b && text_eqb (txt k) (txt (f_name f)) then f_value f else first_param (txt k ++ txt "=") false rest.
Proof.
  intros Hk Hk0 (Hn & Hnt & Hne & Hvt) Hr. pose proof (key_here k f rest Hk Hne) as P.
  assert (C : clean (write_field f) = true).
  { unfold write_field, clean. rewrite !forallb_app. rewrite (token_clean _ Hnt : forallb _ _ = true). destruct (f_quoted f); cbn [andb forallb txt String.list_ascii_of_string].
    - unfold in_quotes. cbn [forallb]. rewrite forallb_app, (token_clean _ Hvt : forallb _ _ = true). done.
    - by rewrite (token_clean _ Hvt : forallb _ _ = true). }
  destruct (write_field f) as [|c s] eqn:W. { unfold write_field in W. by destruct (txt (f_name f)). }
  cbn [app first_param] in *. rewrite P. destruct (b && text_eqb (txt k) (txt (f_name f))) eqn:E.
  - apply andb_true_iff in E as [_ E]. destruct (text_eqb_spec (txt k) (txt (f_name f))) as [->|]; [|done].
    change (c :: s ++ rest) with ((c :: s) ++ rest). rewrite <- W. unfold write_field. rewrite <- !app_assoc, app_assoc, drop_app_length. by apply value_read.
  - cbn [clean forallb] in C. apply andb_true_iff in C as [C1%negb_true_iff C2]. rewrite C1. by apply first_param_inside.
Qed.

Fixpoint field_value (k : string) (l : list Field) : text :=
  match l with [] => [] | f :: l => if text_eqb (txt k) (txt (f_name f)) then f_value f else field_value k l end.

(** What was written is read back, whatever follows. *)
Lemma fields_read k l rest : ("="%char ∉ txt k) -> clean (txt k) = true -> txt k <> [] -> Forall field_ok l -> (rest = [] \/ (exists r, rest = ","%char :: r) \/ Forall (fun f => f_quoted f = true) l) ->
  (rest = [] \/ existsb (fun f => text_eqb (txt k) (txt (f_name f))) l = true) ->
  first_param (txt k ++ txt "=") true (write_fields l ++ rest) = field_value k l.
Proof.
  intros Hk Hkc Hk0 Hl. induction Hl as [|f l Hf Hl IH]; intros Hr Hin.
  - destruct Hin as [->|]; done.
  - cbn [write_fields field_value existsb] in *.
    assert (Sep : forall s, first_param (txt k ++ txt "=") false (txt ", " ++ s) = first_param (txt k ++ txt "=") true s).
    { intros s. change (txt ", " ++ s) with (","%char :: " "%char :: s). cbn [first_param andb]. change (is_boundary ",") with true. cbn [andb].
      assert (N : has_prefix (txt k ++ txt "=") (" "%char :: s) = false).
      { destruct (txt k) as [|c t] eqn:K; [done|]. cbn [app]. rewrite has_prefix_cons. cbn [clean forallb] in Hkc. apply andb_true_iff in Hkc as [Hkc _].
        destruct (Ascii.eqb_spec " " c) as [<-|]; done. }
      by rewrite N. }
    destruct l as [|g l].
    + rewrite first_param_field; [|done|done|done|]. 2: { intros Hq. destruct Hr as [?|[?|Hr]]; auto. apply Forall_inv in Hr. by rewrite Hq in Hr. }
      cbn [andb field_value]. destruct (text_eqb (txt k) (txt (f_name f))); [done|]. destruct Hin as [->|]; done.
    + rewrite <- !app_assoc. rewrite first_param_field; [|done|done|done|intros _; right; by eexists]. cbn [andb]. destruct (text_eqb (txt k) (txt (f_name f))); [done|].
      rewrite Sep. apply IH; [|done]. destruct Hr as [?|[?|Hr]]; auto. right. right. by apply Forall_inv_tail in Hr.
Qed.

(** ** Who is let in *)

Lemma index_of_split c s : forall i, index_of c s = Some i -> s = take i s ++ c :: drop (i + 1) s.
Proof.
  induction s as [|x s IH]; intros i Hi; [done|]. cbn [index_of] in Hi. destruct (Ascii.eqb_spec x c) as [->|N]; [by injection Hi as <-|].
  destruct (index_of c s) as [j|]; [|done]. injection Hi as <-. cbn [take drop app Nat.add]. f_equal. by apply IH.
Qed.

Section Gate.
Context `{Accounts} (cfg : RtspAuthConfig).

(** An account of the system, in the clear. *)
Definition names_account (f : text -> text -> bool) (authz : text) : Prop :=
  starts_ci (txt "Basic ") authz = true
  /\ exists l user pass, RtspAuth.b64_decode (drop 6 authz) = Some l /\ map chr l = user ++ ":"%char :: pass /\ (":"%char ∉ user) /\ f user pass = true.

(** An answer to the challenge of this connection, made with the stored secret. *)
Definition answers_challenge (h : text -> text -> text) (ctx : Ctx) (method uri authz : text) (now_ms : Z) : Prop :=
  let user := auth_param authz "username" in
  let uri_p := auth_param authz "uri" in
  starts_ci (txt "Digest ") authz = true
  /\ user <> [] /\ nonce ctx <> [] /\ auth_param authz "nonce" = nonce ctx
  /\ (0 < nonce_lifetime_s cfg -> now_ms - issued_ms ctx <= nonce_lifetime_s cfg * 1000)
  /\ h user (realm cfg) <> [] /\ auth_param authz "response" <> []
  /\ auth_param authz "response" = response_from (h user (realm cfg)) (nonce ctx) method (if no_text uri_p then uri else uri_p)
       (auth_param authz "nc") (auth_param authz "cnonce") (auth_param authz "qop").

Lemma is_empty_spec s : no_text s = true <-> s = [].
Proof. by destruct s. Qed.

Lemma is_empty_false s : no_text s = false <-> s <> [].
Proof. by destruct s. Qed.

Lemma check_basic_ok f ctx authz : (check_basic f ctx authz).2 = Ok <->
  exists l user pass, RtspAuth.b64_decode (drop 6 authz) = Some l /\ map chr l = user ++ ":"%char :: pass /\ (":"%char ∉ user) /\ f user pass = true.
Proof.
  unfold check_basic. destruct (RtspAuth.b64_decode (drop 6 authz)) as [l|]; [|split; [done|intros (l & u & p & ? & _); done]].
  destruct (index_of ":" (map chr l)) as [c|] eqn:I.
  - pose proof (take_index _ _ _ I) as N. pose proof (index_of_some _ _ _ I) as L.
    assert (E : map chr l = take c (map chr l) ++ ":"%char :: drop (c + 1) (map chr l)).
    { by apply index_of_split. }
    destruct (f _ _) eqn:F; cbn [snd].
    + split; [|done]. intros _. exists l, (take c (map chr l)), (drop (c + 1) (map chr l)). done.
    + split; [done|]. intros (l' & user & pass & [= <-] & E2 & Hu & Hf). rewrite E2, index_of_app in I by done. injection I as <-.
      rewrite E2, take_app_length in F. replace (length user + 1)%nat with (length (user ++ [":"%char])) in F by (rewrite length_app; cbn; lia).
      rewrite (app_assoc user [":"%char] pass : user ++ ":"%char :: pass = _), drop_app_length in F. congruence.
  - split; [done|]. intros (l' & user & pass & [= <-] & E2 & Hu & Hf). by rewrite E2, index_of_app in I.
Qed.

Lemma check_digest_ok h ctx method uri authz now_ms : starts_ci (txt "Digest ") authz = true ->
  (check_digest cfg h ctx method uri authz now_ms).2 = Ok <-> answers_challenge h ctx method uri authz now_ms.
Proof.
  intros Hd. unfold check_digest, answers_challenge. cbv zeta. set (user := auth_param authz "username"). set (n := auth_param authz "nonce"). set (resp := auth_param authz "response").
  set (uri_p := auth_param authz "uri"). split.
  - intros Hc. destruct (no_text user) eqn:Eu; [done|]. destruct (no_text n) eqn:En; [done|]. destruct (no_text resp) eqn:Er; [done|]. cbn [orb] in Hc.
    destruct (no_text (nonce ctx)) eqn:Ec; [done|]. cbn [orb] in Hc. destruct (text_eqb_spec n (nonce ctx)) as [E|]; [|done]. cbn [negb] in Hc.
    destruct ((0 <? nonce_lifetime_s cfg) && _) eqn:El; [done|]. destruct (no_text (h user (realm cfg))) eqn:Eh; [done|]. destruct (same _ _) eqn:Es; [|done].
    apply same_spec in Es. apply is_empty_false in Eu, En, Er, Ec, Eh. rewrite <- E at 3.
    do 4 (split; [done|]). split; [intros L; apply andb_false_iff in El as [El%Z.ltb_ge|El%Z.ltb_ge]; lia|]. by repeat split.
  - intros (_ & Hu & Hn & En & Hl & Hh & Hr & Er). apply is_empty_false in Hu, Hh, Hr. rewrite Hu, Hr, En. pose proof Hn as Hn'. apply is_empty_false in Hn'. rewrite Hn'. cbn [orb].
    destruct (text_eqb_spec (nonce ctx) (nonce ctx)); [|done]. cbn [negb].
    destruct ((0 <? nonce_lifetime_s cfg) && _) eqn:El. { apply andb_true_iff in El as [L%Z.ltb_lt G%Z.ltb_lt]. specialize (Hl L). lia. }
    rewrite Hh, (proj2 (same_spec _ _) (eq_sym Er)). done.
Qed.

End Gate.

(** ** A client that knows the password *)

Lemma first_param_scheme key scheme s : (match key with [] => False | k :: _ => k ∉ scheme end) -> last scheme = Some " "%char ->
  first_param key true (scheme ++ s) = first_param key true s.
Proof.
  intros Hk Hl. rewrite first_param_skip; [unfold edge; by rewrite Hl|]. intros j Hj. destruct key as [|k key]; [done|].
  destruct (lookup_lt_is_Some_2 scheme j Hj) as [c Hc]. rewrite (drop_S (scheme ++ s) c j) by (rewrite lookup_app_l by done; exact Hc). rewrite has_prefix_cons.
  destruct (Ascii.eqb_spec c k) as [->|]; [|done]. destruct Hk. by eapply list_elem_of_lookup_2.
Qed.

Lemma hex_char_token n : negb (ends_value (lower_hex n)) && negb (Ascii.eqb (lower_hex n) QUOTE) = true.
Proof.
  unfold lower_hex. destruct (decide (Z.to_nat n < 16)%nat) as [L|L].
  - revert L. generalize (Z.to_nat n). intros m L. do 16 (destruct m as [|m]; [done|]). lia.
  - rewrite nth_overflow; [done|]. change (length _) with 16%nat. lia.
Qed.

Lemma token_app a b : token (a ++ b) = token a && token b.
Proof. apply forallb_app. Qed.

Lemma hex_token l : token (to_hex l) = true.
Proof.
  induction l as [|b l IH]; [done|]. unfold to_hex. cbn [flat_map]. rewrite token_app. change (flat_map hex_octet l) with (to_hex l). rewrite IH.
  unfold hex_octet, token. cbn [forallb]. by rewrite !hex_char_token.
Qed.

Lemma hex_nonempty l : l <> [] -> to_hex l <> [].
Proof. by destruct l. Qed.

(** The answer of a client (RFC 7616). *)
Definition client_header (user realm nonce uri response nc cnonce : text) : text :=
  txt "Digest " ++ write_fields
    [ {| f_name := "username"; f_value := user; f_quoted := true |}; {| f_name := "realm"; f_value := realm; f_quoted := true |};
      {| f_name := "nonce"; f_value := nonce; f_quoted := true |}; {| f_name := "uri"; f_value := uri; f_quoted := true |};
      {| f_name := "response"; f_value := response; f_quoted := true |}; {| f_name := "qop"; f_value := txt "auth"; f_quoted := false |};
      {| f_name := "nc"; f_value := nc; f_quoted := false |}; {| f_name := "cnonce"; f_value := cnonce; f_quoted := true |} ].

Section Client.
Context `{Accounts} (cfg : RtspAuthConfig).

Definition good_name (k : string) : Prop :=
  ("="%char ∉ txt k) /\ clean (txt k) = true /\ match txt k with [] => False | c :: _ => c ∉ txt "Digest " end.

Lemma param_of k l rest : good_name k -> Forall field_ok l -> (rest = [] \/ (exists r, rest = ","%char :: r) \/ Forall (fun f => f_quoted f = true) l) ->
  (rest = [] \/ existsb (fun f => text_eqb (txt k) (txt (f_name f))) l = true) ->
  auth_param (txt "Digest " ++ write_fields l ++ rest) k = field_value k l.
Proof.
  intros (Hk & Hc & Hd) Hl Hr Hin. assert (Hk0 : txt k <> []) by (by destruct (txt k)). rewrite auth_param_first by done.
  rewrite first_param_scheme; [|by destruct (txt k)|done]. by apply fields_read.
Qed.

Lemma good_names k : In k ["username"; "realm"; "nonce"; "uri"; "response"; "qop"; "nc"; "cnonce"]%string -> good_name k.
Proof. intros Hk. repeat (destruct Hk as [<-|Hk]; [split; [by apply (bool_decide_unpack _)|split; [done|by apply (bool_decide_unpack _)]]|]). done. Qed.

Lemma named_field k v q : good_name k -> token (txt k) = true -> token v = true -> field_ok {| f_name := k; f_value := v; f_quoted := q |}.
Proof. intros (Hk & _ & Hd) Ht Hv. unfold field_ok. cbn [f_name f_value]. split; [by destruct (txt k)|]. auto. Qed.

Lemma challenge_read ctx random now0 stale (r := challenge cfg ctx random now0 stale) : digest_usable cfg = true -> token (realm cfg) = true ->
  auth_param r.2 "realm" = realm cfg /\ auth_param r.2 "nonce" = new_nonce random.
Proof.
  intros Hd Hr. subst r. unfold challenge. rewrite Hd. cbn [nonce snd].
  assert (Hn : token (new_nonce random) = true) by (destruct random; [apply hex_token|done]).
  set (l := [ {| f_name := "realm"; f_value := realm cfg; f_quoted := true |}; {| f_name := "nonce"; f_value := new_nonce random; f_quoted := true |};
              {| f_name := "qop"; f_value := txt "auth"; f_quoted := true |} ]).
  assert (Hl : Forall field_ok l) by (repeat constructor; (apply named_field; [apply good_names; cbn; tauto|done|done])).
  assert (Hq : Forall (fun f => f_quoted f = true) l) by repeat constructor.
  assert (E : forall rest, txt "Digest realm=" ++ in_quotes (realm cfg) ++ txt ", nonce=" ++ in_quotes (new_nonce random) ++ txt ", qop=" ++ in_quotes (txt "auth") ++ rest
    = txt "Digest " ++ write_fields l ++ rest).
  { intros rest. unfold l. cbn [write_fields write_field f_name f_value f_quoted]. rewrite <- !app_assoc. reflexivity. }
  rewrite E. set (st := if stale then _ else _).
  assert (S : exists rest, (if offer_basic cfg then (txt "Digest " ++ write_fields l ++ st) ++ match txt "Digest " ++ write_fields l ++ st with [] => [] | _ => [NL] end ++ txt "Basic realm=" ++ in_quotes (realm cfg)
    else txt "Digest " ++ write_fields l ++ st) = txt "Digest " ++ write_fields l ++ rest).
  { destruct (offer_basic cfg); [|by exists st]. eexists. rewrite <- !app_assoc. reflexivity. }
  destruct S as [rest ->]. split; (rewrite param_of; [done|apply good_names; cbn; tauto|done|auto|by right]).
Qed.

(** A client that knows the password gets in: reading realm and nonce out of the
    challenge the camera wrote, and answering with them as RFC 7616 says, it is accepted
    within the lifetime of the nonce, for any user, method, url and client nonce without
    quotes, commas and blanks, whatever else the challenge offers. *)
Theorem digest_client_accepted f h user pass method uri nc cnonce ctx l now0 stale now_ms :
  check_ = Some f -> ha1_ = Some h -> required cfg true = true -> offer_digest cfg = true -> h user (realm cfg) = ha1_hex user (realm cfg) pass ->
  (forall s, md5 s <> []) -> l <> [] -> user <> [] -> Forall (fun s => token s = true) [user; realm cfg; uri; nc; cnonce] ->
  (0 < nonce_lifetime_s cfg -> now_ms - now0 <= nonce_lifetime_s cfg * 1000) ->
  let '(ctx1, ch) := challenge cfg ctx (Some l) now0 stale in
  let r := auth_param ch "realm" in let n := auth_param ch "nonce" in
  check cfg true ctx1 method uri (client_header user r n uri (digest_response user pass r n method uri nc cnonce (txt "auth")) nc cnonce) now_ms = (allow ctx1, Ok).
Proof.
  intros Hf Hh Hq Ho Hs Hm Hl Hu Ht Hnow. assert (Hd : digest_usable cfg = true) by (unfold digest_usable; by rewrite Ho, Hh).
  repeat (apply Forall_cons in Ht as [? Ht]). pose proof (challenge_read ctx (Some l) now0 stale Hd ltac:(done)) as C. unfold challenge in *. cbn [fst snd] in *. destruct C as [-> ->].
  cbn [new_nonce]. set (ctx1 := {| nonce := _; issued_ms := _; authed := _ |}). set (resp := digest_response _ _ _ _ _ _ _ _ _).
  set (fs := [ {| f_name := "username"; f_value := user; f_quoted := true |}; {| f_name := "realm"; f_value := realm cfg; f_quoted := true |};
      {| f_name := "nonce"; f_value := to_hex l; f_quoted := true |}; {| f_name := "uri"; f_value := uri; f_quoted := true |};
      {| f_name := "response"; f_value := resp; f_quoted := true |}; {| f_name := "qop"; f_value := txt "auth"; f_quoted := false |};
      {| f_name := "nc"; f_value := nc; f_quoted := false |}; {| f_name := "cnonce"; f_value := cnonce; f_quoted := true |} ]).
  assert (Tr : token resp = true) by (unfold resp, digest_response, response_from; apply hex_token).
  assert (Nr : resp <> []) by (apply hex_nonempty, Hm).
  assert (Hfs : Forall field_ok fs) by (repeat constructor; (apply named_field; [apply good_names; cbn; tauto|done|first [done|apply hex_token]])).
  assert (P : forall k, In k ["username"; "realm"; "nonce"; "uri"; "response"; "qop"; "nc"; "cnonce"]%string ->
    auth_param (client_header user (realm cfg) (to_hex l) uri resp nc cnonce) k = field_value k fs).
  { intros k Hk. unfold client_header. fold fs. rewrite <- (app_nil_r (write_fields fs)). apply param_of; auto. by apply good_names. }
  unfold check. rewrite Hq, Hf, Hh, Ho. cbn [negb]. change (no_text (client_header _ _ _ _ _ _ _)) with false. cbv iota.
  change (starts_ci (txt "Basic ") (client_header _ _ _ _ _ _ _)) with false. rewrite andb_false_r.
  change (starts_ci (txt "Digest ") (client_header _ _ _ _ _ _ _)) with true. cbn [andb]. unfold check_digest. cbv zeta. rewrite !P by (cbn; tauto).
  change (field_value "username" fs) with user. change (field_value "nonce" fs) with (to_hex l). change (field_value "response" fs) with resp. change (field_value "uri" fs) with uri.
  change (field_value "qop" fs) with (txt "auth"). change (field_value "nc" fs) with nc. change (field_value "cnonce" fs) with cnonce. change (nonce ctx1) with (to_hex l). change (issued_ms ctx1) with now0.
  pose proof (hex_nonempty l Hl) as Nl. apply is_empty_false in Hu, Nr, Nl. rewrite Hu, Nr, Nl. cbn [orb]. destruct (text_eqb_spec (to_hex l) (to_hex l)); [|done]. cbn [negb].
  destruct ((0 <? nonce_lifetime_s cfg) && _) eqn:El. { apply andb_true_iff in El as [L%Z.ltb_lt G%Z.ltb_lt]. specialize (Hnow L). lia. }
  rewrite Hs. assert (N1 : no_text (ha1_hex user (realm cfg) pass) = false) by (apply is_empty_false, hex_nonempty, Hm). rewrite N1.
  assert (Eu : (if no_text uri then uri else uri) = uri) by (by destruct (no_text uri)). rewrite Eu. change (response_from (ha1_hex user (realm cfg) pass) (to_hex l) method uri nc cnonce (txt "auth")) with resp. by rewrite (proj2 (same_spec resp resp) eq_refl).
Qed.
End Client.

(** ** One account *)

Definition digest_config : RtspAuthConfig := {| auth_enabled := true; offer_basic := true; offer_digest := true; realm := txt "Machino"; nonce_lifetime_s := 300 |}.

(** Any function will do for MD5 here: the lengths and the octets added up. *)
Definition sums (s : text) : bytes := [size s mod 256; fold_left (fun a c => (3 * a + char_code c) mod 256) s 0].

#[local] Instance root_only : Accounts := {
  check_ := Some (fun user pass => text_eqb user (txt "root") && text_eqb pass (txt "pw"));
  ha1_ := Some (fun user realm => if text_eqb user (txt "root") then to_hex (sums (user ++ colon ++ realm ++ colon ++ txt "pw")) else []);
  md5 := sums;
  unsafe_ := false
}.

Definition new_ctx : Ctx := {| nonce := []; issued_ms := 0; authed := false |}.
Definition challenged : Ctx := (challenge digest_config new_ctx (Some [18; 171]) 1000 false).1.

Lemma digest_client_accepted_witness :
  check digest_config true challenged (txt "PLAY") (txt "rtsp://h/ch0")
    (client_header (txt "root") (txt "Machino") (txt "12ab") (txt "rtsp://h/ch0")
       (digest_response (txt "root") (txt "pw") (txt "Machino") (txt "12ab") (txt "PLAY") (txt "rtsp://h/ch0") (txt "00000001") (txt "c0ffee") (txt "auth")) (txt "00000001") (txt "c0ffee")) 200000
  = (allow challenged, Ok).
Proof.
  pose proof (digest_client_accepted digest_config (fun user pass => text_eqb user (txt "root") && text_eqb pass (txt "pw"))
    (fun user realm => if text_eqb user (txt "root") then to_hex (sums (user ++ colon ++ realm ++ colon ++ txt "pw")) else [])
    (txt "root") (txt "pw") (txt "PLAY") (txt "rtsp://h/ch0") (txt "00000001") (txt "c0ffee") new_ctx [18; 171] 1000 false 200000) as T.
  unfold challenged. destruct (challenge digest_config new_ctx (Some [18; 171]) 1000 false) as [ctx1 ch] eqn:C.
  assert (R : auth_param ch "realm" = txt "Machino" /\ auth_param ch "nonce" = txt "12ab") by (injection C as _ <-; by vm_compute). destruct R as [R1 R2].
  cbv zeta in T. rewrite R1, R2 in T. apply T; try done; first [by repeat constructor|by vm_compute].
Defined.

(** The address in the header is the one that is signed; nothing compares it with the one
    that is asked for: an answer made for one stream opens the other. *)
Example signed_for_another :
  let answer uri := client_header (txt "root") (txt "Machino") (txt "12ab") uri
    (digest_response (txt "root") (txt "pw") (txt "Machino") (txt "12ab") (txt "PLAY") uri (txt "00000001") (txt "c0ffee") (txt "auth")) (txt "00000001") (txt "c0ffee") in
  (check digest_config true challenged (txt "PLAY") (txt "rtsp://h/ch1") (answer (txt "rtsp://h/ch0")) 2000).2 = Ok
  /\ (check digest_config true challenged (txt "PLAY") (txt "rtsp://h/ch1") (answer (txt "rtsp://h/ch0")) 2001).2 = Ok
  /\ (check digest_config true challenged (txt "SETUP") (txt "rtsp://h/ch1") (answer (txt "rtsp://h/ch0")) 2001).2 = Bad
  /\ (check digest_config true challenged (txt "PLAY") (txt "rtsp://h/ch1") (answer (txt "rtsp://h/ch0")) 400000).2 = Stale.
Proof. by vm_compute. Qed.

Example in_the_clear : (check digest_config true new_ctx (txt "PLAY") [] (txt "basic cm9vdDpwdw==") 0).2 = Ok
  /\ (check digest_config true new_ctx (txt "PLAY") [] (txt "basic cm9vdDpwdw") 0).2 = Ok
  /\ (check digest_config false new_ctx (txt "PLAY") [] (txt "basic cm9vdDpwdw==") 0).2 = Bad
  /\ (check digest_config true new_ctx (txt "PLAY") [] (txt "basic cm9vdDpw") 0).2 = Bad.
Proof. by vm_compute. Qed.
