(* ===== verification/RtspSession.v ===== *)
(** * Sessions of the RTSP server

    [app/rtsp/rtsp_server.cpp]: what a request does to a session, and what is given back
    at its end; with the text helpers of [app/rtsp/rtp_audio.cpp].  The pipeline, the hubs,
    the audio service, the sockets, clocks and randomness answer through the class [World];
    everything asked is in a log, newest first. *)

From S2P Require Import Prelude Text Bytes Base64 HtmlInject RtpJpeg H264 RtspGate.

(** ** Helpers *)

Definition kAudioTrack : Z := 1.
Definition kBackchannelTrack : Z := 2.
Definition UNIT_MAIN : Z := 0.
Definition UNIT_SUB : Z := 1.
Definition UNIT_JPEG : Z := 2.

Definition sdp_audio_section : text :=
  txt "m=audio 0 RTP/AVP 8" ++ CRLF ++ txt "c=IN IP4 0.0.0.0" ++ CRLF ++ txt "a=rtpmap:8 PCMA/8000" ++ CRLF ++ txt "a=control:trackID=" ++ print_int kAudioTrack ++ CRLF.

Definition sdp_backchannel_section : text :=
  txt "m=audio 0 RTP/AVP 0 8" ++ CRLF ++ txt "c=IN IP4 0.0.0.0" ++ CRLF ++ txt "a=rtpmap:0 PCMU/8000" ++ CRLF ++ txt "a=rtpmap:8 PCMA/8000" ++ CRLF
  ++ txt "a=sendonly" ++ CRLF ++ txt "a=control:trackID=" ++ print_int kBackchannelTrack ++ CRLF.

Definition track_from_url (url : text) : Z :=
  match rfind_text (txt "trackID=") url (length url) with None => 0 | Some p => atoi (drop (p + 8) url) end.

(** [None]: no channels are named. *)
Definition interleaved_channels (transport : text) : option (Z * Z) :=
  match find_text (txt "interleaved=") transport with
  | None => None
  | Some p =>
      let rtp := atoi (drop (p + 12) transport) in
      let dash := find_from (txt "-") transport (p + 12) in
      let semi := find_from (txt ";") transport (p + 12) in
      let rtcp := match dash with
                  | Some d => if match semi with None => true | Some s => (d <? s)%nat end then atoi (drop (d + 1) transport) else i32 (rtp + 1)
                  | None => i32 (rtp + 1)
                  end in
      Some (rtp, rtcp)
  end.

Definition wants_backchannel (require_header : text) : bool := occurs (txt "www.onvif.org/ver20/backchannel") (lowercase require_header).

(** The value of a header line: the first place where [name:] stands. *)
Fixpoint skip_sp (s : text) : text := match s with c :: s' => if Ascii.eqb c " " then skip_sp s' else s | [] => [] end.
Definition header (req : text) (name : string) : text :=
  let key := txt name ++ txt ":" in
  match find_text key req with
  | None => []
  | Some p => let v := skip_sp (drop (p + length key) req) in match find_text CRLF v with None => v | Some e => take e v end
  end.

Definition request_method (req : text) : text := match index_of " " req with None => req | Some a => take a req end.
Definition request_url (req : text) : text :=
  match index_of " " req with
  | None => []
  | Some a => let rest := drop (a + 1) req in match index_of " " rest with None => [] | Some b => take b rest end
  end.

(** ** State *)

Record RtspConfig := { path : text; sub_path : text; auth_ : RtspAuthConfig; mjpeg_fps : Z; version : text }.

Definition RTP_MTU : nat := 1400.

(** [udp] is whether there is a socket, [udp_port] the port of the peer. *)
Record Track := { setup : bool; tcp : bool; rtp_ch : Z; rtcp_ch : Z; udp : bool; udp_port : Z; seq : Z; t_ssrc : Z; t_ts : Z }.

#[export] Instance Track_settable : Settable Track :=
  fun t => Build_Track (setup t) (tcp t) (rtp_ch t) (rtcp_ch t) (udp t) (udp_port t) (seq t) (t_ssrc t) (t_ts t).

(** An access unit as a sink delivers it; [discontinuity]: others were dropped before it. *)
Record Popped := { key : bool; data : bytes; pts_us : Z; discontinuity : bool }.

(** What [poll] and [recv] say. *)
Inductive Polled := Nothing | Hangup | Readable.
Inductive Received := Closed | Failed | NotNow | Data (d : bytes).

Inductive Ev :=
| Acquire (unit : Z) (ok : bool) | Release
| Subscribe (unit : Z) | Unsubscribe
| Idr (unit : Z) | Pop (au : option Popped)
| Count (d : Z)                                              (* RuntimeCounters::rtsp_sessions *)
| Snapshot (jpg : option bytes)
| Listen (ok : bool) | Unlisten
| Socket (ok : bool) | Bind (ok : bool) | CloseSocket
| Random (r : option bytes)
| Send (t : text) (ok : bool)
| Poll (r : Polled) | Recv (r : Received)
| Wire (p : bytes) (ok : bool) | Datagram (port : Z) (p : bytes) (ok : bool)
| PopAudio (a : option (bytes * Z)) | Heard (d : option (bool * bytes)) | Play (pcm : list Z) (ok : bool).

(** What the rest of the program and the system answer. *)
Class World := {
  sub_mount : bool;
  jpeg_configured : list Ev -> bool;
  is_claimed : list Ev -> bool;
  now_ms : list Ev -> Z;
  random_ : list Ev -> option bytes;
  acquires : list Ev -> bool;
  pops : list Ev -> option Popped;
  quitting : list Ev -> bool;
  snapshots : list Ev -> option bytes;
  audio_offered : list Ev -> bool;
  audio_present : bool;
  backchannel_offered : list Ev -> bool;
  listens : list Ev -> bool;
  opens : list Ev -> bool;
  binds : list Ev -> bool;
  local_port : list Ev -> Z;
  sends : list Ev -> text -> bool;
  polls : list Ev -> Polled;
  recvs : list Ev -> Received;
  wires : list Ev -> bytes -> bool;
  datagrams : list Ev -> Z -> bytes -> bool;
  mono_us : list Ev -> Z;
  microphone : list Ev -> option (bytes * Z);     (* data, seq *)
  sample_rate : list Ev -> Z;
  switched_off : list Ev -> bool;
  hears : list Ev -> option (bool * bytes);       (* from the address of the peer *)
  plays : list Ev -> list Z -> bool
}.

Record Session := {
  unit_ : Z; session_id : text;
  video : Track; audio : Track; back : Track;
  playing : bool; demand : bool; sink : bool; a_sink : bool;
  wait_key : bool; pts0_us : Z; jpeg_next_us : Z; jpeg_t0_us : Z;
  a_rate : Z; a_last_seq : Z; a_seq_valid : bool;
  bc_ssrc : Z; bc_ssrc_valid : bool; bc_last_ms : Z;
  inbuf : bytes; last_request_ms : Z;
  auth : Ctx;
  params : Z -> bytes * bytes;       (* sps_, pps_ of the server, as this session knows them *)
  log : list Ev
}.

#[export] Instance Session_settable : Settable Session :=
  fun s => Build_Session (unit_ s) (session_id s) (video s) (audio s) (back s) (playing s) (demand s) (sink s) (a_sink s) (wait_key s) (pts0_us s)
    (jpeg_next_us s) (jpeg_t0_us s) (a_rate s) (a_last_seq s) (a_seq_valid s) (bc_ssrc s) (bc_ssrc_valid s) (bc_last_ms s)
    (inbuf s) (last_request_ms s) (auth s) (params s) (log s).

Section Server.
Context `{Accounts} `{World} (cfg_ : RtspConfig).

Definition ask {A} (f : list Ev -> A) (ev : A -> Ev) : ST Session A :=
  s ← gets id;
  let a := f (log s) in
  modify (fun s => s <| log ::= cons (ev a) |>) ;;
  mret a.

Definition note (ev : Ev) : ST Session unit := modify (fun s => s <| log ::= cons ev |>).

(** The mount behind [scheme://host], without a control suffix and one slash at the end. *)
Definition mount_of (url : text) : text :=
  let path := match find_text (txt "://") url with
              | Some sch => match find_from (txt "/") url (sch + 3) with None => [] | Some sl => drop sl url end
              | None => url
              end in
  let path := match find_text (txt "/trackID") path with Some tr => take tr path | None => path end in
  match last path with Some c => if Ascii.eqb c "/" then take (length path - 1) path else path | None => path end.

Definition unit_from_url (l : list Ev) (url : text) : Z :=
  let p := mount_of url in
  if text_eqb p (path cfg_) then UNIT_MAIN
  else if sub_mount && negb (text_eqb (sub_path cfg_) []) && text_eqb p (sub_path cfg_) then UNIT_SUB
  else if text_eqb p (txt "/stream=0") then UNIT_MAIN
  else if sub_mount && text_eqb p (txt "/stream=1") then UNIT_SUB
  else if text_eqb p (txt "/stream=2") && jpeg_configured l then UNIT_JPEG
  else -1.

Definition path_for (unit : Z) : text := if unit =? UNIT_JPEG then txt "/stream=2" else if unit =? UNIT_SUB then sub_path cfg_ else path cfg_.

(** [hub_for(unit)] is not null. *)
Definition has_hub (unit : Z) : bool := if unit =? UNIT_SUB then sub_mount else true.

Definition say (t : text) : ST Session bool := ask (fun l => sends l t) (Send t).

Definition quick (cseq : text) (st : string) : ST Session bool :=
  say (txt "RTSP/1.0 " ++ txt st ++ CRLF ++ txt "CSeq: " ++ cseq ++ CRLF ++ CRLF).

Definition reply (cseq : text) (status : string) (extra body : text) : ST Session bool :=
  say (txt "RTSP/1.0 " ++ txt status ++ CRLF ++ txt "CSeq: " ++ cseq ++ CRLF ++ txt "Server: machino/" ++ version cfg_ ++ CRLF ++ extra
    ++ (match body with [] => [] | _ => txt "Content-Type: application/sdp" ++ CRLF ++ txt "Content-Length: " ++ print_int (size body) ++ CRLF end)
    ++ CRLF ++ body).

(** One header line per scheme. *)
Definition authenticate_lines (ch : text) : text :=
  concat (map (fun one => match one with [] => [] | _ => txt "WWW-Authenticate: " ++ one ++ CRLF end) (split_on NL ch)).

(** Whether the request goes on; [Some]: what [handle_request] returns. *)
Definition gate (req cseq : text) : ST Session (option bool) :=
  let method := request_method req in
  if negb (text_eqb method (txt "DESCRIBE") || text_eqb method (txt "SETUP") || text_eqb method (txt "PLAY")) then mret None else
  let url := request_url req in
  s ← gets id;
  let ru := unit_from_url (log s) url in
  if ru <? 0 then quick cseq "404 Not Found" ;; mret (Some false)
  else if (0 <=? unit_ s) && negb (unit_ s =? ru) then quick cseq "455 Method Not Valid in This State" ;; mret (Some true)
  else
    modify (fun s => s <| unit_ := ru |>) ;;
    let claimed := is_claimed (log s) in
    if negb (required (auth_ cfg_) claimed) then mret None else
    let '(ctx, v) := check (auth_ cfg_) claimed (auth s) method url (header req "Authorization") (now_ms (log s)) in
    modify (fun s => s <| auth := ctx |>) ;;
    if bool_decide (v = Ok) then mret None else
    r ← ask random_ Random;
    s ← gets id;
    let '(ctx, ch) := challenge (auth_ cfg_) (auth s) r (now_ms (log s)) (bool_decide (v = Stale)) in
    modify (fun s => s <| auth := ctx |>) ;;
    say (txt "RTSP/1.0 401 Unauthorized" ++ CRLF ++ txt "CSeq: " ++ cseq ++ CRLF ++ authenticate_lines ch ++ CRLF) ;;
    mret (Some true).

(** The access units until a key unit carries both sets; at most 150. *)
Fixpoint params_loop (fuel : nat) (sps pps : bytes) : ST Session (bool * bytes * bytes) :=
  match fuel with
  | O => mret (false, sps, pps)
  | S fuel =>
      s ← gets id;
      if quitting (log s) then mret (false, sps, pps) else
      au ← ask pops Pop;
      match au with
      | Some au =>
          if key au then let '(ok, sps, pps) := extract_params (data au) sps pps in if ok : bool then mret (true, sps, pps) else params_loop fuel sps pps
          else params_loop fuel sps pps
      | None => params_loop fuel sps pps
      end
  end.

Definition obtain_params (unit : Z) : ST Session (option (bytes * bytes)) :=
  if negb (has_hub unit) then mret None else
  s ← gets id;
  let '(sps, pps) := params s unit in
  match sps, pps with
  | _ :: _, _ :: _ => mret (Some (sps, pps))
  | _, _ =>
      active ← ask acquires (Acquire unit);
      if negb active then mret None else
      note (Subscribe unit) ;; note (Idr unit) ;;
      r ← params_loop 150 [] [];
      note Unsubscribe ;;
      let '(ok, sps, pps) := r in
      when ok (modify (fun s => s <| params ::= fun f u => if u =? unit then (sps, pps) else f u |>)) ;;
      note Release ;;
      mret (if (ok : bool) then Some (sps, pps) else None)
  end.

Definition HEX_UPPER (n : Z) : ascii := nth (Z.to_nat n) (txt "0123456789ABCDEF") "0"%char.
Definition hex_upper (b : Z) : text := [HEX_UPPER (Z.shiftr b 4); HEX_UPPER (Z.land b 15)].

Definition sdp_head : text := txt "v=0" ++ CRLF ++ txt "o=- 0 0 IN IP4 0.0.0.0" ++ CRLF ++ txt "s=Machino" ++ CRLF ++ txt "t=0 0" ++ CRLF ++ txt "a=control:*" ++ CRLF.

Definition sdp_video (sps pps : bytes) : text :=
  let p i := if (3 <? length sps)%nat then octet_at sps i else 0 in
  txt "m=video 0 RTP/AVP 96" ++ CRLF ++ txt "c=IN IP4 0.0.0.0" ++ CRLF ++ txt "a=rtpmap:96 H264/90000" ++ CRLF
  ++ txt "a=fmtp:96 packetization-mode=1;profile-level-id=" ++ hex_upper (p 1%nat) ++ hex_upper (p 2%nat) ++ hex_upper (p 3%nat)
  ++ txt ";sprop-parameter-sets=" ++ Base64.H264.base64 sps ++ txt "," ++ Base64.H264.base64 pps ++ CRLF ++ txt "a=control:trackID=0" ++ CRLF.

Definition describe (req cseq : text) : ST Session bool :=
  s ← gets id;
  if unit_ s =? UNIT_JPEG then
    jpg ← ask snapshots Snapshot;
    match jpg with
    | None => reply cseq "503 Service Unavailable" [] []
    | Some jpg =>
        match parse_jpeg jpg with
        | Some (inr _) =>
            s ← gets id;
            reply cseq "200 OK" [] (sdp_head ++ sdp_jpeg_section ++ if audio_offered (log s) then sdp_audio_section else [])
        | _ => reply cseq "415 Unsupported Media Type" [] []
        end
    end
  else
    r ← obtain_params (unit_ s);
    match r with
    | None => reply cseq "503 Service Unavailable" [] []
    | Some (sps, pps) =>
        s ← gets id;
        reply cseq "200 OK" [] (sdp_head ++ sdp_video sps pps ++ (if audio_offered (log s) then sdp_audio_section else [])
          ++ if wants_backchannel (header req "Require") && backchannel_offered (log s) then sdp_backchannel_section else [])
    end.

(** The three tracks, as places in a session. *)
Inductive Place := Video | Audio | Back.
Definition track (p : Place) (s : Session) : Track := match p with Video => video s | Audio => audio s | Back => back s end.
Definition on_track (p : Place) (f : Track -> Track) (s : Session) : Session :=
  match p with Video => s <| video ::= f |> | Audio => s <| audio ::= f |> | Back => s <| back ::= f |> end.

Definition close_socket (p : Place) : ST Session unit :=
  s ← gets id;
  when (udp (track p s)) (note CloseSocket ;; modify (on_track p (fun t => t <| udp := false |>))).

(** The status line, and the header lines. *)
Definition setup_transport (p : Place) (tr : text) : ST Session (string * text) :=
  if occurs (txt "RTP/AVP/TCP") tr || occurs (txt "interleaved") tr then
    modify (on_track p (fun t => match interleaved_channels tr with Some (rtp, rtcp) => t <| rtp_ch := rtp |> <| rtcp_ch := rtcp |> | None => t end)) ;;
    modify (on_track p (fun t => t <| setup := true |> <| tcp := true |>)) ;;
    close_socket p ;;
    s ← gets id;
    mret ("200 OK"%string, txt "Transport: RTP/AVP/TCP;unicast;interleaved=" ++ print_int (rtp_ch (track p s)) ++ txt "-" ++ print_int (rtcp_ch (track p s)) ++ CRLF
      ++ txt "Session: " ++ session_id s ++ txt ";timeout=60" ++ CRLF)
  else
    match find_text (txt "client_port=") tr with
    | None => mret ("461 Unsupported Transport"%string, [])
    | Some at_ =>
        let cport := atoi (drop (at_ + 12) tr) in
        if (cport <=? 0) || (65535 <? cport) then mret ("461 Unsupported Transport"%string, []) else
        close_socket p ;;
        ok ← ask opens Socket;
        if negb ok then mret ("500 Internal Server Error"%string, []) else
        modify (on_track p (fun t => t <| udp := true |>)) ;;
        ok ← ask binds Bind;
        if negb ok then close_socket p ;; mret ("500 Internal Server Error"%string, []) else
        s ← gets id;
        let port := local_port (log s) in
        modify (on_track p (fun t => t <| udp_port := cport |> <| setup := true |> <| tcp := false |>)) ;;
        mret ("200 OK"%string, txt "Transport: RTP/AVP;unicast;client_port=" ++ print_int cport ++ txt "-" ++ print_int (cport + 1) ++ txt ";server_port=" ++ print_int port
          ++ txt "-" ++ print_int (port + 1) ++ CRLF ++ txt "Session: " ++ session_id s ++ txt ";timeout=60" ++ CRLF)
    end.

Definition set_up (req cseq : text) : ST Session bool :=
  let tr := header req "Transport" in
  let track := track_from_url (request_url req) in
  s ← gets id;
  if (track =? kBackchannelTrack) && negb (backchannel_offered (log s)) then reply cseq "404 Not Found" [] []
  else if (track =? kAudioTrack) && negb (audio_offered (log s)) then reply cseq "404 Not Found" [] []
  else
    r ← setup_transport (if track =? kBackchannelTrack then Back else if track =? kAudioTrack then Audio else Video) tr;
    reply cseq r.1 r.2 [].

(** The video of [PLAY]: [Some] where it ends with a reply. *)
Definition play_video (cseq : text) : ST Session (option bool) :=
  s ← gets id;
  if playing s then mret None
  else if unit_ s =? UNIT_JPEG then
    modify (fun s => s <| playing := true |> <| jpeg_next_us := 0 |> <| jpeg_t0_us := -1 |>) ;; note (Count 1) ;; mret None
  else if negb (has_hub (unit_ s)) then r ← reply cseq "404 Not Found" [] []; mret (Some r)
  else
    active ← ask acquires (Acquire (unit_ s));
    modify (fun s => s <| demand := active |>) ;;
    if negb active then r ← reply cseq "503 Service Unavailable" [] []; mret (Some r) else
    note (Subscribe (unit_ s)) ;;
    modify (fun s => s <| sink := true |> <| playing := true |> <| wait_key := true |> <| pts0_us := -1 |>) ;; note (Count 1) ;;
    note (Idr (unit_ s)) ;; mret None.

Definition play (cseq : text) : ST Session bool :=
  ended ← play_video cseq;
  match ended with
  | Some r => mret r
  | None =>
      s ← gets id;
      when (setup (audio s) && audio_present && negb (a_sink s))
        (ok ← ask listens Listen; modify (fun s => s <| a_sink := ok |> <| a_rate := sample_rate (log s) |> <| a_seq_valid := false |>)) ;;
      s ← gets id;
      let info := txt "RTP-Info: url=" ++ path_for (unit_ s) ++ txt "/trackID=0;seq=" ++ print_int (seq (video s))
        ++ if setup (audio s) then txt ",url=" ++ path_for (unit_ s) ++ txt "/trackID=" ++ print_int kAudioTrack ++ txt ";seq=" ++ print_int (seq (audio s)) else [] in
      reply cseq "200 OK" (txt "Session: " ++ session_id s ++ CRLF ++ txt "Range: npt=0.000-" ++ CRLF ++ info ++ CRLF) []
  end.

(** False: the connection is closed. *)
Definition handle_request (req : text) : ST Session bool :=
  let method := request_method req in
  let cseq := match header req "CSeq" with [] => txt "0" | c => c end in
  g ← gate req cseq;
  match g with
  | Some r => mret r
  | None =>
      if text_eqb method (txt "OPTIONS") then reply cseq "200 OK" (txt "Public: OPTIONS, DESCRIBE, SETUP, PLAY, TEARDOWN, GET_PARAMETER" ++ CRLF) []
      else if text_eqb method (txt "DESCRIBE") then describe req cseq
      else if text_eqb method (txt "SETUP") then set_up req cseq
      else if text_eqb method (txt "PLAY") then play cseq
      else
        s ← gets id;
        if text_eqb method (txt "TEARDOWN") then reply cseq "200 OK" (txt "Session: " ++ session_id s ++ CRLF) [] ;; mret false
        else if text_eqb method (txt "GET_PARAMETER") || text_eqb method (txt "SET_PARAMETER") then reply cseq "200 OK" (txt "Session: " ++ session_id s ++ CRLF) []
        else reply cseq "405 Method Not Allowed" [] []
  end.

(** The microphone was switched off. *)
Definition audio_ended : ST Session unit :=
  s ← gets id;
  when (a_sink s) (when audio_present (note Unlisten) ;; modify (fun s => s <| a_sink := false |>)).

(** The end of [client_loop]. *)
Definition client_end : ST Session unit :=
  s ← gets id;
  when (a_sink s && audio_present) (note Unlisten) ;;
  close_socket Audio ;; close_socket Back ;;
  when (sink s && has_hub (unit_ s)) (note Unsubscribe) ;;
  when (playing s) (note (Count (-1))) ;;
  when (demand s) (note Release ;; modify (fun s => s <| demand := false |>)) ;;
  close_socket Video.

Definition new_track (rtp rtcp ssrc : Z) : Track :=
  {| setup := false; tcp := true; rtp_ch := rtp; rtcp_ch := rtcp; udp := false; udp_port := 0; seq := 0; t_ssrc := ssrc; t_ts := 0 |}.

(** [ssrc] is made of the clock and the descriptor. *)
Definition new_session (ssrc : Z) (now : Z) (params : Z -> bytes * bytes) : Session :=
  {| unit_ := -1; session_id := print_int (Z.lxor ssrc 0x5a5a5a5a);
     video := new_track 0 1 ssrc; audio := new_track 2 3 (Z.lxor ssrc 0xa5a5a5a5); back := new_track 4 5 0;
     playing := false; demand := false; sink := false; a_sink := false; wait_key := true; pts0_us := -1; jpeg_next_us := 0; jpeg_t0_us := -1;
     a_rate := 0; a_last_seq := 0; a_seq_valid := false; bc_ssrc := 0; bc_ssrc_valid := false; bc_last_ms := 0; inbuf := []; last_request_ms := now;
     auth := {| nonce := []; issued_ms := 0; authed := false |}; params := params; log := [] |}.
End Server.

(** The members of an updated session. *)
Ltac fields := cbn [upd id unit_ session_id video audio back playing demand sink a_sink wait_key pts0_us jpeg_next_us jpeg_t0_us a_rate a_last_seq a_seq_valid bc_ssrc bc_ssrc_valid bc_last_ms inbuf last_request_ms auth params log
  setup tcp rtp_ch rtcp_ch udp udp_port seq t_ssrc t_ts on_track track] in *.

(** ** Nothing starts for a client that was not let in *)

(** Events that start nothing. *)
Definition quiet (ev : Ev) : bool := match ev with Send _ _ | Random _ => true | _ => false end.

Section Admission.
Context `{Accounts} `{World} (cfg : RtspConfig).

(** What [handle_request] finds out about the sender of a request. *)
Definition admitted (req : text) (s : Session) : Prop :=
  required (auth_ cfg) (is_claimed (log s)) = false
  \/ (check (auth_ cfg) (is_claimed (log s)) (auth s) (request_method req) (request_url req) (header req "Authorization") (now_ms (log s))).2 = Ok.

(** Only the stream asked for, the challenge and what was said may differ. *)
Definition untouched (s s' : Session) : Prop :=
  (exists new, log s' = new ++ log s /\ forallb quiet new = true) /\ s' = s <| unit_ := unit_ s' |> <| auth := auth s' |> <| log := log s' |>.

Lemma untouched_refl s : untouched s s.
Proof. split; [by exists []|by destruct s]. Qed.

Lemma untouched_trans a b c : untouched a b -> untouched b c -> untouched a c.
Proof.
  intros [(n1 & L1 & Q1) E1] [(n2 & L2 & Q2) E2]. split.
  - exists (n2 ++ n1). by rewrite L2, L1, forallb_app, Q1, Q2, app_assoc.
  - rewrite E2, E1. by destruct a, b, c.
Qed.

Lemma wp_world {A} (f : list Ev -> A) (ev : A -> Ev) (Q : A -> Session -> Prop) s :
  Q (f (log s)) (s <| log ::= cons (ev (f (log s))) |>) -> wp (ask f ev) Q s.
Proof. intros HQ. unfold ask. wp_go. exact HQ. Qed.

Lemma untouched_ev ev s0 s : quiet ev = true -> untouched s0 s -> untouched s0 (s <| log ::= cons ev |>).
Proof. intros Hq Hs. apply (untouched_trans _ s); [done|]. split; [exists [ev]; cbn; by rewrite Hq|by destruct s]. Qed.

Lemma say_untouched t s0 s : untouched s0 s -> wp (say t) (fun _ s' => untouched s0 s') s.
Proof. intros Hs. unfold say. apply wp_world. by apply untouched_ev. Qed.

Lemma reply_untouched cseq st extra body s0 s : untouched s0 s -> wp (reply cfg cseq st extra body) (fun _ s' => untouched s0 s') s.
Proof. apply say_untouched. Qed.

Definition guarded (m : text) : bool := text_eqb m (txt "DESCRIBE") || text_eqb m (txt "SETUP") || text_eqb m (txt "PLAY").

(** The gate lets through whom the check lets through, and touches nothing. *)
Lemma gate_spec req cseq s : wp (gate cfg req cseq) (fun g s' => untouched s s' /\ (g = None -> guarded (request_method req) = true -> admitted req s)) s.
Proof.
  unfold gate. fold (guarded (request_method req)). destruct (guarded (request_method req)); cbn [negb]; [|wp_step; split; [apply untouched_refl|done]].
  do 2 wp_step. cbn [id]. set (ru := unit_from_url cfg (log s) (request_url req)). destruct (ru <? 0).
  { wp_step. eapply wp_mono; [apply say_untouched, untouched_refl|]. intros a s' Hs'. wp_step. by split. }
  destruct (_ && _). { wp_step. eapply wp_mono; [apply say_untouched, untouched_refl|]. intros a s' Hs'. wp_step. by split. }
  do 2 wp_step. cbv zeta. set (s1 := s <| unit_ := ru |>). assert (H1 : untouched s s1) by (split; [by exists []|by destruct s]).
  destruct (required (auth_ cfg) (is_claimed (log s))) eqn:Hr; cbn [negb]; [|wp_step; split; [done|]; intros _ _; by left].
  destruct (check _ _ _ _ _ _ _) as [ctx v] eqn:C. do 2 wp_step. set (s2 := s1 <| auth := ctx |>). assert (H2 : untouched s s2) by (split; [by exists []|by destruct s]).
  destruct (bool_decide_reflect (v = Ok)) as [->|Hv]; [wp_step; split; [done|]; intros _ _; right; by rewrite C|].
  wp_step. apply wp_world. do 2 wp_step. destruct (challenge _ _ _ _ _) as [ctx' ch]. do 2 wp_step.
  wp_step. eapply wp_mono; [apply (say_untouched _ s)|intros a s' Hs'; wp_step; by split]. clear C. apply (untouched_trans _ s2); [done|]. split; [by eexists [_]|by destruct s].
Qed.

(** C35. A client that was not let in starts nothing: whatever the request is, unless the
    check of this very request lets its sender in, no stream, no capture, no microphone and
    no socket is asked for and nothing the session holds changes, but for the stream it is
    bound to and the challenge; all that goes out is an answer. *)
Theorem nothing_starts_unauthorised req s : ~ admitted req s -> untouched s (exec (handle_request cfg req) s).
Proof.
  intros Hn. change (wp (handle_request cfg req) (fun _ s' => untouched s s') s). unfold handle_request. set (cseq := match _ with [] => _ | _ => _ end). clearbody cseq. wp_step. eapply wp_mono; [apply gate_spec|].
  intros [r|] s1 [H1 Hg]; [by wp_step|]. assert (G : guarded (request_method req) = false). { destruct (guarded (request_method req)); [|done]. destruct Hn. by apply Hg. }
  unfold guarded in G. apply orb_false_iff in G as [[G1 G2]%orb_false_iff G3]. rewrite G1, G2, G3. wp_step; [by apply reply_untouched|]. do 2 wp_step. cbn [id].
  wp_step; [wp_step; eapply wp_mono; [by apply reply_untouched|]; intros; by wp_step|]. wp_step; by apply reply_untouched.
Qed.
End Admission.

(** ** What a session holds, and gives back *)

(** What an event adds to what is held: streams, subscriptions, the microphone, sockets. *)
Definition streams (ev : Ev) : Z := match ev with Acquire _ true => 1 | Release => -1 | _ => 0 end.
Definition subscriptions (ev : Ev) : Z := match ev with Subscribe _ => 1 | Unsubscribe => -1 | _ => 0 end.
Definition microphones (ev : Ev) : Z := match ev with Listen true => 1 | Unlisten => -1 | _ => 0 end.
Definition sockets (ev : Ev) : Z := match ev with Socket true => 1 | CloseSocket => -1 | _ => 0 end.

Definition counted (ev : Ev) : Z := match ev with Count d => d | _ => 0 end.

Fixpoint held (f : Ev -> Z) (l : list Ev) : Z := match l with [] => 0 | ev :: l => held f l + f ev end.

(** The stream an event is about; a packet fits the buffer of [send_rtp]. *)
Definition about (u : Z) (ev : Ev) : Prop :=
  match ev with
  | Acquire v _ | Subscribe v | Idr v => v = u /\ 0 <= u
  | Wire p _ => (length p <= 4 + 12 + RTP_MTU)%nat
  | Datagram _ p _ => (length p <= 12 + RTP_MTU)%nat
  | _ => True
  end.

(** What every event but a [Count] is. *)
Definition plain (u : Z) (ev : Ev) : Prop := about u ev /\ counted ev = 0.

Definition sockets_of (s : Session) : Z := Z.b2z (udp (video s)) + Z.b2z (udp (audio s)) + Z.b2z (udp (back s)).

Section Held.
Context `{A0 : Accounts} `{W0 : World} (cfg : RtspConfig).

(** How the members of a session hang together. *)
Definition coherent (s : Session) : Prop :=
  sink s = demand s /\ (playing s = true -> unit_ s = UNIT_JPEG \/ demand s = true) /\ (demand s = true -> playing s = true)
  /\ (a_sink s = true -> audio_present = true) /\ has_hub (unit_ s) = true /\ Forall (about (unit_ s)) (log s)
  /\ (unit_ s = -1 \/ 0 <= unit_ s) /\ (unit_ s = -1 -> playing s = false) /\ held counted (log s) = Z.b2z (playing s).

(** What is held, but for what is on its way. *)
Record near (a b m k : Z) (s : Session) : Prop := {
  n_streams : held streams (log s) = Z.b2z (demand s) + a;
  n_subs : held subscriptions (log s) = Z.b2z (sink s) + b;
  n_mic : held microphones (log s) = Z.b2z (a_sink s) + m;
  n_sockets : held sockets (log s) = sockets_of s + k;
  n_rest : coherent s
}.

Definition in_order (s : Session) : Prop := near 0 0 0 0 s.

Lemma near_ev ev a b m k s : near a b m k s -> plain (unit_ s) ev ->
  near (a + streams ev) (b + subscriptions ev) (m + microphones ev) (k + sockets ev) (s <| log ::= cons ev |>).
Proof.
  intros [N1 N2 N3 N4 (C1 & C2 & C3 & C4 & C5 & C6 & C7 & C8 & C9)] [Ha Hc]. constructor; fields; cbn [held]; try lia.
  - unfold sockets_of in *. fields. lia.
  - unfold coherent. fields. cbn [held]. rewrite Hc, Z.add_0_r. do 5 (split; [done|]). split; [by constructor|]. done.
Qed.

(** An event that changes no count. *)
Definition neutral (ev : Ev) : Prop := streams ev = 0 /\ subscriptions ev = 0 /\ microphones ev = 0 /\ sockets ev = 0.

Lemma near_neutral ev a b m k s : near a b m k s -> neutral ev -> plain (unit_ s) ev -> near a b m k (s <| log ::= cons ev |>).
Proof. intros Hs (E1 & E2 & E3 & E4) Ha. pose proof (near_ev ev a b m k s Hs Ha) as N. rewrite E1, E2, E3, E4, !Z.add_0_r in N. exact N. Qed.

(** What stays of the stream a session is bound to. *)
Definition keeps (u : Z) (a b m k : Z) (s : Session) : Prop := near a b m k s /\ unit_ s = u.

Lemma keeps_say t u a b m k s : keeps u a b m k s -> wp (say t) (fun _ s' => keeps u a b m k s') s.
Proof. intros [Hs Hu]. unfold say. apply wp_world. split; [by apply near_neutral|done]. Qed.

Lemma keeps_reply cseq st extra body u a b m k s : keeps u a b m k s -> wp (reply cfg cseq st extra body) (fun _ s' => keeps u a b m k s') s.
Proof. apply keeps_say. Qed.

Lemma keeps_note ev u a b m k s (Q : Session -> Prop) : keeps u a b m k s -> plain u ev ->
  (forall s', keeps u (a + streams ev) (b + subscriptions ev) (m + microphones ev) (k + sockets ev) s' -> Q s') -> wp (note ev) (fun _ => Q) s.
Proof. intros [Hs <-] Ha HQ. unfold note. wp_step. apply HQ. split; [by apply near_ev|done]. Qed.

Lemma unit_from_url_ok l url : let u := unit_from_url cfg l url in (u = -1 \/ 0 <= u) /\ has_hub u = true.
Proof.
  unfold unit_from_url, has_hub, UNIT_MAIN, UNIT_SUB, UNIT_JPEG. cbv zeta. repeat case_match; subst; try done;
    repeat match goal with E : (_ && _) = true |- _ => apply andb_true_iff in E as [? ?] end; split; (done || (by left) || (by right) || congruence).
Qed.

Lemma near_gate req cseq s : in_order s ->
  wp (gate cfg req cseq) (fun g s' => in_order s' /\ (0 <= unit_ s -> unit_ s' = unit_ s) /\ (g = None -> guarded (request_method req) = true -> 0 <= unit_ s')) s.
Proof.
  intros Hs. unfold gate. fold (guarded (request_method req)). destruct (guarded (request_method req)); cbn [negb]; [|by wp_step].
  do 2 wp_step. cbn [id]. pose proof (unit_from_url_ok (log s) (request_url req)) as [U1 U2]. set (ru := unit_from_url cfg (log s) (request_url req)) in *. destruct (Z.ltb_spec ru 0) as [L|L].
  { wp_step. unfold quick, say. apply wp_world. wp_step. split; [by apply near_neutral|]. by split. }
  destruct ((0 <=? unit_ s) && negb (unit_ s =? ru)) eqn:E. { wp_step. unfold quick, say. apply wp_world. wp_step. split; [by apply near_neutral|]. by split. }
  do 2 wp_step. cbv zeta. pose proof Hs as [N1 N2 N3 N4 (C1 & C2 & C3 & C4 & C5 & C6 & C7 & C8 & C9)].
  assert (B : unit_ s = -1 \/ unit_ s = ru).
  { destruct C7 as [|G]; [by left|]. apply Z.leb_le in G. rewrite G in E. cbn [andb] in E. apply negb_false_iff, Z.eqb_eq in E. by right. }
  assert (I1 : forall ctx, in_order (s <| unit_ := ru |> <| auth := ctx |>)).
  { intros ctx. constructor; try done. unfold coherent. fields. destruct B as [B|B]; [|rewrite <- B; auto 12]. specialize (C8 B).
    split; [done|]. split; [by rewrite C8|]. do 3 (split; [done|]). split; [|split; [by right|split; [by intros ->|done]]].
    apply (Forall_impl _ _ _ C6). rewrite B. intros ev; destruct ev; cbn; lia || done. }
  assert (I0 : in_order (s <| unit_ := ru |>)) by (exact (I1 (auth s))).
  assert (U : 0 <= unit_ s -> ru = unit_ s) by (intros G; destruct B as [B|B]; lia).
  destruct (required _ _); cbn [negb]; [|by wp_step]. destruct (check _ _ _ _ _ _ _) as [ctx v]. do 2 wp_step.
  destruct (bool_decide _); [wp_step; split; [apply I1|]; by split|]. wp_step. apply wp_world. do 2 wp_step. destruct (challenge _ _ _ _ _) as [ctx' ch]. do 2 wp_step.
  wp_step. unfold say. apply wp_world. wp_step. split; [|by split]. apply near_neutral; [|done|done]. apply (near_neutral (Random _) 0 0 0 0 _ (I1 ctx')); done.
Qed.
Lemma keeps_ask {A} (f : list Ev -> A) (ev : A -> Ev) u a b m k s (Q : A -> Session -> Prop) : keeps u a b m k s -> (forall x, plain u (ev x)) ->
  (forall x s', keeps u (a + streams (ev x)) (b + subscriptions (ev x)) (m + microphones (ev x)) (k + sockets (ev x)) s' -> Q x s') -> wp (ask f ev) Q s.
Proof. intros [Hs <-] Ha HQ. apply wp_world. apply HQ. split; [by apply near_ev|done]. Qed.

Lemma params_loop_keeps fuel u a b m k : forall sps pps s, keeps u a b m k s -> wp (params_loop fuel sps pps) (fun _ s' => keeps u a b m k s') s.
Proof.
  induction fuel as [|fuel IH]; intros sps pps s Hs; cbn [params_loop]; [by wp_step|]. do 2 wp_step. destruct (quitting _); [by wp_step|]. wp_step.
  eapply (keeps_ask _ _ u a b m k); [exact Hs|done|]. intros x s' Hs'. assert (K : keeps u a b m k s') by (cbn [streams subscriptions microphones sockets] in Hs'; by rewrite !Z.add_0_r in Hs').
  destruct x as [au|]; [|by apply IH]. destruct (key au); [|by apply IH]. destruct (extract_params (data au) sps pps) as [[[] ?] ?]; [by wp_step|by apply IH].
Qed.

(** The scoped demand of DESCRIBE is given back. *)
Lemma obtain_params_keeps u s : 0 <= u -> keeps u 0 0 0 0 s -> wp (obtain_params u) (fun _ s' => keeps u 0 0 0 0 s') s.
Proof.
  intros Hu Hs. unfold obtain_params. destruct (negb _); [by wp_step|]. do 2 wp_step.
  assert (K : wp (active ← ask acquires (Acquire u);
      if negb active then mret None else
      note (Subscribe u) ;; note (Idr u) ;; r ← params_loop 150 [] []; note Unsubscribe ;;
      let '(ok, sps, pps) := r in
      when ok (modify (fun s => s <| params ::= fun f u' => if u' =? u then (sps, pps) else f u' |>)) ;; note Release ;; mret (if (ok : bool) then Some (sps, pps) else None))
    (fun _ s' => keeps u 0 0 0 0 s') s).
  { wp_step. eapply (keeps_ask _ _ u); [exact Hs|done|]. intros [] s1 H1; cbn [negb]; [|by wp_step]. wp_step. eapply keeps_note; [exact H1|done|]. intros s2 H2.
    wp_step. eapply keeps_note; [exact H2|done|]. intros s3 H3. wp_step. eapply wp_mono; [apply params_loop_keeps; exact H3|]. intros [[ok sps] pps] s4 H4. wp_step.
    eapply keeps_note; [exact H4|done|]. intros s5 H5. cbn [streams subscriptions microphones sockets] in H5.
    assert (R : forall s', keeps u 1 0 0 0 s' -> wp (note Release ;; mret (if ok then Some (sps, pps) else None)) (fun _ s' => keeps u 0 0 0 0 s') s').
    { intros s' Hs'. wp_step. eapply keeps_note; [exact Hs'|done|]. intros s6 H6. wp_step. exact H6. }
    wp_step. apply wp_when; intros _; [wp_step|]; apply R; [|exact H5]. destruct H5 as [[] Hu5]. split; [by constructor|exact Hu5]. }
  destruct (params (id s) u) as [[|] [|]]; try exact K. by wp_step.
Qed.

Lemma in_order_keeps s : in_order s -> keeps (unit_ s) 0 0 0 0 s.
Proof. done. Qed.

Lemma describe_keeps req cseq s : in_order s -> 0 <= unit_ s -> wp (describe cfg req cseq) (fun _ s' => keeps (unit_ s) 0 0 0 0 s') s.
Proof.
  intros Hs Hu. unfold describe. do 2 wp_step. cbn [id]. destruct (unit_ s =? UNIT_JPEG).
  - wp_step. eapply (keeps_ask _ _ (unit_ s)); [by apply in_order_keeps|done|]. intros [jpg|] s1 H1; [|by apply keeps_reply].
    destruct (parse_jpeg jpg) as [[why|f]|]; [by apply keeps_reply| |by apply keeps_reply]. do 2 wp_step. by apply keeps_reply.
  - wp_step. eapply wp_mono; [by apply obtain_params_keeps|]. intros [[sps pps]|] s1 H1; [|by apply keeps_reply]. do 2 wp_step. by apply keeps_reply.
Qed.

(** A track is changed; its socket stays as it is counted. *)
Lemma keeps_track p f u a b m k s : keeps u a b m k s -> (forall t, udp (f t) = udp t) -> keeps u a b m k (on_track p f s).
Proof.
  intros [[N1 N2 N3 N4 C] Hu] Hf. split; [|by destruct p]. constructor; try by destruct p. rewrite <- (Z.add_0_r (sockets_of _ + k)).
  unfold sockets_of in *. destruct p; fields; rewrite Hf; lia.
Qed.

Lemma keeps_udp p v u a b m k s : keeps u a b m k s -> keeps u a b m (k + Z.b2z (udp (track p s)) - Z.b2z v) (on_track p (fun t => t <| udp := v |>) s).
Proof.
  intros [[N1 N2 N3 N4 C] Hu]. split; [|by destruct p]. constructor; try by destruct p. unfold sockets_of in *. destruct p; fields; lia.
Qed.

Lemma close_socket_keeps p u a b m k s : keeps u a b m k s -> wp (close_socket p) (fun _ s' => keeps u a b m k s' /\ udp (track p s') = false) s.
Proof.
  intros Hs. unfold close_socket. do 2 wp_step. cbn [id]. apply wp_when; intros Hu; [|by split]. unfold note. do 3 wp_step. split; [|by destruct p].
  set (s1 := s <| log ::= cons CloseSocket |>). assert (H1 : keeps u a b m (k - 1) s1) by (destruct Hs as [Hs <-]; split; [|done]; pose proof (near_ev CloseSocket _ _ _ _ _ Hs (conj I eq_refl)) as N; cbn [streams subscriptions microphones sockets] in N; by rewrite !Z.add_0_r in N).
  pose proof (keeps_udp p false _ _ _ _ _ _ H1) as K. replace (udp (track p s1)) with true in K by (by destruct p). cbn [Z.b2z] in K. by replace (k - 1 + 1 - 0) with k in K by lia.
Qed.

Lemma setup_transport_keeps p tr u s : keeps u 0 0 0 0 s -> wp (setup_transport p tr) (fun _ s' => keeps u 0 0 0 0 s') s.
Proof.
  intros Hs. unfold setup_transport. wp_step.
  - do 4 wp_step. wp_step. eapply wp_mono; [apply close_socket_keeps|].
    + apply keeps_track; [|done]. apply keeps_track; [exact Hs|]. intros t. by destruct (interleaved_channels tr) as [[]|].
    + intros _ s1 [H1 _]. do 2 wp_step. by wp_step.
  - destruct (find_text _ tr); [|by wp_step]. cbv zeta. wp_step; [by wp_step|]. wp_step. eapply wp_mono; [by apply close_socket_keeps|]. intros _ s1 [H1 Hu1]. wp_step.
    apply wp_world. destruct H1 as [H1 Hu]. pose proof (near_ev (Socket (opens (log s1))) _ _ _ _ _ H1 (conj I eq_refl)) as N. cbn [streams subscriptions microphones sockets] in N. rewrite !Z.add_0_r, Z.add_0_l in N.
    set (s2 := s1 <| log ::= _ |>) in *. destruct (opens (log s1)); cbn [negb]; [|by wp_step]. do 2 wp_step.
    assert (H3 : keeps u 0 0 0 0 (on_track p (fun t => t <| udp := true |>) s2)).
    { pose proof (keeps_udp p true u _ _ _ _ s2 (conj N Hu)) as K. replace (udp (track p s2)) with false in K by (by destruct p). exact K. }
    wp_step. eapply (keeps_ask _ _ u 0 0 0 0); [exact H3|done|]. intros ok s4 H4. assert (K4 : keeps u 0 0 0 0 s4) by (destruct ok; exact H4). destruct ok; cbn [negb].
    + do 4 wp_step. wp_step. apply keeps_track; [exact K4|done].
    + wp_step. eapply wp_mono; [by apply close_socket_keeps|]. intros _ s5 [H5 _]. by wp_step.
Qed.

Lemma set_up_keeps req cseq s : in_order s -> wp (set_up cfg req cseq) (fun _ s' => keeps (unit_ s) 0 0 0 0 s') s.
Proof.
  intros Hs. unfold set_up. do 2 wp_step. wp_step; [by apply keeps_reply|]. wp_step; [by apply keeps_reply|]. wp_step. eapply wp_mono; [by apply setup_transport_keeps|].
  intros r s1 H1. by apply keeps_reply.
Qed.

Lemma play_video_keeps cseq s : in_order s -> 0 <= unit_ s -> wp (play_video cfg cseq) (fun _ s' => keeps (unit_ s) 0 0 0 0 s') s.
Proof.
  intros Hs Hu. unfold play_video. do 2 wp_step. cbn [id]. destruct (playing s) eqn:Hp; [by wp_step|]. pose proof Hs as [N1 N2 N3 N4 (C1 & C2 & C3 & C4 & C5 & C6 & C7 & C8 & C9)].
  assert (Hd : demand s = false) by (destruct (demand s); [by rewrite C3 in Hp|done]).
  destruct (Z.eqb_spec (unit_ s) UNIT_JPEG) as [E|E].
  { unfold note. do 5 wp_step. split; [|done]. constructor; fields; cbn [held streams subscriptions microphones sockets counted]; rewrite ?Z.add_0_r in *; try done. unfold coherent. fields. cbn [held counted].
    rewrite Hd. split; [congruence|]. split; [by left|]. do 3 (split; [done|]). split; [by constructor|]. split; [done|]. split; [by rewrite E|]. rewrite C9, Hp. done. }
  rewrite C5. cbn [negb]. wp_step. apply wp_world. set (ok := acquires (log s)). do 2 wp_step.
  assert (A : Forall (about (unit_ s)) (Acquire (unit_ s) ok :: log s)) by (by constructor). destruct ok; cbn [negb].
  - unfold note. do 9 wp_step. split; [|done]. constructor; fields; cbn [held streams subscriptions microphones sockets]; rewrite ?Hd, ?C1 in *; cbn [Z.b2z] in *; try lia.
    + unfold sockets_of in *. fields. lia.
    + unfold coherent. fields. do 5 (split; [done || auto|]). split; [repeat (constructor; [done|]); exact C6|]. cbn [held counted]. rewrite C9, Hp. split; [done|]. by split; [lia|].
  - wp_step. eapply wp_mono; [apply (keeps_reply _ _ _ _ (unit_ s) 0 0 0 0)|intros r s' Hs'; by wp_step]. split; [|done]. constructor; fields; cbn [held streams subscriptions microphones sockets]; rewrite ?Hd, ?C1 in *; cbn [Z.b2z] in *; try lia.
    + unfold sockets_of in *. fields. lia.
    + unfold coherent. fields. cbn [held counted]. rewrite C9, Hp. split; [congruence|]. do 4 (split; [done|]). by split.
Qed.

Lemma play_keeps cseq s : in_order s -> 0 <= unit_ s -> wp (play cfg cseq) (fun _ s' => keeps (unit_ s) 0 0 0 0 s') s.
Proof.
  intros Hs Hu. unfold play. wp_step. eapply wp_mono; [by apply play_video_keeps|]. intros [r|] s1 [H1 Hu1]; [by wp_step|]. do 3 wp_step.
  assert (K : forall s', keeps (unit_ s) 0 0 0 0 s' -> wp (s0 ← gets id;
      let info := txt "RTP-Info: url=" ++ path_for cfg (unit_ s0) ++ txt "/trackID=0;seq=" ++ print_int (seq (video s0))
        ++ if setup (audio s0) then txt ",url=" ++ path_for cfg (unit_ s0) ++ txt "/trackID=" ++ print_int kAudioTrack ++ txt ";seq=" ++ print_int (seq (audio s0)) else [] in
      reply cfg cseq "200 OK" (txt "Session: " ++ session_id s0 ++ CRLF ++ txt "Range: npt=0.000-" ++ CRLF ++ info ++ CRLF) []) (fun _ s' => keeps (unit_ s) 0 0 0 0 s') s').
  { intros s' Hs'. do 2 wp_step. cbv zeta. by apply keeps_reply. }
  apply wp_when; intros Ha; [|by apply K]. apply andb_true_iff in Ha as [[_ Hp]%andb_true_iff Hm%negb_true_iff]. cbn [id] in *. wp_step. apply wp_world. wp_step. apply K.
  destruct H1 as [N1 N2 N3 N4 (C1 & C2 & C3 & C4 & C5 & C6 & C7 & C8 & C9)]. split; [|done]. constructor; fields; cbn [held streams subscriptions microphones sockets]; rewrite ?Hm in *; try lia.
  - destruct (listens (log s1)); cbn [Z.b2z] in *; lia.
  - unfold sockets_of in *. fields. lia.
  - unfold coherent. fields. do 5 (split; [done|]). split; [by constructor|]. cbn [held counted]. rewrite C9, Z.add_0_r. done.
Qed.

(** A request leaves the session in order, and bound to its stream. *)
Lemma handle_request_keeps req s : in_order s -> wp (handle_request cfg req) (fun _ s' => in_order s' /\ (0 <= unit_ s -> unit_ s' = unit_ s)) s.
Proof.
  intros Hs. unfold handle_request. set (cseq := match _ with [] => _ | _ => _ end). clearbody cseq. wp_step. eapply wp_mono; [by apply near_gate|]. intros [r|] s1 (H1 & Hu & Hg); [by wp_step|].
  assert (K : forall m : ST Session bool, wp m (fun _ s' => keeps (unit_ s1) 0 0 0 0 s') s1 -> wp m (fun _ s' => in_order s' /\ (0 <= unit_ s -> unit_ s' = unit_ s)) s1).
  { intros m Hm. eapply wp_mono; [exact Hm|]. intros r s' [Hs' E]. split; [exact Hs'|]. rewrite E. exact Hu. }
  specialize (Hg eq_refl). unfold guarded in Hg.
  wp_step; [by apply K, keeps_reply|]. wp_step; [apply K, describe_keeps; [done|by apply Hg]|]. wp_step; [by apply K, set_up_keeps|]. wp_step; [apply K, play_keeps; [done|apply Hg]|].
  { by rewrite orb_true_r. }
  do 2 wp_step. wp_step; [wp_step; eapply wp_mono; [by apply K, keeps_reply|]; intros; by wp_step|]. wp_step; by apply K, keeps_reply.
Qed.

Lemma audio_ended_keeps s : in_order s -> wp audio_ended (fun _ s' => in_order s' /\ (0 <= unit_ s -> unit_ s' = unit_ s)) s.
Proof.
  intros [N1 N2 N3 N4 (C1 & C2 & C3 & C4 & C5 & C6 & C7 & C8 & C9)]. unfold audio_ended, note. do 2 wp_step. cbn [id]. apply wp_when; intros Ha; [|by split; [constructor|]].
  rewrite (C4 Ha). unfold when. do 3 wp_step. split; [|done]. rewrite Ha in *. constructor; fields; cbn [held streams subscriptions microphones sockets Z.b2z] in *; try lia.
  - unfold sockets_of in *. fields. lia.
  - unfold coherent. fields. do 3 (split; [done|]). split; [done|]. split; [done|]. split; [by constructor|]. cbn [held counted]. rewrite C9, Z.add_0_r. done.
Qed.

(** The end of the connection gives everything back. *)
Lemma client_end_spec s : in_order s -> wp client_end (fun _ s' => held streams (log s') = 0 /\ held subscriptions (log s') = 0 /\ held microphones (log s') = 0 /\ held sockets (log s') = 0 /\ held counted (log s') = 0
  /\ Forall (about (unit_ s)) (log s')) s.
Proof.
  intros Hs. pose proof Hs as [N1 N2 N3 N4 (C1 & C2 & C3 & C4 & C5 & C6 & C7 & C8 & C9)]. unfold client_end, close_socket, note. do 2 wp_step. cbn [id].
  assert (Ha : a_sink s && audio_present = a_sink s) by (destruct (a_sink s); [by rewrite C4|done]). rewrite Ha. unfold sockets_of in N4.
  repeat (wp_step; fields); cbn [held streams subscriptions microphones sockets counted]; try match goal with E : sink s && _ = _ |- _ => rewrite C5, andb_true_r in E end;
    repeat match goal with E : ?b = _, N : context [Z.b2z ?b] |- _ => rewrite E in N end; cbn [Z.b2z] in *; split_and!; (lia || (repeat (constructor; [done|]); exact C6)).
Qed.
End Held.

(** ** A client without an account *)

#[local] Existing Instance root_only.

Definition camera : RtspConfig := {| path := txt "/ch0"; sub_path := []; auth_ := digest_config; mjpeg_fps := 5; version := txt "1.0" |}.

(** Two parameter sets and a picture. *)
Definition picture_unit : Popped :=
  {| key := true; data := [0; 0; 0; 1; 0x67; 0x42; 0xc0; 0x1e; 1; 0; 0; 0; 1; 0x68; 0xce; 0x3c; 0x80; 0; 0; 0; 1; 0x65; 0x88; 0x84; 3]; pts_us := 40000; discontinuity := false |}.

Definition is_recv (ev : Ev) : bool := match ev with Recv _ => true | _ => false end.
Definition reads_so_far (l : list Ev) : nat := length (List.filter is_recv l).

(** A client that says one line after the other, and hangs up; everything it asks for is there. *)
Definition scripted (script : list text) : World := {|
  sub_mount := false; jpeg_configured _ := true; is_claimed _ := true; now_ms l := 100 * Z.of_nat (length l); random_ _ := Some [18; 171];
  acquires _ := true; pops _ := Some picture_unit; quitting _ := false; snapshots _ := None; audio_offered _ := true; audio_present := true; backchannel_offered _ := true;
  listens _ := true; opens _ := true; binds _ := true; local_port _ := 40000; sends _ _ := true; polls _ := Readable;
  recvs l := match script !! reads_so_far l with Some t => Data (octets_of t) | None => Closed end;
  wires _ _ := true; datagrams _ _ _ := true; mono_us l := 1000 * Z.of_nat (length l); microphone _ := None; sample_rate _ := 8000; switched_off _ := false;
  hears _ := None; plays _ _ := true |}.

Definition asks (line : string) (headers : text) : text := txt line ++ txt " RTSP/1.0" ++ CRLF ++ txt "CSeq: 3" ++ CRLF ++ headers ++ CRLF.
Definition stranger : text := asks "PLAY rtsp://h/ch0" [].
Definition fresh : Session := new_session 1 0 (fun _ => ([], [])).

Lemma nothing_starts_unauthorised_witness :
  untouched fresh (exec (@handle_request _ (scripted []) camera stranger) fresh).
Proof.
  apply (@nothing_starts_unauthorised _ (scripted []) camera stranger fresh). intros [E|E]; vm_compute in E; discriminate.
Defined.
