(* ===== verification/RtspClient.v ===== *)
(** * The thread of an RTSP client

    [app/rtsp/rtsp_server.cpp]: [client_loop] — the bytes of the connection, the media
    that go out, the microphone and the backchannel — over the sessions of [RtspSession],
    with [audio_encode] of [app/http/audio_stream.cpp].  The requests and the interleaved
    frames are taken off one buffer; a pass of the loop is [pass], and what is asked of the
    system in it is in the log. *)

From S2P Require Import Prelude Text Bytes G711 Rtp HtmlInject RtpJpeg H264 RtspGate RtspSession.

Definition MAX_RTSP_REQUEST : nat := 8 * 1024.
Definition kIdleBeforePlayMs : Z := 60000.

(** ** A-law of the capture *)

Definition sample_at (s16le : bytes) (i : nat) : Z := i16 (octet_at s16le (2 * i) + 256 * octet_at s16le (2 * i + 1)).

(** [audio_encode] with [AudioFormat::Alaw]. *)
Definition alaw_of (capture_rate : Z) (s16le : bytes) : bytes :=
  let n := (length s16le / 2)%nat in
  let step := if capture_rate =? 16000 then 2%nat else 1%nat in
  map (fun o => alaw_encode (i16 (Z.quot (fold_left (fun acc k => acc + sample_at s16le (o * step + k)) (List.seq 0 step) 0) (Z.of_nat step)))) (List.seq 0 (n / step)).

Section Client.
Context `{Accounts} `{World} (cfg_ : RtspConfig).

(** ** Media *)

(** One packet: interleaved on the connection, or a datagram. *)
Definition send_rtp (p : Place) (pt : Z) (payload : bytes) (ts : Z) (marker : bool) : ST Session bool :=
  s ← gets id;
  let t := track p s in
  let pkt := write_header pt marker (seq t) ts (t_ssrc t) ++ payload in
  let total := Z.of_nat (kHeaderBytes + length payload) in
  modify (on_track p (fun t => t <| seq ::= fun n => u16 (n + 1) |>)) ;;
  if tcp t then
    let pkt := [0x24; u8 (rtp_ch t); u8 (Z.shiftr total 8); u8 total] ++ pkt in ask (fun l => wires l pkt) (Wire pkt)
  else if udp t then ask (fun l => datagrams l (udp_port t) pkt) (Datagram (udp_port t) pkt)
  else mret false.

(** The fragments of a unit from [pos] on. *)
Fixpoint send_fragments (fuel : nat) (n : bytes) (ts : Z) (last : bool) (pos : nat) (first : bool) : ST Session bool :=
  match fuel with
  | O => mret true
  | S fuel =>
      if (pos <? length n)%nat then
        let hdr := octet_at n 0 in
        let fu_ind := u8 (Z.lor (Z.land hdr 0xe0) 28) in
        let chunk := Nat.min (length n - pos) (RTP_MTU - 2) in
        let fin := (pos + chunk =? length n)%nat in
        let buf := [fu_ind; u8 (Z.lor (Z.lor (if first then 0x80 else 0) (if fin then 0x40 else 0)) (Z.land hdr 0x1f))] ++ take chunk (drop pos n) in
        ok ← send_rtp Video 96 buf ts (last && fin);
        if negb ok then mret false else send_fragments fuel n ts last (pos + chunk) false
      else mret true
  end.

Definition keep_params (nal : Nal) : ST Session unit :=
  modify (fun s => s <| params ::= fun f u => if u =? unit_ s then (if type nal =? 7 then (nal_p nal, (f u).2) else ((f u).1, nal_p nal)) else f u |>).

Definition send_unit (nal : Nal) (ts : Z) (last : bool) : ST Session bool :=
  when ((type nal =? 7) || (type nal =? 8)) (keep_params nal) ;;
  if (length (nal_p nal) <=? RTP_MTU)%nat then send_rtp Video 96 (nal_p nal) ts last
  else send_fragments (length (nal_p nal)) (nal_p nal) ts last 1 true.

Fixpoint send_units (nals : list Nal) (ts : Z) : ST Session bool :=
  match nals with
  | [] => mret true
  | nal :: nals =>
      ok ← send_unit nal ts (match nals with [] => true | _ => false end);
      if negb ok then mret false else send_units nals ts
  end.

Definition send_au (au : Popped) : ST Session bool :=
  modify (fun s => if pts0_us s <? 0 then s <| pts0_us := pts_us au |> else s) ;;
  s ← gets id;
  send_units (split (data au) 32) (u32 (Z.quot ((pts_us au - pts0_us s) * 90) 1000)).

Fixpoint send_payloads (l : list bytes) (ts : Z) : ST Session bool :=
  match l with
  | [] => mret true
  | pk :: l =>
      ok ← send_rtp Video kPayloadJpeg pk ts (match l with [] => true | _ => false end);
      if negb ok then mret false else send_payloads l ts
  end.

Definition send_jpeg : ST Session bool :=
  let fps := if 0 <? mjpeg_fps cfg_ then mjpeg_fps cfg_ else 5 in
  s ← gets id;
  let now := mono_us (log s) in
  modify (fun s => s <| jpeg_next_us ::= fun t => (if t =? 0 then now else t) + Z.quot 1000000 fps |>) ;;
  modify (fun s => s <| jpeg_next_us ::= fun t => if t <? now then now + Z.quot 1000000 fps else t |>) ;;
  jpg ← ask snapshots Snapshot;
  match jpg with
  | None => mret true
  | Some jpg =>
      match parse_jpeg jpg with
      | Some (inr f) =>
          modify (fun s => if jpeg_t0_us s <? 0 then s <| jpeg_t0_us := now |> else s) ;;
          s ← gets id;
          send_payloads (jpeg_rtp_payloads f RTP_MTU) (u32 (Z.quot ((now - jpeg_t0_us s) * 90) 1000))
      | _ => mret true
      end
  end.

(** [while (sent < pcma.size())]. *)
Fixpoint send_audio (fuel : nat) (pcma : bytes) : ST Session bool :=
  match fuel with
  | O => mret true
  | S fuel =>
      if (0 <? length pcma)%nat then
        let len := Nat.min (length pcma) RTP_MTU in
        s ← gets id;
        ok ← send_rtp Audio kPayloadPcma (take len pcma) (t_ts (audio s)) false;
        if negb ok then mret false else
        modify (on_track Audio (fun t => t <| t_ts ::= fun n => u32 (n + Z.of_nat len) |>)) ;;
        send_audio fuel (drop len pcma)
      else mret true
  end.

(** One frame of the microphone; the clock runs over frames that were dropped. *)
Definition send_frame (d : bytes) (n : Z) : ST Session bool :=
  s ← gets id;
  let pcma := alaw_of (a_rate s) d in
  when (a_seq_valid s && (u32 (a_last_seq s + 1) <? n))
    (modify (on_track Audio (fun t => t <| t_ts ::= fun c => u32 (c + (n - a_last_seq s - 1) * Z.of_nat (length pcma)) |>))) ;;
  modify (fun s => s <| a_last_seq := n |> <| a_seq_valid := true |>) ;;
  send_audio (length pcma) pcma.

(** [for (int k = 0; k < 64 && alive; ++k)]. *)
Fixpoint pump_audio (k : nat) : ST Session bool :=
  match k with
  | O => mret true
  | S k =>
      a ← ask microphone PopAudio;
      match a with
      | None => mret true
      | Some ([], _) => pump_audio k
      | Some (d, n) => ok ← send_frame d n; if negb ok then mret false else pump_audio k
      end
  end.

(** ** What the client says into the speaker *)

Definition on_backchannel (p : bytes) : ST Session unit :=
  if negb audio_present then skip else
  match parse p with
  | Some (Some h) =>
      if (payload_len h =? 0)%nat then skip else
      s ← gets id;
      let t := now_ms (log s) in
      if negb (tcp (back s)) && (bc_ssrc_valid s && negb (ssrc h =? bc_ssrc s) && (t - bc_last_ms s <? 2000)) then skip else
      when (negb (tcp (back s))) (modify (fun s => s <| bc_ssrc := ssrc h |> <| bc_ssrc_valid := true |> <| bc_last_ms := t |>)) ;;
      match decode_g711 (pt h) (take (payload_len h) (drop (payload_at h) p)) [] with
      | None => skip
      | Some pcm => ask (fun l => plays l pcm) (Play pcm) ;; skip
      end
  | _ => skip
  end.

(** [for (int k = 0; k < 16; ++k)]; [false]: the datagram is not of the peer's address. *)
Fixpoint pump_backchannel_udp (k : nat) : ST Session unit :=
  match k with
  | O => skip
  | S k =>
      d ← ask hears Heard;
      match d with
      | None => skip
      | Some (mine, p) => when mine (on_backchannel p) ;; pump_backchannel_udp k
      end
  end.

(** ** The bytes of the connection *)

(** Whatever is complete in the buffer is taken off it; [false]: the client is dropped. *)
Fixpoint drain (fuel : nat) : ST Session bool :=
  match fuel with
  | O => mret true
  | S fuel =>
      s ← gets id;
      match take_interleaved (inbuf s) with
      | Frame ich idata rest =>
          modify (fun s => s <| inbuf := rest |>) ;;
          when (setup (back s) && tcp (back s) && (ich =? rtp_ch (back s))) (on_backchannel idata) ;;
          drain fuel
      | TooLarge => mret false
      | Partial => mret true
      | NotOne =>
          let t := map chr (inbuf s) in
          match find_text (CRLF ++ CRLF) t with
          | None => mret true
          | Some rend =>
              modify (fun s => s <| inbuf ::= drop (rend + 4) |> <| last_request_ms := now_ms (log s) |>) ;;
              ok ← handle_request cfg_ (take (rend + 4) t);
              if negb ok then mret false else drain fuel
          end
      end
  end.

(** The ceiling of what may wait in the buffer. *)
Definition bound (b : bytes) : nat :=
  if negb (length b =? 0)%nat && (octet_at b 0 =? 0x24) then (4 + kMaxInterleaved)%nat else MAX_RTSP_REQUEST.

(** [recv] takes at most 2048 octets. *)
Definition received : ST Session bool :=
  pr ← ask polls Poll;
  match pr with
  | Nothing => mret true
  | Hangup => mret false
  | Readable =>
      r ← ask recvs Recv;
      match r with
      | Closed | Failed => mret false
      | NotNow => mret true
      | Data d =>
          modify (fun s => s <| inbuf ::= fun b => b ++ take 2048 d |>) ;;
          s ← gets id;
          ok ← drain (S (length (inbuf s)));
          if negb ok then mret false else
          s ← gets id;
          mret (length (inbuf s) <=? bound (inbuf s))%nat
      end
  end.

(** ** The loop *)

(** The stream that is played: [None] is [continue]. *)
Definition pump_video : ST Session (option bool) :=
  s ← gets id;
  if negb (playing s && sink s) then mret (Some true) else
  au ← ask pops Pop;
  match au with
  | None => mret (Some true)
  | Some au =>
      when (discontinuity au) (modify (fun s => s <| wait_key := true |>)) ;;
      s ← gets id;
      if wait_key s && negb (key au) then mret None else
      modify (fun s => s <| wait_key := false |>) ;;
      ok ← send_au au; mret (Some ok)
  end.

Definition pump_jpeg (alive : bool) : ST Session bool :=
  s ← gets id;
  if alive && playing s && (unit_ s =? UNIT_JPEG) && (jpeg_next_us s <=? mono_us (log s)) then send_jpeg else mret alive.

Definition pump_microphone (alive : bool) : ST Session bool :=
  s ← gets id;
  if alive && playing s && a_sink s then
    ok ← pump_audio 64;
    s ← gets id;
    when (switched_off (log s)) audio_ended ;;
    mret ok
  else mret alive.

(** One pass; [false]: the loop ends. *)
Definition pass : ST Session bool :=
  alive ← received;
  if negb alive then mret false else
  s ← gets id;
  if negb (playing s) && (kIdleBeforePlayMs <? now_ms (log s) - last_request_ms s) then mret false else
  v ← pump_video;
  match v with
  | None => mret true
  | Some alive =>
      alive ← pump_jpeg alive;
      s ← gets id;
      when (alive && setup (back s) && negb (tcp (back s)) && udp (back s)) (pump_backchannel_udp 16) ;;
      pump_microphone alive
  end.

(** [n] passes at most; true: the thread is at its end. *)
Fixpoint client_loop (n : nat) : ST Session bool :=
  match n with
  | O => mret false
  | S n =>
      s ← gets id;
      alive ← (if quitting (log s) then mret false else pass);
      if alive : bool then client_loop n else client_end ;; mret true
  end.
End Client.

(** ** What a pass leaves *)

Section Calm.
Context `{A0 : Accounts} `{W0 : World} (cfg : RtspConfig).
Context (snapshots_octets : forall l d, snapshots l = Some d -> octets d).

(** All that counts for what is held. *)
Definition core (s : Session) := (unit_ s, (playing s, demand s, sink s, a_sink s), (udp (video s), udp (audio s), udp (back s)), log s).

Lemma keeps_core s s' u a b m k : core s' = core s -> keeps u a b m k s -> keeps u a b m k s'.
Proof.
  intros [= E1 E2 E3 E4 E5 E6 E7 E8 E9] [[N1 N2 N3 N4 C] Hu]. split; [|congruence].
  constructor; unfold coherent, sockets_of in *; rewrite ?E1, ?E2, ?E3, ?E4, ?E5, ?E6, ?E7, ?E8, ?E9; done.
Qed.

(** In order, and bound to the stream [u]. *)
Definition calm (u : Z) (s : Session) : Prop := keeps u 0 0 0 0 s.

Lemma calm_ask {A} (f : list Ev -> A) (ev : A -> Ev) u s (Q : A -> Session -> Prop) : calm u s -> (forall x, x = f (log s) -> neutral (ev x) /\ plain u (ev x)) ->
  (forall s', calm u s' -> Q (f (log s)) s') -> wp (ask f ev) Q s.
Proof. intros [Hs <-] He HQ. apply wp_world. apply HQ. destruct (He _ eq_refl). split; [by apply near_neutral|done]. Qed.

Lemma send_rtp_calm p pt payload ts m u s : (length payload <= RTP_MTU)%nat -> calm u s -> wp (send_rtp p pt payload ts m) (fun _ s' => calm u s') s.
Proof.
  intros Hl Hs. unfold send_rtp. do 3 wp_step. cbn [id]. cbv zeta. wp_step. assert (H1 : calm u (on_track p (fun t => t <| seq ::= fun n => u16 (n + 1) |>) s)) by (by apply keeps_track).
  assert (L : forall m t ts c, length (write_header pt m t ts c ++ payload) = (12 + length payload)%nat) by (intros; by rewrite length_app, length_write_header).
  destruct (tcp _); [|destruct (udp _); [|by wp_step]]; (eapply calm_ask; [exact H1| |done]; intros x _; split; [done|]; split; [|done]).
  all: unfold about; cbn [app length]; rewrite L; lia.
Qed.
Lemma send_fragments_calm n ts last u fuel : forall pos first s, calm u s -> wp (send_fragments fuel n ts last pos first) (fun _ s' => calm u s') s.
Proof.
  induction fuel as [|fuel IH]; intros pos first s Hs; cbn [send_fragments]; [by wp_step|]. wp_step; [|by wp_step]. cbv zeta. wp_step. eapply wp_mono; [apply send_rtp_calm; [|exact Hs]|].
  - cbn [app length]. rewrite length_take. unfold RTP_MTU. lia.
  - intros [] s1 H1; cbn [negb]; [by apply IH|by wp_step].
Qed.

Lemma send_unit_calm nal ts last u s : calm u s -> wp (send_unit nal ts last) (fun _ s' => calm u s') s.
Proof.
  intros Hs. unfold send_unit. wp_step. assert (K : forall s, calm u s -> wp (if (length (nal_p nal) <=? RTP_MTU)%nat then send_rtp Video 96 (nal_p nal) ts last
    else send_fragments (length (nal_p nal)) (nal_p nal) ts last 1 true) (fun _ s' => calm u s') s).
  { intros s1 H1. destruct (Nat.leb_spec (length (nal_p nal)) RTP_MTU); [by apply send_rtp_calm|by apply send_fragments_calm]. }
  apply wp_when; intros _; [|by apply K]. unfold keep_params. wp_step. apply K. by apply (keeps_core s).
Qed.

Lemma send_units_calm ts u nals : forall s, calm u s -> wp (send_units nals ts) (fun _ s' => calm u s') s.
Proof.
  induction nals as [|nal nals IH]; intros s Hs; cbn [send_units]; [by wp_step|]. wp_step. eapply wp_mono; [by apply send_unit_calm|].
  intros [] s1 H1; cbn [negb]; [by apply IH|by wp_step].
Qed.

Lemma send_au_calm au u s : calm u s -> wp (send_au au) (fun _ s' => calm u s') s.
Proof. intros Hs. unfold send_au. do 4 wp_step. apply send_units_calm. destruct (pts0_us s <? 0); [by apply (keeps_core s)|done]. Qed.

Lemma send_payloads_calm ts u l : forall s, Forall (fun pk => (length pk <= RTP_MTU)%nat) l -> calm u s -> wp (send_payloads l ts) (fun _ s' => calm u s') s.
Proof.
  induction l as [|pk l IH]; intros s Hl Hs; cbn [send_payloads]; [by wp_step|]. apply Forall_cons in Hl as [H1 Hl]. wp_step. eapply wp_mono; [by apply send_rtp_calm|].
  intros [] s1 Hs1; cbn [negb]; [by apply IH|by wp_step].
Qed.

Lemma payloads_fit f mtu fuel : frame_ok f -> (144 <= mtu)%nat -> forall off, Forall (fun pk => (length pk <= mtu)%nat) (payload_loop fuel f mtu off).
Proof.
  intros F Hm. induction fuel as [|fuel IH]; intros off; cbn [payload_loop]; [done|]. cbv zeta. pose proof (header_length_at f F off) as L.
  assert (K : (length (payload_header f off ++ take (Nat.min (mtu - length (payload_header f off)) (length (scan f) - off)) (drop off (scan f))) <= mtu)%nat) by (rewrite length_app, length_take; lia).
  destruct (_ =? 0)%nat; [by repeat constructor|]. destruct (_ <? _)%nat; [constructor; [exact K|apply IH]|by repeat constructor].
Qed.

Lemma send_jpeg_calm u s : calm u s -> wp (send_jpeg cfg) (fun _ s' => calm u s') s.
Proof.
  intros Hs. unfold send_jpeg. cbv zeta. do 2 wp_step. cbn [id]. set (fps := if 0 <? mjpeg_fps cfg then _ else _). clearbody fps. do 4 wp_step. wp_step. eapply calm_ask; [|by intros|].
  { eapply keeps_core; [|exact Hs]. by destruct s. }
  intros s1 H1. cbv beta. destruct (snapshots (log _)) as [jpg|] eqn:E; [|by wp_step]. pose proof (parse_reads jpg (snapshots_octets _ _ E)) as P.
  destruct (parse_jpeg jpg) as [[why|f]|] eqn:Ep; [by wp_step| |by wp_step]. assert (F : frame_ok f) by (destruct P as (r & [= <-] & Hr); exact Hr).
  do 4 wp_step. apply send_payloads_calm; [apply payloads_fit; [done|]|]. { unfold RTP_MTU. lia. } destruct (jpeg_t0_us s1 <? 0); [by apply (keeps_core s1)|done].
Qed.

Lemma send_audio_calm u fuel : forall pcma s, calm u s -> wp (send_audio fuel pcma) (fun _ s' => calm u s') s.
Proof.
  induction fuel as [|fuel IH]; intros pcma s Hs; cbn [send_audio]; [by wp_step|]. wp_step; [|by wp_step]. cbv zeta. do 3 wp_step. eapply wp_mono; [apply send_rtp_calm; [rewrite length_take; lia|exact Hs]|].
  intros [] s1 H1; cbn [negb]; [|by wp_step]. do 2 wp_step. apply IH. by apply (keeps_track Audio).
Qed.

Lemma pump_audio_calm u k : forall s, calm u s -> wp (pump_audio k) (fun _ s' => calm u s') s.
Proof.
  induction k as [|k IH]; intros s Hs; cbn [pump_audio]; [by wp_step|]. wp_step. eapply calm_ask; [exact Hs|by intros|]. intros s1 H1. cbv beta.
  destruct (microphone (log s)) as [[[|b d] n]|]; [by apply IH| |by wp_step]. wp_step. eapply (wp_mono _ (fun _ s' => calm u s')).
  - unfold send_frame. do 2 wp_step. cbv zeta. wp_step. assert (K : forall pcma s', calm u s' -> wp (modify (fun s => s <| a_last_seq := n |> <| a_seq_valid := true |>) ;; send_audio (length pcma) pcma) (fun _ s' => calm u s') s').
    { intros pcma s2 H2. do 2 wp_step. apply send_audio_calm. by apply (keeps_core s2). }
    apply wp_when; intros _; [wp_step|]; apply K; [by apply (keeps_track Audio)|done].
  - intros [] s2 H2; cbn [negb]; [by apply IH|by wp_step].
Qed.

Lemma on_backchannel_calm p u s : calm u s -> wp (on_backchannel p) (fun _ s' => calm u s') s.
Proof.
  intros Hs. unfold on_backchannel. wp_step; [by wp_step|]. destruct (parse p) as [[h|]|]; [|by wp_step..]. wp_step; [by wp_step|]. do 2 wp_step. cbv zeta. wp_step; [by wp_step|].
  assert (K : forall s, calm u s -> wp (match decode_g711 (pt h) (take (payload_len h) (drop (payload_at h) p)) [] with None => skip | Some pcm => ask (fun l => plays l pcm) (Play pcm) ;; skip end) (fun _ s' => calm u s') s).
  { intros s1 H1. destruct (decode_g711 _ _ _); [|by wp_step]. wp_step. eapply calm_ask; [exact H1|by intros|]. intros s2 H2. by wp_step. }
  wp_step. apply wp_when; intros _; [wp_step|]; apply K; [by apply (keeps_core s)|done].
Qed.

Lemma pump_backchannel_calm u k : forall s, calm u s -> wp (pump_backchannel_udp k) (fun _ s' => calm u s') s.
Proof.
  induction k as [|k IH]; intros s Hs; cbn [pump_backchannel_udp]; [by wp_step|]. wp_step. eapply calm_ask; [exact Hs|by intros|]. intros s1 H1. cbv beta.
  destruct (hears (log s)) as [[mine p]|]; [|by wp_step]. wp_step. apply wp_when; intros _; [|by apply IH]. eapply wp_mono; [by apply on_backchannel_calm|]. intros [] s2 H2. by apply IH.
Qed.

(** In order, and bound to the stream of [s] if it was bound to one. *)
Definition steady (s s' : Session) : Prop := in_order s' /\ (0 <= unit_ s -> unit_ s' = unit_ s).

Lemma steady_trans s1 s2 s3 : steady s1 s2 -> steady s2 s3 -> steady s1 s3.
Proof. intros [_ U1] [H2 U2]. split; [done|]. intros U. rewrite U2; rewrite U1; done. Qed.

Lemma steady_calm s s' : calm (unit_ s) s' -> steady s s'.
Proof. by intros [H U]. Qed.

Lemma calm_steady s s' : steady s s' -> calm (unit_ s') s'.
Proof. by intros [H _]. Qed.

(** What keeps every stream keeps this one. *)
Lemma steady_after {A} (m : ST Session A) s s1 : (forall u s, calm u s -> wp m (fun _ s' => calm u s') s) -> steady s s1 -> wp m (fun _ s' => steady s s') s1.
Proof. intros Hm Hs. eapply wp_mono; [apply Hm, (calm_steady s), Hs|]. intros a s2 H2. eapply steady_trans; [exact Hs|]. by apply steady_calm. Qed.

Lemma steady_core s s1 s2 : core s2 = core s1 -> steady s s1 -> steady s s2.
Proof. intros E H. eapply steady_trans; [exact H|]. apply steady_calm. eapply keeps_core; [exact E|]. by destruct H. Qed.

Lemma steady_refl s : in_order s -> steady s s.
Proof. by intros. Qed.

Lemma drain_steady fuel : forall s s1, steady s s1 -> wp (drain cfg fuel) (fun _ s' => steady s s') s1.
Proof.
  induction fuel as [|fuel IH]; intros s s1 Hs; cbn [drain]; [by wp_step|]. do 2 wp_step. cbn [id]. destruct (take_interleaved _) as [| |ich idata rest|]; [|by wp_step| |by wp_step].
  - cbv zeta. destruct (find_text _ _) as [rend|]; [|by wp_step]. do 3 wp_step. eapply wp_mono; [apply handle_request_keeps; eapply proj1, (steady_core s s1); [done|exact Hs]|].
    intros ok s2 [H2 U2]. assert (K : steady s s2). { eapply steady_trans; [eapply (steady_core s s1 (s1 <| inbuf ::= drop (rend + 4) |> <| last_request_ms := now_ms (log s1) |>)); [done|exact Hs]|]. by split. }
    destruct ok; cbn [negb]; [by apply IH|by wp_step].
  - do 3 wp_step. assert (K : steady s (s1 <| inbuf := rest |>)) by (by apply (steady_core s s1)). apply wp_when; intros _; [|by apply IH].
    eapply wp_mono; [eapply steady_after; [intros; by apply on_backchannel_calm|exact K]|]. intros [] s2 H2. by apply IH.
Qed.

Lemma ask_steady {A} (f : list Ev -> A) (ev : A -> Ev) s s1 (Q : A -> Session -> Prop) : steady s s1 -> (forall x u, neutral (ev x) /\ plain u (ev x)) ->
  (forall s', steady s s' -> Q (f (log s1)) s') -> wp (ask f ev) Q s1.
Proof. intros Hs He HQ. eapply calm_ask; [by eapply calm_steady|by intros|]. intros s' H'. apply HQ. eapply steady_trans; [exact Hs|]. by apply steady_calm. Qed.

Lemma received_steady s s1 : steady s s1 -> wp (received cfg) (fun _ s' => steady s s') s1.
Proof.
  intros Hs. unfold received. wp_step. eapply ask_steady; [exact Hs|by intros|]. intros s2 H2. cbv beta. destruct (polls _); [by wp_step..|].
  wp_step. eapply ask_steady; [exact H2|by intros|]. intros s3 H3. cbv beta. destruct (recvs _) as [| | |d]; [by wp_step..|]. do 5 wp_step.
  eapply wp_mono; [apply drain_steady, (steady_core s s3); [done|exact H3]|]. intros [] s4 H4; cbn [negb]; [|by wp_step]. do 2 wp_step. by wp_step.
Qed.

Lemma pump_video_steady s s1 : steady s s1 -> wp pump_video (fun _ s' => steady s s') s1.
Proof.
  intros Hs. unfold pump_video. do 2 wp_step. wp_step; [by wp_step|]. wp_step. eapply ask_steady; [exact Hs|by intros|]. intros s2 H2. cbv beta. destruct (pops _) as [au|]; [|by wp_step]. wp_step.
  assert (K : forall s2, steady s s2 -> wp (s' ← gets id; if wait_key s' && negb (key au) then mret None else modify (fun s => s <| wait_key := false |>) ;; ok ← send_au au; mret (Some ok)) (fun _ s' => steady s s') s2).
  { intros s3 H3. do 2 wp_step. wp_step; [by wp_step|]. do 3 wp_step. eapply wp_mono; [eapply steady_after; [intros; by apply send_au_calm|]|]. { by apply (steady_core s s3). } intros ok s4 H4. by wp_step. }
  apply wp_when; intros _; [wp_step|]; apply K; [by apply (steady_core s s2)|done].
Qed.

Lemma pump_jpeg_steady alive s s1 : steady s s1 -> wp (pump_jpeg cfg alive) (fun _ s' => steady s s') s1.
Proof. intros Hs. unfold pump_jpeg. do 2 wp_step. wp_step; [|by wp_step]. eapply steady_after; [intros; by apply send_jpeg_calm|done]. Qed.

Lemma pump_microphone_steady alive s s1 : steady s s1 -> wp (pump_microphone alive) (fun _ s' => steady s s') s1.
Proof.
  intros Hs. unfold pump_microphone. do 2 wp_step. wp_step; [|by wp_step]. wp_step. eapply wp_mono; [eapply steady_after; [intros; by apply pump_audio_calm|exact Hs]|].
  intros ok s2 H2. do 3 wp_step. apply wp_when; intros _; [|by wp_step]. eapply wp_mono; [apply audio_ended_keeps, H2|]. intros [] s3 H3. wp_step. eapply steady_trans; [exact H2|exact H3].
Qed.

Lemma pass_steady s s1 : steady s s1 -> wp (pass cfg) (fun _ s' => steady s s') s1.
Proof.
  intros Hs. unfold pass. wp_step. eapply wp_mono; [by apply received_steady|]. intros [] s2 H2; cbn [negb]; [|by wp_step]. do 2 wp_step. wp_step; [by wp_step|]. wp_step.
  eapply wp_mono; [by apply pump_video_steady|]. intros [alive|] s3 H3; [|by wp_step]. wp_step. eapply wp_mono; [by apply pump_jpeg_steady|]. clear alive. intros alive s4 H4. do 3 wp_step.
  apply wp_when; intros _; [|by apply pump_microphone_steady]. eapply wp_mono; [eapply steady_after; [intros; by apply pump_backchannel_calm|exact H4]|]. intros [] s5 H5. by apply pump_microphone_steady.
Qed.

Lemma new_session_in_order ssrc now params : in_order (new_session ssrc now params).
Proof. constructor; try done. unfold coherent. cbn. do 5 (split; [done|]). split; [by constructor|]. split; [by left|]. by split. Qed.

(** Where the loop stands: what it leaves at its end, and before. *)
Lemma client_loop_spec (R : Session -> Prop) n : (forall s, in_order s -> R s -> wp (pass cfg) (fun _ s' => R s') s) ->
  forall s, in_order s -> R s -> wp (client_loop cfg n)
    (fun ended s' => if ended then exists s1, R s1 /\ in_order s1 /\ wp client_end (fun _ s2 => s2 = s') s1 else in_order s' /\ R s') s.
Proof.
  intros HR. induction n as [|n IH]; intros s Hs Rs; cbn [client_loop]; [by wp_step|]. do 3 wp_step. destruct (quitting _).
  - do 2 wp_step. unfold wp, result. cbn. exists s. split; [done|]. by split.
  - eapply wp_mono; [apply (wp_conj _ _ _ _ (pass_steady s s (steady_refl s Hs)) (HR s Hs Rs))|]. intros alive s1 [[H1 _] R1]. destruct alive; [by apply IH|].
    wp_step. unfold wp, result. cbn. exists s1. split; [done|]. by split.
Qed.
End Calm.

(** ** What is in the buffer *)

Section Buffer.
Context `{A0 : Accounts} `{W0 : World} (cfg : RtspConfig).

(** Nothing but the loop touches the buffer. *)
Definition aside {A} (m : ST Session A) : Prop := forall b, preserves (fun s => inbuf s = b) m.

Lemma aside_ret {A} (a : A) : aside (mret a).
Proof. by intros b s Hs. Qed.

Lemma aside_bind {A B} (m : ST Session A) (k : A -> ST Session B) : aside m -> (forall a, aside (k a)) -> aside (m ≫= k).
Proof. intros Hm Hk b s Hs. wp_step. eapply wp_mono; [by apply Hm|]. intros a s' Hs'. by apply Hk. Qed.

Lemma aside_gets {A} (f : Session -> A) : aside (gets f).
Proof. by intros b s Hs. Qed.

Lemma aside_modify (f : Session -> Session) : (forall s, inbuf (f s) = inbuf s) -> aside (modify f).
Proof. intros Hf b s Hs. wp_step. by rewrite Hf. Qed.

Lemma aside_when c (m : ST Session unit) : aside m -> aside (when c m).
Proof. intros Hm b s Hs. apply wp_when; intros _; [by apply Hm|done]. Qed.

Lemma aside_ask {A} (f : list Ev -> A) (ev : A -> Ev) : aside (ask f ev).
Proof. intros b s Hs. by apply wp_world. Qed.
End Buffer.

Create HintDb aside.

(** Computations are taken apart until nothing but requests of the world are left. *)
Ltac aside :=
  repeat first
    [ solve [auto with aside]
    | apply aside_ret | apply aside_gets | apply aside_ask
    | apply aside_modify; let s := fresh in intros s; repeat case_match; first [reflexivity | by destruct s]
    | apply aside_bind; [|intros]
    | apply aside_when
    | progress cbv zeta
    | match goal with |- aside (match ?x with _ => _ end) => destruct x end
    | match goal with |- aside (let '(_, _) := ?x in _) => destruct x end ].

Section Aside.
Context `{A0 : Accounts} `{W0 : World} (cfg : RtspConfig).

Lemma say_aside t : aside (say t).
Proof. unfold say. aside. Qed.
#[local] Hint Resolve say_aside : aside.

Lemma quick_aside cseq st : aside (quick cseq st).
Proof. unfold quick. aside. Qed.

Lemma reply_aside cseq st extra body : aside (reply cfg cseq st extra body).
Proof. unfold reply. aside. Qed.

Lemma note_aside ev : aside (note ev).
Proof. unfold note. aside. Qed.
#[local] Hint Resolve quick_aside reply_aside note_aside : aside.

Lemma gate_aside req cseq : aside (gate cfg req cseq).
Proof. unfold gate. aside. Qed.

Lemma params_loop_aside fuel : forall sps pps, aside (params_loop fuel sps pps).
Proof. induction fuel; intros; cbn [params_loop]; aside. Qed.
#[local] Hint Resolve gate_aside params_loop_aside : aside.

Lemma obtain_params_aside u : aside (obtain_params u).
Proof. unfold obtain_params. aside. Qed.
#[local] Hint Resolve obtain_params_aside : aside.

Lemma close_socket_aside p : aside (close_socket p).
Proof. unfold close_socket. destruct p; aside. Qed.
#[local] Hint Resolve close_socket_aside : aside.

Lemma setup_transport_aside p tr : aside (setup_transport p tr).
Proof. unfold setup_transport. destruct p; aside. Qed.
#[local] Hint Resolve setup_transport_aside : aside.

Lemma handle_request_aside req : aside (handle_request cfg req).
Proof. unfold handle_request, describe, set_up, play, play_video. aside. Qed.

Lemma client_end_aside : aside client_end.
Proof. unfold client_end. aside. Qed.

Lemma on_backchannel_aside p : aside (on_backchannel p).
Proof. unfold on_backchannel, skip. aside. Qed.
#[local] Hint Resolve on_backchannel_aside : aside.

Lemma pump_backchannel_aside k : aside (pump_backchannel_udp k).
Proof. induction k; cbn [pump_backchannel_udp]; unfold skip; aside. Qed.

Lemma send_rtp_aside p pt payload ts m : aside (send_rtp p pt payload ts m).
Proof. unfold send_rtp. destruct p; aside. Qed.
#[local] Hint Resolve send_rtp_aside : aside.

Lemma send_fragments_aside fuel n ts last : forall pos first, aside (send_fragments fuel n ts last pos first).
Proof. induction fuel; intros; cbn [send_fragments]; aside. Qed.
#[local] Hint Resolve send_fragments_aside : aside.

Lemma send_units_aside ts nals : aside (send_units nals ts).
Proof. induction nals; cbn [send_units]; unfold send_unit, keep_params; aside. Qed.

Lemma send_payloads_aside ts l : aside (send_payloads l ts).
Proof. induction l; cbn [send_payloads]; aside. Qed.

Lemma send_audio_aside fuel : forall pcma, aside (send_audio fuel pcma).
Proof. induction fuel; intros; cbn [send_audio]; aside. Qed.
#[local] Hint Resolve send_units_aside send_payloads_aside send_audio_aside : aside.

Lemma pump_audio_aside k : aside (pump_audio k).
Proof. induction k; cbn [pump_audio]; unfold send_frame; aside. Qed.

Lemma media_aside alive : aside pump_video /\ aside (pump_jpeg cfg alive) /\ aside (pump_backchannel_udp 16) /\ aside (pump_microphone alive).
Proof.
  pose proof pump_audio_aside as P. unfold pump_video, pump_jpeg, pump_microphone, send_au, send_jpeg, audio_ended.
  split; [|split; [|split; [apply pump_backchannel_aside|]]]; aside.
Qed.

(** The buffer begins with something that is not complete. *)
Definition unfinished (b : bytes) : Prop :=
  take_interleaved b = Partial \/ take_interleaved b = NotOne /\ find_text (CRLF ++ CRLF) (map chr b) = None.

Lemma frame_shorter b ch d rest : take_interleaved b = Frame ch d rest -> (length rest < length b)%nat.
Proof.
  unfold take_interleaved. destruct (_ || _); [done|]. destruct (Nat.ltb_spec (length b) 4) as [|E]; [done|]. destruct (_ <? _)%nat; [done|]. destruct (_ <? _)%nat; [done|].
  intros [= <- <- <-]. rewrite length_drop. lia.
Qed.

(** Enough fuel: what is left is not complete, and nothing was added. *)
Lemma drain_spec fuel : forall s, (length (inbuf s) < fuel)%nat ->
  wp (drain cfg fuel) (fun ok s' => (length (inbuf s') <= length (inbuf s))%nat /\ (ok = true -> unfinished (inbuf s'))) s.
Proof.
  induction fuel as [|fuel IH]; intros s Hf; [lia|]. cbn [drain]. do 2 wp_step. cbn [id]. destruct (take_interleaved (inbuf s)) as [| |ich idata rest|] eqn:T.
  - cbv zeta. destruct (find_text _ _) as [rend|] eqn:F; [|wp_step; split; [done|]; intros _; by right]. do 3 wp_step. eapply wp_mono; [by apply handle_request_aside|]. intros ok s1 H1.
    assert (N : inbuf s <> []) by (intros N; rewrite N in F; done).
    assert (L : (length (inbuf s1) < length (inbuf s))%nat). { rewrite H1. cbn [upd inbuf]. rewrite length_drop. destruct (inbuf s); [done|cbn; lia]. }
    destruct ok; cbn [negb]; [|wp_step; split; [lia|done]]. eapply wp_mono; [apply IH; lia|]. intros ok s2 [L2 U]. split; [lia|done].
  - wp_step. split; [done|]. intros _. by left.
  - apply frame_shorter in T. do 3 wp_step. assert (K : forall s1, inbuf s1 = rest -> wp (drain cfg fuel) (fun ok s' => (length (inbuf s') <= length (inbuf s))%nat /\ (ok = true -> unfinished (inbuf s'))) s1).
    { intros s1 E. eapply wp_mono; [apply IH; rewrite E; lia|]. rewrite E. intros ok s2 [L2 U]. split; [lia|done]. }
    apply wp_when; intros _; [|by apply K]. eapply wp_mono; [by apply (on_backchannel_aside _ rest)|]. intros [] s1 E. by apply K.
  - wp_step. split; [done|done].
Qed.

(** What is in the buffer between two passes. *)
Definition waits (s : Session) : Prop := unfinished (inbuf s) /\ (length (inbuf s) <= bound (inbuf s))%nat.

(** ... and at the end. *)
Definition holds_at_most (s : Session) : Prop := (length (inbuf s) <= MAX_RTSP_REQUEST + 2048)%nat.

Lemma bound_le b : (bound b <= MAX_RTSP_REQUEST)%nat.
Proof. unfold bound, kMaxInterleaved, MAX_RTSP_REQUEST. destruct (_ && _); lia. Qed.

Lemma waits_at_most s : waits s -> holds_at_most s.
Proof. intros [_ L]. pose proof (bound_le (inbuf s)). unfold holds_at_most. lia. Qed.

Lemma received_spec s : waits s -> wp (received cfg) (fun ok s' => holds_at_most s' /\ (ok = true -> waits s')) s.
Proof.
  intros Hw. pose proof (waits_at_most s Hw) as Hm. unfold received. wp_step. apply wp_world. destruct (polls _); [by wp_step..|]. wp_step. apply wp_world. destruct (recvs _) as [| | |d]; [by wp_step..|].
  do 4 wp_step. wp_step. eapply wp_mono; [apply drain_spec; cbn [id]; lia|]. cbn [upd inbuf id]. intros ok s1 [L U]. rewrite length_app, length_take in L. destruct Hw as [_ B]. pose proof (bound_le (inbuf s)).
  assert (M : holds_at_most s1) by (unfold holds_at_most; lia). destruct ok; cbn [negb]; [|by wp_step]. do 3 wp_step. split; [done|]. intros Hle%Nat.leb_le. split; [by apply U|done].
Qed.

Lemma pass_spec s : waits s -> wp (pass cfg) (fun ok s' => holds_at_most s' /\ (ok = true -> waits s')) s.
Proof.
  intros Hw. unfold pass. wp_step. eapply wp_mono; [by apply received_spec|]. intros [] s1 [M W]; cbn [negb]; [|by wp_step]. specialize (W eq_refl).
  assert (K : forall s', inbuf s' = inbuf s1 -> holds_at_most s' /\ waits s') by (intros s' E; unfold holds_at_most, waits; rewrite E; by split).
  do 2 wp_step. wp_step; [by wp_step|]. wp_step. eapply wp_mono; [by apply (proj1 (media_aside true) (inbuf s1))|]. intros [alive|] s2 E2; [|wp_step; by destruct (K s2 E2)].
  wp_step. eapply wp_mono; [by apply (proj1 (proj2 (media_aside alive)) (inbuf s1))|]. clear alive. intros alive s3 E3. do 3 wp_step.
  assert (L : forall s', inbuf s' = inbuf s1 -> wp (pump_microphone alive) (fun ok s' => holds_at_most s' /\ (ok = true -> waits s')) s').
  { intros s' E3'. eapply wp_mono; [by apply (proj2 (proj2 (proj2 (media_aside alive))) (inbuf s1))|]. intros ok s4 E4. by destruct (K s4 E4). }
  apply wp_when; intros _; [|by apply L]. eapply wp_mono; [by apply (pump_backchannel_aside 16 (inbuf s1))|]. intros [] s4 E4. by apply L.
Qed.

(** C39. The buffer of a client is bounded and never stalls.  However the bytes of a connection
    arrive, whatever else the loop does: after any number of passes that go on, what waits in
    the buffer is the beginning of one request or of one interleaved frame that is not yet
    complete, and it is within the limit for what it is; and at no end of a pass does the
    buffer hold more than the limit and what one read delivers. *)
Theorem input_is_bounded n ssrc now params :
  let s := exec (client_loop cfg n) (new_session ssrc now params) in
  holds_at_most s /\ (result (client_loop cfg n) (new_session ssrc now params) = false -> waits s).
Proof.
  assert (K : forall s, waits s -> wp (client_loop cfg n) (fun ended s' => holds_at_most s' /\ (ended = false -> waits s')) s).
  { induction n as [|k IH]; intros s Hw; cbn [client_loop]; [wp_step; split; [by apply waits_at_most|done]|]. do 3 wp_step.
    assert (E : forall s', holds_at_most s' -> wp (client_end ;; mret true) (fun ended s' => holds_at_most s' /\ (ended = false -> waits s')) s').
    { intros s' M. wp_step. eapply wp_mono; [apply (client_end_aside (inbuf s') s' eq_refl)|]. intros [] s1 E1. wp_step. unfold holds_at_most. rewrite E1. by split. }
    destruct (quitting _); [wp_step; by apply E, waits_at_most|]. eapply wp_mono; [by apply pass_spec|]. intros [] s1 [M W]; [by apply IH, W|by apply E]. }
  apply K. split; [by right|cbn; lia].
Qed.
End Aside.

(** C34. A session gives back what it took.  However many passes the loop of a client makes, with
    whatever requests, losses and refusals: while it runs, the streams it demands, its
    subscription, its microphone, its sockets and its place in the count of sessions are exactly
    those its state says it has; when it is at its end, whatever ended it, none is left.  All it
    asked for was the one stream it is bound to, and every packet fits the buffer it was put
    together in. *)
Theorem session_gives_back `{Accounts} `{World} (cfg : RtspConfig) n ssrc now params :
  (forall l d, snapshots l = Some d -> octets d) ->
  let m := client_loop cfg n in let s0 := new_session ssrc now params in let s := exec m s0 in
  (if result m s0 then
     held streams (log s) = 0 /\ held subscriptions (log s) = 0 /\ held microphones (log s) = 0 /\ held sockets (log s) = 0 /\ held counted (log s) = 0
   else
     held streams (log s) = Z.b2z (demand s) /\ held subscriptions (log s) = Z.b2z (sink s) /\ held microphones (log s) = Z.b2z (a_sink s)
     /\ held sockets (log s) = sockets_of s /\ held counted (log s) = Z.b2z (playing s))
  /\ exists u, Forall (about u) (log s).
Proof.
  intros Ho. cbv zeta. pose proof (client_loop_spec cfg Ho (fun _ => True) n (fun s _ _ => I) _ (new_session_in_order ssrc now params) I) as P. unfold wp in P.
  destruct (result _ _).
  - destruct P as (s1 & _ & H1 & E). pose proof (client_end_spec s1 H1) as C. unfold wp in C, E. rewrite <- E. destruct C as (C1 & C2 & C3 & C4 & C5 & C6). split; [done|]. by exists (unit_ s1).
  - destruct P as [[N1 N2 N3 N4 C] _]. destruct C as (_ & _ & _ & _ & _ & C6 & _ & _ & C9). rewrite !Z.add_0_r in *. split; [done|]. by eexists.
Qed.

(** ** A whole session *)

#[local] Existing Instance root_only.

Definition credentials : text := txt "Authorization: Basic cm9vdDpwdw==" ++ CRLF.
Definition viewer : list text :=
  [asks "DESCRIBE rtsp://h/ch0" []; take 20 (asks "DESCRIBE rtsp://h/ch0" credentials); drop 20 (asks "DESCRIBE rtsp://h/ch0" credentials);
   asks "SETUP rtsp://h/ch0/trackID=0" (credentials ++ txt "Transport: RTP/AVP/TCP;unicast;interleaved=0-1" ++ CRLF);
   asks "SETUP rtsp://h/ch0/trackID=1" (credentials ++ txt "Transport: RTP/AVP;unicast;client_port=5004-5005" ++ CRLF);
   asks "PLAY rtsp://h/ch0" credentials; asks "GET_PARAMETER rtsp://h/ch0" []; asks "TEARDOWN rtsp://h/ch0" []].

Definition viewing (n : nat) : ST Session bool := @client_loop _ (scripted viewer) camera n.

(** After the PLAY a stream, a subscription, the microphone and a socket are held, and the picture is out. *)
Example viewer_plays :
  let s := exec (viewing 7) fresh in
  (playing s, held streams (log s), held subscriptions (log s), held microphones (log s), held sockets (log s), held counted (log s)) = (true, 1, 1, 1, 1, 1)
  /\ length (List.filter (fun ev => match ev with Wire _ _ => true | _ => false end) (log s)) = 6%nat.
Proof. by vm_compute. Qed.

Lemma viewer_ends : result (viewing 9) fresh = true.
Proof. by vm_compute. Qed.

Lemma session_gives_back_witness : let s := exec (viewing 9) fresh in
  held streams (log s) = 0 /\ held sockets (log s) = 0 /\ exists u, Forall (about u) (log s).
Proof.
  pose proof (@session_gives_back _ (scripted viewer) camera 9 1 0 (fun _ => ([], [])) ltac:(done)) as [T U]. pose proof viewer_ends as R. unfold viewing, fresh in *.
  rewrite R in T. destruct T as (T1 & _ & _ & T4 & _). split; [exact T1|]. split; [exact T4|exact U].
Defined.
