(* ===== verification/RtspMedia.v ===== *)
(** * The picture on an RTSP connection

    What [send_au] of [app/rtsp/rtsp_server.cpp] puts on the connection, and what the other
    side makes of it: the frames of RFC 2326 10.12, the packets in them, and the units RFC 6184
    puts together of those. *)

From S2P Require Import Prelude Text Bytes H264 Packetize Rtp HtmlInject RtpJpeg RtspGate RtspSession RtspClient.

(** ** The other side *)

(** The bytes of a piece of the log, in the order they went out. *)
Definition on_wire (l : list Ev) : bytes := concat (map (fun ev => match ev with Wire p _ => p | Send t _ => octets_of t | _ => [] end) (rev l)).

(** The frames of a stream of bytes; what is left when no more come. *)
Fixpoint take_frames (fuel : nat) (b : bytes) : list (Z * bytes) * bytes :=
  match fuel with
  | O => ([], b)
  | S fuel => match take_interleaved b with
              | Frame ch d rest => let '(l, rest) := take_frames fuel rest in ((ch, d) :: l, rest)
              | _ => ([], b)
              end
  end.

Definition frames_in (b : bytes) : list (Z * bytes) * bytes := take_frames (length b) b.

Lemma frames_of_packets ch pkts : forall fuel, (length pkts <= fuel)%nat -> Forall (fun p => (length p <= kMaxInterleaved)%nat) pkts ->
  take_frames fuel (concat (map (interleave ch) pkts)) = (map (pair ch) pkts, []).
Proof.
  induction pkts as [|p pkts IH]; intros fuel Hf Hp. { destruct fuel; [done|]. done. }
  destruct fuel as [|fuel]; [cbn in Hf; lia|]. apply Forall_cons in Hp as [H1 Hp]. cbn [map concat take_frames]. unfold interleave at 1. rewrite <- !app_assoc.
  rewrite take_interleaved_frame by (unfold kMaxInterleaved in *; lia). rewrite IH; [done|cbn in Hf; lia|done].
Qed.

(** The header of each stamped packet. *)
Lemma stamped_header (p : RtpParams) (t : Z) (l : list (bool * bytes)) sq k pkt :
  word 7 (payload_type p) -> word 32 (p_ssrc p) -> word 32 t -> word 16 sq -> map fst l = markers (length l) true -> stamp p t sq l !! k = Some pkt ->
  exists h, parse pkt = Some (Some h) /\ pt h = payload_type p /\ ssrc h = p_ssrc p /\ ts h = t /\ seqno h = advance sq k /\ marker h = (S k =? length l)%nat.
Proof.
  intros Hp Hss Hts Hs Hm Hk. rewrite stamp_lookup in Hk by done. destruct (l !! k) as [[m pl]|] eqn:El; [|done].
  change (Some (Packetize.header p (advance sq k) t m ++ pl) = Some pkt) in Hk. apply (inj Some) in Hk as <-. unfold Packetize.header. rewrite parse_written by (done || apply word_advance).
  eexists. split; [done|]. cbn. repeat (split; [done|]).
  assert (Em : map fst l !! k = Some m) by (change (map fst l) with (fst <$> l); by rewrite list_lookup_fmap, El).
  rewrite Hm in Em. pose proof (lookup_lt_Some _ _ _ El). by apply marker_at in Em as ->.
Qed.

Lemma sendable_plain ns : forallb sendable ns = true -> forallb plain_nal ns = true.
Proof. rewrite !forallb_forall. intros H n Hin. specialize (H n Hin). unfold sendable in H. rewrite !andb_true_iff in H. tauto. Qed.

Section Video.
Context `{W0 : World} (s0 : Session).
Hypothesis all_sent : forall l p, wires l p = true.
Hypothesis on_tcp : tcp (video s0) = true.
Hypothesis seq0 : word 16 (seq (video s0)).

Definition stream_of : RtpParams := {| payload_type := 96; p_ssrc := t_ssrc (video s0); max_payload := RTP_MTU |}.
Definition channel : Z := u8 (rtp_ch (video s0)).

Lemma mtu_ok : (3 <= max_payload stream_of)%nat.
Proof. cbn [max_payload stream_of]. unfold RTP_MTU. lia. Qed.

(** The payloads [l] went out, and nothing else. *)
Definition went_out (ts : Z) (l : list (bool * bytes)) (s : Session) : Prop :=
  video s = video s0 <| seq := advance (seq (video s0)) (length l) |>
  /\ log s = rev (map (fun p => Wire (interleave channel p) true) (stamp stream_of ts (seq (video s0)) l)) ++ log s0.

Lemma went_out_nothing ts s : video s = video s0 -> log s = log s0 -> went_out ts [] s.
Proof. intros E1 E2. unfold went_out. rewrite E1, E2. split; [|done]. cbn [length]. rewrite advance_0 by done. by destruct (video s0). Qed.

Lemma send_rtp_out ts l pl m s : (length pl <= RTP_MTU)%nat -> went_out ts l s ->
  wp (send_rtp Video 96 pl ts m) (fun ok s' => ok = true /\ went_out ts (l ++ [(m, pl)]) s') s.
Proof.
  intros Hl [V L]. unfold send_rtp. do 3 wp_step. cbn [id track]. cbv zeta. wp_step. rewrite V. cbn [upd tcp]. rewrite on_tcp. apply wp_world. rewrite all_sent. split; [done|]. split.
  - cbn [upd on_track video]. rewrite V, length_app. cbn [upd length seq]. rewrite advance_1, advance_add. done.
  - cbn [upd on_track log video]. rewrite L, stamp_app, map_app, rev_app_distr by done. cbn [stamp map rev app rtp_ch seq t_ssrc]. f_equal.
Qed.

(** What of a unit goes out: its payloads, none too long, the marker on the last of them, and
    the unit for a receiver that is between two units. *)
Lemma unit_type_small x : 0 <= Z.land x 31 < 2 ^ 8.
Proof. change 31 with (Z.ones 5). rewrite Z.land_ones by lia. pose proof (Z.mod_pos_bound x (2 ^ 5)). lia. Qed.

Record unit_out (n : bytes) (last : bool) (l : list (bool * bytes)) : Prop := {
  u_fit : Forall (fun pl => length pl <= RTP_MTU)%nat (map snd l);
  u_marks : map fst l = markers (length l) last;
  u_some : l <> [];
  u_back : forall us, fold_left Packetize.receive (map snd l) {| partial := None; units := us |} = {| partial := None; units := us ++ [n] |}
}.

Lemma send_fragments_out n ts last fuel : sendable n = true -> forall pos part s l0, (1 <= pos < length n)%nat -> (length n - pos <= fuel)%nat ->
  pos = 1%nat \/ part = Some (take pos n) -> went_out ts l0 s ->
  wp (send_fragments fuel n ts last pos (pos =? 1)%nat) (fun ok s' => ok = true /\ exists l, went_out ts (l0 ++ l) s'
    /\ Forall (fun pl => length pl <= RTP_MTU)%nat (map snd l) /\ map fst l = markers (length l) last /\ l <> []
    /\ forall us, fold_left Packetize.receive (map snd l) {| partial := part; units := us |} = {| partial := None; units := us ++ [n] |}) s.
Proof.
  intros Hn. induction fuel as [|fuel IH]; intros pos part s l0 Hp Hf Hpart Hs; [lia|]. cbn [send_fragments]. destruct (Nat.ltb_spec pos (length n)); [|lia]. cbv zeta.
  set (k := Nat.min (length n - pos) (RTP_MTU - 2)). assert (Hk : (1 <= k <= length n - pos)%nat /\ (k <= RTP_MTU - 2)%nat) by (subst k; unfold RTP_MTU; lia). clearbody k.
  set (pl := _ ++ take k (drop pos n)). assert (L : (length pl <= RTP_MTU)%nat) by (subst pl; cbn [app length]; rewrite length_take; unfold RTP_MTU in *; lia).
  assert (R : forall us, Packetize.receive {| partial := part; units := us |} pl
    = if (pos + k =? length n)%nat then {| partial := None; units := us ++ [take (pos + k) n] |} else {| partial := Some (take (pos + k) n); units := us |}).
  { intros us. rewrite <- (receive_fragment stream_of n mtu_ok Hn pos k (pos + k =? length n)%nat part us) by (done || lia). subst pl. by rewrite (wrap_small 8 (Z.land (octet_at n 0) 31)) by apply unit_type_small. }
  wp_step. eapply wp_mono; [by apply send_rtp_out|]. intros ok s1 [-> H1]. cbn [negb].
  destruct (Nat.eqb_spec (pos + k) (length n)) as [E|E].
  - destruct fuel as [|fuel]; cbn [send_fragments]; [|destruct (Nat.ltb_spec (pos + k) (length n)); [lia|]]; wp_step; (split; [done|]); eexists; (split; [exact H1|]);
      rewrite andb_true_r; (split; [constructor; [exact L|constructor]|]); (split; [done|]); (split; [done|]); intros us; cbn [map snd fold_left]; rewrite R, E, firstn_all; done.
  - rewrite andb_false_r in H1. replace false with (pos + k =? 1)%nat by (apply Nat.eqb_neq; lia). eapply wp_mono; [apply (IH (pos + k)%nat (Some (take (pos + k) n))); [lia|lia|by right|exact H1]|].
    intros ok s2 (-> & l & H2 & F & M & N & B). split; [done|]. exists ((false, pl) :: l). split; [change ((false, pl) :: l) with ([(false, pl)] ++ l); by rewrite app_assoc|]. cbn [map fst snd length]. split; [by constructor|]. split; [rewrite M; by destruct l|]. split; [done|].
    intros us. cbn [fold_left]. rewrite R. apply B.
Qed.

Lemma send_unit_out n ts last s l0 : sendable n = true -> went_out ts l0 s ->
  wp (send_unit (nal_of n) ts last) (fun ok s' => ok = true /\ exists l, went_out ts (l0 ++ l) s' /\ unit_out n last l) s.
Proof.
  intros Hn Hs. unfold send_unit. wp_step.
  assert (K : forall s, went_out ts l0 s -> wp (if (length (nal_p (nal_of n)) <=? RTP_MTU)%nat then send_rtp Video 96 (nal_p (nal_of n)) ts last
    else send_fragments (length (nal_p (nal_of n))) (nal_p (nal_of n)) ts last 1 true) (fun ok s' => ok = true /\ exists l, went_out ts (l0 ++ l) s' /\ unit_out n last l) s).
  { intros s1 H1. cbn [nal_of nal_p]. destruct (Nat.leb_spec (length n) RTP_MTU) as [L|L].
    - eapply wp_mono; [by apply send_rtp_out|]. intros ok s2 [-> H2]. split; [done|]. eexists. split; [exact H2|]. constructor; [constructor; [exact L|constructor]|done|done|].
      intros us. cbn [map snd fold_left]. unfold Packetize.receive. unfold sendable in Hn. rewrite !andb_true_iff in Hn. destruct Hn as [[[_ _] Ht%Z.ltb_lt] _]. rewrite (proj2 (Z.eqb_neq _ 28)) by lia. done.
    - eapply wp_mono; [apply (send_fragments_out n ts last (length n) Hn 1 None s1 l0); [unfold RTP_MTU in L; lia|lia|by left|done]|]. intros ok s2 (-> & l & H2 & F & M & N & B). split; [done|]. exists l. split; [done|]. by constructor. }
  apply wp_when; intros _; [|by apply K]. unfold keep_params. wp_step. apply K. destruct Hs as [V L]. by split.
Qed.

Lemma send_units_out ts ns : forall s l0, forallb sendable ns = true -> went_out ts l0 s ->
  wp (send_units (map nal_of ns) ts) (fun ok s' => ok = true /\ exists l, went_out ts (l0 ++ l) s'
    /\ Forall (fun pl => length pl <= RTP_MTU)%nat (map snd l) /\ map fst l = markers (length l) true /\ (l = [] <-> ns = [])
    /\ forall us, fold_left Packetize.receive (map snd l) {| partial := None; units := us |} = {| partial := None; units := us ++ ns |}) s.
Proof.
  induction ns as [|n ns IH]; intros s l0 Hn Hs; cbn [map send_units].
  { wp_step. split; [done|]. exists []. rewrite app_nil_r. split; [done|]. split; [constructor|]. split; [done|]. split; [done|]. intros us. by rewrite app_nil_r. }
  cbn [forallb] in Hn. apply andb_true_iff in Hn as [H1 Hn]. wp_step. eapply wp_mono; [by apply send_unit_out|]. intros ok s1 (-> & l1 & O1 & [F1 M1 N1 B1]). cbn [negb].
  eapply wp_mono; [by apply IH|]. intros ok s2 (-> & l2 & O2 & F2 & M2 & N2 & B2). split; [done|]. exists (l1 ++ l2). rewrite app_assoc. split; [done|]. rewrite !map_app, length_app.
  split; [by apply Forall_app|]. split; [|split].
  - rewrite M1, M2. destruct ns as [|n' ns]; cbn [map]; [rewrite (proj2 N2 eq_refl); cbn [length markers]; by rewrite app_nil_r, Nat.add_0_r|].
    destruct l2 as [|x l2]; [by pose proof (proj1 N2 eq_refl)|]. cbn [length]. by rewrite <- markers_false_app.
  - split; [|done]. intros E. by apply app_eq_nil in E as [E _].
  - intros us. rewrite fold_left_app, B1, B2. by rewrite <- app_assoc.
Qed.

(** The bytes that went out are the frames of the packets. *)
Lemma wire_of_packets pkts : on_wire (rev (map (fun p => Wire (interleave channel p) true) pkts)) = concat (map (interleave channel) pkts).
Proof. unfold on_wire. rewrite rev_involutive, map_map. done. Qed.

Lemma packets_fit ts l : Forall (fun pl => length pl <= RTP_MTU)%nat (map snd l) -> forall sq, Forall (fun p => (length p <= kMaxInterleaved)%nat) (stamp stream_of ts sq l).
Proof.
  induction l as [|[m pl] l IH]; intros H sq; [constructor|]. cbn [map snd] in H. apply Forall_cons in H as [H1 H]. cbn [stamp]. constructor; [|by apply IH].
  rewrite length_app. change (length (Packetize.header stream_of sq ts m)) with 12%nat. unfold RTP_MTU, kMaxInterleaved in *. lia.
Qed.

Lemma frames_count pkts : (length pkts <= length (concat (map (interleave channel) pkts)))%nat.
Proof. induction pkts as [|p pkts IH]; [done|]. cbn [map concat]. rewrite length_app. unfold interleave at 1. cbn [app length]. lia. Qed.
End Video.

(** C37. The picture arrives at an RTSP client.  An access unit of up to 32 units, on an
    interleaved session whose connection takes what is sent: what went out is, to the last byte,
    frames of the session's channel, and what is in them is RTP of the session's source with
    consecutive numbers, one time stamp, and the marker on the last packet alone; put together
    again, they are the units of the access unit. *)
Theorem video_arrives `{World} (au : Popped) (units : list (nat * bytes)) (s : Session) :
  (forall l p, wires l p = true) -> tcp (video s) = true -> word 16 (seq (video s)) -> word 32 (t_ssrc (video s)) ->
  data au = annexb units -> forallb sendable (map snd units) = true -> (length units <= 32)%nat ->
  let s' := exec (send_au au) s in
  result (send_au au) s = true /\ exists new pkts, log s' = new ++ log s
  /\ frames_in (on_wire new) = (map (pair (u8 (rtp_ch (video s)))) pkts, [])
  /\ depacketize pkts = map snd units
  /\ seq (video s') = advance (seq (video s)) (length pkts)
  /\ exists ts', forall k pkt, pkts !! k = Some pkt -> exists h, parse pkt = Some (Some h) /\ pt h = 96 /\ ssrc h = t_ssrc (video s) /\ ts h = ts'
       /\ seqno h = advance (seq (video s)) k /\ marker h = (S k =? length pkts)%nat.
Proof.
  intros Hw Ht Hs Hc Hd Hn Hl. cbv zeta.
  enough (W : wp (send_au au) (fun ok s' => ok = true /\ exists ts l, word 32 ts /\ went_out s ts l s' /\ Forall (fun pl => length pl <= RTP_MTU)%nat (map snd l) /\ map fst l = markers (length l) true
    /\ forall us, fold_left Packetize.receive (map snd l) {| partial := None; units := us |} = {| partial := None; units := us ++ map snd units |}) s).
  { destruct W as (R & ts0 & l & Wt & [V L] & F & M & B). split; [exact R|]. set (pkts := stamp (stream_of s) ts0 (seq (video s)) l) in *.
    exists (rev (map (fun p => Wire (interleave (channel s) p) true) pkts)), pkts. split; [exact L|]. rewrite wire_of_packets. assert (N : length pkts = length l) by apply length_stamp.
    split; [apply frames_of_packets; [apply frames_count|by apply packets_fit]|]. split; [|split].
    - unfold depacketize, pkts. rewrite payloads_stamped, B by done. done.
    - by rewrite V, N.
    - exists ts0. intros k pkt Hk. rewrite N. by apply (stamped_header (stream_of s) ts0 l). }
  unfold send_au. do 4 wp_step. cbn [id]. set (s1 := if pts0_us s <? 0 then _ else s). rewrite Hd, split_annexb by (by apply sendable_plain). rewrite take_ge by (rewrite !length_map; lia).
  eapply wp_mono; [apply (send_units_out s Hw Ht Hs _ (map snd units) s1 []); [done|]|].
  - apply went_out_nothing; [done|by subst s1; destruct (pts0_us s <? 0)..].
  - intros ok s2 (-> & l & O & F & M & _ & B). split; [done|]. eexists _, l. split; [by apply word_wrap|]. by split.
Qed.

(** Two parameter sets and a picture that takes two packets. *)
Definition sample_units : list (nat * bytes) := [(1%nat, [0x67; 0x42; 0xc0; 0x1e]); (1%nat, [0x68; 0xce; 0x3c; 0x80; 1]); (0%nat, 0x65 :: repeat 7 1500)].
Definition sample_au : Popped := {| key := true; data := annexb sample_units; pts_us := 40000; discontinuity := false |}.

Lemma video_arrives_witness :
  let s' := exec (@send_au (scripted []) sample_au) fresh in
  exists new pkts, log s' = new ++ log fresh /\ frames_in (on_wire new) = (map (pair 0) pkts, []) /\ depacketize pkts = map snd sample_units.
Proof.
  assert (Hc : word 32 (t_ssrc (video fresh)) /\ word 16 (seq (video fresh))) by (split; split; by vm_compute). destruct Hc as [Hc Hs]. assert (Hn : forallb sendable (map snd sample_units) = true) by by vm_compute.
  assert (Hl : (length sample_units <= 32)%nat) by (apply Nat.leb_le; by vm_compute).
  pose proof (@video_arrives (scripted []) sample_au sample_units fresh (fun _ _ => eq_refl) eq_refl Hs Hc eq_refl Hn Hl) as T. destruct T as (_ & new & pkts & L & F & D & _).
  exists new, pkts. split; [exact L|]. split; [exact F|exact D].
Defined.

(** The numbers wrap inside it. *)
Example numbers_wrap :
  let s := fresh <| video ::= fun t => t <| seq := 65534 |> |> in
  map (fun f => (f.1, rd16 f.2 2, length f.2)) (frames_in (on_wire (log (exec (@send_au (scripted []) sample_au) s)))).1
  = [(0, 65534, 16%nat); (0, 65535, 17%nat); (0, 0, 1412%nat); (0, 1, 116%nat)].
Proof. by vm_compute. Qed.
