(* ===== verification/RtspListener.v ===== *)
(** * The listener of the RTSP server

    [app/rtsp/rtsp_server.cpp]: [start], [stop], [set_enabled], [set_port] and the accept
    loop, which is the interface of [ports/rtsp_control.hpp]; and [send_all].  The calls of
    [lifecycle_m_] are computations, and so is a round of the accept loop and the end of a
    client thread: a history is any list of them.  What [socket], [bind] and [accept] say
    comes from the class [Net], which sees everything done so far. *)

From stdpp Require Import gmap.
From S2P Require Import Prelude Text CoreTypes Tuning HtmlInject RtspGate RtspSession.

(** ** State *)

Inductive LEv :=
| Opened (r : option Z)                    (* socket *)
| Bound (fd port : Z) (ok : bool)          (* bind and listen *)
| Accepted (r : option Z)
| Refused (fd : Z) (answer : text)
| Hung_up (fd : Z)                         (* shutdown *)
| Closed_fd (fd : Z)
| Spawned (fd : Z) | Joined (fd : Z).

(** A client thread: its descriptor until it has closed it; the number it was started with. *)
Record Client := { fd_ : option Z; started : Z; done_ : bool }.

Record Listener := { enabled : bool; port_ : Z; listen_fd : option Z; quit_ : bool; acceptor : bool; clients : list Client; trail : list LEv }.

#[export] Instance Listener_settable : Settable Listener :=
  fun s => Build_Listener (enabled s) (port_ s) (listen_fd s) (quit_ s) (acceptor s) (clients s) (trail s).

Class Net := {
  socket : list LEv -> option Z;
  binds_to : list LEv -> Z -> Z -> bool;
  accepts : list LEv -> option Z;
  first_bytes : list LEv -> text           (* what a refused client has said by then *)
}.

Section Listening.
Context `{Net} (max_clients : Z).

Definition act (ev : LEv) : ST Listener unit := modify (fun s => s <| trail ::= cons ev |>).

(** [None] is -1. *)
Definition bind_listener (port : Z) : ST Listener (option Z) :=
  s ← gets id;
  let r := socket (trail s) in
  act (Opened r) ;;
  match r with
  | None => mret None
  | Some fd =>
      s ← gets id;
      let ok := binds_to (trail s) fd port in
      act (Bound fd port ok) ;;
      if ok then mret (Some fd) else act (Closed_fd fd) ;; mret None
  end.

Definition adopt_listener (fd : Z) : ST Listener unit :=
  modify (fun s => s <| listen_fd := Some fd |> <| quit_ := false |> <| acceptor := true |>).

Definition open_listener (port : Z) : ST Listener bool :=
  fd ← bind_listener port;
  match fd with
  | None => mret false
  | Some fd => adopt_listener fd ;; mret true
  end.

(** What a client thread does at its end, and how it is waited for. *)
Definition end_client (c : Client) : ST Listener unit :=
  match fd_ c with Some fd => act (Closed_fd fd) | None => skip end.

Definition join (c : Client) : ST Listener unit := end_client c ;; act (Joined (started c)).

Definition hang_up_client (c : Client) : ST Listener unit := match fd_ c with Some fd => act (Hung_up fd) | None => skip end.

(** With [quit_] set every thread comes to its end. *)
Definition close_listener : ST Listener unit :=
  s ← gets id;
  match listen_fd s with
  | None => skip
  | Some fd =>
      modify (fun s => s <| quit_ := true |>) ;;
      act (Hung_up fd) ;; act (Closed_fd fd) ;;
      modify (fun s => s <| listen_fd := None |> <| acceptor := false |>) ;;
      s ← gets id;
      modify (fun s => s <| clients := [] |>) ;;
      for_each (clients s) hang_up_client ;;
      for_each (clients s) join
  end.

Definition start : ST Listener bool :=
  s ← gets id;
  if negb (enabled s) then mret true else open_listener (port_ s).

Definition stop : ST Listener unit :=
  s ← gets id;
  match listen_fd s with None => skip | Some _ => close_listener end.

Definition one_if (b : bool) : Z := if b then 1 else 0.
Definition listening (s : Listener) : bool := match listen_fd s with Some _ => true | None => false end.

Definition cannot_bind (port : Z) : string := ("cannot bind port " ++ String.string_of_list_ascii (print_int port))%string.

Definition set_enabled (on : bool) : ST Listener ApplyResult :=
  s ← gets id;
  if Bool.eqb on (enabled s) && Bool.eqb on (listening s) then
    mret (was_applied Live (one_if on) (one_if on) (if on then "already listening" else "already disabled"))
  else if negb on then
    close_listener ;;
    modify (fun s => s <| enabled := false |>) ;;
    mret (was_applied Live 0 0 "listener closed; sessions ended")
  else
    r ← open_listener (port_ s);
    if negb r then mret (rejected Live 1 (cannot_bind (port_ s))) else
    modify (fun s => s <| enabled := true |>) ;;
    mret (was_applied Live 1 1 "listener bound").

Definition set_port (port : Z) : ST Listener ApplyResult :=
  if (port <? 1) || (65535 <? port) then mret (rejected Live port "port must be in 1..65535") else
  s ← gets id;
  if port =? port_ s then mret (was_applied Live port port "unchanged")
  else if negb (enabled s) || negb (listening s) then
    modify (fun s => s <| port_ := port |>) ;;
    mret (was_applied Live port port "stored; rtsp is disabled")
  else
    let old_port := port_ s in
    fd ← bind_listener port;
    match fd with
    | None => mret (rejected Live port (cannot_bind port ++ "; kept " ++ String.string_of_list_ascii (print_int old_port))%string)
    | Some fd =>
        close_listener ;;
        adopt_listener fd ;;
        modify (fun s => s <| port_ := port |>) ;;
        mret (was_applied Live port port "re-bound")
    end.

(** ** Connections *)

(** The finished threads are joined and dropped. *)
Definition reap_finished : ST Listener unit :=
  s ← gets id;
  modify (fun s => s <| clients ::= List.filter (fun c => negb (done_ c)) |>) ;;
  for_each (List.filter done_ (clients s)) join.

Definition not_enough_bandwidth (said : text) : text :=
  let cseq := match header said "CSeq" with [] => txt "0" | c => c end in
  txt "RTSP/1.0 453 Not Enough Bandwidth" ++ CRLF ++ txt "CSeq: " ++ cseq ++ CRLF ++ CRLF.

Definition refuse (fd : Z) : ST Listener unit :=
  s ← gets id;
  act (Refused fd (not_enough_bandwidth (first_bytes (trail s)))) ;; act (Closed_fd fd).

(** One round of [accept_loop]. *)
Definition accept_round : ST Listener unit :=
  s ← gets id;
  when (acceptor s && negb (quit_ s)) (
    reap_finished ;;
    s ← gets id;
    let r := accepts (trail s) in
    act (Accepted r) ;;
    match r with
    | None => skip
    | Some fd =>
        s ← gets id;
        if max_clients <=? Z.of_nat (length (clients s)) then refuse fd
        else act (Spawned fd) ;; modify (fun s => s <| clients ::= fun l => l ++ [{| fd_ := Some fd; started := fd; done_ := false |}] |>)
    end).

(** The [i]-th thread comes to its end by itself. *)
Definition client_done (i : nat) : ST Listener unit :=
  s ← gets id;
  match clients s !! i with
  | None => skip
  | Some c =>
      end_client c ;;
      modify (fun s => s <| clients ::= <[i := {| fd_ := None; started := started c; done_ := true |}]> |>)
  end.

Inductive LOp := Stop | SetEnabled (on : bool) | SetPort (port : Z) | AcceptRound | ClientDone (i : nat).

Definition do_op (op : LOp) : ST Listener unit :=
  match op with
  | Stop => stop
  | SetEnabled on => set_enabled on ;; skip
  | SetPort port => set_port port ;; skip
  | AcceptRound => accept_round
  | ClientDone i => client_done i
  end.

(** [start] is called once, by the daemon. *)
Definition history (ops : list LOp) : ST Listener unit := start ;; for_each ops do_op.

Definition new_listener (on : bool) (port : Z) : Listener :=
  {| enabled := on; port_ := port; listen_fd := None; quit_ := false; acceptor := false; clients := []; trail := [] |}.
End Listening.

(** The members of an updated listener. *)
Ltac open_members := cbn [upd id enabled port_ listen_fd quit_ acceptor clients trail] in *.

(** ** What is open *)

(** The descriptors the log has open. *)
Fixpoint open_fds (l : list LEv) : gset Z :=
  match l with
  | [] => ∅
  | (Opened (Some fd) | Accepted (Some fd)) :: l => {[fd]} ∪ open_fds l
  | Closed_fd fd :: l => open_fds l ∖ {[fd]}
  | _ :: l => open_fds l
  end.

(** Nothing is closed that is not open. *)
Fixpoint sound (l : list LEv) : Prop :=
  match l with
  | [] => True
  | Closed_fd fd :: l => fd ∈ open_fds l /\ sound l
  | _ :: l => sound l
  end.

Fixpoint threads (l : list LEv) : Z :=
  match l with [] => 0 | Spawned _ :: l => threads l + 1 | Joined _ :: l => threads l - 1 | _ :: l => threads l end.

(** The port a descriptor was bound to last. *)
Fixpoint bound_to (fd : Z) (l : list LEv) : option Z :=
  match l with
  | [] => None
  | Bound f p true :: l => if f =? fd then Some p else bound_to fd l
  | _ :: l => bound_to fd l
  end.

Definition client_fds (l : list Client) : list Z := omap fd_ l.
Definition fds (s : Listener) : list Z := option_list (listen_fd s) ++ client_fds (clients s).

(** The descriptors of a listener are those open, but for [ex]; its threads those running, but for [m]. *)
Record tidy (ex : list Z) (m : Z) (s : Listener) : Prop := {
  t_open : open_fds (trail s) = list_to_set (fds s ++ ex);
  t_nodup : NoDup (fds s ++ ex);
  t_sound : sound (trail s);
  t_threads : threads (trail s) = Z.of_nat (length (clients s)) + m
}.

Section Tidy.
Context `{N0 : Net} (max_clients : Z).
Context (fresh_socket : forall l fd, socket l = Some fd -> fd ∉ open_fds l) (fresh_accept : forall l fd, accepts l = Some fd -> fd ∉ open_fds l).

Lemma tidy_event ev ex m s : tidy ex m s -> open_fds (ev :: trail s) = open_fds (trail s) -> (sound (trail s) -> sound (ev :: trail s)) -> threads (ev :: trail s) = threads (trail s) -> tidy ex m (s <| trail ::= cons ev |>).
Proof. intros [O N S T] E1 E2 E3. constructor; open_members; try done. - by rewrite E1. - by apply E2. - by rewrite E3. Qed.

(** An event that opens and closes nothing. *)
Ltac apply_quiet := apply tidy_event; [assumption|reflexivity|tauto|reflexivity].

Lemma tidy_closed fd ex m s : tidy (fd :: ex) m s -> tidy ex m (s <| trail ::= cons (Closed_fd fd) |>).
Proof.
  intros [O N S T]. pose proof N as (N1 & N2 & N3)%NoDup_app. apply NoDup_cons in N3 as [N3 N4].
  constructor; open_members; try done.
  - cbn [open_fds]. rewrite O. change (fds (s <| trail ::= cons (Closed_fd fd) |>)) with (fds s). rewrite !list_to_set_app_L. cbn [list_to_set].
    assert (X : fd ∉ (list_to_set (fds s) : gset Z)) by (intros X%elem_of_list_to_set; by apply (N2 fd X), list_elem_of_here).
    assert (Y : fd ∉ (list_to_set ex : gset Z)) by (by rewrite elem_of_list_to_set). set_solver.
  - change (NoDup (fds s ++ ex)). apply NoDup_app. split; [done|]. split; [|done]. intros x Hx Hex. apply (N2 x Hx). by right.
  - cbn [sound]. split; [|done]. rewrite O. rewrite elem_of_list_to_set. apply elem_of_app. right. by left.
Qed.

(** Everything but the log. *)
Definition members (s : Listener) := (enabled s, port_ s, listen_fd s, quit_ s, acceptor s, clients s).

(** Only ends were added to the log. *)
Definition wound_down (s s' : Listener) : Prop := members s' = members s /\ forall f, bound_to f (trail s') = bound_to f (trail s).

Lemma wound_down_event ev s0 s : (forall f l, bound_to f (ev :: l) = bound_to f l) -> wound_down s0 s -> wound_down s0 (s <| trail ::= cons ev |>).
Proof. intros E [M B]. split; [done|]. intros f. change (bound_to f (ev :: trail s) = bound_to f (trail s0)). by rewrite E. Qed.

Lemma end_client_tidy c ex m s0 s : tidy (client_fds [c] ++ ex) m s -> wound_down s0 s -> wp (end_client c) (fun _ s' => tidy ex m s' /\ wound_down s0 s') s.
Proof.
  intros T W. unfold end_client, client_fds in *. cbn [omap list_omap] in T. destruct (fd_ c) as [fd|]; [|by wp_step].
  unfold act. wp_step. split; [by apply tidy_closed|by apply wound_down_event].
Qed.

Lemma client_fds_cons c l : client_fds (c :: l) = client_fds [c] ++ client_fds l.
Proof. unfold client_fds. cbn [omap list_omap]. by destruct (fd_ c). Qed.

Lemma joins_tidy l ex s0 : forall m s, tidy (client_fds l ++ ex) (Z.of_nat (length l) + m) s -> wound_down s0 s -> wp (for_each l join) (fun _ s' => tidy ex m s' /\ wound_down s0 s') s.
Proof.
  induction l as [|c l IH]; intros m s T W; cbn [for_each]; [by wp_step|]. rewrite client_fds_cons, <- app_assoc in T. wp_step. change (join c) with (end_client c ;; act (Joined (started c))). wp_step.
  eapply wp_mono; [by apply end_client_tidy|]. intros [] s1 [T1 W1]. unfold act. wp_step. apply IH; [|by apply wound_down_event].
  destruct T1 as [O N S T1]. constructor; open_members; try done. cbn [threads length] in *. lia.
Qed.

Lemma hang_ups_tidy l ex m s0 : forall s, tidy ex m s -> wound_down s0 s -> wp (for_each l hang_up_client) (fun _ s' => tidy ex m s' /\ wound_down s0 s') s.
Proof.
  induction l as [|c l IH]; intros s T W; cbn [for_each]; [by wp_step|]. wp_step. change (hang_up_client c) with (match fd_ c with Some fd => act (Hung_up fd) | None => skip end). destruct (fd_ c) as [fd|]; [unfold act|]; wp_step; apply IH; try done.
  - by apply tidy_event.
Qed.

(** The listener is closed: what is left is not its business. *)
Lemma close_listener_tidy ex m s : tidy ex m s -> listening s = true -> wp close_listener (fun _ s' => tidy ex m s' /\ members s' = (enabled s, port_ s, None, true, false, []) /\ forall f, bound_to f (trail s') = bound_to f (trail s)) s.
Proof.
  intros T L. unfold close_listener. do 2 wp_step. cbn [id]. unfold listening in L. destruct (listen_fd s) as [fd|] eqn:Ef; [|done]. unfold act. do 12 wp_step. cbn [id]. open_members.
  set (s1 := {| enabled := enabled s; listen_fd := None |}).
  assert (T1 : tidy (client_fds (clients s) ++ ex) (Z.of_nat (length (clients s)) + m) s1).
  { apply (tidy_closed fd _ _ {| enabled := enabled s; port_ := port_ s; listen_fd := None; quit_ := true; acceptor := false; clients := []; trail := Hung_up fd :: trail s |}).
    apply (tidy_event (Hung_up fd) _ _ {| enabled := enabled s; port_ := port_ s; listen_fd := None; quit_ := true; acceptor := false; clients := []; trail := trail s |}); try done.
    destruct T as [O N S T]. unfold fds in *. rewrite Ef in *. constructor; try done. }
  assert (M1 : members s1 = (enabled s, port_ s, None, true, false, []) /\ forall f, bound_to f (trail s1) = bound_to f (trail s)) by done. destruct M1 as [M1 B1].
  assert (W1 : wound_down s1 s1) by done. clearbody s1.
  wp_step. eapply wp_mono; [by apply hang_ups_tidy|]. intros [] s2 [T2 W2]. eapply wp_mono; [by apply joins_tidy|]. intros [] s3 [T3 [M B]]. split; [done|].
  split; [by rewrite M|]. intros f. by rewrite B.
Qed.

(** The log grew, and nothing in it is about a descriptor that was open. *)
Definition leaves (f : Z) (ev : LEv) : Prop := match ev with Closed_fd g | Hung_up g | Bound g _ _ => g <> f | _ => True end.
Definition spares (l l' : list LEv) : Prop := exists new, l' = new ++ l /\ forall f, f ∈ open_fds l -> Forall (leaves f) new.

Lemma spared_port l l' f : spares l l' -> f ∈ open_fds l -> bound_to f l' = bound_to f l.
Proof.
  intros (new & -> & Hn) Hf. specialize (Hn f Hf). induction Hn as [|ev new Hev _ IH]; [done|]. cbn [app]. destruct ev as [| |?| | | | |]; try done.
  destruct ok as []; [|done]. cbn [leaves] in Hev. cbn [bound_to]. by rewrite (proj2 (Z.eqb_neq _ _) Hev).
Qed.

Lemma bind_tidy port ex m s (Q : option Z -> Listener -> Prop) : tidy ex m s ->
  (forall s', tidy ex m s' -> members s' = members s -> spares (trail s) (trail s') -> Q None s') ->
  (forall fd s', tidy (fd :: ex) m s' -> members s' = members s -> spares (trail s) (trail s') -> bound_to fd (trail s') = Some port -> Q (Some fd) s') ->
  wp (bind_listener port) Q s.
Proof.
  intros T HN HS. unfold bind_listener, act. do 4 wp_step. cbn [id]. destruct (socket (trail s)) as [fd|] eqn:E.
  2: { wp_step. apply HN; [by apply_quiet|done|]. exists [Opened None]. split; [done|]. intros f Hf. by repeat constructor. }
  assert (F : fd ∉ open_fds (trail s)) by (by apply fresh_socket).
  assert (T1 : tidy (fd :: ex) m (s <| trail ::= cons (Opened (Some fd)) |>)).
  { destruct T as [O N S T]. constructor; open_members; try done.
    - cbn [open_fds]. rewrite O. change (fds (s <| trail ::= cons (Opened (Some fd)) |>)) with (fds s). rewrite !list_to_set_app_L. cbn [list_to_set]. set_solver.
    - change (NoDup (fds s ++ fd :: ex)). rewrite <- Permutation_middle. apply NoDup_cons. split; [|done]. rewrite O in F. by rewrite elem_of_list_to_set in F. }
  assert (L : forall f, f ∈ open_fds (trail s) -> fd <> f) by (intros f Hf <-; by apply F).
  do 4 wp_step. cbn [id]. set (ok := binds_to _ _ _). destruct ok; wp_go.
  - apply HS; [by apply_quiet|done| |].
    + eexists [_; _]. split; [done|]. intros f Hf. repeat constructor. cbn. by apply L.
    + cbn [trail upd bound_to]. by rewrite Z.eqb_refl.
  - apply HN; [|done|].
    + apply (tidy_closed fd). by apply (tidy_event (Bound fd port false)) in T1.
    + eexists [_; _; _]. split; [done|]. intros f Hf. repeat constructor; cbn; by apply L.
Qed.

(** ** What holds between two calls *)

Record well (s : Listener) : Prop := {
  w_tidy : tidy [] 0 s;
  w_acceptor : acceptor s = listening s;
  w_runs : listening s = true -> quit_ s = false;
  w_idle : listening s = false -> clients s = [];
  w_room : Z.of_nat (length (clients s)) <= Z.max 0 max_clients;
  w_port : forall fd, listen_fd s = Some fd -> bound_to fd (trail s) = Some (port_ s);
  w_enabled : listening s = true -> enabled s = true
}.

Lemma new_listener_well on port : well (new_listener on port).
Proof. constructor; try done. - constructor; try done. constructor. - cbn. lia. Qed.

(** Nothing but the log has changed. *)
Lemma well_same s s' : well s -> tidy [] 0 s' -> members s' = members s -> (forall fd, listen_fd s = Some fd -> bound_to fd (trail s') = bound_to fd (trail s)) -> well s'.
Proof.
  intros [W1 W2 W3 W4 W5 W6 W7] T [= E1 E2 E3 E4 E5 E6] B. unfold listening in *. constructor; unfold listening; rewrite ?E1, ?E2, ?E3, ?E4, ?E5, ?E6; try done.
  intros fd Hfd. rewrite B by done. by apply W6.
Qed.

Lemma listening_fd s fd ex m : tidy ex m s -> listen_fd s = Some fd -> fd ∈ open_fds (trail s).
Proof. intros [O _ _ _] E. rewrite O, elem_of_list_to_set. unfold fds. rewrite E. left. Qed.

Lemma tidy_members ex m s s' : tidy ex m s -> trail s' = trail s -> fds s' = fds s -> clients s' = clients s -> tidy ex m s'.
Proof. intros [O N S T] E1 E2 E3. constructor; rewrite ?E1, ?E2, ?E3; done. Qed.

(** A descriptor that is bound becomes the listener's. *)
Lemma adopt_well fd s : tidy [fd] 0 s -> listen_fd s = None -> enabled s = true -> clients s = [] -> bound_to fd (trail s) = Some (port_ s) ->
  well (s <| listen_fd := Some fd |> <| quit_ := false |> <| acceptor := true |>).
Proof.
  intros [O N S T] El Ee Ec B. constructor; try done; open_members.
  - assert (F : fds s = []) by (unfold fds; by rewrite El, Ec). rewrite F in O, N.
    constructor; unfold fds; open_members; rewrite ?Ec in *; done.
  - rewrite Ec. cbn. lia.
  - by intros ? [= <-].
Qed.

Lemma open_listener_spec s : well s -> listening s = false ->
  wp (open_listener (port_ s)) (fun ok s' => listening s' = ok /\ port_ s' = port_ s /\ enabled s' = enabled s
    /\ if ok then well (s' <| enabled := true |>) else well s' /\ members s' = members s) s.
Proof.
  intros W Hl. unfold open_listener. wp_step. pose proof W as [T _ _ Hi _ _ _]. specialize (Hi Hl). assert (El : listen_fd s = None) by (unfold listening in Hl; by destruct (listen_fd s)).
  eapply bind_tidy; [exact T| |].
  - intros s1 T1 M1 _. wp_step. pose proof M1 as [= E1 E2 E3 E4 E5 E6]. unfold listening. rewrite E3, El. do 3 (split; [done|]). split; [|done].
    apply (well_same s); try done. intros fd Hfd. by rewrite El in Hfd.
  - intros fd s1 T1 [= E1 E2 E3 E4 E5 E6] _ B. wp_step. unfold adopt_listener. do 2 wp_step. open_members. do 3 (split; [done|]).
    assert (T2 : tidy [fd] 0 (s1 <| enabled := true |>)) by (by apply (tidy_members [fd] 0 s1)).
    assert (K := adopt_well fd (s1 <| enabled := true |>) T2). open_members. apply K; [congruence|done|congruence|by rewrite E2].
Qed.

Lemma close_listener_spec s : well s -> wp close_listener (fun _ s' => tidy [] 0 s' /\ listening s' = false /\ clients s' = [] /\ acceptor s' = false /\ port_ s' = port_ s /\ enabled s' = enabled s) s.
Proof.
  intros W. destruct (listening s) eqn:Hl.
  - eapply wp_mono; [apply (close_listener_tidy [] 0); [apply W|done]|]. intros [] s1 (T & [= E1 E2 E3 E4 E5 E6] & _). unfold listening. by rewrite E3.
  - unfold close_listener. do 2 wp_step. cbn [id]. pose proof W as [T A _ C _ _ _]. specialize (C Hl). rewrite Hl in A. unfold listening in *. destruct (listen_fd s) eqn:E; [done|]. wp_step. by rewrite E.
Qed.

(** Closed, it is well whether it is enabled or not. *)
Lemma closed_well s : tidy [] 0 s -> listening s = false -> clients s = [] -> acceptor s = false -> well s.
Proof.
  intros T L C A. constructor; [done|by rewrite A, L|by rewrite L|done|rewrite C; cbn; lia| |by rewrite L]. intros fd E. unfold listening in L. by rewrite E in L.
Qed.

Lemma enabled_already s : enabled s = true -> s <| enabled := true |> = s.
Proof. intros E. destruct s. cbn in *. by subst. Qed.

Lemma start_well s : well s -> listening s = false -> wp start (fun _ s' => well s') s.
Proof.
  intros W L. unfold start. do 2 wp_step. cbn [id]. destruct (enabled s) eqn:E; cbn [negb]; [|by wp_step]. eapply wp_mono; [by apply open_listener_spec|].
  intros [] s1 (_ & _ & E1 & H1); [|apply H1]. by rewrite enabled_already in H1 by congruence.
Qed.

Lemma close_well s : well s -> wp close_listener (fun _ s' => well s' /\ listening s' = false /\ clients s' = [] /\ port_ s' = port_ s /\ enabled s' = enabled s) s.
Proof. intros W. eapply wp_mono; [by apply close_listener_spec|]. intros [] s1 (T & L & C & A & P & E). split; [by apply closed_well|done]. Qed.

Lemma stop_well s : well s -> wp stop (fun _ s' => well s') s.
Proof.
  intros W. unfold stop. do 2 wp_step. cbn [id]. destruct (listen_fd s); [|by wp_step]. eapply wp_mono; [by apply close_well|]. intros [] s1 Hs1. apply Hs1.
Qed.

(** What [set_enabled] promises. *)
Definition enabled_as_asked (on : bool) (s : Listener) (r : ApplyResult) (s' : Listener) : Prop :=
  port_ s' = port_ s
  /\ if on then (if ar_ok r then listening s' = true /\ enabled s' = true else members s' = members s)
     else ar_ok r = true /\ listening s' = false /\ clients s' = [] /\ enabled s' = false.

Lemma set_enabled_spec on s : well s -> wp (set_enabled on) (fun r s' => well s' /\ enabled_as_asked on s r s') s.
Proof.
  intros W. unfold set_enabled. do 2 wp_step. cbn [id]. pose proof W as [T A Rn I Ro Po En].
  destruct (Bool.eqb on (enabled s) && Bool.eqb on (listening s)) eqn:B.
  { apply andb_true_iff in B as [B1%eqb_prop B2%eqb_prop]. wp_step. split; [done|]. unfold enabled_as_asked. cbn [ar_ok was_applied]. split; [done|]. destruct on; [done|]. by rewrite I. }
  destruct on; cbn [negb].
  - assert (L : listening s = false) by (destruct (listening s); [by rewrite (En eq_refl) in B|done]).
    wp_step. eapply wp_mono; [by apply open_listener_spec|]. intros [] s1 (L1 & P1 & E1 & H1); cbn [negb]; wp_go; [|by destruct H1]. done.
  - wp_step. eapply wp_mono; [by apply close_well|]. intros [] s1 (W1 & L1 & C1 & P1 & E1). do 3 wp_step. split; [|done]. pose proof W1 as [T1 A1 _ _ _ _ _].
    apply closed_well; [by apply (tidy_members [] 0 s1)|done|done|]. open_members. by rewrite A1.
Qed.

(** What [set_port] promises: rejected, it touched nothing that was there. *)
Definition port_as_asked (port : Z) (s : Listener) (r : ApplyResult) (s' : Listener) : Prop :=
  if ar_ok r then port_ s' = port /\ listening s' = listening s /\ enabled s' = enabled s /\ (listening s = true -> port <> port_ s -> clients s' = [])
  else members s' = members s /\ spares (trail s) (trail s').

Lemma spares_refl l : spares l l.
Proof. exists []. by split. Qed.

Lemma set_port_spec port s : well s -> wp (set_port port) (fun r s' => well s' /\ port_as_asked port s r s') s.
Proof.
  intros W. unfold set_port. wp_step. { wp_step. split; [done|]. split; [done|]. apply spares_refl. }
  do 2 wp_step. cbn [id]. pose proof W as [T A Rn I Ro Po En]. destruct (Z.eqb_spec port (port_ s)) as [->|Np]. { wp_step. split; [done|]. by split. }
  destruct (listening s) eqn:L; [rewrite (En eq_refl); cbn [negb orb]|rewrite orb_true_r].
  - cbv zeta. wp_step. eapply bind_tidy; [exact T| |].
    + intros s1 T1 M1 S1. wp_step. split; [|by split]. apply (well_same s); try done. intros fd Hfd. apply spared_port; [done|]. by apply (listening_fd s fd [] 0).
    + intros fd s1 T1 M1 S1 B1. pose proof M1 as [= E1 E2 E3 E4 E5 E6]. wp_step. eapply wp_mono; [apply close_listener_tidy; [exact T1|by unfold listening in *; rewrite E3]|].
      intros [] s2 (T2 & [= F1 F2 F3 F4 F5 F6] & B2). unfold adopt_listener. do 5 wp_step. split; [|done || (split; [done|]; split; [done|]; split; [open_members; congruence|done])].
      assert (T3 : tidy [fd] 0 (s2 <| port_ := port |>)) by (by apply (tidy_members [fd] 0 s2)).
      assert (K := adopt_well fd (s2 <| port_ := port |>) T3). open_members. apply K; [done|rewrite F1, E1; by apply En|done|by rewrite B2].
  - do 3 wp_step. split; [|unfold port_as_asked; cbn [ar_ok was_applied]; do 3 (split; [exact L || done|]); by rewrite L]. assert (C := I eq_refl). apply closed_well; [by apply (tidy_members [] 0 s)|done|done|open_members; congruence].
Qed.

(** ** Connections *)

(** All but the clients, and the port of a descriptor. *)
Definition stays (s s' : Listener) : Prop :=
  (enabled s', port_ s', listen_fd s', quit_ s', acceptor s') = (enabled s, port_ s, listen_fd s, quit_ s, acceptor s) /\ forall f, bound_to f (trail s') = bound_to f (trail s).

Lemma well_stays s s' : well s -> tidy [] 0 s' -> stays s s' -> (listening s = false -> clients s' = []) -> Z.of_nat (length (clients s')) <= Z.max 0 max_clients -> well s'.
Proof.
  intros [W1 W2 W3 W4 W5 W6 W7] T [[= E1 E2 E3 E4 E5] B] C R. unfold listening in *. constructor; unfold listening; rewrite ?E1, ?E2, ?E3, ?E4, ?E5; try done.
  intros fd Hfd. rewrite B. by apply W6.
Qed.

Lemma tidy_permuted ex ex' m s s' : tidy ex m s -> fds s' ++ ex' ≡ₚ fds s ++ ex -> trail s' = trail s -> Z.of_nat (length (clients s')) + 0 = Z.of_nat (length (clients s)) + m -> tidy ex' 0 s'.
Proof.
  intros [O N S T] P E L. constructor; rewrite ?E; try done.
  - rewrite O. apply leibniz_equiv. by rewrite P.
  - by rewrite P.
  - by rewrite T.
Qed.

Lemma client_fds_split l : client_fds (List.filter (fun c => negb (done_ c)) l) ++ client_fds (List.filter done_ l) ≡ₚ client_fds l.
Proof.
  induction l as [|c l IH]; [done|]. cbn [List.filter]. rewrite (client_fds_cons c l). destruct (done_ c); cbn [negb].
  - rewrite (client_fds_cons c (List.filter _ l)). rewrite Permutation_app_swap_app. by rewrite IH.
  - rewrite (client_fds_cons c (List.filter _ l)), <- app_assoc. by rewrite IH.
Qed.

Lemma length_split (l : list Client) : (length (List.filter (fun c => negb (done_ c)) l) + length (List.filter done_ l))%nat = length l.
Proof. induction l as [|c l IH]; [done|]. cbn [List.filter length]. destruct (done_ c); cbn [negb length]; lia. Qed.

Lemma reap_well s : well s -> wp reap_finished (fun _ s' => well s' /\ stays s s') s.
Proof.
  intros W. unfold reap_finished. do 4 wp_step. cbn [id]. pose proof W as [T A Rn I Ro Po En]. set (s1 := s <| clients ::= List.filter (fun c => negb (done_ c)) |>).
  assert (T1 : tidy (client_fds (List.filter done_ (clients s)) ++ []) (Z.of_nat (length (List.filter done_ (clients s))) + 0) s1).
  { pose proof (length_split (clients s)) as L. rewrite app_nil_r. destruct T as [O N S T]. assert (P : fds s1 ++ client_fds (List.filter done_ (clients s)) ≡ₚ fds s ++ []).
    { unfold fds. change (clients s1) with (List.filter (fun c => negb (done_ c)) (clients s)). change (listen_fd s1) with (listen_fd s). rewrite <- app_assoc, app_nil_r. by rewrite client_fds_split. }
    constructor; [|by rewrite P|done|].
    - change (trail s1) with (trail s). rewrite O. apply leibniz_equiv. by rewrite P.
    - change (trail s1) with (trail s). change (clients s1) with (List.filter (fun c => negb (done_ c)) (clients s)). lia. }
  eapply wp_mono; [apply (joins_tidy _ [] s1 0 s1 T1); done|]. intros [] s2 [T2 [[= E1 E2 E3 E4 E5 E6] B]].
  assert (K : stays s s2) by (split; [by rewrite E1, E2, E3, E4, E5|done]). split; [|done]. apply (well_stays s); [done|done|done| |]; rewrite E6.
  - intros L. open_members. by rewrite (I L).
  - open_members. pose proof (length_split (clients s)). lia.
Qed.

Lemma accept_round_well s : well s -> wp (accept_round max_clients) (fun _ s' => well s') s.
Proof.
  intros W. unfold accept_round. do 2 wp_step. cbn [id]. apply wp_when; intros Ha; [|done]. apply andb_true_iff in Ha as [Ha _]. wp_step.
  eapply wp_mono; [by apply reap_well|]. intros [] s1 [W1 [[= E1 E2 E3 E4 E5] _]]. pose proof W1 as [T A Rn I Ro Po En]. assert (L : listening s1 = true) by (rewrite <- A, E5; done).
  unfold act. do 4 wp_step. cbn [id]. destruct (accepts (trail s1)) as [fd|] eqn:F.
  2: { wp_step. apply (well_stays s1); try done. by apply_quiet. }
  assert (Fr : fd ∉ open_fds (trail s1)) by (by apply fresh_accept).
  assert (T1 : tidy [fd] 0 (s1 <| trail ::= cons (Accepted (Some fd)) |>)).
  { destruct T as [O N S T]. constructor; open_members; try done.
    - cbn [open_fds]. rewrite O. change (fds (s1 <| trail ::= cons (Accepted (Some fd)) |>)) with (fds s1). rewrite !list_to_set_app_L. cbn [list_to_set]. set_solver.
    - change (NoDup (fds s1 ++ [fd])). rewrite app_nil_r in *. apply NoDup_app. split; [done|]. split; [|by repeat constructor; apply not_elem_of_nil].
      intros x Hx ->%list_elem_of_singleton. apply Fr. rewrite O. by apply elem_of_list_to_set. }
  do 2 wp_step. cbn [id]. wp_step.
  - unfold refuse, act. do 4 wp_step. apply (well_stays s1); try done. apply (tidy_closed fd). by apply_quiet.
  - do 3 wp_step. apply Z.leb_gt in E. apply (well_stays s1); [done| |done|by rewrite L|].
    + destruct T1 as [O N S T1]. assert (Fd : fds s1 ++ [fd] = option_list (listen_fd s1) ++ client_fds (clients s1 ++ [{| fd_ := Some fd; started := fd; done_ := false |}])).
      { unfold fds, client_fds. by rewrite omap_app, <- app_assoc. }
      constructor; unfold fds in *; open_members; rewrite ?app_nil_r; [rewrite <- Fd; exact O|rewrite <- Fd; exact N|exact S|]. cbn [threads] in *. rewrite T1, length_app. cbn. lia.
    + open_members. rewrite length_app. cbn [length]. lia.
Qed.

Lemma client_fds_insert l i c st : l !! i = Some c -> client_fds (<[i := {| fd_ := None; started := st; done_ := true |}]> l) ++ client_fds [c] ≡ₚ client_fds l.
Proof.
  revert i. induction l as [|d l IH]; intros [|i] H; try done.
  - injection H as ->. cbn [insert list_insert]. rewrite (client_fds_cons _ l), (client_fds_cons c l). cbn [client_fds omap list_omap fd_ app]. apply Permutation_app_comm.
  - cbn [insert list_insert]. rewrite (client_fds_cons d l), (client_fds_cons d (<[i := _]> l)). rewrite <- app_assoc. by rewrite (IH i H).
Qed.

Lemma client_done_well i s : well s -> wp (client_done i) (fun _ s' => well s') s.
Proof.
  intros W. unfold client_done. do 2 wp_step. cbn [id]. destruct (clients s !! i) as [c|] eqn:Ec; [|by wp_step]. pose proof W as [T A Rn I Ro Po En].
  set (f := fun l : list Client => <[i := {| fd_ := None; started := started c; done_ := true |}]> l).
  assert (T1 : tidy (client_fds [c]) 0 (s <| clients ::= f |>)).
  { apply (tidy_permuted [] _ 0 s); [done| |done|open_members; unfold f; by rewrite length_insert]. unfold fds. open_members. rewrite <- app_assoc, app_nil_r. unfold f. by rewrite client_fds_insert. }
  assert (K : forall s', tidy [] 0 s' -> stays s s' -> clients s' = f (clients s) -> well s').
  { intros s' T' S' C'. apply (well_stays s); try done; rewrite C'; unfold f; [|by rewrite length_insert]. intros L. by rewrite (I L) in *. }
  wp_step. unfold end_client, act. unfold client_fds in T1. cbn [omap list_omap] in T1. destruct (fd_ c) as [fd|]; do 2 wp_step; apply K; try done. exact (tidy_closed fd [] 0 _ T1).
Qed.

Lemma do_op_well op s : well s -> wp (do_op max_clients op) (fun _ s' => well s') s.
Proof.
  intros W. destruct op as [|on|p| |i]; cbn [do_op]; [by apply stop_well| | |by apply accept_round_well|by apply client_done_well]; wp_step;
    (eapply wp_mono; [by apply set_enabled_spec || by apply set_port_spec|]); intros r s1 [W1 _]; by wp_step.
Qed.

Lemma history_well ops on port : wp (history max_clients ops) (fun _ s => well s) (new_listener on port).
Proof.
  unfold history. wp_step. eapply wp_mono; [apply start_well; [apply new_listener_well|done]|]. intros r s1 W. cbv beta in W.
  apply (wp_for_each ops _ (fun _ s => well s)); [done|]. intros op l' s' W'. by apply do_op_well.
Qed.
End Tidy.


(** ** A kernel *)

(** The largest descriptor ever given out. *)
Fixpoint top (l : list LEv) : Z :=
  match l with [] => 2 | (Opened (Some fd) | Accepted (Some fd)) :: l => Z.max fd (top l) | _ :: l => top l end.

Lemma open_below l fd : fd ∈ open_fds l -> fd <= top l.
Proof.
  induction l as [|ev l IH]; cbn [open_fds top]; [by intros ?%elem_of_empty|]. destruct ev as [[f|]| |[f|]| | |f| |]; try done.
  - intros [->%elem_of_singleton|Hl%IH]%elem_of_union; lia.
  - intros [->%elem_of_singleton|Hl%IH]%elem_of_union; lia.
  - intros [Hl _]%elem_of_difference. by apply IH.
Qed.

(** Every descriptor is new; the port 554 is somebody else's. *)
#[local] Instance busy_port : Net := {|
  socket l := Some (top l + 1); binds_to _ _ p := negb (p =? 554); accepts l := Some (top l + 1); first_bytes _ := txt "OPTIONS * RTSP/1.0" ++ CRLF ++ txt "CSeq: 7" ++ CRLF ++ CRLF |}.


(** The port is taken when the daemon starts: another one is accepted with the word that RTSP
    is disabled, which it is not, and still nothing listens. *)
Example dead_port_is_left :
  let s := exec (history 2 []) (new_listener true 554) in
  let r := result (set_port 8554) s in let s' := exec (set_port 8554) s in
  (enabled s, listening s) = (true, false) /\ (ar_ok r, message r) = (true, "stored; rtsp is disabled"%string) /\ (enabled s', listening s') = (true, false).
Proof. by vm_compute. Qed.

(** One more than allowed is answered and let go of. *)
Example one_too_many :
  let s := exec (history 1 [AcceptRound; AcceptRound]) (new_listener true 8554) in
  (length (clients s), threads (trail s)) = (1%nat, 1) /\ existsb (fun ev => match ev with Refused _ a => text_eqb a (txt "RTSP/1.0 453 Not Enough Bandwidth" ++ CRLF ++ txt "CSeq: 7" ++ CRLF ++ CRLF) | _ => false end) (trail s) = true.
Proof. by vm_compute. Qed.
